(* ===== verification/_CoqProject ===== *)
-Q . S2P
Prelude.v
Types.v
Chunker.v
Database.v
DbStore.v
Dpa.v
DpaInv.v
DpaProps.v
Pyramid.v
DbSelect.v
DbInv.v
DbGc.v
DbProps.v
Manifest.v
ManifestProps.v
ManifestStore.v
Api.v
ApiProps.v
FileSystem.v
FileProps.v
FileDownload.v
MemStore.v
MemInv.v
MemEvict.v
MemView.v
MemProps.v
Streamer.v
MediaServer.v
MediaProps.v
Messages.v
SyncDb.v
Syncer.v
Hive.v
HiveLoop.v
Node.v
NodeProps.v
NodeInv.v
NodeDisk.v
DpaNode.v
NodeWait.v
DocNode.v
Protocol.v
SeqReader.v
Config.v
NodeMake.v
Cli.v
Tools.v
Client.v
Command.v
CommandProps.v
Service.v
Flags.v
FlagsProps.v
Chain.v
