(* ===== verification/Prelude.v ===== *)
(** * A model of livepeer-swarm

    livepeer-swarm is a node of a peer-to-peer network that stores content in
    chunks addressed by their hash and relays video streams. A document is split
    into a tree of chunks; chunks live in a memory cache over a disk store and are
    exchanged with peers over the "bzz" protocol; manifests map paths to documents
    for the HTTP API; a streamer keeps the video streams and their subscribers.

    ** The parts and their files

    - [Prelude]: machine integers, slices, encodings, the result type, tactics.
    - [Types] ([livepeer/storage/types.go]): keys, their bit slices and text forms.
    - [Chunker] ([storage/chunker.go]): [Split] and the lazy reader [ReadAt], with
      reader, buffers and chunk channel as explicit state; one schedule of workers.
    - [Pyramid] ([storage/pyramid.go]): the chunker that builds the tree from its
      leaves, with its task table and the two indices of a level.
    - [Database] ([storage/database.go]): leveldb as the class [LevelDB] with its
      documented laws, an instance on finite maps, and the RLP of index records.
    - [DbStore] ([storage/dbstore.go]): the disk store as a record with [Put],
      [Get], the garbage collector and the sync iterator. [DbSelect] has the
      quickselect, [DbInv] the invariant, [DbGc] the collector, [DbProps] the claims.
    - [Dpa] ([storage/dpa.go]): the document API as a transition system of clients,
      store and retrieve loops, their workers and the quit channel. [DpaInv] has its
      invariant, [DpaProps] what it promises over any store that keeps its laws, [DpaNode] its
      composition with the node and [NodeWait] the wait groups that [Store] calls share
      with the local store. [DocNode] puts the content API over the chunker and the node.
    - [Manifest], [ManifestProps] ([api/manifest.go]): manifest tries; the relation
      [has] says which content a trie holds under which path. [ManifestStore] has
      tries whose parts are loaded on demand, over the classes [ManifestJson] and
      [DocStore], and relates them to the loaded ones.
    - [Api] ([api/api.go], [api/storage.go], [api/http/server.go]): URIs, storing
      and retrieving through manifests, the request handler; [ApiProps] relates
      updates and reads of a stored manifest to the map of its paths.
    - [FileSystem] ([api/filesystem.go]): paths, a file tree, [Upload] and [Download],
      the latter as a transition system of the feeding loop and its goroutines;
      [FileProps] and [FileDownload] have the claims.
    - [Streamer] ([streaming/streamer.go], the workers of the package lpms): streams,
      subscribers and workers, which run until they return, by themselves or once they
      see that they were cancelled; RTMP subscriptions are pending goroutines.
    - [MediaServer], [MediaProps] ([mediaserver/mediaserver.go]): the handlers that the
      RTMP and HLS server calls, over the streamer and the requester table, and the
      sweep of idle subscriptions.
    - [Messages] ([network/messages.go], [peer_muxer.go], [streamdb.go]): messages.
    - [SyncDb] ([network/syncdb.go]): delivery queues; [bufferRead] as a state
      machine over the cases of its select, [dbRead] as a loop with fuel.
    - [Syncer] ([network/syncer.go]): the sync script, the loop that sends unsynced
      keys, deliveries.
    - [Hive] ([network/hive.go]): peers over the class [Kademlia], proximity;
      [HiveLoop] has its goroutines with start and stop as a transition system.
    - [MemStore] ([storage/memstore.go]): the memory cache, a prefix tree whose nodes
      form a heap addressed by their way from the root. [MemInv] has its invariant,
      [MemEvict] the removal of the oldest entry, [MemView] the map that a tree stands
      for, [MemProps] the claims.
    - [Node], [NodeProps] ([storage/localstore.go], [netstore.go], [dpa.go],
      [network/depo.go], [forwarding.go]): chunk objects in a heap shared by cache,
      requests and handlers; goroutines are tasks; the node works over the interfaces
      [MemIndex] and [ChunkDisk], whose instances are [MemStore] and [DbStore].
      [NodeInv] has the invariant of the whole node, [NodeDisk] its composition with
      the disk store.
    - [Protocol] ([network/protocol.go]): handshake, dispatch, main loop.
    - [SeqReader] ([api/http/server.go]): the sequential reader, as a transition system
      of concurrent calls of [ReadAt].
    - [Config] ([api/config.go]): the configuration and its file, over the class
      [ConfigDeps]. [NodeMake] makes the stores and the hive of a node from it, as
      [NewSwarm] does, and shows that the disk store keeps to chunks that hash to
      their keys.
    - [Cli] ([cmd/utils/flags.go], [customflags.go], [fdlimit_unix.go]): the flags of a
      run and the configuration of the node they give.
    - [Tools] ([cmd/utils/cmd.go], [internal/debug]): the import of block files, the
      recorders of profiles and traces.
    - [Client] ([api/http/roundtripper.go]): the transport of clients of the proxy.
    - [Command], [CommandProps] ([cmd/livepeer/main.go], [livepeer/livepeer.go]): accounts,
      the service from its configuration to its shutdown, sequences of runs.
    - [Service] ([livepeer/livepeer.go], [network/protocol.go], [storage/dpa.go]): the
      protocol and the RPC services of the service, the local service.
    - [Flags], [FlagsProps] ([cmd/livepeer/main.go], [cmd/utils/flags.go],
      [internal/debug/flags.go]): every flag with its default, and a run of the
      application from its arguments to the context of its command.
    - [Chain] ([cmd/utils/flags.go], [cmd/utils/cmd.go]): the chain and the Ethereum
      services of a context, the export of blocks, interrupts.

    Go functions keep their names; methods of the same name get the name of
    their type in front. Panics are [None], [Panic], [Crash] or [BPanic]; errors are
    values; an operation that blocks is [Wait] or [BBlocked].

    ** What the theorems show

    - Documents: splitting and reading any range are inverse
      ([split_read_roundtrip]), the tree depends on the bytes only, chunks fit; a
      huge claimed size makes the reader loop forever. The pyramid chunker builds the
      same tree for documents of one node read from a whole reader. Through the worker pools
      of the DPA every stored document is read back; a started API drains its queues, and
      then waits for disk writes only ([node_workers_drain]), and a stop strands what the
      workers have not taken ([node_stop_strands]). From the constructors of a
      node down to its database, what is put through the content API with a type that JSON
      need not escape is got again with its type ([swarm_put_then_get]): the theorem composes the laws of the
      manifest, the chunk tree, the workers, the node, the cache and the disk store
      through the classes [DocStore], [ChunkStore], [MemIndex], [ChunkDisk] and
      [DiskContents].
    - Disk store: put then get, also through a collection ([Put_Get]); the invariant and
      soundness of [Get], whatever the store holds, and of the collector; quickselect; the sync iterator; and the
      ways in which index entries and chunks are lost.
    - Memory cache: every history of operations gives the results of a map with access
      times that drops the least recently used entry ([MemStore_refines_lru]); what the
      capacity bounds and what it does not.
    - Manifests: [addEntry], [deleteEntry] and [findPrefixOf] refine a map of paths;
      the two ways in which an insertion destroys content. A trie that loads its parts
      on demand answers like the loaded one, and storing and loading are inverse.
    - API: components of a URI, put then get, a request that panics; an update of a
      stored manifest changes the content of one path, and a read finds the content
      of the map ([Modify_updates], [Get_finds]). An update fails only with a refusal of a
      document of its own by the document store. Paths and names are ASCII here: a node may
      split a longer character, and JSON does not keep the halves.
    - Files: an uploaded directory is the map of its files, and a download writes them
      back ([upload_download]), unless errors fill the channel ([download_blocks]).
    - Streams: in every history every entry has a worker of its own and no worker is
      forgotten, but a worker that returned by itself is not replaced
      ([returned_worker_stays]); the sweep of the media server drops the streams that were
      served once and are idle, and never a subscription that was not served; stream identifiers survive the paths they are put into.
    - Syncing: a shutdown saves the backlog, keys are sent once and in order, the
      script covers history when undisturbed; replay of foreign entries, livelock,
      gaps of the script.
    - Node: verified delivery of requested chunks, unverified storage of unknown
      ones, crashes by early, concurrent or odd messages, forwarding to one peer; in
      every run with keys of 32 bytes the heap stays well typed ([node_run_typed]); a chunk that
      was written to disk is found again by any cache that lost it ([chunk_survives_cache]).
    - Protocol: when a handshake accepts, what a bad message does; what the hive still
      does after its stop ([hive_after_stop]).
    - Program: the settings of the first run decide those of all later runs
      ([first_run_decides]), how an account is unlocked, which peers the flags give
      ([bootnodes_lose_first]); a command line means its settings, and which flags are
      read and never there ([command_line_settings], [missing_flags_inert],
      [command_flags_first]); an exported chain is handed over whole by an import; concurrent
      reads of the blocks of one stream all return ([blocks_in_any_order]).

    ** Fuel and bounds

    Integers of Go are [Z] with the wrap-around written out where it can matter
    ([u64], [i64], [u8]). The recursion of [split] and [join] is on the depth of the
    tree; the loops that find the depth have the fuel [depth_fuel], 63, enough for
    every size whose product with the branching factor does not overflow;
    manifest operations have the length of the path as fuel ([addEntry'] and the
    like), which suffices since each call consumes a character; a stored manifest is
    loaded one level at a time, and a listing has the longest path of the trie as fuel.
    Quickselect has the length of its range. In the memory cache a walk to the root
    has [climb_fuel], 16 steps per node of the way (a node has at most 14 levels of
    counts), a descent [tree_fuel], the number of nodes, and the separation of two keys
    [split_fuel], more than their bits; an import of blocks has one more than the
    entries of its file. [dbRead] has no sufficient fuel when it livelocks, which is
    what the theorem states; elsewhere totality with the given fuel is part of the
    theorems.

    ** What is not modelled

    Third-party packages are parameters or classes: leveldb, hash functions, JSON, gob
    and RLP of messages, Kademlia, swap, devp2p, lpms (its subscriber object is modelled
    as far as the streamer uses it, its workers by their start, their cancellation and
    their return), the chain of blocks with its [InsertChain]. Memory effects of data races other than
    the interleavings stated, time outs by wall-clock time, log output and metrics
    are left out, as are the wrap-around of the access counters of the cache after 2^64
    accesses. Of the Go library and of the package [cli] the parts that the program uses
    are written out: the parsing of numbers and flags, the run of an application. In [cmd]
    the help texts, the player process and the file descriptor limits of other systems
    are left out; of [internal/debug] what only sets or prints variables of the Go
    runtime; the pretty printers of messages and states; [testapi.go] only calls the switches of the hive;
    [streaming.go] and [livepeer_metrics.go] have no operations. *)
From stdpp Require Import base gmap list strings sorting.
From Stdlib Require Import ZArith Lia.
From Stdlib Require Ascii.

#[global] Set Default Proof Using "Type".
#[global] Open Scope Z_scope.

(** ** Machine integers

    Go's fixed-width integers are [Z] with the wrap-around written out. *)
Definition u8 (z : Z) : Z := z mod 2 ^ 8.
Definition u32 (z : Z) : Z := z mod 2 ^ 32.
Definition u64 (z : Z) : Z := z mod 2 ^ 64.
Definition i64 (z : Z) : Z := (z + 2 ^ 63) mod 2 ^ 64 - 2 ^ 63.

Definition is_u64 (z : Z) : Prop := 0 <= z < 2 ^ 64.
Definition is_i64 (z : Z) : Prop := - 2 ^ 63 <= z < 2 ^ 63.
Definition is_byte (z : Z) : Prop := 0 <= z < 256.

Declare Scope go_scope.
Delimit Scope go_scope with go.

(** Go's [[]byte] and [string]: a sequence of bytes. *)
Abbreviation bytes := (list Z).

(** Go's [len]. *)
Definition zlen {A} (l : list A) : Z := Z.of_nat (length l).
Notation "# l" := (zlen l) (at level 9, format "# l") : go_scope.
#[global] Open Scope go_scope.

(** ** Results of Go functions: a value, an error value, or a panic *)
Inductive result (E A : Type) : Type :=
| Ok (a : A)
| Err (e : E)
| Panic.
Arguments Ok {E A} _.
Arguments Err {E A} _.
Arguments Panic {E A}.

Definition rbind {E A B} (r : result E A) (k : A -> result E B) : result E B :=
  match r with
  | Ok a => k a
  | Err e => Err e
  | Panic => Panic
  end.

Notation "'let!' x := c 'in' k" := (rbind c (fun x => k))
  (at level 10, x binder, c at level 100, k at level 200,
   format "'let!'  x  :=  c  'in' '//' k") : go_scope.

(** A panic as the absence of a value, lifted to a result. *)
Definition or_panic {E A} (o : option A) : result E A :=
  match o with Some a => Ok a | None => Panic end.

(** ** Outcomes of operations on shared state

    A value; [Wait] for an operation that blocks or does not end; [Crash] for a panic. *)
Inductive outcome (A : Type) := Ret (a : A) | Wait | Crash.
Arguments Ret {A} _.
Arguments Wait {A}.
Arguments Crash {A}.

Definition obind {A B} (o : outcome A) (k : A -> outcome B) : outcome B :=
  match o with Ret a => k a | Wait => Wait | Crash => Crash end.
Notation "'let&' x := c 'in' k" := (obind c (fun x => k))
  (at level 10, x pattern, c at level 100, k at level 200, format "'let&'  x  :=  c  'in' '//' k") : go_scope.

(** A missing value (an index out of range, a nil pointer) is a panic. *)
Definition or_crash {A} (o : option A) : outcome A :=
  match o with Some a => Ret a | None => Crash end.

(** ** Slices *)

(** [l[i:j]], which panics out of range (a slice's capacity is its length here). *)
Definition slice {A} (l : list A) (i j : Z) : option (list A) :=
  if decide (0 <= i /\ i <= j /\ j <= #l)
  then Some (take (Z.to_nat (j - i)) (drop (Z.to_nat i) l))
  else None.

(** [l[i]], which panics out of range. *)
Definition index {A} (l : list A) (i : Z) : option A :=
  if decide (0 <= i) then l !! Z.to_nat i else None.

(** [copy(dst[off:], src)] for an offset within [dst]: as many elements as fit. *)
Definition copy_at {A} (dst : list A) (off : nat) (src : list A) : list A :=
  let n := Nat.min (length src) (length dst - off) in
  take off dst ++ take n src ++ drop (off + n) dst.

(** [make([]byte, n)]. *)
Definition make_bytes (n : Z) : bytes := replicate (Z.to_nat n) 0.

(** ** encoding/binary *)

(** The low [n] bytes of [z], least significant first. *)
Fixpoint le_bytes (n : nat) (z : Z) : bytes :=
  match n with
  | O => []
  | S n' => z mod 256 :: le_bytes n' (z / 256)
  end.

Fixpoint le_val (l : bytes) : Z :=
  match l with
  | [] => 0
  | b :: l' => b + 256 * le_val l'
  end.

(** [binary.LittleEndian.PutUint64] and [Uint64], big endian likewise. *)
Definition le64 (z : Z) : bytes := le_bytes 8 z.
Definition le64_val (l : bytes) : Z := le_val (take 8 l).
Definition be64 (z : Z) : bytes := rev (le_bytes 8 z).
Definition be64_val (l : bytes) : Z := le_val (rev (take 8 l)).

(** ** String literals as bytes *)
Fixpoint str (s : String.string) : bytes :=
  match s with
  | String.EmptyString => []
  | String.String c s' => Z.of_N (Ascii.N_of_ascii c) :: str s'
  end.

(** [bytes.Compare]: lexicographic order on byte strings. *)
Fixpoint bytes_compare (a b : bytes) : comparison :=
  match a, b with
  | [], [] => Eq
  | [], _ :: _ => Lt
  | _ :: _, [] => Gt
  | x :: a', y :: b' =>
    match x ?= y with
    | Eq => bytes_compare a' b'
    | c => c
    end
  end.
Definition bytes_ltb (a b : bytes) : bool :=
  match bytes_compare a b with Lt => true | _ => false end.
Definition bytes_leb (a b : bytes) : bool :=
  match bytes_compare a b with Gt => false | _ => true end.

(** ** Tactics of the development *)

(** Case analysis on the [if]s and [match]es of the goal or of hypotheses. *)
Ltac case_goal :=
  match goal with
  | |- context [match ?x with _ => _ end] => destruct x eqn:?
  end.
Ltac case_hyp H :=
  match type of H with
  | context [match ?x with _ => _ end] => destruct x eqn:?
  end.

(** Turn boolean comparisons of [Z] into propositions. *)
Ltac zbool :=
  repeat match goal with
  | H : andb _ _ = true |- _ => apply andb_prop in H; destruct H
  | H : andb _ _ = false |- _ => apply andb_false_iff in H
  | H : orb _ _ = false |- _ => apply orb_false_iff in H; destruct H
  | H : negb _ = true |- _ => apply negb_true_iff in H
  | H : negb _ = false |- _ => apply negb_false_iff in H
  | H : (_ <? _) = true |- _ => apply Z.ltb_lt in H
  | H : (_ <? _) = false |- _ => apply Z.ltb_ge in H
  | H : (_ <=? _) = true |- _ => apply Z.leb_le in H
  | H : (_ <=? _) = false |- _ => apply Z.leb_gt in H
  | H : (_ =? _) = true |- _ => apply Z.eqb_eq in H
  | H : (_ =? _) = false |- _ => apply Z.eqb_neq in H
  end.

(** [lia] after exposing lengths as [nat]s. *)
Ltac zlia := unfold zlen in *; cbn [length] in *; lia.

Create HintDb golib.
Create Rewrite HintDb golib.

(** ** Lemmas: integers *)

Lemma i64_id z : is_i64 z -> i64 z = z.
Proof. unfold is_i64, i64. intros. rewrite Z.mod_small; lia. Qed.

Lemma u64_id z : is_u64 z -> u64 z = z.
Proof. unfold is_u64, u64. intros. rewrite Z.mod_small; lia. Qed.

Lemma u64_range z : is_u64 (u64 z).
Proof. unfold is_u64, u64. apply Z.mod_pos_bound. lia. Qed.

(** ** Lemmas: lengths and slices *)

Lemma zlen_nonneg {A} (l : list A) : 0 <= #l.
Proof. zlia. Qed.

Lemma zlen_app {A} (l k : list A) : #(l ++ k) = #l + #k.
Proof. unfold zlen. rewrite length_app. lia. Qed.

Lemma zlen_nil {A} : #(@nil A) = 0.
Proof. reflexivity. Qed.

Lemma zlen_cons {A} (x : A) l : #(x :: l) = 1 + #l.
Proof. unfold zlen. simpl. lia. Qed.

Lemma zlen_take {A} (n : nat) (l : list A) : #(take n l) = Z.min (Z.of_nat n) (#l).
Proof. unfold zlen. rewrite length_take. lia. Qed.

Lemma zlen_drop {A} (n : nat) (l : list A) : #(drop n l) = Z.max 0 (#l - Z.of_nat n).
Proof. unfold zlen. rewrite length_drop. lia. Qed.

#[export] Hint Rewrite @zlen_app @zlen_nil @zlen_cons @zlen_take @zlen_drop : golib.

Lemma slice_Some {A} (l : list A) i j :
  0 <= i <= j -> j <= #l ->
  slice l i j = Some (take (Z.to_nat (j - i)) (drop (Z.to_nat i) l)).
Proof. intros. unfold slice. rewrite decide_True by lia. done. Qed.

Lemma slice_length {A} (l : list A) i j k : slice l i j = Some k -> #k = j - i.
Proof.
  unfold slice. case_decide; intros; simplify_eq.
  unfold zlen in *. rewrite length_take, length_drop. lia.
Qed.

Lemma slice_app_r {A} (l k : list A) i j :
  #l <= i <= j -> slice (l ++ k) i j = slice k (i - #l) (j - #l).
Proof.
  intros. unfold slice. rewrite zlen_app.
  pose proof (zlen_nonneg l).
  case_decide; case_decide; try lia; [|done]. do 2 f_equal; [lia|].
  rewrite drop_app_ge by zlia. f_equal. zlia.
Qed.

Lemma slice_full {A} (l : list A) : slice l 0 (#l) = Some l.
Proof.
  rewrite slice_Some by zlia. simpl. rewrite drop_0, firstn_all2; [done|zlia].
Qed.

Lemma length_copy_at {A} (dst src : list A) off :
  (off <= length dst)%nat -> length (copy_at dst off src) = length dst.
Proof.
  intros. unfold copy_at. rewrite !length_app, !length_take, length_drop. lia.
Qed.

Lemma copy_at_fit {A} (a b c src : list A) :
  length src = length b -> copy_at (a ++ b ++ c) (length a) src = a ++ src ++ c.
Proof.
  intros Hlen. unfold copy_at. rewrite !length_app.
  replace (Nat.min _ _) with (length src) by lia.
  rewrite take_app_length, firstn_all, Hlen.
  f_equal. f_equal. rewrite app_assoc, drop_app_ge by (rewrite length_app; lia).
  rewrite length_app. replace (_ - _)%nat with 0%nat by lia. apply drop_0.
Qed.

Lemma copy_at_whole {A} (dst src : list A) :
  length src = length dst -> copy_at dst 0 src = src.
Proof.
  intros Hlen. pose proof (copy_at_fit [] dst [] src Hlen) as H.
  simpl in H. rewrite !app_nil_r in H. exact H.
Qed.

Lemma copy_at_front {A} (b c src : list A) :
  length src = length b -> copy_at (b ++ c) 0 src = src ++ c.
Proof. exact (copy_at_fit [] b c src). Qed.

Lemma copy_at_back {A} (a b src : list A) n :
  n = length a -> length src = length b -> copy_at (a ++ b) n src = a ++ src.
Proof.
  intros -> Hlen. pose proof (copy_at_fit a b [] src Hlen) as H. by rewrite !app_nil_r in H.
Qed.

(** ** Lemmas: encodings *)

Lemma length_le_bytes n z : length (le_bytes n z) = n.
Proof. revert z; induction n; simpl; auto. Qed.

Lemma le_val_bytes n z : le_val (le_bytes n z) = z mod 2 ^ (8 * Z.of_nat n).
Proof.
  revert z; induction n as [|n IH]; intros z.
  - simpl. rewrite Z.mod_1_r. done.
  - cbn [le_bytes le_val]. rewrite IH.
    replace (8 * Z.of_nat (S n)) with (8 + 8 * Z.of_nat n) by lia.
    rewrite Z.pow_add_r by lia. change (2 ^ 8) with 256.
    rewrite (Z.rem_mul_r z) by lia. done.
Qed.

Lemma le_bytes_ok n z : Forall is_byte (le_bytes n z).
Proof.
  revert z; induction n; intros; constructor; auto.
  unfold is_byte. apply Z.mod_pos_bound. lia.
Qed.

Lemma le_val_bound l : Forall is_byte l -> 0 <= le_val l < 256 ^ #l.
Proof.
  induction 1 as [|b l Hb _ IH]; [by split|].
  rewrite zlen_cons, Z.pow_add_r by zlia. change (256 ^ 1) with 256.
  unfold is_byte in Hb. simpl le_val. lia.
Qed.

Lemma le_bytes_val l : Forall is_byte l -> le_bytes (length l) (le_val l) = l.
Proof.
  induction 1 as [|b l Hb _ IH]; [done|].
  unfold is_byte in Hb. cbn [le_bytes le_val length].
  rewrite (Z.mul_comm 256), Z.mod_add, Z.div_add, Z.mod_small, Z.div_small by lia.
  by rewrite Z.add_0_l, IH.
Qed.

Lemma length_le64 z : length (le64 z) = 8%nat.
Proof. apply length_le_bytes. Qed.

Lemma zlen_le64 z : #(le64 z) = 8.
Proof. unfold zlen. by rewrite length_le64. Qed.

Lemma length_be64 z : length (be64 z) = 8%nat.
Proof. unfold be64. rewrite length_rev. apply length_le_bytes. Qed.

Lemma le64_val_app z l : le64_val (le64 z ++ l) = u64 z.
Proof.
  unfold le64_val. replace 8%nat with (length (le64 z)) by apply length_le64.
  rewrite take_app_length. apply le_val_bytes.
Qed.

Lemma be64_val_app z l : be64_val (be64 z ++ l) = u64 z.
Proof.
  unfold be64_val. replace 8%nat with (length (be64 z)) by apply length_be64.
  rewrite take_app_length. unfold be64. rewrite rev_involutive. apply le_val_bytes.
Qed.

Lemma be64_inj a b : is_u64 a -> is_u64 b -> be64 a = be64 b -> a = b.
Proof.
  intros Ha Hb H. apply (f_equal (fun l => be64_val (l ++ []))) in H.
  rewrite !be64_val_app, !u64_id in H by done. exact H.
Qed.

Lemma rbind_Ok {E A B} (r : result E A) (k : A -> result E B) b :
  rbind r k = Ok b -> exists a, r = Ok a /\ k a = Ok b.
Proof. destruct r; simpl; naive_solver. Qed.

(** ** Lemmas: filters *)

Section Filter.
Context {A : Type} (P : A -> Prop) `{forall x, Decision (P x)}.

Lemma filter_all l : Forall P l -> filter P l = l.
Proof using Type. induction 1; [done|]. rewrite filter_cons_True by done. by f_equal. Qed.

Lemma filter_none l : Forall (fun x => ~ P x) l -> filter P l = [].
Proof using Type. induction 1; [done|]. by rewrite filter_cons_False. Qed.

Lemma Forall_filter_keep (Q : A -> Prop) l : Forall Q l -> Forall Q (filter P l).
Proof using Type.
  rewrite !Forall_forall. intros HQ x Hx. apply list_elem_of_filter in Hx as [_ Hx]. auto.
Qed.

Lemma NoDup_fmap_filter {B} (f : A -> B) l : NoDup (f <$> l) -> NoDup (f <$> filter P l).
Proof using Type. intros Hl. apply (sublist_NoDup _ _ Hl), fmap_sublist, sublist_filter. Qed.
End Filter.

(** ** Lemmas: runs of transition systems *)

Lemma rtc_keeps {A} (R : relation A) (P : A -> Prop) a b : (forall x y, P x -> R x y -> P y) -> rtc R a b -> P a -> P b.
Proof. intros H. induction 1 as [|x y z Hxy _ IH]; [done|]. eauto. Qed.

(** A system whose steps keep an invariant and decrease a measure has no infinite run. *)
Lemma measure_finite_inv {A} (R : relation A) (P : A -> Prop) (m : A -> nat) :
  (forall a b, P a -> R a b -> P b /\ (m b < m a)%nat) -> forall a, P a -> Acc (fun b a => R a b) a.
Proof.
  intros H. assert (Hn : forall n a, (m a < n)%nat -> P a -> Acc (fun b a => R a b) a).
  { induction n as [|n IH]; intros a Ha HP; [lia|]. constructor. intros b Hb. destruct (H a b HP Hb) as [HP' Hlt]. apply IH; [lia|done]. }
  intros a. apply (Hn (S (m a))). lia.
Qed.

Lemma measure_finite {A} (R : relation A) (m : A -> nat) :
  (forall a b, R a b -> (m b < m a)%nat) -> forall a, Acc (fun b a => R a b) a.
Proof. intros H a. apply (measure_finite_inv R (fun _ => True) m); auto. Qed.
