(* ===== verification/Types.v ===== *)
(** Storage types ([livepeer/storage/types.go]): content keys and their bit
    slices, hexadecimal and JSON forms, request status and chunk records.
    The theorems: [Key.bits] is a little-endian bit slice, and the JSON form
    of a 32-byte key reads back as the key. *)
From stdpp Require Import base gmap list strings.
From Stdlib Require Import ZArith Lia.
From S2P Require Import Prelude.

(** ** Keys *)
Abbreviation Key := (list Z).

Definition HashLength : Z := 32.

Definition Key_Size (x : Key) : Z := #x.

Definition Key_isEqual (x y : Key) : bool := bool_decide (x = y).

(** The loop of [Key.bits]: [ii] and [jj] advance by one byte, [j] bits are left. *)
Fixpoint bits_loop (fuel : nat) (h : Key) (ii jj j res : Z) : option Z :=
  if j =? 0 then Some res
  else match fuel with
  | O => None
  | S f =>
    let ii := ii + 1 in
    match index h ii with
    | None => None
    | Some b =>
      if j <? 8
      then Some (res + Z.shiftl (Z.land b (u8 (Z.shiftl 1 j - 1))) jj)
      else bits_loop f h ii (jj + 8) (j - 8) (res + Z.shiftl b jj)
    end
  end.

(** [h.bits(i, j)]: [None] is the index panic of [h[ii]]. *)
Definition Key_bits (h : Key) (i j : Z) : option Z :=
  let ii := Z.shiftr i 3 in
  let jj := Z.land i 7 in
  if Key_Size h <=? ii then Some 0
  else match index h ii with
  | None => None
  | Some b =>
    if jj + j <=? 8
    then Some (Z.land (Z.shiftr b jj) (u8 (Z.shiftl 1 j - 1)))
    else
      let res := Z.shiftr b jj in
      let jj := 8 - jj in
      let j := j - jj in
      bits_loop (Z.to_nat j) h ii jj j res
  end.

(** [common.Hash{}.Bytes()]. *)
Definition ZeroKey : Key := make_bytes HashLength.

Definition IsZeroKey (key : Key) : bool :=
  (#key =? 0) || bool_decide (key = ZeroKey).

(** ** Hexadecimal *)

Definition hex_digit (d : Z) : Z := if d <? 10 then 48 + d else 87 + d.

(** [fmt]'s [%x] of a byte slice, [hex.EncodeToString], [common.Bytes2Hex]. *)
Fixpoint hex_encode (l : bytes) : bytes :=
  match l with
  | [] => []
  | b :: l' => hex_digit (b / 16) :: hex_digit (b mod 16) :: hex_encode l'
  end.

(** [%0nx]: zero padding on the left. *)
Definition pad_zero (n : nat) (s : bytes) : bytes :=
  replicate (n - length s) 48 ++ s.

Definition hex_value (c : Z) : option Z :=
  if (48 <=? c) && (c <=? 57) then Some (c - 48)
  else if (97 <=? c) && (c <=? 102) then Some (c - 87)
  else if (65 <=? c) && (c <=? 70) then Some (c - 55)
  else None.

(** [hex.DecodeString]: fails on an odd length or on a character that is not a digit. *)
Fixpoint hex_decode (s : bytes) : option bytes :=
  match s with
  | [] => Some []
  | [_] => None
  | a :: b :: s' =>
    match hex_value a, hex_value b, hex_decode s' with
    | Some x, Some y, Some l => Some (16 * x + y :: l)
    | _, _, _ => None
    end
  end.

(** [common.Hex2Bytes]: the decoding error is dropped and leaves a nil slice. *)
Definition Hex2Bytes (s : bytes) : bytes :=
  match hex_decode s with Some l => l | None => [] end.

(** [key.Hex()] and [key.String()] are both [%064x]. *)
Definition Key_Hex (key : Key) : bytes := pad_zero 64 (hex_encode key).
Definition Key_String (key : Key) : bytes := pad_zero 64 (hex_encode key).

Definition Key_Log (key : Key) : bytes :=
  if #key <? 4 then hex_encode key else pad_zero 8 (hex_encode (take 4 key)).

(** A quote character. *)
Definition dquote : Z := 34.

Definition Key_MarshalJSON (key : Key) : bytes :=
  [dquote] ++ Key_String key ++ [dquote].

(** [None] is the slice panic of [s[1:len(s)-1]]. *)
Definition Key_UnmarshalJSON (value : bytes) : option Key :=
  match slice value 1 (#value - 1) with
  | None => None
  | Some s => Some (copy_at (make_bytes 32) 0 (Hex2Bytes s))
  end.

(** ** Requests and chunks

    Pointers ([*RequestStatus], [*peer]) and channels are identifiers. *)
Abbreviation chan := nat (only parsing).
Abbreviation peer_id := nat (only parsing).

Record Chunk := mkChunk {
  ck_Key : Key;
  ck_SData : option bytes;     (* [None] is the nil slice of a request *)
  ck_Size : Z;
  ck_Source : option peer_id;
  ck_Req : option nat          (* the [*RequestStatus] *)
}.

Definition NewChunk (key : Key) (rs : option nat) : Chunk :=
  {| ck_Key := key; ck_SData := None; ck_Size := 0; ck_Source := None; ck_Req := rs |}.

#[export] Instance Chunk_eq_dec : EqDecision Chunk.
Proof. solve_decision. Defined.

(** ** Lemmas *)

Lemma u8_mask j : 0 <= j <= 8 -> u8 (Z.shiftl 1 j - 1) = Z.ones j.
Proof.
  intros. rewrite Z.shiftl_1_l. unfold u8. rewrite Z.ones_equiv.
  assert (2 ^ j <= 2 ^ 8) by (apply Z.pow_le_mono_r; lia).
  assert (0 < 2 ^ j) by (apply Z.pow_pos_nonneg; lia).
  rewrite Z.mod_small; lia.
Qed.

Lemma index_drop (h : Key) ii b :
  index h ii = Some b -> drop (Z.to_nat ii) h = b :: drop (Z.to_nat (ii + 1)) h /\ 0 <= ii.
Proof.
  unfold index. case_decide; [|done]. intros Hl. split; [|done].
  rewrite (drop_S _ _ _ Hl). do 2 f_equal. lia.
Qed.

Lemma index_lt (h : Key) ii : 0 <= ii < #h -> exists b, index h ii = Some b.
Proof.
  intros. unfold index. rewrite decide_True by lia.
  apply lookup_lt_is_Some_2. zlia.
Qed.

Lemma index_byte (h : Key) ii b : Forall is_byte h -> index h ii = Some b -> is_byte b.
Proof.
  unfold index. intros HF. case_decide; [|done]. by apply Forall_lookup_1.
Qed.

Lemma mod_split b v j k :
  0 <= j <= k -> (b + 2 ^ k * v) mod 2 ^ j = b mod 2 ^ j.
Proof.
  intros. replace (2 ^ k) with (2 ^ (k - j) * 2 ^ j).
  2:{ rewrite <- Z.pow_add_r by lia. f_equal. lia. }
  replace (b + 2 ^ (k - j) * 2 ^ j * v) with (b + (2 ^ (k - j) * v) * 2 ^ j) by ring.
  apply Z.mod_add. lia.
Qed.

(** Eight low bits in front of the rest of the window. *)
Lemma mod_cons b v j :
  is_byte b -> 8 <= j -> (b + 256 * v) mod 2 ^ j = b + 256 * (v mod 2 ^ (j - 8)).
Proof.
  intros Hb Hj. unfold is_byte in Hb.
  replace (2 ^ j) with (256 * 2 ^ (j - 8)).
  2:{ change 256 with (2 ^ 8). rewrite <- Z.pow_add_r by lia. f_equal. lia. }
  rewrite Z.rem_mul_r by lia.
  rewrite (Z.mul_comm 256 v), Z.mod_add, Z.div_add, Z.mod_small, Z.div_small by lia. done.
Qed.

Lemma bits_loop_spec fuel h ii jj j res :
  Forall is_byte h -> 0 <= ii -> 0 <= jj -> 0 <= j -> j <= Z.of_nat fuel ->
  8 * (ii + 1) + j <= 8 * #h ->
  bits_loop fuel h ii jj j res
  = Some (res + 2 ^ jj * (le_val (drop (Z.to_nat (ii + 1)) h) mod 2 ^ j)).
Proof.
  intros HF. revert ii jj j res.
  induction fuel as [|f IH]; intros ii jj j res Hii Hjj Hj Hfuel Hlen; simpl;
    destruct (Z.eqb_spec j 0) as [->|Hj0]; try lia.
  1,2: rewrite Z.mod_1_r, Z.mul_0_r, Z.add_0_r; done.
  destruct (index_lt h (ii + 1)) as [b Hb]; [lia|]. rewrite Hb.
  pose proof (index_byte _ _ _ HF Hb) as Hbb.
  destruct (index_drop _ _ _ Hb) as [-> _]. cbn [le_val].
  destruct (Z.ltb_spec j 8).
  - rewrite u8_mask, Z.land_ones, Z.shiftl_mul_pow2 by lia.
    change 256 with (2 ^ 8). rewrite mod_split by lia. f_equal. lia.
  - rewrite IH, mod_cons, Z.shiftl_mul_pow2 by (try done; lia).
    f_equal. rewrite Z.pow_add_r by lia. change (2 ^ 8) with 256. lia.
Qed.

(** The bits of a key from byte [ii] on. *)
Lemma le_val_drop (h : Key) n :
  Forall is_byte h -> (n <= length h)%nat ->
  le_val h / 2 ^ (8 * Z.of_nat n) = le_val (drop n h).
Proof.
  intros HF. revert n. induction HF as [|b h Hb _ IH]; intros [|n] Hn;
    simpl in Hn; try lia.
  - done.
  - by rewrite Z.div_1_r.
  - cbn [le_val drop]. rewrite <- IH by lia. unfold is_byte in Hb.
    replace (8 * Z.of_nat (S n)) with (8 + 8 * Z.of_nat n) by lia.
    rewrite Z.pow_add_r by lia. change (2 ^ 8) with 256.
    rewrite <- Z.div_div by lia. rewrite (Z.mul_comm 256), Z.div_add, (Z.div_small b) by lia. done.
Qed.

Lemma Key_bits_ok h i j :
  Forall is_byte h -> 0 <= i -> 0 <= j -> i + j <= 8 * #h ->
  Key_bits h i j = Some ((le_val h / 2 ^ i) mod 2 ^ j).
Proof.
  intros HF Hi Hj Hlen. unfold Key_bits, Key_Size.
  rewrite Z.shiftr_div_pow2 by lia. change 7 with (Z.ones 3). rewrite Z.land_ones by lia.
  change (2 ^ 3) with 8. pose proof (Z.div_mod i 8 ltac:(lia)) as Hi8.
  pose proof (Z.mod_pos_bound i 8 ltac:(lia)) as Hjj.
  set (ii := i / 8) in *. set (jj := i mod 8) in *.
  assert (Hii : 0 <= ii) by (subst ii; apply Z.div_pos; lia).
  assert (Hpow : 2 ^ i = 2 ^ (8 * ii) * 2 ^ jj) by (rewrite <- Z.pow_add_r by lia; f_equal; lia).
  assert (Hdiv : le_val h / 2 ^ i = le_val (drop (Z.to_nat ii) h) / 2 ^ jj).
  { rewrite Hpow, <- Z.div_div by lia. f_equal.
    rewrite <- (le_val_drop h (Z.to_nat ii)) by (try done; zlia).
    do 2 f_equal. lia. }
  rewrite Hdiv. destruct (Z.leb_spec (#h) ii).
  - rewrite drop_ge by zlia. assert (j = 0) as -> by lia.
    by rewrite Z.mod_1_r.
  - destruct (index_lt h ii) as [b Hb]; [lia|]. rewrite Hb.
    pose proof (index_byte _ _ _ HF Hb) as Hbb. unfold is_byte in Hbb.
    destruct (index_drop _ _ _ Hb) as [-> _]. cbn [le_val].
    assert (Hsh : forall v, (b + 256 * v) / 2 ^ jj = b / 2 ^ jj + 2 ^ (8 - jj) * v).
    { intros v. change 256 with (2 ^ 8). replace (2 ^ 8) with (2 ^ (8 - jj) * 2 ^ jj)
        by (rewrite <- Z.pow_add_r by lia; f_equal; lia).
      replace (b + _ * v) with (b + 2 ^ (8 - jj) * v * 2 ^ jj) by ring.
      apply Z.div_add. lia. }
    rewrite Hsh, Z.shiftr_div_pow2 by lia. destruct (Z.leb_spec (jj + j) 8).
    + rewrite u8_mask, Z.land_ones, mod_split by lia. done.
    + rewrite bits_loop_spec by (try done; lia). f_equal.
      assert (0 <= b / 2 ^ jj < 2 ^ (8 - jj)).
      { split; [apply Z.div_pos; lia|]. apply Z.div_lt_upper_bound; [lia|].
        rewrite <- Z.pow_add_r by lia. replace (jj + (8 - jj)) with 8 by lia. lia. }
      replace (2 ^ j) with (2 ^ (8 - jj) * 2 ^ (j - (8 - jj)))
        by (rewrite <- Z.pow_add_r by lia; f_equal; lia).
      rewrite Z.rem_mul_r by lia.
      rewrite (Z.mul_comm (2 ^ (8 - jj)) (le_val _)).
      rewrite Z.mod_add, Z.div_add, (Z.mod_small (b / 2 ^ jj)), (Z.div_small (b / 2 ^ jj)) by lia. done.
Qed.

Lemma Key_bits_range h i j v :
  Forall is_byte h -> 0 <= i -> 0 <= j -> i + j <= 8 * #h ->
  Key_bits h i j = Some v -> 0 <= v < 2 ^ j.
Proof.
  intros HF Hi Hj Hlen. rewrite Key_bits_ok by done. intros [= <-].
  apply Z.mod_pos_bound. lia.
Qed.

Lemma hex_value_digit d : 0 <= d < 16 -> hex_value (hex_digit d) = Some d.
Proof.
  intros. unfold hex_value, hex_digit.
  destruct (Z.ltb_spec d 10); repeat (case_goal; zbool); try lia; f_equal; lia.
Qed.

Lemma hex_decode_encode l : Forall is_byte l -> hex_decode (hex_encode l) = Some l.
Proof.
  induction 1 as [|b l Hb _ IH]; [done|]. unfold is_byte in Hb. simpl.
  rewrite !hex_value_digit, IH.
  - f_equal. f_equal. pose proof (Z.div_mod b 16). lia.
  - apply Z.mod_pos_bound. lia.
  - split; [apply Z.div_pos; lia|apply Z.div_lt_upper_bound; lia].
Qed.

Lemma length_hex_encode l : length (hex_encode l) = (2 * length l)%nat.
Proof. induction l; simpl; lia. Qed.

Lemma Key_String_32 key : length key = 32%nat -> Key_String key = hex_encode key.
Proof.
  intros. unfold Key_String, pad_zero. rewrite length_hex_encode, H. done.
Qed.

Lemma slice_inner (a b : Z) (s : bytes) : slice ([a] ++ s ++ [b]) 1 (#([a] ++ s ++ [b]) - 1) = Some s.
Proof.
  rewrite !zlen_app. change (zlen [a]) with 1. change (zlen [b]) with 1.
  rewrite slice_Some by (rewrite ?zlen_app; change (zlen [a]) with 1; change (zlen [b]) with 1;
    pose proof (zlen_nonneg s); lia).
  replace (Z.to_nat (1 + (#s + 1) - 1 - 1)) with (length s) by zlia.
  change (drop (Z.to_nat 1) ([a] ++ s ++ [b])) with (s ++ [b]). by rewrite take_app_length.
Qed.

Lemma Key_json_roundtrip key :
  Forall is_byte key -> length key = 32%nat ->
  Key_UnmarshalJSON (Key_MarshalJSON key) = Some key.
Proof.
  intros HF Hlen. unfold Key_UnmarshalJSON, Key_MarshalJSON.
  rewrite slice_inner, Key_String_32 by done.
  unfold Hex2Bytes. rewrite hex_decode_encode, copy_at_whole by done. done.
Qed.
