(* ===== verification/Chunker.v ===== *)
(** The tree chunker ([livepeer/storage/chunker.go]).

    [TreeChunker.split] cuts an input stream into a Merkle tree of chunks and
    [LazyChunkReader.join] reads byte ranges back through it. The hash workers
    and the goroutine per child only reorder work whose results land in
    disjoint slices of the parent's buffer, so both are modelled by the
    schedule that runs them in program order; the reader, the buffer writes
    and the channel of emitted chunks are explicit state.

    Theorems: [split] computes the Merkle tree of the bytes it reads whatever
    the sizes of the individual reads, every emitted chunk fits the chunk
    size, and reading any range through [ReadAt] returns those bytes. *)
From stdpp Require Import base gmap list strings.
From Stdlib Require Import ZArith Lia.
From S2P Require Import Prelude Types.

(** ** io.Reader *)

Inductive ioerr := EOF | ErrUnexpectedEOF | OtherErr (n : nat).

#[export] Instance ioerr_eq_dec : EqDecision ioerr.
Proof. solve_decision. Defined.

(** A reader is the script of its future [Read] results: the bytes one call has
    ready and the error that accompanies the last of them. A call with a
    smaller buffer takes a part and leaves the rest; an exhausted reader
    reports [EOF]. *)
Abbreviation reader := (list (bytes * option ioerr)).

Definition Read (rd : reader) (n : nat) : bytes * option ioerr * reader :=
  match rd with
  | [] => ([], Some EOF, [])
  | (bs, err) :: rd' =>
    if (length bs <=? n)%nat then (bs, err, rd')
    else (take n bs, None, (drop n bs, err) :: rd')
  end.

(** ** Hash functions and chunker parameters *)

Record Hasher := mkHasher { h_sum : bytes -> bytes; h_size : Z }.

Record ChunkerParams := mkChunkerParams { Branches : Z; Hash : bytes }.

Definition defaultHash : bytes := str "SHA3".
Definition defaultBranches : Z := 128.

Definition NewChunkerParams : ChunkerParams :=
  {| Branches := defaultBranches; Hash := defaultHash |}.

Record TreeChunker := mkTreeChunker {
  branches : Z;
  hashFunc : Hasher;
  hashSize : Z;
  chunkSize : Z
}.

Section Make.
Context (sha256 sha3 : Hasher).

(** The default branch of [MakeHashFunc] returns a nil function. *)
Definition MakeHashFunc (hash : bytes) : option Hasher :=
  if bool_decide (hash = str "SHA256") then Some sha256
  else if bool_decide (hash = str "SHA3") then Some sha3
  else None.

(** [None] is the panic of calling the nil hash function. *)
Definition NewTreeChunker (params : ChunkerParams) : option TreeChunker :=
  match MakeHashFunc (Hash params) with
  | None => None
  | Some h =>
    Some {| branches := Branches params; hashFunc := h; hashSize := h_size h;
            chunkSize := h_size h * Branches params |}
  end.
End Make.

Section Chunker.
Context (tc : TreeChunker).

(** ** Split *)

(** The loop that finds the depth of the tree; [None] is a run that has not
    left the loop within the fuel. The product is an [int64]. *)
Fixpoint grow (fuel : nat) (treeSize : Z) (depth : nat) (size : Z) : option (Z * nat) :=
  if treeSize <? size then
    match fuel with
    | O => None
    | S f => grow f (i64 (treeSize * branches tc)) (S depth) size
    end
  else Some (treeSize, depth).

(** One send on [chunkC], if the channel is there. *)
Definition send (c : Chunk) (chunkC : option (list Chunk)) : option (list Chunk) :=
  match chunkC with Some l => Some (l ++ [c]) | None => None end.

(** The chunk that [hashChunk] makes of a job. *)
Definition hashChunk (chunk : bytes) (size : Z) : Chunk :=
  {| ck_Key := h_sum (hashFunc tc) chunk; ck_SData := Some chunk; ck_Size := size;
     ck_Source := None; ck_Req := None |}.

(** The loop that fills a leaf: [chunkData[8+readBytes:]] is read into until
    [size] bytes are there. A short read has taken the head of the script, so
    the loop goes on with its tail. *)
Fixpoint fill (rd : reader) (size : Z) (chunkData : bytes) (readBytes : Z)
  : result ioerr (bytes * reader) :=
  if readBytes <? size then
    let '(bs, err, rest) := Read rd (Z.to_nat (size - readBytes)) in
    let chunkData := copy_at chunkData (Z.to_nat (8 + readBytes)) bs in
    let readBytes := readBytes + #bs in
    match err with
    | Some e =>
      if bool_decide (e = EOF) && (readBytes =? size) then Ok (chunkData, rest) else Err e
    | None =>
      if readBytes <? size then
        match rd with
        | [] => Err EOF
        | _ :: rd' => fill rd' size chunkData readBytes
        end
      else Ok (chunkData, rest)
    end
  else Ok (chunkData, rd).

(** The loop over the children of an intermediate chunk: each child's hash is
    copied to [chunk[8+i*hashSize : 8+(i+1)*hashSize]]. *)
Fixpoint split_children
    (rec : Z -> reader -> option (list Chunk) -> result ioerr (Key * reader * option (list Chunk)))
    (n : nat) (i pos treeSize size : Z) (chunk : bytes) (rd : reader)
    (chunkC : option (list Chunk)) : result ioerr (bytes * reader * option (list Chunk)) :=
  match n with
  | O => Ok (chunk, rd, chunkC)
  | S n' =>
    let secSize := if size - pos <? treeSize then size - pos else treeSize in
    let! '(h, rd, chunkC) := rec secSize rd chunkC in
    let chunk := copy_at chunk (Z.to_nat (8 + i * hashSize tc)) (take (Z.to_nat (hashSize tc)) h) in
    split_children rec n' (i + 1) (pos + treeSize) treeSize size chunk rd chunkC
  end.

(** [split]: an iteration of the loop at its head, which lowers [depth] and
    divides [treeSize] by [branches], is the first recursive call. *)
Fixpoint split (depth : nat) (treeSize size : Z) (rd : reader) (chunkC : option (list Chunk))
  : result ioerr (Key * reader * option (list Chunk)) :=
  match depth with
  | S depth' =>
    if size <? treeSize then split depth' (treeSize / branches tc) size rd chunkC
    else
      let branchCnt := (size + treeSize - 1) / treeSize in
      let chunk := copy_at (make_bytes (branchCnt * hashSize tc + 8)) 0 (le64 size) in
      let! '(chunk, rd, chunkC) :=
        split_children (split depth' (treeSize / branches tc))
          (Z.to_nat branchCnt) 0 0 treeSize size chunk rd chunkC in
      let c := hashChunk chunk size in
      Ok (ck_Key c, rd, send c chunkC)
  | O =>
    if size <? 0 then Panic
    else
      let chunkData := copy_at (make_bytes (size + 8)) 0 (le64 size) in
      let! '(chunkData, rd) := fill rd size chunkData 0 in
      let c := hashChunk chunkData size in
      Ok (ck_Key c, rd, send c chunkC)
  end.

(** [TreeChunker.Split]; [None] is a depth loop that has not ended within the fuel. *)
Definition Split (fuel : nat) (rd : reader) (size : Z) (chunkC : option (list Chunk))
  : option (result ioerr (Key * reader * option (list Chunk))) :=
  if chunkSize tc <=? 0 then Some Panic
  else match grow fuel (chunkSize tc) 0 size with
  | None => None
  | Some (treeSize, depth) => Some (split depth (treeSize / branches tc) size rd chunkC)
  end.

(** ** Join *)

Inductive joinerr := RootNotFound | ChunkNotFound | ReadEOF.

(** What the listener on the retrieve channel delivers for a key: the data and
    size it writes into the request chunk, nothing when it closes the request
    unanswered. *)
Context (fetch : Key -> option (bytes * Z)).

Definition retrieve (key : Key) : option Chunk :=
  match fetch key with
  | Some (sdata, size) =>
    if #sdata =? 0 then None
    else Some {| ck_Key := key; ck_SData := Some sdata; ck_Size := size;
                 ck_Source := None; ck_Req := None |}
  | None => None
  end.

(** The data of a retrieved chunk. *)
Definition sdata (c : Chunk) : bytes :=
  match ck_SData c with Some d => d | None => [] end.

(** The loop over the children that cover [off, eoff); [b] is the caller's buffer. *)
Fixpoint join_children
    (rec : bytes -> Z -> Z -> Chunk -> result joinerr bytes)
    (n : nat) (i off eoff treeSize : Z) (chunk : Chunk) (b : bytes) : result joinerr bytes :=
  match n with
  | O => Ok b
  | S n' =>
    let roff := i * treeSize in
    let soff := if roff <? off then off else roff in
    let seoff := if eoff <? roff + treeSize then eoff else roff + treeSize in
    let! childKey := or_panic (slice (sdata chunk) (8 + i * hashSize tc) (8 + (i + 1) * hashSize tc)) in
    match retrieve childKey with
    | None => Err ChunkNotFound
    | Some child =>
      let! sub := or_panic (slice b (soff - off) (seoff - off)) in
      let! sub := rec sub (soff - roff) (seoff - roff) child in
      join_children rec n' (i + 1) off eoff treeSize chunk
        (copy_at b (Z.to_nat (soff - off)) sub)
    end
  end.

(** [join]: the buffer after the call. As in [split], the loop at the head is
    the first recursive call. *)
Fixpoint join (depth : nat) (treeSize : Z) (b : bytes) (off eoff : Z) (chunk : Chunk)
  : result joinerr bytes :=
  match depth with
  | S depth' =>
    if ck_Size chunk <? treeSize then join depth' (treeSize / branches tc) b off eoff chunk
    else
      let start := off / treeSize in
      let stop := (eoff + treeSize - 1) / treeSize in
      join_children (fun b off eoff c => join depth' (treeSize / branches tc) b off eoff c)
        (Z.to_nat (stop - start)) start off eoff treeSize chunk b
  | O =>
    let extra := 8 + eoff - #(sdata chunk) in
    let eoff := if 0 <? extra then eoff - extra else eoff in
    let! src := or_panic (slice (sdata chunk) (8 + off) (8 + eoff)) in
    Ok (copy_at b 0 src)
  end.

Record LazyChunkReader := mkLazyChunkReader {
  lr_key : Key;
  lr_chunk : option Chunk;
  lr_off : Z
}.

Definition Join (key : Key) : LazyChunkReader :=
  {| lr_key := key; lr_chunk := None; lr_off := 0 |}.

Definition reader_Size (r : LazyChunkReader) : result joinerr (Z * LazyChunkReader) :=
  match lr_chunk r with
  | Some c => Ok (ck_Size c, r)
  | None =>
    match retrieve (lr_key r) with
    | None => Err RootNotFound
    | Some c => Ok (ck_Size c, {| lr_key := lr_key r; lr_chunk := Some c; lr_off := lr_off r |})
    end
  end.

(** [ReadAt]: the buffer, the count, whether [io.EOF] comes with it, and the
    reader with its root chunk cached. *)
Definition ReadAt (fuel : nat) (r : LazyChunkReader) (b : bytes) (off : Z)
  : option (result joinerr (bytes * Z * bool * LazyChunkReader)) :=
  if #b =? 0 then Some (Ok (b, 0, false, r))
  else match reader_Size r with
  | Err e => Some (Err e)
  | Panic => Some Panic
  | Ok (size, r') =>
    match lr_chunk r', grow fuel (chunkSize tc) 0 size with
    | Some root, Some (treeSize, depth) =>
      Some (let! b' := join depth (treeSize / branches tc) b off (off + #b) root in
            Ok (b', #b, size <=? off + #b, r'))
    | None, _ => Some Panic
    | _, None => None
    end
  end.

(** [LazyChunkReader.Read] moves the cursor by the count [ReadAt] returns. *)
Definition reader_Read (fuel : nat) (r : LazyChunkReader) (b : bytes)
  : option (result joinerr (bytes * Z * bool * LazyChunkReader)) :=
  match ReadAt fuel r b (lr_off r) with
  | Some (Ok (b', n, eof, r')) =>
    Some (Ok (b', n, eof, {| lr_key := lr_key r'; lr_chunk := lr_chunk r'; lr_off := i64 (lr_off r' + n) |}))
  | other => other
  end.

Inductive seekerr := errWhence | errOffset | errNoSize.

Definition reader_Seek (r : LazyChunkReader) (offset whence : Z)
  : result seekerr (Z * LazyChunkReader) :=
  let finish (r : LazyChunkReader) (offset : Z) :=
    if offset <? 0 then Err errOffset
    else Ok (offset, {| lr_key := lr_key r; lr_chunk := lr_chunk r; lr_off := offset |}) in
  if whence =? 0 then finish r offset
  else if whence =? 1 then finish r (i64 (offset + lr_off r))
  else if whence =? 2 then
    match reader_Size r with
    | Ok (size, r') => finish r' (i64 (offset + size))
    | Err _ => Err errNoSize
    | Panic => Panic
    end
  else Err errWhence.
End Chunker.

(** ** The Merkle tree of a byte string *)

(** The first [k] pieces of [n] elements of a list; the last may be shorter. *)
Fixpoint pieces {A} (k n : nat) (l : list A) : list (list A) :=
  match k with
  | O => []
  | S k' => take n l :: pieces k' n (drop n l)
  end.

Section Reference.
Context (tc : TreeChunker).

(** The number of children of a node that covers [size] bytes with subtrees of [ts]. *)
Definition branch_count (size ts : Z) : Z := (size + ts - 1) / ts.

(** Key and chunks of the tree over [data]: the subtrees' keys behind the size. *)
Fixpoint tree (depth : nat) (ts : Z) (data : bytes) : Key * list Chunk :=
  match depth with
  | S d =>
    if #data <? ts then tree d (ts / branches tc) data
    else
      let subs := map (tree d (ts / branches tc))
                      (pieces (Z.to_nat (branch_count (#data) ts)) (Z.to_nat ts) data) in
      let c := hashChunk tc (le64 (#data) ++ concat (map fst subs)) (#data) in
      (ck_Key c, concat (map snd subs) ++ [c])
  | O =>
    let c := hashChunk tc (le64 (#data) ++ data) (#data) in
    (ck_Key c, [c])
  end.

(** A chunker as [NewTreeChunker] makes it, for a hash of fixed length. *)
Record chunker_ok : Prop := {
  ok_hash : forall l, #(h_sum (hashFunc tc) l) = hashSize tc;
  ok_size : 0 < hashSize tc;
  ok_branches : 2 <= branches tc;
  ok_chunk : chunkSize tc = hashSize tc * branches tc;
  ok_chunk_i64 : chunkSize tc < 2 ^ 63
}.
End Reference.

(** The bytes a reader delivers before its first error: [io.EOF] may come with
    the last byte, any other error spoils the byte it comes with. *)
Fixpoint content (rd : reader) : bytes :=
  match rd with
  | [] => []
  | (bs, None) :: rd' => bs ++ content rd'
  | (bs, Some EOF) :: _ => bs
  | (bs, Some _) :: _ => take (length bs - 1) bs
  end.

(** ** Lemmas: reading *)

Lemma copy_at_make (hdr : bytes) n :
  (length hdr <= n)%nat ->
  copy_at (replicate n 0) 0 hdr = hdr ++ replicate (n - length hdr) 0.
Proof.
  intros. replace n with (length hdr + (n - length hdr))%nat at 1 by lia.
  rewrite replicate_add.
  pose proof (copy_at_fit [] (replicate (length hdr) 0) (replicate (n - length hdr) 0) hdr) as E.
  simpl in E. apply E. by rewrite length_replicate.
Qed.

(** Reading [k] bytes into the middle of the zeroed part of a buffer. *)
Lemma copy_at_zeros (pre bs : bytes) n :
  (length bs <= n)%nat ->
  copy_at (pre ++ replicate n 0) (length pre) bs = (pre ++ bs) ++ replicate (n - length bs) 0.
Proof.
  intros. replace n with (length bs + (n - length bs))%nat at 1 by lia.
  rewrite replicate_add, copy_at_fit by (by rewrite length_replicate).
  by rewrite app_assoc.
Qed.

(** One call for [n] bytes that are there: it delivers them all, or it takes a
    shorter first step of the script. *)
Lemma Read_content rd n :
  (0 < n <= length (content rd))%nat ->
  let '(bs, err, rest) := Read rd n in
  (bs = take n (content rd) /\ (err = None \/ err = Some EOF) /\
   drop n (content rd) `prefix_of` content rest) \/
  ((length bs < n)%nat /\ err = None /\ rd = (bs, None) :: rest).
Proof.
  destruct rd as [|[bs err] rd]; cbn [content Read]; [simpl; lia|].
  intros Hn. destruct (Nat.leb_spec (length bs) n) as [Hle|Hgt].
  - destruct err as [[| |]|]; rewrite ?length_take in Hn; try lia.
    + left. rewrite take_ge, drop_ge by lia. auto using prefix_nil.
    + destruct (decide (length bs = n)) as [<-|Hne]; [left|right; auto with lia].
      rewrite take_app_length, drop_app_length. auto.
  - left. destruct err as [[| |]|]; cbn [content].
    + auto.
    + rewrite take_take, Nat.min_l, length_drop, skipn_firstn_comm by lia.
      split_and!; auto. replace (_ - 1 - n)%nat with (length bs - n - 1)%nat by lia. auto.
    + rewrite take_take, Nat.min_l, length_drop, skipn_firstn_comm by lia.
      split_and!; auto. replace (_ - 1 - n)%nat with (length bs - n - 1)%nat by lia. auto.
    + rewrite take_app_le, drop_app_le by lia. auto.
Qed.

(** [fill] completes a buffer whose first [length pre] bytes are in place. *)
Lemma fill_ok rd size pre n readBytes :
  length pre = Z.to_nat (8 + readBytes) -> 0 <= readBytes -> readBytes + Z.of_nat n = size ->
  (n <= length (content rd))%nat ->
  exists rd', fill rd size (pre ++ replicate n 0) readBytes
              = Ok (pre ++ take n (content rd), rd')
              /\ drop n (content rd) `prefix_of` content rd'.
Proof.
  revert pre n readBytes.
  induction rd as [|st rd IH]; intros pre n rb Hpre Hrb Hsz Hn;
    (destruct (decide (n = 0%nat)) as [->|Hn0];
     [unfold fill; destruct (Z.ltb_spec rb size); [lia|];
      rewrite take_0, drop_0, app_nil_r; simpl; rewrite app_nil_r; eauto|]).
  { simpl in Hn. lia. }
  pose proof (Read_content (st :: rd) n ltac:(lia)) as HR.
  cbn [fill]. destruct (Z.ltb_spec rb size); [|lia].
  replace (Z.to_nat (size - rb)) with n by lia.
  destruct (Read (st :: rd) n) as [[bs err] rest]. rewrite <- Hpre.
  destruct HR as [HR|HR]; [destruct HR as (-> & Herr & Hpfx)|destruct HR as (Hlen & -> & Hst)].
  - rewrite copy_at_zeros by (rewrite length_take; lia).
    rewrite length_take_le, Nat.sub_diag by done. simpl replicate. rewrite app_nil_r.
    rewrite zlen_take, Z.min_l by zlia.
    exists rest. split; [|done]. destruct Herr as [-> | ->].
    + destruct (Z.ltb_spec (rb + Z.of_nat n) size); [lia|done].
    + rewrite bool_decide_eq_true_2 by done.
      destruct (Z.eqb_spec (rb + Z.of_nat n) size); [done|lia].
  - injection Hst as -> ->. rewrite copy_at_zeros by lia.
    destruct (Z.ltb_spec (rb + #bs) size); [|zlia]. cbn [content] in Hn |- *.
    rewrite length_app in Hn.
    destruct (IH (pre ++ bs) (n - length bs)%nat (rb + #bs)) as (rd' & -> & Hr);
      [rewrite length_app; zlia|zlia|zlia|lia|].
    exists rd'. rewrite take_app_ge, drop_app_ge by lia. split; [by rewrite <- app_assoc|done].
Qed.

(** A leaf that asks for more than the reader has fails with the reader's error. *)
Lemma fill_short rd size buf readBytes :
  0 <= readBytes -> readBytes + #(content rd) < size ->
  exists e, fill rd size buf readBytes = Err e.
Proof.
  revert buf readBytes.
  induction rd as [|[bs err] rd IH]; intros buf rb Hrb Hsz;
    cbn [fill]; (destruct (Z.ltb_spec rb size); [|zlia]); cbn [Read].
  { destruct (Z.eqb_spec (rb + #(@nil Z)) size); [rewrite zlen_nil in *; lia|].
    rewrite andb_false_r. eauto. }
  assert (Hle : (length bs <= Z.to_nat (size - rb))%nat).
  { destruct err as [[| |]|]; cbn [content] in Hsz; revert Hsz; unfold zlen;
      rewrite ?length_app, ?length_take; lia. }
  destruct (Nat.leb_spec (length bs) (Z.to_nat (size - rb))); [|lia].
  destruct err as [e|].
  - destruct (bool_decide_reflect (e = EOF)) as [->|]; [|eauto].
    cbn [content] in Hsz. destruct (Z.eqb_spec (rb + #bs) size); [lia|eauto].
  - cbn [content] in Hsz. rewrite zlen_app in Hsz. pose proof (zlen_nonneg (content rd)).
    destruct (Z.ltb_spec (rb + #bs) size); [|lia].
    apply IH; zlia.
Qed.

(** ** Lemmas: pieces *)

Lemma take_prefix {A} (l k : list A) n :
  l `prefix_of` k -> (n <= length l)%nat -> take n k = take n l.
Proof. intros [q ->] Hn. by rewrite take_app_le. Qed.

Lemma length_pieces {A} k n (l : list A) : length (pieces k n l) = k.
Proof. revert l; induction k; simpl; auto. Qed.

Lemma concat_pieces {A} k n (l : list A) :
  (length l <= k * n)%nat -> concat (pieces k n l) = l.
Proof.
  revert l; induction k; intros l Hl; simpl.
  - destruct l; simpl in *; [done|lia].
  - rewrite IHk by (rewrite length_drop; lia). apply take_drop.
Qed.

Lemma pieces_lookup {A} k n (l : list A) i :
  (i < k)%nat -> pieces k n l !! i = Some (take n (drop (i * n) l)).
Proof.
  revert l i; induction k; intros l i Hi; [lia|].
  destruct i; cbn [pieces]; [by rewrite drop_0|].
  simpl. rewrite IHk, drop_drop by lia. done.
Qed.

Lemma branch_count_bounds size ts :
  0 <= size -> 0 < ts ->
  0 <= branch_count size ts /\ size <= branch_count size ts * ts < size + ts.
Proof.
  intros. unfold branch_count.
  pose proof (Z.div_mod (size + ts - 1) ts ltac:(lia)).
  pose proof (Z.mod_pos_bound (size + ts - 1) ts ltac:(lia)).
  split; [apply Z.div_pos; lia|]. nia.
Qed.

(** ** Lemmas: splitting *)

(** Chunks appended to the channel. *)
Definition emit (chunkC : option (list Chunk)) (l : list Chunk) : option (list Chunk) :=
  match chunkC with Some sent => Some (sent ++ l) | None => None end.

Lemma emit_emit c l k : emit (emit c l) k = emit c (l ++ k).
Proof. destruct c; simpl; [by rewrite app_assoc|done]. Qed.

Lemma send_emit c x : send x c = emit c [x].
Proof. done. Qed.

Section SplitLemmas.
Context (tc : TreeChunker) (Hok : chunker_ok tc).

(** The subtree sizes the recursion is called with. *)
Definition level_ok (depth : nat) (ts : Z) : Prop :=
  depth = 0%nat \/ ts = chunkSize tc * branches tc ^ (Z.of_nat depth - 1).

Lemma chunkSize_pos : 0 < chunkSize tc.
Proof using Hok. destruct Hok. nia. Qed.

Lemma level_pos d ts : level_ok (S d) ts -> 0 < ts.
Proof using Hok.
  pose proof chunkSize_pos. destruct Hok. intros [?| ->]; [lia|].
  apply Z.mul_pos_pos; [done|]. apply Z.pow_pos_nonneg; lia.
Qed.

Lemma level_div d ts : level_ok (S d) ts -> level_ok d (ts / branches tc).
Proof using Hok.
  destruct Hok. intros [?| ->]; [lia|]. destruct d as [|d]; [by left|right].
  replace (Z.of_nat (S (S d)) - 1) with (Z.of_nat d + 1) by lia.
  rewrite Z.pow_add_r, Z.pow_1_r, Z.mul_assoc, Z.div_mul by lia. do 2 f_equal. lia.
Qed.

Lemma tree_key_length d ts data : #(fst (tree tc d ts data)) = hashSize tc.
Proof using Hok.
  destruct Hok. revert ts; induction d; intros ts; cbn [tree]; [apply ok_hash0|].
  case_match; [done|apply ok_hash0].
Qed.

(** What a call of [split] on a subtree delivers. *)
Definition splits (T : bytes -> Key * list Chunk)
    (rec : Z -> reader -> option (list Chunk) -> result ioerr (Key * reader * option (list Chunk))) :=
  forall size rd cc, 0 <= size <= #(content rd) ->
  let data := take (Z.to_nat size) (content rd) in
  exists rd', rec size rd cc = Ok (fst (T data), rd', emit cc (snd (T data)))
              /\ drop (Z.to_nat size) (content rd) `prefix_of` content rd'.

Lemma split_children_ok T rec n i pos ts size pre rd cc R :
  splits T rec -> (forall d, #(fst (T d)) = hashSize tc) ->
  0 < ts -> 0 <= i -> 0 <= R <= #(content rd) ->
  R <= Z.of_nat n * ts < R + ts -> (n <> 0%nat -> size - pos = R) ->
  length pre = Z.to_nat (8 + i * hashSize tc) ->
  let subs := map T (pieces n (Z.to_nat ts) (take (Z.to_nat R) (content rd))) in
  exists rd',
    split_children tc rec n i pos ts size (pre ++ replicate (n * Z.to_nat (hashSize tc)) 0) rd cc
    = Ok (pre ++ concat (map fst subs), rd', emit cc (concat (map snd subs)))
    /\ drop (Z.to_nat R) (content rd) `prefix_of` content rd'.
Proof using Hok.
  intros Hrec HT Hts. destruct Hok. revert i pos pre rd cc R.
  induction n as [|n IH]; intros i pos pre rd cc R Hi HR Hn Hpos Hpre subs; cbn [split_children].
  { assert (R = 0) as -> by lia. subst subs. simpl.
    exists rd. rewrite !app_nil_r. destruct cc; simpl; rewrite ?app_nil_r; auto. }
  rewrite Hpos by lia. set (sec := if R <? ts then R else ts).
  assert (Hsec : 0 <= sec <= R /\ (sec = ts \/ (R < ts /\ sec = R)))
    by (subst sec; destruct (Z.ltb_spec R ts); lia).
  destruct (Hrec sec rd cc ltac:(lia)) as (rd1 & -> & Hpfx). cbn [rbind].
  set (d := take (Z.to_nat sec) (content rd)) in *.
  rewrite firstn_all2 by (specialize (HT d); zlia).
  rewrite <- Hpre, Nat.mul_succ_l, Nat.add_comm.
  rewrite copy_at_zeros by (specialize (HT d); zlia).
  replace (_ + _ - length (fst (T d)))%nat with (n * Z.to_nat (hashSize tc))%nat
    by (specialize (HT d); zlia).
  assert (HR1 : R - sec <= #(content rd1)).
  { apply prefix_length in Hpfx. rewrite length_drop in Hpfx. zlia. }
  destruct (IH (i + 1) (pos + ts) (pre ++ fst (T d)) rd1 (emit cc (snd (T d))) (R - sec))
    as (rd' & -> & Hpfx'); [lia|lia|nia|nia|rewrite length_app; specialize (HT d); zlia|].
  assert (Htk : take (Z.to_nat (R - sec)) (content rd1)
                = drop (Z.to_nat ts) (take (Z.to_nat R) (content rd))).
  { rewrite (take_prefix _ _ _ Hpfx) by (rewrite length_drop; zlia).
    destruct Hsec as [_ [-> | [? ->]]].
    - rewrite skipn_firstn_comm. f_equal. lia.
    - rewrite Z.sub_diag, (drop_ge (take _ _)) by (rewrite length_take; lia). apply take_0. }
  rewrite Htk. exists rd'. subst subs. cbn [pieces map concat].
  replace (take (Z.to_nat ts) (take (Z.to_nat R) (content rd))) with d.
  2:{ subst d. rewrite take_take. f_equal. lia. }
  rewrite emit_emit, <- app_assoc. split; [done|].
  replace (Z.to_nat R) with (Z.to_nat sec + Z.to_nat (R - sec))%nat by lia.
  rewrite <- drop_drop.
  destruct Hpfx as [q Hq]. rewrite Hq, drop_app_le in Hpfx' by (rewrite length_drop; zlia).
  etransitivity; [|exact Hpfx']. by apply prefix_app_r.
Qed.

(** [split] computes the tree of the bytes the reader delivers, whatever the
    sizes of its reads, and leaves the reader behind them. *)
Lemma split_ok depth ts :
  level_ok depth ts -> splits (tree tc depth ts) (split tc depth ts).
Proof using Hok.
  revert ts. induction depth as [|depth IH]; intros ts Hlev size rd cc Hsize data; subst data;
    cbn [split tree].
  - destruct (Z.ltb_spec size 0); [lia|].
    unfold make_bytes. rewrite copy_at_make by (rewrite length_le64; lia).
    rewrite length_le64. replace (Z.to_nat (size + 8) - 8)%nat with (Z.to_nat size) by lia.
    destruct (fill_ok rd size (le64 size) (Z.to_nat size) 0) as (rd' & -> & Hpfx);
      [rewrite length_le64; done|lia|lia|zlia|].
    exists rd'. cbn [rbind]. rewrite zlen_take, Z.min_l by zlia.
    rewrite Z2Nat.id by lia. done.
  - replace (#(take (Z.to_nat size) (content rd))) with size by (rewrite zlen_take; lia).
    destruct (Z.ltb_spec size ts).
    { apply IH; [by apply level_div|done]. }
    pose proof (level_pos _ _ Hlev) as Hts. destruct Hok.
    fold (branch_count size ts).
    destruct (branch_count_bounds size ts ltac:(lia) Hts) as [Hb0 Hb].
    unfold make_bytes. rewrite copy_at_make by (rewrite length_le64; nia).
    rewrite length_le64.
    replace (Z.to_nat (branch_count size ts * hashSize tc + 8) - 8)%nat
      with (Z.to_nat (branch_count size ts) * Z.to_nat (hashSize tc))%nat by nia.
    destruct (split_children_ok (tree tc depth (ts / branches tc))
                (split tc depth (ts / branches tc))
                (Z.to_nat (branch_count size ts)) 0 0 ts size (le64 size) rd cc size)
      as (rd' & -> & Hpfx); try lia.
    { apply IH. by apply level_div. }
    { intros d. apply tree_key_length. }
    { done. }
    cbn [rbind]. exists rd'. by rewrite send_emit, emit_emit.
Qed.
End SplitLemmas.

(** ** Lemmas: depth of the tree *)

Section GrowLemmas.
Context (tc : TreeChunker) (Hok : chunker_ok tc).

Lemma grow_ok fuel depth size :
  size * branches tc < 2 ^ 63 ->
  size <= chunkSize tc * branches tc ^ Z.of_nat depth * 2 ^ Z.of_nat fuel ->
  exists d, grow tc fuel (chunkSize tc * branches tc ^ Z.of_nat depth) depth size
            = Some (chunkSize tc * branches tc ^ Z.of_nat d, d)
            /\ size <= chunkSize tc * branches tc ^ Z.of_nat d.
Proof using Hok.
  pose proof (chunkSize_pos tc Hok). destruct Hok. intros Hsz. revert depth.
  induction fuel as [|f IH]; intros depth Hfuel; cbn [grow];
    set (ts := chunkSize tc * branches tc ^ Z.of_nat depth) in *;
    destruct (Z.ltb_spec ts size) as [Hlt|Hge]; try (exists depth; by rewrite ?Z.mul_1_r in *).
  - simpl in Hfuel. lia.
  - assert (Hts : 0 < ts).
    { apply Z.mul_pos_pos; [done|apply Z.pow_pos_nonneg; lia]. }
    assert (Hnext : ts * branches tc = chunkSize tc * branches tc ^ Z.of_nat (S depth)).
    { subst ts. rewrite Nat2Z.inj_succ, Z.pow_succ_r by lia. ring. }
    rewrite i64_id by (unfold is_i64; nia). rewrite Hnext. apply IH.
    rewrite <- Hnext. rewrite Nat2Z.inj_succ, Z.pow_succ_r in Hfuel by lia.
    assert (0 < 2 ^ Z.of_nat f) by lia. nia.
Qed.

(** Sixty-three rounds are enough for any [int64] size. *)
Definition depth_fuel : nat := 63.

Lemma grow_enough size :
  size * branches tc < 2 ^ 63 ->
  exists d, grow tc depth_fuel (chunkSize tc) 0 size
            = Some (chunkSize tc * branches tc ^ Z.of_nat d, d)
            /\ size <= chunkSize tc * branches tc ^ Z.of_nat d.
Proof using Hok.
  intros Hsz. pose proof (chunkSize_pos tc Hok). destruct Hok.
  destruct (grow_ok depth_fuel 0 size Hsz) as (d & Hd & Hle).
  - unfold depth_fuel. simpl Z.of_nat. rewrite Z.pow_0_r. nia.
  - exists d. simpl Z.of_nat in Hd. by rewrite Z.pow_0_r, Z.mul_1_r in Hd.
Qed.

(** The subtree size that [Split] and [ReadAt] start the recursion with. *)
Lemma level_root d : level_ok tc d (chunkSize tc * branches tc ^ Z.of_nat d / branches tc).
Proof using Hok.
  destruct Hok. destruct d as [|d]; [by left|right].
  rewrite Nat2Z.inj_succ, Z.pow_succ_r, (Z.mul_comm (branches tc)), Z.mul_assoc, Z.div_mul by lia.
  do 2 f_equal. lia.
Qed.
End GrowLemmas.

Lemma grow_zero tc fuel depth size : 0 < size -> grow tc fuel 0 depth size = None.
Proof.
  intros Hs. revert depth. induction fuel as [|f IH]; intros depth; cbn [grow];
    (destruct (Z.ltb_spec 0 size); [|lia]); [done|].
  rewrite Z.mul_0_l. change (i64 0) with 0. apply IH.
Qed.

(** With the default parameters the product wraps to zero at the eighth round. *)
Lemma grow_default_diverges tc fuel size :
  branches tc = 128 -> 2 ^ 61 < size ->
  grow tc fuel 4096 0 size = None.
Proof.
  intros Hb Hs.
  do 8 (destruct fuel as [|fuel]; cbn [grow]; rewrite ?Hb;
        match goal with |- context [?a <? size] =>
          let v := eval vm_compute in a in change a with v;
          destruct (Z.ltb_spec v size) as [_|Hc]; [|lia] end; try done).
  match goal with |- grow _ _ ?z _ _ = _ => change z with 0 end.
  apply grow_zero. lia.
Qed.

(** ** Lemmas: joining *)

(** A store that answers for every chunk of a list. *)
Definition stores (fetch : Key -> option (bytes * Z)) (l : list Chunk) : Prop :=
  Forall (fun c => fetch (ck_Key c) = Some (sdata c, ck_Size c)) l.

Lemma slice_concat (ks : list Key) hs (j : nat) k :
  0 < hs -> Forall (fun x => #x = hs) ks -> ks !! j = Some k ->
  slice (concat ks) (Z.of_nat j * hs) ((Z.of_nat j + 1) * hs) = Some k.
Proof.
  intros Hhs. revert j. induction ks as [|x ks IH]; intros j HF Hj; [done|].
  inversion_clear HF as [|?? Hx HF']. cbn [concat]. destruct j as [|j]; simpl in Hj.
  - injection Hj as ->. rewrite Z.mul_0_l, Z.add_0_l, Z.mul_1_l.
    rewrite slice_Some by (rewrite ?zlen_app; pose proof (zlen_nonneg (concat ks)); lia).
    rewrite drop_0, Z.sub_0_r. rewrite take_app_le, firstn_all2 by zlia. done.
  - rewrite slice_app_r by nia. rewrite Hx.
    replace (Z.of_nat (S j) * hs - hs) with (Z.of_nat j * hs) by lia.
    replace ((Z.of_nat (S j) + 1) * hs - hs) with ((Z.of_nat j + 1) * hs) by lia.
    by apply IH.
Qed.

(** The bytes [x, y) of a list. *)
Definition range {A} (l : list A) (x y : Z) : list A :=
  take (Z.to_nat (y - x)) (drop (Z.to_nat x) l).

Lemma range_app {A} (l : list A) x y z :
  0 <= x <= y -> y <= z -> range l x y ++ range l y z = range l x z.
Proof.
  intros. unfold range.
  replace (Z.to_nat y) with (Z.to_nat x + Z.to_nat (y - x))%nat by lia.
  rewrite <- drop_drop, take_take_drop. f_equal. lia.
Qed.

Lemma range_length {A} (l : list A) x y : 0 <= x <= y -> y <= #l -> length (range l x y) = Z.to_nat (y - x).
Proof. intros. unfold range. rewrite length_take, length_drop. zlia. Qed.

(** The part of a piece is a part of the whole. *)
Lemma range_piece {A} (l : list A) i ts x y :
  0 <= i * ts -> 0 <= ts -> i * ts <= x <= y -> y <= (i + 1) * ts ->
  range (take (Z.to_nat ts) (drop (Z.to_nat (i * ts)) l)) (x - i * ts) (y - i * ts) = range l x y.
Proof.
  intros. unfold range. rewrite skipn_firstn_comm, take_take, drop_drop.
  f_equal; [nia|]. f_equal. nia.
Qed.

Section JoinLemmas.
Context (tc : TreeChunker) (Hok : chunker_ok tc) (fetch : Key -> option (bytes * Z)).

(** The root chunk of a tree. *)
Lemma tree_root d ts data :
  exists pre c, snd (tree tc d ts data) = pre ++ [c] /\ fst (tree tc d ts data) = ck_Key c /\
    ck_Size c = #data /\ sdata c <> [] /\ c = hashChunk tc (sdata c) (#data).
Proof using Type.
  revert ts; induction d; intros ts; cbn [tree].
  - exists []. eexists. split_and!; simpl; done.
  - case_match; [apply IHd|]. eexists _, _. split_and!; simpl; done.
Qed.

Lemma retrieve_root d ts data c pre :
  stores fetch (snd (tree tc d ts data)) -> snd (tree tc d ts data) = pre ++ [c] ->
  retrieve fetch (fst (tree tc d ts data)) = Some c.
Proof using Type.
  destruct (tree_root d ts data) as (pre' & c' & E & Hk & Hsz & Hne & Hc). rewrite E.
  intros Hst Heq. apply app_inj_tail in Heq as [_ ->]. rewrite Hk.
  unfold stores in Hst. rewrite Forall_app, Forall_singleton in Hst.
  destruct Hst as [_ Hst]. unfold retrieve. rewrite Hst.
  destruct (Z.eqb_spec (#(sdata c)) 0) as [Hz|_].
  - destruct (sdata c); [done|rewrite zlen_cons in Hz; zlia].
  - f_equal. rewrite Hc at 4. rewrite Hsz. rewrite Hc at 1. done.
Qed.

(** What a call of [join] on a subtree over [data] does. *)
Definition joins (data : bytes) (rec : bytes -> Z -> Z -> result joinerr bytes) : Prop :=
  forall b off eoff, 0 <= off <= eoff -> eoff <= #data -> #b = eoff - off ->
  rec b off eoff = Ok (range data off eoff).

Lemma join_children_ok rec n i off eoff ts data chunk keys tail :
  0 < ts -> 0 <= off <= eoff -> eoff <= #data -> 0 <= i -> off <= (i + 1) * ts ->
  eoff <= (i + Z.of_nat n) * ts < eoff + ts ->
  sdata chunk = le64 (#data) ++ concat keys ->
  Forall (fun k => #k = hashSize tc) keys -> length keys = Z.to_nat (branch_count (#data) ts) ->
  (forall (j : nat) key, keys !! j = Some key ->
     exists child, retrieve fetch key = Some child /\
       joins (take (Z.to_nat ts) (drop (j * Z.to_nat ts) data)) (fun b x y => rec b x y child)) ->
  let X := Z.min eoff (Z.max off (i * ts)) in
  #tail = eoff - X ->
  join_children tc fetch rec n i off eoff ts chunk (range data off X ++ tail)
  = Ok (range data off eoff).
Proof using Hok.
  intros Hts Hoff Hsz. destruct Hok. revert i tail.
  induction n as [|n IH]; intros i tail Hi Hoffi Hn Hsd HF Hkl Hch X Htail; cbn [join_children].
  { assert (X = eoff) by (subst X; nia). subst X.
    rewrite H in *. assert (tail = []) as -> by (apply length_zero_iff_nil; zlia).
    by rewrite app_nil_r. }
  assert (Hlt : i * ts < eoff) by nia.
  set (soff := if i * ts <? off then off else i * ts).
  set (seoff := if eoff <? i * ts + ts then eoff else i * ts + ts).
  assert (Hs : soff = X) by (subst X soff; destruct (Z.ltb_spec (i * ts) off); lia).
  assert (HX : off <= X /\ i * ts <= X <= seoff /\ seoff <= eoff /\ seoff <= (i + 1) * ts)
    by (subst X seoff; destruct (Z.ltb_spec eoff (i * ts + ts)); nia).
  assert (Hnext : Z.min eoff (Z.max off ((i + 1) * ts)) = seoff)
    by (subst seoff; destruct (Z.ltb_spec eoff (i * ts + ts)); nia).
  rewrite Hs. clear Hs soff.
  destruct (branch_count_bounds (#data) ts ltac:(zlia) Hts) as [Hb0 Hb].
  destruct (lookup_lt_is_Some_2 keys (Z.to_nat i)) as [key Hkey]; [rewrite Hkl; nia|].
  rewrite Hsd. rewrite slice_app_r by (rewrite zlen_le64; nia). rewrite zlen_le64.
  replace (8 + i * hashSize tc - 8) with (Z.of_nat (Z.to_nat i) * hashSize tc) by lia.
  replace (8 + (i + 1) * hashSize tc - 8)
    with ((Z.of_nat (Z.to_nat i) + 1) * hashSize tc) by lia.
  rewrite (slice_concat _ _ _ _ ok_size0 HF Hkey). cbn [or_panic rbind].
  destruct (Hch _ _ Hkey) as (child & -> & Hjoin).
  assert (Hlen : length (range data off X) = Z.to_nat (X - off)) by (apply range_length; lia).
  rewrite slice_Some by (rewrite ?zlen_app; zlia). cbn [or_panic rbind].
  replace (Z.to_nat i * Z.to_nat ts)%nat with (Z.to_nat (i * ts)) in Hjoin by nia.
  rewrite (Hjoin _ (X - i * ts) (seoff - i * ts)); [|lia| |].
  2:{ rewrite zlen_take, zlen_drop. lia. }
  2:{ rewrite zlen_take, zlen_drop, zlen_app. zlia. }
  cbn [rbind]. rewrite range_piece by lia.
  assert (Hsub : length (range data X seoff) = Z.to_nat (seoff - X)) by (apply range_length; lia).
  rewrite <- (take_drop (Z.to_nat (seoff - X)) tail), <- Hlen.
  rewrite copy_at_fit by (rewrite length_take; zlia).
  rewrite app_assoc, range_app, <- Hnext by lia.
  apply IH; try done; try lia. rewrite Hnext, zlen_drop. lia.
Qed.

(** [join] over a stored tree copies the requested range of the data. *)
Lemma join_ok d ts data :
  level_ok tc d ts -> stores fetch (snd (tree tc d ts data)) ->
  forall pre c, snd (tree tc d ts data) = pre ++ [c] ->
  joins data (fun b off eoff => join tc fetch d ts b off eoff c).
Proof using Hok.
  revert ts data. induction d as [|d IH]; intros ts data Hlev Hst pre c Hc b off eoff Hoff Hsz Hb;
    cbn [join tree] in *.
  - assert (c = hashChunk tc (le64 (#data) ++ data) (#data)) as ->.
    { destruct pre; [by injection Hc|]. apply (f_equal length) in Hc.
      simpl in Hc. rewrite length_app in Hc. simpl in Hc. lia. }
    cbn [sdata hashChunk ck_SData]. rewrite zlen_app.
    rewrite zlen_le64. destruct (Z.ltb_spec 0 (8 + eoff - (8 + #data))); [lia|].
    rewrite slice_app_r, zlen_le64 by (rewrite zlen_le64; lia).
    rewrite slice_Some by lia. cbn [or_panic rbind]. unfold range.
    replace (8 + eoff - 8 - (8 + off - 8)) with (eoff - off) by lia.
    replace (8 + off - 8) with off by lia.
    rewrite copy_at_whole; [done|]. rewrite length_take, length_drop. zlia.
  - destruct (tree_root (S d) ts data) as (pre' & c' & E & _ & Hcs & _ & _). cbn [tree] in E.
    rewrite E in Hc. apply app_inj_tail in Hc as [-> ->]. rewrite Hcs.
    destruct (Z.ltb_spec (#data) ts).
    { by apply (IH (ts / branches tc) data (level_div tc Hok _ _ Hlev) Hst pre c E). }
    pose proof (level_pos tc Hok _ _ Hlev) as Hts. destruct Hok as [? ? ? ? ?].
    apply app_inj_tail in E as [<- <-]. set (subs := map (tree tc d _) _) in *.
    unfold stores in Hst. cbn [snd] in Hst. rewrite Forall_app in Hst. destruct Hst as [Hst _].
    rewrite Forall_concat in Hst.
    pose proof (Z.div_mod off ts ltac:(lia)). pose proof (Z.mod_pos_bound off ts Hts).
    fold (branch_count eoff ts).
    destruct (branch_count_bounds eoff ts ltac:(lia) Hts) as [? ?].
    assert (Hstart : Z.min eoff (Z.max off (off / ts * ts)) = off) by nia.
    assert (off / ts <= branch_count eoff ts) by nia.
    assert (0 <= off / ts) by (apply Z.div_pos; lia).
    assert (Hempty : b = range data off (Z.min eoff (Z.max off (off / ts * ts))) ++ b)
      by (rewrite Hstart; unfold range; by rewrite Z.sub_diag).
    rewrite Hempty.
    eapply (join_children_ok _ _ _ _ _ _ data _ (map fst subs)); try done; try lia.
    + rewrite Z2Nat.id by lia. rewrite Zplus_minus. lia.
    + apply Forall_forall. intros k Hk. apply list_elem_of_fmap in Hk as (kc & -> & Hk).
      subst subs. apply list_elem_of_fmap in Hk as (? & -> & _). by apply tree_key_length.
    + rewrite length_map. subst subs. by rewrite length_map, length_pieces.
    + intros j key Hj. subst subs. rewrite <- list_fmap_compose in Hj.
      apply list_lookup_fmap_Some in Hj as (p & -> & Hj).
      rewrite Forall_map, Forall_map in Hst.
      pose proof (Forall_lookup_1 _ _ _ _ Hst Hj) as Hp. simpl in Hp.
      assert (p = take (Z.to_nat ts) (drop (j * Z.to_nat ts) data)) as <-.
      { pose proof (lookup_lt_Some _ _ _ Hj) as Hlt. rewrite length_pieces in Hlt.
        rewrite pieces_lookup in Hj by done. by injection Hj. }
      destruct (tree_root d (ts / branches tc) p) as (pre & child & Ech & _).
      exists child. split; [by eapply retrieve_root|].
      eapply IH; [by apply level_div|done|exact Ech].
Qed.
End JoinLemmas.

(** ** Lemmas: sizes of the chunks *)

Section BoundLemmas.
Context (tc : TreeChunker) (Hok : chunker_ok tc).

Lemma Forall_pieces {A} (P : list A -> Prop) k n l :
  (forall m, P (take n (drop m l))) -> Forall P (pieces k n l).
Proof using Type.
  revert l. induction k as [|k IH]; intros l HP; constructor.
  - apply (HP 0%nat).
  - apply IH. intros m. specialize (HP (n + m)%nat). by rewrite <- drop_drop in HP.
Qed.

Lemma zlen_concat_const {A} (ls : list (list A)) h :
  Forall (fun x => #x = h) ls -> #(concat ls) = #ls * h.
Proof using Type.
  induction 1 as [|x ls Hx _ IH]; [done|]. cbn [concat]. rewrite zlen_app, zlen_cons, IH. lia.
Qed.

(** A chunk is addressed by the hash of its data and is at most a chunk long. *)
Definition chunk_fits (c : Chunk) : Prop :=
  ck_Key c = h_sum (hashFunc tc) (sdata c) /\ 8 <= #(sdata c) <= chunkSize tc + 8.

Lemma tree_fits d ts data :
  level_ok tc d ts -> #data <= chunkSize tc * branches tc ^ Z.of_nat d ->
  Forall chunk_fits (snd (tree tc d ts data)).
Proof using Hok.
  pose proof (chunkSize_pos tc Hok) as Hcs.
  revert ts data. induction d as [|d IH]; intros ts data Hlev Hsz; cbn [tree].
  - simpl in Hsz. constructor; [|done]. split; [done|].
    cbn [hashChunk sdata ck_SData]. rewrite zlen_app, zlen_le64. pose proof (zlen_nonneg data). lia.
  - pose proof (level_div tc Hok _ _ Hlev) as Hdiv. pose proof (level_pos tc Hok _ _ Hlev) as Hts.
    assert (Hmax : ts = chunkSize tc * branches tc ^ Z.of_nat d).
    { destruct Hlev as [?| ->]; [lia|]. do 2 f_equal. lia. }
    destruct (Z.ltb_spec (#data) ts); [apply IH; [done|lia]|]. cbn [snd].
    rewrite Forall_app, Forall_singleton, Forall_concat, !Forall_map. split.
    { apply Forall_pieces. intros m. simpl. apply IH; [done|]. rewrite zlen_take. lia. }
    split; [done|]. cbn [hashChunk sdata ck_SData]. rewrite zlen_app, zlen_le64.
    rewrite (zlen_concat_const _ (hashSize tc)).
    2:{ rewrite !Forall_map. apply Forall_pieces. intros m. by apply tree_key_length. }
    unfold zlen at 1 3. rewrite !length_map, length_pieces.
    destruct (branch_count_bounds (#data) ts ltac:(zlia) Hts) as [? Hb].
    rewrite Nat2Z.inj_succ, Z.pow_succ_r in Hsz by lia. destruct Hok.
    assert (branch_count (#data) ts <= branches tc) by nia. rewrite Z2Nat.id by done. nia.
Qed.
End BoundLemmas.

(** ** The theorems *)

(** A call of [Split] on a reader that has the data runs to the end. *)
Lemma Split_tree tc rd data :
  chunker_ok tc -> #data * branches tc < 2 ^ 63 -> data `prefix_of` content rd ->
  exists d rd', let ts := chunkSize tc * branches tc ^ Z.of_nat d / branches tc in
    grow tc depth_fuel (chunkSize tc) 0 (#data) = Some (chunkSize tc * branches tc ^ Z.of_nat d, d) /\
    #data <= chunkSize tc * branches tc ^ Z.of_nat d /\
    Split tc depth_fuel rd (#data) (Some [])
    = Some (Ok (fst (tree tc d ts data), rd', Some (snd (tree tc d ts data)))).
Proof.
  intros Hok Hsz Hpfx. destruct (grow_enough tc Hok (#data) Hsz) as (d & Hd & Hle).
  pose proof (chunkSize_pos tc Hok). pose proof (prefix_length _ _ Hpfx).
  destruct (split_ok tc Hok d _ (level_root tc Hok d) (#data) rd (Some []) ltac:(zlia))
    as (rd' & Hs & _).
  exists d, rd'. split_and!; [done|done|]. unfold Split.
  destruct (Z.leb_spec (chunkSize tc) 0); [lia|]. rewrite Hd, Hs.
  assert (take (Z.to_nat (#data)) (content rd) = data) as ->.
  { unfold zlen. rewrite Nat2Z.id, (take_prefix _ _ _ Hpfx), firstn_all; done. }
  done.
Qed.

(** A read through a store that answers for the chunks of a tree. *)
Lemma ReadAt_tree tc fetch data d b off :
  chunker_ok tc -> let ts := chunkSize tc * branches tc ^ Z.of_nat d / branches tc in
  grow tc depth_fuel (chunkSize tc) 0 (#data) = Some (chunkSize tc * branches tc ^ Z.of_nat d, d) ->
  #data <= chunkSize tc * branches tc ^ Z.of_nat d -> stores fetch (snd (tree tc d ts data)) ->
  0 <= off -> 0 < #b -> off + #b <= #data ->
  exists r', ReadAt tc fetch depth_fuel (Join (fst (tree tc d ts data))) b off
             = Some (Ok (range data off (off + #b), #b, #data <=? off + #b, r')).
Proof.
  intros Hok ts Hg Hle Hst Hoff Hb Hend. unfold ReadAt. destruct (Z.eqb_spec (#b) 0); [lia|].
  unfold reader_Size. cbn [Join lr_chunk lr_key]. edestruct (tree_root tc d) as (pre & c & Hc & _ & Hcs & _).
  rewrite (retrieve_root tc fetch d _ data c pre Hst Hc). cbn [lr_chunk]. rewrite Hcs, Hg.
  rewrite (join_ok tc Hok fetch d _ data (level_root tc Hok d) Hst pre c Hc b off (off + #b)) by lia.
  eexists. reflexivity.
Qed.

(** C1: storing a byte string through [TreeChunker.Split] and reading any range
    of it back through [Join] and [ReadAt] returns exactly those bytes. The
    reader may hand out the data in reads of any sizes; the store only has to
    answer for the chunks that [Split] emitted. The depth loops of both
    functions end, and [io.EOF] comes with the read that reaches the end. *)
Theorem split_read_roundtrip tc rd data :
  chunker_ok tc -> #data * branches tc < 2 ^ 63 -> data `prefix_of` content rd ->
  exists key rd' chunks,
    Split tc depth_fuel rd (#data) (Some []) = Some (Ok (key, rd', Some chunks)) /\
    forall fetch, stores fetch chunks ->
    forall b off, 0 <= off -> 0 < #b -> off + #b <= #data ->
    exists r', ReadAt tc fetch depth_fuel (Join key) b off
               = Some (Ok (range data off (off + #b), #b, #data <=? off + #b, r')).
Proof.
  intros Hok Hsz Hpfx. destruct (Split_tree tc rd data Hok Hsz Hpfx) as (d & rd' & Hg & Hle & HS).
  eexists _, rd', _. split; [exact HS|]. intros fetch Hst b off Hoff Hb Hend. by apply ReadAt_tree.
Qed.

(** the root key and the chunks of a document depend on its bytes only, not
    on how the reader cuts them into [Read] results. *)
Theorem split_independent_of_reads tc rd1 rd2 data :
  chunker_ok tc -> #data * branches tc < 2 ^ 63 ->
  data `prefix_of` content rd1 -> data `prefix_of` content rd2 ->
  exists key chunks rd1' rd2',
    Split tc depth_fuel rd1 (#data) (Some []) = Some (Ok (key, rd1', Some chunks)) /\
    Split tc depth_fuel rd2 (#data) (Some []) = Some (Ok (key, rd2', Some chunks)).
Proof.
  intros Hok Hsz H1 H2.
  destruct (Split_tree tc rd1 data Hok Hsz H1) as (d1 & rd1' & Hg1 & _ & HS1).
  destruct (Split_tree tc rd2 data Hok Hsz H2) as (d2 & rd2' & Hg2 & _ & HS2).
  rewrite Hg1 in Hg2. injection Hg2 as _ <-. by eexists _, _, rd1', rd2'.
Qed.

(** every chunk that [Split] emits is addressed by the hash of its data, and
    its data is the eight size bytes and at most [chunkSize] bytes more, in
    leaves and in intermediate chunks alike. *)
Theorem split_chunks_fit tc rd data :
  chunker_ok tc -> #data * branches tc < 2 ^ 63 -> data `prefix_of` content rd ->
  exists key rd' chunks,
    Split tc depth_fuel rd (#data) (Some []) = Some (Ok (key, rd', Some chunks)) /\
    Forall (chunk_fits tc) chunks.
Proof.
  intros Hok Hsz Hpfx. destruct (Split_tree tc rd data Hok Hsz Hpfx) as (d & rd' & _ & Hle & HS).
  eexists _, rd', _. split; [exact HS|].
  apply tree_fits; [done|by apply level_root|done].
Qed.

(** with the default parameters, a root chunk that claims more than [2^61]
    bytes makes the depth loop of [ReadAt] run forever: its [int64] product
    wraps to zero, which stays below the size. The size is read from the first
    eight bytes of a chunk that any peer may have sent. *)
Theorem ReadAt_huge_size_diverges tc fetch r b off root fuel :
  branches tc = 128 -> chunkSize tc = 4096 ->
  retrieve fetch (lr_key r) = Some root -> lr_chunk r = None ->
  2 ^ 61 < ck_Size root -> 0 < #b ->
  ReadAt tc fetch fuel r b off = None.
Proof.
  intros Hb Hc Hroot Hr Hsz Hlen. unfold ReadAt.
  destruct (Z.eqb_spec (#b) 0); [lia|]. unfold reader_Size. rewrite Hr, Hroot. cbn [lr_chunk].
  by rewrite Hc, grow_default_diverges.
Qed.

(** The document of one chunk. *)
Lemma ReadAt_leaf tc fetch r b off root :
  lr_chunk r = Some root -> ck_Size root <= chunkSize tc -> 0 < #b ->
  ReadAt tc fetch depth_fuel r b off
  = Some (let! b' := join tc fetch 0 (chunkSize tc / branches tc) b off (off + #b) root in
          Ok (b', #b, ck_Size root <=? off + #b, r)).
Proof.
  intros Hr Hsz Hb. unfold ReadAt. destruct (Z.eqb_spec (#b) 0); [lia|].
  unfold reader_Size. rewrite Hr. rewrite Hr. unfold depth_fuel. cbn [grow].
  destruct (Z.ltb_spec (chunkSize tc) (ck_Size root)); [lia|done].
Qed.

(** a read that runs over the end of a one-chunk document copies the bytes
    that are there, leaves the rest of the buffer alone, and still reports the
    full buffer length as the count. *)
Theorem ReadAt_overreports tc fetch r b off root data :
  lr_chunk r = Some root -> sdata root = le64 (#data) ++ data -> ck_Size root = #data ->
  #data <= chunkSize tc -> 0 <= off <= #data -> #data < off + #b ->
  ReadAt tc fetch depth_fuel r b off
  = Some (Ok (range data off (#data) ++ drop (Z.to_nat (#data - off)) b, #b, true, r)).
Proof.
  intros Hr Hsd Hcs Hsz Hoff Hend. rewrite (ReadAt_leaf _ _ _ _ _ root) by (rewrite ?Hcs; first [done|zlia]).
  cbn [join]. rewrite Hsd, zlen_app, zlen_le64, Hcs.
  destruct (Z.ltb_spec 0 (8 + (off + #b) - (8 + #data))); [|lia].
  replace (off + #b - (8 + (off + #b) - (8 + #data))) with (#data) by lia.
  rewrite slice_app_r, zlen_le64 by (rewrite zlen_le64; lia).
  replace (8 + off - 8) with off by lia. replace (8 + #data - 8) with (#data) by lia.
  rewrite slice_Some by lia. cbn [or_panic rbind]. fold (range data off (#data)).
  destruct (Z.leb_spec (#data) (off + #b)); [|lia]. do 5 f_equal.
  unfold copy_at. rewrite range_length by lia. replace (_ `min` _)%nat with (Z.to_nat (#data - off)) by zlia.
  rewrite take_0, firstn_all2 by (rewrite range_length by lia; lia). done.
Qed.

(** a read that starts behind the end of a one-chunk document panics with a
    slice bound out of range, although [Seek] accepts such an offset. *)
Theorem ReadAt_past_end_panics tc fetch r b off root data :
  lr_chunk r = Some root -> sdata root = le64 (#data) ++ data -> ck_Size root = #data ->
  #data <= chunkSize tc -> #data < off -> 0 < #b ->
  reader_Seek fetch r off 0
    = Ok (off, {| lr_key := lr_key r; lr_chunk := lr_chunk r; lr_off := off |}) /\
  ReadAt tc fetch depth_fuel r b off = Some Panic.
Proof.
  intros Hr Hsd Hcs Hsz Hoff Hb. pose proof (zlen_nonneg data). split.
  { unfold reader_Seek. simpl. destruct (Z.ltb_spec off 0); [lia|done]. }
  rewrite (ReadAt_leaf _ _ _ _ _ root) by (rewrite ?Hcs; first [done|zlia]). cbn [join].
  rewrite Hsd, zlen_app, zlen_le64.
  destruct (Z.ltb_spec 0 (8 + (off + #b) - (8 + #data))); [|lia].
  unfold slice. rewrite decide_False by lia. done.
Qed.

(** A full subtree has one child. *)
Lemma tree_full tc d data :
  chunker_ok tc -> #data = chunkSize tc * branches tc ^ Z.of_nat d ->
  let ts := chunkSize tc * branches tc ^ Z.of_nat d in
  fst (tree tc (S d) ts data)
  = h_sum (hashFunc tc) (le64 (#data) ++ fst (tree tc d (ts / branches tc) data)) /\
  level_ok tc (S d) ts.
Proof.
  intros Hok Hsz ts. pose proof (chunkSize_pos tc Hok) as Hcs. destruct Hok.
  split; [|right; subst ts; do 2 f_equal; lia].
  assert (Hts : 0 < ts) by (apply Z.mul_pos_pos; [done|apply Z.pow_pos_nonneg; lia]).
  cbn [tree]. destruct (Z.ltb_spec (#data) ts); [lia|].
  replace (branch_count (#data) ts) with 1.
  2:{ unfold branch_count. rewrite Hsz. fold ts.
      apply (Z.div_unique _ _ _ (ts - 1)); lia. }
  change (Z.to_nat 1) with 1%nat. cbn [pieces map concat fst ck_Key hashChunk].
  rewrite app_nil_r, firstn_all2 by zlia. done.
Qed.

(** when [split] is called below the root for a slice of exactly
    [treeSize] bytes, it makes an intermediate chunk with a single child: the
    slice's key is the hash of that child's key. So the last slice of a
    document that exactly fills a chunk is stored as two chunks, and not, as
    rule 4 of the description of the tree has it, as a single chunk. *)
Theorem split_full_slice_has_one_child tc d data rd :
  chunker_ok tc -> #data = chunkSize tc * branches tc ^ Z.of_nat d -> data `prefix_of` content rd ->
  let ts := chunkSize tc * branches tc ^ Z.of_nat d in
  exists key child rd1 rd0 chunks1 chunks0,
    split tc (S d) ts (#data) rd (Some []) = Ok (key, rd1, Some chunks1) /\
    split tc d (ts / branches tc) (#data) rd (Some []) = Ok (child, rd0, Some chunks0) /\
    key = h_sum (hashFunc tc) (le64 (#data) ++ child).
Proof.
  intros Hok Hsz Hpfx ts. destruct (tree_full tc d data Hok Hsz) as [Hkey Hlev].
  pose proof (prefix_length _ _ Hpfx).
  assert (Hd : take (Z.to_nat (#data)) (content rd) = data).
  { unfold zlen. rewrite Nat2Z.id, (take_prefix _ _ _ Hpfx), firstn_all; done. }
  destruct (split_ok tc Hok _ _ Hlev (#data) rd (Some []) ltac:(zlia)) as (rd1 & H1 & _).
  destruct (split_ok tc Hok _ _ (level_div tc Hok _ _ Hlev) (#data) rd (Some []) ltac:(zlia))
    as (rd0 & H0 & _).
  rewrite Hd in H1, H0. eexists _, _, rd1, rd0, _, _. split; [exact H1|]. split; [exact H0|exact Hkey].
Qed.

(** ** Witnesses: a two-byte checksum as the hash, two branches, four-byte chunks *)

Definition toy_hash : Hasher :=
  {| h_sum := fun l => [(foldr (fun x a => 3 * a + x + 1) 7 l) mod 256;
                        (foldr (fun x a => 5 * a + x) 1 l) mod 251];
     h_size := 2 |}.

Definition toy : TreeChunker :=
  {| branches := 2; hashFunc := toy_hash; hashSize := 2; chunkSize := 4 |}.

Lemma toy_ok : chunker_ok toy.
Proof. split; simpl; [reflexivity|lia..]. Qed.

Definition toy_data : bytes := [10; 20; 30; 40; 50; 60; 70; 80; 90; 100; 110; 120].

Definition toy_reader : reader := [([10; 20; 30], None); ([40; 50; 60; 70; 80], None); ([], None);
                                   ([90; 100; 110; 120], Some EOF)].

Lemma toy_reader_content : toy_data `prefix_of` content toy_reader.
Proof. by exists []. Qed.

(** The six chunks of the three leaves: the last leaf sits behind a node of its own. *)
Example toy_split_six :
  match Split toy depth_fuel toy_reader 12 (Some []) with
  | Some (Ok (_, _, Some l)) => length l
  | _ => 0%nat
  end = 6%nat.
Proof. vm_compute. reflexivity. Qed.

Lemma split_read_roundtrip_witness :
  exists key rd' chunks,
    Split toy depth_fuel toy_reader 12 (Some []) = Some (Ok (key, rd', Some chunks)) /\
    forall fetch, stores fetch chunks ->
    forall b off, 0 <= off -> 0 < #b -> off + #b <= 12 ->
    exists r', ReadAt toy fetch depth_fuel (Join key) b off
               = Some (Ok (range toy_data off (off + #b), #b, 12 <=? off + #b, r')).
Proof.
  apply (split_read_roundtrip toy toy_reader toy_data toy_ok).
  - vm_compute. reflexivity.
  - exact toy_reader_content.
Defined.

Lemma split_independent_of_reads_witness :
  exists key chunks rd1' rd2',
    Split toy depth_fuel toy_reader 12 (Some []) = Some (Ok (key, rd1', Some chunks)) /\
    Split toy depth_fuel [(toy_data, None)] 12 (Some []) = Some (Ok (key, rd2', Some chunks)).
Proof.
  apply (split_independent_of_reads toy toy_reader [(toy_data, None)] toy_data toy_ok).
  - vm_compute. reflexivity.
  - exact toy_reader_content.
  - by exists [].
Defined.

Lemma split_chunks_fit_witness :
  exists key rd' chunks,
    Split toy depth_fuel toy_reader 12 (Some []) = Some (Ok (key, rd', Some chunks)) /\
    Forall (chunk_fits toy) chunks.
Proof.
  apply (split_chunks_fit toy toy_reader toy_data toy_ok).
  - vm_compute. reflexivity.
  - exact toy_reader_content.
Defined.

(** The default parameters over the same checksum, thirty-two bytes wide by name. *)
Definition default_tc : TreeChunker :=
  {| branches := 128; hashFunc := toy_hash; hashSize := 32; chunkSize := 4096 |}.

Definition huge_fetch (k : Key) : option (bytes * Z) :=
  Some (le64 (2 ^ 61 + 1) ++ [1], 2 ^ 61 + 1).

Lemma ReadAt_huge_size_diverges_witness :
  ReadAt default_tc huge_fetch 1000 (Join [1; 2]) [0; 0] 0 = None.
Proof.
  apply (ReadAt_huge_size_diverges default_tc huge_fetch (Join [1; 2]) [0; 0] 0
           {| ck_Key := [1; 2]; ck_SData := Some (le64 (2 ^ 61 + 1) ++ [1]);
              ck_Size := 2 ^ 61 + 1; ck_Source := None; ck_Req := None |} 1000);
    reflexivity.
Defined.

(** A reader with its one-chunk document cached. *)
Definition leaf_chunk : Chunk := hashChunk toy (le64 3 ++ [7; 8; 9]) 3.
Definition leaf_reader : LazyChunkReader :=
  {| lr_key := ck_Key leaf_chunk; lr_chunk := Some leaf_chunk; lr_off := 0 |}.

Lemma ReadAt_overreports_witness :
  ReadAt toy huge_fetch depth_fuel leaf_reader [0; 0; 0; 0] 1
  = Some (Ok ([8; 9; 0; 0], 4, true, leaf_reader)).
Proof.
  apply (ReadAt_overreports toy huge_fetch leaf_reader [0; 0; 0; 0] 1 leaf_chunk [7; 8; 9]);
    vm_compute; try split; congruence.
Defined.

Lemma ReadAt_past_end_panics_witness :
  reader_Seek huge_fetch leaf_reader 4 0
    = Ok (4, {| lr_key := lr_key leaf_reader; lr_chunk := lr_chunk leaf_reader; lr_off := 4 |}) /\
  ReadAt toy huge_fetch depth_fuel leaf_reader [0] 4 = Some Panic.
Proof.
  apply (ReadAt_past_end_panics toy huge_fetch leaf_reader [0] 4 leaf_chunk [7; 8; 9]);
    vm_compute; congruence.
Defined.

Lemma split_full_slice_has_one_child_witness :
  exists key child rd1 rd0 chunks1 chunks0,
    split toy 1 4 4 [([90; 100; 110; 120], None)] (Some []) = Ok (key, rd1, Some chunks1) /\
    split toy 0 2 4 [([90; 100; 110; 120], None)] (Some []) = Ok (child, rd0, Some chunks0) /\
    key = h_sum toy_hash (le64 4 ++ child).
Proof.
  apply (split_full_slice_has_one_child toy 0 [90; 100; 110; 120] [([90; 100; 110; 120], None)] toy_ok).
  - reflexivity.
  - by exists [].
Defined.
