(* ===== verification/Database.v ===== *)
(** The key-value store under the disk layer
    ([livepeer/storage/database.go]) and the index encoding.

    goleveldb is not part of the repository: the class [LevelDB] states what
    the code uses of it (point reads, atomic batches, iterators over a snapshot
    in key order) with the documented behaviour as laws over an abstract view,
    and [MapDB] is an instance on finite maps. The RLP encoding of an index
    record, from the vendored [rlp] package, is modelled byte by byte. *)
From stdpp Require Import base gmap list strings sorting.
From Stdlib Require Import ZArith Lia.
From S2P Require Import Prelude.

(** ** leveldb *)

(** The operations a [leveldb.Batch] collects. *)
Inductive batch_op := BPut (k v : bytes) | BDelete (k : bytes).

Definition apply_op (m : gmap bytes bytes) (o : batch_op) : gmap bytes bytes :=
  match o with BPut k v => <[k := v]> m | BDelete k => delete k m end.

Definition apply_batch (m : gmap bytes bytes) (b : list batch_op) : gmap bytes bytes :=
  foldl apply_op m b.

Class LevelDB (D : Type) := {
  ldb_view : D -> gmap bytes bytes;
  ldb_get : D -> bytes -> option bytes;
  (* [DB.Write]: the database afterwards and whether an error came back *)
  ldb_write : D -> list batch_op -> D * bool;
  (* [DB.NewIterator(nil, nil)]: the pairs of the snapshot *)
  ldb_iter : D -> list (bytes * bytes)
}.

(** Strict order of iterator pairs by key. *)
Definition key_lt (a b : bytes * bytes) : Prop := bytes_ltb (fst a) (fst b) = true.

(** Documented behaviour: reads see the last write of a key, a batch is atomic,
    an iterator walks the pairs in ascending key order. *)
Class LevelDBLaws (D : Type) `{LevelDB D} : Prop := {
  ldb_get_view : forall d k, ldb_get d k = ldb_view d !! k;
  ldb_write_ok : forall d b d', ldb_write d b = (d', false) ->
    ldb_view d' = apply_batch (ldb_view d) b;
  ldb_write_err : forall d b d', ldb_write d b = (d', true) -> ldb_view d' = ldb_view d;
  ldb_iter_sorted : forall d, StronglySorted key_lt (ldb_iter d);
  ldb_iter_elem : forall d k v, (k, v) ∈ ldb_iter d <-> ldb_view d !! k = Some v
}.

(** A database on which no write fails. *)
Definition healthy (D : Type) `{LevelDB D} : Prop := forall d b, snd (ldb_write d b) = false.

(** ** LDBDatabase *)

Section LDB.
Context {D : Type} `{LevelDB D}.

(** [rle.Compress] and [rle.Decompress] of the vendored package. *)
Context (rle_compress : bytes -> bytes) (rle_decompress : bytes -> option bytes).

Record LDBDatabase := mkLDB { ldb : D; comp : bool }.

(** [NewLDBDatabase] over an opened database. *)
Definition NewLDBDatabase (d : D) : LDBDatabase := {| ldb := d; comp := false |}.

(** An error of the write is printed and dropped. *)
Definition LDB_Put (self : LDBDatabase) (key value : bytes) : LDBDatabase :=
  let value := if comp self then rle_compress value else value in
  {| ldb := fst (ldb_write (ldb self) [BPut key value]); comp := comp self |}.

Definition LDB_Get (self : LDBDatabase) (key : bytes) : option bytes :=
  match ldb_get (ldb self) key with
  | None => None
  | Some dat => if comp self then rle_decompress dat else Some dat
  end.

Definition LDB_Delete (self : LDBDatabase) (key : bytes) : LDBDatabase * bool :=
  let '(d, err) := ldb_write (ldb self) [BDelete key] in
  ({| ldb := d; comp := comp self |}, err).

Definition LDB_LastKnownTD (self : LDBDatabase) : bytes :=
  match LDB_Get self (str "LTD") with
  | Some data => if #data =? 0 then [0] else data
  | None => [0]
  end.

Definition LDB_NewIterator (self : LDBDatabase) : list (bytes * bytes) := ldb_iter (ldb self).

Definition LDB_Write (self : LDBDatabase) (batch : list batch_op) : LDBDatabase * bool :=
  let '(d, err) := ldb_write (ldb self) batch in
  ({| ldb := d; comp := comp self |}, err).

(** An iterator is the rest of its snapshot: [Seek] finds the first pair whose
    key is not below the argument. *)
Definition it_Seek (snapshot : list (bytes * bytes)) (k : bytes) : list (bytes * bytes) :=
  drop (length (filter (fun p => bytes_ltb (fst p) k = true) snapshot)) snapshot.
Definition it_Key (it : list (bytes * bytes)) : option bytes := fst <$> head it.
End LDB.
Arguments LDBDatabase : clear implicits.

(** ** RLP of an index record *)

Record dpaDBIndex := mkIndex { Idx : Z; Access : Z }.

(** [putint]: big endian without leading zeros. *)
Fixpoint putint_loop (fuel : nat) (i : Z) : bytes :=
  match fuel with
  | O => []
  | S f => if i <? 256 then [i] else putint_loop f (i / 256) ++ [i mod 256]
  end.
Definition putint (i : Z) : bytes := putint_loop 8 i.

Definition writeUint (i : Z) : bytes :=
  if i =? 0 then [128]
  else if i <? 128 then [i]
  else 128 + #(putint i) :: putint i.

Definition puthead (smalltag largetag size : Z) : bytes :=
  if size <? 56 then [smalltag + size] else largetag + #(putint size) :: putint size.

Definition encodeIndex (index : dpaDBIndex) : bytes :=
  let payload := writeUint (Idx index) ++ writeUint (Access index) in
  puthead 192 247 (#payload) ++ payload.

Definition be_val (l : bytes) : Z := le_val (rev l).

(** [readUint]: [size] bytes big endian; a leading zero of more than one is refused. *)
Definition readUint (size : Z) (rest : bytes) : option (Z * bytes) :=
  if #rest <? size then None
  else
    let buf := take (Z.to_nat size) rest in
    let rest := drop (Z.to_nat size) rest in
    if (1 <? size) && bool_decide (head buf = Some 0) then None
    else Some (be_val buf, rest).

(** [Stream.uint(64)] inside a list whose unread payload is [l]. *)
Definition decodeUint (l : bytes) : option (Z * bytes) :=
  match l with
  | [] => None
  | b :: rest =>
    if b <? 128 then if b =? 0 then None else Some (b, rest)
    else if b <? 184 then
      let size := b - 128 in
      if #rest <? size then None
      else if 8 <? size then None
      else match readUint size rest with
      | None => None
      | Some (v, rest) => if (0 <? size) && (v <? 128) then None else Some (v, rest)
      end
    else None
  end.

(** [Stream.List] at top level: the payload of the list. *)
Definition decodeList (data : bytes) : option bytes :=
  match data with
  | [] => None
  | b :: rest =>
    if b <? 192 then None
    else if b <? 248 then
      if #rest <? b - 192 then None else Some (take (Z.to_nat (b - 192)) rest)
    else match readUint (b - 247) rest with
    | None => None
    | Some (size, rest) =>
      if size <? 56 then None
      else if #rest <? size then None
      else Some (take (Z.to_nat size) rest)
    end
  end.

(** [decodeIndex]: the fields decoded before an error are kept, the error is dropped. *)
Definition decodeIndex (data : bytes) (index : dpaDBIndex) : dpaDBIndex :=
  match decodeList data with
  | None => index
  | Some payload =>
    match decodeUint payload with
    | None => index
    | Some (idx, rest) =>
      match decodeUint rest with
      | None => {| Idx := idx; Access := Access index |}
      | Some (access, _) => {| Idx := idx; Access := access |}
      end
    end
  end.

(** ** Lemmas: RLP *)

Lemma be_val_snoc l b : be_val (l ++ [b]) = 256 * be_val l + b.
Proof. unfold be_val. rewrite rev_app_distr. simpl. lia. Qed.

Lemma putint_loop_spec fuel i :
  0 <= i < 256 ^ Z.of_nat fuel -> (0 < fuel)%nat ->
  be_val (putint_loop fuel i) = i /\
  0 < #(putint_loop fuel i) <= Z.of_nat fuel /\
  (128 <= i -> head (putint_loop fuel i) <> Some 0).
Proof.
  revert i. induction fuel as [|f IH]; intros i Hi Hf; [lia|]. cbn [putint_loop].
  destruct (Z.ltb_spec i 256) as [Hlt|Hge].
  { split_and!; [unfold be_val; simpl; lia|zlia|zlia|]. simpl. intros ? [= ->]. lia. }
  rewrite Nat2Z.inj_succ, Z.pow_succ_r in Hi by lia.
  assert (Hf0 : (0 < f)%nat) by (destruct f; [simpl in Hi; lia|lia]).
  assert (1 <= i / 256) by (apply Z.div_le_lower_bound; lia).
  destruct (IH (i / 256)) as (Hv & Hl & Hh); [|done|].
  { split; [lia|]. apply Z.div_lt_upper_bound; lia. }
  rewrite be_val_snoc, Hv, zlen_app, zlen_cons, (@zlen_nil Z).
  pose proof (Z.div_mod i 256 ltac:(lia)).
  split_and!; [lia|lia|lia|]. intros _.
  destruct (Z.ltb_spec (i / 256) 128).
  - destruct f; [lia|]. cbn [putint_loop]. destruct (Z.ltb_spec (i / 256) 256); [|lia].
    simpl. intros [= E]. lia.
  - specialize (Hh ltac:(lia)). destruct (putint_loop f (i / 256)) eqn:E; [|done].
    rewrite (@zlen_nil Z) in Hl. lia.
Qed.

Lemma putint_spec i :
  is_u64 i -> be_val (putint i) = i /\ 0 < #(putint i) <= 8 /\ (128 <= i -> head (putint i) <> Some 0).
Proof.
  intros Hi. apply (putint_loop_spec 8); [|lia]. unfold is_u64 in Hi.
  change (256 ^ Z.of_nat 8) with (2 ^ 64). done.
Qed.

Lemma zlen_writeUint i : is_u64 i -> 0 < #(writeUint i) <= 9.
Proof.
  intros Hi. destruct (putint_spec i Hi) as (_ & Hl & _). unfold writeUint.
  repeat case_match; rewrite ?zlen_cons, ?(@zlen_nil Z); lia.
Qed.

Lemma decodeUint_writeUint i rest :
  is_u64 i -> decodeUint (writeUint i ++ rest) = Some (i, rest).
Proof.
  intros Hi. destruct (putint_spec i Hi) as (Hv & Hl & Hh). unfold is_u64 in Hi. unfold writeUint.
  destruct (Z.eqb_spec i 0) as [-> |Hi0].
  { unfold decodeUint. cbn [app]. change (128 <? 128) with false. change (128 <? 184) with true.
    replace (#rest <? 128 - 128) with false by (symmetry; apply Z.ltb_ge; zlia).
    unfold readUint. replace (#rest <? 128 - 128) with false by (symmetry; apply Z.ltb_ge; zlia).
    done. }
  destruct (Z.ltb_spec i 128).
  { unfold decodeUint. cbn [app]. destruct (Z.ltb_spec i 128); [|lia].
    destruct (Z.eqb_spec i 0); [lia|done]. }
  set (p := putint i) in *. unfold decodeUint. cbn [app].
  destruct (Z.ltb_spec (128 + #p) 128); [lia|]. destruct (Z.ltb_spec (128 + #p) 184); [|lia].
  replace (128 + #p - 128) with (#p) by lia. rewrite zlen_app.
  destruct (Z.ltb_spec (#p + #rest) (#p)); [zlia|]. destruct (Z.ltb_spec 8 (#p)); [lia|].
  unfold readUint. rewrite zlen_app. destruct (Z.ltb_spec (#p + #rest) (#p)); [zlia|].
  replace (Z.to_nat (#p)) with (length p) by zlia. rewrite take_app_length, drop_app_length.
  rewrite (bool_decide_eq_false_2 (head p = Some 0)) by (apply Hh; lia).
  rewrite andb_false_r, Hv. destruct (Z.ltb_spec i 128); [lia|]. rewrite andb_false_r. done.
Qed.

Lemma decodeIndex_encodeIndex i i0 :
  is_u64 (Idx i) -> is_u64 (Access i) -> decodeIndex (encodeIndex i) i0 = i.
Proof.
  intros H1 H2. pose proof (zlen_writeUint _ H1). pose proof (zlen_writeUint _ H2).
  unfold encodeIndex, puthead. set (p := writeUint (Idx i) ++ writeUint (Access i)).
  assert (Hp : 0 <= #p < 56) by (subst p; rewrite zlen_app; lia).
  destruct (Z.ltb_spec (#p) 56); [|lia]. unfold decodeIndex, decodeList. cbn [app].
  destruct (Z.ltb_spec (192 + #p) 192); [lia|]. destruct (Z.ltb_spec (192 + #p) 248); [|lia].
  replace (192 + #p - 192) with (#p) by lia. rewrite Z.ltb_irrefl.
  rewrite firstn_all2 by zlia. subst p.
  rewrite decodeUint_writeUint by done. rewrite <- (app_nil_r (writeUint (Access i))).
  rewrite decodeUint_writeUint by done. by destruct i.
Qed.

(** ** Lemmas: the byte order *)

Lemma bytes_compare_refl a : bytes_compare a a = Eq.
Proof. induction a; simpl; [done|]. by rewrite Z.compare_refl. Qed.

Lemma bytes_compare_eq a b : bytes_compare a b = Eq -> a = b.
Proof.
  revert b. induction a as [|x a IH]; intros [|y b]; simpl; try done.
  destruct (Z.compare_spec x y); try done. intros. subst. f_equal. auto.
Qed.

Lemma bytes_compare_sym a b : bytes_compare b a = CompOpp (bytes_compare a b).
Proof.
  revert b. induction a as [|x a IH]; intros [|y b]; simpl; try done.
  rewrite (Z.compare_antisym x y). destruct (Z.compare_spec x y); simpl; auto.
Qed.

Lemma bytes_ltb_trans a b c : bytes_ltb a b = true -> bytes_ltb b c = true -> bytes_ltb a c = true.
Proof.
  unfold bytes_ltb. revert b c. induction a as [|x a IH]; intros [|y b] [|z c]; simpl; try done.
  destruct (Z.compare_spec x y) as [Exy|Exy|Exy], (Z.compare_spec y z) as [Eyz|Eyz|Eyz];
    try done; destruct (Z.compare_spec x z) as [Exz|Exz|Exz]; try done; try lia.
  apply IH.
Qed.

Lemma bytes_ltb_irrefl a : bytes_ltb a a = false.
Proof. unfold bytes_ltb. by rewrite bytes_compare_refl. Qed.

#[export] Instance key_lt_trans : Transitive key_lt.
Proof. intros [a ?] [b ?] [c ?]. unfold key_lt. apply bytes_ltb_trans. Qed.

(** ** leveldb on finite maps *)

(** ** Lemmas: sorted snapshots *)

Lemma it_Seek_sorted L k :
  StronglySorted key_lt L -> it_Seek L k = filter (fun p => bytes_ltb (fst p) k = false) L.
Proof.
  intros Hs. unfold it_Seek. induction Hs as [|p L Hs IH Hlt]; [done|].
  destruct (bytes_ltb (fst p) k) eqn:E.
  - rewrite filter_cons_True, filter_cons_False by (by rewrite E). cbn. done.
  - rewrite filter_cons_False by (by rewrite E). rewrite (filter_cons_True _ p) by done.
    assert (Hall : Forall (fun q => bytes_ltb (fst q) k = false) L).
    { eapply Forall_impl; [exact Hlt|]. intros q Hq. destruct (bytes_ltb (fst q) k) eqn:Eq; [|done].
      unfold key_lt in Hq. by rewrite (bytes_ltb_trans _ _ _ Hq Eq) in E. }
    rewrite filter_none, filter_all; [done|done|].
    eapply Forall_impl; [exact Hall|]. intros q Hq. cbn. by rewrite Hq.
Qed.

Lemma StronglySorted_filter L (P : bytes * bytes -> Prop) `{forall q, Decision (P q)} :
  StronglySorted key_lt L -> StronglySorted key_lt (filter P L).
Proof.
  induction 1 as [|p L' _ IH Hlt]; [constructor|].
  destruct (decide (P p)); [rewrite filter_cons_True by done|by rewrite filter_cons_False].
  constructor; [done|]. by apply Forall_filter_keep.
Qed.

(** The order of pairs by key and then by value, total on pairs. *)
Definition pair_le (a b : bytes * bytes) : Prop :=
  bytes_ltb (fst a) (fst b) = true \/ (fst a = fst b /\ bytes_ltb (snd b) (snd a) = false).

#[export] Instance pair_le_dec : RelDecision pair_le.
Proof. unfold RelDecision, pair_le. intros. apply _. Defined.

Lemma bytes_trichotomy a b : bytes_ltb a b = true \/ a = b \/ bytes_ltb b a = true.
Proof.
  unfold bytes_ltb. rewrite (bytes_compare_sym a b). destruct (bytes_compare a b) eqn:E; cbn; auto.
  right. left. by apply bytes_compare_eq.
Qed.

Lemma bytes_ltb_asym a b : bytes_ltb a b = true -> bytes_ltb b a = false.
Proof. unfold bytes_ltb. rewrite (bytes_compare_sym a b). by destruct (bytes_compare a b). Qed.

#[export] Instance pair_le_total : Total pair_le.
Proof.
  intros [a x] [b y]. unfold pair_le. cbn. destruct (bytes_trichotomy a b) as [|[-> |]]; auto.
  destruct (bytes_trichotomy x y) as [Hx|[-> |Hx]]; [left|left|right]; right; split;
    auto using bytes_ltb_irrefl, bytes_ltb_asym.
Qed.

#[export] Instance pair_le_trans : Transitive pair_le.
Proof.
  intros [a x] [b y] [c z]. unfold pair_le. cbn. intros [H1|[-> H1]] [H2|[-> H2]]; auto.
  - left. by eapply bytes_ltb_trans.
  - right. split; [done|]. destruct (bytes_ltb z x) eqn:E; [|done].
    destruct (bytes_trichotomy z y) as [Hy|[-> |Hy]]; [congruence|congruence|].
    by rewrite (bytes_ltb_trans y z x) in H1.
Qed.

Definition MapDB : Type := gmap bytes bytes.

#[export] Instance MapDB_LevelDB : LevelDB MapDB := {
  ldb_view := id;
  ldb_get m k := m !! k;
  ldb_write m b := (apply_batch m b, false);
  ldb_iter m := merge_sort pair_le (map_to_list m)
}.

#[export] Instance MapDB_laws : LevelDBLaws MapDB.
Proof.
  split; cbn.
  - done.
  - by intros d b d' [= <-].
  - done.
  - intros m. pose proof (StronglySorted_merge_sort pair_le (map_to_list m)) as Hs.
    assert (Hnd : NoDup (merge_sort pair_le (map_to_list m)).*1).
    { rewrite (merge_sort_Permutation pair_le (map_to_list m)). apply NoDup_fst_map_to_list. }
    induction Hs as [|p l Hs IH Hle]; [constructor|]. cbn in Hnd. apply NoDup_cons in Hnd as [Hp Hnd].
    constructor; [auto|]. rewrite Forall_forall in *. intros q Hq.
    destruct (Hle q Hq) as [Hlt|[He _]]; [done|]. exfalso. apply Hp. rewrite He.
    apply list_elem_of_fmap. eauto.
  - intros m k v. rewrite (merge_sort_Permutation pair_le (map_to_list m)). apply elem_of_map_to_list.
Qed.

Lemma MapDB_healthy : healthy MapDB.
Proof. done. Qed.

(** An index record survives its encoding, for all 64 bit counters, whatever
    the record decoded into held before. *)
Theorem index_roundtrip i i0 :
  is_u64 (Idx i) -> is_u64 (Access i) -> decodeIndex (encodeIndex i) i0 = i.
Proof. apply decodeIndex_encodeIndex. Qed.

Lemma index_roundtrip_witness :
  decodeIndex (encodeIndex {| Idx := 2 ^ 64 - 1; Access := 300 |}) {| Idx := 7; Access := 7 |}
  = {| Idx := 2 ^ 64 - 1; Access := 300 |}.
Proof. apply (index_roundtrip {| Idx := 2 ^ 64 - 1; Access := 300 |}); unfold is_u64; cbn; lia. Defined.
