(* ===== verification/DbStore.v ===== *)
(** The disk layer ([livepeer/storage/dbstore.go]): chunks behind an index with
    access counts, garbage collection of the least accessed entries, and the
    iterator the syncer walks.

    The state is the [DbStore] record; the database below it is any instance
    of [LevelDB]. [None] results are run-time panics (nil items of the garbage
    collection array, slices out of range). Ratios are IEEE single precision
    numbers, as in the code.

    The key of a leveldb iterator is a slice of a buffer that the iterator
    writes again when it moves ([append(i.key[:0], ukey...)] of goleveldb's
    [dbIter]; its documentation says the contents may change). The garbage
    collector keeps such slices, so keys are modelled as slices over a memory of
    byte arrays, and [growcap] is the capacity the runtime gives a new array. *)
From stdpp Require Import base gmap list strings sorting.
From Stdlib Require Import ZArith Lia SpecFloat.
From S2P Require Import Prelude Types Database.

(** ** float32 *)
Definition float32 := spec_float.

(** [float32(z)] of an integer, rounded to nearest even. *)
Definition f32_of_Z (z : Z) : float32 := binary_normalize 24 128 z 0 false.
Definition f32_mul : float32 -> float32 -> float32 := SFmul 24 128.
Definition f32_div : float32 -> float32 -> float32 := SFdiv 24 128.
Definition f32_sub : float32 -> float32 -> float32 := SFsub 24 128.

(** [int(x)]: truncation toward zero. *)
Definition f32_to_int (x : float32) : Z :=
  match x with
  | S754_finite s m e =>
    let a := if 0 <=? e then Z.pos m * 2 ^ e else Z.pos m / 2 ^ (- e) in
    if s then - a else a
  | _ => 0
  end.

(** [0.1], [1.01] and [1] as float32 constants. *)
Definition gcArrayFreeRatio : float32 := S754_finite false 13421773 (-27).
Definition f32_1_01 : float32 := S754_finite false 8472494 (-23).
Definition f32_one : float32 := S754_finite false 8388608 (-23).

(** ** Constants and records *)
Definition defaultDbCapacity : Z := 5000000.
Definition gcArraySize : nat := Z.to_nat 10000.
Definition kpIndex : Z := 0.
Definition kpData : Z := 1.
Definition keyAccessCnt : bytes := [2].
Definition keyEntryCnt : bytes := [3].
Definition keyDataIdx : bytes := [4].
Definition keyGCPos : bytes := [5].

(** ** Channels used as signals *)

Inductive chan := Open | Closed.

(** [if c != nil { close(c) }]; closing a closed channel panics. *)
Definition close_nonnil (c : option chan) : option (option chan) :=
  match c with
  | None => Some None
  | Some Open => Some (Some Closed)
  | Some Closed => None
  end.

(** ** Keys of iterators *)

(** A slice of an array of the memory, from its start. *)
Record keyslice := mkKeyslice { ks_arr : nat; ks_len : nat }.

Definition deref (mem : list bytes) (k : keyslice) : bytes :=
  take (ks_len k) (default [] (mem !! ks_arr k)).

(** [append(buf[:0], k...)]: in place when the capacity suffices. *)
Definition key_append (growcap : nat -> nat) (mem : list bytes) (buf : option keyslice) (k : bytes)
    : list bytes * keyslice :=
  let fresh := (mem ++ [k ++ replicate (growcap (length k) - length k) 0],
                {| ks_arr := length mem; ks_len := length k |}) in
  match buf with
  | None => fresh
  | Some b =>
    let arr := default [] (mem !! ks_arr b) in
    if Nat.leb (length k) (length arr) then
      (<[ks_arr b := k ++ drop (length k) arr]> mem, {| ks_arr := ks_arr b; ks_len := length k |})
    else fresh
  end.

(** An iterator: the rest of its snapshot from its position, and its key buffer. *)
Record dbIter := mkIter { di_rest : list (bytes * bytes); di_key : option keyslice }.

Definition di_move (growcap : nat -> nat) (mem : list bytes) (di : dbIter) (rest : list (bytes * bytes))
    : list bytes * dbIter :=
  match rest with
  | [] => (mem, {| di_rest := []; di_key := di_key di |})
  | (k, _) :: _ =>
    let '(mem, sl) := key_append growcap mem (di_key di) k in
    (mem, {| di_rest := rest; di_key := Some sl |})
  end.

Definition di_Seek growcap mem (snapshot : list (bytes * bytes)) (di : dbIter) (k : bytes) :=
  di_move growcap mem di (it_Seek snapshot k).

Definition di_Next growcap mem (di : dbIter) := di_move growcap mem di (tail (di_rest di)).

(** [it.Key()], nil when the iterator is not on a pair. *)
Definition di_Key (di : dbIter) : option keyslice :=
  match di_rest di with [] => None | _ => di_key di end.

Record gcItem := mkGcItem { gi_idx : Z; gi_value : Z; gi_idxKey : keyslice }.

Definition BytesToU64 (data : bytes) : Z := if #data <? 8 then 0 else le64_val data.
Definition U64ToBytes (val : Z) : bytes := le64 val.

Definition getIndexGCValue (index : dpaDBIndex) : Z := Access index.
Definition getIndexKey (hash : Key) : bytes := 0 :: hash.
Definition getDataKey (idx : Z) : bytes := 1 :: be64 idx.
Definition encodeData (chunk : Chunk) : bytes :=
  match ck_SData chunk with Some d => d | None => [] end.

(** [decodeData]: [None] is the slice panic of [data[0:8]]. *)
Definition decodeData (data : bytes) (chunk : Chunk) : option Chunk :=
  match slice data 0 8 with
  | None => None
  | Some hdr => Some {| ck_Key := ck_Key chunk; ck_SData := Some data; ck_Size := i64 (le64_val hdr);
                        ck_Source := ck_Source chunk; ck_Req := ck_Req chunk |}
  end.

(** ** Quickselect over the garbage collection array *)
Abbreviation gc_array := (list (option gcItem)).

(** [list[i].value]: out of range and a nil item both panic. *)
Definition gc_value (l : gc_array) (i : Z) : option Z :=
  match index l i with Some (Some it) => Some (gi_value it) | _ => None end.

Definition gc_set (l : gc_array) (i : Z) (x : option gcItem) : option gc_array :=
  if decide (0 <= i < #l) then Some (<[Z.to_nat i := x]> l) else None.

(** [dd = list[a]; list[a] = list[b]; list[b] = dd]. *)
Definition gc_swap (l : gc_array) (a b : Z) : option gc_array :=
  dd ← index l a; y ← index l b; l1 ← gc_set l a y; gc_set l1 b dd.

(** The loop of [gcListPartition] from [i], [n] rounds. *)
Fixpoint gc_part_loop (n : nat) (l : gc_array) (i storeIndex pivotValue : Z) : option (gc_array * Z) :=
  match n with
  | O => Some (l, storeIndex)
  | S n' =>
    v ← gc_value l i;
    if v <? pivotValue then
      l' ← gc_swap l storeIndex i; gc_part_loop n' l' (i + 1) (storeIndex + 1) pivotValue
    else gc_part_loop n' l (i + 1) storeIndex pivotValue
  end.

Definition gcListPartition (l : gc_array) (left right pivotIndex : Z) : option (gc_array * Z) :=
  pivotValue ← gc_value l pivotIndex;
  l ← gc_swap l pivotIndex right;
  '(l, storeIndex) ← gc_part_loop (Z.to_nat (right - left)) l left left pivotValue;
  l ← gc_swap l storeIndex right;
  Some (l, storeIndex).

(** The recursion of [gcListSelect]: each call has a strictly smaller range. *)
Fixpoint gcListSelect (fuel : nat) (l : gc_array) (left right n : Z) : option (gc_array * Z) :=
  match fuel with
  | O => None
  | S f =>
    if left =? right then Some (l, left)
    else
      let pivotIndex := Z.quot (left + right) 2 in
      '(l, pivotIndex) ← gcListPartition l left right pivotIndex;
      if n =? pivotIndex then Some (l, n)
      else if n <? pivotIndex then gcListSelect f l left (pivotIndex - 1) n
      else gcListSelect f l (pivotIndex + 1) right n
  end.

(** ** The store *)
Section DbStore.
Context {D : Type} `{LevelDB D}.
Context (hashfunc : bytes -> bytes).
Context (rle_compress : bytes -> bytes) (rle_decompress : bytes -> option bytes).
Context (growcap : nat -> nat).

Record DbStore := mkDbStore {
  db : LDBDatabase D;
  entryCnt : Z;
  accessCnt : Z;
  dataIdx : Z;
  capacity : Z;
  gcPos : option keyslice;
  gcArray : gc_array;
  keymem : list bytes
}.

Definition gcStartPos : bytes := [kpIndex].

Definition db_Get (s : DbStore) (k : bytes) : option bytes := LDB_Get rle_decompress (db s) k.

(** [s.db.Write(batch)]; the error is dropped. *)
Definition db_Write (s : DbStore) (b : list batch_op) : LDBDatabase D := fst (LDB_Write (db s) b).

(** Whether a position is nil or not an index key; an empty key panics. *)
Definition outside_index (mem : list bytes) (pos : option keyslice) : option bool :=
  match pos with
  | None => Some true
  | Some p => match deref mem p with [] => None | b :: _ => Some (negb (b =? kpIndex)) end
  end.

(** The loop that fills the array from the iterator. *)
Fixpoint gc_collect (fuel : nat) (snapshot : list (bytes * bytes)) (mem : list bytes) (it : dbIter)
    (pos : option keyslice) (gcnt cnt : Z) (arr : gc_array)
    : option (list bytes * option keyslice * Z * gc_array) :=
  match fuel with
  | O => Some (mem, pos, gcnt, arr)
  | S f =>
    if gcnt <? cnt then
      out ← outside_index mem pos;
      let '(mem, it) := if out : bool then di_Seek growcap mem snapshot it gcStartPos else (mem, it) in
      let pos := if out then di_Key it else pos in
      out ← outside_index mem pos;
      if out : bool then Some (mem, pos, gcnt, arr)
      else
        match di_rest it, pos with
        | (_, v) :: _, Some k =>
          let index := decodeIndex v {| Idx := 0; Access := 0 |} in
          let gci := {| gi_idx := Idx index; gi_value := getIndexGCValue index; gi_idxKey := k |} in
          let '(mem, it) := di_Next growcap mem it in
          gc_collect f snapshot mem it (di_Key it) (gcnt + 1) cnt (<[Z.to_nat gcnt := Some gci]> arr)
        | _, _ => None
        end
    else Some (mem, pos, gcnt, arr)
  end.

(** The deletion loop over [gcArray[i..]]. *)
Fixpoint gc_delete (n : nat) (i cutval : Z) (s : DbStore) : option DbStore :=
  match n with
  | O => Some s
  | S n' =>
    match index (gcArray s) i with
    | Some (Some item) =>
      if gi_value item <=? cutval then
        let cnt := u64 (entryCnt s - 1) in
        let batch := [BDelete (deref (keymem s) (gi_idxKey item)); BDelete (getDataKey (gi_idx item));
                      BPut keyEntryCnt (U64ToBytes cnt)] in
        gc_delete n' (i + 1) cutval
          {| db := db_Write s batch; entryCnt := cnt; accessCnt := accessCnt s; dataIdx := dataIdx s;
             capacity := capacity s; gcPos := gcPos s; gcArray := gcArray s; keymem := keymem s |}
      else gc_delete n' (i + 1) cutval s
    | _ => None
    end
  end.

(** The bytes of [s.gcPos], empty for nil. *)
Definition gcPos_bytes (s : DbStore) : bytes :=
  match gcPos s with Some k => deref (keymem s) k | None => [] end.

Definition collectGarbage (s : DbStore) (ratio : float32) : option DbStore :=
  let snapshot := LDB_NewIterator (db s) in
  let '(mem, it) := di_Seek growcap (keymem s) snapshot {| di_rest := []; di_key := None |} (gcPos_bytes s) in
  '(mem, pos, gcnt, arr) ← gc_collect gcArraySize snapshot mem it (di_Key it) 0 (entryCnt s) (gcArray s);
  '(arr, cutidx) ← gcListSelect (S (Z.to_nat gcnt)) arr 0 (gcnt - 1)
                     (f32_to_int (f32_mul (f32_of_Z gcnt) ratio));
  cutval ← gc_value arr cutidx;
  s1 ← gc_delete (Z.to_nat gcnt) 0 cutval
         {| db := db s; entryCnt := entryCnt s; accessCnt := accessCnt s; dataIdx := dataIdx s;
            capacity := capacity s; gcPos := pos; gcArray := arr; keymem := mem |};
  Some {| db := LDB_Put rle_compress (db s1) keyGCPos (gcPos_bytes s1);
          entryCnt := entryCnt s1; accessCnt := accessCnt s1; dataIdx := dataIdx s1;
          capacity := capacity s1; gcPos := gcPos s1; gcArray := gcArray s1; keymem := keymem s1 |}.

Definition Counter (s : DbStore) : Z := dataIdx s.
Definition getEntryCnt (s : DbStore) : Z := entryCnt s.

(** [tryAccessIdx]: the index found, with its access count moved to the present. *)
Definition tryAccessIdx (s : DbStore) (ikey : bytes) : option dpaDBIndex * DbStore :=
  match db_Get s ikey with
  | None => (None, s)
  | Some idata =>
    let index := decodeIndex idata {| Idx := 0; Access := 0 |} in
    let access := u64 (accessCnt s + 1) in
    let index := {| Idx := Idx index; Access := access |} in
    let batch := [BPut keyAccessCnt (U64ToBytes (accessCnt s)); BPut ikey (encodeIndex index)] in
    (Some index,
     {| db := db_Write s batch; entryCnt := entryCnt s; accessCnt := access; dataIdx := dataIdx s;
        capacity := capacity s; gcPos := gcPos s; gcArray := gcArray s; keymem := keymem s |})
  end.

(** The insertion at the end of [Put]: the counters are written to the batch
    before they are incremented. *)
Definition put_new (s : DbStore) (ikey data : bytes) : DbStore :=
  let index := {| Idx := dataIdx s; Access := accessCnt s |} in
  let batch := [BPut (getDataKey (dataIdx s)) data; BPut ikey (encodeIndex index);
                BPut keyEntryCnt (U64ToBytes (entryCnt s));
                BPut keyDataIdx (U64ToBytes (dataIdx s));
                BPut keyAccessCnt (U64ToBytes (accessCnt s))] in
  {| db := db_Write s batch; entryCnt := u64 (entryCnt s + 1); accessCnt := u64 (accessCnt s + 1);
     dataIdx := u64 (dataIdx s + 1); capacity := capacity s; gcPos := gcPos s; gcArray := gcArray s; keymem := keymem s |}.

(** [Put] up to the signal on [chunk.dbStored]. *)
Definition put_store (s : DbStore) (chunk : Chunk) : option DbStore :=
  let ikey := getIndexKey (ck_Key chunk) in
  match tryAccessIdx s ikey with
  | (Some _, s) => Some s
  | (None, s) =>
    let data := encodeData chunk in
    s ← (if capacity s <=? entryCnt s then collectGarbage s gcArrayFreeRatio else Some s);
    Some (put_new s ikey data)
  end.

(** [Put] with the channel [chunk.dbStored], which both paths close. *)
Definition Put (s : DbStore) (chunk : Chunk) (dbStored : option chan) : option (DbStore * option chan) :=
  s ← put_store s chunk;
  dbStored ← close_nonnil dbStored;
  Some (s, dbStored).

Inductive geterr := notFound | dbError | invalidChunk.

(** [Get]: the store afterwards with the chunk or the error. *)
Definition Get (s : DbStore) (key : Key) : DbStore * result geterr Chunk :=
  match tryAccessIdx s (getIndexKey key) with
  | (None, s) => (s, Err notFound)
  | (Some index, s) =>
    match db_Get s (getDataKey (Idx index)) with
    | None => (s, Err dbError)
    | Some data =>
      if bool_decide (hashfunc data = key) then
        (s, or_panic (decodeData data (NewChunk key None)))
      else
        ({| db := fst (LDB_Delete (db s) (getDataKey (Idx index)));
            entryCnt := entryCnt s; accessCnt := accessCnt s; dataIdx := dataIdx s;
            capacity := capacity s; gcPos := gcPos s; gcArray := gcArray s; keymem := keymem s |}, Err invalidChunk)
    end
  end.

Definition updateAccessCnt (s : DbStore) (key : Key) : DbStore := snd (tryAccessIdx s (getIndexKey key)).

(** The ratio [setCapacity] collects with. *)
Definition capacity_ratio (c cnt : Z) : float32 :=
  let ratio := f32_sub f32_1_01 (f32_div (f32_of_Z c) (f32_of_Z cnt)) in
  let ratio := if SFltb ratio gcArrayFreeRatio then gcArrayFreeRatio else ratio in
  if SFltb f32_one ratio then f32_one else ratio.

(** The loop [for s.entryCnt > c]; the outer [None] is a loop that has not
    ended within the fuel. *)
Fixpoint shrink_loop (fuel : nat) (s : DbStore) (c : Z) (ratio : float32) : option (option DbStore) :=
  if c <? entryCnt s then
    match fuel with
    | O => None
    | S f =>
      match collectGarbage s ratio with
      | None => Some None
      | Some s => shrink_loop f s c ratio
      end
    end
  else Some (Some s).

Definition setCapacity (fuel : nat) (s : DbStore) (c : Z) : option (option DbStore) :=
  let s := {| db := db s; entryCnt := entryCnt s; accessCnt := accessCnt s; dataIdx := dataIdx s;
              capacity := c; gcPos := gcPos s; gcArray := gcArray s; keymem := keymem s |} in
  if c <? entryCnt s then shrink_loop fuel s c (capacity_ratio c (entryCnt s)) else Some (Some s).

(** [NewDbStore] over an opened database. [setCapacity] runs before the
    counters are read, when [entryCnt] is still zero and nothing is collected. *)
Definition NewDbStore (d : D) (c : Z) : DbStore :=
  let ldb := NewLDBDatabase d in
  let get k := match LDB_Get rle_decompress ldb k with Some v => v | None => [] end in
  let gcpos := match LDB_Get rle_decompress ldb keyGCPos with Some p => p | None => gcStartPos end in
  {| db := ldb;
     entryCnt := BytesToU64 (get keyEntryCnt);
     accessCnt := BytesToU64 (get keyAccessCnt);
     dataIdx := BytesToU64 (get keyDataIdx);
     capacity := c;
     gcPos := Some {| ks_arr := 0; ks_len := length gcpos |};
     gcArray := replicate gcArraySize None;
     keymem := [gcpos] |}.

(** ** The sync iterator *)
Record DbSyncState := mkDbSyncState { Start : Key; Stop : Key; First : Z; Last : Z }.

Record dbSyncIterator := mkSyncIterator { si_it : list (bytes * bytes); si_state : DbSyncState }.

(** [None] is the error [no entries found]. *)
Definition NewSyncIterator (s : DbStore) (state : DbSyncState) : option dbSyncIterator :=
  if Last state <? First state then None
  else Some {| si_it := it_Seek (LDB_NewIterator (db s)) (getIndexKey (Start state));
               si_state := state |}.

(** The loop of [Next]; the outer [None] is the panic of [dbkey[0]] on an empty key. *)
Fixpoint sync_next (it : list (bytes * bytes)) (st : DbSyncState) : option (option Key * list (bytes * bytes)) :=
  match it with
  | [] => Some (None, [])
  | (dbkey, v) :: it' =>
    match dbkey with
    | [] => None
    | b :: key =>
      if negb (b =? 0) then Some (None, it)
      else if bytes_leb key (Start st) then sync_next it' st
      else if negb (bytes_leb key (Stop st)) then Some (None, it)
      else
        let index := decodeIndex v {| Idx := 0; Access := 0 |} in
        if (First st <=? Idx index) && (Idx index <? Last st) then Some (Some key, it')
        else sync_next it' st
    end
  end.

Definition Next (si : dbSyncIterator) : option (option Key * dbSyncIterator) :=
  match sync_next (si_it si) (si_state si) with
  | None => None
  | Some (k, it) => Some (k, {| si_it := it; si_state := si_state si |})
  end.
End DbStore.
Arguments DbStore : clear implicits.
