(* ===== verification/Dpa.v ===== *)
(** The document API ([livepeer/storage/dpa.go]): pools of workers between the chunker and a
    chunk store.

    A channel is its kind and the queue of the objects that were sent and not yet
    received; an identifier is its position. A worker is the state of its goroutine: [range]
    evaluates the channel once, when the goroutine begins, while the quit channel is read
    anew after every chunk. A goroutine of a client that sends is an element of
    [d_senders]; it has sent when there is room in its channel. Any goroutine may take
    the next step: a run is a sequence of labels that say which one does. *)
From stdpp Require Import base gmap list strings.
From Stdlib Require Import ZArith Lia.
From S2P Require Import Prelude Types Chunker Database DbStore.

(** ** The chunk store *)

(** What [Get] finds: a chunk, nothing, or a request to wait for. *)
Inductive getres := GFound (c : Chunk) | GNotFound | GPending (c r : nat).

(** The interface [ChunkStore] of [types.go]; [cs_wait] is the select at the end of a [Get] that has
    to wait, with its timer as argument. [cs_Put] also gets the wait group of the chunk; [cs_wg] is what the store itself has added to the counter of a wait group.
    [cs_bg] are the steps the store makes by itself. *)
Class ChunkStore (CS : Type) := {
  cs_Put : CS -> Chunk -> option nat -> outcome CS;
  cs_Get : CS -> Key -> outcome (getres * CS);
  cs_wait : CS -> nat -> nat -> bool -> outcome (option Chunk);
  cs_wg : CS -> nat -> Z;
  cs_bg : CS -> CS -> Prop
}.

(** The data and size of a chunk, as a reader gets them. *)
Definition answer (c : Chunk) : bytes * Z := (sdata c, ck_Size c).

(** A store that keeps what it is given: [cs_ok content s n] says that what [s] has under a key is what
    [content] says and that [n] more operations lose nothing, [cs_holds s k] that it has [k]. *)
Class ChunkStoreLaws (CS : Type) `{ChunkStore CS} := {
  cs_ok : (Key -> option (bytes * Z)) -> CS -> nat -> Prop;
  cs_holds : CS -> Key -> Prop;
  cs_good : Key -> Prop;
  cs_ok_weaken : forall content s n m, (m <= n)%nat -> cs_ok content s n -> cs_ok content s m;
  cs_Put_law : forall content s n c g,
    cs_ok content s (1 + n) -> cs_good (ck_Key c) -> content (ck_Key c) = Some (answer c) ->
    ck_SData c <> None -> ck_Req c = None ->
    exists s', cs_Put s c g = Ret s' /\ cs_ok content s' n /\ cs_holds s' (ck_Key c) /\
      forall k, cs_holds s k -> cs_holds s' k;
  cs_Get_law : forall content s n k,
    cs_ok content s (1 + n) -> cs_good k -> cs_holds s k ->
    exists c s', cs_Get s k = Ret (GFound c, s') /\ content k = Some (answer c);
  cs_Get_ok : forall content s n k x s',
    cs_ok content s (1 + n) -> cs_good k -> cs_Get s k = Ret (x, s') ->
    cs_ok content s' n /\ forall k, cs_holds s k -> cs_holds s' k;
  cs_bg_law : forall content s n s',
    cs_ok content s n -> cs_bg s s' -> cs_ok content s' n /\ forall k, cs_holds s k -> cs_holds s' k
}.

Definition storeChanCapacity : Z := 100.
Definition retrieveChanCapacity : Z := 100.
Definition singletonSwarmDbCapacity : Z := 50000.
Definition singletonSwarmCacheCapacity : Z := 500.
Definition maxStoreProcesses : nat := 8.
Definition maxRetrieveProcesses : nat := 8.

(** ** State *)

Inductive kind := KStore | KRetrieve.
#[export] Instance kind_eq_dec : EqDecision kind.
Proof. solve_decision. Defined.

(** Where the goroutine of a worker is; the channel is the one its loop ranges over. *)
Inductive wstate :=
| WSpawned
| WRange (ch : option nat)
| WWork (ch : option nat) (o : nat)
| WWait (ch : option nat) (o : nat) (c r : nat)
| WFinish (ch : option nat) (o : nat)
| WSelect (ch : option nat)
| WReturned.

(** A chunk on a channel: its [C] is nil for chunks to store, its [wg] for chunks to retrieve. *)
Record dobj := mkDobj {
  do_chunk : Chunk;
  do_C : option chan;
  do_wg : option nat
}.

Record DPA (CS : Type) := mkDPA {
  d_store : CS;
  d_storeC : option nat;
  d_retrieveC : option nat;
  d_running : bool;
  d_quitC : option nat;
  d_chans : list (kind * list nat);
  d_quits : list chan;
  d_workers : list (kind * wstate);
  d_senders : list (option nat * nat);
  d_wgs : gmap nat Z;
  d_objs : list dobj
}.
Arguments mkDPA {CS} _ _ _ _ _ _ _ _ _ _ _.
Arguments d_store {CS} _.
Arguments d_storeC {CS} _.
Arguments d_retrieveC {CS} _.
Arguments d_running {CS} _.
Arguments d_quitC {CS} _.
Arguments d_chans {CS} _.
Arguments d_quits {CS} _.
Arguments d_workers {CS} _.
Arguments d_senders {CS} _.
Arguments d_wgs {CS} _.
Arguments d_objs {CS} _.

Section Dpa.
Context {CS : Type} `{ChunkStore CS}.
Implicit Types (x : DPA CS) (o i j k g : nat).

Definition NewDPA (store : CS) : DPA CS :=
  {| d_store := store; d_storeC := None; d_retrieveC := None; d_running := false; d_quitC := None; d_chans := [];
     d_quits := []; d_workers := []; d_senders := []; d_wgs := ∅; d_objs := [] |}.

Definition storeLoop : list (kind * wstate) := replicate maxStoreProcesses (KStore, WSpawned).
Definition retrieveLoop : list (kind * wstate) := replicate maxRetrieveProcesses (KRetrieve, WSpawned).

Definition Start x : DPA CS :=
  if d_running x then x
  else
    let n := length (d_chans x) in
    {| d_store := d_store x; d_storeC := Some (1 + n)%nat; d_retrieveC := Some n; d_running := true;
       d_quitC := Some (length (d_quits x)); d_chans := d_chans x ++ [(KRetrieve, []); (KStore, [])];
       d_quits := d_quits x ++ [Open]; d_workers := d_workers x ++ storeLoop ++ retrieveLoop;
       d_senders := d_senders x; d_wgs := d_wgs x; d_objs := d_objs x |}.

(** Closing a nil or closed channel panics. *)
Definition Stop x : outcome (DPA CS) :=
  if d_running x then
    let& q := or_crash (d_quitC x) in
    match d_quits x !! q with
    | Some Open =>
      Ret {| d_store := d_store x; d_storeC := d_storeC x; d_retrieveC := d_retrieveC x; d_running := false;
             d_quitC := d_quitC x; d_chans := d_chans x; d_quits := <[q := Closed]> (d_quits x);
             d_workers := d_workers x; d_senders := d_senders x; d_wgs := d_wgs x; d_objs := d_objs x |}
    | _ => Crash
    end
  else Ret x.

Definition with_store x (s : CS) : DPA CS :=
  {| d_store := s; d_storeC := d_storeC x; d_retrieveC := d_retrieveC x; d_running := d_running x; d_quitC := d_quitC x;
     d_chans := d_chans x; d_quits := d_quits x; d_workers := d_workers x; d_senders := d_senders x; d_wgs := d_wgs x;
     d_objs := d_objs x |}.

Definition set_worker x i (w : kind * wstate) : DPA CS :=
  {| d_store := d_store x; d_storeC := d_storeC x; d_retrieveC := d_retrieveC x; d_running := d_running x;
     d_quitC := d_quitC x; d_chans := d_chans x; d_quits := d_quits x; d_workers := <[i := w]> (d_workers x);
     d_senders := d_senders x; d_wgs := d_wgs x; d_objs := d_objs x |}.

Definition with_chans x (cs : list (kind * list nat)) (ss : list (option nat * nat)) : DPA CS :=
  {| d_store := d_store x; d_storeC := d_storeC x; d_retrieveC := d_retrieveC x; d_running := d_running x;
     d_quitC := d_quitC x; d_chans := cs; d_quits := d_quits x; d_workers := d_workers x;
     d_senders := ss; d_wgs := d_wgs x; d_objs := d_objs x |}.

Definition with_objs x (wgs : gmap nat Z) (os : list dobj) : DPA CS :=
  {| d_store := d_store x; d_storeC := d_storeC x; d_retrieveC := d_retrieveC x; d_running := d_running x;
     d_quitC := d_quitC x; d_chans := d_chans x; d_quits := d_quits x; d_workers := d_workers x;
     d_senders := d_senders x; d_wgs := wgs; d_objs := os |}.

(** ** Clients *)

(** The counter of a wait group: what the splitters added and the workers have not taken off, and what the store added. *)
Definition wg_count x g : Z := default 0 (d_wgs x !! g).
Definition wg_counter x g : Z := wg_count x g + cs_wg (d_store x) g.

(** [wg.Add(n)] of a wait group that may be nil. *)
Definition wg_add (wgs : gmap nat Z) (g : option nat) (n : Z) : gmap nat Z :=
  match g with Some g => <[g := default 0 (wgs !! g) + n]> wgs | None => wgs end.

(** A new object whose sender waits. *)
Definition emit_obj x (ch : option nat) (b : dobj) : DPA CS :=
  with_objs (with_chans x (d_chans x) (d_senders x ++ [(ch, length (d_objs x))]))
    (wg_add (d_wgs x) (do_wg b) 1) (d_objs x ++ [b]).

(** A chunk of [Store], which gave the splitter the channel [ch] and the wait group [g]: [hashChunk]
    sends nothing on a nil channel. *)
Definition Store_chunk x (ch : option nat) (c : Chunk) (g : option nat) : DPA CS :=
  match ch with
  | None => x
  | Some _ => emit_obj x ch {| do_chunk := c; do_C := None; do_wg := g |}
  end.

(** A request of a reader that [Retrieve] gave the channel [ch]. *)
Definition Retrieve_chunk x (ch : option nat) (key : Key) : DPA CS :=
  emit_obj x ch {| do_chunk := {| ck_Key := key; ck_SData := None; ck_Size := 0; ck_Source := None; ck_Req := None |};
                   do_C := Some Open; do_wg := None |}.

Definition chan_capacity (kd : kind) : Z :=
  match kd with KStore => storeChanCapacity | KRetrieve => retrieveChanCapacity end.

(** The [j]th sender; it blocks when its channel is nil or full. *)
Definition sender_step x j : outcome (DPA CS) :=
  match d_senders x !! j with
  | Some (Some ch, o) =>
    match d_chans x !! ch with
    | Some (kd, q) =>
      if #q <? chan_capacity kd then Ret (with_chans x (<[ch := (kd, q ++ [o])]> (d_chans x)) (delete j (d_senders x)))
      else Wait
    | None => Wait
    end
  | _ => Wait
  end.

(** ** Workers *)

Definition worker_chan x (kd : kind) : option nat :=
  match kd with KStore => d_storeC x | KRetrieve => d_retrieveC x end.

(** [chunk.SData = storedChunk.SData; chunk.Size = storedChunk.Size]. *)
Definition fill_chunk x o (c : Chunk) : DPA CS :=
  with_objs x (d_wgs x)
    (alter (fun b => {| do_chunk := {| ck_Key := ck_Key (do_chunk b); ck_SData := ck_SData c; ck_Size := ck_Size c;
                                       ck_Source := ck_Source (do_chunk b); ck_Req := ck_Req (do_chunk b) |};
                        do_C := do_C b; do_wg := do_wg b |}) o (d_objs x)).

(** [close(chunk.C)]. *)
Definition close_chunk x o : outcome (DPA CS) :=
  let& b := or_crash (d_objs x !! o) in
  match do_C b with
  | Some Open =>
    Ret (with_objs x (d_wgs x) (<[o := {| do_chunk := do_chunk b; do_C := Some Closed; do_wg := do_wg b |}]> (d_objs x)))
  | _ => Crash
  end.

(** [if chunk.wg != nil { chunk.wg.Done() }]; a counter below zero panics. (What the store added it takes off itself.) *)
Definition release_chunk x o : outcome (DPA CS) :=
  let& b := or_crash (d_objs x !! o) in
  match do_wg b with
  | None => Ret x
  | Some g => if wg_count x g <=? 0 then Crash else Ret (with_objs x (wg_add (d_wgs x) (Some g) (-1)) (d_objs x))
  end.

(** The select on [self.quitC], which is nil before the first [Start]. *)
Definition quit_closed x : bool :=
  match d_quitC x ≫= (fun q => d_quits x !! q) with Some Closed => true | _ => false end.

(** A worker with a chunk: the store operation of its loop. *)
Definition worker_op x i (kd : kind) (ch : option nat) o : outcome (DPA CS) :=
  let& b := or_crash (d_objs x !! o) in
  match kd with
  | KStore =>
    let& s := cs_Put (d_store x) (do_chunk b) (do_wg b) in
    Ret (set_worker (with_store x s) i (kd, WFinish ch o))
  | KRetrieve =>
    let& r := cs_Get (d_store x) (ck_Key (do_chunk b)) in
    let '(f, s) := r in
    let x := with_store x s in
    match f with
    | GFound c => Ret (set_worker (fill_chunk x o c) i (kd, WFinish ch o))
    | GNotFound => Ret (set_worker x i (kd, WFinish ch o))
    | GPending c r => Ret (set_worker x i (kd, WWait ch o c r))
    end
  end.

(** One step of the [i]th worker, [storeWorker] or [retrieveWorker]. *)
Definition worker_step x i (timer : bool) : outcome (DPA CS) :=
  match d_workers x !! i with
  | None => Wait
  | Some (kd, st) =>
    match st with
    | WSpawned => Ret (set_worker x i (kd, WRange (worker_chan x kd)))
    | WRange None => Wait
    | WRange (Some ch) =>
      match d_chans x !! ch with
      | Some (ck, o :: q) =>
        Ret (set_worker (with_chans x (<[ch := (ck, q)]> (d_chans x)) (d_senders x)) i (kd, WWork (Some ch) o))
      | _ => Wait
      end
    | WWork ch o => worker_op x i kd ch o
    | WWait ch o c r =>
      let& f := cs_wait (d_store x) c r timer in
      let x := match f with Some c => fill_chunk x o c | None => x end in
      Ret (set_worker x i (kd, WFinish ch o))
    | WFinish ch o =>
      let& x := (match kd with KStore => release_chunk x o | KRetrieve => close_chunk x o end) in
      Ret (set_worker x i (kd, WSelect ch))
    | WSelect ch => Ret (set_worker x i (kd, if quit_closed x then WReturned else WRange ch))
    | WReturned => Wait
    end
  end.

(** ** Runs *)

Inductive label :=
| LStart | LStop
| LStore (ch : option nat) (c : Chunk) (g : option nat)
| LRetrieve (ch : option nat) (key : Key)
| LSend (j : nat)
| LWork (i : nat) (timer : bool)
| LBg.

Definition dpa_step_fun x (l : label) : outcome (DPA CS) :=
  match l with
  | LStart => Ret (Start x)
  | LStop => Stop x
  | LStore ch c g => Ret (Store_chunk x ch c g)
  | LRetrieve ch key => Ret (Retrieve_chunk x ch key)
  | LSend j => sender_step x j
  | LWork i timer => worker_step x i timer
  | LBg => Wait
  end.

Inductive dpa_step x : label -> DPA CS -> Prop :=
| step_fun l x' : dpa_step_fun x l = Ret x' -> dpa_step x l x'
| step_bg s : cs_bg (d_store x) s -> dpa_step x LBg (with_store x s).

Inductive dpa_run : DPA CS -> list label -> DPA CS -> Prop :=
| run_nil x : dpa_run x [] x
| run_cons x l x1 ls x2 : dpa_step x l x1 -> dpa_run x1 ls x2 -> dpa_run x (l :: ls) x2.
End Dpa.
