(* ===== verification/DpaInv.v ===== *)
(** The invariant of the document API ([Dpa]): no chunk is lost between a client and the store, the
    wait groups count what is on the way, and requests for stored keys are answered with
    their contents. [DpaProps] has the properties. *)
From stdpp Require Import base gmap list strings.
From Stdlib Require Import ZArith Lia.
From S2P Require Import Prelude Types Chunker Database DbStore Dpa.

(** ** Lists of lists *)

Lemma concat_update {A} (l : list (list A)) i x :
  l !! i = Some x -> exists rest, concat l ≡ₚ x ++ rest /\ forall y, concat (<[i := y]> l) ≡ₚ y ++ rest.
Proof.
  intros Hi. exists (concat (take i l) ++ concat (drop (S i) l)).
  assert (Hl : (i < length l)%nat) by (by eapply lookup_lt_Some). split.
  - rewrite <- (take_drop_middle l i x Hi) at 1. rewrite concat_app. cbn. solve_Permutation.
  - intros y. rewrite insert_take_drop by done. rewrite concat_app. cbn. solve_Permutation.
Qed.

Lemma filter_ext_in {A} (P Q : A -> Prop) `{!forall a, Decision (P a), !forall a, Decision (Q a)} (l : list A) :
  Forall (fun a => P a <-> Q a) l -> filter P l = filter Q l.
Proof. induction 1 as [|a l Ha _ IH]; [done|]. rewrite !filter_cons, IH. by repeat case_decide; try tauto. Qed.

Section Inv.
Context {CS : Type} `{ChunkStore CS, HL : !ChunkStoreLaws CS} (content : Key -> option (bytes * Z)).
Implicit Types (x : DPA CS) (o i j g n : nat) (kd : kind) (st : wstate) (b : dobj).

(** ** Where the objects are *)

(** The objects of senders, of channels and, by [f], of workers. *)
Definition places (f : wstate -> list nat) x : list nat :=
  (d_senders x).*2 ++ concat (d_chans x).*2 ++ concat ((fun w => f w.2) <$> d_workers x).

Definition busy st : list nat :=
  match st with WWork _ o | WWait _ o _ _ | WFinish _ o => [o] | _ => [] end.
Definition todo st : list nat := match st with WWork _ o => [o] | _ => [] end.

(** The objects that no worker is done with, and those that no store operation was made for yet. *)
Definition pending x : list nat := places busy x.
Definition unserved x : list nat := places todo x.

(** An object that waits for a worker of the given kind. *)
Definition obj_at (os : list dobj) kd o : Prop :=
  exists b, os !! o = Some b /\ cs_good (ck_Key (do_chunk b)) /\
    match kd with
    | KStore => do_C b = None /\ content (ck_Key (do_chunk b)) = Some (answer (do_chunk b)) /\
        ck_SData (do_chunk b) <> None /\ ck_Req (do_chunk b) = None
    | KRetrieve => do_C b = Some Open /\ do_wg b = None
    end.

Definition chan_kind x ch : option kind := fst <$> d_chans x !! ch.

Definition range_chan st : option nat :=
  match st with WRange ch | WWork ch _ | WWait ch _ _ _ | WFinish ch _ | WSelect ch => ch | _ => None end.

(** A worker ranges over a channel of its kind; a stored chunk is held. *)
Definition worker_ok x (w : kind * wstate) : Prop :=
  (forall ch, range_chan w.2 = Some ch -> chan_kind x ch = Some w.1) /\
  Forall (obj_at (d_objs x) w.1) (busy w.2) /\
  match w.1, w.2 with
  | KStore, WWait _ _ _ _ => False
  | KStore, WFinish _ o => forall b, d_objs x !! o = Some b -> cs_holds (d_store x) (ck_Key (do_chunk b))
  | _, _ => True
  end.

Definition sender_ok x (s : option nat * nat) : Prop :=
  match s.1 with
  | Some ch => exists kd, chan_kind x ch = Some kd /\ obj_at (d_objs x) kd s.2
  | None => obj_at (d_objs x) KRetrieve s.2
  end.

Definition wg_of (os : list dobj) o : option nat := os !! o ≫= do_wg.

(** The accounts: what is pending is counted by the wait groups, what is not is stored. *)
Record accounts n x : Prop := {
  ac_ok : cs_ok content (d_store x) (length (unserved x) + n);
  ac_nodup : NoDup (pending x);
  ac_wg : forall g, wg_count x g = Z.of_nat (length (filter (fun o => wg_of (d_objs x) o = Some g) (pending x)));
  ac_done : forall o b, d_objs x !! o = Some b -> do_C b = None -> o ∉ pending x -> cs_holds (d_store x) (ck_Key (do_chunk b))
}.

Record dpa_inv n x : Prop := {
  di_acc : accounts n x;
  di_senders : Forall (sender_ok x) (d_senders x);
  di_chans : Forall (fun c => Forall (obj_at (d_objs x) c.1) c.2) (d_chans x);
  di_workers : Forall (worker_ok x) (d_workers x);
  di_cur : forall kd ch, worker_chan x kd = Some ch -> chan_kind x ch = Some kd
}.

(** ** The parts under changes *)

(** [os'] has what [os] has for the objects other than those of [gone]. *)
Definition objs_le (gone : list nat) (os os' : list dobj) : Prop :=
  (forall o b, os !! o = Some b -> exists b', os' !! o = Some b' /\ ck_Key (do_chunk b') = ck_Key (do_chunk b) /\
     do_wg b' = do_wg b /\ (do_C b = None -> b' = b) /\ (do_C b' = None -> do_C b = None) /\
     (o ∉ gone -> do_C b' = do_C b)).

Lemma objs_le_refl l os : objs_le l os os.
Proof using Type. intros o b Hb. eauto 10. Qed.

Lemma obj_at_le l os os' kd o : objs_le l os os' -> o ∉ l -> obj_at os kd o -> obj_at os' kd o.
Proof using Type.
  intros Hle Hn (b & Hb & Hg & Hk). destruct (Hle o b Hb) as (b' & Hb' & Hkey & Hwg & Hst & Hnn & HC). exists b'.
  rewrite Hkey. split_and!; [done|done|]. destruct kd; [destruct Hk as [Hc ?]; rewrite (Hst Hc); done|]. by rewrite HC, Hwg.
Qed.

Lemma objs_le_app os b : objs_le [] os (os ++ [b]).
Proof using Type. intros o b' Hb. exists b'. split_and!; try done. by apply lookup_app_l_Some. Qed.

Lemma objs_le_alter (f : dobj -> dobj) l os o b :
  os !! o = Some b -> do_C b <> None ->
  ck_Key (do_chunk (f b)) = ck_Key (do_chunk b) -> do_wg (f b) = do_wg b -> do_C (f b) <> None -> do_C (f b) = do_C b \/ o ∈ l ->
  objs_le l os (alter f o os).
Proof using Type.
  intros Hb Hc Hk Hw Hn Hl o' b' Hb'. destruct (decide (o' = o)) as [->|Hne].
  - rewrite Hb in Hb'. injection Hb' as <-. exists (f b). rewrite list_lookup_alter_eq, Hb. split_and!; try done. by destruct Hl.
  - exists b'. rewrite list_lookup_alter_ne by done. split_and!; done.
Qed.

Lemma wg_of_le l os os' o : objs_le l os os' -> is_Some (os !! o) -> wg_of os' o = wg_of os o.
Proof using Type. intros Hle [b Hb]. destruct (Hle o b Hb) as (b' & Hb' & _ & Hw & _). unfold wg_of. by rewrite Hb, Hb'. Qed.

(** The objects of the pending list exist. *)
Lemma obj_at_lookup os kd o : obj_at os kd o -> is_Some (os !! o).
Proof using Type. intros (b & Hb & _). eauto. Qed.

Lemma pending_objs n x : dpa_inv n x -> Forall (fun o => is_Some (d_objs x !! o)) (pending x).
Proof using Type.
  intros [_ Hs Hc Hw _]. unfold pending, places. rewrite !Forall_app. split_and!.
  - apply Forall_fmap. eapply Forall_impl; [exact Hs|]. intros [ch o]. unfold sender_ok. cbn.
    destruct ch as [ch|]; [intros (kd & _ & Ho)|intros Ho]; by eapply obj_at_lookup.
  - apply Forall_concat, Forall_fmap. eapply Forall_impl; [exact Hc|]. intros [kd q]. cbn. intros Hq.
    eapply Forall_impl; [exact Hq|]. intros o. apply obj_at_lookup.
  - apply Forall_concat, Forall_fmap. eapply Forall_impl; [exact Hw|]. intros [kd st] (_ & Hb & _). cbn in *.
    eapply Forall_impl; [exact Hb|]. intros o. apply obj_at_lookup.
Qed.

(** Objects move between places. *)
Lemma accounts_move n m x x' :
  accounts n x -> pending x' ≡ₚ pending x -> Forall (fun o => is_Some (d_objs x !! o)) (pending x) ->
  length (d_objs x') = length (d_objs x) -> objs_le [] (d_objs x) (d_objs x') -> d_wgs x' = d_wgs x ->
  (forall k, cs_holds (d_store x) k -> cs_holds (d_store x') k) ->
  cs_ok content (d_store x') (length (unserved x') + m) -> accounts m x'.
Proof using Type.
  intros [Hok Hnd Hwg Hdone] Hp Hex Hlen Hle Hw Hh Hok'. split.
  - done.
  - by rewrite Hp.
  - intros g. unfold wg_count. rewrite Hw. fold (wg_count x g). rewrite Hwg, Hp. do 2 f_equal.
    apply filter_ext_in. eapply Forall_impl; [exact Hex|]. intros o Ho. cbn. by rewrite (wg_of_le _ _ _ _ Hle Ho).
  - intros o b' Hb' Hc Hn. rewrite Hp in Hn.
    destruct (lookup_lt_is_Some_2 (d_objs x) o) as [b Hb]; [rewrite <- Hlen; by eapply lookup_lt_Some|].
    destruct (Hle o b Hb) as (b2 & Hb2 & Hk & _ & Hst & Hnn & HC). simplify_eq. rewrite Hk. apply Hh, Hdone with o; try done.
    rewrite <- HC; [done|set_solver].
Qed.

(** A change that keeps what the places say of their objects, those of [gone] apart. *)
Record evolves (gone : list nat) x x' : Prop := {
  ev_objs : objs_le gone (d_objs x) (d_objs x');
  ev_kind : forall ch kd, chan_kind x ch = Some kd -> chan_kind x' ch = Some kd;
  ev_holds : forall k, cs_holds (d_store x) k -> cs_holds (d_store x') k
}.

Lemma sender_ok_ev l x x' s : evolves l x x' -> s.2 ∉ l -> sender_ok x s -> sender_ok x' s.
Proof using Type.
  intros [Ho Hk _] Hn. unfold sender_ok. destruct s.1 as [ch|]; [intros (kd & Hkd & Hat)|intros Hat].
  - exists kd. split; [by apply Hk|by eapply obj_at_le].
  - by eapply obj_at_le.
Qed.

Lemma objs_at_ev l x x' kd os :
  evolves l x x' -> Forall (fun o => o ∉ l) os -> Forall (obj_at (d_objs x) kd) os -> Forall (obj_at (d_objs x') kd) os.
Proof using Type.
  intros [Ho _ _] Hn Hat. rewrite Forall_forall in *. intros o Hin. eapply obj_at_le; eauto.
Qed.

Lemma worker_ok_ev l x x' w : evolves l x x' -> Forall (fun o => o ∉ l) (busy w.2) -> worker_ok x w -> worker_ok x' w.
Proof using Type.
  intros Hev Hn (Hch & Hb & Hst). split_and!.
  - intros ch E. by eapply ev_kind, Hch.
  - by eapply objs_at_ev.
  - destruct w as [kd st]. cbn in *. destruct kd; [|done]. destruct st as [| | | |ch o| |]; try done. intros b' Hb'.
    inversion_clear Hb as [|? ? (b & Hbo & _ & Hc & _) _]. destruct (ev_objs _ _ _ Hev o b Hbo) as (b2 & Hb2 & Hk & _ & _). simplify_eq.
    rewrite Hk. by eapply ev_holds, Hst.
Qed.

Lemma places_ev l x x' :
  evolves l x x' -> Forall (fun o => o ∉ l) (pending x) ->
  Forall (sender_ok x) (d_senders x) -> Forall (fun c => Forall (obj_at (d_objs x) c.1) c.2) (d_chans x) ->
  Forall (worker_ok x) (d_workers x) ->
  Forall (sender_ok x') (d_senders x) /\ Forall (fun c => Forall (obj_at (d_objs x') c.1) c.2) (d_chans x) /\
  Forall (worker_ok x') (d_workers x).
Proof using Type.
  intros Hev Hn Hs Hc Hw. unfold pending, places in Hn. rewrite !Forall_app in Hn. destruct Hn as (Hns & Hnc & Hnw).
  rewrite Forall_fmap in Hns. apply Forall_concat in Hnc, Hnw. rewrite Forall_fmap in Hnc. rewrite Forall_fmap in Hnw.
  rewrite Forall_forall in Hns; rewrite Forall_forall in Hnc; rewrite Forall_forall in Hnw; rewrite Forall_forall in Hs;
    rewrite Forall_forall in Hc; rewrite Forall_forall in Hw.
  split_and!; apply Forall_forall; intros a Ha.
  - eapply sender_ok_ev; [exact Hev|exact (Hns a Ha)|exact (Hs a Ha)].
  - eapply objs_at_ev; [exact Hev|exact (Hnc a Ha)|exact (Hc a Ha)].
  - eapply worker_ok_ev; [exact Hev|exact (Hnw a Ha)|exact (Hw a Ha)].
Qed.

Lemma Forall_not_nil (l : list nat) : Forall (fun o => o ∉ []) l.
Proof using Type. apply Forall_forall. intros o _. apply not_elem_of_nil. Qed.

(** ** Workers *)

Lemma places_worker f x i w w' :
  d_workers x !! i = Some w -> exists rest, places f x ≡ₚ f w.2 ++ rest /\
    forall x', d_senders x' = d_senders x -> d_chans x' = d_chans x -> d_workers x' = <[i := w']> (d_workers x) ->
      places f x' ≡ₚ f w'.2 ++ rest.
Proof using Type.
  intros Hi. destruct (concat_update ((fun w => f w.2) <$> d_workers x) i (f w.2)) as (rest & H1 & H2); [by rewrite list_lookup_fmap, Hi|].
  exists ((d_senders x).*2 ++ concat (d_chans x).*2 ++ rest). split; [unfold places; rewrite H1; solve_Permutation|].
  intros x' Hs Hc Hw. unfold places. rewrite Hs, Hc, Hw, list_fmap_insert, H2. solve_Permutation.
Qed.

Lemma pending_worker x i w w' :
  d_workers x !! i = Some w -> exists rest, pending x ≡ₚ busy w.2 ++ rest /\
    forall x', d_senders x' = d_senders x -> d_chans x' = d_chans x -> d_workers x' = <[i := w']> (d_workers x) ->
      pending x' ≡ₚ busy w'.2 ++ rest.
Proof using Type. exact (places_worker busy x i w w'). Qed.

Lemma unserved_worker x i w w' :
  d_workers x !! i = Some w -> exists rest, unserved x ≡ₚ todo w.2 ++ rest /\
    forall x', d_senders x' = d_senders x -> d_chans x' = d_chans x -> d_workers x' = <[i := w']> (d_workers x) ->
      unserved x' ≡ₚ todo w'.2 ++ rest.
Proof using Type. exact (places_worker todo x i w w'). Qed.

(** A worker goes on with the objects it has. *)
Lemma inv_worker n m x x' i kd st st' :
  dpa_inv n x -> d_workers x !! i = Some (kd, st) -> busy st' = busy st ->
  d_senders x' = d_senders x -> d_chans x' = d_chans x -> d_workers x' = <[i := (kd, st')]> (d_workers x) ->
  (forall kd, worker_chan x' kd = worker_chan x kd) -> length (d_objs x') = length (d_objs x) -> d_wgs x' = d_wgs x ->
  evolves [] x x' -> cs_ok content (d_store x') (length (unserved x') + m) -> worker_ok x' (kd, st') -> dpa_inv m x'.
Proof using Type.
  intros Hinv Hi Hb Hs Hc Hw Hcur Hlen Hwg Hev Hok Hwok.
  destruct (pending_worker x i (kd, st) (kd, st') Hi) as (rest & Hp & Hp'). specialize (Hp' x' Hs Hc Hw). cbn in Hp, Hp'. rewrite Hb, <- Hp in Hp'.
  pose proof (pending_objs n x Hinv) as Hex. destruct Hinv as [Hacc Hsend Hch Hwk Hcu].
  destruct (places_ev [] x x' Hev (Forall_not_nil _) Hsend Hch Hwk) as (Hs' & Hc' & Hw'). split.
  - eapply accounts_move; eauto; apply Hev.
  - by rewrite Hs.
  - by rewrite Hc.
  - rewrite Hw. by apply Forall_insert.
  - intros kd0 ch E. rewrite Hcur in E. by eapply ev_kind, Hcu.
Qed.

Lemma evolves_refl l x x' :
  d_objs x' = d_objs x -> d_chans x' = d_chans x -> d_store x' = d_store x -> evolves l x x'.
Proof using Type. intros Ho Hc Hs. split; [rewrite Ho; apply objs_le_refl|unfold chan_kind; by rewrite Hc|by rewrite Hs]. Qed.

Ltac same := try done; try (by apply evolves_refl).

Lemma inv_room n x m : dpa_inv n x -> (m <= n)%nat -> dpa_inv m x.
Proof using Type.
  intros [[Hok Hnd Hwg Hd] Hs Hc Hw Hcu] Hle. split; [|done..]. split; [|done..]. eapply cs_ok_weaken; [|exact Hok]. lia.
Qed.

(** A step of a worker that changes its own state only. *)
Lemma inv_local n x i kd st st' :
  dpa_inv n x -> d_workers x !! i = Some (kd, st) -> busy st' = busy st -> todo st' = todo st ->
  worker_ok x (kd, st') -> dpa_inv n (set_worker x i (kd, st')).
Proof using Type.
  intros Hinv Hi Hb Ht Hok. destruct (unserved_worker x i _ (kd, st') Hi) as (r & Hr & Hr').
  eapply (inv_worker n n x (set_worker x i (kd, st'))); eauto; same.
  cbn [set_worker d_store]. rewrite (Hr' (set_worker x i (kd, st'))) by done. cbn [snd] in Hr |- *. rewrite Ht, <- Hr. apply Hinv.
Qed.

Lemma worker_at n x i w : dpa_inv n x -> d_workers x !! i = Some w -> worker_ok x w.
Proof using Type. intros Hinv Hi. exact (proj1 (Forall_lookup _ _) (di_workers _ _ Hinv) i w Hi). Qed.

Lemma worker_obj n x i kd st o : dpa_inv n x -> d_workers x !! i = Some (kd, st) -> busy st = [o] -> obj_at (d_objs x) kd o.
Proof using Type.
  intros Hinv Hi Hb. destruct (worker_at _ _ _ _ Hinv Hi) as (_ & Hat & _). cbn in Hat. rewrite Hb in Hat. by inversion_clear Hat.
Qed.

Lemma inv_spawn n x i kd :
  dpa_inv n x -> d_workers x !! i = Some (kd, WSpawned) -> dpa_inv n (set_worker x i (kd, WRange (worker_chan x kd))).
Proof using Type.
  intros Hinv Hi. eapply inv_local; eauto. split_and!; cbn; [|done|by destruct kd]. intros ch E. by eapply di_cur.
Qed.

Lemma inv_select n x i kd ch (q : bool) :
  dpa_inv n x -> d_workers x !! i = Some (kd, WSelect ch) -> dpa_inv n (set_worker x i (kd, if q then WReturned else WRange ch)).
Proof using Type.
  intros Hinv Hi. destruct (worker_at _ _ _ _ Hinv Hi) as (Hk & _). eapply inv_local; eauto; [by destruct q|by destruct q|].
  split_and!; cbn; [|by destruct q|by destruct kd, q]. intros ch' E. destruct q; [done|]. by apply Hk.
Qed.

(** Filling in a chunk to retrieve. *)
Lemma fill_chunk_ev x o c :
  obj_at (d_objs x) KRetrieve o -> evolves [] x (fill_chunk x o c).
Proof using Type.
  intros (b & Hb & _ & HC & _). split; [|done|done]. cbn. eapply objs_le_alter; [exact Hb|by rewrite HC|done|done|by cbn; rewrite HC|by left].
Qed.

Lemma evolves_trans l x x' x'' : evolves [] x x' -> evolves l x' x'' -> evolves l x x''.
Proof using Type.
  intros [Ho Hk Hh] [Ho' Hk' Hh']. split; [|by eauto|by eauto]. intros o b Hb.
  destruct (Ho o b Hb) as (b1 & Hb1 & K1 & W1 & S1 & N1 & C1). destruct (Ho' o b1 Hb1) as (b2 & Hb2 & K2 & W2 & S2 & N2 & C2).
  exists b2. split_and!; [done|congruence|congruence| |by auto|].
  - intros HC. rewrite <- (S1 HC). apply S2. by rewrite (S1 HC).
  - intros Hn. rewrite C2 by done. apply C1, not_elem_of_nil.
Qed.

(** A worker asks the store: the operation uses up the room kept for it. *)
Lemma inv_op n x x' i kd ch o st' :
  dpa_inv n x -> d_workers x !! i = Some (kd, WWork ch o) -> busy st' = [o] -> todo st' = [] ->
  d_senders x' = d_senders x -> d_chans x' = d_chans x -> d_workers x' = <[i := (kd, st')]> (d_workers x) ->
  (forall kd, worker_chan x' kd = worker_chan x kd) -> length (d_objs x') = length (d_objs x) -> d_wgs x' = d_wgs x ->
  evolves [] x x' -> (forall m, cs_ok content (d_store x) (1 + m) -> cs_ok content (d_store x') m) ->
  worker_ok x' (kd, st') -> dpa_inv n x'.
Proof using Type.
  intros Hinv Hi Hb Ht Hs Hc Hw Hcur Hlen Hwg Hev Hop Hok. destruct (unserved_worker x i _ (kd, st') Hi) as (r & Hr & Hr').
  eapply (inv_worker n n x x'); eauto. rewrite (Hr' x') by done. cbn [snd]. rewrite Ht. apply Hop.
  pose proof (ac_ok _ _ (di_acc _ _ Hinv)) as Hroom. rewrite Hr in Hroom. exact Hroom.
Qed.

Lemma room_one n x i kd ch o :
  dpa_inv n x -> d_workers x !! i = Some (kd, WWork ch o) -> exists m, cs_ok content (d_store x) (1 + m).
Proof using Type.
  intros Hinv Hi. destruct (unserved_worker x i _ (kd, WSpawned) Hi) as (r & Hr & _).
  pose proof (ac_ok _ _ (di_acc _ _ Hinv)) as Hroom. rewrite Hr in Hroom. eexists. exact Hroom.
Qed.

Lemma inv_put n x i ch o :
  dpa_inv n x -> d_workers x !! i = Some (KStore, WWork ch o) ->
  exists x', worker_op x i KStore ch o = Ret x' /\ d_workers x' = <[i := (KStore, WFinish ch o)]> (d_workers x) /\
    d_senders x' = d_senders x /\ d_chans x' = d_chans x /\ dpa_inv n x'.
Proof using Type.
  intros Hinv Hi. destruct (worker_at _ _ _ _ Hinv Hi) as (Hk & Hb & _). cbn in Hb.
  inversion_clear Hb as [|? ? Hat _]. pose proof Hat as (b & Hbo & Hg & HC & Hcont & Hd & Hreq).
  destruct (room_one _ _ _ _ _ _ Hinv Hi) as [m Hm].
  destruct (cs_Put_law content (d_store x) m (do_chunk b) (do_wg b)) as (s' & E & _ & Hh & Hmono); try done.
  unfold worker_op. rewrite Hbo. cbn [or_crash obind]. rewrite E. cbn [obind]. eexists. split_and!; try done.
  eapply inv_op; eauto; try done.
  - split; [apply objs_le_refl|done|done].
  - intros m' Hm'. destruct (cs_Put_law content (d_store x) m' (do_chunk b) (do_wg b)) as (s2 & E2 & Hs2 & _); try done.
    rewrite E in E2. by injection E2 as <-.
  - split_and!; cbn; [done|by constructor|]. intros b' Hb'. by simplify_eq.
Qed.

Lemma inv_get n x x' i ch o :
  dpa_inv n x -> d_workers x !! i = Some (KRetrieve, WWork ch o) -> worker_op x i KRetrieve ch o = Ret x' -> dpa_inv n x'.
Proof using Type.
  intros Hinv Hi. destruct (worker_at _ _ _ _ Hinv Hi) as (Hk & Hb & _). cbn in Hb.
  inversion_clear Hb as [|? ? Hat _]. pose proof Hat as (b & Hbo & Hg & HC & Hw).
  unfold worker_op. rewrite Hbo. cbn [or_crash obind]. destruct (cs_Get _ _) as [[f s]| |] eqn:E; try done. cbn [obind].
  assert (Hop : forall m, cs_ok content (d_store x) (1 + m) -> cs_ok content s m) by (intros m Hm; by eapply cs_Get_ok).
  destruct (room_one _ _ _ _ _ _ Hinv Hi) as [m Hm]. destruct (cs_Get_ok _ _ _ _ _ _ Hm Hg E) as [_ Hmono].
  assert (Hev : evolves [] x (with_store x s)) by (split; [apply objs_le_refl|done|done]).
  destruct f as [c| |c r]; intros [= <-].
  - assert (Hev2 : evolves [] x (fill_chunk (with_store x s) o c)) by (eapply evolves_trans; [exact Hev|by apply fill_chunk_ev]).
    eapply inv_op; eauto; try done; [cbn; by rewrite length_alter| |].
    + destruct Hev2 as [Ho Hkd Hh]. by split.
    + split_and!; cbn; [done| |done]. constructor; [|done]. exact (obj_at_le [] _ _ _ _ (ev_objs _ _ _ Hev2) (not_elem_of_nil _) Hat).
  - eapply inv_op; eauto; try done; [by destruct Hev; split|]. split_and!; cbn; [done|by constructor|done].
  - eapply inv_op; eauto; try done; [by destruct Hev; split|]. split_and!; cbn; [done|by constructor|done].
Qed.

Lemma inv_wait n x i ch o c r (f : option Chunk) :
  dpa_inv n x -> d_workers x !! i = Some (KRetrieve, WWait ch o c r) ->
  dpa_inv n (set_worker (match f with Some c => fill_chunk x o c | None => x end) i (KRetrieve, WFinish ch o)).
Proof using Type.
  intros Hinv Hi. destruct (worker_at _ _ _ _ Hinv Hi) as (Hk & Hb & _). cbn in Hb. inversion_clear Hb as [|? ? Hat _].
  destruct (unserved_worker x i _ (KRetrieve, WFinish ch o) Hi) as (u & Hu & Hu').
  set (x1 := match f with Some c => _ | None => _ end).
  assert (Hev : evolves [] x x1) by (subst x1; destruct f; [by apply fill_chunk_ev|by apply evolves_refl]).
  eapply (inv_worker n n x _ i KRetrieve _ (WFinish ch o)); eauto; try (subst x1; by destruct f).
  - subst x1. destruct f; [|done]. cbn. by rewrite length_alter.
  - destruct Hev. by split.
  - rewrite (Hu' (set_worker x1 i (KRetrieve, WFinish ch o))) by (subst x1; by destruct f). cbn [snd todo length] in Hu |- *. rewrite <- Hu.
    replace (d_store (set_worker x1 _ _)) with (d_store x) by (subst x1; by destruct f). apply Hinv.
  - split_and!; cbn; [|constructor; [|done]|done].
    + intros ch' E. exact (ev_kind _ _ _ Hev _ _ (Hk _ E)).
    + exact (obj_at_le [] _ _ _ _ (ev_objs _ _ _ Hev) (not_elem_of_nil _) Hat).
Qed.

(** ** A worker is done with a chunk *)

Lemma wg_add_lookup (wgs : gmap nat Z) (h : option nat) z g :
  default 0 (wg_add wgs h z !! g) = default 0 (wgs !! g) + (if decide (h = Some g) then z else 0).
Proof using Type.
  unfold wg_add. destruct h as [h|]; [|rewrite decide_False by done; lia]. rewrite lookup_insert.
  repeat case_decide; simplify_eq/=; lia.
Qed.

Lemma accounts_finish n x x' o rest :
  accounts n x -> pending x ≡ₚ o :: rest -> pending x' ≡ₚ rest -> Forall (fun o => is_Some (d_objs x !! o)) (pending x) ->
  unserved x' ≡ₚ unserved x -> d_store x' = d_store x ->
  length (d_objs x') = length (d_objs x) -> objs_le [o] (d_objs x) (d_objs x') ->
  d_wgs x' = wg_add (d_wgs x) (wg_of (d_objs x) o) (-1) ->
  (forall b, d_objs x !! o = Some b -> do_C b = None -> cs_holds (d_store x) (ck_Key (do_chunk b))) -> accounts n x'.
Proof using Type.
  intros [Hok Hnd Hwg Hdone] Hp Hp' Hex Hun Hst Hlen Hle Hw Hh. rewrite Hp in Hnd, Hex. apply NoDup_cons in Hnd as [Hno Hnd]. split.
  - by rewrite Hst, Hun.
  - by rewrite Hp'.
  - intros g. unfold wg_count. rewrite Hw, wg_add_lookup. fold (wg_count x g). rewrite Hwg, Hp, Hp', filter_cons.
    inversion_clear Hex as [|? ? _ Hex']. rewrite (filter_ext_in (fun o => wg_of (d_objs x') o = Some g) (fun o => wg_of (d_objs x) o = Some g)).
    + case_decide; cbn [length]; lia.
    + eapply Forall_impl; [exact Hex'|]. intros o' Ho'. cbn. by rewrite (wg_of_le _ _ _ _ Hle Ho').
  - intros o' b' Hb' Hc Hn. rewrite Hst. rewrite Hp' in Hn.
    destruct (lookup_lt_is_Some_2 (d_objs x) o') as [b Hb]; [rewrite <- Hlen; by eapply lookup_lt_Some|].
    destruct (Hle o' b Hb) as (b2 & Hb2 & Hk & _ & Hs & Hnn & HC). simplify_eq. rewrite Hk. destruct (decide (o' = o)) as [->|Hne].
    + by apply Hh; [|apply Hnn].
    + apply Hdone with o'; [done| |rewrite Hp; set_solver]. rewrite <- HC; [done|set_solver].
Qed.

(** What a worker that finishes leaves behind. *)
Lemma inv_finish n x x' i kd ch o :
  dpa_inv n x -> d_workers x !! i = Some (kd, WFinish ch o) ->
  d_senders x' = d_senders x -> d_chans x' = d_chans x -> d_workers x' = <[i := (kd, WSelect ch)]> (d_workers x) ->
  (forall kd, worker_chan x' kd = worker_chan x kd) -> d_store x' = d_store x ->
  length (d_objs x') = length (d_objs x) -> objs_le [o] (d_objs x) (d_objs x') ->
  d_wgs x' = wg_add (d_wgs x) (wg_of (d_objs x) o) (-1) -> dpa_inv n x'.
Proof using Type.
  intros Hinv Hi Hs Hc Hw Hcur Hst Hlen Hle Hwg. destruct (worker_at _ _ _ _ Hinv Hi) as (Hk & Hb & Hfin). cbn in Hk, Hb, Hfin.
  inversion_clear Hb as [|? ? Hat _]. pose proof (pending_objs n x Hinv) as Hex.
  destruct (pending_worker x i _ (kd, WSelect ch) Hi) as (rest & Hp & Hp'). specialize (Hp' x' Hs Hc Hw). cbn in Hp, Hp'.
  destruct (unserved_worker x i _ (kd, WSelect ch) Hi) as (u & Hu & Hu'). specialize (Hu' x' Hs Hc Hw). cbn in Hu, Hu'.
  assert (Hev : evolves [o] x x') by (split; [done|unfold chan_kind; by rewrite Hc|by rewrite Hst]).
  assert (Hno : Forall (fun o' => o' ∉ [o]) rest).
  { pose proof (ac_nodup _ _ (di_acc _ _ Hinv)) as Hnd. rewrite Hp in Hnd. apply NoDup_cons in Hnd as [Hno _].
    apply Forall_forall. intros o' Ho' Hin%list_elem_of_singleton. by subst. }
  destruct Hinv as [Hacc Hsend Hch Hwk Hcu].
  (* the worker is taken out, the rest evolves *)
  set (y := set_worker x i (kd, WSelect ch)). assert (Hpy : pending y ≡ₚ rest).
  { destruct (pending_worker x i _ (kd, WSelect ch) Hi) as (rest2 & Hq & Hq'). specialize (Hq' y eq_refl eq_refl eq_refl). cbn [snd busy app] in Hq, Hq'.
    rewrite Hq'. rewrite Hp in Hq. by apply Permutation_cons_inv in Hq. }
  destruct (places_ev [o] y x') as (Hs' & Hc' & Hw').
  - destruct Hev. by split.
  - by rewrite Hpy.
  - exact Hsend.
  - exact Hch.
  - cbn. apply Forall_insert; [exact Hwk|]. split_and!; cbn; [done|done|by destruct kd].
  - split.
    + eapply accounts_finish; eauto; [by rewrite Hu, Hu'|]. intros b Hbo HC. destruct kd; [by apply Hfin|].
      destruct Hat as (b2 & Hb2 & _ & HC2 & _). by simplify_eq.
    + by rewrite Hs.
    + by rewrite Hc.
    + by rewrite Hw.
    + intros kd0 ch0 E. rewrite Hcur in E. by eapply ev_kind, Hcu.
Qed.

Lemma inv_release n x i ch o :
  dpa_inv n x -> d_workers x !! i = Some (KStore, WFinish ch o) ->
  exists x', release_chunk x o = Ret x' /\ d_workers x' = d_workers x /\ d_senders x' = d_senders x /\ d_chans x' = d_chans x /\
    dpa_inv n (set_worker x' i (KStore, WSelect ch)).
Proof using Type.
  intros Hinv Hi. destruct (worker_at _ _ _ _ Hinv Hi) as (_ & Hb & _). cbn in Hb. inversion_clear Hb as [|? ? Hat _].
  destruct Hat as (b & Hbo & _). unfold release_chunk. rewrite Hbo. cbn [or_crash obind].
  assert (Hwo : wg_of (d_objs x) o = do_wg b) by (unfold wg_of; by rewrite Hbo).
  destruct (do_wg b) as [g|] eqn:Eg.
  - destruct (pending_worker x i _ (KStore, WSelect ch) Hi) as (rest & Hp & _). cbn in Hp.
    pose proof (ac_wg _ _ (di_acc _ _ Hinv) g) as Hg. rewrite Hp, filter_cons, decide_True in Hg by done. cbn [length] in Hg.
    destruct (Z.leb_spec (wg_count x g) 0); [lia|]. eexists. split_and!; try done.
    eapply inv_finish; eauto; try done; [apply objs_le_refl|]. by rewrite Hwo.
  - eexists. split_and!; try done. eapply inv_finish; eauto; try done; [apply objs_le_refl|]. by rewrite Hwo.
Qed.

Lemma inv_close n x i ch o :
  dpa_inv n x -> d_workers x !! i = Some (KRetrieve, WFinish ch o) ->
  exists x', close_chunk x o = Ret x' /\ dpa_inv n (set_worker x' i (KRetrieve, WSelect ch)).
Proof using Type.
  intros Hinv Hi. destruct (worker_at _ _ _ _ Hinv Hi) as (_ & Hb & _). cbn in Hb. inversion_clear Hb as [|? ? Hat _].
  destruct Hat as (b & Hbo & _ & HC & Hw). unfold close_chunk. rewrite Hbo. cbn [or_crash obind]. rewrite HC.
  eexists. split; [done|]. eapply inv_finish; eauto; try done.
  - cbn. by rewrite length_insert.
  - cbn. intros o' b' Hb'. destruct (decide (o' = o)) as [->|Hne].
    + simplify_eq. eexists. rewrite list_lookup_insert_eq by (by eapply lookup_lt_Some). split_and!; try done; cbn; [by rewrite HC|].
      intros Hn. by destruct Hn; apply list_elem_of_singleton.
    + exists b'. rewrite list_lookup_insert_ne by done. split_and!; done.
  - unfold wg_of. rewrite Hbo. cbn. by rewrite Hw.
Qed.

(** ** Channels *)

Lemma queue_update (cs : list (kind * list nat)) ch kd q :
  cs !! ch = Some (kd, q) ->
  exists rest, concat cs.*2 ≡ₚ q ++ rest /\ forall q', concat (<[ch := (kd, q')]> cs).*2 ≡ₚ q' ++ rest.
Proof using Type.
  intros Hch. destruct (concat_update cs.*2 ch q) as (rest & H1 & H2); [by rewrite list_lookup_fmap, Hch|].
  exists rest. split; [done|]. intros q'. by rewrite list_fmap_insert, H2.
Qed.

Lemma chan_kind_insert (cs : list (kind * list nat)) ch kd q q' ch0 :
  cs !! ch = Some (kd, q) -> fst <$> <[ch := (kd, q')]> cs !! ch0 = fst <$> cs !! ch0.
Proof using Type.
  intros Hch. destruct (decide (ch0 = ch)) as [->|]; [|by rewrite list_lookup_insert_ne].
  rewrite list_lookup_insert_eq by (by eapply lookup_lt_Some). by rewrite Hch.
Qed.

(** Channels and senders or workers exchange objects. *)
Lemma inv_exchange n x x' ch kd q q' :
  dpa_inv n x -> d_chans x !! ch = Some (kd, q) -> d_chans x' = <[ch := (kd, q')]> (d_chans x) ->
  d_objs x' = d_objs x -> d_wgs x' = d_wgs x -> d_store x' = d_store x -> (forall kd, worker_chan x' kd = worker_chan x kd) ->
  pending x' ≡ₚ pending x -> unserved x' ≡ₚ unserved x -> Forall (obj_at (d_objs x) kd) q' ->
  (evolves [] x x' -> Forall (sender_ok x') (d_senders x') /\ Forall (worker_ok x') (d_workers x')) -> dpa_inv n x'.
Proof using Type.
  intros Hinv Hch Hc Ho Hw Hs Hcur Hp Hu Hq Hplaces. pose proof (pending_objs n x Hinv) as Hex.
  assert (Hev : evolves [] x x').
  { split; [rewrite Ho; apply objs_le_refl| |by rewrite Hs]. intros ch0 kd0. unfold chan_kind. rewrite Hc. by rewrite (chan_kind_insert _ _ _ _ _ _ Hch). }
  destruct (Hplaces Hev) as [Hs' Hw']. destruct Hinv as [Hacc Hsend Hchs Hwk Hcu]. split; try done.
  - eapply accounts_move; eauto; [by rewrite Ho|apply Hev|apply Hev|]. rewrite Hs, Hu. apply Hacc.
  - rewrite Hc, Ho. by apply Forall_insert.
  - intros kd0 ch0 E. rewrite Hcur in E. by eapply ev_kind, Hcu.
Qed.

Lemma places_take f x i kd ch ck o q :
  d_workers x !! i = Some (kd, WRange (Some ch)) -> d_chans x !! ch = Some (ck, o :: q) ->
  f (WRange (Some ch)) = [] -> f (WWork (Some ch) o) = [o] ->
  places f (set_worker (with_chans x (<[ch := (ck, q)]> (d_chans x)) (d_senders x)) i (kd, WWork (Some ch) o)) ≡ₚ places f x.
Proof using Type.
  intros Hi Hch Hf Hf'. destruct (queue_update _ _ _ _ Hch) as (cr & Hcr & Hcr').
  destruct (concat_update ((fun w => f w.2) <$> d_workers x) i []) as (rest & H1 & H2); [by rewrite list_lookup_fmap, Hi; cbn; rewrite Hf|].
  unfold places. cbn [with_chans set_worker d_senders d_chans d_workers]. rewrite Hcr', list_fmap_insert, H2, H1, Hcr. cbn. rewrite Hf'. solve_Permutation.
Qed.

Lemma places_send f x j ch o kd q :
  d_senders x !! j = Some (Some ch, o) -> d_chans x !! ch = Some (kd, q) ->
  places f (with_chans x (<[ch := (kd, q ++ [o])]> (d_chans x)) (delete j (d_senders x))) ≡ₚ places f x.
Proof using Type.
  intros Hj Hch. destruct (queue_update _ _ _ _ Hch) as (cr & Hcr & Hcr'). pose proof (delete_Permutation _ _ _ Hj) as Hd.
  unfold places. cbn [with_chans d_senders d_chans d_workers]. generalize dependent (delete j (d_senders x)). intros ds Hd.
  rewrite Hcr, Hcr', Hd. cbn. solve_Permutation.
Qed.

Lemma places_emit f x ch b : places f (emit_obj x ch b) ≡ₚ length (d_objs x) :: places f x.
Proof using Type. unfold places. cbn. rewrite fmap_app. cbn. solve_Permutation. Qed.

Lemma places_start f x : f WSpawned = [] -> places f (Start x) = places f x.
Proof using Type.
  intros Hf. unfold Start. destruct (d_running x); [done|]. unfold places. cbn [d_senders d_chans d_workers].
  rewrite !fmap_app, !concat_app. cbn. by rewrite Hf, !app_nil_r.
Qed.

Lemma inv_take n x i kd ch ck o q :
  dpa_inv n x -> d_workers x !! i = Some (kd, WRange (Some ch)) -> d_chans x !! ch = Some (ck, o :: q) ->
  dpa_inv n (set_worker (with_chans x (<[ch := (ck, q)]> (d_chans x)) (d_senders x)) i (kd, WWork (Some ch) o)).
Proof using Type.
  intros Hinv Hi Hch. destruct (worker_at _ _ _ _ Hinv Hi) as (Hk & _ & _). cbn in Hk.
  assert (ck = kd) as -> by (specialize (Hk ch eq_refl); unfold chan_kind in Hk; rewrite Hch in Hk; by injection Hk).
  pose proof (proj1 (Forall_lookup _ _) (di_chans _ _ Hinv) _ _ Hch) as Hq. cbn in Hq. inversion_clear Hq as [|? ? Hat Hq'].
  pose proof (fun f => places_take f x i kd ch kd o q Hi Hch) as Hpl.
  eapply inv_exchange; eauto; try done.
  intros Hev. destruct (places_ev [] _ _ Hev (Forall_not_nil _) (di_senders _ _ Hinv) (di_chans _ _ Hinv) (di_workers _ _ Hinv)) as (Hs' & _ & Hw').
  split; [done|]. cbn [with_chans set_worker d_workers]. apply Forall_insert; [done|]. split_and!; cbn.
  - intros ch0 [= <-]. by eapply ev_kind, Hk.
  - by constructor.
  - by destruct kd.
Qed.

Lemma inv_send n x j ch o kd q :
  dpa_inv n x -> d_senders x !! j = Some (Some ch, o) -> d_chans x !! ch = Some (kd, q) ->
  dpa_inv n (with_chans x (<[ch := (kd, q ++ [o])]> (d_chans x)) (delete j (d_senders x))).
Proof using Type.
  intros Hinv Hj Hch. pose proof (proj1 (Forall_lookup _ _) (di_senders _ _ Hinv) _ _ Hj) as (kd' & Hkd & Hat). cbn in Hkd, Hat.
  unfold chan_kind in Hkd. rewrite Hch in Hkd. injection Hkd as <-.
  pose proof (proj1 (Forall_lookup _ _) (di_chans _ _ Hinv) _ _ Hch) as Hq. cbn in Hq.
  pose proof (fun f => places_send f x j ch o kd q Hj Hch) as Hpl.
  eapply inv_exchange; eauto; try done.
  - apply Forall_app. split; [done|by constructor].
  - intros Hev. destruct (places_ev [] _ _ Hev (Forall_not_nil _) (di_senders _ _ Hinv) (di_chans _ _ Hinv) (di_workers _ _ Hinv)) as (Hs' & _ & Hw').
    split; [|done]. cbn [with_chans d_senders]. apply Forall_delete. done.
Qed.

(** ** Clients *)

Lemma inv_emit n x ch b kd :
  dpa_inv (S n) x -> obj_at (d_objs x ++ [b]) kd (length (d_objs x)) ->
  match ch with Some ch => chan_kind x ch = Some kd | None => kd = KRetrieve end -> dpa_inv n (emit_obj x ch b).
Proof using Type.
  intros Hinv Hat Hch. pose proof (pending_objs _ x Hinv) as Hex. set (o := length (d_objs x)) in *.
  assert (Hno : o ∉ pending x) by (intros Hin; rewrite Forall_forall in Hex; destruct (Hex o Hin) as [? E%lookup_lt_Some]; unfold o in E; lia).
  assert (Hbo : (d_objs x ++ [b]) !! o = Some b) by (unfold o; by rewrite lookup_app_r, Nat.sub_diag by done).
  assert (Hp : pending (emit_obj x ch b) ≡ₚ o :: pending x) by apply (places_emit busy).
  assert (Hev : evolves [] x (emit_obj x ch b)) by (split; [apply objs_le_app|done|done]).
  destruct (places_ev [] _ _ Hev (Forall_not_nil _) (di_senders _ _ Hinv) (di_chans _ _ Hinv) (di_workers _ _ Hinv)) as (Hs' & Hc' & Hw').
  destruct Hinv as [[Hok Hnd Hwg Hdone] Hsend Hchs Hwk Hcu]. split; try done.
  - split.
    + eapply cs_ok_weaken; [|exact Hok]. unfold unserved. rewrite places_emit. cbn. lia.
    + rewrite Hp. by apply NoDup_cons.
    + intros g. unfold wg_count. cbn. rewrite wg_add_lookup. fold (wg_count x g). rewrite Hwg, Hp, filter_cons.
      rewrite (filter_ext_in (fun o => wg_of (d_objs x ++ [b]) o = Some g) (fun o => wg_of (d_objs x) o = Some g)).
      * assert (Hwo : wg_of (d_objs x ++ [b]) o = do_wg b) by (unfold wg_of; by rewrite Hbo).
        repeat case_decide; cbn [length]; try lia; cbn in *; congruence.
      * eapply Forall_impl; [exact Hex|]. intros o' Ho'. cbn. by rewrite (wg_of_le [] _ (d_objs x ++ [b]) o' (objs_le_app _ _) Ho').
    + intros o' b' Hb' HC Hn. rewrite Hp in Hn. apply not_elem_of_cons in Hn as [Hne Hn]. cbn in Hb'.
      apply lookup_app_Some in Hb' as [Hb'|[Hle Hb']]; [by eapply Hdone|]. apply list_lookup_singleton_Some in Hb' as [? _]. unfold o in Hne. lia.
  - cbn. apply Forall_app. split; [done|]. constructor; [|done]. unfold sender_ok. cbn.
    destruct ch as [ch|]; [eauto|by subst].
Qed.

(** ** Starting, stopping, and the steps of the store *)

Lemma inv_start n x : dpa_inv n x -> dpa_inv n (Start x).
Proof using Type.
  intros Hinv. pose proof (fun f => places_start f x) as Hpl. revert Hpl. unfold Start. destruct (d_running x); [done|].
  set (x' := mkDPA _ _ _ _ _ _ _ _ _ _ _). intros Hpl.
  pose proof (pending_objs _ x Hinv) as Hex.
  assert (Hev : evolves [] x x').
  { split; [apply objs_le_refl| |done]. intros ch kd. unfold chan_kind. subst x'. cbn. destruct (d_chans x !! ch) as [c|] eqn:E; [|done].
    by rewrite (lookup_app_l_Some _ _ _ _ E). }
  destruct (places_ev [] _ _ Hev (Forall_not_nil _) (di_senders _ _ Hinv) (di_chans _ _ Hinv) (di_workers _ _ Hinv)) as (Hs' & Hc' & Hw').
  destruct Hinv as [Hacc Hsend Hchs Hwk Hcu]. split.
  - eapply accounts_move; eauto; try done; [by unfold pending; rewrite Hpl|apply objs_le_refl|]. unfold unserved. rewrite Hpl by done. apply Hacc.
  - done.
  - cbn. apply Forall_app. split; [done|]. by repeat constructor.
  - cbn. apply Forall_app. split; [done|]. assert (forall kd, worker_ok x' (kd, WSpawned)) as Hsp by (intros []; by split_and!; cbn).
    repeat (constructor; [apply Hsp|]). constructor.
  - intros kd ch. unfold chan_kind. destruct kd; cbn; intros [= <-]; rewrite lookup_app_r by lia.
    + by replace (S (length (d_chans x)) - length (d_chans x))%nat with 1%nat by lia.
    + by rewrite Nat.sub_diag.
Qed.

Lemma inv_stop n x x' : dpa_inv n x -> Stop x = Ret x' -> dpa_inv n x'.
Proof using Type.
  intros Hinv. unfold Stop. destruct (d_running x); [|by intros [= <-]]. destruct (d_quitC x) as [q|]; [|done]. cbn.
  destruct (d_quits x !! q) as [[|]|]; intros [= <-]. destruct Hinv as [[] ? ? ? Hcu]. by split.
Qed.

Lemma inv_bg n x s : dpa_inv n x -> cs_bg (d_store x) s -> dpa_inv n (with_store x s).
Proof using Type.
  intros Hinv Hbg. pose proof (pending_objs _ x Hinv) as Hex.
  destruct (cs_bg_law content _ _ _ (ac_ok _ _ (di_acc _ _ Hinv)) Hbg) as [Hok Hmono].
  assert (Hev : evolves [] x (with_store x s)) by (split; [apply objs_le_refl|done|done]).
  destruct (places_ev [] _ _ Hev (Forall_not_nil _) (di_senders _ _ Hinv) (di_chans _ _ Hinv) (di_workers _ _ Hinv)) as (Hs' & Hc' & Hw').
  destruct Hinv as [Hacc Hsend Hchs Hwk Hcu]. split; try done.
  eapply accounts_move; eauto; try done. apply objs_le_refl.
Qed.

(** ** Runs *)

(** What clients put on channels: chunks of the contents, on store channels they were given, and requests for
    keys the store takes. *)
Definition label_ok x (l : label) : Prop :=
  match l with
  | LStore (Some ch) c _ => chan_kind x ch = Some KStore /\ cs_good (ck_Key c) /\ content (ck_Key c) = Some (answer c) /\
      ck_SData c <> None /\ ck_Req c = None
  | LRetrieve (Some ch) k => chan_kind x ch = Some KRetrieve /\ cs_good k
  | LRetrieve None k => cs_good k
  | _ => True
  end.

(** The number of objects a label puts on a channel. *)
Definition cost (l : label) : nat := match l with LStore _ _ _ | LRetrieve _ _ => 1 | _ => 0 end.

Lemma inv_step n x l x' : dpa_inv (cost l + n) x -> label_ok x l -> dpa_step x l x' -> dpa_inv n x'.
Proof using Type.
  intros Hinv Hl Hst. destruct Hst as [l x' E|s Hbg]; [|by apply inv_bg].
  destruct l as [| |ch c g|ch k|j|i timer|]; cbn in E; simplify_eq/=.
  - by apply inv_start.
  - by eapply inv_stop.
  - unfold Store_chunk. destruct ch as [ch|]; [|eapply inv_room; [exact Hinv|lia]]. destruct Hl as (Hk & Hg & Hc & Hd & Hr).
    apply inv_emit with KStore; [done| |done]. eexists. rewrite lookup_app_r, Nat.sub_diag by done. by split_and!.
  - assert (cs_good k /\ match ch with Some ch => chan_kind x ch = Some KRetrieve | None => True end) as [Hg Hk] by (destruct ch; naive_solver).
    apply inv_emit with KRetrieve; [done| |by destruct ch]. eexists. rewrite lookup_app_r, Nat.sub_diag by done. by split_and!.
  - unfold sender_step in E. destruct (d_senders x !! j) as [[[ch|] o]|] eqn:Ej; try done.
    destruct (d_chans x !! ch) as [[kd q]|] eqn:Ech; [|done]. destruct (_ <? _); [|done]. injection E as <-. by eapply inv_send.
  - unfold worker_step in E. destruct (d_workers x !! i) as [[kd st]|] eqn:Ei; [|done].
    destruct st as [|[ch|]|ch o|ch o c r|ch o|ch|]; try done.
    + injection E as <-. by apply inv_spawn.
    + destruct (d_chans x !! ch) as [[ck [|o q]]|] eqn:Ech; try done. injection E as <-. by apply inv_take.
    + destruct kd; [|by eapply inv_get]. destruct (inv_put n x i ch o Hinv Ei) as (x1 & E1 & _ & _ & _ & Hx1). rewrite E1 in E. by injection E as <-.
    + destruct (worker_at _ _ _ _ Hinv Ei) as (_ & _ & Hw). destruct kd; [done|].
      destruct (cs_wait _ _ _ _) as [f| |]; try done. cbn in E. injection E as <-. by eapply inv_wait.
    + destruct kd.
      * destruct (inv_release n x i ch o Hinv Ei) as (x1 & E1 & _ & _ & _ & Hx1). rewrite E1 in E. by injection E as <-.
      * destruct (inv_close n x i ch o Hinv Ei) as (x1 & E1 & Hx1). rewrite E1 in E. by injection E as <-.
    + injection E as <-. by apply inv_select.
Qed.

(** ** Answers *)

(** The requests made after [base] for keys of [known] get the contents of their keys: each is still to be
    served or has been answered, and no worker waits for a search. *)
Record answers (base : nat) (known : Key -> Prop) x : Prop := {
  an_holds : forall k, known k -> cs_holds (d_store x) k;
  an_objs : forall o b, d_objs x !! o = Some b -> (base <= o)%nat -> do_C b <> None -> known (ck_Key (do_chunk b)) ->
    o ∈ unserved x \/ content (ck_Key (do_chunk b)) = Some (answer (do_chunk b));
  an_wait : forall i kd ch o c r b, d_workers x !! i = Some (kd, WWait ch o c r) -> d_objs x !! o = Some b -> (base <= o)%nat ->
    known (ck_Key (do_chunk b)) -> False
}.

Definition waits (w : kind * wstate) : Prop := match w.2 with WWait _ _ _ _ => True | _ => False end.

(** A step that changes no request. *)
Lemma answers_quiet base known x x' :
  answers base known x -> (forall k, cs_holds (d_store x) k -> cs_holds (d_store x') k) ->
  (forall o b, d_objs x' !! o = Some b -> (base <= o)%nat -> do_C b <> None ->
     (exists b0, d_objs x !! o = Some b0 /\ do_C b0 <> None /\ do_chunk b0 = do_chunk b /\ (o ∈ unserved x -> o ∈ unserved x')) \/
     o ∈ unserved x') ->
  (forall i kd ch o c r, d_workers x' !! i = Some (kd, WWait ch o c r) -> d_workers x !! i = Some (kd, WWait ch o c r) /\
     forall b, d_objs x' !! o = Some b -> exists b0, d_objs x !! o = Some b0 /\ do_chunk b0 = do_chunk b) ->
  answers base known x'.
Proof using Type.
  intros [Hh Ho Hw] Hmono Hobjs Hwait. split.
  - eauto.
  - intros o b Hb Hle HC Hk. destruct (Hobjs o b Hb Hle HC) as [(b0 & Hb0 & HC0 & E & Hin)|]; [|by left].
    rewrite <- E in Hk |- *. destruct (Ho o b0 Hb0 Hle HC0 Hk); auto.
  - intros i kd ch o c r b Hi Hb Hle Hk. destruct (Hwait _ _ _ _ _ _ Hi) as [Hi0 Hb0]. destruct (Hb0 b Hb) as (b0 & Eb & E).
    rewrite <- E in Hk. by eapply Hw.
Qed.

Lemma insert_wait (ws : list (kind * wstate)) i j kd st ch o c r kd' :
  <[i := (kd, st)]> ws !! j = Some (kd', WWait ch o c r) -> (forall ch o c r, st <> WWait ch o c r) ->
  ws !! j = Some (kd', WWait ch o c r).
Proof using Type.
  intros E Hne. destruct (decide (i = j)) as [->|]; [|by rewrite list_lookup_insert_ne in E].
  apply list_lookup_insert_Some in E as [(_ & E & _)|[? _]]; [|done]. simplify_eq. by destruct (Hne ch o c r).
Qed.

(** A step that leaves the objects alone. *)
Lemma answers_same base known x x' :
  answers base known x -> (forall k, cs_holds (d_store x) k -> cs_holds (d_store x') k) -> d_objs x' = d_objs x ->
  (forall o, o ∈ unserved x -> o ∈ unserved x' \/ exists b, d_objs x !! o = Some b /\ do_C b = None) ->
  (forall i kd ch o c r, d_workers x' !! i = Some (kd, WWait ch o c r) -> d_workers x !! i = Some (kd, WWait ch o c r)) ->
  answers base known x'.
Proof using Type.
  intros Ha Hmono Ho Hun Hw. eapply answers_quiet; [done|done| |].
  - intros o b Hb _ HC. rewrite Ho in Hb. left. exists b. split_and!; try done. intros Hin. destruct (Hun o Hin) as [|(b' & Hb' & HC')]; [done|].
    by simplify_eq.
  - intros i kd ch o c r Hi. split; [by apply Hw|]. rewrite Ho. eauto.
Qed.

(** A worker that does not come to wait. *)
Lemma answers_worker base known x i w st :
  answers base known x -> d_workers x !! i = Some w -> todo st = todo w.2 -> (forall ch o c r, st <> WWait ch o c r) ->
  answers base known (set_worker x i (w.1, st)).
Proof using Type.
  intros Ha Hi Ht Hne. destruct (unserved_worker x i w (w.1, st) Hi) as (rest & Hp & Hp').
  eapply answers_same; [done|done|done| |].
  - intros o Hin. left. rewrite (Hp' (set_worker x i (w.1, st))) by done. cbn [snd]. by rewrite Ht, <- Hp.
  - intros j kd ch o c r Hj. exact (insert_wait _ _ _ _ _ _ _ _ _ _ Hj Hne).
Qed.

(** A worker fills in the chunk [o]; other requests stay as they are. *)
Lemma answers_fill base known n x y i w o c st :
  dpa_inv n x -> answers base known x -> d_workers x !! i = Some w -> busy w.2 = [o] -> w.1 = KRetrieve ->
  busy st = [o] -> todo st = [] -> (forall ch o c r, st <> WWait ch o c r) ->
  d_objs y = d_objs (fill_chunk x o c) -> d_senders y = d_senders x -> d_chans y = d_chans x -> d_workers y = <[i := (KRetrieve, st)]> (d_workers x) ->
  (forall k, cs_holds (d_store x) k -> cs_holds (d_store y) k) ->
  (forall b, d_objs x !! o = Some b -> (base <= o)%nat -> known (ck_Key (do_chunk b)) -> content (ck_Key (do_chunk b)) = Some (answer c)) ->
  answers base known y.
Proof using Type.
  intros Hinv [Hh Ho Hwt] Hi Hb Hkd Hb' Ht' Hne Hobj Hs Hc Hw Hmono Hans.
  destruct (worker_at _ _ _ _ Hinv Hi) as (_ & Hat & _). rewrite Hb in Hat. inversion_clear Hat as [|? ? (b & Hbo & _ & HC) _].
  destruct (unserved_worker x i w (KRetrieve, st) Hi) as (rest & Hp & Hp'). specialize (Hp' y Hs Hc Hw). cbn [snd] in Hp'. rewrite Ht' in Hp'.
  assert (Hnot : forall j kd ch o' c' r, d_workers y !! j = Some (kd, WWait ch o' c' r) -> o' <> o).
  { intros j kd ch o' c' r Hj ->. rewrite Hw in Hj. destruct (decide (i = j)) as [->|Hij].
    - apply list_lookup_insert_Some in Hj as [(_ & E & _)|[? _]]; [|done]. simplify_eq. by destruct (Hne ch o c' r).
    - rewrite list_lookup_insert_ne in Hj by done. pose proof (ac_nodup _ _ (di_acc _ _ Hinv)) as Hnd.
      destruct (pending_worker x i w (KRetrieve, WReturned) Hi) as (rp & Hpp & Hpp'). specialize (Hpp' (set_worker x i (KRetrieve, WReturned)) eq_refl eq_refl eq_refl).
      destruct (pending_worker (set_worker x i (KRetrieve, WReturned)) j (kd, WWait ch o c' r) (kd, WReturned)) as (rq & Hq & _).
      { cbn. by rewrite list_lookup_insert_ne. }
      cbn [snd busy app] in Hpp', Hq. rewrite Hq in Hpp'. rewrite Hpp, Hb, <- Hpp' in Hnd. apply NoDup_app in Hnd as (_ & Hd & _).
      apply (Hd o); by left. }
  split.
  - eauto.
  - intros o' b' Hb2 Hle HC' Hk. rewrite Hobj in Hb2. cbn in Hb2. destruct (decide (o' = o)) as [->|Hne'].
    + rewrite list_lookup_alter_eq, Hbo in Hb2. cbn in Hb2. injection Hb2 as <-. cbn in Hk |- *. right. rewrite (Hans b) by done. done.
    + rewrite list_lookup_alter_ne in Hb2 by done. destruct (Ho o' b' Hb2 Hle HC' Hk) as [Hin|]; [left|by right].
      rewrite Hp in Hin. rewrite Hp'. apply elem_of_app in Hin as [Hin|]; [|done]. exfalso. apply Hne'.
      destruct w as [kd0 [| |? o0|? o0| | |]]; cbn in Hb, Hin; try (by apply not_elem_of_nil in Hin). apply list_elem_of_singleton in Hin. congruence.
  - intros j kd ch o' c' r b' Hj Hb2 Hle Hk. pose proof (Hnot _ _ _ _ _ _ Hj) as Hno. rewrite Hobj in Hb2. cbn in Hb2.
    rewrite list_lookup_alter_ne in Hb2 by done. rewrite Hw in Hj. apply insert_wait in Hj; [|done]. by eapply Hwt.
Qed.

(** A request is served. *)
Lemma answers_get base known n x x' i ch o :
  dpa_inv n x -> answers base known x -> d_workers x !! i = Some (KRetrieve, WWork ch o) -> worker_op x i KRetrieve ch o = Ret x' ->
  answers base known x'.
Proof using Type.
  intros Hinv Ha Hi. destruct (worker_at _ _ _ _ Hinv Hi) as (Hk & Hb & _). cbn in Hb.
  inversion_clear Hb as [|? ? Hat _]. pose proof Hat as (b & Hbo & Hg & HC & Hw).
  unfold worker_op. rewrite Hbo. cbn [or_crash obind]. destruct (cs_Get _ _) as [[f s]| |] eqn:E; try done. cbn [obind].
  destruct (room_one _ _ _ _ _ _ Hinv Hi) as [m Hm]. destruct (cs_Get_ok _ _ _ _ _ _ Hm Hg E) as [_ Hmono].
  assert (Hfound : known (ck_Key (do_chunk b)) -> exists c, f = GFound c /\ content (ck_Key (do_chunk b)) = Some (answer c)).
  { intros Hkn. destruct (cs_Get_law _ _ _ _ Hm Hg (an_holds _ _ _ Ha _ Hkn)) as (c & s2 & E2 & Hc). rewrite E2 in E. injection E as <- _. eauto. }
  assert (Hother : (forall c, f <> GFound c) -> forall y st, busy st = [o] -> todo st = [] -> d_objs y = d_objs x -> d_senders y = d_senders x ->
    d_chans y = d_chans x -> d_workers y = <[i := (KRetrieve, st)]> (d_workers x) -> d_store y = s -> answers base known y).
  { intros Hnf y st Hb' Ht' Ho' Hs' Hc' Hw' Hst. assert (Hnk : known (ck_Key (do_chunk b)) -> False).
    { intros Hkn. destruct (Hfound Hkn) as (c & -> & _). by destruct (Hnf c). }
    destruct (unserved_worker x i _ (KRetrieve, st) Hi) as (rest & Hp & Hp'). specialize (Hp' y Hs' Hc' Hw'). cbn [snd] in Hp, Hp'. rewrite Ht' in Hp'.
    destruct Ha as [Hh Hob Hwt]. split.
    - rewrite Hst. eauto.
    - rewrite Ho'. intros o' b' Hb2 Hle HC' Hkn. destruct (Hob o' b' Hb2 Hle HC' Hkn) as [Hin|]; [left|by right]. rewrite Hp in Hin. rewrite Hp'.
      apply elem_of_app in Hin as [->%list_elem_of_singleton|]; [|done]. simplify_eq.
    - rewrite Ho', Hw'. intros j kd ch' o' c' r b' Hj Hb2 Hle Hkn. destruct (decide (i = j)) as [->|Hij].
      + apply list_lookup_insert_Some in Hj as [(_ & Ej & _)|[? _]]; [|done]. injection Ej as <- ->. cbn in Hb'. injection Hb' as ->. simplify_eq. by apply Hnk.
      + rewrite list_lookup_insert_ne in Hj by done. by eapply Hwt. }
  destruct f as [c| |c r]; intros [= <-].
  - eapply (answers_fill base known n x _ i (KRetrieve, WWork ch o) o c (WFinish ch o)); try done.
    intros b' Hb' _ Hkn. simplify_eq. destruct (Hfound Hkn) as (c' & [= ->] & ?). done.
  - by apply (Hother ltac:(done) _ (WFinish ch o)).
  - by apply (Hother ltac:(done) _ (WWait ch o c r)).
Qed.

(** A chunk is stored or released: nothing changes for requests. *)
Lemma answers_store base known n x y i st ch o :
  dpa_inv n x -> answers base known x -> d_workers x !! i = Some (KStore, st) -> busy st = [o] ->
  d_objs y = d_objs x -> d_senders y = d_senders x -> d_chans y = d_chans x ->
  (exists st', d_workers y = <[i := (KStore, st')]> (d_workers x) /\ (st' = WFinish ch o \/ st' = WSelect ch)) ->
  (forall k, cs_holds (d_store x) k -> cs_holds (d_store y) k) -> answers base known y.
Proof using Type.
  intros Hinv Ha Hi Hb Ho Hs Hc (st' & Hw & Hst') Hmono. destruct (worker_at _ _ _ _ Hinv Hi) as (_ & Hat & _). cbn in Hat. rewrite Hb in Hat.
  inversion_clear Hat as [|? ? (b & Hbo & _ & HC & _) _].
  destruct (unserved_worker x i _ (KStore, st') Hi) as (rest & Hp & Hp'). specialize (Hp' y Hs Hc Hw). cbn [snd] in Hp, Hp'.
  eapply answers_same; [exact Ha|done|done| |].
  - intros o' Hin. rewrite Hp in Hin. rewrite Hp'. apply elem_of_app in Hin as [Hin|]; [right|left; apply elem_of_app; by right].
    assert (o' = o) as -> by (destruct st; cbn in Hb, Hin; try (by apply not_elem_of_nil in Hin); apply list_elem_of_singleton in Hin; congruence). eauto.
  - intros j kd ch' o' c r Hj. rewrite Hw in Hj. eapply insert_wait; [exact Hj|]. by destruct Hst' as [-> | ->].
Qed.

Lemma answers_close base known x x' i ch o :
  answers base known x -> d_workers x !! i = Some (KRetrieve, WFinish ch o) -> close_chunk x o = Ret x' ->
  answers base known (set_worker x' i (KRetrieve, WSelect ch)).
Proof using Type.
  intros Ha Hi. unfold close_chunk. destruct (d_objs x !! o) as [b|] eqn:Hbo; [|done]. cbn.
  destruct (do_C b) as [[|]|] eqn:HC; intros [= <-]. set (y := set_worker _ _ _).
  destruct (unserved_worker x i _ (KRetrieve, WSelect ch) Hi) as (rest & Hp & Hp'). specialize (Hp' y eq_refl eq_refl eq_refl). cbn [snd todo app] in Hp, Hp'.
  assert (Hobj : forall o' b', d_objs y !! o' = Some b' -> exists b0, d_objs x !! o' = Some b0 /\ (do_C b' <> None -> do_C b0 <> None) /\ do_chunk b0 = do_chunk b').
  { intros o' b' Hb'. subst y. cbn in Hb'. apply list_lookup_insert_Some in Hb' as [(-> & <- & _)|[_ Hb']]; [|by eauto].
    exists b. split_and!; try done. by rewrite HC. }
  eapply answers_quiet; [exact Ha|done| |].
  - intros o' b' Hb' Hle HC'. destruct (Hobj _ _ Hb') as (b0 & Hb0 & HC0 & E). left. exists b0. split_and!; auto. by rewrite Hp, Hp'.
  - intros j kd ch' o' c r Hj. split; [exact (insert_wait _ _ _ _ _ _ _ _ _ _ Hj ltac:(done))|]. intros b' Hb'. destruct (Hobj _ _ Hb') as (b0 & ? & _ & ?). eauto.
Qed.

Lemma answers_emit base known n x ch b : dpa_inv n x -> answers base known x -> answers base known (emit_obj x ch b).
Proof using Type.
  intros Hinv Ha. assert (Hu : forall o, o ∈ unserved (emit_obj x ch b) <-> o = length (d_objs x) \/ o ∈ unserved x).
  { intros o. unfold unserved. by rewrite places_emit, elem_of_cons. }
  eapply answers_quiet; [exact Ha|done| |].
  - intros o b' Hb' Hle HC. cbn in Hb'. apply lookup_app_Some in Hb' as [Hb'|[Hl Hb']].
    + left. exists b'. split_and!; try done. intros Hin. apply Hu. by right.
    + right. apply list_lookup_singleton_Some in Hb' as [Ho _]. apply Hu. left. lia.
  - intros i kd ch' o c r Hi. split; [done|]. intros b' Hb'. cbn in Hb'. apply lookup_app_Some in Hb' as [Hb'|[Hl Hb']]; [by eauto|].
    destruct (worker_at _ _ _ _ Hinv Hi) as (_ & Hat & _). cbn in Hat. inversion_clear Hat as [|? ? (b0 & Hb0%lookup_lt_Some & _) _]. lia.
Qed.

Lemma answers_step base known n x l x' :
  dpa_inv (cost l + n) x -> label_ok x l -> dpa_step x l x' -> answers base known x -> answers base known x'.
Proof using Type.
  intros Hinv Hl Hst Ha. destruct Hst as [l x' E|s Hbg].
  2:{ destruct (cs_bg_law content _ _ _ (ac_ok _ _ (di_acc _ _ Hinv)) Hbg) as [_ Hmono]. eapply answers_same; eauto. }
  destruct l as [| |ch c g|ch k|j|i timer|]; cbn in E; simplify_eq/=.
  - eapply answers_same; [exact Ha|by unfold Start; destruct (d_running x)|by unfold Start; destruct (d_running x)| |].
    + intros o Hin. left. unfold unserved. by rewrite places_start.
    + intros i kd ch o c r. unfold Start. destruct (d_running x); [done|]. cbn [d_workers]. intros [Hi|[_ Hi]]%lookup_app_Some; [done|].
      apply list_elem_of_lookup_2, elem_of_app in Hi as [Hi|Hi]; by apply elem_of_replicate in Hi as [? _].
  - unfold Stop in E. destruct (d_running x); [|by injection E as <-]. destruct (d_quitC x) as [q|]; [|done]. cbn in E.
    destruct (d_quits x !! q) as [[|]|]; simplify_eq. eapply answers_same; [exact Ha|done|done|by left|done].
  - unfold Store_chunk. destruct ch; [by eapply answers_emit|done].
  - by eapply answers_emit.
  - unfold sender_step in E. destruct (d_senders x !! j) as [[[ch|] o]|] eqn:Ej; try done.
    destruct (d_chans x !! ch) as [[kd q]|] eqn:Ech; [|done]. destruct (_ <? _); [|done]. injection E as <-.
    eapply answers_same; [exact Ha|done|done| |done]. intros o' Hin. left. unfold unserved. by rewrite (places_send _ _ _ _ _ _ _ Ej Ech).
  - unfold worker_step in E. destruct (d_workers x !! i) as [[kd st]|] eqn:Ei; [|done].
    destruct st as [|[ch|]|ch o|ch o c r|ch o|ch|]; try done.
    + injection E as <-. by apply (answers_worker base known x i (kd, WSpawned)).
    + destruct (d_chans x !! ch) as [[ck [|o q]]|] eqn:Ech; try done. injection E as <-. eapply answers_same; [exact Ha|done|done| |].
      * intros o' Hin. left. unfold unserved. by rewrite (places_take _ _ _ _ _ _ _ _ Ei Ech).
      * intros j kd' ch' o' c r Hj. exact (insert_wait _ _ _ _ _ _ _ _ _ _ Hj ltac:(done)).
    + destruct kd; [|by eapply answers_get].
      destruct (inv_put _ x i ch o Hinv Ei) as (x1 & E1 & Hx1 & Hx2 & Hx3 & _). rewrite E1 in E. injection E as <-.
      revert E1. unfold worker_op. destruct (d_objs x !! o) as [b|] eqn:Hb; [|done]. cbn. destruct (cs_Put _ _ _) as [s| |] eqn:Es; try done. intros [= <-].
      eapply answers_store; eauto; try done. 
      destruct (worker_obj _ _ _ _ _ _ Hinv Ei eq_refl) as (b' & Hb' & Hg & HC & Hcont & Hd & Hr). assert (b' = b) as -> by congruence.
      destruct (room_one _ _ _ _ _ _ Hinv Ei) as [m Hm].
      destruct (cs_Put_law content (d_store x) m (do_chunk b) (do_wg b)) as (s' & E' & _ & _ & Hmono); try done. rewrite Es in E'. by injection E' as <-.
    + destruct (worker_at _ _ _ _ Hinv Ei) as (_ & _ & Hw). destruct kd; [done|].
      destruct (cs_wait _ _ _ _) as [[f|]| |]; try done; cbn in E; injection E as <-.
      * eapply (answers_fill base known _ x _ i (KRetrieve, WWait ch o c r) o f (WFinish ch o)); try done.
        intros b Hb Hle Hk. by destruct (an_wait _ _ _ Ha _ _ _ _ _ _ _ Ei Hb Hle Hk).
      * by apply (answers_worker base known x i (KRetrieve, WWait ch o c r)).
    + destruct kd.
      * destruct (inv_release _ x i ch o Hinv Ei) as (x1 & E1 & Hx1 & Hx2 & Hx3 & _). rewrite E1 in E. injection E as <-.
        assert (d_objs x1 = d_objs x /\ d_store x1 = d_store x) as [Ho1 Hs1].
        { revert E1. unfold release_chunk. destruct (d_objs x !! o) as [b|]; [|done]. cbn. destruct (do_wg b); [destruct (_ <=? _); [done|]|]; by intros [= <-]. }
        eapply (answers_store base known _ x _ i (WFinish ch o) ch o); eauto; cbn; [|by rewrite Hs1]. rewrite Hx1. eauto.
      * destruct (close_chunk x o) as [x1| |] eqn:E1; try done. injection E as <-. by eapply answers_close.
    + injection E as <-. apply (answers_worker base known x i (kd, WSelect ch)); try done; by destruct (quit_closed x).
Qed.

(** What a step does to the chunk store. *)
Lemma step_store x l x' : dpa_step x l x' ->
  d_store x' = d_store x \/ (exists c (g : option nat), cs_Put (d_store x) c g = Ret (d_store x')) \/ (exists (k : Key) (r : getres), cs_Get (d_store x) k = Ret (r, d_store x')) \/
  cs_bg (d_store x) (d_store x').
Proof using Type.
  intros [l0 x0 E|s Hs]; [|by do 3 right]. destruct l0 as [| |ch c g|ch key|j|i timer|]; cbn in E.
  - injection E as <-. left. unfold Start. by destruct (d_running x).
  - left. unfold Stop in E. destruct (d_running x); [|by injection E as <-]. destruct (d_quitC x) as [q|]; [|done]. cbn in E. by destruct (d_quits x !! q) as [[|]|]; simplify_eq.
  - injection E as <-. left. by destruct ch.
  - injection E as <-. by left.
  - left. unfold sender_step in E. destruct (d_senders x !! j) as [[[ch|] o']|]; try done.
    destruct (d_chans x !! ch) as [[kd q]|]; [|done]. destruct (_ <? _); [|done]. by injection E as <-.
  - unfold worker_step in E. destruct (d_workers x !! i) as [[kd st]|]; [|done].
    destruct st as [|[ch|]|ch o|ch o c r|ch o|ch|]; try done; [left; by injection E as <-|left| |left|left|left; by injection E as <-].
    + destruct (d_chans x !! ch) as [[ck [|o q]]|]; try done. by injection E as <-.
    + right. unfold worker_op in E. destruct (d_objs x !! o) as [b|]; [|done]. cbn in E. destruct kd.
      * destruct (cs_Put _ _ _) as [s| |] eqn:Ep; try done. injection E as <-. left. eauto.
      * destruct (cs_Get _ _) as [[f s]| |] eqn:Eg; try done. right. left. destruct f; injection E as <-; eauto.
    + destruct (cs_wait _ _ _ _) as [[f|]| |]; try done; by injection E as <-.
    + destruct kd; [unfold release_chunk in E|unfold close_chunk in E]; destruct (d_objs x !! o) as [b|]; try done; cbn in E.
      * destruct (do_wg b); [destruct (_ <=? _); [done|]|]; by injection E as <-.
      * destruct (do_C b) as [[|]|]; try done. by injection E as <-.
  - done.
Qed.

(** ** Histories of a document API *)

(** A run in which clients keep to their channels. *)
Inductive client_run : DPA CS -> list label -> DPA CS -> Prop :=
| crun_nil x : client_run x [] x
| crun_cons x l x1 ls x2 : label_ok x l -> dpa_step x l x1 -> client_run x1 ls x2 -> client_run x (l :: ls) x2.

Definition costs (ls : list label) : nat := sum_list_with cost ls.

(** The chunks that were given to the wait group [g]. *)
Definition stored_by g (ls : list label) : list Chunk :=
  omap (fun l => match l with
                 | LStore (Some _) c (Some h) => if decide (h = g) then Some c else None
                 | _ => None
                 end) ls.

Lemma run_inv n x ls x' : client_run x ls x' -> dpa_inv (costs ls + n) x -> dpa_inv n x'.
Proof using Type.
  induction 1 as [|x l x1 ls x2 Hl Hst _ IH]; intros Hinv; [done|]. apply IH. eapply inv_step; eauto.
  eapply inv_room; [exact Hinv|]. unfold costs. cbn. lia.
Qed.

Lemma run_answers base known n x ls x' :
  client_run x ls x' -> dpa_inv (costs ls + n) x -> answers base known x -> answers base known x'.
Proof using Type.
  induction 1 as [|x l x1 ls x2 Hl Hst _ IH]; intros Hinv Ha; [done|].
  assert (Hi : dpa_inv (cost l + (costs ls + n)) x) by (eapply inv_room; [exact Hinv|]; unfold costs; cbn; lia).
  apply IH; [by eapply inv_step|by eapply answers_step].
Qed.

(** Chunks to store are never changed. *)
Lemma step_keeps n x l x' o b :
  dpa_inv n x -> dpa_step x l x' -> d_objs x !! o = Some b -> do_C b = None -> d_objs x' !! o = Some b.
Proof using Type.
  intros Hinv Hst Hb HC. destruct Hst as [l x' E|s Hbg]; [|done].
  assert (Hfill : forall st i o' c, d_workers x !! i = Some (KRetrieve, st) -> busy st = [o'] -> d_objs (fill_chunk x o' c) !! o = Some b).
  { intros st i o' c Hi Hbusy. destruct (worker_obj _ _ _ _ _ _ Hinv Hi Hbusy) as (b' & Hb' & _ & HC' & _). cbn.
    rewrite list_lookup_alter_ne; [done|]. intros ->. simplify_eq. }
  destruct l as [| |ch c g|ch k|j|i timer|]; cbn in E; simplify_eq/=.
  - unfold Start. by destruct (d_running x).
  - unfold Stop in E. destruct (d_running x); [|by injection E as <-]. destruct (d_quitC x) as [q|]; [|done]. cbn in E.
    by destruct (d_quits x !! q) as [[|]|]; simplify_eq.
  - unfold Store_chunk. destruct ch; [|done]. cbn. by apply lookup_app_l_Some.
  - by apply lookup_app_l_Some.
  - unfold sender_step in E. destruct (d_senders x !! j) as [[[ch|] o']|]; try done.
    destruct (d_chans x !! ch) as [[kd q]|]; [|done]. destruct (_ <? _); [|done]. by injection E as <-.
  - unfold worker_step in E. destruct (d_workers x !! i) as [[kd st]|] eqn:Ei; [|done].
    destruct st as [|[ch|]|ch o'|ch o' c r|ch o'|ch|]; try done; [by injection E as <-| | | | |by injection E as <-].
    + destruct (d_chans x !! ch) as [[ck [|o' q]]|]; try done. by injection E as <-.
    + unfold worker_op in E. destruct (d_objs x !! o') as [b'|]; [|done]. cbn in E. destruct kd.
      * destruct (cs_Put _ _ _); try done. by injection E as <-.
      * destruct (cs_Get _ _) as [[f s]| |]; try done. destruct f as [c| |c r]; injection E as <-; try done. by eapply Hfill.
    + destruct (worker_at _ _ _ _ Hinv Ei) as (_ & _ & Hw). destruct kd; [done|].
      destruct (cs_wait _ _ _ _) as [[f|]| |]; try done; injection E as <-; [|done]. by eapply Hfill.
    + destruct kd.
      * unfold release_chunk in E. destruct (d_objs x !! o') as [b'|]; [|done]. cbn in E.
        destruct (do_wg b'); [destruct (_ <=? _); [done|]|]; by injection E as <-.
      * unfold close_chunk in E. destruct (worker_obj _ _ _ _ _ _ Hinv Ei eq_refl) as (b' & Hb' & _ & HC' & _). rewrite Hb' in E. cbn in E.
        rewrite HC' in E. injection E as <-. cbn. rewrite list_lookup_insert_ne; [done|]. intros ->. simplify_eq.
Qed.

Lemma run_keeps n x ls x' o b :
  client_run x ls x' -> dpa_inv (costs ls + n) x -> d_objs x !! o = Some b -> do_C b = None -> d_objs x' !! o = Some b.
Proof using Type.
  induction 1 as [|x l x1 ls x2 Hl Hst _ IH]; intros Hinv Hb HC; [done|].
  assert (Hi : dpa_inv (cost l + (costs ls + n)) x) by (eapply inv_room; [exact Hinv|]; unfold costs; cbn; lia).
  apply IH; [by eapply inv_step|by eapply step_keeps|done].
Qed.

Lemma run_emitted n x ls x' g c :
  client_run x ls x' -> dpa_inv (costs ls + n) x -> c ∈ stored_by g ls ->
  exists o b, d_objs x' !! o = Some b /\ do_chunk b = c /\ do_C b = None /\ do_wg b = Some g.
Proof using Type.
  induction 1 as [|x l x1 ls x2 Hl Hst Hrun IH]; intros Hinv Hin; [by apply not_elem_of_nil in Hin|].
  assert (Hi : dpa_inv (cost l + (costs ls + n)) x) by (eapply inv_room; [exact Hinv|]; unfold costs; cbn; lia).
  pose proof (inv_step _ _ _ _ Hi Hl Hst) as Hi1. apply list_elem_of_omap in Hin as (l' & [->|Hl']%elem_of_cons & E).
  - destruct l as [| |[ch|] c' [h|]| | | |]; try done. case_decide; simplify_eq. inversion_clear Hst as [? ? E|]. cbn in E. injection E as <-.
    exists (length (d_objs x)), {| do_chunk := c; do_C := None; do_wg := Some g |}. split_and!; try done.
    eapply run_keeps; eauto. cbn. by rewrite lookup_app_r, Nat.sub_diag.
  - apply IH; [done|]. apply list_elem_of_omap. eauto.
Qed.

(** A wait group at zero: its chunks are stored. *)
Lemma wait_group_done n x ls x' g :
  client_run x ls x' -> dpa_inv (costs ls + n) x -> wg_count x' g = 0 -> Forall (fun c => cs_holds (d_store x') (ck_Key c)) (stored_by g ls).
Proof using Type.
  intros Hrun Hinv Hg. pose proof (run_inv _ _ _ _ Hrun Hinv) as Hinv'. apply Forall_forall. intros c Hin.
  destruct (run_emitted _ _ _ _ _ _ Hrun Hinv Hin) as (o & b & Hb & <- & HC & Hw). apply (ac_done _ _ (di_acc _ _ Hinv') o b Hb HC).
  intros Hp. pose proof (ac_wg _ _ (di_acc _ _ Hinv') g) as Hc. rewrite Hg in Hc.
  assert (Hf : o ∈ filter (fun o => wg_of (d_objs x') o = Some g) (pending x')).
  { apply list_elem_of_filter. split; [|done]. unfold wg_of. by rewrite Hb. }
  destruct (filter _ _) eqn:Ef; [by apply not_elem_of_nil in Hf|]. cbn in Hc. lia.
Qed.

Lemma new_dpa_inv s n : cs_ok content s n -> dpa_inv n (NewDPA s).
Proof using Type.
  intros Hok. split; [|by constructor|by constructor|by constructor|by intros []].
  split; cbn; [done|by constructor|done|]. intros o b Hb. by rewrite lookup_nil in Hb.
Qed.

(** Requests that were closed are not pending. *)
Lemma closed_not_unserved n x o b : dpa_inv n x -> d_objs x !! o = Some b -> do_C b = Some Closed -> o ∉ unserved x.
Proof using Type.
  intros [_ Hs Hc Hw _] Hb HC Hin. assert (Hno : forall kd, ~ obj_at (d_objs x) kd o).
  { intros kd (b' & Hb' & _ & Hk). simplify_eq. destruct kd; destruct Hk; congruence. }
  unfold unserved, places in Hin. rewrite !elem_of_app in Hin. destruct Hin as [Hin|[Hin|Hin]].
  - apply list_elem_of_fmap in Hin as ([ch o'] & -> & Hin). rewrite Forall_forall in Hs. specialize (Hs _ Hin). unfold sender_ok in Hs. cbn in Hs.
    destruct ch as [ch|]; [destruct Hs as (kd & _ & Hs)|]; by apply Hno in Hs.
  - apply list_elem_of_In, in_concat in Hin as (q & Hq%list_elem_of_In & Hoq%list_elem_of_In). apply list_elem_of_fmap in Hq as ([kd q'] & -> & Hq).
    rewrite Forall_forall in Hc. specialize (Hc _ Hq). cbn in Hc. rewrite Forall_forall in Hc. by apply (Hno kd), Hc.
  - apply list_elem_of_In, in_concat in Hin as (q & Hq%list_elem_of_In & Hoq%list_elem_of_In). apply list_elem_of_fmap in Hq as ([kd st] & -> & Hq).
    rewrite Forall_forall in Hw. destruct (Hw _ Hq) as (_ & Hat & _). cbn in Hat, Hoq. rewrite Forall_forall in Hat. apply (Hno kd), Hat.
    destruct st; cbn in Hoq |- *; try done. all: by apply not_elem_of_nil in Hoq.
Qed.
End Inv.
