(* ===== verification/DpaProps.v ===== *)
(** Properties of the document API ([Dpa]): what was stored is read again, the workers empty the
    queues, and a stop strands what they had not taken. *)
From stdpp Require Import base gmap list strings.
From Stdlib Require Import ZArith Lia.
From S2P Require Import Prelude Types Chunker Database DbStore Dpa DpaInv.

(** ** Storing and reading *)

Section Read.
Context {CS : Type} `{ChunkStore CS, HL : !ChunkStoreLaws CS} (contents : Key -> option (bytes * Z)).
Implicit Types (x : DPA CS) (o i j g n : nat).

(** What a request that is served in the given state is answered with. *)
Definition fetch_of (s : CS) (k : Key) : option (bytes * Z) :=
  match cs_Get s k with Ret (GFound c, _) => Some (answer c) | _ => None end.

Lemma fetch_held n s k : cs_ok contents s (1 + n) -> cs_good k -> cs_holds s k -> fetch_of s k = contents k.
Proof using Type.
  intros Hok Hg Hh. destruct (cs_Get_law contents s n k Hok Hg Hh) as (c & s' & E & Hc). unfold fetch_of. by rewrite E, Hc.
Qed.

Lemma run_chunks_ok x ls x' g :
  client_run contents x ls x' -> Forall (fun c => cs_good (ck_Key c) /\ contents (ck_Key c) = Some (answer c)) (stored_by g ls).
Proof using Type.
  induction 1 as [|x l x1 ls x2 Hl _ _ IH]; [constructor|]. cbn. destruct l as [| |[ch|] c [h|]| | | |]; try done.
  case_decide; [|done]. constructor; [|done]. by destruct Hl as (_ & ? & ? & _).
Qed.

(** Once a wait group is done, the store answers for the chunks that were stored with it, whatever happens later, and
    so do the workers. *)
Lemma stored_fetched s n ls1 x1 ls2 x2 g chunks :
  cs_ok contents s n -> (costs ls1 + costs ls2 < n)%nat ->
  client_run contents (NewDPA s) ls1 x1 -> stored_by g ls1 ≡ₚ chunks -> wg_count x1 g = 0 ->
  client_run contents x1 ls2 x2 ->
  stores (fetch_of (d_store x2)) chunks /\
  (forall o ob, d_objs x2 !! o = Some ob -> (length (d_objs x1) <= o)%nat -> do_C ob = Some Closed ->
     ck_Key (do_chunk ob) ∈ ck_Key <$> chunks -> fetch_of (d_store x2) (ck_Key (do_chunk ob)) = Some (answer (do_chunk ob))).
Proof using Type.
  intros Hs Hn Hrun1 Hst Hwg Hrun2. assert (Hinv1 : dpa_inv contents (costs ls2 + 1) x1).
  { eapply run_inv; [exact Hrun1|]. eapply inv_room; [by apply new_dpa_inv|lia]. }
  pose proof (wait_group_done contents (costs ls2 + 1) _ _ _ g Hrun1 ltac:(eapply inv_room; [by apply new_dpa_inv|lia]) Hwg) as Hheld.
  pose proof (run_chunks_ok _ _ _ g Hrun1) as Hch. rewrite Hst in Hheld, Hch.
  assert (Ha : answers contents (length (d_objs x1)) (fun k => k ∈ ck_Key <$> chunks) x1).
  { split.
    - intros k (c & -> & Hin)%list_elem_of_fmap. rewrite Forall_forall in Hheld. by apply Hheld.
    - intros o b Hb%lookup_lt_Some Ho. lia.
    - intros i kd ch o c r b _ Hb%lookup_lt_Some Ho. lia. }
  pose proof (run_inv contents 1 _ _ _ Hrun2 Hinv1) as Hinv2. pose proof (run_answers contents _ _ 1 _ _ _ Hrun2 Hinv1 Ha) as [Hh2 Ho2 _].
  assert (Hfetch : forall k, k ∈ ck_Key <$> chunks -> fetch_of (d_store x2) k = contents k).
  { intros k Hk. eapply (fetch_held 0); [eapply cs_ok_weaken; [|apply Hinv2]; lia| |by apply Hh2].
    apply list_elem_of_fmap in Hk as (c & -> & Hin). rewrite Forall_forall in Hch. by apply Hch. }
  split.
  - apply Forall_forall. intros c Hin. rewrite Hfetch by (by apply list_elem_of_fmap_2). rewrite Forall_forall in Hch. by apply Hch.
  - intros o ob Hob Hbase HC Hk. rewrite Hfetch by done. destruct (Ho2 o ob Hob Hbase) as [Hin|]; [by rewrite HC|done| |done].
    by destruct (closed_not_unserved contents _ _ _ _ Hinv2 Hob HC).
Qed.

(** A document stored through the API is read again: once the wait group of a [Store] is done, every
    range of the document is read back from the store, and every request for a chunk of it that is answered later, by
    whatever worker and among whatever other activity (further documents, stops and restarts, the store's own
    steps), is answered with that chunk, as long as there is room in the store for what is asked of it. *)
Lemma store_then_read tc rd data :
  chunker_ok tc -> #data * branches tc < 2 ^ 63 -> data `prefix_of` content rd ->
  exists key rd' chunks,
    Split tc depth_fuel rd (#data) (Some []) = Some (Ok (key, rd', Some chunks)) /\
    forall s n ls1 x1 ls2 x2 g,
      cs_ok contents s n -> (costs ls1 + costs ls2 < n)%nat ->
      client_run contents (NewDPA s) ls1 x1 -> stored_by g ls1 ≡ₚ chunks -> wg_count x1 g = 0 ->
      client_run contents x1 ls2 x2 ->
      (forall b off, 0 <= off -> 0 < #b -> off + #b <= #data ->
         exists r', ReadAt tc (fetch_of (d_store x2)) depth_fuel (Join key) b off
                    = Some (Ok (range data off (off + #b), #b, #data <=? off + #b, r'))) /\
      (forall o ob, d_objs x2 !! o = Some ob -> (length (d_objs x1) <= o)%nat -> do_C ob = Some Closed ->
         ck_Key (do_chunk ob) ∈ ck_Key <$> chunks -> fetch_of (d_store x2) (ck_Key (do_chunk ob)) = Some (answer (do_chunk ob))).
Proof using Type.
  intros Hok Hsz Hpfx. destruct (Split_tree tc rd data Hok Hsz Hpfx) as (d & rd' & Hg & Hle & HS).
  eexists _, rd', _. split; [exact HS|]. set (chunks := snd (tree _ _ _ _)).
  intros s n ls1 x1 ls2 x2 g Hs Hn Hrun1 Hst Hwg Hrun2. destruct (stored_fetched s n ls1 x1 ls2 x2 g chunks) as [Hf Ho]; try done.
  split; [|exact Ho]. intros b off Hoff Hb Hend. by apply ReadAt_tree.
Qed.
End Read.

(** ** Work *)

Section Work.
Context {CS : Type} `{ChunkStore CS}.
Implicit Types (x : DPA CS) (o i j g n : nat).

(** The steps of goroutines of the API and of waiting senders. *)
Definition internal (l : label) : Prop := match l with LSend _ | LWork _ _ => True | _ => False end.

(** How many steps a worker can make before it ranges again. *)
Definition rank (st : wstate) : nat :=
  match st with WSpawned | WSelect _ => 1 | WWork _ _ => 4 | WWait _ _ _ _ => 3 | WFinish _ _ => 2 | WRange _ | WReturned => 0 end.

Definition work x : nat :=
  6 * length (d_senders x) + 5 * length (concat (d_chans x).*2) + sum_list_with (fun w => rank w.2) (d_workers x).

Lemma sum_update {A} (f : A -> nat) (l : list A) i a :
  l !! i = Some a -> exists r, sum_list_with f l = (f a + r)%nat /\ forall b, sum_list_with f (<[i := b]> l) = (f b + r)%nat.
Proof using Type.
  intros Hi. exists (sum_list_with f (take i l) + sum_list_with f (drop (S i) l))%nat. split.
  - rewrite <- (take_drop_middle l i a Hi) at 1. rewrite sum_list_with_app. cbn. lia.
  - intros b. rewrite insert_take_drop by (by eapply lookup_lt_Some). rewrite sum_list_with_app. cbn. lia.
Qed.

(** A worker that changes its state. *)
Lemma work_set x y i w st :
  d_workers x !! i = Some w -> d_senders y = d_senders x -> d_chans y = d_chans x -> d_workers y = <[i := (w.1, st)]> (d_workers x) ->
  (rank st < rank w.2)%nat -> (work y < work x)%nat.
Proof using Type.
  intros Hi Hs Hc Hw Hr. unfold work. rewrite Hs, Hc, Hw. destruct (sum_update (fun w => rank w.2) _ _ _ Hi) as (r & -> & ->). cbn. lia.
Qed.

Lemma internal_works x l x' : internal l -> dpa_step x l x' -> (work x' < work x)%nat.
Proof using Type.
  intros Hl Hst. destruct Hst as [l x' E|]; [|done]. destruct l as [| | | |j|i timer|]; try done; cbn in E.
  - unfold sender_step in E. destruct (d_senders x !! j) as [[[ch|] o]|] eqn:Ej; try done.
    destruct (d_chans x !! ch) as [[kd q]|] eqn:Ech; [|done]. destruct (_ <? _); [|done]. injection E as <-.
    destruct (queue_update _ _ _ _ Ech) as (r & Hr & Hr'). unfold work. cbn. rewrite Hr, Hr', !length_app.
    pose proof (delete_Permutation _ _ _ Ej) as Hd. apply Permutation_length in Hd. cbn in Hd |- *. lia.
  - unfold worker_step in E. destruct (d_workers x !! i) as [[kd st]|] eqn:Ei; [|done].
    destruct st as [|[ch|]|ch o|ch o c r|ch o|ch|]; try done.
    + injection E as <-. eapply work_set; eauto; try done; cbn; lia.
    + destruct (d_chans x !! ch) as [[ck [|o q]]|] eqn:Ech; try done. injection E as <-.
      destruct (queue_update _ _ _ _ Ech) as (r & Hr & Hr'). unfold work. cbn. rewrite Hr, Hr', !length_app. cbn.
      destruct (sum_update (fun w => rank w.2) _ _ _ Ei) as (r' & -> & ->). cbn. lia.
    + unfold worker_op in E. destruct (d_objs x !! o); [|done]. cbn in E. destruct kd.
      * destruct (cs_Put _ _ _); try done. injection E as <-. eapply work_set; eauto; try done; cbn; lia.
      * destruct (cs_Get _ _) as [[[| |] s]| |]; try done; injection E as <-; eapply work_set; eauto; try done; cbn; lia.
    + destruct (cs_wait _ _ _ _) as [[f|]| |]; try done; injection E as <-; eapply work_set; eauto; try done; cbn; lia.
    + destruct kd.
      * unfold release_chunk in E. destruct (d_objs x !! o) as [b|]; [|done]. cbn in E.
        destruct (do_wg b); [destruct (_ <=? _); [done|]|]; injection E as <-; eapply work_set; eauto; try done; cbn; lia.
      * unfold close_chunk in E. destruct (d_objs x !! o) as [b|]; [|done]. cbn in E.
        destruct (do_C b) as [[|]|]; try done. injection E as <-. eapply work_set; eauto; try done; cbn; lia.
    + injection E as <-. eapply work_set; eauto; try done. destruct (quit_closed x); cbn; lia.
Qed.
End Work.

(** ** The queues are emptied *)

Section Drain.
Context {CS : Type} `{ChunkStore CS, HL : !ChunkStoreLaws CS} (contents : Key -> option (bytes * Z)).
Implicit Types (x : DPA CS) (o i j g n : nat).

(** An API that was started once and not stopped. *)
Record alive x : Prop := {
  al_running : d_running x = true;
  al_open : quit_closed x = false;
  al_chans : d_storeC x = Some 1%nat /\ (d_chans x).*1 = [KRetrieve; KStore];
  al_worker : exists st, d_workers x !! 0%nat = Some (KStore, st) /\ (st = WSpawned \/ range_chan st = Some 1%nat)
}.

Lemma kinds_insert (cs : list (kind * list nat)) ch kd q q' : cs !! ch = Some (kd, q) -> (<[ch := (kd, q')]> cs).*1 = cs.*1.
Proof using Type.
  intros Hch. rewrite list_fmap_insert. apply list_insert_id. by rewrite list_lookup_fmap, Hch.
Qed.

(** A step of a worker keeps the API alive. *)
Lemma alive_worker x y i w st :
  alive x -> d_workers x !! i = Some w -> d_running y = d_running x -> d_quitC y = d_quitC x -> d_quits y = d_quits x ->
  d_storeC y = d_storeC x -> (d_chans y).*1 = (d_chans x).*1 -> d_workers y = <[i := (w.1, st)]> (d_workers x) ->
  (w.2 = WSpawned /\ st = WRange (worker_chan x w.1) \/ w.2 <> WSpawned /\ range_chan st = range_chan w.2) -> alive y.
Proof using Type.
  intros [Hr Ho Hc (st0 & Hw & Hst)] Hi Er Eq Eqs Es Ec Ew Hnext. split.
  - congruence.
  - revert Ho. unfold quit_closed. by rewrite Eq, Eqs.
  - by rewrite Es, Ec.
  - rewrite Ew. destruct (decide (i = 0%nat)) as [->|Hne]; [|exists st0; by rewrite list_lookup_insert_ne].
    rewrite list_lookup_insert_eq by (by eapply lookup_lt_Some). rewrite Hw in Hi. injection Hi as <-. cbn in *. eexists. split; [done|].
    destruct Hnext as [[-> ->]|[Hn ->]]; right; [cbn; apply Hc|]. by destruct Hst.
Qed.

Lemma alive_step x l x' : l <> LStop -> dpa_step x l x' -> alive x -> alive x'.
Proof using Type.
  intros Hl Hst Ha. destruct Hst as [l x' E|s Hbg]; [|by destruct Ha].
  destruct l as [| |ch c g|ch k|j|i timer|]; cbn in E; simplify_eq/=.
  - unfold Start. by rewrite (al_running _ Ha).
  - unfold Store_chunk. destruct ch; [|done]. by destruct Ha.
  - by destruct Ha.
  - unfold sender_step in E. destruct (d_senders x !! j) as [[[ch|] o]|]; try done.
    destruct (d_chans x !! ch) as [[kd q]|] eqn:Ech; [|done]. destruct (_ <? _); [|done]. injection E as <-.
    destruct Ha as [Hr Ho [Hc Hk] Hw]. split; try done. cbn. by rewrite (kinds_insert _ _ _ _ _ Ech).
  - unfold worker_step in E. destruct (d_workers x !! i) as [[kd st]|] eqn:Ei; [|done].
    destruct st as [|[ch|]|ch o|ch o c r|ch o|ch|]; try done.
    + injection E as <-. eapply alive_worker; eauto.
    + destruct (d_chans x !! ch) as [[ck [|o q]]|] eqn:Ech; try done. injection E as <-. eapply alive_worker; eauto; try done;
        first [by right|cbn; by rewrite (kinds_insert _ _ _ _ _ Ech)].
    + unfold worker_op in E. destruct (d_objs x !! o); [|done]. cbn in E. destruct kd.
      * destruct (cs_Put _ _ _); try done. injection E as <-. eapply alive_worker; eauto; try done; by right.
      * destruct (cs_Get _ _) as [[[| |] s]| |]; try done; injection E as <-; eapply alive_worker; eauto; try done; by right.
    + destruct (cs_wait _ _ _ _) as [[f|]| |]; try done; injection E as <-; eapply alive_worker; eauto; try done; by right.
    + destruct kd.
      * unfold release_chunk in E. destruct (d_objs x !! o) as [b|]; [|done]. cbn in E.
        destruct (do_wg b); [destruct (_ <=? _); [done|]|]; injection E as <-; eapply alive_worker; eauto; try done; by right.
      * unfold close_chunk in E. destruct (d_objs x !! o) as [b|]; [|done]. cbn in E.
        destruct (do_C b) as [[|]|]; try done. injection E as <-. eapply alive_worker; eauto; try done; by right.
    + injection E as <-. rewrite (al_open _ Ha). eapply alive_worker; eauto; try done; by right.
Qed.

(** The first worker can go on when there is a chunk on the channel. *)
Lemma first_worker_goes_on n x o q :
  dpa_inv contents n x -> alive x -> d_chans x !! 1%nat = Some (KStore, o :: q) -> exists x', worker_step x 0 false = Ret x'.
Proof using Type.
  intros Hinv Ha Hq. destruct (al_worker _ Ha) as (st & Hw & Hst). unfold worker_step. rewrite Hw.
  destruct st as [|ch|ch o'|ch o' c r|ch o'|ch|]; cbn in Hst; try (destruct Hst; simplify_eq); eauto.
  - rewrite Hq. eauto.
  - destruct (inv_put contents n x 0 _ _ Hinv Hw) as (x' & E & _). eauto.
  - by destruct (worker_at _ _ _ _ _ Hinv Hw) as (_ & _ & Hf).
  - destruct (inv_release contents n x 0 _ _ Hinv Hw) as (x' & -> & _). cbn. eauto.
Qed.

(** Nothing can move: no chunk of a wait group is on the way. *)
Lemma stuck_empty n x g :
  dpa_inv contents n x -> alive x -> (forall l x', internal l -> ~ dpa_step x l x') -> wg_count x g = 0.
Proof using Type.
  intros Hinv Ha Hstuck. pose proof (al_chans _ Ha) as [_ Hkinds].
  destruct (d_chans x) as [|[k0 q0] [|[k1 q] [|]]] eqn:Ecs; try done. cbn in Hkinds. injection Hkinds as -> ->.
  assert (Hq1 : d_chans x !! 1%nat = Some (KStore, q)) by (by rewrite Ecs).
  assert (Hworker : forall i t x', worker_step x i t = Ret x' -> False) by (intros i t x' E; by apply (Hstuck (LWork i t) x'); [|constructor]).
  assert (Hqe : q = []).
  { destruct q as [|o q]; [done|]. destruct (first_worker_goes_on n x o q Hinv Ha Hq1) as (x' & E). by apply Hworker in E. }
  assert (Hkind : forall ch, chan_kind x ch = Some KStore -> ch = 1%nat).
  { intros ch. unfold chan_kind. rewrite Ecs. by destruct ch as [|[|ch]]. }
  assert (Hno : Forall (fun o => forall b, d_objs x !! o = Some b -> do_wg b = None) (pending x)).
  { assert (Hret : forall o, obj_at contents (d_objs x) KRetrieve o -> forall b, d_objs x !! o = Some b -> do_wg b = None).
    { intros o (b & Hb & _ & _ & Hw) b' Hb'. by simplify_eq. }
    pose proof Hinv as [_ Hs Hc Hw _]. unfold pending, places. rewrite !Forall_app. split_and!.
    - apply Forall_fmap, Forall_forall. intros [ch o] Hin. cbn. apply list_elem_of_lookup in Hin as [j Hj].
      pose proof (proj1 (Forall_lookup _ _) Hs j _ Hj) as Hso. unfold sender_ok in Hso. cbn in Hso. destruct ch as [ch|]; [|by apply Hret].
      destruct Hso as ([|] & Hk & Hat); [|by apply Hret]. exfalso. apply Hkind in Hk as ->. subst q.
      eapply (Hstuck (LSend j)); [done|]. constructor. cbn. unfold sender_step. rewrite Hj, Hq1. cbn. done.
    - rewrite Ecs in Hc |- *. subst q. cbn. rewrite app_nil_r. inversion_clear Hc as [|? ? Hc0 _]. cbn in Hc0.
      eapply Forall_impl; [exact Hc0|]. exact Hret.
    - apply Forall_concat, Forall_fmap, Forall_forall. intros [kd st] Hin. cbn. apply list_elem_of_lookup in Hin as [i Hi].
      pose proof (worker_at _ _ _ _ _ Hinv Hi) as (_ & Hat & Hf). cbn in Hat, Hf. destruct kd; [|eapply Forall_impl; [exact Hat|exact Hret]].
      destruct st as [| |ch o| |ch o| |]; try constructor; try done; exfalso.
      + destruct (inv_put contents n x i _ _ Hinv Hi) as (x' & E & _). apply (Hworker i false x'). unfold worker_step. by rewrite Hi.
      + destruct (inv_release contents n x i _ _ Hinv Hi) as (x' & E & _). eapply (Hworker i false). unfold worker_step. rewrite Hi, E. cbn. done. }
  rewrite (ac_wg _ _ _ (di_acc _ _ _ Hinv)).
  destruct (filter _ (pending x)) as [|o l] eqn:Ef; [done|].
  assert (Hin : o ∈ filter (fun o => wg_of (d_objs x) o = Some g) (pending x)) by (rewrite Ef; by left).
  apply list_elem_of_filter in Hin as [Hg Hin]. unfold wg_of in Hg. rewrite Forall_forall in Hno.
  destruct (d_objs x !! o) as [b|] eqn:Hb; [|done]. cbn in Hg. by rewrite (Hno _ Hin b Hb) in Hg.
Qed.

(** Steps that nobody has to ask for: those of workers, senders and the store. *)
Definition unasked (l : label) : Prop := internal l \/ l = LBg.

Lemma internal_inv n x l x' : unasked l -> dpa_step x l x' -> dpa_inv contents n x -> dpa_inv contents n x'.
Proof using Type. intros [Hl| ->] Hst Hinv; [eapply (inv_step contents n x l x'); [by destruct l|by destruct l|done]|by eapply (inv_step contents n x LBg x')]. Qed.

Lemma run_alive x ls x' : client_run contents x ls x' -> LStop ∉ ls -> alive x -> alive x'.
Proof using Type.
  induction 1 as [|x l x1 ls x2 _ Hst _ IH]; [done|]. intros Hn Ha. apply IH; [set_solver|]. eapply alive_step; [|done|done]. set_solver.
Qed.

(** A started API drains its queues: from any state of a history without stops the workers and senders make only
    finitely many steps by themselves, whatever the schedule, and when none of them can go on the wait groups of
    all [Store] calls wait for the chunk store only. *)
Lemma workers_drain s n ls x :
  cs_ok contents s n -> (costs ls <= n)%nat -> LStop ∉ ls -> client_run contents (NewDPA s) (LStart :: ls) x ->
  (forall ls' x', Forall internal ls' -> dpa_run x ls' x' -> (length ls' + work x' <= work x)%nat) /\
  (forall ls' x', Forall unasked ls' -> dpa_run x ls' x' -> (forall l y, internal l -> ~ dpa_step x' l y) -> forall g, wg_counter x' g = cs_wg (d_store x') g).
Proof using Type.
  intros Hok Hn Hstop Hrun. inversion_clear Hrun as [|? ? x1 ? ? _ Hst Hrun'].
  assert (x1 = Start (NewDPA s)) as -> by (inversion_clear Hst as [? ? E|]; cbn in E; by injection E).
  assert (Hinv : dpa_inv contents 0 x).
  { eapply run_inv; [exact Hrun'|]. apply inv_start. eapply inv_room; [by apply new_dpa_inv|lia]. }
  assert (Ha : alive x).
  { eapply run_alive; [exact Hrun'|done|]. split; try done. eexists. split; [done|by left]. }
  clear Hrun' Hst. split.
  - intros ls' x' HF Hr. induction Hr as [y|y l y1 ls' y2 Hs _ IH]; [cbn; lia|]. inversion_clear HF as [|? ? Hl HF'].
    pose proof (internal_works _ _ _ Hl Hs).
    pose proof (internal_inv _ _ _ _ (or_introl Hl) Hs Hinv) as Hinv1.
    assert (alive y1) by (eapply alive_step; [|exact Hs|done]; by destruct l).
    cbn [length]. enough (length ls' + work y2 <= work y1)%nat by lia. by apply IH.
  - intros ls' x' HF Hr Hstuck g. assert (Hx' : dpa_inv contents 0 x' /\ alive x').
    { clear Hstuck. induction Hr as [y|y l y1 ls' y2 Hs _ IH]; [done|]. inversion_clear HF as [|? ? Hl HF'].
      apply IH; [by eapply internal_inv|eapply alive_step; [|exact Hs|done]; by destruct Hl as [Hl| ->]; [destruct l|]|done]. }
    unfold wg_counter. rewrite (stuck_empty 0 x' g); [done|apply Hx'|apply Hx'|done].
Qed.
End Drain.

(** ** Stopping *)

Section Stop.
Context {CS : Type} `{ChunkStore CS}.
Implicit Types (x : DPA CS) (o i j g n : nat).

(** The chunks a worker can still release once the quit channel is closed. *)
Definition left_over (w : kind * wstate) : nat :=
  match w with
  | (KStore, (WSpawned | WRange _ | WWork _ _ | WWait _ _ _ _ | WFinish _ _)) => 1
  | _ => 0
  end.

Definition is_store (w : kind * wstate) : nat := match w.1 with KStore => 1 | KRetrieve => 0 end.
Definition store_workers x : nat := sum_list_with is_store (d_workers x).
Definition quota x : nat := sum_list_with left_over (d_workers x).

Lemma quota_le x : (quota x <= store_workers x)%nat.
Proof using Type.
  unfold quota, store_workers. induction (d_workers x) as [|[kd st] l IH]; cbn; [lia|]. destruct kd, st; cbn; lia.
Qed.

(** A worker changes its state and perhaps releases a chunk. *)
Lemma quota_step x y i kd st st' :
  d_workers x !! i = Some (kd, st) -> d_workers y = <[i := (kd, st')]> (d_workers x) ->
  store_workers y = store_workers x /\ (quota y + left_over (kd, st) = quota x + left_over (kd, st'))%nat.
Proof using Type.
  intros Hi Hw. unfold quota, store_workers. rewrite Hw. destruct (sum_update left_over _ _ _ Hi) as (r & -> & ->).
  destruct (sum_update is_store _ _ _ Hi) as (r' & -> & ->). split; [reflexivity|lia].
Qed.

Lemma workers_step x l x' g :
  l <> LStart -> dpa_step x l x' ->
  store_workers x' = store_workers x /\
  (quit_closed x = true -> quit_closed x' = true /\ wg_count x g - Z.of_nat (quota x) <= wg_count x' g - Z.of_nat (quota x')).
Proof using Type.
  intros Hl Hst. destruct Hst as [l x' E|s _]; [|split; [done|split; [done|unfold wg_count, quota; cbn; lia]]].
  destruct l as [| |ch c h|ch k|j|i timer|]; cbn in E; simplify_eq/=.
  - unfold Stop in E. destruct (d_running x); [|injection E as <-; split; [done|split; [done|lia]]]. destruct (d_quitC x) as [q|] eqn:Eq; [|done]. cbn in E.
    destruct (d_quits x !! q) as [[|]|] eqn:Eo; simplify_eq. split; [done|]. unfold quit_closed. cbn. rewrite Eq. cbn. by rewrite Eo.
  - unfold Store_chunk. destruct ch; [|split; [done|split; [done|lia]]]. split; [done|split; [done|]]. unfold wg_count, quota. cbn. rewrite wg_add_lookup.
    case_decide; lia.
  - split; [done|split; [done|]]. unfold wg_count, quota. cbn. lia.
  - unfold sender_step in E. destruct (d_senders x !! j) as [[[ch|] o]|]; try done.
    destruct (d_chans x !! ch) as [[kd q]|]; [|done]. destruct (_ <? _); [|done]. injection E as <-. split; [done|split; [done|]]. unfold wg_count, quota. cbn. lia.
  - unfold worker_step in E. destruct (d_workers x !! i) as [[kd st]|] eqn:Ei; [|done].
    assert (Hgen : forall y st', d_workers y = <[i := (kd, st')]> (d_workers x) -> d_quitC y = d_quitC x -> d_quits y = d_quits x ->
      (quit_closed x = true -> wg_count x g - Z.of_nat (left_over (kd, st)) <= wg_count y g - Z.of_nat (left_over (kd, st'))) ->
      store_workers y = store_workers x /\
      (quit_closed x = true -> quit_closed y = true /\ wg_count x g - Z.of_nat (quota x) <= wg_count y g - Z.of_nat (quota y))).
    { intros y st' Hw Eq Eqs Hg. destruct (quota_step x y i kd st st' Ei Hw) as [Hs Hq]. split; [done|]. intros Hc. split; [|specialize (Hg Hc); lia].
      revert Hc. unfold quit_closed. by rewrite Eq, Eqs. }
    destruct st as [|[ch|]|ch o|ch o c r|ch o|ch|]; try done.
    + injection E as <-. (eapply Hgen; [done..|]); intros _; unfold wg_count; destruct kd; cbn; lia.
    + destruct (d_chans x !! ch) as [[ck [|o q]]|]; try done. injection E as <-. (eapply Hgen; [done..|]); intros _; unfold wg_count; destruct kd; cbn; lia.
    + unfold worker_op in E. destruct (d_objs x !! o); [|done]. cbn in E. destruct kd.
      * destruct (cs_Put _ _ _); try done. injection E as <-. (eapply Hgen; [done..|]); intros _; unfold wg_count; cbn; lia.
      * destruct (cs_Get _ _) as [[[| |] s]| |]; try done; injection E as <-; (eapply Hgen; [done..|]); intros _; unfold wg_count; cbn; lia.
    + destruct (cs_wait _ _ _ _) as [[f|]| |]; try done; injection E as <-; (eapply Hgen; [done..|]); intros _; unfold wg_count; destruct kd; cbn; lia.
    + destruct kd.
      * unfold release_chunk in E. destruct (d_objs x !! o) as [b|]; [|done]. cbn in E.
        destruct (do_wg b) as [h|]; [destruct (_ <=? _); [done|]|]; injection E as <-; (eapply Hgen; [done..|]); intros _.
        -- unfold wg_count. cbn. rewrite lookup_insert. case_decide; subst; cbn; lia.
        -- unfold wg_count. cbn. lia.
      * unfold close_chunk in E. destruct (d_objs x !! o) as [b|]; [|done]. cbn in E.
        destruct (do_C b) as [[|]|]; try done. injection E as <-. (eapply Hgen; [done..|]); intros _; unfold wg_count; cbn; lia.
    + injection E as <-. (eapply Hgen; [done..|]). intros Hc. rewrite Hc. unfold wg_count. destruct kd; cbn; lia.
Qed.

Lemma start_workers x : (store_workers (Start x) <= maxStoreProcesses + store_workers x)%nat.
Proof using Type.
  unfold Start. destruct (d_running x); [lia|]. unfold store_workers. cbn [d_workers]. rewrite sum_list_with_app. cbn. lia.
Qed.

Definition starts (ls : list label) : nat := sum_list_with (fun l => match l with LStart => 1%nat | _ => 0%nat end) ls.

Lemma run_workers x ls x' : dpa_run x ls x' -> (store_workers x' <= starts ls * maxStoreProcesses + store_workers x)%nat.
Proof using Type.
  induction 1 as [|x l x1 ls x2 Hst _ IH]; [lia|]. unfold starts in *. cbn [sum_list_with].
  assert (store_workers x1 <= (match l with LStart => 1 | _ => 0 end) * maxStoreProcesses + store_workers x)%nat; [|lia].
  assert (l = LStart \/ l <> LStart) as [->|Hl] by (destruct l; auto).
  - inversion_clear Hst as [? ? E|]. injection E as <-. pose proof (start_workers x). lia.
  - destruct (workers_step x l x1 0 Hl Hst) as [-> _]. lia.
Qed.

Lemma run_stopped x ls x' g :
  dpa_run x ls x' -> LStart ∉ ls -> quit_closed x = true -> wg_count x g - Z.of_nat (quota x) <= wg_count x' g - Z.of_nat (quota x').
Proof using Type.
  induction 1 as [|x l x1 ls x2 Hst _ IH]; [lia|]. intros Hn Hc.
  destruct (workers_step x l x1 g ltac:(set_solver) Hst) as [_ Hq]. destruct (Hq Hc) as [Hc1 Hle]. specialize (IH ltac:(set_solver) Hc1). lia.
Qed.

(** A stop strands the chunks that the workers have not taken: of the chunks that the workers of an API that was started once have not released when
    it is stopped at most 8 are released until it is started again, one for each worker. *)
Lemma stop_strands_backlog s ls x x1 ls' x' g :
  (starts ls <= 1)%nat -> dpa_run (NewDPA s) ls x -> d_running x = true -> Stop x = Ret x1 ->
  LStart ∉ ls' -> dpa_run x1 ls' x' -> wg_count x g - Z.of_nat maxStoreProcesses <= wg_count x' g.
Proof using Type.
  intros Hs Hrun Hr Hstop Hn Hrun'. pose proof (run_workers _ _ _ Hrun) as Hw. pose proof (quota_le x1) as Hq.
  assert (quit_closed x1 = true /\ store_workers x1 = store_workers x /\ wg_count x1 g = wg_count x g) as (Hc & Hsw & Hwg).
  { revert Hstop. unfold Stop. rewrite Hr. destruct (d_quitC x) as [q|] eqn:Eq; [|done]. cbn. destruct (d_quits x !! q) as [[|]|] eqn:Eo; intros [= <-].
    split_and!; [|done|done]. unfold quit_closed. cbn [d_quitC d_quits]. cbn. rewrite list_lookup_insert_eq by (by eapply lookup_lt_Some). done. }
  pose proof (run_stopped _ _ _ g Hrun' Hn Hc) as Hle. assert (store_workers (NewDPA s) = 0%nat) by done. unfold maxStoreProcesses in *. lia.
Qed.
End Stop.

(** ** A chunk store on maps, and witnesses *)

#[export] Instance MapStore : ChunkStore (gmap Key (bytes * Z)) := {|
  cs_Put := fun s c _ => Ret (match s !! ck_Key c with Some _ => s | None => <[ck_Key c := answer c]> s end);
  cs_Get := fun s k => Ret (match s !! k with
                            | Some (d, z) => GFound {| ck_Key := k; ck_SData := Some d; ck_Size := z; ck_Source := None; ck_Req := None |}
                            | None => GNotFound
                            end, s);
  cs_wait := fun _ _ _ _ => Ret None;
  cs_wg := fun _ _ => 0;
  cs_bg := eq
|}.

#[export] Instance MapStore_laws : ChunkStoreLaws (gmap Key (bytes * Z)).
Proof.
  refine {| cs_ok := fun content s _ => forall k x, s !! k = Some x -> content k = Some x;
            cs_holds := fun s k => is_Some (s !! k); cs_good := fun _ => True |}.
  - done.
  - intros content s n c g Hok _ Hc _ _. eexists. split; [done|]. destruct (s !! ck_Key c) as [x|] eqn:E.
    + by rewrite E.
    + split_and!; [|by rewrite lookup_insert_eq|].
      * intros k x. rewrite lookup_insert. case_decide; [intros [= <-]; by subst|apply Hok].
      * intros k Hk. rewrite lookup_insert. by case_decide.
  - intros content s n k Hok _ [[d z] Hk]. eexists _, _. split; [cbn; by rewrite Hk|]. by apply Hok.
  - by intros content s n k x s' Hok _ [= _ <-].
  - by intros content s n s' Hok <-.
Defined.

Lemma MapStore_empty content n : cs_ok content (∅ : gmap Key (bytes * Z)) n.
Proof. intros k x. by rewrite lookup_empty. Qed.

Definition toy_chunks : list Chunk := Eval vm_compute in
  match Split toy depth_fuel toy_reader (#toy_data) (Some []) with Some (Ok (_, _, Some l)) => l | _ => [] end.

Definition toy_contents (k : Key) : option (bytes * Z) :=
  answer <$> find (fun c => bool_decide (ck_Key c = k)) toy_chunks.

(** The labels of a [Store] of the chunks with the wait group 7, served by the first worker. *)
Definition serve (i : nat) : list label := replicate 4 (LWork i false).
Definition toy_store : list label :=
  LStart :: LWork 0 false :: concat ((fun c => [LStore (Some 1%nat) c (Some 7%nat); LSend 0] ++ serve 0) <$> toy_chunks).
Definition toy_fetch : list label :=
  LWork 8 false :: concat ((fun c => [LRetrieve (Some 0%nat) (ck_Key c); LSend 0] ++ serve 8) <$> toy_chunks).

(** Whether a client may do a step, and runs of such steps. *)
Definition label_okb (x : DPA (gmap Key (bytes * Z))) (l : label) : bool :=
  match l with
  | LStore (Some ch) c _ => bool_decide (chan_kind x ch = Some KStore) && bool_decide (toy_contents (ck_Key c) = Some (answer c)) &&
      bool_decide (ck_SData c <> None) && bool_decide (ck_Req c = None)
  | LRetrieve (Some ch) _ => bool_decide (chan_kind x ch = Some KRetrieve)
  | _ => true
  end.

Fixpoint drive (x : DPA (gmap Key (bytes * Z))) (ls : list label) : outcome (DPA (gmap Key (bytes * Z))) :=
  match ls with
  | [] => Ret x
  | l :: ls => if label_okb x l then let& x := dpa_step_fun x l in drive x ls else Crash
  end.

Lemma drive_run ls x x' : drive x ls = Ret x' -> client_run toy_contents x ls x'.
Proof.
  revert x. induction ls as [|l ls IH]; intros x; cbn; [intros [= <-]; constructor|]. destruct (label_okb x l) eqn:El; [|done].
  destruct (dpa_step_fun x l) as [x1| |] eqn:E; try done. cbn. intros Hr. econstructor; [|by apply step_fun|by apply IH].
  destruct l as [| |[ch|] c g|[ch|] k| | |]; cbn in El |- *; try done; [|by split; [apply bool_decide_eq_true in El|]].
  rewrite !andb_true_iff, !bool_decide_eq_true in El. naive_solver.
Qed.

Definition driven (o : outcome (DPA (gmap Key (bytes * Z)))) : DPA (gmap Key (bytes * Z)) := match o with Ret x => x | _ => NewDPA ∅ end.
Definition toy_stored : DPA (gmap Key (bytes * Z)) := driven (drive (NewDPA ∅) toy_store).
Definition toy_read : DPA (gmap Key (bytes * Z)) := driven (drive toy_stored toy_fetch).

Lemma toy_store_run : client_run toy_contents (NewDPA (∅ : gmap Key (bytes * Z))) toy_store toy_stored.
Proof. apply drive_run. vm_compute. reflexivity. Qed.

Lemma toy_fetch_run : client_run toy_contents toy_stored toy_fetch toy_read.
Proof. apply drive_run. vm_compute. reflexivity. Qed.

Lemma store_then_read_toy :
  exists key rd' chunks,
    Split toy depth_fuel toy_reader 12 (Some []) = Some (Ok (key, rd', Some chunks)) /\
    (exists r', ReadAt toy (fetch_of (d_store toy_read)) depth_fuel (Join key) (replicate 5 0) 3
                = Some (Ok ([40; 50; 60; 70; 80], 5, false, r'))) /\
    exists ob, d_objs toy_read !! 7%nat = Some ob /\ do_C ob = Some Closed /\ ck_SData (do_chunk ob) <> None.
Proof.
  destruct (store_then_read toy_contents toy toy_reader toy_data toy_ok ltac:(vm_compute; reflexivity) toy_reader_content)
    as (key & rd' & chunks & E & Hread).
  exists key, rd', chunks. split; [exact E|].
  assert (Hc : toy_chunks = chunks) by (revert E; vm_compute; by intros [= _ _ <-]).
  destruct (Hread ∅ 100%nat toy_store toy_stored toy_fetch toy_read 7%nat) as [Hr _].
  - apply MapStore_empty.
  - vm_compute. lia.
  - exact toy_store_run.
  - rewrite <- Hc. reflexivity.
  - vm_compute. reflexivity.
  - exact toy_fetch_run.
  - split; [|eexists; split; [vm_compute; reflexivity|split; [reflexivity|discriminate]]].
    exact (Hr (replicate 5 0) 3 ltac:(lia) ltac:(vm_compute; reflexivity) ltac:(vm_compute; discriminate)).
Defined.
