(* ===== verification/Pyramid.v ===== *)
(** The pyramid chunker ([livepeer/storage/pyramid.go]), a second splitter that builds the tree of a document
    from its leaves: the tasks of a document are its chunks, and the worker that completes a node of the tree goes
    on with it one level up.

    The lock of the result makes every insertion atomic; a run processes the tasks one after the other in an
    arbitrary order. The number of levels is computed in floating point by the Go library: it is the parameter
    [ceil_log]. Panics are [None]. *)
From stdpp Require Import base gmap list strings.
From Stdlib Require Import ZArith Lia.
From S2P Require Import Prelude Types Chunker.

Record PNode := mkPNode {
  Pending : Z;
  pn_Size : Z;
  Children : list Key;     (* [common.Hash], 32 bytes each *)
  Last : bool
}.

Record Task := mkTask {
  tk_Index : Z;
  tk_Size : Z;
  tk_Data : bytes;
  tk_Last : bool
}.

(** The levels from the root down; the lock is left out. *)
Record Tree := mkTree0 {
  tr_Chunks : Z;
  tr_Levels : list (gmap Z PNode)
}.

Record PyramidChunker := mkPyramid {
  py_hashFunc : Hasher;
  py_chunkSize : Z;
  py_hashSize : Z;
  py_branches : Z;
  workerCount : Z
}.

Section Make.
Context (sha256 sha3 : Hasher).

Definition NewPyramidChunker (params : ChunkerParams) : option PyramidChunker :=
  match MakeHashFunc sha256 sha3 (Hash params) with
  | Some h => Some {| py_hashFunc := h; py_chunkSize := h_size h * Branches params; py_hashSize := h_size h;
                      py_branches := Branches params; workerCount := 1 |}
  | None => None
  end.
End Make.

Section Pyramid.
Context (pc : PyramidChunker).
(** [int(math.Ceil(math.Log(float64(chunks)) / math.Log(float64(branches))))]. *)
Context (ceil_log : Z -> Z -> Z).

Abbreviation branches := (py_branches pc).
Abbreviation chunkSize := (py_chunkSize pc).

(** ** The processor *)

(** [copy(data[i*hasher.Size()+8:], hash[:])] for all children; a slice out of range panics. *)
Fixpoint copy_children (hsize : Z) (data : bytes) (i : Z) (children : list Key) : option bytes :=
  match children with
  | [] => Some data
  | hash :: cs =>
    if i * hsize + 8 <=? #data then copy_children hsize (copy_at data (Z.to_nat (i * hsize + 8)) hash) (i + 1) cs else None
  end.

(** What is hashed and what is stored for a task ([None]) or for a complete node, and its size. *)
Definition node_data (task : Task) (node : option PNode) : option (bytes * bytes * Z) :=
  match node with
  | None => Some (tk_Data task, tk_Data task, tk_Size task)
  | Some n =>
    let hsize := h_size (py_hashFunc pc) in
    let data := copy_at (make_bytes (hsize * #(Children n) + 8)) 0 (le64 (pn_Size n)) in
    match copy_children hsize data 0 (Children n) with
    | Some data => Some (le64 (pn_Size n) ++ concat (Children n), data, pn_Size n)
    | None => None
    end
  end.

(** The pending tasks of a new node. *)
Definition pending_tasks (chunks idx pow : Z) : Z :=
  if idx / pow =? chunks / pow
  then (chunks + pow / branches - 1) / (pow / branches) mod branches
  else branches.

(** The insertion into the memoization tree, under the lock: the node, with one more child. *)
Definition insert_child (chunks idx pow : Z) (level : gmap Z PNode) (hash : bytes) (size : Z) (last : bool) : option PNode :=
  let node :=
    match level !! (idx / pow) with
    | Some n => n
    | None =>
      let pending := pending_tasks chunks idx pow in
      {| Pending := pending; pn_Size := 0; Children := replicate (Z.to_nat pending) (replicate 32 0); Last := last |}
    end in
  let i := idx / (pow / branches) mod branches in
  match index (Children node) i with
  | None => None
  | Some old =>
    Some {| Pending := Pending node - 1; pn_Size := u64 (pn_Size node + size);
            Children := <[Z.to_nat i := copy_at old 0 hash]> (Children node); Last := last || Last node |}
  end.

(** The loop of [processor] over the levels for one task; [d] is one more than [depth]. The chunks are those sent
    on [chunkC], with the size that the code does not set. *)
Fixpoint climb (d : nat) (pow : Z) (task : Task) (node : option PNode) (results : Tree) (chunkC : option (list Chunk))
  : option (Tree * option (list Chunk)) :=
  match d with
  | O => Some (results, chunkC)
  | S depth =>
    match node_data task node with
    | None => None
    | Some (hashed, data, size) =>
      let hash := h_sum (py_hashFunc pc) hashed in
      let last := tk_Last task || match node with Some n => Last n | None => false end in
      match tr_Levels results !! depth with
      | None => None
      | Some level =>
        match insert_child (tr_Chunks results) (tk_Index task) pow level hash size last with
        | None => None
        | Some n =>
          let levels := <[depth := <[tk_Index task / pow := n]> level]> (tr_Levels results) in
          let chunkC := send {| ck_Key := hash; ck_SData := Some data; ck_Size := 0; ck_Source := None; ck_Req := None |} chunkC in
          let levels := alter (delete (tk_Index task / (pow / branches))) (S depth) levels in
          let results := {| tr_Chunks := tr_Chunks results; tr_Levels := levels |} in
          if 0 <? Pending n then Some (results, chunkC)
          else climb depth (pow * branches) task (Some n) results chunkC
        end
      end
    end
  end.

(** The processors take the tasks. *)
Fixpoint processor (tasks : list Task) (results : Tree) (chunkC : option (list Chunk)) : option (Tree * option (list Chunk)) :=
  match tasks with
  | [] => Some (results, chunkC)
  | task :: tasks =>
    match climb (length (tr_Levels results)) branches task None results chunkC with
    | Some (results, chunkC) => processor tasks results chunkC
    | None => None
    end
  end.

(** ** Split *)

(** The loop that feeds the pool: each task is the result of one [Read]. The tasks, and whether the loop was
    left by an error; without fuel the loop goes on. *)
Fixpoint feed (fuel : nat) (rd : reader) (size read idx : Z) : option (list Task * bool) :=
  match fuel with
  | O => None
  | S f =>
    let '(bs, err, rd) := Read rd (Z.to_nat chunkSize) in
    let n := #bs in
    let read := read + n in
    let last := (read =? size) || match err with Some EOF | Some ErrUnexpectedEOF => true | _ => false end in
    if match err with Some _ => negb last | None => false end then Some ([], true)
    else
      let task := {| tk_Index := idx; tk_Size := n; tk_Data := le64 n ++ bs; tk_Last := last |} in
      if last then Some ([task], false)
      else match feed f rd size read (idx + 1) with
           | Some (ts, aborted) => Some (task :: ts, aborted)
           | None => None
           end
  end.

(** [results.Levels[0][0].Children[0]]. *)
Definition root_key (results : Tree) : option Key :=
  match tr_Levels results with
  | level :: _ => match level !! 0 with Some n => head (Children n) | None => None end
  | [] => None
  end.

(** The schedule of the processors is the order in which they take the tasks. After an error the loop is left too (its
    [break] is outside of the select), and the result is read all the same: the first child of the root node, which
    is nil if the tree is not complete. [None] is a loop that goes on; a negative number of levels panics. *)
Definition PyramidSplit (fuel : nat) (order : list Task -> list Task) (rd : reader) (size : Z) (chunkC : option (list Chunk))
  : option (result ioerr (Key * option (list Chunk))) :=
  let chunks := (size + chunkSize - 1) / chunkSize in
  let depth := ceil_log chunks branches + 1 in
  if depth <? 0 then Some Panic
  else match feed fuel rd size 0 0 with
  | None => None
  | Some (tasks, _) =>
    Some (match processor (order tasks) {| tr_Chunks := chunks; tr_Levels := replicate (Z.to_nat depth) ∅ |} chunkC with
          | None => Panic
          | Some (results, chunkC) =>
            match root_key results with
            | Some key => Ok (key, chunkC)
            | None => Panic
            end
          end)
  end.
End Pyramid.

(** ** Lemmas *)

Section Lemmas.
Context (pc : PyramidChunker) (ceil_log : Z -> Z -> Z).

(** A chunker for a hash of 32 bytes. Of the logarithm in floating point only this is used: it is 0 for one chunk, and between 0 and that of
    [branches] for more chunks, up to [branches]. *)
Record pyramid_ok : Prop := {
  po_hash : forall l, #(h_sum (py_hashFunc pc) l) = 32;
  po_size : h_size (py_hashFunc pc) = 32;
  po_branches : 2 <= py_branches pc;
  po_chunk : 0 < py_chunkSize pc < 2 ^ 63;
  po_log_one : ceil_log 1 (py_branches pc) = 0;
  po_log_node : forall n, 1 < n <= py_branches pc -> ceil_log n (py_branches pc) = 1
}.
Context (Hok : pyramid_ok).

Abbreviation b := (py_branches pc).
Abbreviation chunkSize := (py_chunkSize pc).
Abbreviation hash := (h_sum (py_hashFunc pc)).

(** The tasks of a document: its pieces of a chunk each. *)
Fixpoint tasks_of (idx : Z) (ps : list bytes) : list Task :=
  match ps with
  | [] => []
  | [p] => [{| tk_Index := idx; tk_Size := #p; tk_Data := le64 (#p) ++ p; tk_Last := true |}]
  | p :: ps => {| tk_Index := idx; tk_Size := #p; tk_Data := le64 (#p) ++ p; tk_Last := false |} :: tasks_of (idx + 1) ps
  end.

(** The number of chunks of a document. *)
Definition chunk_count (size : Z) : nat := Z.to_nat ((size + chunkSize - 1) / chunkSize).

Lemma chunk_count_bounds size : 0 < size -> chunkSize * (Z.of_nat (chunk_count size) - 1) < size <= chunkSize * Z.of_nat (chunk_count size).
Proof using Hok.
  intros Hs. pose proof (po_chunk Hok). unfold chunk_count. pose proof (Z.div_mod (size + chunkSize - 1) chunkSize ltac:(lia)) as Hd.
  pose proof (Z.mod_pos_bound (size + chunkSize - 1) chunkSize ltac:(lia)) as Hm.
  assert (0 <= (size + chunkSize - 1) / chunkSize) by (apply Z.div_pos; lia). rewrite Z2Nat.id by done. lia.
Qed.

(** A reader that has the whole document ready is read a chunk at a time. *)
Lemma feed_whole k data err read idx :
  (err = None \/ err = Some EOF) -> 0 < #data -> chunkSize * (Z.of_nat k - 1) < #data <= chunkSize * Z.of_nat k ->
  feed pc k [(data, err)] (read + #data) read idx = Some (tasks_of idx (pieces k (Z.to_nat chunkSize) data), false).
Proof using Hok.
  intros Herr. pose proof (po_chunk Hok). revert data read idx. induction k as [|k IH]; intros data read idx Hpos Hk; [lia|].
  cbn [feed]. unfold Read. destruct (Nat.leb_spec (length data) (Z.to_nat chunkSize)) as [Hle|Hgt].
  - assert (k = 0%nat) as -> by (unfold zlen in *; nia). rewrite Z.eqb_refl. cbn [orb negb].
    replace (match err with Some _ => false | None => false end) with false by (by destruct err).
    cbn [pieces tasks_of]. by rewrite take_ge by lia.
  - assert (Hlen : #(take (Z.to_nat chunkSize) data) = chunkSize) by (unfold zlen; rewrite length_take; lia).
    assert (Hdrop : #(drop (Z.to_nat chunkSize) data) = #data - chunkSize) by (unfold zlen; rewrite length_drop; lia).
    rewrite Hlen. destruct (Z.eqb_spec (read + chunkSize) (read + #data)) as [E|_]; [unfold zlen in *; lia|]. cbn [orb].
    replace (read + #data) with (read + chunkSize + #(drop (Z.to_nat chunkSize) data)) by lia.
    rewrite IH by (unfold zlen in *; nia). cbn [pieces]. destruct k as [|k]; [unfold zlen in *; lia|]. cbn [tasks_of]. by rewrite Hlen.
Qed.

Lemma tasks_of_lookup idx ps (i : nat) t :
  tasks_of idx ps !! i = Some t -> exists p, ps !! i = Some p /\ tk_Index t = idx + Z.of_nat i /\ tk_Size t = #p /\ tk_Data t = le64 (#p) ++ p.
Proof using Type.
  revert idx i. induction ps as [|p ps IH]; intros idx i; [by rewrite lookup_nil|]. destruct ps as [|q ps].
  - cbn [tasks_of]. destruct i; cbn; [|done]. intros [= <-]. exists p. cbn. split_and!; try done. lia.
  - intros Hi. change (tasks_of idx (p :: q :: ps)) with
      ({| tk_Index := idx; tk_Size := #p; tk_Data := le64 (#p) ++ p; tk_Last := false |} :: tasks_of (idx + 1) (q :: ps)) in Hi.
    destruct i as [|i]; cbn [lookup list_lookup] in Hi; [injection Hi as <-; exists p; cbn; split_and!; try done; lia|].
    destruct (IH _ _ Hi) as (p' & ? & ? & ? & ?). exists p'. split_and!; try done. lia.
Qed.

Lemma tasks_of_length idx ps : length (tasks_of idx ps) = length ps.
Proof using Type.
  revert idx. induction ps as [|p ps IH]; intros idx; [done|]. destruct ps as [|q ps]; [done|].
  change (S (length (tasks_of (idx + 1) (q :: ps))) = S (length (q :: ps))). by rewrite IH.
Qed.

Lemma tasks_of_index idx ps : tk_Index <$> tasks_of idx ps = (fun i => idx + Z.of_nat i) <$> seq 0 (length ps).
Proof using Type.
  apply list_eq. intros i. rewrite !list_lookup_fmap. destruct (tasks_of idx ps !! i) as [t|] eqn:E; cbn.
  - pose proof (lookup_lt_Some _ _ _ E) as Hl. rewrite tasks_of_length in Hl. rewrite lookup_seq_lt by done. cbn.
    by destruct (tasks_of_lookup _ _ _ _ E) as (p & _ & -> & _).
  - apply lookup_ge_None in E. rewrite tasks_of_length in E. by rewrite lookup_seq_ge.
Qed.

(** How many tasks have an index below a bound. *)
Lemma tasks_below (k : Z) ps :
  0 <= k <= Z.of_nat (length ps) -> Z.of_nat (length (filter (fun t => tk_Index t < k) (tasks_of 0 ps))) = k.
Proof using Type.
  intros Hk. transitivity (Z.of_nat (length (filter (fun i => i < k) (tk_Index <$> tasks_of 0 ps)))).
  { generalize (tasks_of 0 ps) as l. induction l as [|t l IH]; [done|]. cbn [fmap list_fmap]. rewrite !filter_cons.
    destruct (decide (tk_Index t < k)); cbn [length]; lia. }
  rewrite tasks_of_index. assert (Hseq : forall m s : nat, Z.of_nat (length (filter (fun i => i < k) ((fun i => 0 + Z.of_nat i) <$> seq s m)))
    = Z.max 0 (Z.min k (Z.of_nat (s + m)) - Z.of_nat s)).
  { induction m as [|m IH]; intros s; cbn [seq fmap list_fmap]; [rewrite filter_nil; cbn; lia|].
    rewrite filter_cons. specialize (IH (S s)). case_decide; cbn [length]; lia. }
  rewrite Hseq. lia.
Qed.

(** ** A full last node *)

(** The state before any node of the leaves is complete: the first one lacks the tasks that were not processed. *)
Record filling (n : Z) (done : list Task) (results : Tree) : Prop := {
  fi_chunks : tr_Chunks results = n;
  fi_levels : exists l0 l2, tr_Levels results = [l0; ∅; l2] /\
    match l2 !! 0 with
    | Some node => Pending node = b - Z.of_nat (length (filter (fun t => tk_Index t < b) done)) /\ 0 < Pending node
    | None => filter (fun t => tk_Index t < b) done = []
    end
}.

(** One round of the loop, given the data and the node it makes. *)
Lemma climb_round depth pow t node results chunkC hashed data size level :
  node_data pc t node = Some (hashed, data, size) -> tr_Levels results !! depth = Some level ->
  climb pc (S depth) pow t node results chunkC =
    match insert_child pc (tr_Chunks results) (tk_Index t) pow level (hash hashed) size
            (tk_Last t || match node with Some n => Last n | None => false end) with
    | None => None
    | Some n =>
      let chunkC := send {| ck_Key := hash hashed; ck_SData := Some data; ck_Size := 0; ck_Source := None; ck_Req := None |} chunkC in
      let results := {| tr_Chunks := tr_Chunks results;
                        tr_Levels := alter (delete (tk_Index t / (pow / b))) (S depth) (<[depth := <[tk_Index t / pow := n]> level]> (tr_Levels results)) |} in
      if 0 <? Pending n then Some (results, chunkC) else climb pc depth (pow * b) t (Some n) results chunkC
    end.
Proof using Type. intros E1 E2. cbn [climb]. by rewrite E1, E2. Qed.

(** A complete node cannot be inserted above, where the node has no children. *)
Lemma climb_full n t node results chunkC :
  b * (b - 1) < n < b * b -> 0 <= tk_Index t < n -> tr_Chunks results = n -> (exists l0 l2, tr_Levels results = [l0; ∅; l2]) ->
  climb pc 2 (b * b) t (Some node) results chunkC = None.
Proof using Hok.
  intros Hn Ht Hc (l0 & l2 & Hl). pose proof (po_branches Hok). cbn [climb]. destruct (node_data _ _ _) as [[[h d] sz]|]; [|done].
  rewrite Hl. cbn [lookup list_lookup]. unfold insert_child. rewrite Hc, lookup_empty. unfold pending_tasks.
  rewrite !(Z.div_small _ (b * b)) by lia. rewrite Z.eqb_refl, Z.div_mul by lia.
  replace ((n + b - 1) / b) with b by (apply (Z.div_unique _ _ _ (n + b - 1 - b * b)); lia).
  rewrite Z.mod_same by lia. cbn [Children Z.to_nat replicate]. unfold index. case_decide; by rewrite ?lookup_nil.
Qed.

Lemma insert_child_first n idx level h sz la node :
  0 <= idx < b -> b <= n -> insert_child pc n idx b level h sz la = Some node ->
  match level !! 0 with
  | Some old => Pending node = Pending old - 1
  | None => Pending node = b - 1
  end.
Proof using Hok.
  intros Hi Hn. pose proof (po_branches Hok). unfold insert_child. rewrite (Z.div_small idx) by lia. destruct (level !! 0) as [old|].
  - destruct (index _ _); [|done]. by intros [= <-].
  - unfold pending_tasks. rewrite (Z.div_small idx) by lia.
    destruct (Z.eqb_spec 0 (n / b)) as [E|_]; [pose proof (Z.div_le_lower_bound n b 1 ltac:(lia) ltac:(lia)); lia|].
    destruct (index _ _); [|done]. by intros [= <-].
Qed.

Lemma filling_step n done t results chunkC r :
  b * (b - 1) < n < b * b -> 0 <= tk_Index t < n -> filling n done results ->
  climb pc (length (tr_Levels results)) b t None results chunkC = Some r -> filling n (done ++ [t]) (fst r).
Proof using Hok.
  intros Hn Ht [Hc (l0 & l2 & Hl & Hfirst)] E. pose proof (po_branches Hok). replace (length (tr_Levels results)) with 3%nat in E by (by rewrite Hl).
  erewrite climb_round in E; [|reflexivity|by rewrite Hl]. cbv zeta in E. destruct (insert_child _ _ _ _ _ _ _ _) as [node|] eqn:Ei; [|done].
  rewrite Hc in Ei. rewrite Hl in E. cbn [insert list_insert alter list_alter] in E.
  destruct (Z.ltb_spec 0 (Pending node)) as [Hp|Hp].
  - injection E as <-. split; [done|]. exists l0, (<[tk_Index t / b := node]> l2). split; [done|].
    rewrite filter_app, filter_cons, filter_nil. destruct (decide (tk_Index t < b)) as [Hlt|Hge].
    + rewrite (Z.div_small (tk_Index t)) in * by lia. rewrite lookup_insert_eq, length_app. cbn [length].
      pose proof (insert_child_first n (tk_Index t) l2 _ _ _ node ltac:(lia) ltac:(nia) Ei) as Hnode.
      destruct (l2 !! 0) as [old|]; [|rewrite Hfirst; cbn [length]; lia]. lia.
    + rewrite app_nil_r, lookup_insert_ne; [done|]. pose proof (Z.div_le_lower_bound (tk_Index t) b 1 ltac:(lia) ltac:(lia)). lia.
  - exfalso. match type of E with climb _ 2 _ _ _ ?res ?ch = _ => rewrite (climb_full n t node res ch) in E end; try done. by exists l0, (<[tk_Index t / b := node]> l2).
Qed.

Lemma processor_full n done rest results chunkC :
  b * (b - 1) < n < b * b -> Forall (fun t => 0 <= tk_Index t < n) rest -> filling n done results ->
  Z.of_nat (length (filter (fun t => tk_Index t < b) (done ++ rest))) = b -> processor pc rest results chunkC = None.
Proof using Hok.
  intros Hn. revert done results chunkC. induction rest as [|t rest IH]; intros done results chunkC HF Hfill Hcount.
  - exfalso. pose proof (po_branches Hok). rewrite app_nil_r in Hcount. destruct Hfill as [_ (l0 & l2 & _ & Hfirst)]. destruct (l2 !! 0); [lia|].
    rewrite Hfirst in Hcount. cbn in Hcount. lia.
  - inversion_clear HF as [|? ? Ht HF']. cbn [processor].
    destruct (climb pc _ b t None results chunkC) as [[results' chunkC']|] eqn:E; [|done].
    eapply (IH (done ++ [t])); [done|by eapply (filling_step _ _ _ _ _ (results', chunkC'))|by rewrite <- app_assoc].
Qed.

(** ** Documents of at most one node *)

Definition leaf_chunk0 (t : Task) : Chunk :=
  {| ck_Key := hash (tk_Data t); ck_SData := Some (tk_Data t); ck_Size := 0; ck_Source := None; ck_Req := None |}.

Definition total (ts : list Task) : Z := Z.of_nat (sum_list_with (fun t => Z.to_nat (tk_Size t)) ts).

(** A node with some of its [n] children. *)
Record partial (n : Z) (done : list Task) (node : PNode) : Prop := {
  pa_pending : Pending node = n - Z.of_nat (length done);
  pa_size : pn_Size node = total done;
  pa_length : #(Children node) = n;
  pa_keys : Forall (fun k : Key => #k = 32) (Children node);
  pa_children : Forall (fun t => Children node !! Z.to_nat (tk_Index t) = Some (hash (tk_Data t))) done
}.

Lemma copy_hash (old : Key) l : #old = 32 -> copy_at old 0 (hash l) = hash l.
Proof using Hok. intros Hl. apply copy_at_whole. pose proof (po_hash Hok l). unfold zlen in *. lia. Qed.

Lemma pending_small n idx : 0 <= idx < n -> n <= b -> pending_tasks pc n idx b = n.
Proof using Hok.
  intros Hi Hn. pose proof (po_branches Hok). unfold pending_tasks. rewrite (Z.div_small idx), Z.div_same, Z.div_1_r by lia.
  destruct (decide (n = b)) as [->|Hne].
  - rewrite Z.div_same by lia. done.
  - rewrite (Z.div_small n) by lia. cbn. rewrite Z.mod_small by lia. lia.
Qed.

Lemma insert_partial n done t level la :
  0 <= tk_Index t < n -> n <= b -> 0 <= tk_Size t -> Forall (fun t' => tk_Index t' <> tk_Index t /\ 0 <= tk_Index t') done ->
  total (done ++ [t]) < 2 ^ 64 ->
  match level !! 0 with Some node => partial n done node | None => done = [] end ->
  exists node, insert_child pc n (tk_Index t) b level (hash (tk_Data t)) (tk_Size t) la = Some node /\ partial n (done ++ [t]) node.
Proof using Hok.
  intros Hi Hn Hsz Hne Hsum Hlevel. pose proof (po_branches Hok). unfold insert_child. rewrite (Z.div_small (tk_Index t) b) by lia.
  rewrite Z.div_same, Z.div_1_r, Z.mod_small by lia. unfold total in Hsum. rewrite sum_list_with_app in Hsum. cbn in Hsum.
  set (node := match level !! 0 with Some x => x | None => _ end).
  assert (Hnode : partial n done node).
  { subst node. destruct (level !! 0); [done|]. subst done. rewrite pending_small by lia. split; cbn; [lia|done| | |constructor].
    - unfold zlen. rewrite length_replicate. lia.
    - apply Forall_replicate. done. }
  clearbody node. destruct Hnode as [Hp Hs Hl Hk Hc]. unfold index. rewrite decide_True by lia.
  destruct (lookup_lt_is_Some_2 (Children node) (Z.to_nat (tk_Index t))) as [old Hold]; [unfold zlen in Hl; lia|]. rewrite Hold.
  pose proof (proj1 (Forall_lookup _ _) Hk _ _ Hold) as Hol. cbn in Hol. rewrite copy_hash by done.
  eexists. split; [done|]. split; cbn [Pending pn_Size Children].
  - rewrite length_app. cbn. lia.
  - rewrite Hs. unfold total. rewrite sum_list_with_app. cbn. unfold u64. rewrite Z.mod_small by lia. lia.
  - unfold zlen in *. by rewrite length_insert.
  - apply Forall_insert; [done|]. apply (po_hash Hok).
  - apply Forall_app. split.
    + rewrite Forall_forall in *. intros t' Ht'. destruct (Hne t' Ht'). rewrite list_lookup_insert_ne by lia. by apply Hc.
    + constructor; [|done]. apply list_lookup_insert_eq. by eapply lookup_lt_Some.
Qed.

(** The data of a node: the keys behind the size. *)
Lemma copy_children_ok pre (cs : list Key) (i : Z) :
  Forall (fun k : Key => #k = 32) cs -> 0 <= i -> #pre = i * 32 + 8 ->
  copy_children 32 (pre ++ replicate (32 * length cs) 0) i cs = Some (pre ++ concat cs).
Proof using Type.
  intros HF. revert pre i. induction HF as [|k cs Hk _ IH]; intros pre i Hi Hpre; cbn [copy_children]; [cbn; by rewrite app_nil_r|].
  destruct (Z.leb_spec (i * 32 + 8) (#(pre ++ replicate (32 * length (k :: cs)) 0))) as [_|Hlt].
  2:{ unfold zlen in *. rewrite length_app in Hlt. lia. }
  replace (Z.to_nat (i * 32 + 8)) with (length pre) by (unfold zlen in Hpre; lia).
  cbn [length]. replace (32 * S (length cs))%nat with (32 + 32 * length cs)%nat by lia. rewrite replicate_add.
  rewrite copy_at_fit by (rewrite length_replicate; unfold zlen in Hk; lia). rewrite app_assoc.
  rewrite (IH (pre ++ k) (i + 1)) by (unfold zlen in *; rewrite ?length_app; lia). cbn [concat]. by rewrite <- app_assoc.
Qed.

Lemma node_data_ok t node :
  Forall (fun k : Key => #k = 32) (Children node) ->
  node_data pc t (Some node) = Some (le64 (pn_Size node) ++ concat (Children node), le64 (pn_Size node) ++ concat (Children node), pn_Size node).
Proof using Hok.
  intros Hk. unfold node_data. rewrite (po_size Hok). assert (Hl8 : length (le64 (pn_Size node)) = 8%nat) by (by rewrite length_le64).
  replace (make_bytes (32 * #(Children node) + 8)) with (replicate 8 0 ++ replicate (32 * length (Children node)) 0).
  2:{ unfold make_bytes. rewrite <- replicate_add. f_equal. unfold zlen. lia. }
  rewrite copy_at_front by (by rewrite length_replicate). by rewrite (copy_children_ok _ _ 0) by (unfold zlen; try done; lia).
Qed.

Definition node_bytes (node : PNode) : bytes := le64 (pn_Size node) ++ concat (Children node).
Definition node_chunk (node : PNode) : Chunk :=
  {| ck_Key := hash (node_bytes node); ck_SData := Some (node_bytes node); ck_Size := 0; ck_Source := None; ck_Req := None |}.

(** The complete node goes to the root, as its only child. *)
Lemma climb_root n t node results acc :
  0 <= tk_Index t < n -> 1 < n <= b -> Forall (fun k : Key => #k = 32) (Children node) -> tr_Chunks results = n ->
  (exists l1, tr_Levels results = [∅; l1]) ->
  exists results', climb pc 1 (b * b) t (Some node) results (Some acc) = Some (results', Some (acc ++ [node_chunk node])) /\
    root_key results' = Some (hash (node_bytes node)).
Proof using Hok.
  intros Ht Hn Hk Hc (l1 & Hl). pose proof (po_branches Hok). erewrite climb_round; [|by apply node_data_ok|by rewrite Hl].
  unfold insert_child. rewrite lookup_empty, Hc, !(Z.div_small _ (b * b)) by nia. unfold pending_tasks.
  rewrite !(Z.div_small _ (b * b)), Z.eqb_refl, Z.div_mul by nia.
  replace ((n + b - 1) / b) with 1 by (apply (Z.div_unique _ _ _ (n - 1)); lia). rewrite Z.mod_1_l by lia.
  rewrite (Z.div_small (tk_Index t) b), Z.mod_0_l by lia. cbn [Children]. change (replicate (Z.to_nat 1) (replicate 32 0)) with [replicate 32 0].
  change (index [replicate 32 0] 0) with (Some (replicate 32 0 : list Z)). cbv iota zeta. cbn [Pending]. rewrite copy_hash by done.
  eexists. split; [done|]. unfold root_key. cbn [tr_Levels]. rewrite Hl. cbn. done.
Qed.

Lemma processor_one n done rest results acc :
  1 < n <= b -> n = Z.of_nat (length (done ++ rest)) -> rest <> [] -> NoDup (tk_Index <$> done ++ rest) ->
  Forall (fun t => 0 <= tk_Index t < n /\ 0 <= tk_Size t) (done ++ rest) -> total (done ++ rest) < 2 ^ 64 ->
  tr_Chunks results = n ->
  (exists l1, tr_Levels results = [∅; l1] /\ match l1 !! 0 with Some node => partial n done node | None => done = [] end) ->
  exists node results', partial n (done ++ rest) node /\
    processor pc rest results (Some acc) = Some (results', Some (acc ++ (leaf_chunk0 <$> rest) ++ [node_chunk node])) /\
    root_key results' = Some (hash (node_bytes node)).
Proof using Hok.
  intros Hn. revert done results acc. induction rest as [|t rest IH]; intros dn results acc Hlen Hne Hnd HF Htot Hc (l1 & Hl & Hl1); [done|].
  clear Hne. pose proof HF as HF0. apply Forall_app in HF as [HFd HFr]. inversion_clear HFr as [|? ? [Hti Hts] HFr'].
  destruct (insert_partial n dn t l1 (tk_Last t || false)) as (node & Ei & Hpart); try done; try lia.
  { rewrite fmap_app, NoDup_app in Hnd. destruct Hnd as (_ & Hd & _). rewrite Forall_forall in HFd |- *. intros t' Ht'. split; [|by apply HFd].
    intros E. apply (Hd (tk_Index t')); [by apply list_elem_of_fmap_2|]. rewrite E. by left. }
  { unfold total in *. rewrite sum_list_with_app in Htot |- *. cbn in *. lia. }
  assert (Hd : forall r : list Task, (dn ++ [t]) ++ r = dn ++ t :: r) by (intros r; by rewrite <- app_assoc).
  cbn [processor]. rewrite Hl. change (length [∅; l1]) with 2%nat. erewrite climb_round; [|reflexivity|by rewrite Hl].
  rewrite Hc, Ei. cbv zeta. rewrite (pa_pending _ _ _ Hpart), length_app. cbn [length].
  rewrite Hl. cbn [insert list_insert alter list_alter]. rewrite (Z.div_small (tk_Index t)) by lia.
  destruct rest as [|t2 rest].
  - rewrite length_app in Hlen. cbn in Hlen. destruct (Z.ltb_spec 0 (n - Z.of_nat (length dn + 1))); [lia|].
    destruct (climb_root n t node {| tr_Chunks := n; tr_Levels := [∅; <[0 := node]> l1] |} (acc ++ [leaf_chunk0 t])) as (results' & E & Hr);
      [done|done|apply Hpart|done|by exists (<[0 := node]> l1)|].
    exists node, results'. cbn [send]. unfold leaf_chunk0 at 1 in E. rewrite E. split_and!; try done. cbn. by rewrite <- app_assoc.
  - rewrite length_app in Hlen. cbn [length] in Hlen. destruct (Z.ltb_spec 0 (n - Z.of_nat (length dn + 1))); [|lia].
    destruct (IH (dn ++ [t]) {| tr_Chunks := n; tr_Levels := [∅; <[0 := node]> l1] |} (acc ++ [leaf_chunk0 t])) as (node' & results' & Hpart' & E & Hr);
      rewrite ?Hd; try done.
    + rewrite length_app. cbn. lia.
    + exists (<[0 := node]> l1). split; [done|]. by rewrite lookup_insert_eq.
    + rewrite Hd in Hpart'. exists node', results'. split_and!; try done. cbn [send]. unfold leaf_chunk0 at 1 in E. rewrite E. cbn. by rewrite <- app_assoc.
Qed.

(** ** The theorems *)

Lemma total_tasks idx ps : total (tasks_of idx ps) = #(concat ps).
Proof using Type.
  revert idx. induction ps as [|p ps IH]; intros idx; [done|]. destruct ps as [|q ps].
  - cbn. unfold total, zlen. cbn. rewrite app_nil_r. lia.
  - change (tasks_of idx (p :: q :: ps)) with
      ({| tk_Index := idx; tk_Size := #p; tk_Data := le64 (#p) ++ p; tk_Last := false |} :: tasks_of (idx + 1) (q :: ps)).
    specialize (IH (idx + 1)). unfold total in *. cbn [sum_list_with tk_Size]. rewrite Nat2Z.inj_add, IH.
    change (concat (p :: q :: ps)) with (p ++ concat (q :: ps)). unfold zlen. rewrite length_app. lia.
Qed.

(** The children of a node that has all its tasks, whatever the order. *)
Lemma partial_children n ts ps node :
  ts ≡ₚ tasks_of 0 ps -> n = Z.of_nat (length ps) -> partial n ts node ->
  Children node = (fun p => hash (le64 (#p) ++ p)) <$> ps /\ pn_Size node = #(concat ps).
Proof using Type.
  intros Hts Hn [_ Hs Hl _ Hc]. split.
  - apply list_eq. intros i. rewrite list_lookup_fmap. destruct (ps !! i) as [p|] eqn:Ep; cbn [fmap option_fmap option_map].
    + destruct (lookup_lt_is_Some_2 (tasks_of 0 ps) i) as [t Ht]; [rewrite tasks_of_length; by eapply lookup_lt_Some|].
      destruct (tasks_of_lookup _ _ _ _ Ht) as (p' & Ep' & Ei & _ & Ed). assert (p' = p) as -> by congruence. rewrite Forall_forall in Hc.
      rewrite <- Ed, <- (Hc t); [f_equal; lia|]. rewrite Hts. by eapply list_elem_of_lookup_2.
    + apply lookup_ge_None in Ep. apply lookup_ge_None. unfold zlen in Hl. lia.
  - rewrite Hs, <- (total_tasks 0). unfold total. by rewrite Hts.
Qed.

(** The tree chunker with the same parameters. *)
Definition tree_chunker : TreeChunker :=
  {| Chunker.branches := b; hashFunc := py_hashFunc pc; hashSize := 32; Chunker.chunkSize := chunkSize |}.

Lemma tree_chunker_ok : chunkSize = 32 * b -> chunker_ok tree_chunker.
Proof using Hok.
  intros Hcs. pose proof (po_chunk Hok). split; cbn; [apply (po_hash Hok)|lia|apply (po_branches Hok)|done|lia].
Qed.

(** What identifies a chunk. *)
Definition key_data (c : Chunk) : Key * option bytes := (ck_Key c, ck_SData c).

Lemma tree_one data :
  chunkSize < #data <= chunkSize * b ->
  tree tree_chunker 1 chunkSize data =
    let ps := pieces (chunk_count (#data)) (Z.to_nat chunkSize) data in
    let keys := (fun p => hash (le64 (#p) ++ p)) <$> ps in
    let c := hashChunk tree_chunker (le64 (#data) ++ concat keys) (#data) in
    (ck_Key c, ((fun p => hashChunk tree_chunker (le64 (#p) ++ p) (#p)) <$> ps) ++ [c]).
Proof using Hok.
  intros Hd. cbn [tree tree_chunker]. destruct (Z.ltb_spec (#data) chunkSize); [lia|]. unfold branch_count, chunk_count.
  set (ps := pieces _ _ data). rewrite !map_map. cbn [fst snd ck_Key hashChunk].
  assert (Hm : concat (map (fun p : bytes => [hashChunk tree_chunker (le64 (#p) ++ p) (#p)]) ps) = (fun p => hashChunk tree_chunker (le64 (#p) ++ p) (#p)) <$> ps).
  { clear. induction ps as [|p ps IH]; [done|]. cbn. by f_equal. }
  cbn [tree_chunker] in *. rewrite Hm. done.
Qed.

(** The depth of the tree of such a document. *)
Lemma grow_small (data : bytes) :
  chunkSize = 32 * b -> 0 < #data <= chunkSize * b -> #data * b < 2 ^ 63 -> exists d : nat,
    grow tree_chunker depth_fuel chunkSize 0 (#data) = Some (chunkSize * b ^ Z.of_nat d, d) /\ d = if decide (#data <= chunkSize) then 0%nat else 1%nat.
Proof using Hok.
  intros Hcs Hd Hsz. pose proof (po_branches Hok). pose proof (po_chunk Hok). unfold depth_fuel. cbn [grow tree_chunker Chunker.branches].
  destruct (Z.ltb_spec chunkSize (#data)) as [Hlt|Hge].
  - rewrite i64_id by (unfold is_i64; nia). rewrite (proj2 (Z.ltb_ge _ _)) by lia. exists 1%nat. rewrite decide_False by lia.
    split; [|done]. by rewrite Z.pow_1_r.
  - exists 0%nat. rewrite decide_True by lia. split; [|done]. by rewrite Z.pow_0_r, Z.mul_1_r.
Qed.

Lemma ceil_log_small n : 1 <= n <= b -> ceil_log n b = if decide (n = 1) then 0 else 1.
Proof using Hok.
  intros Hn. case_decide as E; [subst n; apply (po_log_one Hok)|apply (po_log_node Hok); lia].
Qed.

(** The document of a single chunk. *)
Lemma pyramid_leaf data err order :
  (err = None \/ err = Some EOF) -> (forall l, order l ≡ₚ l) -> 0 < #data <= chunkSize ->
  PyramidSplit pc ceil_log 1 order [(data, err)] (#data) (Some []) =
    let c := {| ck_Key := hash (le64 (#data) ++ data); ck_SData := Some (le64 (#data) ++ data); ck_Size := 0; ck_Source := None; ck_Req := None |} in
    Some (Ok (ck_Key c, Some [c])).
Proof using Hok.
  intros Herr Hord Hd. pose proof (po_branches Hok). pose proof (po_chunk Hok).
  assert (Hn : (#data + chunkSize - 1) / chunkSize = 1) by (symmetry; apply (Z.div_unique _ _ _ (#data - 1)); lia).
  unfold PyramidSplit. rewrite Hn, ceil_log_small, decide_True by lia. cbn [Z.ltb Z.compare Z.add].
  pose proof (feed_whole 1 data err 0 0 Herr ltac:(lia) ltac:(lia)) as Hfeed. rewrite Z.add_0_l in Hfeed. rewrite Hfeed. cbn [pieces tasks_of]. rewrite take_ge by (unfold zlen in *; lia).
  set (t := {| tk_Index := 0; tk_Size := #data; tk_Data := le64 (#data) ++ data; tk_Last := true |}).
  assert (order [t] = [t]) as -> by (apply Permutation_singleton_r, Hord). cbn [processor].
  match goal with |- context [climb pc ?n b t None ?r ?c] => change (climb pc n b t None r c) with (climb pc 1 b t None r c) end.
  erewrite climb_round; [|reflexivity|reflexivity]. cbn [tr_Chunks].
  destruct (insert_partial 1 [] t ∅ (tk_Last t || false)) as (node & Ei & Hpart); try done; try (cbn; lia).
  { unfold total, t, zlen in *. cbn. lia. }
  rewrite Ei. cbv zeta. rewrite (pa_pending _ _ _ Hpart). cbn [app length]. change (0 <? 1 - Z.of_nat 1) with false. cbv iota.
  cbn [climb send]. match goal with |- context [root_key ?r] => change (root_key r) with (root_key {| tr_Chunks := 1; tr_Levels := [<[0 / b := node]> ∅] |}) end.
  rewrite (Z.div_0_l b) by lia. unfold root_key. cbn [tr_Levels]. rewrite lookup_insert_eq.
  destruct (partial_children 1 [t] [data] node) as [-> _]; [done|done|done|]. done.
Qed.

Lemma leaf_chunks idx ps :
  key_data <$> (leaf_chunk0 <$> tasks_of idx ps) = key_data <$> ((fun p => hashChunk tree_chunker (le64 (#p) ++ p) (#p)) <$> ps).
Proof using Type.
  apply list_eq. intros i. rewrite !list_lookup_fmap. destruct (tasks_of idx ps !! i) as [t|] eqn:E.
  - destruct (tasks_of_lookup _ _ _ _ E) as (p & -> & _ & _ & Hdata). cbn. unfold key_data, leaf_chunk0. cbn. by rewrite Hdata.
  - apply lookup_ge_None in E. rewrite tasks_of_length in E. by rewrite (proj2 (lookup_ge_None _ _) E).
Qed.

(** The document of a single node. *)
Lemma pyramid_node data err order :
  (err = None \/ err = Some EOF) -> (forall l, order l ≡ₚ l) -> chunkSize < #data <= chunkSize * b -> #data < 2 ^ 63 ->
  exists chunks',
    PyramidSplit pc ceil_log (chunk_count (#data)) order [(data, err)] (#data) (Some []) =
      Some (Ok (fst (tree tree_chunker 1 chunkSize data), Some chunks')) /\
    key_data <$> chunks' ≡ₚ key_data <$> snd (tree tree_chunker 1 chunkSize data).
Proof using Hok.
  intros Herr Hord Hd Hsz. pose proof (po_branches Hok). pose proof (po_chunk Hok).
  pose proof (chunk_count_bounds (#data) ltac:(lia)) as Hcnt. rewrite tree_one by lia. cbv zeta.
  set (n := chunk_count (#data)) in *. set (ps := pieces n (Z.to_nat chunkSize) data).
  assert (Hps : length ps = n) by apply length_pieces.
  assert (Hcat : concat ps = data) by (apply concat_pieces; unfold zlen in *; nia).
  assert (Hn : 1 < Z.of_nat n <= b) by nia.
  destruct (processor_one (Z.of_nat n) [] (order (tasks_of 0 ps)) {| tr_Chunks := Z.of_nat n; tr_Levels := [∅; ∅] |} [])
    as (node & results' & Hpart & E & Hroot); rewrite ?app_nil_l; try done.
  - by rewrite Hord, tasks_of_length, Hps.
  - intros E0. pose proof (Hord (tasks_of 0 ps)) as Hp. rewrite E0 in Hp. apply Permutation_nil in Hp.
    pose proof (tasks_of_length 0 ps) as Hl. rewrite Hp in Hl. cbn in Hl. lia.
  - rewrite Hord, tasks_of_index. apply NoDup_fmap; [intros x y; lia|apply NoDup_seq].
  - rewrite Hord. apply Forall_lookup. intros i t Ht. destruct (tasks_of_lookup _ _ _ _ Ht) as (p & Hp%lookup_lt_Some & -> & -> & _).
    split; [lia|apply zlen_nonneg].
  - unfold total. rewrite Hord. fold (total (tasks_of 0 ps)). rewrite total_tasks, Hcat. lia.
  - by exists ∅.
  - destruct (partial_children (Z.of_nat n) _ ps node (Hord _) ltac:(lia) Hpart) as [Hch Hsize]. rewrite Hcat in Hsize.
    eexists. split.
    + unfold PyramidSplit. assert (Hq : (#data + chunkSize - 1) / chunkSize = Z.of_nat n).
      { subst n. unfold chunk_count. rewrite Z2Nat.id; [done|]. apply Z.div_pos; lia. }
      rewrite Hq, ceil_log_small, decide_False by lia. cbn [Z.ltb Z.compare Z.add].
      pose proof (feed_whole n data err 0 0 Herr ltac:(lia) ltac:(lia)) as Hfeed. rewrite Z.add_0_l in Hfeed. rewrite Hfeed. fold ps.
      match goal with |- context [replicate ?k _] => change (replicate k (∅ : gmap Z PNode)) with ([∅; ∅] : list (gmap Z PNode)) end.
      rewrite E, Hroot. unfold node_bytes. rewrite Hch, Hsize. reflexivity.
    + cbn [snd app]. rewrite !fmap_app, <- (leaf_chunks 0), Hord. apply Permutation_app_head.
      cbn. unfold key_data, node_chunk, node_bytes. cbn. by rewrite Hch, Hsize.
Qed.

(** C22: For documents that are not empty and fill at most one node - 1 to [branches] chunks - and a reader that has the whole
    document ready, so that every [Read] fills its chunk, the pyramid chunker is equivalent to the tree chunker, in whatever order its
    processors take the tasks: the same root key, and the same chunks up to their order and the size field, which it does not set. *)
Theorem pyramid_matches_tree data err order :
  chunkSize = 32 * b -> (err = None \/ err = Some EOF) -> (forall l, order l ≡ₚ l) ->
  0 < #data <= chunkSize * b -> #data * b < 2 ^ 63 ->
  exists key rd' chunks chunks',
    Split tree_chunker depth_fuel [(data, err)] (#data) (Some []) = Some (Ok (key, rd', Some chunks)) /\
    PyramidSplit pc ceil_log (chunk_count (#data)) order [(data, err)] (#data) (Some []) = Some (Ok (key, Some chunks')) /\
    key_data <$> chunks' ≡ₚ key_data <$> chunks.
Proof using Hok.
  intros Hcs Herr Hord Hd Hsz. pose proof (po_branches Hok). pose proof (po_chunk Hok).
  assert (Hpfx : data `prefix_of` content [(data, err)]) by (destruct Herr as [-> | ->]; cbn; [rewrite app_nil_r|]; done).
  destruct (Split_tree tree_chunker [(data, err)] data (tree_chunker_ok Hcs) Hsz Hpfx) as (d & rd' & Hg & _ & HS).
  destruct (grow_small data Hcs Hd Hsz) as (d' & Hg' & Hd'). cbn [tree_chunker Chunker.chunkSize Chunker.branches] in Hg.
  rewrite Hg' in Hg. injection Hg as _ <-. pose proof (chunk_count_bounds (#data) ltac:(lia)) as Hcnt. case_decide as Hsmall; subst d'.
  - assert (chunk_count (#data) = 1%nat) as -> by nia. rewrite pyramid_leaf by (try done; lia).
    eexists _, rd', _, _. split; [exact HS|]. split; [reflexivity|]. reflexivity.
  - destruct (pyramid_node data err order Herr Hord ltac:(lia) ltac:(nia)) as (chunks' & HP & Hperm).
    cbv zeta in HS. cbn [Chunker.chunkSize Chunker.branches tree_chunker] in HS. change (Z.of_nat 1) with 1 in HS.
    rewrite Z.pow_1_r, Z.div_mul in HS by lia. eexists _, rd', _, chunks'. split; [exact HS|]. split; [exact HP|exact Hperm].
Qed.

(** A document whose last node has all its [branches] children and is not full makes [Split] panic: with more than
    [branches * (branches - 1)] and less than [branches * branches] chunks, in whatever order the tasks are taken, for the remainder that
    gives the children of the last node is 0 then, and the node is made without children. The logarithm has to give the two levels. *)
Theorem pyramid_full_node_panics data err order chunkC :
  (err = None \/ err = Some EOF) -> (forall l, order l ≡ₚ l) ->
  b * (b - 1) < Z.of_nat (chunk_count (#data)) < b * b -> ceil_log (Z.of_nat (chunk_count (#data))) b = 2 ->
  PyramidSplit pc ceil_log (chunk_count (#data)) order [(data, err)] (#data) chunkC = Some Panic.
Proof using Hok.
  intros Herr Hord Hn Hlog. pose proof (po_branches Hok). pose proof (po_chunk Hok).
  assert (Hpos : 0 < #data).
  { destruct (Z.ltb_spec 0 (#data)); [done|]. pose proof (zlen_nonneg data). replace (#data) with 0 in Hn by lia.
    unfold chunk_count in Hn. rewrite Z.div_small in Hn by lia. cbn in Hn. nia. }
  pose proof (chunk_count_bounds (#data) Hpos) as Hcnt. set (n := chunk_count (#data)) in *. unfold PyramidSplit.
  assert (Hq : (#data + chunkSize - 1) / chunkSize = Z.of_nat n).
  { subst n. unfold chunk_count. rewrite Z2Nat.id; [done|]. apply Z.div_pos; lia. }
  rewrite Hq, Hlog. cbn [Z.ltb Z.compare Z.add].
  pose proof (feed_whole n data err 0 0 Herr ltac:(lia) ltac:(lia)) as Hfeed. rewrite Z.add_0_l in Hfeed. rewrite Hfeed.
  set (ps := pieces n (Z.to_nat chunkSize) data). assert (Hps : length ps = n) by apply length_pieces.
  rewrite (processor_full (Z.of_nat n) []); [done|done| | |].
  - rewrite Hord. apply Forall_lookup. intros i t Ht. destruct (tasks_of_lookup _ _ _ _ Ht) as (p & Hp%lookup_lt_Some & -> & _). lia.
  - split; [done|]. by exists ∅, ∅.
  - cbn [app]. rewrite Hord. apply tasks_below. nia.
Qed.
End Lemmas.

(** ** A small chunker *)

(** A hash of 32 bytes, and chunks of two of them. *)
Definition hash32 : Hasher := {| h_sum := fun l => foldr Z.add 0 l mod 256 :: replicate 31 (#l mod 256); h_size := 32 |}.

Definition toy_pyramid : PyramidChunker :=
  {| py_hashFunc := hash32; py_chunkSize := 64; py_hashSize := 32; py_branches := 2; workerCount := 1 |}.

Definition log2 (n base : Z) : Z := Z.log2_up n.

Lemma toy_pyramid_ok : pyramid_ok toy_pyramid log2.
Proof.
  split; cbn; try done; try lia. intros n Hn. by replace n with 2 by lia.
Qed.

(** Two chunks, taken in the opposite order. *)
Lemma pyramid_matches_tree_witness :
  exists key rd' chunks chunks',
    Split (tree_chunker toy_pyramid) depth_fuel [(replicate 100 7, Some EOF)] 100 (Some []) = Some (Ok (key, rd', Some chunks)) /\
    PyramidSplit toy_pyramid log2 2 (@reverse _) [(replicate 100 7, Some EOF)] 100 (Some []) = Some (Ok (key, Some chunks')) /\
    key_data <$> chunks' ≡ₚ key_data <$> chunks.
Proof.
  apply (pyramid_matches_tree toy_pyramid log2 toy_pyramid_ok (replicate 100 7) (Some EOF) (@reverse _));
    [done|by right|apply reverse_Permutation|done|done].
Defined.

(** Three chunks, with two to a node. *)
Lemma pyramid_full_node_panics_witness :
  PyramidSplit toy_pyramid log2 3 (fun l => l) [(replicate 129 7, None)] 129 None = Some Panic.
Proof.
  apply (pyramid_full_node_panics toy_pyramid log2 toy_pyramid_ok (replicate 129 7) None (fun l => l) None); [by left|done|done|done].
Defined.

(** An empty document has a negative number of levels ([math.Log(0)] is -Inf, converted to the least integer), and
    an error of the reader leaves the root node missing. *)
Example pyramid_empty_panics : PyramidSplit toy_pyramid (fun n _ => if decide (n = 0) then - 2 ^ 63 else log2 n 2) 1 (fun l => l) [] 0 None = Some Panic.
Proof. reflexivity. Qed.

Example pyramid_read_error_panics :
  PyramidSplit toy_pyramid log2 5 (fun l => l) [(replicate 64 7, None); ([], Some (OtherErr 1))] 100 None = Some Panic.
Proof. reflexivity. Qed.
