(* ===== verification/DbSelect.v ===== *)
(** Quickselect of the garbage collector ([gcListPartition], [gcListSelect] of
    [livepeer/storage/dbstore.go]): it ends, permutes its range only, and puts
    the element of the asked rank in its place. *)
From stdpp Require Import base gmap list strings sorting.
From Stdlib Require Import ZArith Lia.
From S2P Require Import Prelude Types Database DbStore.

(** [l'] is [l] with the range [a, b] rearranged. *)
Record rearranged (a b : Z) (l l' : gc_array) : Prop := {
  re_length : #l' = #l;
  re_perm : l' ≡ₚ l;
  re_inside : forall i, a <= i <= b -> exists j, a <= j <= b /\ index l' i = index l j;
  re_outside : forall i, ~ (a <= i <= b) -> index l' i = index l i
}.

Lemma rearranged_refl a b l : rearranged a b l l.
Proof. split; [done|done|eauto|done]. Qed.

Lemma rearranged_trans a b l1 l2 l3 :
  rearranged a b l1 l2 -> rearranged a b l2 l3 -> rearranged a b l1 l3.
Proof.
  intros [Hl1 Hp1 Hi1 Ho1] [Hl2 Hp2 Hi2 Ho2]. split.
  - by rewrite Hl2.
  - by rewrite Hp2.
  - intros i Hi. destruct (Hi2 i Hi) as (j & Hj & ->). auto.
  - intros i Hi. by rewrite Ho2, Ho1.
Qed.

Lemma rearranged_widen a b a' b' l l' :
  a' <= a -> b <= b' -> rearranged a b l l' -> rearranged a' b' l l'.
Proof.
  intros Ha Hb [Hl Hp Hi Ho]. split; [done|done| |].
  - intros i Hi'. destruct (decide (a <= i <= b)) as [Hin|Hout].
    + destruct (Hi i Hin) as (j & Hj & ->). exists j. split; [lia|done].
    + exists i. split; [lia|]. by apply Ho.
  - intros i Hi'. apply Ho. lia.
Qed.

Lemma index_insert (l : gc_array) i j x :
  0 <= i < #l -> 0 <= j -> index (<[Z.to_nat i := x]> l) j = if decide (i = j) then Some x else index l j.
Proof.
  intros Hi Hj. destruct (decide (i = j)) as [<- |Hij]; unfold index;
    rewrite !(decide_True (P := 0 <= _)) by done.
  - apply list_lookup_insert_eq. zlia.
  - apply list_lookup_insert_ne. lia.
Qed.

Lemma index_neg {A} (l : list A) i : i < 0 -> index l i = None.
Proof. intros. unfold index. by rewrite decide_False by lia. Qed.

Lemma gc_swap_ok l a b x y :
  0 <= a -> a <= x <= b -> a <= y <= b -> b < #l ->
  exists l', gc_swap l x y = Some l' /\ rearranged a b l l' /\
    forall i, index l' i = index l (if decide (i = y) then x else if decide (i = x) then y else i).
Proof.
  intros Ha Hx Hy Hb. unfold gc_swap.
  assert (Hex : forall i, 0 <= i < #l -> exists u, index l i = Some u /\ l !! Z.to_nat i = Some u).
  { intros i Hi. unfold index. rewrite decide_True by lia.
    destruct (lookup_lt_is_Some_2 l (Z.to_nat i)) as [u Hu]; [zlia|eauto]. }
  destruct (Hex x) as (u & Hu & Hu'); [lia|]. destruct (Hex y) as (v & Hv & Hv'); [lia|].
  rewrite Hu, Hv. cbn [mbind option_bind]. unfold gc_set. rewrite decide_True by lia.
  cbn [mbind option_bind]. rewrite decide_True by (unfold zlen; rewrite length_insert; zlia).
  eexists. split; [done|].
  assert (Hidx : forall i, index (<[Z.to_nat y:=u]> (<[Z.to_nat x:=v]> l)) i
                 = index l (if decide (i = y) then x else if decide (i = x) then y else i)).
  { intros i. destruct (decide (i < 0)) as [Hneg|Hpos].
    - rewrite !index_neg by (repeat case_decide; lia). done.
    - rewrite index_insert by (unfold zlen; rewrite ?length_insert; zlia).
      rewrite index_insert by lia. repeat case_decide; subst; congruence || lia. }
  split; [|done]. split.
  - unfold zlen. by rewrite !length_insert.
  - by apply Permutation_insert_swap.
  - intros i Hi. rewrite Hidx. eexists. split; [|done]. repeat case_decide; lia.
  - intros i Hi. rewrite Hidx. repeat case_decide; subst; done || lia.
Qed.

(** All items of a range are there. *)
Definition filled (l : gc_array) (a b : Z) : Prop :=
  forall i, a <= i <= b -> exists v, gc_value l i = Some v.

(** A property of all values of a range. *)
Definition values (l : gc_array) (a b : Z) (P : Z -> Prop) : Prop :=
  forall i v, a <= i <= b -> gc_value l i = Some v -> P v.

Lemma gc_value_index l l' i j : index l' i = index l j -> gc_value l' i = gc_value l j.
Proof. unfold gc_value. by intros ->. Qed.

Lemma filled_rearranged a b l l' : rearranged a b l l' -> filled l a b -> filled l' a b.
Proof.
  intros [_ _ Hin _] Hf i Hi. destruct (Hin i Hi) as (j & Hj & E).
  rewrite (gc_value_index _ _ _ _ E). auto.
Qed.

Lemma values_rearranged a b l l' P : rearranged a b l l' -> values l a b P -> values l' a b P.
Proof.
  intros [_ _ Hin _] Hv i v Hi Hiv. destruct (Hin i Hi) as (j & Hj & E).
  rewrite (gc_value_index _ _ _ _ E) in Hiv. eauto.
Qed.

Lemma gc_part_loop_ok n l left right i st pv :
  0 <= left -> left <= st <= i -> i + Z.of_nat n = right -> right < #l ->
  filled l left right ->
  values l left (st - 1) (fun v => v < pv) -> values l st (i - 1) (fun v => pv <= v) ->
  exists l' st', gc_part_loop n l i st pv = Some (l', st') /\
    left <= st' <= right /\ rearranged left right l l' /\ index l' right = index l right /\
    values l' left (st' - 1) (fun v => v < pv) /\ values l' st' (right - 1) (fun v => pv <= v).
Proof.
  intros Hl0. revert l i st. induction n as [|n IH]; intros l i st Hst Hn Hr Hf Hlo Hhi;
    cbn [gc_part_loop].
  { exists l, st. replace right with i by lia. split_and!; auto using rearranged_refl; lia. }
  destruct (Hf i ltac:(lia)) as [v Hv]. rewrite Hv. cbn [mbind option_bind].
  destruct (Z.ltb_spec v pv) as [Hlt|Hge].
  - destruct (gc_swap_ok l left (right - 1) st i) as (l1 & Hsw & Hre & Hidx); [lia..|].
    rewrite Hsw. cbn [mbind option_bind].
    assert (Hre' : rearranged left right l l1) by (eapply rearranged_widen; [| |exact Hre]; lia).
    assert (Hval : forall j, gc_value l1 j = gc_value l (if decide (j = i) then st else if decide (j = st) then i else j))
      by (intros j; apply gc_value_index, Hidx).
    destruct (IH l1 (i + 1) (st + 1)) as (l' & st' & Hrun & Hb & Hre1 & Hidxr & Hlo' & Hhi').
    + lia.
    + lia.
    + destruct Hre'. lia.
    + by eapply filled_rearranged.
    + intros j w Hj. rewrite Hval. destruct (decide (j = i)) as [-> |].
      { replace st with i by lia. rewrite Hv. congruence. }
      destruct (decide (j = st)) as [-> |]; [rewrite Hv; congruence|].
      intros Hw. apply (Hlo j w); [lia|done].
    + intros j w Hj. rewrite Hval. repeat case_decide; subst; try lia; intros Hw.
      * apply (Hhi st w); [lia|done].
      * apply (Hhi j w); [lia|done].
    + exists l', st'. split_and!; try done; try lia.
      * by eapply rearranged_trans.
      * rewrite Hidxr, Hidx. repeat case_decide; lia || done.
  - apply IH; try done; try lia.
    intros j w Hj Hw. destruct (decide (j = i)) as [-> |]; [|apply (Hhi j w); [lia|done]].
    rewrite Hv in Hw. by injection Hw as <-.
Qed.

(** The partition step: the pivot lands at [p], smaller values before it. *)
Lemma gcListPartition_ok l left right piv :
  0 <= left -> left <= piv <= right -> right < #l -> filled l left right ->
  exists l' p pv, gcListPartition l left right piv = Some (l', p) /\
    left <= p <= right /\ rearranged left right l l' /\ gc_value l' p = Some pv /\
    values l' left (p - 1) (fun v => v < pv) /\ values l' (p + 1) right (fun v => pv <= v).
Proof.
  intros Hl0 Hp Hr Hf. unfold gcListPartition.
  destruct (Hf piv Hp) as [pv Hpv]. rewrite Hpv. cbn [mbind option_bind].
  destruct (gc_swap_ok l left right piv right) as (l1 & -> & Hre1 & Hidx1); [lia..|].
  cbn [mbind option_bind].
  destruct (gc_part_loop_ok (Z.to_nat (right - left)) l1 left right left left pv)
    as (l2 & st & -> & Hst & Hre2 & Hir & Hlo & Hhi); [lia|lia|lia| | | | |].
  { destruct Hre1. lia. }
  { by eapply filled_rearranged. }
  { intros i v Hi. lia. }
  { intros i v Hi. lia. }
  cbn [mbind option_bind].
  destruct (gc_swap_ok l2 left right st right) as (l3 & -> & Hre3 & Hidx3); [lia..| |].
  { destruct Hre1, Hre2. lia. }
  cbn [mbind option_bind]. exists l3, st, pv.
  assert (Hval : forall j, gc_value l3 j = gc_value l2 (if decide (j = right) then st else if decide (j = st) then right else j))
    by (intros j; apply gc_value_index, Hidx3).
  assert (Hpr : gc_value l2 right = Some pv).
  { rewrite (gc_value_index _ _ _ _ Hir), (gc_value_index _ _ _ _ (Hidx1 right)).
    rewrite decide_True by done. done. }
  split_and!; try done; try lia.
  - eapply rearranged_trans; [exact Hre1|]. by eapply rearranged_trans.
  - rewrite Hval. repeat case_decide; subst; done.
  - intros i v Hi. rewrite Hval. repeat case_decide; subst; try lia. intros Hv. apply (Hlo i v); [lia|done].
  - intros i v Hi. rewrite Hval. repeat case_decide; subst; try lia.
    + intros Hv. destruct (decide (st = right)); [lia|]. apply (Hhi st v); [lia|done].
    + intros Hv. apply (Hhi i v); [lia|done].
Qed.

(** The element of rank [n] is in its place. *)
Definition selected (l : gc_array) (left right n v : Z) : Prop :=
  gc_value l n = Some v /\ values l left (n - 1) (fun w => w <= v) /\ values l (n + 1) right (fun w => v <= w).

Lemma gcListSelect_ok fuel l left right n :
  0 <= left -> left <= n <= right -> right < #l -> filled l left right ->
  (Z.to_nat (right - left) < fuel)%nat ->
  exists l' v, gcListSelect fuel l left right n = Some (l', n) /\
    rearranged left right l l' /\ selected l' left right n v.
Proof.
  revert l left right. induction fuel as [|f IH]; intros l left right Hl0 Hn Hr Hf Hfuel; [lia|].
  cbn [gcListSelect]. destruct (Z.eqb_spec left right) as [-> |Hne].
  { assert (n = right) as -> by lia. destruct (Hf right ltac:(lia)) as [v Hv].
    exists l, v. split_and!; [done|apply rearranged_refl|]. split; [done|].
    split; intros i w Hi; lia. }
  destruct (gcListPartition_ok l left right (Z.quot (left + right) 2))
    as (l1 & p & pv & -> & Hp & Hre & Hpv & Hlo & Hhi); try done.
  { rewrite Z.quot_div_nonneg by lia.
    pose proof (Z.div_mod (left + right) 2 ltac:(lia)).
    pose proof (Z.mod_pos_bound (left + right) 2 ltac:(lia)). lia. }
  cbn [mbind option_bind]. destruct (Z.eqb_spec n p) as [-> |Hnp].
  { exists l1, pv. split_and!; [done|done|]. split; [done|].
    split; intros i w Hi Hw; [apply Z.lt_le_incl; by eapply Hlo|by eapply Hhi]. }
  pose proof (filled_rearranged _ _ _ _ Hre Hf) as Hf1. assert (#l1 = #l) by (by destruct Hre).
  destruct (Z.ltb_spec n p).
  - destruct (IH l1 left (p - 1)) as (l2 & v & Hrun & Hre2 & Hv & Hlo2 & Hhi2); try lia.
    { intros i Hi. apply Hf1. lia. }
    exists l2, v. split_and!; [done| |].
    { eapply rearranged_trans; [exact Hre|]. eapply rearranged_widen; [| |exact Hre2]; lia. }
    split; [done|]. split; [done|]. intros i w Hi Hw.
    destruct (decide (i <= p - 1)); [eapply Hhi2; [|done]; lia|].
    pose proof (values_rearranged _ _ _ _ _ Hre2 Hlo n v ltac:(lia) Hv) as Hlt. simpl in Hlt.
    rewrite (gc_value_index _ _ _ _ (re_outside _ _ _ _ Hre2 i ltac:(lia))) in Hw.
    destruct (decide (i = p)) as [-> |]; [rewrite Hpv in Hw; injection Hw; lia|].
    pose proof (Hhi i w ltac:(lia) Hw). simpl in *. lia.
  - destruct (IH l1 (p + 1) right) as (l2 & v & Hrun & Hre2 & Hv & Hlo2 & Hhi2); try lia.
    { intros i Hi. apply Hf1. lia. }
    exists l2, v. split_and!; [done| |].
    { eapply rearranged_trans; [exact Hre|]. eapply rearranged_widen; [| |exact Hre2]; lia. }
    split; [done|]. split; [|done]. intros i w Hi Hw.
    destruct (decide (p + 1 <= i)); [eapply Hlo2; [|done]; lia|].
    pose proof (values_rearranged _ _ _ _ _ Hre2 Hhi n v ltac:(lia) Hv) as Hge. simpl in Hge.
    rewrite (gc_value_index _ _ _ _ (re_outside _ _ _ _ Hre2 i ltac:(lia))) in Hw.
    destruct (decide (i = p)) as [-> |]; [rewrite Hpv in Hw; injection Hw; lia|].
    pose proof (Hlo i w ltac:(lia) Hw). simpl in *. lia.
Qed.

(** [gcListSelect] on a range of present items ends within as many calls as
    the range is long, returns the asked rank, rearranges the items of the
    range and no others, and leaves smaller or equal access counts before the
    rank and larger or equal ones behind it. *)
Theorem gcListSelect_selects l left right n :
  0 <= left -> left <= n <= right -> right < #l -> filled l left right ->
  exists l' v, gcListSelect (S (Z.to_nat (right - left))) l left right n = Some (l', n) /\
    rearranged left right l l' /\ selected l' left right n v.
Proof. intros. apply gcListSelect_ok; try done. lia. Qed.

(** A small array with duplicate access counts. *)
Definition sample_gc : gc_array :=
  map (fun v => Some {| gi_idx := v; gi_value := v; gi_idxKey := {| ks_arr := 0; ks_len := 33 |} |}) [5; 3; 9; 3; 7].

Lemma gcListSelect_selects_witness :
  exists l' v, gcListSelect 5 sample_gc 0 4 1 = Some (l', 1) /\
    rearranged 0 4 sample_gc l' /\ selected l' 0 4 1 v.
Proof.
  apply (gcListSelect_selects sample_gc 0 4 1); try (vm_compute; intuition congruence).
  intros i Hi. assert (i = 0 \/ i = 1 \/ i = 2 \/ i = 3 \/ i = 4) as Hc by lia.
  destruct Hc as [-> |[-> |[-> |[-> | ->]]]]; eexists; reflexivity.
Defined.
