(* ===== verification/DbInv.v ===== *)
(** Invariant of the disk layer: what the database holds between the
    operations of [DbStore], and that they preserve it. *)
From stdpp Require Import base gmap list strings sorting.
From Stdlib Require Import ZArith Lia.
From S2P Require Import Prelude Types Database DbStore DbSelect.

(** ** The database as a map *)
Section View.
Context (hashfunc : bytes -> bytes).

Definition is_index (kv : bytes * bytes) : Prop := head (fst kv) = Some 0.

#[export] Instance is_index_dec kv : Decision (is_index kv).
Proof. unfold is_index. apply _. Defined.

(** The index entries of a database. *)
Definition index_part (m : gmap bytes bytes) : gmap bytes bytes := filter is_index m.

(** An index entry is a record whose data, if it is there, hashes to the key
    and has a size header. (Garbage collection leaves entries without data.) *)
Definition data_ok (m : gmap bytes bytes) (h : bytes) (i : Z) : Prop :=
  forall d, m !! getDataKey i = Some d -> hashfunc d = h /\ 8 <= #d.

Definition entry_ok (m : gmap bytes bytes) (di : Z) (h v : bytes) : Prop :=
  exists i, v = encodeIndex i /\ is_u64 (Access i) /\ 0 <= Idx i < di /\ data_ok m h (Idx i).

(** Keys of the database: index keys of 32 byte hashes, or shorter keys of another kind. *)
Definition key_ok (k : bytes) : Prop :=
  (exists h, k = getIndexKey h /\ length h = 32%nat) \/
  (exists b t, k = b :: t /\ 0 < b /\ (length t <= 32)%nat).

Record view_ok (m : gmap bytes bytes) (cnt di : Z) : Prop := {
  vo_keys : forall k v, m !! k = Some v -> key_ok k;
  vo_entries : forall h v, m !! getIndexKey h = Some v -> entry_ok m di h v;
  vo_count : 0 <= cnt <= Z.of_nat (size (index_part m));
  vo_dataIdx : is_u64 di
}.

Lemma index_part_lookup m h : index_part m !! getIndexKey h = m !! getIndexKey h.
Proof.
  unfold index_part. destruct (m !! getIndexKey h) as [v|] eqn:E.
  - by apply map_lookup_filter_Some_2.
  - apply map_lookup_filter_None_2. by left.
Qed.

(** Keys of different kinds differ. *)
Lemma index_not_data h i : getIndexKey h <> getDataKey i.
Proof. done. Qed.

Lemma data_key_inj i j : is_u64 i -> is_u64 j -> getDataKey i = getDataKey j -> i = j.
Proof. intros Hi Hj E. apply (f_equal (drop 1)) in E. by apply be64_inj. Qed.

Lemma entry_ok_mono m m' di di' h v :
  di <= di' -> entry_ok m di h v ->
  (forall i d, 0 <= i < di -> m' !! getDataKey i = Some d -> m !! getDataKey i = Some d) ->
  entry_ok m' di' h v.
Proof.
  intros Hd (i & -> & Ha & Hi & Hm) Hsame. exists i. split_and!; try done; try lia.
  intros d Hd'. apply Hm, Hsame; [lia|done].
Qed.

(** A write of a key that is neither an index nor a data key. *)
Lemma view_ok_other m cnt di b t v :
  view_ok m cnt di -> 2 <= b -> (length t <= 32)%nat -> view_ok (<[b :: t := v]> m) cnt di.
Proof.
  intros [Hk He Hc Hd] Hb Ht. split; [| | |done].
  - intros k w. rewrite lookup_insert. case_decide; subst; [|apply Hk].
    intros _. right. exists b, t. split; [done|lia].
  - intros h w. rewrite lookup_insert_ne by (intros [= ? ?]; lia). intros Hw.
    eapply entry_ok_mono; [|by apply He|]; [lia|].
    intros i d Hi. rewrite lookup_insert_ne by (intros [= ? ?]; lia). done.
  - unfold index_part. rewrite map_filter_insert_not'; [done| |].
    + intros [= ?]. lia.
    + intros w _ [= ?]. lia.
Qed.

(** A new access count for an entry that is there. *)
Lemma view_ok_touch m cnt di h i a :
  view_ok m cnt di -> m !! getIndexKey h = Some (encodeIndex i) -> is_u64 (Idx i) ->
  is_u64 (Access i) -> is_u64 a ->
  view_ok (<[getIndexKey h := encodeIndex {| Idx := Idx i; Access := a |}]> m) cnt di.
Proof.
  intros [Hk He Hc Hd] Hm Hiu Hiu' Ha. split; [| | |done].
  - intros k w. rewrite lookup_insert. case_decide; subst; [|apply Hk]. intros _. by eapply Hk.
  - intros h' w. rewrite lookup_insert. case_decide as Heq; intros Hw.
    + injection Heq as <-. injection Hw as <-.
      destruct (He _ _ Hm) as (j & E & Hja & Hj & Hjm).
      apply (f_equal (fun x => decodeIndex x i)) in E.
      rewrite !decodeIndex_encodeIndex in E by (try done; unfold is_u64 in *; lia). subst j.
      eexists _. split_and!; try done; cbn [Idx Access]; try lia.
      intros d. rewrite lookup_insert_ne by apply index_not_data. apply Hjm.
    + eapply entry_ok_mono; [|by apply He|]; [lia|].
      intros j d Hj. rewrite lookup_insert_ne by apply index_not_data. done.
  - unfold index_part. rewrite map_filter_insert_True by done.
    rewrite map_size_insert_Some; [done|]. exists (encodeIndex i).
    fold (index_part m). by rewrite index_part_lookup.
Qed.

(** A new entry with its data under the next data key. *)
Lemma view_ok_new m cnt di h d a :
  view_ok m cnt di -> m !! getIndexKey h = None -> is_u64 (di + 1) -> is_u64 a ->
  hashfunc d = h -> length h = 32%nat -> 8 <= #d ->
  view_ok (<[getIndexKey h := encodeIndex {| Idx := di; Access := a |}]>
            (<[getDataKey di := d]> m)) (cnt + 1) (di + 1).
Proof.
  intros [Hk He Hc Hd] Hm Hdi Ha Hh Hlen Hl. split; [| | |done].
  - intros k w. rewrite !lookup_insert. repeat case_decide; subst; [| |apply Hk].
    + intros _. left. by eexists.
    + intros _. right. exists 1, (be64 di). rewrite length_be64. split_and!; [done|lia|lia].
  - intros h' w. rewrite lookup_insert. case_decide as Heq; intros Hw.
    + injection Heq as <-. injection Hw as <-.
      eexists _. split_and!; try done; cbn [Idx Access]; try (unfold is_u64 in *; lia).
      intros d'. rewrite lookup_insert_ne, lookup_insert_eq by apply index_not_data. by intros [= <-].
    + rewrite lookup_insert_ne in Hw by (intros Hx; by apply (index_not_data h' di)).
      eapply entry_ok_mono; [|by apply He|]; [lia|].
      intros j d' Hj. rewrite !lookup_insert_ne; [done| |apply index_not_data].
      intros E. apply data_key_inj in E; [lia|done|unfold is_u64 in *; lia].
  - unfold index_part. rewrite map_filter_insert_True by done.
    rewrite map_filter_insert_not' by (try done; by intros ? _ [= ?]).
    rewrite map_size_insert_None; [unfold index_part in Hc; lia|].
    fold (index_part m). by rewrite index_part_lookup.
Qed.

(** Removal of a key: of one that is not an index key, and of any key at the
    price of one entry. *)
Lemma entries_delete m di K :
  (forall h v, m !! getIndexKey h = Some v -> entry_ok m di h v) ->
  forall h v, delete K m !! getIndexKey h = Some v -> entry_ok (delete K m) di h v.
Proof.
  intros He h v Hv. apply lookup_delete_Some in Hv as [_ Hv].
  eapply entry_ok_mono; [|by apply He|]; [lia|].
  intros i d _ Hd. by apply lookup_delete_Some in Hd as [_ Hd].
Qed.

Lemma view_ok_delete_data m cnt di i :
  view_ok m cnt di -> view_ok (delete (getDataKey i) m) cnt di.
Proof.
  intros [Hk He Hc Hd]. split; [|by apply entries_delete| |done].
  - intros k v Hv. apply lookup_delete_Some in Hv as [_ Hv]. by eapply Hk.
  - unfold index_part. rewrite map_filter_delete, delete_id; [done|].
    apply map_lookup_filter_None_2. right. by intros ? _ [= ?].
Qed.

Lemma view_ok_delete m cnt di K :
  view_ok m cnt di -> 0 < cnt -> view_ok (delete K m) (cnt - 1) di.
Proof.
  intros [Hk He Hc Hd] Hp. split; [|by apply entries_delete| |done].
  - intros k v Hv. apply lookup_delete_Some in Hv as [_ Hv]. by eapply Hk.
  - unfold index_part in *. rewrite map_filter_delete.
    destruct (filter is_index m !! K) as [w|] eqn:E; [rewrite map_size_delete_Some by eauto|rewrite delete_id by done];
      lia.
Qed.
End View.

(** ** The invariant of the store *)
Section Store.
Context {D : Type} `{LevelDBLaws D} (Hhealthy : healthy D).
Context (hashfunc : bytes -> bytes).
Context (rle_compress : bytes -> bytes) (rle_decompress : bytes -> option bytes).

Abbreviation view s := (ldb_view (ldb (db s))).

Record db_ok (s : DbStore D) : Prop := {
  do_comp : comp (db s) = false;
  do_view : view_ok hashfunc (view s) (entryCnt s) (dataIdx s);
  do_access : is_u64 (accessCnt s);
  do_array : length (gcArray s) = gcArraySize
}.

Lemma db_Get_view s k : comp (db s) = false -> db_Get rle_decompress s k = view s !! k.
Proof using H0.
  intros Hc. unfold db_Get, LDB_Get. rewrite ldb_get_view, Hc. by destruct (view s !! k).
Qed.

Lemma LDB_Write_view l b :
  ldb_view (ldb (fst (LDB_Write l b))) = apply_batch (ldb_view (ldb l)) b /\
  comp (fst (LDB_Write l b)) = comp l.
Proof using Hhealthy H0.
  unfold LDB_Write. specialize (Hhealthy (ldb l) b).
  destruct (ldb_write (ldb l) b) as [d err] eqn:E. simpl in Hhealthy. subst err.
  split; [|done]. by apply ldb_write_ok.
Qed.

Lemma LDB_Put_view l k v :
  comp l = false ->
  ldb_view (ldb (LDB_Put rle_compress l k v)) = <[k := v]> (ldb_view (ldb l)) /\
  comp (LDB_Put rle_compress l k v) = false.
Proof using Hhealthy H0.
  intros Hc. unfold LDB_Put. rewrite Hc. specialize (Hhealthy (ldb l) [BPut k v]).
  destruct (ldb_write (ldb l) [BPut k v]) as [d err] eqn:E. simpl in Hhealthy. subst err.
  split; [|done]. by apply ldb_write_ok in E.
Qed.

(** The index record of an entry. *)
Lemma entry_decode s h v i0 :
  db_ok s -> view s !! getIndexKey h = Some v ->
  let i := decodeIndex v i0 in
  v = encodeIndex i /\ is_u64 (Idx i) /\ is_u64 (Access i) /\ 0 <= Idx i < dataIdx s /\
  data_ok hashfunc (view s) h (Idx i).
Proof using Type.
  intros [_ [_ He _ Hd] _ _] Hv. destruct (He _ _ Hv) as (i & -> & Ha & Hi & Hm).
  assert (Hiu : is_u64 (Idx i)) by (unfold is_u64 in *; lia).
  rewrite decodeIndex_encodeIndex by done. cbn zeta. eauto 10.
Qed.

(** What [Get] returns for a key: nothing is found, the entry has lost its data,
    or the chunk with the size from its header. *)
Definition get_result (s : DbStore D) (h : Key) : result geterr Chunk :=
  match view s !! getIndexKey h with
  | None => Err notFound
  | Some v =>
    match view s !! getDataKey (Idx (decodeIndex v {| Idx := 0; Access := 0 |})) with
    | None => Err dbError
    | Some d => Ok {| ck_Key := h; ck_SData := Some d; ck_Size := i64 (le64_val d);
                      ck_Source := None; ck_Req := None |}
    end
  end.

(** The states an access leaves: the same but for the access counts. *)
Definition same_content (s s' : DbStore D) : Prop :=
  entryCnt s' = entryCnt s /\ dataIdx s' = dataIdx s /\ capacity s' = capacity s /\
  forall h, get_result s' h = get_result s h.

(** [tryAccessIdx] on an entry: the record comes back with the access count
    moved up, and nothing but the count changes. *)
Lemma tryAccessIdx_hit s h v :
  db_ok s -> view s !! getIndexKey h = Some v -> accessCnt s + 1 < 2 ^ 64 ->
  exists s', tryAccessIdx rle_decompress s (getIndexKey h)
             = (Some {| Idx := Idx (decodeIndex v {| Idx := 0; Access := 0 |});
                        Access := accessCnt s + 1 |}, s') /\
    db_ok s' /\ entryCnt s' = entryCnt s /\ dataIdx s' = dataIdx s /\ capacity s' = capacity s /\
    accessCnt s' = accessCnt s + 1 /\
    (forall i, view s' !! getDataKey i = view s !! getDataKey i) /\
    (forall h', get_result s' h' = get_result s h').
Proof using Hhealthy H0.
  intros Hok Hv Ha. unfold tryAccessIdx. rewrite db_Get_view by apply Hok. rewrite Hv.
  destruct (entry_decode s h v {| Idx := 0; Access := 0 |} Hok Hv) as (Ev & Hiu & Hau & Hi & _).
  set (i := decodeIndex v _) in *. destruct Hok as [Hc Hview Hacc Harr].
  unfold is_u64 in Hacc. rewrite (u64_id (accessCnt s + 1)) by (unfold is_u64; lia).
  eexists. split; [done|]. unfold db_Write. cbn [db entryCnt accessCnt dataIdx capacity gcPos gcArray].
  set (b := [_; _]). destruct (LDB_Write_view (db s) b) as [Hw Hwc].
  assert (Hnew : ldb_view (ldb (fst (LDB_Write (db s) b)))
    = <[getIndexKey h := encodeIndex {| Idx := Idx i; Access := accessCnt s + 1 |}]>
        (<[keyAccessCnt := U64ToBytes (accessCnt s)]> (view s))) by (by rewrite Hw).
  clear Hw. split_and!; try done.
  - split; [cbn [db]; by rewrite Hwc| |unfold is_u64; cbn [accessCnt]; lia|done].
    cbn [db entryCnt dataIdx]. rewrite Hnew. apply view_ok_touch; try done.
    + apply view_ok_other; [done|lia|cbn; lia].
    + rewrite lookup_insert_ne by done. by rewrite <- Ev.
    + unfold is_u64; lia.
  - intros j. rewrite Hnew, !lookup_insert_ne by done. done.
  - intros h'. unfold get_result. cbn [db]. rewrite Hnew, lookup_insert. case_decide as Hh.
    + injection Hh as <-. rewrite Hv. fold i.
      rewrite decodeIndex_encodeIndex by (unfold is_u64 in *; cbn [Idx Access]; lia). cbn [Idx].
      by rewrite !lookup_insert_ne by done.
    + rewrite lookup_insert_ne by done. destruct (view s !! getIndexKey h'); [|done].
      by rewrite !lookup_insert_ne by done.
Qed.

Lemma tryAccessIdx_miss s h :
  comp (db s) = false -> view s !! getIndexKey h = None ->
  tryAccessIdx rle_decompress s (getIndexKey h) = (None, s).
Proof using H0. intros Hc Hv. unfold tryAccessIdx. by rewrite db_Get_view, Hv. Qed.

(** The insertion of a new entry. *)
Lemma put_new_ok s h d :
  db_ok s -> view s !! getIndexKey h = None -> hashfunc d = h -> length h = 32%nat -> 8 <= #d ->
  dataIdx s + 1 < 2 ^ 64 -> accessCnt s + 1 < 2 ^ 64 -> entryCnt s + 1 < 2 ^ 64 ->
  let s' := put_new s (getIndexKey h) d in
  db_ok s' /\ entryCnt s' = entryCnt s + 1 /\ dataIdx s' = dataIdx s + 1 /\
  accessCnt s' = accessCnt s + 1 /\ capacity s' = capacity s /\
  view s' !! getIndexKey h = Some (encodeIndex {| Idx := dataIdx s; Access := accessCnt s |}) /\
  view s' !! getDataKey (dataIdx s) = Some d /\
  (forall h', h' <> h -> view s' !! getIndexKey h' = view s !! getIndexKey h') /\
  (forall i, 0 <= i < dataIdx s -> view s' !! getDataKey i = view s !! getDataKey i).
Proof using Hhealthy H0.
  intros [Hc Hview Hacc Harr] Hv Hh H32 Hl Hdi Ha He s'. subst s'. unfold put_new, db_Write.
  cbn [db entryCnt accessCnt dataIdx capacity gcPos gcArray].
  set (b := [_; _; _; _; _]). destruct (LDB_Write_view (db s) b) as [Hw Hwc].
  assert (Hnew : ldb_view (ldb (fst (LDB_Write (db s) b)))
    = <[keyAccessCnt := U64ToBytes (accessCnt s)]>
      (<[keyDataIdx := U64ToBytes (dataIdx s)]>
      (<[keyEntryCnt := U64ToBytes (entryCnt s)]>
      (<[getIndexKey h := encodeIndex {| Idx := dataIdx s; Access := accessCnt s |}]>
      (<[getDataKey (dataIdx s) := d]> (view s)))))) by (by rewrite Hw).
  clear Hw. pose proof (vo_count _ _ _ _ Hview) as Hcnt.
  pose proof (vo_dataIdx _ _ _ _ Hview) as Hdu. unfold is_u64 in Hacc, Hdu.
  rewrite !u64_id by (unfold is_u64; lia).
  split_and!; try done.
  - split; cbn [db entryCnt dataIdx accessCnt gcArray]; [by rewrite Hwc| |unfold is_u64; lia|done].
    rewrite Hnew. do 3 (apply view_ok_other; [|lia|cbn; lia]).
    apply view_ok_new; try done; unfold is_u64; lia.
  - rewrite Hnew, !lookup_insert_ne by done. apply lookup_insert_eq.
  - rewrite Hnew, !lookup_insert_ne by done. apply lookup_insert_eq.
  - intros h' Hne. rewrite Hnew, !lookup_insert_ne; [done|done|by intros [= ->]|done..].
  - intros i Hi. rewrite Hnew, !lookup_insert_ne; [done| |done..].
    intros E. apply data_key_inj in E; unfold is_u64; lia.
Qed.

Lemma get_result_data s h d :
  db_ok s -> (exists c, get_result s h = Ok c /\ ck_SData c = Some d) -> hashfunc d = h /\ 8 <= #d.
Proof using Type.
  intros Hok (c & Hg & Hd). unfold get_result in Hg.
  destruct (view s !! getIndexKey h) as [v|] eqn:Hv; [|done].
  destruct (entry_decode s h v {| Idx := 0; Access := 0 |} Hok Hv) as (_ & _ & _ & _ & Hda).
  destruct (view s !! getDataKey _) as [d'|] eqn:Hd'; [|done].
  injection Hg as <-. injection Hd as <-. by apply Hda.
Qed.

Lemma Get_ok s h :
  db_ok s -> accessCnt s + 1 < 2 ^ 64 ->
  exists s', Get hashfunc rle_decompress s h = (s', get_result s h) /\ db_ok s' /\
    same_content s s' /\ accessCnt s <= accessCnt s' <= accessCnt s + 1.
Proof using Hhealthy H0.
  intros Hok Ha. unfold Get, get_result. destruct (view s !! getIndexKey h) as [v|] eqn:Hv.
  2:{ rewrite tryAccessIdx_miss by (done || apply Hok). exists s. split_and!; try done; lia. }
  destruct (entry_decode s h v {| Idx := 0; Access := 0 |} Hok Hv) as (Ev & Hiu & Hau & Hi & Hda).
  destruct (tryAccessIdx_hit s h v Hok Hv Ha) as (s' & Ht & Hok' & He & Hdi & Hcap & Hacc & Hdata & Hget).
  rewrite Ht. cbn [Idx]. rewrite db_Get_view by apply Hok'. rewrite Hdata. exists s'.
  assert (Hsame : same_content s s') by done.
  destruct (view s !! getDataKey _) as [d|] eqn:Hd; [|split_and!; try done; lia].
  destruct (Hda d Hd) as [Hh Hl]. rewrite bool_decide_eq_true_2 by done. unfold decodeData.
  rewrite slice_Some by lia. cbn [or_panic NewChunk ck_Key ck_Source ck_Req].
  split_and!; try done; try lia. unfold le64_val at 1. rewrite drop_0, take_take. done.
Qed.
End Store.
