(* ===== verification/DbGc.v ===== *)
(** Garbage collection of the disk layer ([collectGarbage] of
    [livepeer/storage/dbstore.go]): the loop never panics, the data it removes
    are those of the least accessed entries it scanned, and the invariant
    survives. The keys it collected are slices of one buffer, so at most one
    index entry goes. *)
From stdpp Require Import base gmap list strings sorting.
From Stdlib Require Import ZArith Lia.
From S2P Require Import Prelude Types Database DbStore DbSelect DbInv.

(** The rank that is cut at the default ratio is inside the collected range. *)
Definition cut_rank (ratio : float32) (gcnt : Z) : Z := f32_to_int (f32_mul (f32_of_Z gcnt) ratio).

Definition cut_rank_inside (k : nat) : bool :=
  let r := cut_rank gcArrayFreeRatio (Z.of_nat k) in (0 <=? r) && (r <? Z.of_nat k).

Lemma cut_rank_all : forallb cut_rank_inside (seq 1 gcArraySize) = true.
Proof. vm_compute. reflexivity. Qed.

Lemma cut_rank_bounds k :
  (0 < k <= gcArraySize)%nat -> 0 <= cut_rank gcArrayFreeRatio (Z.of_nat k) < Z.of_nat k.
Proof.
  intros Hk. pose proof (proj1 (forallb_forall _ _) cut_rank_all k) as Hc.
  unfold cut_rank_inside in Hc. rewrite andb_true_iff, Z.leb_le, Z.ltb_lt in Hc.
  apply Hc. apply in_seq. lia.
Qed.

(** ** The snapshot: index entries come first *)

(** An index key has [klen] bytes, another key no more. *)
Definition klen : nat := 33.
Definition index_head (p : bytes * bytes) : Prop := exists t, fst p = 0 :: t /\ length t = 32%nat.
Definition later_head (p : bytes * bytes) : Prop :=
  exists b t, fst p = b :: t /\ 0 < b /\ (length t <= 32)%nat.

Lemma key_ok_head p : key_ok (fst p) -> index_head p \/ later_head p.
Proof. intros [(h & Hh & Hl)|(b & t & Hb & Hp & Hl)]; [left|right]; [by exists h|by exists b, t]. Qed.

Lemma key_lt_later p q : key_lt p q -> later_head p -> key_ok (fst q) -> later_head q.
Proof.
  intros Hlt (b & t & Hp & Hb & _) Hq. destruct (key_ok_head q Hq) as [(t' & Hq' & _)|]; [|done].
  unfold key_lt, bytes_ltb in Hlt. rewrite Hp, Hq' in Hlt. simpl in Hlt.
  destruct (Z.compare_spec b 0); try lia; done.
Qed.

Lemma snapshot_split (L : list (bytes * bytes)) :
  StronglySorted key_lt L -> Forall (fun p => key_ok (fst p)) L ->
  exists E R, L = E ++ R /\ Forall index_head E /\ Forall later_head R.
Proof.
  induction 1 as [|p L Hs IH Hlt]; intros HF.
  { by exists [], []. }
  inversion_clear HF as [|?? Hp HF']. destruct (key_ok_head p Hp) as [Hi|Hl].
  - destruct (IH HF') as (E & R & -> & HE & HR). exists (p :: E), R. split_and!; [done|by constructor|done].
  - exists [], (p :: L). split_and!; [done|constructor|].
    constructor; [done|]. rewrite Forall_forall in *. intros q Hq.
    eapply key_lt_later; [by apply Hlt|done|by apply HF'].
Qed.

Lemma seek_start (E R : list (bytes * bytes)) :
  Forall index_head E -> Forall later_head R -> it_Seek (E ++ R) gcStartPos = E ++ R.
Proof.
  intros HE HR. unfold it_Seek. replace (filter _ (E ++ R)) with (@nil (bytes * bytes)); [done|].
  assert (HF : Forall (fun p : bytes * bytes => exists b t, fst p = b :: t /\ 0 <= b) (E ++ R)).
  { apply Forall_app. split; (eapply Forall_impl; [done|]).
    - intros p (t & Hp & _). exists 0, t. split; [done|lia].
    - intros p (b & t & Hp & Hb & _). exists b, t. split; [done|lia]. }
  induction HF as [|p L (b & t & Hp & Hb) _ IH]; [done|].
  rewrite filter_cons_False; [done|]. rewrite Hp. unfold bytes_ltb, gcStartPos, kpIndex. simpl.
  destruct (Z.compare_spec b 0); [by destruct t|lia|done].
Qed.

(** ** The key buffer *)

(** The iterator stands on its pair with the key in array [g], which has room
    for every key. *)
Record settled (g : nat) (mem : list bytes) (it : dbIter) : Prop := {
  se_arr : exists arr, mem !! g = Some arr /\ (klen <= length arr)%nat;
  se_buf : exists sl, di_key it = Some sl /\ ks_arr sl = g;
  se_key : forall p rest, di_rest it = p :: rest ->
    di_key it = Some {| ks_arr := g; ks_len := length (fst p) |} /\
    deref mem {| ks_arr := g; ks_len := length (fst p) |} = fst p
}.

Section Buffer.
Context (growcap : nat -> nat) (Hgrow : forall n, (n <= growcap n)%nat).

Lemma key_append_deref mem buf k mem' sl :
  key_append growcap mem buf k = (mem', sl) ->
  match buf with Some b => (ks_arr b < length mem)%nat | None => True end ->
  ks_len sl = length k /\ deref mem' sl = k /\
  exists arr, mem' !! ks_arr sl = Some arr /\ (length k <= length arr)%nat.
Proof using Hgrow.
  intros Happ Hb. unfold key_append in Happ. set (fr := (mem ++ _, _)) in Happ.
  assert (Hfr : fr = (mem', sl) -> ks_len sl = length k /\ deref mem' sl = k /\
    exists arr, mem' !! ks_arr sl = Some arr /\ (length k <= length arr)%nat).
  { intros [= <- <-]. unfold deref. cbn. rewrite list_lookup_middle by done. cbn.
    rewrite take_app_length. split_and!; [done|done|]. eexists. split; [done|].
    rewrite length_app, length_replicate. specialize (Hgrow (length k)). lia. }
  destruct buf as [b|]; [|by apply Hfr]. destruct (Nat.leb_spec (length k) (length (default [] (mem !! ks_arr b)))).
  - injection Happ as <- <-. unfold deref. cbn. rewrite list_lookup_insert_eq by done. cbn.
    rewrite take_app_length. split_and!; [done|done|]. eexists. split; [done|]. rewrite length_app. lia.
  - by apply Hfr.
Qed.

(** Once an array has room for every key, the iterator stays in it. *)
Lemma di_move_settled g mem it rest mem' it' :
  settled g mem it -> Forall (fun p => (length (fst p) <= klen)%nat) rest ->
  di_move growcap mem it rest = (mem', it') -> settled g mem' it' /\ di_rest it' = rest.
Proof using Hgrow.
  intros [(arr & Harr & Hcap) (sl & Hsl & Hg) Hkey] HF Hmove. destruct rest as [|[k v] rest].
  { cbn in Hmove. injection Hmove as <- <-. cbn. split; [|done]. split; cbn; [eauto|eauto|done]. }
  cbn in Hmove. destruct (key_append growcap mem (di_key it) k) as [m2 sl2] eqn:Happ.
  injection Hmove as <- <-. cbn. inversion_clear HF as [|?? Hk _]. cbn in Hk.
  assert (Hlt : (g < length mem)%nat) by (by eapply lookup_lt_Some).
  rewrite Hsl in Happ. pose proof (key_append_deref _ _ _ _ _ Happ) as Hd. cbn in Hd. rewrite Hg in Hd.
  destruct (Hd Hlt) as (Hlen & Hder & _). clear Hd.
  unfold key_append in Happ. rewrite Hg, Harr in Happ. cbn in Happ.
  destruct (Nat.leb_spec (length k) (length arr)); [|lia]. injection Happ as <- <-.
  split; [|done]. split; cbn.
  - eexists. rewrite list_lookup_insert_eq by done. split; [done|]. rewrite length_app, length_drop. lia.
  - by eexists.
  - intros p r [= <- <-]. cbn. done.
Qed.

(** On an index key the buffer becomes settled whatever it was. *)
Lemma di_move_index mem it k v rest mem' it' :
  match di_key it with Some b => (ks_arr b < length mem)%nat | None => True end ->
  index_head (k, v) -> di_move growcap mem it ((k, v) :: rest) = (mem', it') ->
  di_rest it' = (k, v) :: rest /\ exists g, settled g mem' it'.
Proof using Hgrow.
  intros Hb (t & Hk & Ht) Hmove. cbn in Hmove, Hk.
  destruct (key_append growcap mem (di_key it) k) as [m2 sl] eqn:Happ. injection Hmove as <- <-.
  split; [done|]. exists (ks_arr sl).
  destruct (key_append_deref _ _ _ _ _ Happ Hb) as (Hlen & Hder & arr & Harr & Hcap).
  split; cbn.
  - exists arr. split; [done|]. unfold klen. subst k. cbn in Hcap. lia.
  - eauto.
  - intros p r [= <- <-]. cbn. rewrite <- Hlen. by destruct sl.
Qed.

(** ** The collection loop *)

Definition item_of (g : nat) (p : bytes * bytes) : gcItem :=
  let index := decodeIndex (snd p) {| Idx := 0; Access := 0 |} in
  {| gi_idx := Idx index; gi_value := getIndexGCValue index;
     gi_idxKey := {| ks_arr := g; ks_len := klen |} |}.

Lemma outside_index_head g mem it p rest :
  settled g mem it -> di_rest it = p :: rest -> index_head p -> outside_index mem (di_Key it) = Some false.
Proof using Type.
  intros [_ _ Hk] Hr (t & Hp & _). destruct (Hk _ _ Hr) as [Hkey Hd]. unfold di_Key. rewrite Hr, Hkey.
  unfold outside_index. rewrite Hd, Hp. done.
Qed.

Lemma outside_later g mem it :
  settled g mem it -> Forall later_head (di_rest it) -> outside_index mem (di_Key it) = Some true.
Proof using Type.
  intros [_ _ Hk] HF. unfold di_Key. destruct (di_rest it) as [|p rest] eqn:Hr; [done|].
  inversion_clear HF as [|?? (b & t & Hp & Hb & _) _]. destruct (Hk _ _ eq_refl) as [Hkey Hd].
  rewrite Hkey. unfold outside_index. rewrite Hd, Hp. unfold kpIndex. by destruct (Z.eqb_spec b 0); [lia|].
Qed.

(** Outside the index the loop goes on from the first index key. *)
Lemma gc_collect_restart fuel snapshot mem it pos gcnt cnt arr mem' it' :
  gcnt < cnt -> outside_index mem pos = Some true ->
  di_Seek growcap mem snapshot it gcStartPos = (mem', it') -> outside_index mem' (di_Key it') = Some false ->
  gc_collect growcap (S fuel) snapshot mem it pos gcnt cnt arr
  = gc_collect growcap (S fuel) snapshot mem' it' (di_Key it') gcnt cnt arr.
Proof using Type.
  intros Hlt Hout Hseek Hin. cbn [gc_collect]. destruct (Z.ltb_spec gcnt cnt); [|lia].
  rewrite Hout, Hin. cbn [mbind option_bind]. rewrite Hseek, Hin. cbn [mbind option_bind]. done.
Qed.

Lemma heads_fit E R :
  Forall index_head E -> Forall later_head R ->
  Forall (fun p : bytes * bytes => (length (fst p) <= klen)%nat) (E ++ R).
Proof using Type.
  intros HE HR. apply Forall_app. unfold klen. split; (eapply Forall_impl; [done|]).
  - intros p (t & -> & Ht). cbn. lia.
  - intros p (b & t & -> & Hb & Ht). cbn. lia.
Qed.

(** From the suffix [E' ++ R'] of the snapshot the loop stores the items of
    [E'] and then, after another seek, those of [E], all with the key slice
    of array [g]. *)
Lemma gc_collect_settled g fuel E R E' R' mem it gcnt cnt arr :
  Forall index_head E -> Forall later_head R -> Forall index_head E' -> Forall later_head R' ->
  E <> [] -> settled g mem it -> di_rest it = E' ++ R' ->
  cnt - Z.of_nat gcnt <= #E' + #E -> (gcnt + fuel <= length arr)%nat ->
  let k := Nat.min fuel (Z.to_nat (cnt - Z.of_nat gcnt)) in
  exists mem' pos arr',
    gc_collect growcap fuel (E ++ R) mem it (di_Key it) (Z.of_nat gcnt) cnt arr
    = Some (mem', pos, Z.of_nat (gcnt + k), arr') /\ length arr' = length arr /\
    (exists a, mem' !! g = Some a /\ (klen <= length a)%nat) /\
    (forall i, (i < gcnt)%nat -> arr' !! i = arr !! i) /\
    (forall j p, (j < k)%nat -> (E' ++ E) !! j = Some p -> arr' !! (gcnt + j)%nat = Some (Some (item_of g p))).
Proof using Hgrow.
  intros HE HR. revert E' R' mem it gcnt arr.
  induction fuel as [|f IH]; intros E' R' mem it gcnt arr HE' HR' Hne Hset Hrest Hcnt Harr k.
  { exists mem, (di_Key it), arr. subst k. rewrite Nat.min_0_l, Nat.add_0_r. split_and!; [done|done|apply Hset|done|lia]. }
  destruct (Z.ltb_spec (Z.of_nat gcnt) cnt) as [Hlt|Hge].
  2:{ exists mem, (di_Key it), arr. subst k. cbn [gc_collect]. destruct (Z.ltb_spec (Z.of_nat gcnt) cnt); [lia|].
      replace (Nat.min _ _) with 0%nat by lia. rewrite Nat.add_0_r. split_and!; [done|done|apply Hset|done|lia]. }
  (* the iterator is on an index pair *)
  assert (Hgo : forall p E2 R2 mem it, index_head p -> Forall index_head E2 -> Forall later_head R2 ->
    settled g mem it -> di_rest it = p :: E2 ++ R2 -> cnt - Z.of_nat gcnt <= 1 + #E2 + #E ->
    exists mem' pos arr',
      gc_collect growcap (S f) (E ++ R) mem it (di_Key it) (Z.of_nat gcnt) cnt arr
      = Some (mem', pos, Z.of_nat (gcnt + k), arr') /\ length arr' = length arr /\
      (exists a, mem' !! g = Some a /\ (klen <= length a)%nat) /\
      (forall i, (i < gcnt)%nat -> arr' !! i = arr !! i) /\
      (forall j q, (j < k)%nat -> (p :: E2 ++ E) !! j = Some q ->
                   arr' !! (gcnt + j)%nat = Some (Some (item_of g q)))).
  { clear mem it Hset Hrest. intros p E2 R2 mem it Hp HE2 HR2 Hset Hrest Hc. cbn [gc_collect].
    destruct (Z.ltb_spec (Z.of_nat gcnt) cnt); [|lia].
    rewrite (outside_index_head g mem it p (E2 ++ R2)) by done. cbn [mbind option_bind].
    rewrite (outside_index_head g mem it p (E2 ++ R2)) by done. cbn [mbind option_bind].
    unfold di_Key at 1. rewrite Hrest. destruct (se_key _ _ _ Hset _ _ Hrest) as [Hkey _].
    rewrite Hkey. destruct p as [key v]. destruct (di_Next growcap mem it) as [mem2 it2] eqn:Hnext.
    unfold di_Next in Hnext. rewrite Hrest in Hnext. cbn [tail] in Hnext.
    apply (di_move_settled g) in Hnext as [Hset2 Hrest2]; [|done|by apply heads_fit].
    assert (Hlen : length key = klen) by (destruct Hp as (t & Ht & Hl); cbn in Ht; subst key; cbn; unfold klen; lia).
    cbn [fst]. rewrite Hlen. fold (item_of g (key, v)).
    destruct (IH E2 R2 mem2 it2 (S gcnt) (<[Z.to_nat (Z.of_nat gcnt) := Some (item_of g (key, v))]> arr))
      as (mem' & pos & arr' & Hrun & Hl & Hmem & Hlow & Hitems); try done; try (rewrite ?length_insert; lia).
    exists mem', pos, arr'. rewrite Nat2Z.id in *. rewrite length_insert in Hl.
    replace (Z.of_nat gcnt + 1) with (Z.of_nat (S gcnt)) by lia. split_and!; try done.
    - unfold item_of in Hrun. cbn [snd] in Hrun. rewrite Hrun. do 3 f_equal. subst k. lia.
    - intros i Hi. rewrite Hlow, list_lookup_insert_ne by lia. done.
    - intros [|j] q Hj Hq; simpl in Hq.
      + injection Hq as <-. rewrite Nat.add_0_r, Hlow by lia. apply list_lookup_insert_eq. lia.
      + rewrite <- Nat.add_succ_comm. apply Hitems; [subst k; lia|done]. }
  destruct E' as [|p E2].
  - destruct E as [|p E2]; [done|]. inversion_clear HE as [|?? Hp HE2].
    destruct (di_Seek growcap mem ((p :: E2) ++ R) it gcStartPos) as [mem2 it2] eqn:Hseek.
    pose proof Hseek as Hs2. unfold di_Seek in Hs2. rewrite seek_start in Hs2 by (done || by constructor).
    apply (di_move_settled g) in Hs2 as [Hset2 Hrest2]; [|done|apply heads_fit; [by constructor|done]].
    rewrite (gc_collect_restart _ _ _ _ _ _ _ _ mem2 it2); [|done| |done|].
    + destruct (Hgo p E2 R mem2 it2) as (mem' & pos & arr' & Hrun & Hl & Hmem & Hlow & Hit); try done.
      { rewrite (@zlen_nil (bytes * bytes)), zlen_cons in Hcnt. rewrite zlen_cons. zlia. }
      exists mem', pos, arr'. split_and!; try done.
      intros j q Hj Hq. apply Hit; [done|]. rewrite app_comm_cons. by apply lookup_app_l_Some.
    + eapply outside_later; [done|]. by rewrite Hrest.
    + eapply outside_index_head; done.
  - inversion_clear HE' as [|?? Hp HE2]. apply (Hgo p E2 R'); try done. rewrite zlen_cons in Hcnt. lia.
Qed.

(** The same from the first seek. *)
Lemma gc_collect_run fuel E R n mem it0 mem1 it1 cnt arr :
  Forall index_head E -> Forall later_head R -> E <> [] -> di_key it0 = None ->
  di_move growcap mem it0 (drop n (E ++ R)) = (mem1, it1) ->
  cnt <= #E -> 0 < cnt -> (0 < fuel <= length arr)%nat ->
  let k := Nat.min fuel (Z.to_nat cnt) in
  exists mem' pos arr' g,
    gc_collect growcap fuel (E ++ R) mem1 it1 (di_Key it1) 0 cnt arr
    = Some (mem', pos, Z.of_nat k, arr') /\ length arr' = length arr /\
    (exists a, mem' !! g = Some a /\ (klen <= length a)%nat) /\
    (forall j p, (j < k)%nat -> (drop n E ++ E) !! j = Some p -> arr' !! j = Some (Some (item_of g p))).
Proof using Hgrow.
  intros HE HR Hne Hnone Hmove Hcnt Hpos Hfuel k. rewrite drop_app in Hmove.
  assert (HE' : Forall index_head (drop n E)) by (by apply Forall_drop).
  assert (HR' : Forall later_head (drop (n - length E) R)) by (by apply Forall_drop).
  set (E' := drop n E) in *. set (R' := drop _ R) in *. clearbody E' R'.
  assert (Hfin : forall g mem it, settled g mem it -> forall R'', di_rest it = E' ++ R'' -> Forall later_head R'' ->
    exists mem' pos arr' g, gc_collect growcap fuel (E ++ R) mem it (di_Key it) 0 cnt arr
    = Some (mem', pos, Z.of_nat k, arr') /\ length arr' = length arr /\
    (exists a, mem' !! g = Some a /\ (klen <= length a)%nat) /\
    (forall j p, (j < k)%nat -> (E' ++ E) !! j = Some p -> arr' !! j = Some (Some (item_of g p)))).
  { intros g m it Hset R'' Hr HR''.
    destruct (gc_collect_settled g fuel E R E' R'' m it 0 cnt arr) as (m' & pos & arr' & Hrun & Hl & Hm & _ & Hit);
      try done; try lia. { zlia. }
    exists m', pos, arr', g. rewrite Z.sub_0_r in *. done. }
  destruct E' as [|[key v] E2].
  - destruct fuel as [|f]; [lia|]. destruct E as [|[key v] E2]; [done|].
    destruct (di_Seek growcap mem1 (((key, v) :: E2) ++ R) it1 gcStartPos) as [mem2 it2] eqn:Hseek.
    pose proof Hseek as Hs2. unfold di_Seek in Hs2. rewrite seek_start in Hs2 by done. cbn [app] in Hmove, Hs2.
    inversion HE as [|?? Hp HE2]; subst.
    assert (Hb : match di_key it1 with Some b => (ks_arr b < length mem1)%nat | None => True end).
    { destruct R' as [|[k2 v2] R2]; cbn in Hmove; [by injection Hmove as <- <-; cbn; rewrite Hnone|].
      destruct (key_append growcap mem (di_key it0) k2) as [m2 sl] eqn:Happ. injection Hmove as <- <-. cbn.
      destruct (key_append_deref _ _ _ _ _ Happ) as (_ & _ & a & Ha & _); [by rewrite Hnone|].
      by eapply lookup_lt_Some. }
    destruct (di_move_index _ _ _ _ _ _ _ Hb Hp Hs2) as (Hrest2 & g & Hset2).
    rewrite (gc_collect_restart _ _ _ _ _ _ _ _ mem2 it2); [|done| |done|by eapply outside_index_head].
    + destruct (gc_collect_settled g (S f) ((key, v) :: E2) R ((key, v) :: E2) R mem2 it2 0 cnt arr)
        as (m' & pos & arr' & Hrun & Hl & Hm & _ & Hit); try done; try lia.
      exists m', pos, arr', g. rewrite Z.sub_0_r in *. split_and!; try done.
      intros j p Hj Hp'. apply Hit; [done|]. by apply lookup_app_l_Some.
    + destruct R' as [|[k2 v2] R2]; cbn in Hmove; [by injection Hmove as <- <-|].
      destruct (key_append growcap mem (di_key it0) k2) as [m2 sl] eqn:Happ. injection Hmove as <- <-.
      destruct (key_append_deref _ _ _ _ _ Happ) as (_ & Hd & _); [by rewrite Hnone|].
      inversion_clear HR' as [|?? (b & t & Hk2 & Hb2 & _) _]. cbn in Hk2.
      unfold di_Key, outside_index. cbn. rewrite Hd, Hk2. unfold kpIndex. by destruct (Z.eqb_spec b 0); [lia|].
  - inversion HE' as [|?? Hp HE2]; subst.
    destruct (di_move_index mem it0 key v (E2 ++ R') mem1 it1) as (Hrest1 & g & Hset1);
      [by rewrite Hnone|done|done|].
    eapply Hfin; [done| |done]. by rewrite Hrest1.
Qed.
End Buffer.

(** ** What the loop has collected *)

Lemma rearranged_take (k : nat) l l' :
  rearranged 0 (Z.of_nat k - 1) l l' -> take k l' ≡ₚ take k l.
Proof.
  intros [Hlen Hperm _ Hout]. assert (Hd : drop k l' = drop k l).
  { apply list_eq. intros i. rewrite !lookup_drop.
    specialize (Hout (Z.of_nat (k + i)) ltac:(lia)). unfold index in Hout.
    rewrite !decide_True, Nat2Z.id in Hout by lia. done. }
  apply (Permutation_app_inv_r (drop k l)). rewrite take_drop, <- Hd. by rewrite take_drop.
Qed.

Lemma take_rotation {A} (k n : nat) (E : list A) :
  (k <= length E)%nat -> exists rest, take k (drop n E ++ E) ++ rest ≡ₚ E.
Proof.
  intros Hk. assert (Hrot : take k (drop n E ++ E) = take k (drop n E ++ take n E)).
  { rewrite !take_app. f_equal. rewrite take_take, length_drop. f_equal. lia. }
  exists (drop k (drop n E ++ take n E)). rewrite Hrot, take_drop, Permutation_app_comm. by rewrite take_drop.
Qed.

#[local] Opaque gcArraySize.

Section Collect.
Context {D : Type} `{LevelDBLaws D} (Hhealthy : healthy D).
Context (hashfunc : bytes -> bytes).
Context (rle_compress : bytes -> bytes) (rle_decompress : bytes -> option bytes).
Context (growcap : nat -> nat) (Hgrow : forall n, (n <= growcap n)%nat).

Abbreviation view s := (ldb_view (ldb (db s))).
Abbreviation ok := (db_ok hashfunc).

Lemma iter_NoDup (d : D) : NoDup (ldb_iter d).*1.
Proof using H0.
  pose proof (ldb_iter_sorted d) as Hs. induction Hs as [|p l Hs IH Hlt]; [constructor|].
  constructor; [|done]. intros Hin. apply list_elem_of_fmap in Hin as (q & Hq & Hin).
  rewrite Forall_forall in Hlt. specialize (Hlt q Hin). unfold key_lt in Hlt.
  by rewrite Hq, bytes_ltb_irrefl in Hlt.
Qed.

(** The snapshot of a store: its index entries, at least [entryCnt], then the rest. *)
Lemma store_snapshot s :
  ok s -> exists E R, LDB_NewIterator (db s) = E ++ R /\ Forall index_head E /\ Forall later_head R /\
    entryCnt s <= #E /\ NoDup E.*1 /\
    forall h v, (getIndexKey h, v) ∈ E <-> view s !! getIndexKey h = Some v.
Proof using H0.
  intros [_ [Hk _ [_ Hc] _] _ _]. unfold LDB_NewIterator.
  destruct (snapshot_split (ldb_iter (ldb (db s)))) as (E & R & Heq & HE & HR).
  { apply ldb_iter_sorted. }
  { apply Forall_forall. intros [k v] Hin. apply ldb_iter_elem in Hin. eauto. }
  pose proof (iter_NoDup (ldb (db s))) as Hnd. rewrite Heq, fmap_app in Hnd.
  apply NoDup_app in Hnd as (HndE & _ & _).
  assert (Hin : forall h v, (getIndexKey h, v) ∈ E <-> view s !! getIndexKey h = Some v).
  { intros h v. rewrite <- (ldb_iter_elem (ldb (db s))), Heq, elem_of_app. split; [by left|].
    intros [|Hp]; [done|]. exfalso. rewrite Forall_forall in HR.
    destruct (HR _ Hp) as (b & t & [= <- _] & Hlt & _). lia. }
  exists E, R. split_and!; try done. etrans; [exact Hc|]. unfold zlen. apply inj_le.
  rewrite <- length_map_to_list. apply submseteq_length, NoDup_submseteq; [apply NoDup_map_to_list|].
  intros [k v]. rewrite elem_of_map_to_list. unfold index_part. rewrite map_lookup_filter_Some. intros [Hv Hidx].
  destruct k as [|b t]; [done|]. unfold is_index in Hidx. cbn in Hidx. injection Hidx as ->. by apply (Hin t).
Qed.

(** The scan: [k] items of distinct entries, all of them with the key in array [g]. *)
Lemma gc_scan s mem it :
  ok s -> 0 < entryCnt s ->
  di_Seek growcap (keymem s) (LDB_NewIterator (db s)) {| di_rest := []; di_key := None |} (gcPos_bytes s)
  = (mem, it) ->
  let k := Nat.min gcArraySize (Z.to_nat (entryCnt s)) in
  exists mem' pos arr g P,
    gc_collect growcap gcArraySize (LDB_NewIterator (db s)) mem it (di_Key it) 0 (entryCnt s) (gcArray s)
    = Some (mem', pos, Z.of_nat k, arr) /\
    length arr = gcArraySize /\ length (deref mem' {| ks_arr := g; ks_len := klen |}) = klen /\
    take k arr = Some <$> (item_of g <$> P) /\ length P = k /\ NoDup P.*1 /\
    (forall p, p ∈ P -> exists h, fst p = getIndexKey h /\ view s !! getIndexKey h = Some (snd p)).
Proof using H0 Hgrow.
  intros Hok Hpos Hseek k. destruct (store_snapshot s Hok) as (E & R & Hsnap & HE & HR & HlenE & Hnd & Hin).
  pose proof (do_array _ _ Hok) as Harr. rewrite Hsnap in *.
  assert (HE0 : E <> []) by (intros ->; rewrite (@zlen_nil (bytes * bytes)) in HlenE; lia).
  unfold di_Seek, it_Seek in Hseek. set (n := length (filter _ _)) in Hseek.
  assert (Hfuel : (0 < gcArraySize <= length (gcArray s))%nat).
  { rewrite Harr. split; [|lia]. apply Nat.ltb_lt. vm_compute. done. }
  destruct (gc_collect_run growcap Hgrow gcArraySize E R n (keymem s) {| di_rest := []; di_key := None |}
              mem it (entryCnt s) (gcArray s)) as (mem' & pos & arr & g & Hrun & Hlen & (a & Ha & Hcap) & Hitems);
    try done.
  fold k in Hrun, Hitems. assert (Hk : (k <= length E)%nat) by (unfold zlen in HlenE; lia).
  destruct (take_rotation k n E Hk) as [rest Hrest].
  exists mem', pos, arr, g, (take k (drop n E ++ E)). split_and!; [done|lia| | | | |].
  - unfold deref. cbn [ks_arr ks_len]. rewrite Ha. cbn [default from_option id]. rewrite length_take. lia.
  - apply list_eq. intros j. rewrite !list_lookup_fmap. destruct (decide (j < k)%nat) as [Hj|Hj].
    + rewrite !lookup_take_lt by done. destruct (lookup_lt_is_Some_2 (drop n E ++ E) j) as [p Hpj].
      { rewrite length_app. lia. } rewrite Hpj. by apply Hitems.
    + rewrite !lookup_take_ge by lia. done.
  - rewrite length_take, length_app. lia.
  - assert (Hnd' : NoDup (take k (drop n E ++ E) ++ rest).*1) by (by rewrite Hrest).
    rewrite fmap_app in Hnd'. by apply NoDup_app in Hnd' as [? _].
  - intros [kk v] Hp. assert (HpE : (kk, v) ∈ E) by (rewrite <- Hrest; apply elem_of_app; by left).
    rewrite Forall_forall in HE. destruct (HE _ HpE) as (h & Hh & _). cbn in Hh. subst kk.
    exists h. split; [done|]. by apply Hin.
Qed.

(** The deletion loop when the key slices of all items have the contents [K]:
    the data of the items up to the cut go, and the key [K]. *)
Lemma gc_delete_ok (L : list gcItem) K i cut s :
  ok s -> 0 <= i -> (forall j it, L !! j = Some it -> index (gcArray s) (i + Z.of_nat j) = Some (Some it)) ->
  Forall (fun it => deref (keymem s) (gi_idxKey it) = K) L -> length K = klen ->
  #L <= entryCnt s -> entryCnt s < 2 ^ 64 ->
  let dead := filter (fun it => gi_value it <= cut) L in
  exists s', gc_delete (length L) i cut s = Some s' /\ ok s' /\
    entryCnt s' = entryCnt s - #dead /\ dataIdx s' = dataIdx s /\ accessCnt s' = accessCnt s /\
    capacity s' = capacity s /\ gcPos s' = gcPos s /\ keymem s' = keymem s /\
    (forall h, getIndexKey h <> K -> view s' !! getIndexKey h = view s !! getIndexKey h) /\
    (forall h, view s !! getIndexKey h = None -> view s' !! getIndexKey h = None) /\
    (forall j, view s' !! getDataKey j = if decide (getDataKey j ∈ getDataKey ∘ gi_idx <$> dead) then None
                                         else view s !! getDataKey j).
Proof using Hhealthy H0.
  revert i s. induction L as [|it L IH]; intros i s Hok Hi Harr HK HKlen Hpos Hcnt dead.
  { exists s. subst dead. cbn. split_and!; try done. zlia. }
  cbn [length gc_delete]. pose proof (Harr 0%nat it eq_refl) as H1. rewrite Z.add_0_r in H1. rewrite H1.
  inversion_clear HK as [|?? Hit HL]. rewrite zlen_cons in Hpos. pose proof (zlen_nonneg L).
  assert (Harr' : forall j x, L !! j = Some x -> index (gcArray s) (i + 1 + Z.of_nat j) = Some (Some x)).
  { intros j x Hj. rewrite <- (Harr (S j) x Hj). f_equal. lia. }
  destruct (Z.leb_spec (gi_value it) cut) as [Hle|Hgt].
  2:{ destruct (IH (i + 1) s) as (s' & Hrun & Hrest); try done; [lia..|]. exists s'. split; [done|].
      subst dead. rewrite filter_cons_False by lia. done. }
  subst dead. rewrite filter_cons_True by lia. rewrite Hit.
  destruct Hok as [Hc Hview Hacc Hlen]. set (b := [_; _; _]).
  destruct (LDB_Write_view Hhealthy (db s) b) as [Hw Hwc]. unfold db_Write.
  assert (Hnew : ldb_view (ldb (fst (LDB_Write (db s) b)))
    = <[keyEntryCnt := U64ToBytes (u64 (entryCnt s - 1))]>
      (delete (getDataKey (gi_idx it)) (delete K (view s)))) by (by rewrite Hw).
  clear Hw. rewrite (u64_id (entryCnt s - 1)) in * by (unfold is_u64; lia).
  set (s1 := mkDbStore _ _ _ _ _ _ _ _).
  destruct (IH (i + 1) s1) as (s' & Hrun & Hok' & He & Hd & Ha & Hcap & Hgp & Hkm & Hix & Hab & Hda); try done.
  - split; cbn; [by rewrite Hwc| |done|done]. rewrite Hnew.
    apply view_ok_other; [|lia|cbn; lia]. apply view_ok_delete_data, view_ok_delete; [done|lia].
  - lia.
  - cbn. lia.
  - cbn. lia.
  - exists s'. split; [exact Hrun|]. cbn in He, Hd, Ha, Hcap, Hgp, Hkm, Hix, Hab, Hda. split_and!; try done.
    + rewrite He, zlen_cons. lia.
    + intros h Hh. rewrite (Hix h Hh), Hnew, lookup_insert_ne by done.
      rewrite lookup_delete_ne by apply not_eq_sym, index_not_data. by rewrite lookup_delete_ne.
    + intros h Hh. apply Hab. rewrite Hnew, lookup_insert_ne by done.
      rewrite lookup_delete_ne by apply not_eq_sym, index_not_data. apply lookup_delete_None. by right.
    + intros j. rewrite Hda, Hnew, lookup_insert_ne by done. cbn [fmap list_fmap].
      destruct (decide (getDataKey j = getDataKey (gi_idx it))) as [-> |Hne].
      * rewrite (decide_True (P := _ ∈ _ :: _)) by apply list_elem_of_here.
        rewrite lookup_delete_eq. by case_decide.
      * rewrite lookup_delete_ne, lookup_delete_ne; [| |done].
        -- apply decide_ext. rewrite elem_of_cons. split; [by right|by intros [?|?]].
        -- intros ->. revert HKlen. unfold getDataKey, klen. cbn [length]. rewrite length_be64. lia.
Qed.

(** What one collection does: [P] are the pairs it scanned. *)
Definition dead (cut : Z) (P : list (bytes * bytes)) : list (bytes * bytes) :=
  filter (fun p => Access (decodeIndex (snd p) {| Idx := 0; Access := 0 |}) <= cut) P.

Record collected (s s' : DbStore D) (rank : Z) (P : list (bytes * bytes)) (cut : Z) (K : bytes) : Prop := {
  co_ok : ok s';
  co_scan : #P = Z.min (Z.of_nat gcArraySize) (entryCnt s);
  co_distinct : NoDup P.*1;
  co_live : forall p, p ∈ P -> exists h, fst p = getIndexKey h /\ view s !! getIndexKey h = Some (snd p);
  co_cnt : entryCnt s' = entryCnt s - #(dead cut P);
  co_rank : rank + 1 <= #(dead cut P);
  co_index : forall h, getIndexKey h <> K -> view s' !! getIndexKey h = view s !! getIndexKey h;
  co_absent : forall h, view s !! getIndexKey h = None -> view s' !! getIndexKey h = None;
  co_data : forall j, view s' !! getDataKey j
    = if decide (getDataKey j ∈ (fun p => getDataKey (Idx (decodeIndex (snd p) {| Idx := 0; Access := 0 |})))
                                <$> dead cut P)
      then None else view s !! getDataKey j;
  co_fields : dataIdx s' = dataIdx s /\ accessCnt s' = accessCnt s /\ capacity s' = capacity s
}.

Lemma filter_prefix_length {A} (P : A -> Prop) `{forall x, Decision (P x)} (n : nat) L :
  (forall j it, (j < n)%nat -> L !! j = Some it -> P it) -> (n <= length L)%nat ->
  (n <= length (filter P L))%nat.
Proof using Type.
  revert L. induction n as [|n IH]; intros [|x L] HP Hn; cbn in Hn |- *; try lia.
  rewrite decide_True by (apply (HP 0%nat); [lia|done]). cbn.
  apply le_n_S, IH; [|lia]. intros j it Hj. apply (HP (S j)). lia.
Qed.

Lemma dead_items g cut P :
  filter (fun it => gi_value it <= cut) (item_of g <$> P) = item_of g <$> dead cut P.
Proof using Type.
  unfold dead. induction P as [|p P IH]; [done|]. cbn [fmap list_fmap].
  destruct (decide (Access (decodeIndex (snd p) {| Idx := 0; Access := 0 |}) <= cut)) as [Hle|Hgt].
  - rewrite !filter_cons_True by done. cbn [fmap list_fmap]. by f_equal.
  - by rewrite !filter_cons_False by done.
Qed.

Lemma collectGarbage_ok s ratio :
  ok s -> 0 < entryCnt s < 2 ^ 64 ->
  let k := Z.min (Z.of_nat gcArraySize) (entryCnt s) in
  0 <= cut_rank ratio k < k ->
  exists s' P cut K, collectGarbage rle_compress growcap s ratio = Some s' /\
    collected s s' (cut_rank ratio k) P cut K.
Proof using Hhealthy H0 Hgrow.
  intros Hok [Hpos Hcnt] k Hrank. unfold collectGarbage.
  destruct (di_Seek growcap _ _ _ _) as [mem it] eqn:Hseek.
  destruct (gc_scan s mem it Hok Hpos Hseek)
    as (mem' & pos & arr & g & P & -> & Hlen & HK & Htake & HP & Hnd & Hlive).
  set (k' := Nat.min _ _) in *. assert (Hk : Z.of_nat k' = k) by lia. clearbody k'.
  cbn [mbind option_bind]. rewrite Hk. fold (cut_rank ratio k).
  set (L := item_of g <$> P) in *. assert (HL : length L = k') by (subst L; by rewrite length_fmap).
  assert (Hk'len : (k' <= length arr)%nat) by lia.
  destruct (gcListSelect_ok (S (Z.to_nat k)) arr 0 (k - 1) (cut_rank ratio k))
    as (arr' & v & -> & Hre & Hsel & Hlo & _); [lia|lia|unfold zlen; lia| |lia|].
  { intros i Hi. assert (Hi' : take k' arr !! Z.to_nat i = (Some <$> L) !! Z.to_nat i) by (by rewrite Htake).
    rewrite lookup_take_lt, list_lookup_fmap in Hi' by lia.
    destruct (lookup_lt_is_Some_2 L (Z.to_nat i)) as [x Hx]; [lia|]. rewrite Hx in Hi'.
    exists (gi_value x). unfold gc_value, index. rewrite decide_True by lia. by rewrite Hi'. }
  cbn [mbind option_bind]. rewrite Hsel. cbn [mbind option_bind].
  rewrite <- Hk in Hre. pose proof (rearranged_take _ _ _ Hre) as Hperm. rewrite Htake in Hperm.
  apply Permutation_map_inv in Hperm as (L' & HL' & HLL').
  assert (HlenL' : length L' = k') by (apply Permutation_length in HLL'; lia).
  assert (Hlk : forall j it, L' !! j = Some it -> index arr' (Z.of_nat j) = Some (Some it)).
  { intros j x Hj. unfold index. rewrite decide_True, Nat2Z.id by lia.
    assert (Hjk : (j < k')%nat) by (apply lookup_lt_Some in Hj; lia).
    rewrite <- (lookup_take_lt arr' k') by done. rewrite HL'. change (map Some L') with (Some <$> L').
    rewrite list_lookup_fmap, Hj. done. }
  assert (Hdead : filter (fun it => gi_value it <= v) L' ≡ₚ item_of g <$> dead v P)
    by (rewrite <- HLL', <- (dead_items g v P); done).
  set (s1 := mkDbStore _ _ _ _ _ _ _ _).
  assert (Hok1 : ok s1).
  { destruct Hok as [Hc Hv Ha Hl]. split; try done. cbn. destruct Hre as [Hz _ _ _]. unfold zlen in Hz. lia. }
  destruct (gc_delete_ok L' (deref mem' {| ks_arr := g; ks_len := klen |}) 0 v s1)
    as (s2 & Hrun & Hok2 & He & Hd & Ha & Hc & _ & _ & Hix & Hab & Hda); try done.
  { rewrite <- HLL'. apply Forall_fmap, Forall_true. done. }
  { unfold zlen. cbn. lia. }
  replace (Z.to_nat k) with (length L') by lia. rewrite Hrun. cbn [mbind option_bind].
  eexists _, P, v, (deref mem' {| ks_arr := g; ks_len := klen |}). split; [done|].
  destruct (LDB_Put_view Hhealthy rle_compress (db s2) keyGCPos (gcPos_bytes s2)) as [Hpv Hpc]; [apply Hok2|].
  assert (Hz : #(filter (fun it => gi_value it <= v) L') = #(dead v P)).
  { unfold zlen. apply Permutation_length in Hdead. rewrite length_fmap in Hdead. by f_equal. }
  split; cbn [db entryCnt dataIdx accessCnt capacity]; try done.
  - destruct Hok2 as [Hc2 Hv2 Ha2 Hl2]. split; cbn [db entryCnt dataIdx accessCnt gcArray]; try done.
    rewrite Hpv. apply view_ok_other; [done|lia|cbn; lia].
  - unfold zlen. lia.
  - rewrite He, Hz. done.
  - assert (Hfl : (Z.to_nat (cut_rank ratio k + 1) <= length (filter (fun it => (gi_value it <= v)%Z) L'))%nat).
    { apply filter_prefix_length; [|lia].
      intros j x Hj Hx. apply Hlk in Hx. assert (Hg : gc_value arr' (Z.of_nat j) = Some (gi_value x)).
      { unfold gc_value. by rewrite Hx. }
      destruct (decide (Z.of_nat j = cut_rank ratio k)) as [Heq|Hne].
      { rewrite Heq, Hsel in Hg. injection Hg. lia. }
      apply (Hlo (Z.of_nat j)); [lia|done]. }
    rewrite <- Hz. unfold zlen. lia.
  - intros h Hh. rewrite Hpv, lookup_insert_ne by done. by apply Hix.
  - intros h Hh. rewrite Hpv, lookup_insert_ne by done. by apply Hab.
  - intros j. rewrite Hpv, lookup_insert_ne by done. rewrite Hda. apply decide_ext.
    rewrite Hdead, <- list_fmap_compose. done.
Qed.
End Collect.
