(* ===== verification/DbProps.v ===== *)
(** Theorems of the disk layer ([livepeer/storage/dbstore.go]): what [Put] and
    [Get] promise, what garbage collection removes and leaves, what a restart
    does to the counters, and what the sync iterator yields. *)
From stdpp Require Import base gmap list strings sorting.
From Stdlib Require Import ZArith Lia.
From S2P Require Import Prelude Types Database DbStore DbSelect DbInv DbGc.

#[local] Opaque gcArraySize.

Section Props.
Context {D : Type} `{LevelDBLaws D} (Hhealthy : healthy D).
Context (hashfunc : bytes -> bytes).
Context (rle_compress : bytes -> bytes) (rle_decompress : bytes -> option bytes).
Context (growcap : nat -> nat) (Hgrow : forall n, (n <= growcap n)%nat).

Abbreviation view s := (ldb_view (ldb (db s))).
Abbreviation ok := (db_ok hashfunc).
Abbreviation DPut := (Put rle_compress rle_decompress growcap).
Abbreviation DGet := (Get hashfunc rle_decompress).

(** A chunk as the chunker makes it: 32 byte key, hash of its data, size header. *)
Definition proper (c : Chunk) (d : bytes) : Prop :=
  ck_SData c = Some d /\ ck_Key c = hashfunc d /\ length (ck_Key c) = 32%nat /\ 8 <= #d.

(** Room in the counters. *)
Definition room (s : DbStore D) : Prop :=
  dataIdx s + 1 < 2 ^ 64 /\ accessCnt s + 2 < 2 ^ 64 /\ entryCnt s + 1 < 2 ^ 64.

Lemma gcArraySize_pos : (0 < gcArraySize)%nat.
Proof using Type. apply Nat.ltb_lt. vm_compute. done. Qed.

(** A collection at the default ratio. *)
Lemma collect_default s :
  ok s -> 0 < entryCnt s < 2 ^ 64 ->
  exists s' P cut K, collectGarbage rle_compress growcap s gcArrayFreeRatio = Some s' /\
    collected hashfunc s s' (cut_rank gcArrayFreeRatio (Z.min (Z.of_nat gcArraySize) (entryCnt s))) P cut K.
Proof using Hhealthy H0 Hgrow.
  intros Hok Hcnt. apply collectGarbage_ok; try done. pose proof gcArraySize_pos.
  rewrite <- (Z2Nat.id (Z.min _ _)) by lia. apply cut_rank_bounds. lia.
Qed.

Lemma collected_get s s' rank P cut K h :
  collected hashfunc s s' rank P cut K -> ok s ->
  (exists k v, (k, v) ∈ dead cut P /\ k = getIndexKey h) -> getIndexKey h <> K ->
  get_result s' h = Err dbError.
Proof using Type.
  intros Hco Hok (k & v & Hin & ->) HK. unfold get_result.
  assert (HinP : (getIndexKey h, v) ∈ P).
  { unfold dead in Hin. by apply list_elem_of_filter in Hin as [_ Hin]. }
  destruct (co_live _ _ _ _ _ _ _ Hco _ HinP) as (h' & [= <-] & Hv).
  rewrite (co_index _ _ _ _ _ _ _ Hco) by done. cbn [fst snd] in Hv. rewrite Hv.
  rewrite (co_data _ _ _ _ _ _ _ Hco), decide_True; [done|].
  apply list_elem_of_fmap. by exists (getIndexKey h, v).
Qed.

(** The insertion step of [Put] at a state where the key is absent. *)
Lemma put_new_get s c d :
  ok s -> proper c d -> room s -> view s !! getIndexKey (ck_Key c) = None ->
  let s' := put_new s (getIndexKey (ck_Key c)) d in
  ok s' /\ get_result s' (ck_Key c)
           = Ok {| ck_Key := ck_Key c; ck_SData := Some d; ck_Size := i64 (le64_val d);
                   ck_Source := None; ck_Req := None |} /\
  entryCnt s' = entryCnt s + 1 /\
  forall h, h <> ck_Key c -> get_result s' h = get_result s h.
Proof using Hhealthy H0.
  intros Hok (HS & Hk & Hlen & Hd) (Hdi & Hac & Hen) Hv s'.
  destruct (put_new_ok Hhealthy hashfunc s (ck_Key c) d) as (Hok' & He & _ & _ & _ & Hi & Hda & Hoth & Hdo);
    try done; [lia|].
  fold s' in Hok', He, Hi, Hda, Hoth, Hdo. split_and!; [done| |done|].
  - unfold get_result. rewrite Hi. rewrite decodeIndex_encodeIndex; cbn [Idx Access]; [by rewrite Hda| |].
    + apply (vo_dataIdx _ _ _ _ (do_view _ _ Hok)).
    + apply (do_access _ _ Hok).
  - intros h Hne. unfold get_result. rewrite Hoth by done. destruct (view s !! getIndexKey h) as [v|] eqn:E; [|done].
    destruct (entry_decode hashfunc s h v {| Idx := 0; Access := 0 |} Hok E) as (_ & _ & _ & Hx & _).
    by rewrite Hdo.
Qed.

Lemma get_result_absent s h : get_result s h = Err notFound <-> view s !! getIndexKey h = None.
Proof using Type.
  unfold get_result. destruct (view s !! getIndexKey h); [|done].
  destruct (view s !! getDataKey _); done.
Qed.

(** What [Put] makes of the state before it inserts. *)
Lemma put_state s h :
  ok s -> room s -> 0 < capacity s -> view s !! getIndexKey h = None ->
  exists s1, (if capacity s <=? entryCnt s then collectGarbage rle_compress growcap s gcArrayFreeRatio
              else Some s) = Some s1 /\
    ok s1 /\ room s1 /\ view s1 !! getIndexKey h = None /\ capacity s1 = capacity s /\
    (entryCnt s <= capacity s -> entryCnt s1 < capacity s1) /\ (entryCnt s < capacity s -> s1 = s).
Proof using Hhealthy H0 Hgrow.
  intros Hok (Hdi & Hac & Hen) Hcap Hv. destruct (Z.leb_spec (capacity s) (entryCnt s)) as [Hle|Hgt].
  2:{ exists s. split_and!; done. }
  destruct (collect_default s Hok) as (s1 & P & cut & K & -> & Hco); [lia|].
  pose proof gcArraySize_pos. assert (Hr : 0 <= cut_rank gcArrayFreeRatio (Z.min (Z.of_nat gcArraySize) (entryCnt s))).
  { rewrite <- (Z2Nat.id (Z.min _ _)) by lia. apply cut_rank_bounds. lia. }
  destruct Hco as [Hok1 _ _ _ Hcnt Hrank _ Hab _ (Hd & Ha & Hc)].
  exists s1. split_and!; try done; try lia; [|by apply Hab]. unfold room. rewrite Hd, Ha. lia.
Qed.

(** [Put] before its signal, then [Get]. *)
Lemma put_store_get s c d :
  ok s -> proper c d -> room s -> 0 < capacity s -> get_result s (ck_Key c) = Err notFound ->
  exists s' s'', put_store rle_compress rle_decompress growcap s c = Some s' /\ ok s' /\
    DGet s' (ck_Key c) = (s'', Ok {| ck_Key := ck_Key c; ck_SData := Some d; ck_Size := i64 (le64_val d);
                                     ck_Source := None; ck_Req := None |}) /\ ok s'' /\
    (entryCnt s <= capacity s -> entryCnt s' <= capacity s') /\
    (entryCnt s < capacity s -> forall h, h <> ck_Key c -> get_result s' h = get_result s h).
Proof using Hhealthy H0 Hgrow.
  intros Hok Hp Hroom Hcap Hnf. pose proof Hp as (HS & _). apply get_result_absent in Hnf.
  unfold put_store, encodeData. rewrite HS, tryAccessIdx_miss by (done || apply Hok).
  destruct (put_state s (ck_Key c)) as (s1 & -> & Hok1 & Hroom1 & Hv1 & Hc1 & Hle & Hsame); try done.
  cbn [mbind option_bind]. destruct (put_new_get s1 c d) as (Hok' & Hg & He & Hoth); try done.
  set (s' := put_new _ _ _) in *. exists s'.
  destruct (Get_ok Hhealthy hashfunc rle_decompress s' (ck_Key c)) as (s'' & Hget & Hok'' & _); try done.
  { destruct Hroom1 as (_ & Ha & _). pose proof (do_access _ _ Hok1) as Hu. subst s'. cbn [put_new accessCnt].
    unfold is_u64 in Hu. rewrite u64_id by (unfold is_u64; lia). lia. }
  exists s''. rewrite Hg in Hget. split_and!; try done.
  - intros Hx. rewrite He. change (capacity s') with (capacity s1). specialize (Hle Hx). lia.
  - intros Hx h Hne. rewrite (Hsame Hx) in *. by apply Hoth.
Qed.

(** C6: [Put] of a chunk the store does not have, followed by [Get] of its key,
    returns the chunk with the size of its header, also when [Put] collects
    garbage first; neither panics, [Put] signals on the chunk's channel, the invariant of the store holds afterwards,
    and the entry count stays within the capacity. Without a collection every
    other key reads as before. *)
Theorem Put_Get s c d :
  ok s -> proper c d -> room s -> 0 < capacity s -> get_result s (ck_Key c) = Err notFound ->
  exists s' s'', DPut s c (Some Open) = Some (s', Some Closed) /\ ok s' /\
    DGet s' (ck_Key c) = (s'', Ok {| ck_Key := ck_Key c; ck_SData := Some d; ck_Size := i64 (le64_val d);
                                     ck_Source := None; ck_Req := None |}) /\ ok s'' /\
    (entryCnt s <= capacity s -> entryCnt s' <= capacity s') /\
    (entryCnt s < capacity s -> forall h, h <> ck_Key c -> get_result s' h = get_result s h).
Proof using Hhealthy H0 Hgrow.
  intros Hok Hp Hroom Hcap Hnf. destruct (put_store_get s c d) as (s' & s'' & E & Hrest); try done.
  exists s', s''. unfold Put. by rewrite E.
Qed.

(** What [Get] hands out of any store, whatever its data: only what hashes to the key. *)
Lemma Get_checks_hash s h s' c :
  DGet s h = (s', Ok c) -> ck_Key c = h /\ exists d, ck_SData c = Some d /\ hashfunc d = h.
Proof using Type.
  unfold DbStore.Get. destruct (tryAccessIdx _ _ _) as [[ix|] s1]; [|done]. destruct (db_Get _ _ _) as [d|]; [|done].
  case_bool_decide as Hh; [|done]. unfold decodeData. destruct (slice d 0 8); [|done].
  intros [= _ <-]. split; [done|]. by exists d.
Qed.

(** Data that does not hash to its key is removed by the [Get] that finds it. *)
Lemma Get_drops_corrupt s h ix s1 d :
  tryAccessIdx rle_decompress s (getIndexKey h) = (Some ix, s1) ->
  db_Get rle_decompress s1 (getDataKey (Idx ix)) = Some d -> hashfunc d <> h ->
  exists s', DGet s h = (s', Err invalidChunk) /\ view s' !! getDataKey (Idx ix) = None.
Proof using Hhealthy H0.
  intros Ht Hd Hh. unfold DbStore.Get. rewrite Ht, Hd, bool_decide_eq_false_2 by done.
  eexists. split; [done|]. cbn [db]. unfold LDB_Delete.
  destruct (ldb_write (ldb (db s1)) [BDelete (getDataKey (Idx ix))]) as [d' err] eqn:Hw.
  pose proof (Hhealthy (ldb (db s1)) [BDelete (getDataKey (Idx ix))]) as Hn. rewrite Hw in Hn. cbn in Hn. subst err.
  cbn [fst ldb]. rewrite (ldb_write_ok _ _ _ Hw). cbn. apply lookup_delete_eq.
Qed.

(** C30: [Get] returns a chunk of no store, however corrupt, unless its data hashes to the key, and data that does not is reported as
    invalid and removed. On a store that satisfies the invariant - whose chunks hash to their keys - it does not panic and never
    reports an invalid chunk; it changes nothing but access counts, and reads of every key are the same afterwards. *)
Theorem Get_sound s h :
  (forall s' c, DGet s h = (s', Ok c) -> ck_Key c = h /\ exists d, ck_SData c = Some d /\ hashfunc d = h) /\
  (forall ix s1 d, tryAccessIdx rle_decompress s (getIndexKey h) = (Some ix, s1) ->
     db_Get rle_decompress s1 (getDataKey (Idx ix)) = Some d -> hashfunc d <> h ->
     exists s', DGet s h = (s', Err invalidChunk) /\ view s' !! getDataKey (Idx ix) = None) /\
  (ok s -> accessCnt s + 1 < 2 ^ 64 ->
   exists s' r, DGet s h = (s', r) /\ ok s' /\ same_content s s' /\
    (r = Err notFound \/ r = Err dbError \/
     exists d, r = Ok {| ck_Key := h; ck_SData := Some d; ck_Size := i64 (le64_val d);
                         ck_Source := None; ck_Req := None |} /\ hashfunc d = h)).
Proof using Hhealthy H0.
  split_and!; [apply Get_checks_hash|apply Get_drops_corrupt|].
  intros Hok Ha. destruct (Get_ok Hhealthy hashfunc rle_decompress s h Hok Ha) as (s' & Hg & Hok' & Hs & _).
  exists s', (get_result s h). split_and!; try done.
  unfold get_result. destruct (view s !! getIndexKey h) as [v|] eqn:Hv; [|by left].
  destruct (entry_decode hashfunc s h v {| Idx := 0; Access := 0 |} Hok Hv) as (_ & _ & _ & _ & Hda).
  destruct (view s !! getDataKey _) as [d|] eqn:Hd; [|by right; left].
  right. right. exists d. split; [done|]. by apply (Hda d Hd).
Qed.

(** C17: A garbage collection of a store with entries does not panic and keeps
    the invariant; it scans as many entries as there are, up to the array size,
    and removes the data of those whose access count is at most a cut value, at
    least one more than a tenth of them rounded down, lowering the entry count by as many. *)
Theorem collectGarbage_frees s :
  ok s -> 0 < entryCnt s < 2 ^ 64 ->
  exists s' P cut K, collectGarbage rle_compress growcap s gcArrayFreeRatio = Some s' /\
    collected hashfunc s s' (cut_rank gcArrayFreeRatio (Z.min (Z.of_nat gcArraySize) (entryCnt s))) P cut K.
Proof using Hhealthy H0 Hgrow. apply collect_default. Qed.

(** A garbage collection removes the index entry of at most one key, whatever
    the number of chunks whose data it removed: the collected keys are slices of
    the iterator's buffer. Every other collected key is left in the index
    without data, and reading it fails with a database error. *)
Theorem collectGarbage_leaves_index s :
  ok s -> 0 < entryCnt s < 2 ^ 64 ->
  exists s' P cut K, collectGarbage rle_compress growcap s gcArrayFreeRatio = Some s' /\
    entryCnt s' = entryCnt s - #(dead cut P) /\ 1 <= #(dead cut P) /\
    (forall h v, view s !! getIndexKey h = Some v -> getIndexKey h <> K -> view s' !! getIndexKey h = Some v) /\
    (forall h v, (getIndexKey h, v) ∈ dead cut P -> getIndexKey h <> K -> get_result s' h = Err dbError).
Proof using Hhealthy H0 Hgrow.
  intros Hok Hcnt. destruct (collect_default s Hok Hcnt) as (s' & P & cut & K & Hgc & Hco).
  exists s', P, cut, K. pose proof gcArraySize_pos.
  assert (Hr : 0 <= cut_rank gcArrayFreeRatio (Z.min (Z.of_nat gcArraySize) (entryCnt s))).
  { rewrite <- (Z2Nat.id (Z.min _ _)) by lia. apply cut_rank_bounds. lia. }
  pose proof Hco as [_ _ _ _ Hc Hrank Hix _ _ _]. split_and!; try done; try lia.
  - intros h v Hv HK. by rewrite Hix.
  - intros h v Hd HK. eapply collected_get; eauto.
Qed.

(** A chunk whose index entry is left without data cannot be stored again:
    [Put] takes it for present, and reading it goes on failing. *)
Theorem Put_lost_chunk s c d :
  ok s -> proper c d -> room s -> get_result s (ck_Key c) = Err dbError ->
  exists s' s'', DPut s c (Some Open) = Some (s', Some Closed) /\ ok s' /\ DGet s' (ck_Key c) = (s'', Err dbError).
Proof using Hhealthy H0.
  intros Hok Hp (_ & Ha & _) Hg. unfold Put, put_store.
  assert (Hv : exists v, view s !! getIndexKey (ck_Key c) = Some v).
  { unfold get_result in Hg. destruct (view s !! getIndexKey _); [eauto|done]. }
  destruct Hv as [v Hv].
  destruct (tryAccessIdx_hit Hhealthy hashfunc rle_decompress s _ v Hok Hv) as (s' & -> & Hok' & _ & _ & _ & Hac & _ & Hsame);
    [lia|].
  destruct (Get_ok Hhealthy hashfunc rle_decompress s' (ck_Key c)) as (s'' & Hget & _); [done|lia|].
  exists s', s''. rewrite Hsame, Hg in Hget. done.
Qed.

Lemma select_empty arr n : gcListSelect (S (Z.to_nat 0)) arr 0 (0 - 1) n = None.
Proof using Type.
  change (0 - 1) with (-1). cbn [gcListSelect Z.eqb Z.to_nat]. unfold gcListPartition.
  change (Z.quot (0 + -1) 2) with 0. destruct (gc_value arr 0); [|done]. cbn [mbind option_bind].
  unfold gc_swap. rewrite (index_neg arr (-1)) by lia. by destruct (index arr 0).
Qed.

(** A store that is full with no entries (capacity zero) panics on the first
    new chunk: the collector asks for a rank in an empty range. *)
Theorem Put_capacity0_panics s c d :
  ok s -> proper c d -> entryCnt s = 0 -> capacity s = 0 -> get_result s (ck_Key c) = Err notFound ->
  DPut s c (Some Open) = None.
Proof using H0.
  intros Hok (HS & _) He Hc Hnf. apply get_result_absent in Hnf. unfold Put, put_store.
  rewrite tryAccessIdx_miss by (done || apply Hok). rewrite He, Hc. cbn [Z.leb Z.compare].
  unfold collectGarbage. destruct (di_Seek growcap _ _ _ _) as [mem it]. rewrite He.
  replace (gc_collect _ _ _ _ _ _ 0 0 _) with (Some (mem, di_Key it, 0, gcArray s)) by (by destruct gcArraySize).
  cbn [mbind option_bind]. rewrite select_empty. done.
Qed.
End Props.

(** ** Restart *)
Section Reopen.
Context {D : Type} `{LevelDBLaws D} (Hhealthy : healthy D).
Context (hashfunc : bytes -> bytes).
Context (rle_compress : bytes -> bytes) (rle_decompress : bytes -> option bytes).
Context (growcap : nat -> nat) (Hgrow : forall n, (n <= growcap n)%nat).

Abbreviation view s := (ldb_view (ldb (db s))).
Abbreviation reopen s := (NewDbStore rle_decompress (ldb (db s)) (capacity s)).
Abbreviation DGet := (Get hashfunc rle_decompress).

Lemma BytesToU64_U64ToBytes z : is_u64 z -> BytesToU64 (U64ToBytes z) = z.
Proof using Type.
  intros Hz. unfold BytesToU64, U64ToBytes. rewrite zlen_le64.
  pose proof (le64_val_app z []) as Hv. rewrite app_nil_r, u64_id in Hv by done. exact Hv.
Qed.

(** The database after an insertion. *)
Lemma put_new_view s k d :
  view (put_new s k d) = <[keyAccessCnt := U64ToBytes (accessCnt s)]>
    (<[keyDataIdx := U64ToBytes (dataIdx s)]> (<[keyEntryCnt := U64ToBytes (entryCnt s)]>
    (<[k := encodeIndex {| Idx := dataIdx s; Access := accessCnt s |}]> (<[getDataKey (dataIdx s) := d]> (view s))))) /\
  comp (db (put_new s k d)) = comp (db s).
Proof using Hhealthy H0.
  unfold put_new, db_Write. cbn [db]. set (b := [_; _; _; _; _]).
  destruct (LDB_Write_view Hhealthy (db s) b) as [-> ->]. done.
Qed.

(** The counters a restart reads after an insertion are those before it. *)
Lemma reopen_counters s h d :
  comp (db s) = false -> is_u64 (entryCnt s) -> is_u64 (dataIdx s) -> is_u64 (accessCnt s) ->
  let s' := reopen (put_new s (getIndexKey h) d) in
  entryCnt s' = entryCnt s /\ dataIdx s' = dataIdx s /\ accessCnt s' = accessCnt s /\ capacity s' = capacity s /\
  view s' = view (put_new s (getIndexKey h) d) /\ comp (db s') = false.
Proof using Hhealthy H0.
  intros Hc He Hd Ha s'. subst s'. destruct (put_new_view s (getIndexKey h) d) as [Hv _].
  set (t := put_new s (getIndexKey h) d) in *.
  assert (Hget : forall k, LDB_Get rle_decompress (NewLDBDatabase (ldb (db t))) k = view t !! k).
  { intros k. unfold LDB_Get. cbn [ldb comp NewLDBDatabase]. rewrite ldb_get_view. by destruct (view t !! k). }
  unfold NewDbStore. cbn [entryCnt dataIdx accessCnt capacity db ldb comp NewLDBDatabase]. rewrite !Hget, Hv.
  rewrite !(lookup_insert_ne _ keyAccessCnt) by done. rewrite !(lookup_insert_ne _ keyDataIdx) by done.
  rewrite !lookup_insert_eq, !BytesToU64_U64ToBytes by done. done.
Qed.

Lemma Put_absent s c d :
  comp (db s) = false -> ck_SData c = Some d -> view s !! getIndexKey (ck_Key c) = None ->
  entryCnt s < capacity s ->
  Put rle_compress rle_decompress growcap s c (Some Open)
  = Some (put_new s (getIndexKey (ck_Key c)) d, Some Closed).
Proof using H0.
  intros Hct HSt Hvt Hcpt. unfold Put, put_store, encodeData. rewrite HSt, tryAccessIdx_miss by done.
  destruct (Z.leb_spec (capacity s) (entryCnt s)); [lia|done].
Qed.

(** An access to an index entry, invariant or not. *)
Lemma tryAccessIdx_view s k i :
  comp (db s) = false -> view s !! k = Some (encodeIndex i) -> is_u64 (Idx i) -> is_u64 (Access i) ->
  exists s', tryAccessIdx rle_decompress s k = (Some {| Idx := Idx i; Access := u64 (accessCnt s + 1) |}, s') /\
    view s' = <[k := encodeIndex {| Idx := Idx i; Access := u64 (accessCnt s + 1) |}]>
              (<[keyAccessCnt := U64ToBytes (accessCnt s)]> (view s)) /\
    comp (db s') = false.
Proof using Hhealthy H0.
  intros Hc Hv Hi Ha. unfold tryAccessIdx. rewrite db_Get_view by done. rewrite Hv.
  rewrite decodeIndex_encodeIndex by done. eexists. split; [done|]. unfold db_Write. cbn [db].
  destruct (LDB_Write_view Hhealthy (db s) [BPut keyAccessCnt (U64ToBytes (accessCnt s));
       BPut k (encodeIndex {| Idx := Idx i; Access := u64 (accessCnt s + 1) |})]) as [-> ->]. done.
Qed.

(** [Get] of an entry whose data is another chunk's: the data is deleted. *)
Lemma Get_mismatch s h i d :
  comp (db s) = false -> view s !! getIndexKey h = Some (encodeIndex i) -> is_u64 (Idx i) -> is_u64 (Access i) ->
  view s !! getDataKey (Idx i) = Some d -> hashfunc d <> h ->
  exists s', DGet s h = (s', Err invalidChunk) /\ comp (db s') = false /\
    view s' !! getDataKey (Idx i) = None /\
    (forall h', h' <> h -> view s' !! getIndexKey h' = view s !! getIndexKey h').
Proof using Hhealthy H0.
  intros Hc Hv Hi Ha Hd Hne. destruct (tryAccessIdx_view s _ i Hc Hv Hi Ha) as (s1 & Ht & Hv1 & Hc1).
  unfold Get. rewrite Ht. cbn [Idx]. rewrite db_Get_view by done.
  rewrite Hv1, !lookup_insert_ne, Hd, bool_decide_eq_false_2 by done. eexists. split; [done|]. cbn [db].
  unfold LDB_Delete. destruct (ldb_write (ldb (db s1)) _) as [d' err] eqn:Hw. cbn [fst ldb comp].
  pose proof (Hhealthy (ldb (db s1)) [BDelete (getDataKey (Idx i))]) as He. rewrite Hw in He. cbn in He. subst err.
  apply ldb_write_ok in Hw. cbn in Hw. rewrite Hw. split_and!; [done|apply lookup_delete_eq|].
  intros h' Hh'. rewrite lookup_delete_ne by done. rewrite Hv1, !lookup_insert_ne; [done|done|by intros [= ?]].
Qed.

Lemma Get_nodata s h i :
  comp (db s) = false -> view s !! getIndexKey h = Some (encodeIndex i) -> is_u64 (Idx i) -> is_u64 (Access i) ->
  view s !! getDataKey (Idx i) = None -> exists s', DGet s h = (s', Err dbError).
Proof using Hhealthy H0.
  intros Hc Hv Hi Ha Hd. destruct (tryAccessIdx_view s _ i Hc Hv Hi Ha) as (s1 & Ht & Hv1 & Hc1).
  unfold Get. rewrite Ht. cbn [Idx]. rewrite db_Get_view by done.
  rewrite Hv1, !lookup_insert_ne, Hd by done. eauto.
Qed.

(** A restart loses a stored chunk: the counters that are persisted with an
    insertion are the ones before it, so after a reopen the next new chunk is
    written over the data of the last one. The last chunk then reads as
    invalid, and that read removes the data of the new chunk too. *)
Theorem reopen_overwrites s c1 d1 c2 d2 :
  db_ok hashfunc s -> proper hashfunc c1 d1 -> proper hashfunc c2 d2 -> room s ->
  entryCnt s < capacity s -> ck_Key c1 <> ck_Key c2 ->
  get_result s (ck_Key c1) = Err notFound -> get_result s (ck_Key c2) = Err notFound ->
  exists s1 s2 s3 s4,
    Put rle_compress rle_decompress growcap s c1 (Some Open) = Some (s1, Some Closed) /\
    Put rle_compress rle_decompress growcap (reopen s1) c2 (Some Open) = Some (s2, Some Closed) /\
    DGet s2 (ck_Key c1) = (s3, Err invalidChunk) /\ DGet s3 (ck_Key c2) = (s4, Err dbError).
Proof using Hhealthy H0.
  intros Hok (HS1 & Hk1 & _) (HS2 & Hk2 & _) (Hdi & Hac & Hen) Hcap Hne Hg1 Hg2.
  apply get_result_absent in Hg1, Hg2. destruct Hok as [Hcomp [_ _ [Hc0 _] Hdu] Hau _].
  set (s1 := put_new s (getIndexKey (ck_Key c1)) d1).
  destruct (reopen_counters s (ck_Key c1) d1) as (He & Hd & Ha & Hc & Hv & Hcomp'); try done.
  { unfold is_u64. lia. }
  fold s1 in He, Hd, Ha, Hc, Hv, Hcomp'. destruct (put_new_view s (getIndexKey (ck_Key c1)) d1) as [Hv1 _].
  fold s1 in Hv1. set (r := reopen s1) in *. set (s2 := put_new r (getIndexKey (ck_Key c2)) d2).
  destruct (put_new_view r (getIndexKey (ck_Key c2)) d2) as [Hv2 Hcomp2]. fold s2 in Hv2, Hcomp2.
  rewrite Ha, Hd, He, Hv, Hv1 in Hv2.
  destruct (Get_mismatch s2 (ck_Key c1) {| Idx := dataIdx s; Access := accessCnt s |} d2)
    as (s3 & Hget3 & Hcomp3 & Hdata3 & Hidx3); cbn [Idx Access]; try done; [| |congruence|].
  { rewrite Hv2, !lookup_insert_ne by (done || by intros [= ?]). apply lookup_insert_eq. }
  { rewrite Hv2, !lookup_insert_ne by done. apply lookup_insert_eq. }
  destruct (Get_nodata s3 (ck_Key c2) {| Idx := dataIdx s; Access := accessCnt s |}) as (s4 & Hget4); try done.
  { rewrite Hidx3, Hv2, !lookup_insert_ne by done. apply lookup_insert_eq. }
  exists s1, s2, s3, s4. split_and!; try done; apply Put_absent; try done.
  - rewrite Hv, Hv1, !lookup_insert_ne; try done. by intros [= ?].
  - rewrite He, Hc. done.
Qed.
End Reopen.

(** ** The sync iterator *)

(** What the iterator is asked for: keys in [(Start, Stop]] stored in [[First, Last)]. *)
Definition wanted (st : DbSyncState) (p : bytes * bytes) : bool :=
  match fst p with
  | b :: h => (b =? 0) && negb (bytes_leb h (Start st)) && bytes_leb h (Stop st) &&
              let i := decodeIndex (snd p) {| Idx := 0; Access := 0 |} in (First st <=? Idx i) && (Idx i <? Last st)
  | [] => false
  end.

(** Calls of [Next] until it returns nil. *)
Fixpoint sync_all (fuel : nat) (si : dbSyncIterator) : option (list Key) :=
  match fuel with
  | O => None
  | S f =>
    match Next si with
    | None => None
    | Some (None, _) => Some []
    | Some (Some k, si') => ks ← sync_all f si'; Some (k :: ks)
    end
  end.

(** Behind a key that is not an index key, or one over [Stop], nothing is wanted. *)
Lemma wanted_stop st p L :
  Forall (fun q => key_ok (fst q)) (p :: L) -> Forall (key_lt p) L ->
  (forall b h, fst p = b :: h -> b = 0 -> bytes_leb h (Stop st) = false) ->
  filter (fun q => wanted st q = true) (p :: L) = [].
Proof.
  intros Hk Hlt Hp.
  assert (Hdead : forall q, q = p \/ key_lt p q -> key_ok (fst q) -> wanted st q <> true).
  { intros q Hq Hkq Hw. unfold wanted in Hw. destruct (fst q) as [|b h] eqn:Eq; [done|].
    rewrite !andb_true_iff, Z.eqb_eq in Hw. destruct Hw as (((-> & _) & Hstop) & _).
    destruct Hq as [-> |Hpq]; [by rewrite (Hp 0 h) in Hstop|].
    inversion Hk as [|?? Hkp]; subst. unfold key_lt, bytes_ltb in Hpq. rewrite Eq in Hpq.
    destruct Hkp as [(h0 & E0 & _)|(b0 & t0 & E0 & Hb0 & _)]; rewrite E0 in Hpq; cbn in Hpq.
    - assert (Hs : bytes_leb h0 (Stop st) = false) by (by apply (Hp 0)).
      destruct (bytes_compare h0 h) eqn:Ec; try done.
      assert (H1 : bytes_ltb (Stop st) h0 = true).
      { unfold bytes_leb in Hs. unfold bytes_ltb. rewrite bytes_compare_sym.
        by destruct (bytes_compare h0 (Stop st)). }
      assert (H2 : bytes_ltb (Stop st) h = true) by (eapply bytes_ltb_trans; [done|unfold bytes_ltb; by rewrite Ec]).
      unfold bytes_ltb in H2. unfold bytes_leb in Hstop. rewrite bytes_compare_sym in H2.
      by destruct (bytes_compare h (Stop st)).
    - destruct (Z.compare_spec b0 0); [lia|lia|done]. }
  apply filter_none, Forall_forall. intros q Hq.
  pose proof (proj1 (Forall_forall _ _) Hk q Hq). apply Hdead; [|done].
  apply elem_of_cons in Hq as [-> |Hq]; [by left|right]. by apply (proj1 (Forall_forall _ _) Hlt).
Qed.

Lemma sync_next_spec it st :
  StronglySorted key_lt it -> Forall (fun q => key_ok (fst q)) it ->
  exists r it', sync_next it st = Some (r, it') /\
    match r with
    | None => filter (fun q => wanted st q = true) it = []
    | Some k => exists v, filter (fun q => wanted st q = true) it
                  = (getIndexKey k, v) :: filter (fun q => wanted st q = true) it' /\
                StronglySorted key_lt it' /\ Forall (fun q => key_ok (fst q)) it' /\ (length it' < length it)%nat
    end.
Proof.
  induction 1 as [|[k v] L Hs IH Hlt]; intros Hk; cbn [sync_next]; [by exists None, []|].
  inversion Hk as [|?? Hkp HkL]; subst. cbn [fst] in Hkp.
  assert (Hcont : wanted st (k, v) <> true ->
    exists r it', sync_next L st = Some (r, it') /\
    match r with
    | None => filter (fun q => wanted st q = true) ((k, v) :: L) = []
    | Some k' => exists v', filter (fun q => wanted st q = true) ((k, v) :: L)
                  = (getIndexKey k', v') :: filter (fun q => wanted st q = true) it' /\
                StronglySorted key_lt it' /\ Forall (fun q => key_ok (fst q)) it' /\
                (length it' < length ((k, v) :: L))%nat
    end).
  { intros Hn. rewrite filter_cons_False by done. destruct (IH HkL) as (r & it' & Hr & Hm). exists r, it'.
    split; [done|]. destruct r; [|done]. destruct Hm as (v' & ? & ? & ? & ?). exists v'. split_and!; try done. cbn. lia. }
  destruct k as [|b h]; [destruct Hkp as [(? & ? & _)|(? & ? & ? & _)]; done|].
  unfold wanted in Hcont. cbn [fst snd] in Hcont. destruct (Z.eqb_spec b 0) as [-> |Hb]; cbn [negb andb] in *.
  2:{ exists None, ((b :: h, v) :: L). split; [done|]. apply wanted_stop; try done. by intros ? ? [= <- _] ->. }
  destruct (bytes_leb h (Start st)) eqn:Hstart; cbn [negb andb] in *; [by apply Hcont|].
  destruct (bytes_leb h (Stop st)) eqn:Hstop; cbn [negb andb] in *.
  2:{ exists None, ((0 :: h, v) :: L). split; [done|]. apply wanted_stop; try done. by intros ? ? [= <- <-] _. }
  destruct ((First st <=? _) && _) eqn:Hidx; [|by apply Hcont].
  exists (Some h), L. split; [done|]. exists v. split_and!; try done; [|cbn; lia].
  rewrite filter_cons_True; [done|]. unfold wanted. cbn [fst snd]. by rewrite Hstart, Hstop, Hidx.
Qed.

Lemma sync_all_spec it st fuel :
  StronglySorted key_lt it -> Forall (fun q => key_ok (fst q)) it -> (length it < fuel)%nat ->
  exists ks, sync_all fuel {| si_it := it; si_state := st |} = Some ks /\
    getIndexKey <$> ks = (filter (fun q => wanted st q = true) it).*1.
Proof.
  revert it. induction fuel as [|f IH]; intros it Hs Hk Hf; [lia|]. cbn [sync_all]. unfold Next. cbn [si_it si_state].
  destruct (sync_next_spec it st Hs Hk) as (r & it' & -> & Hm). destruct r as [k|].
  - destruct Hm as (v & Hfil & Hs' & Hk' & Hl). destruct (IH it' Hs' Hk') as (ks & -> & Hks); [lia|].
    exists (k :: ks). split; [done|]. rewrite Hfil. cbn. by rewrite Hks.
  - exists []. by rewrite Hm.
Qed.

Lemma keys_sorted F ks :
  getIndexKey <$> ks = F.*1 -> StronglySorted key_lt F -> StronglySorted (fun a b => bytes_ltb a b = true) ks.
Proof.
  revert ks. induction F as [|q F IH]; intros [|k ks] E Hs; try done; [constructor|].
  cbn in E. injection E as E1 E2. inversion_clear Hs as [|?? Hs' Hlt]. constructor; [by apply IH|].
  apply Forall_forall. intros k' Hk'. rewrite Forall_forall in Hlt.
  assert (Hin : getIndexKey k' ∈ F.*1) by (rewrite <- E2; apply list_elem_of_fmap; eauto).
  apply list_elem_of_fmap in Hin as (q' & Eq' & Hq'). specialize (Hlt q' Hq'). unfold key_lt in Hlt.
  by rewrite <- E1, <- Eq' in Hlt.
Qed.

(** Membership among the wanted pairs behind the seek position. *)
Lemma wanted_elem st h v :
  wanted st (getIndexKey h, v) = true /\ bytes_ltb (getIndexKey h) (getIndexKey (Start st)) = false <->
  bytes_ltb (Start st) h = true /\ bytes_leb h (Stop st) = true /\
  First st <= Idx (decodeIndex v {| Idx := 0; Access := 0 |}) < Last st.
Proof.
  unfold wanted, bytes_ltb, bytes_leb. cbn [fst snd getIndexKey Z.eqb bytes_compare Z.compare andb].
  rewrite (bytes_compare_sym h (Start st)), !andb_true_iff, Z.leb_le, Z.ltb_lt, negb_true_iff.
  destruct (bytes_compare h (Start st)), (bytes_compare h (Stop st)); cbn; intuition congruence.
Qed.

Section Sync.
Context {D : Type} `{LevelDBLaws D} (hashfunc : bytes -> bytes).
Abbreviation view s := (ldb_view (ldb (db s))).

(** C31: The sync iterator over a store ends, and the keys its [Next] returns one
    after the other are exactly the stored keys in [(Start, Stop]] whose
    storage index is in [[First, Last)], each once and in ascending order. *)
Theorem sync_iterator_yields s st :
  db_ok hashfunc s -> First st <= Last st ->
  exists si ks, NewSyncIterator s st = Some si /\
    sync_all (S (length (ldb_iter (ldb (db s))))) si = Some ks /\
    StronglySorted (fun a b => bytes_ltb a b = true) ks /\
    forall h, h ∈ ks <-> exists v, view s !! getIndexKey h = Some v /\
      bytes_ltb (Start st) h = true /\ bytes_leb h (Stop st) = true /\
      First st <= Idx (decodeIndex v {| Idx := 0; Access := 0 |}) < Last st.
Proof using H0.
  intros Hok Hfl. unfold NewSyncIterator. destruct (Z.ltb_spec (Last st) (First st)); [lia|].
  set (L := ldb_iter (ldb (db s))). unfold LDB_NewIterator. fold L.
  assert (HsL : StronglySorted key_lt L) by apply ldb_iter_sorted.
  rewrite it_Seek_sorted by done.
  assert (Hkey : Forall (fun q => key_ok (fst q)) L).
  { apply Forall_forall. intros [k v] Hin. apply ldb_iter_elem in Hin. by eapply (vo_keys _ _ _ _ (do_view _ _ Hok)). }
  set (it := filter _ L). destruct (sync_all_spec it st (S (length L))) as (ks & Hall & Hks).
  { by apply StronglySorted_filter. } { by apply Forall_filter_keep. }
  { apply Nat.lt_succ_r, length_filter. }
  eexists _, ks. split; [done|]. split; [exact Hall|]. subst it. rewrite list_filter_filter in Hks. split.
  - eapply keys_sorted; [exact Hks|]. by apply StronglySorted_filter.
  - intros h. trans (getIndexKey h ∈ getIndexKey <$> ks).
    { rewrite list_elem_of_fmap. split; [eauto|]. by intros (h' & [= ->] & ?). }
    rewrite Hks, list_elem_of_fmap. setoid_rewrite list_elem_of_filter. split.
    + intros ([k v] & Hk & Hw & Hin). cbn [fst] in Hk. subst k. apply ldb_iter_elem in Hin.
      exists v. split; [done|]. by apply wanted_elem.
    + intros (v & Hv & Hrest). exists (getIndexKey h, v). split; [done|].
      split; [by apply wanted_elem|by apply ldb_iter_elem].
Qed.
End Sync.

(** ** Instances *)

(** A store on [MapDB] with a 32 byte hash that keeps the first bytes. *)
Definition hash32 (d : bytes) : bytes := take 32 (drop 8 d ++ replicate 32 0).
Definition mem_chunk (b : Z) : Chunk :=
  {| ck_Key := hash32 (le64 1 ++ [b]); ck_SData := Some (le64 1 ++ [b]); ck_Size := 1;
     ck_Source := None; ck_Req := None |}.
Definition double (n : nat) : nat := n + n.
Definition empty_store (c : Z) : DbStore MapDB := NewDbStore Some (∅ : MapDB) c.

Lemma double_grows n : (n <= double n)%nat.
Proof. unfold double. lia. Qed.

Lemma mem_chunk_proper b : proper hash32 (mem_chunk b) (le64 1 ++ [b]).
Proof.
  split_and!; [done|done| |vm_compute; done]. cbn [mem_chunk ck_Key]. unfold hash32.
  rewrite length_take, length_app, length_replicate. lia.
Qed.

Lemma empty_store_ok c : db_ok hash32 (empty_store c).
Proof. split; [done|split; done|done|apply length_replicate]. Qed.

(** A store of capacity 1 with one chunk in it. *)
Definition full_store : DbStore MapDB := put_new (empty_store 1) (getIndexKey (ck_Key (mem_chunk 5))) (le64 1 ++ [5]).

Lemma full_store_ok : db_ok hash32 full_store.
Proof.
  destruct (put_new_get MapDB_healthy hash32 (empty_store 1) (mem_chunk 5) (le64 1 ++ [5])) as [Hok _];
    [apply empty_store_ok|apply mem_chunk_proper|done|done|done].
Qed.

(** The same store after its chunk's data is gone. *)
Definition lost_store : DbStore MapDB :=
  {| db := fst (LDB_Delete (db full_store) (getDataKey 0)); entryCnt := 1; accessCnt := 1; dataIdx := 1;
     capacity := 1; gcPos := None; gcArray := replicate gcArraySize None; keymem := [] |}.

Lemma lost_store_ok : db_ok hash32 lost_store.
Proof.
  pose proof full_store_ok as [_ Hv _ _]. split; [done| |done|apply length_replicate].
  exact (view_ok_delete_data _ _ _ _ 0 Hv).
Qed.

Abbreviation WPut := (Put id Some double).
Abbreviation WGet := (Get hash32 Some).

Lemma Put_Get_witness :
  exists s' s'', WPut full_store (mem_chunk 6) (Some Open) = Some (s', Some Closed) /\ db_ok hash32 s' /\
    WGet s' (ck_Key (mem_chunk 6))
    = (s'', Ok {| ck_Key := ck_Key (mem_chunk 6); ck_SData := Some (le64 1 ++ [6]);
                  ck_Size := i64 (le64_val (le64 1 ++ [6])); ck_Source := None; ck_Req := None |}) /\
    db_ok hash32 s'' /\
    (entryCnt full_store <= capacity full_store -> entryCnt s' <= capacity s') /\
    (entryCnt full_store < capacity full_store ->
     forall h, h <> ck_Key (mem_chunk 6) -> get_result s' h = get_result full_store h).
Proof.
  apply (Put_Get MapDB_healthy hash32 id Some double double_grows full_store (mem_chunk 6) (le64 1 ++ [6])).
  - apply full_store_ok.
  - apply mem_chunk_proper.
  - vm_compute. done.
  - vm_compute. done.
  - vm_compute. reflexivity.
Defined.

(** A store whose only chunk was overwritten on disk. *)
Definition corrupt_store : DbStore MapDB := put_new (empty_store 1) (getIndexKey (ck_Key (mem_chunk 5))) (le64 1 ++ [6]).

Lemma Get_sound_witness :
  (exists s', WGet corrupt_store (ck_Key (mem_chunk 5)) = (s', Err invalidChunk) /\ ldb_view (ldb (db s')) !! getDataKey 0 = None) /\
  (exists s' r, WGet full_store (ck_Key (mem_chunk 5)) = (s', r) /\ db_ok hash32 s' /\ same_content full_store s' /\
    (r = Err notFound \/ r = Err dbError \/
     exists d, r = Ok {| ck_Key := ck_Key (mem_chunk 5); ck_SData := Some d; ck_Size := i64 (le64_val d);
                         ck_Source := None; ck_Req := None |} /\ hash32 d = ck_Key (mem_chunk 5))).
Proof.
  split.
  - destruct (Get_sound MapDB_healthy hash32 Some corrupt_store (ck_Key (mem_chunk 5))) as (_ & Hc & _).
    apply (Hc {| Idx := 0; Access := 2 |} (snd (tryAccessIdx Some corrupt_store (getIndexKey (ck_Key (mem_chunk 5))))) (le64 1 ++ [6]));
      [by vm_compute|by vm_compute|by vm_compute].
  - apply (Get_sound MapDB_healthy hash32 Some full_store (ck_Key (mem_chunk 5)));
      [apply full_store_ok|vm_compute; done].
Defined.

Lemma collectGarbage_frees_witness :
  exists s' P cut K, collectGarbage id double full_store gcArrayFreeRatio = Some s' /\
    collected hash32 full_store s'
      (cut_rank gcArrayFreeRatio (Z.min (Z.of_nat gcArraySize) (entryCnt full_store))) P cut K.
Proof.
  apply (collectGarbage_frees MapDB_healthy hash32 id double double_grows full_store);
    [apply full_store_ok|vm_compute; done].
Defined.

Lemma collectGarbage_leaves_index_witness :
  exists s' P cut K, collectGarbage id double full_store gcArrayFreeRatio = Some s' /\
    entryCnt s' = entryCnt full_store - #(dead cut P) /\ 1 <= #(dead cut P) /\
    (forall h v, ldb_view (ldb (db full_store)) !! getIndexKey h = Some v -> getIndexKey h <> K ->
                 ldb_view (ldb (db s')) !! getIndexKey h = Some v) /\
    (forall h v, (getIndexKey h, v) ∈ dead cut P -> getIndexKey h <> K -> get_result s' h = Err dbError).
Proof.
  apply (collectGarbage_leaves_index MapDB_healthy hash32 id double double_grows full_store);
    [apply full_store_ok|vm_compute; done].
Defined.

Lemma Put_lost_chunk_witness :
  exists s' s'', WPut lost_store (mem_chunk 5) (Some Open) = Some (s', Some Closed) /\ db_ok hash32 s' /\
    WGet s' (ck_Key (mem_chunk 5)) = (s'', Err dbError).
Proof.
  apply (Put_lost_chunk MapDB_healthy hash32 id Some double lost_store (mem_chunk 5) (le64 1 ++ [5])).
  - apply lost_store_ok.
  - apply mem_chunk_proper.
  - vm_compute. done.
  - vm_compute. reflexivity.
Defined.

Lemma reopen_overwrites_witness :
  exists s1 s2 s3 s4,
    WPut (empty_store 9) (mem_chunk 1) (Some Open) = Some (s1, Some Closed) /\
    WPut (NewDbStore Some (ldb (db s1)) (capacity s1)) (mem_chunk 2) (Some Open) = Some (s2, Some Closed) /\
    WGet s2 (ck_Key (mem_chunk 1)) = (s3, Err invalidChunk) /\
    WGet s3 (ck_Key (mem_chunk 2)) = (s4, Err dbError).
Proof.
  apply (reopen_overwrites MapDB_healthy hash32 id Some double (empty_store 9)
           (mem_chunk 1) (le64 1 ++ [1]) (mem_chunk 2) (le64 1 ++ [2]));
    try apply mem_chunk_proper; try apply empty_store_ok; vm_compute; congruence || done.
Defined.

Definition whole_range : DbSyncState := {| Start := replicate 32 0; Stop := replicate 32 255; First := 0; Last := 5 |}.

Lemma sync_iterator_yields_witness :
  exists si ks, NewSyncIterator full_store whole_range = Some si /\
    sync_all (S (length (ldb_iter (ldb (db full_store))))) si = Some ks /\
    StronglySorted (fun a b => bytes_ltb a b = true) ks /\
    forall h, h ∈ ks <-> exists v, ldb_view (ldb (db full_store)) !! getIndexKey h = Some v /\
      bytes_ltb (Start whole_range) h = true /\ bytes_leb h (Stop whole_range) = true /\
      First whole_range <= Idx (decodeIndex v {| Idx := 0; Access := 0 |}) < Last whole_range.
Proof.
  apply (sync_iterator_yields hash32 full_store whole_range); [apply full_store_ok|vm_compute; congruence].
Defined.

(** The iterator on the store with one chunk. *)
Example sync_one :
  (si ← NewSyncIterator full_store whole_range; sync_all 9 si) = Some [ck_Key (mem_chunk 5)].
Proof. vm_compute. reflexivity. Qed.

(** Three chunks in a store of capacity 3: the fourth makes room by dropping the
    data of the first, whose key stays in the index; it cannot be stored again. *)
Example gc_loses_chunk :
  (s ← put_store id Some double (empty_store 3) (mem_chunk 1); s ← put_store id Some double s (mem_chunk 2); s ← put_store id Some double s (mem_chunk 3);
   s ← put_store id Some double s (mem_chunk 4); s ← put_store id Some double s (mem_chunk 1);
   Some (snd (WGet s (ck_Key (mem_chunk 1))))) = Some (Err dbError).
Proof. vm_compute. reflexivity. Qed.

Lemma Put_capacity0_panics_witness : WPut (empty_store 0) (mem_chunk 1) (Some Open) = None.
Proof.
  apply (Put_capacity0_panics hash32 id Some double (empty_store 0) (mem_chunk 1) (le64 1 ++ [1]));
    [apply empty_store_ok|apply mem_chunk_proper|done|done|vm_compute; done].
Defined.
