(* ===== verification/Manifest.v ===== *)
(** Manifest tries of the content API ([livepeer/api/manifest.go]).

    A manifest is a trie over paths: a node has 257 slots, one per first byte of
    a path and slot 256 for the empty path; an entry is content or, with the
    manifest content type, a node below, loaded on demand. The Go code shares
    entries by pointer; every entry is reachable through one slot only, so nodes
    are values and an operation returns the node it has changed.

    Parameters: [Retrieve] and [Store] are the document store, [Unmarshal] and
    [Marshal] are encoding/json on [manifestJSON]. *)
From stdpp Require Import base gmap list strings.
From Stdlib Require Import ZArith Lia.
From S2P Require Import Prelude Types.

Definition manifestType : bytes := str "application/bzz-manifest+json".

(** ** Data *)

Inductive manifestTrie := mkTrie (entries : list (option manifestTrieEntry)) (hash : option Key)
with manifestTrieEntry := mkEntry
  (Path : bytes) (Hash : bytes) (ContentType : bytes) (Status : Z) (subtrie : option manifestTrie).

Definition entries t := let 'mkTrie es _ := t in es.
Definition hash t := let 'mkTrie _ h := t in h.
Definition Path e := let 'mkEntry p _ _ _ _ := e in p.
Definition Hash e := let 'mkEntry _ h _ _ _ := e in h.
Definition ContentType e := let 'mkEntry _ _ c _ _ := e in c.
Definition Status e := let 'mkEntry _ _ _ s _ := e in s.
Definition subtrie e := let 'mkEntry _ _ _ _ t := e in t.
Definition with_Path p e := let 'mkEntry _ h c s t := e in mkEntry p h c s t.

Definition emptyTrie : manifestTrie := mkTrie (replicate 257 None) None.
Definition slot (t : manifestTrie) (i : nat) : option manifestTrieEntry := default None (entries t !! i).
Definition set_slot (t : manifestTrie) (i : nat) (e : option manifestTrieEntry) : manifestTrie :=
  mkTrie (<[i := e]> (entries t)) (hash t).
Definition clear_hash (t : manifestTrie) : manifestTrie := mkTrie (entries t) None.
Definition is_manifest (e : manifestTrieEntry) : bool := bool_decide (ContentType e = manifestType).

(** Length of the common prefix: the loop of [addEntry]. *)
Fixpoint cpl_loop (a b : bytes) : nat :=
  match a, b with
  | x :: a', y :: b' => if x =? y then S (cpl_loop a' b') else 0%nat
  | _, _ => 0%nat
  end.

Definition is_prefix (p q : bytes) : bool := bool_decide (take (length p) q = p).

(** ** Operations *)

Inductive merr := NotFound | CutShort | Malformed | ReadError | Aborted | OutOfFuel | StoreError | MarshalError.

(** A lazy reader: its size, and a read of that many bytes with the count and
    whether an error came back. *)
Record LazySectionReader := mkReader { rd_Size : option Z; rd_Read : Z -> bytes * Z * bool }.

Section Manifest.
Context (Retrieve : Key -> LazySectionReader).
Context (Store : bytes -> result merr Key).
Context (Unmarshal : bytes -> option (list manifestTrieEntry)).
Context (Marshal : list manifestTrieEntry -> option bytes).

Section Load.
(** [loadManifest] as the operations below call it. *)
Context (loadManifest : Key -> result merr manifestTrie).

(** [loadSubTrie]: the entry afterwards and the error, if any. The hash of the
    entry is cleared on both outcomes. *)
Definition loadSubTrie (e : manifestTrieEntry) : result merr (manifestTrieEntry * option merr) :=
  match subtrie e with
  | Some _ => Ok (e, None)
  | None =>
    match loadManifest (Hex2Bytes (Hash e)) with
    | Ok t => Ok (mkEntry (Path e) [] (ContentType e) (Status e) (Some t), None)
    | Err r => Ok (mkEntry (Path e) [] (ContentType e) (Status e) None, Some r)
    | Panic => Panic
    end
  end.

(** [addEntry]; the only error is out of fuel. *)
Fixpoint addEntry (fuel : nat) (self : manifestTrie) (entry : manifestTrieEntry) : result merr manifestTrie :=
  match fuel with
  | O => Err OutOfFuel
  | S f =>
    let self := clear_hash self in
    match Path entry with
    | [] => Ok (set_slot self 256 (Some entry))
    | c :: _ =>
      let b := Z.to_nat c in
      match slot self b with
      | None => Ok (set_slot self b (Some entry))
      | Some oldentry =>
        if bool_decide (Path oldentry = Path entry) then Ok (set_slot self b (Some entry))
        else
          let cpl := cpl_loop (Path entry) (Path oldentry) in
          if is_manifest oldentry && Nat.eqb cpl (length (Path oldentry)) then
            let! loaded := loadSubTrie oldentry in
            match loaded with
            | (oldentry, Some _) => Ok (set_slot self b (Some oldentry))
            | (mkEntry p _ ct st (Some sub), None) =>
              let! sub := addEntry f sub (with_Path (drop cpl (Path entry)) entry) in
              Ok (set_slot self b (Some (mkEntry p [] ct st (Some sub))))
            | (oldentry, None) => Ok (set_slot self b (Some oldentry))
            end
          else
            let commonPrefix := take cpl (Path entry) in
            let! sub := addEntry f emptyTrie (with_Path (drop cpl (Path entry)) entry) in
            let! sub := addEntry f sub (with_Path (drop cpl (Path oldentry)) oldentry) in
            Ok (set_slot self b (Some (mkEntry commonPrefix [] manifestType 0 (Some sub))))
      end
    end
  end.

(** [addEntry] with fuel for the path. *)
Definition addEntry' (self : manifestTrie) (entry : manifestTrieEntry) : result merr manifestTrie :=
  addEntry (S (length (Path entry))) self entry.

Definition getCountLast (self : manifestTrie) : nat * option manifestTrieEntry :=
  foldl (fun acc e => match e with Some _ => (S (fst acc), e) | None => acc end) (0%nat, None) (entries self).

Fixpoint deleteEntry (fuel : nat) (self : manifestTrie) (path : bytes) : result merr manifestTrie :=
  match fuel with
  | O => Err OutOfFuel
  | S f =>
    let self := clear_hash self in
    match path with
    | [] => Ok (set_slot self 256 None)
    | c :: _ =>
      let b := Z.to_nat c in
      match slot self b with
      | None => Ok self
      | Some entry =>
        if bool_decide (Path entry = path) then Ok (set_slot self b None)
        else if is_manifest entry && is_prefix (Path entry) path then
          let! loaded := loadSubTrie entry in
          match loaded with
          | (entry, Some _) => Ok (set_slot self b (Some entry))
          | (mkEntry p _ ct st (Some sub), None) =>
            let! sub := deleteEntry f sub (drop (length p) path) in
            let '(cnt, lastentry) := getCountLast sub in
            if Nat.ltb cnt 2 then
              Ok (set_slot self b ((fun l => with_Path (p ++ Path l) l) <$> lastentry))
            else Ok (set_slot self b (Some (mkEntry p [] ct st (Some sub))))
          | (entry, None) => Ok (set_slot self b (Some entry))
          end
        else Ok self
      end
    end
  end.

(** [findPrefixOf]: the node with what was loaded, the entry and the length matched. *)
Fixpoint findPrefixOf (fuel : nat) (self : manifestTrie) (path : bytes)
    : result merr (manifestTrie * option manifestTrieEntry * Z) :=
  match fuel with
  | O => Err OutOfFuel
  | S f =>
    match path with
    | [] => Ok (self, slot self 256, 0)
    | c :: _ =>
      let b := Z.to_nat c in
      match slot self b with
      | None => Ok (self, slot self 256, 0)
      | Some entry =>
        let epl := length (Path entry) in
        if is_prefix (Path entry) path then
          if is_manifest entry then
            let! loaded := loadSubTrie entry in
          match loaded with
            | (entry, Some _) => Ok (set_slot self b (Some entry), None, 0)
            | (mkEntry p h ct st (Some sub), None) =>
              let! '(sub, found, pos) := findPrefixOf f sub (drop epl path) in
              Ok (set_slot self b (Some (mkEntry p h ct st (Some sub))), found,
                    match found with Some _ => pos + Z.of_nat epl | None => pos end)
            | (entry, None) => Ok (set_slot self b (Some entry), None, 0)
            end
          else Ok (self, Some entry, Z.of_nat epl)
        else Ok (self, None, 0)
      end
    end
  end.

(** [listWithPrefixInt]: the calls of [cb], in order, and the error. [quit] is
    the number of polls after which [quitC] fires. *)
Definition poll (quit : option nat) : option (option nat) :=
  match quit with None => Some None | Some (S n) => Some (Some n) | Some O => None end.

Abbreviation listing := (list (manifestTrieEntry * bytes)).

(** Its loop over the slots from [i] on; [rec] lists a node below. *)
Fixpoint list_slots (rec : manifestTrie -> bytes -> bytes -> option nat -> result merr (manifestTrie * listing * option nat * option merr))
    (prefix rp : bytes) (n i : nat) (self : manifestTrie) (out : listing) (quit : option nat)
    : result merr (manifestTrie * listing * option nat * option merr) :=
  match n with
  | O => Ok (self, out, quit, None)
  | S n' =>
    match poll quit with
    | None => Ok (self, out, quit, Some Aborted)
    | Some quit =>
      match slot self i with
      | None => list_slots rec prefix rp n' (S i) self out quit
      | Some entry =>
        let plen := length prefix in
        let epl := length (Path entry) in
        if is_manifest entry then
          let l := Nat.min plen epl in
          if bool_decide (take l prefix = take l (Path entry)) then
            let! loaded := loadSubTrie entry in
            match loaded with
            | (entry, Some e) => Ok (set_slot self i (Some entry), out, quit, Some e)
            | (mkEntry p h ct st (Some sub), None) =>
              let! '(sub, out', quit, err) := rec sub (drop l prefix) (rp ++ drop l p) quit in
              let self := set_slot self i (Some (mkEntry p h ct st (Some sub))) in
              match err with
              | Some e => Ok (self, out ++ out', quit, Some e)
              | None => list_slots rec prefix rp n' (S i) self (out ++ out') quit
              end
            | (entry, None) => list_slots rec prefix rp n' (S i) (set_slot self i (Some entry)) out quit
            end
          else list_slots rec prefix rp n' (S i) self out quit
        else if is_prefix prefix (Path entry) then
          list_slots rec prefix rp n' (S i) self (out ++ [(entry, rp ++ drop plen (Path entry))]) quit
        else list_slots rec prefix rp n' (S i) self out quit
      end
    end
  end.

Fixpoint listWithPrefixInt (fuel : nat) (self : manifestTrie) (prefix rp : bytes) (quit : option nat)
    : result merr (manifestTrie * listing * option nat * option merr) :=
  match fuel with
  | O => Ok (self, [], quit, Some OutOfFuel)
  | S f =>
    let '(start, stop) := match prefix with [] => (0%nat, 256%nat) | c :: _ => (Z.to_nat c, Z.to_nat c) end in
    list_slots (listWithPrefixInt f) prefix rp (S (stop - start)) start self [] quit
  end.

Definition listWithPrefix fuel (self : manifestTrie) (prefix : bytes) (quit : option nat) :=
  listWithPrefixInt fuel self prefix [] quit.
End Load.

(** The entries of a decoded manifest, added one by one. *)
Fixpoint add_all (load : Key -> result merr manifestTrie) (t : manifestTrie) (es : list manifestTrieEntry)
    : result merr manifestTrie :=
  match es with
  | [] => Ok t
  | e :: es => let! t := addEntry' load t e in add_all load t es
  end.

Definition readManifest (load : Key -> result merr manifestTrie) (r : LazySectionReader)
    : result merr manifestTrie :=
  match rd_Size r with
  | None => Err NotFound
  | Some size =>
    if size <? 0 then Panic
    else
      let '(data, read, err) := rd_Read r size in
      if read <? size then Err (if err : bool then ReadError else CutShort)
      else
        match Unmarshal data with
        | None => Err Malformed
        | Some es => add_all load emptyTrie es
        end
  end.

(** The fuel bounds the depth of manifests loaded while one is read. *)
Fixpoint loadManifest (fuel : nat) (h : Key) : result merr manifestTrie :=
  match fuel with
  | O => Err OutOfFuel
  | S f => readManifest (loadManifest f) (Retrieve h)
  end.

(** [recalcAndStore]: an entry without hash and without node below is a nil
    pointer. *)
Fixpoint recalcAndStore (self : manifestTrie) : result merr manifestTrie :=
  match self with
  | mkTrie es (Some h) => Ok self
  | mkTrie es None =>
    let! es := (fix go (es : list (option manifestTrieEntry)) : result merr (list (option manifestTrieEntry)) :=
      match es with
      | [] => Ok []
      | None :: es => let! es := go es in Ok (None :: es)
      | Some (mkEntry p h ct st sub) :: es =>
        if bool_decide (h = []) then
          match sub with
          | None => Panic
          | Some s =>
            let! s := recalcAndStore s in
            let! es := go es in
            Ok (Some (mkEntry p (match hash s with Some k => Key_String k | None => Key_String [] end)
                        ct st (Some s)) :: es)
          end
        else let! es := go es in Ok (Some (mkEntry p h ct st sub) :: es)
      end) es in
    match Marshal (omap id es) with
    | None => Err MarshalError
    | Some manifest => let! key := Store manifest in Ok (mkTrie es (Some key))
    end
  end.
End Manifest.

(** ** Paths *)

Definition slash : Z := 47.

(** The loop of [RegularSlashes]; [prev] is the byte before. *)
Fixpoint slashes_loop (prev : option Z) (path : bytes) : bytes :=
  match path with
  | [] => []
  | c :: path =>
    if negb (c =? slash) || match prev with Some p => negb (p =? slash) | None => false end
    then c :: slashes_loop (Some c) path
    else slashes_loop (Some c) path
  end.

Definition RegularSlashes (path : bytes) : bytes :=
  let res := slashes_loop None path in
  match last res with
  | Some c => if c =? slash then removelast res else res
  | None => res
  end.

Definition getEntry load fuel (self : manifestTrie) (spath : bytes)
    : result merr (manifestTrie * option manifestTrieEntry * bytes) :=
  let path := RegularSlashes spath in
  let! '(t, entry, pos) := findPrefixOf load fuel self path in
  Ok (t, entry, take (Z.to_nat pos) path).
