(* ===== verification/ManifestProps.v ===== *)
(** Theorems of manifest tries: a trie is a finite map from paths to contents,
    and what [addEntry], [deleteEntry] and [findPrefixOf] do to it. *)
From stdpp Require Import base gmap list strings.
From Stdlib Require Import ZArith Lia.
From S2P Require Import Prelude Types Manifest.

(** ** The map a trie stands for *)

Definition content (e : manifestTrieEntry) : bytes * bytes * Z := (Hash e, ContentType e, Status e).

(** The slot a path belongs to. *)
Definition slot_of (p : bytes) : nat := match p with [] => 256 | c :: _ => Z.to_nat c end.

(** [has t p x]: the trie gives path [p] the content [x]. *)
Inductive has : manifestTrie -> bytes -> bytes * bytes * Z -> Prop :=
| has_leaf t e :
    slot t (slot_of (Path e)) = Some e -> is_manifest e = false -> has t (Path e) (content e)
| has_node t e sub q x :
    slot t (slot_of (Path e ++ q)) = Some e -> is_manifest e = true -> subtrie e = Some sub ->
    has sub q x -> has t (Path e ++ q) x.

(** [inner t p]: a node of the trie below the root starts at path [p]. *)
Inductive inner : manifestTrie -> bytes -> Prop :=
| inner_here t e : slot t (slot_of (Path e)) = Some e -> is_manifest e = true -> inner t (Path e)
| inner_below t e sub q :
    slot t (slot_of (Path e ++ q)) = Some e -> is_manifest e = true -> subtrie e = Some sub ->
    inner sub q -> inner t (Path e ++ q).

(** Well-formed, with every node loaded. *)
#[warnings="-register-all"] Inductive loaded : manifestTrie -> Prop :=
| loaded_intro t :
    length (entries t) = 257%nat ->
    (forall i e, slot t i = Some e -> slot_of (Path e) = i /\ Forall is_byte (Path e) /\
       (is_manifest e = true -> Path e <> [] /\ exists sub, subtrie e = Some sub /\ loaded sub)) ->
    loaded t.

(** What one entry contributes. *)
Definition ehas (e : manifestTrieEntry) (q : bytes) (x : bytes * bytes * Z) : Prop :=
  if is_manifest e then exists sub q', subtrie e = Some sub /\ q = Path e ++ q' /\ has sub q' x
  else q = Path e /\ x = content e.

Lemma has_unfold t q x : has t q x <-> exists e, slot t (slot_of q) = Some e /\ ehas e q x.
Proof.
  split.
  - destruct 1 as [t e Hs Hm|t e sub q x Hs Hm Hsub Hh]; exists e; (split; [done|]); unfold ehas; rewrite Hm; eauto.
  - intros (e & Hs & He). unfold ehas in He. destruct (is_manifest e) eqn:Hm.
    + destruct He as (sub & q' & Hsub & -> & Hh). by econstructor.
    + destruct He as [-> ->]. by constructor.
Qed.

Lemma slot_set t i x j :
  length (entries t) = 257%nat -> (i < 257)%nat ->
  slot (set_slot t i x) j = if decide (i = j) then x else slot t j.
Proof.
  intros Hl Hi. unfold slot, set_slot. cbn [entries]. case_decide.
  - subst j. rewrite list_lookup_insert_eq by lia. done.
  - by rewrite list_lookup_insert_ne.
Qed.

Lemma slot_of_lt p : Forall is_byte p -> (slot_of p < 257)%nat.
Proof. destruct p as [|c p]; cbn; [lia|]. inversion_clear 1 as [|?? Hc]. unfold is_byte in Hc. lia. Qed.

Lemma slot_of_nil q : Forall is_byte q -> slot_of q = 256%nat -> q = [].
Proof.
  destruct q as [|c q]; [done|]. inversion_clear 1 as [|?? Hc]. unfold is_byte in Hc. cbn. lia.
Qed.

Lemma slot_of_cons c p q :
  Forall is_byte (c :: p) -> Forall is_byte q -> slot_of q = slot_of (c :: p) -> exists q', q = c :: q'.
Proof.
  intros Hp Hq Hs. inversion_clear Hp as [|?? Hc _]. destruct q as [|d q]; [cbn in Hs; unfold is_byte in Hc; lia|].
  inversion_clear Hq as [|?? Hd _]. unfold is_byte in *. cbn in Hs. exists q. f_equal. lia.
Qed.

Lemma clear_hash_has t q x : has (clear_hash t) q x <-> has t q x.
Proof. rewrite !has_unfold. done. Qed.

(** The map after one slot is set. *)
Lemma set_slot_has t i e q x :
  length (entries t) = 257%nat -> (i < 257)%nat ->
  has (set_slot (clear_hash t) i (Some e)) q x <-> if decide (i = slot_of q) then ehas e q x else has t q x.
Proof.
  intros Hl Hi. rewrite has_unfold, slot_set by done. case_decide.
  - split; [by intros (e' & [= <-] & ?)|eauto].
  - by rewrite has_unfold.
Qed.

Lemma set_slot_loaded t e :
  loaded t -> Forall is_byte (Path e) ->
  (is_manifest e = true -> Path e <> [] /\ exists sub, subtrie e = Some sub /\ loaded sub) ->
  loaded (set_slot t (slot_of (Path e)) (Some e)).
Proof.
  intros Hl Hb Hm. destruct Hl as [t Hlen Hs]. constructor.
  - unfold set_slot. cbn [entries]. by rewrite length_insert.
  - intros i e'. rewrite slot_set by (done || by apply slot_of_lt). case_decide; [|by apply Hs].
    intros [= <-]. done.
Qed.

Lemma clear_hash_loaded t : loaded t -> loaded (clear_hash t).
Proof. destruct 1 as [t Hl Hs]. by constructor. Qed.

Lemma emptyTrie_loaded : loaded emptyTrie.
Proof.
  constructor; [done|]. intros i e. unfold slot, emptyTrie. cbn [entries].
  destruct (replicate 257 None !! i) as [o|] eqn:E; [|done]. apply lookup_replicate in E as [-> _]. done.
Qed.

Lemma emptyTrie_slot i : slot emptyTrie i = None.
Proof.
  unfold slot, emptyTrie. cbn [entries].
  destruct (replicate 257 None !! i) as [o|] eqn:E; [|done]. by apply lookup_replicate in E as [-> _].
Qed.

(** ** Common prefixes *)

(** Two rests that go apart at once. *)
Definition diverge (r1 r2 : bytes) : Prop :=
  match r1, r2 with
  | [], [] => False
  | [], _ | _, [] => True
  | c :: _, d :: _ => c <> d
  end.

Lemma diverge_irrefl r : ~ diverge r r.
Proof. destruct r; cbn; auto. Qed.

Lemma diverge_slot r1 r2 : Forall is_byte r1 -> Forall is_byte r2 -> diverge r1 r2 -> slot_of r1 <> slot_of r2.
Proof.
  intros H1 H2 Hd Hs. destruct r1 as [|c r1], r2 as [|d r2]; cbn in *; try done;
    try inversion_clear H1 as [|?? Hc]; try inversion_clear H2 as [|?? Hd2]; unfold is_byte in *; lia.
Qed.

Lemma cpl_diverge x r1 r2 : diverge r1 r2 -> cpl_loop (x ++ r1) (x ++ r2) = length x.
Proof.
  intros Hd. induction x as [|c x IH]; cbn.
  - destruct r1 as [|c r1], r2 as [|d r2]; cbn in *; try done. by destruct (Z.eqb_spec c d).
  - rewrite Z.eqb_refl. by rewrite IH.
Qed.

Lemma cpl_prefix x r : cpl_loop (x ++ r) x = length x.
Proof. induction x as [|c x IH]; cbn; [by destruct r|]. rewrite Z.eqb_refl. by rewrite IH. Qed.

(** Two different paths of one slot: a common prefix and rests that go apart. *)
Lemma split_paths a b :
  Forall is_byte a -> Forall is_byte b -> slot_of b = slot_of a -> b <> a ->
  exists x r1 r2, a = x ++ r1 /\ b = x ++ r2 /\ x <> [] /\ diverge r1 r2.
Proof.
  intros Ha Hb Hs Hne. destruct a as [|c a]; [by apply slot_of_nil in Hs|].
  destruct (slot_of_cons c a b Ha Hb Hs) as [b' ->]. clear Hs Ha Hb.
  assert (Hgo : forall a b : bytes, b <> a -> exists x r1 r2, a = x ++ r1 /\ b = x ++ r2 /\ diverge r1 r2).
  { clear. induction a as [|c a IH]; intros [|d b] Hne; [done|by exists [], [], (d :: b)|by exists [], (c :: a), []|].
    destruct (decide (c = d)) as [-> |Hcd]; [|exists [], (c :: a), (d :: b); done].
    destruct (IH b) as (x & r1 & r2 & -> & -> & Hd); [congruence|]. by exists (d :: x), r1, r2. }
  destruct (Hgo a b') as (x & r1 & r2 & -> & -> & Hd); [congruence|]. by exists (c :: x), r1, r2.
Qed.

(** Cutting a prefix off an entry. *)
Lemma ehas_with_Path e x r q c :
  Path e = x ++ r -> ehas (with_Path r e) q c <-> ehas e (x ++ q) c.
Proof.
  destruct e as [p h ct st sub]. cbn. intros ->. unfold ehas, is_manifest, content. cbn.
  destruct (bool_decide _).
  2:{ split; [by intros [-> ->]|]. intros [E ->]. by apply app_inv_head in E. }
  split.
  - intros (s & q' & -> & -> & Hh). exists s, q'. by rewrite app_assoc.
  - intros (s & q' & -> & E & Hh). exists s, q'. rewrite <- app_assoc in E. by apply app_inv_head in E.
Qed.

Section Add.
Context (load : Key -> result merr manifestTrie).

(** Adding an entry to a free slot, or over an entry of the same path. *)
Lemma addEntry_free f t e :
  slot t (slot_of (Path e)) = None -> addEntry load (S f) t e = Ok (set_slot (clear_hash t) (slot_of (Path e)) (Some e)).
Proof. intros Hs. cbn. destruct (Path e) as [|c p]; [done|]. cbn in Hs. change (slot (clear_hash t)) with (slot t). by rewrite Hs. Qed.

Lemma addEntry_same f t e old :
  slot t (slot_of (Path e)) = Some old -> Path old = Path e ->
  addEntry load (S f) t e = Ok (set_slot (clear_hash t) (slot_of (Path e)) (Some e)).
Proof.
  intros Hs Hp. cbn. destruct (Path e) as [|c p] eqn:E; [done|]. cbn in Hs.
  change (slot (clear_hash t)) with (slot t). by rewrite Hs, bool_decide_eq_true_2.
Qed.

(** The map a node of two entries with different first bytes stands for. *)
Lemma pair_has f e1 e2 :
  Forall is_byte (Path e1) -> Forall is_byte (Path e2) -> slot_of (Path e1) <> slot_of (Path e2) ->
  (forall e, e = e1 \/ e = e2 -> is_manifest e = true ->
     Path e <> [] /\ exists sub, subtrie e = Some sub /\ loaded sub) ->
  exists t, (let! s := addEntry load (S f) emptyTrie e1 in addEntry load (S f) s e2) = Ok t /\ loaded t /\
    forall q x, Forall is_byte q ->
      has t q x <-> (slot_of q = slot_of (Path e1) /\ ehas e1 q x) \/ (slot_of q = slot_of (Path e2) /\ ehas e2 q x).
Proof.
  intros H1 H2 Hne Hm. rewrite addEntry_free by apply emptyTrie_slot. cbn [rbind].
  set (t1 := set_slot _ _ _).
  assert (Hl1 : loaded t1) by (apply set_slot_loaded; [apply clear_hash_loaded, emptyTrie_loaded|done|by apply Hm; left]).
  assert (Hlen : length (entries t1) = 257%nat) by (by inversion Hl1).
  rewrite addEntry_free.
  2:{ subst t1. rewrite slot_set by (done || by apply slot_of_lt). rewrite decide_False by done. apply emptyTrie_slot. }
  eexists. split; [done|]. split; [apply set_slot_loaded; [by apply clear_hash_loaded|done|by apply Hm; right]|].
  intros q x Hq. rewrite set_slot_has by (done || by apply slot_of_lt).
  case_decide as E2.
  - split; [by right|]. intros [[E1 _]|[_ ?]]; [congruence|done].
  - subst t1. rewrite set_slot_has by (done || by apply slot_of_lt).  case_decide as E1.
    + split; [by left|]. by intros [[_ ?]|[E _]].
    + split; [|intros [[E _]|[E _]]; congruence]. rewrite has_unfold. intros (e & He & _). by rewrite emptyTrie_slot in He.
Qed.

(** The loaded node below an entry. *)
Lemma loadSubTrie_loaded e sub : subtrie e = Some sub -> loadSubTrie load e = Ok (e, None).
Proof. intros Hs. unfold loadSubTrie. by rewrite Hs. Qed.

(** The two remaining branches of [addEntry], as equations. *)
Lemma addEntry_descend f t e old sub x r :
  slot t (slot_of (Path e)) = Some old -> Path old = x -> Path e = x ++ r -> x <> [] -> r <> [] ->
  is_manifest old = true -> subtrie old = Some sub ->
  addEntry load (S f) t e
  = (let! sub := addEntry load f sub (with_Path r e) in
     Ok (set_slot (clear_hash t) (slot_of (Path e))
           (Some (mkEntry x [] (ContentType old) (Status old) (Some sub))))).
Proof.
  intros Hs Ho He Hx Hr Hm Hsub. cbn [addEntry]. rewrite He in *. destruct x as [|c x]; [done|].
  cbn [app] in *. cbn [slot_of] in Hs |- *.
  change (slot (clear_hash t)) with (slot t). rewrite Hs. rewrite bool_decide_eq_false_2.
  2:{ rewrite Ho. intros E. apply Hr. change (c :: x ++ r) with ((c :: x) ++ r) in E.
      rewrite <- (app_nil_r (c :: x)) in E at 1. by apply app_inv_head in E. }
  rewrite Ho. change (c :: x ++ r) with ((c :: x) ++ r). rewrite cpl_prefix, Hm, Nat.eqb_refl. cbn [andb].
  rewrite (loadSubTrie_loaded old sub) by done. cbn [rbind]. destruct old as [p h ct st sb].
  cbn in Hsub, Ho. subst. by rewrite drop_app_length.
Qed.

Lemma addEntry_split f t e old x r1 r2 :
  slot t (slot_of (Path e)) = Some old -> Path e = x ++ r1 -> Path old = x ++ r2 -> x <> [] ->
  diverge r1 r2 -> (is_manifest old = true -> r2 <> []) ->
  addEntry load (S f) t e
  = (let! s := addEntry load f emptyTrie (with_Path r1 e) in
     let! s := addEntry load f s (with_Path r2 old) in
     Ok (set_slot (clear_hash t) (slot_of (Path e)) (Some (mkEntry x [] manifestType 0 (Some s))))).
Proof.
  intros Hs He Ho Hx Hd Hm. cbn [addEntry]. rewrite He in *. destruct x as [|c x]; [done|].
  cbn [app] in Hs |- *. cbn [slot_of] in Hs |- *.
  change (slot (clear_hash t)) with (slot t). rewrite Hs. rewrite bool_decide_eq_false_2.
  2:{ rewrite Ho. intros E. change (c :: x ++ r1) with ((c :: x) ++ r1) in E.
      apply app_inv_head in E. subst r2. by destruct (diverge_irrefl r1). }
  change (c :: x ++ r1) with ((c :: x) ++ r1). rewrite Ho, cpl_diverge by done.
  rewrite drop_app_length, take_app_length, drop_app_length.
  destruct (is_manifest old); cbn [andb]; [|done].
  destruct (Nat.eqb_spec (length (c :: x)) (length ((c :: x) ++ r2))) as [E|]; [|done].
  rewrite length_app in E. destruct r2; [by destruct (Hm eq_refl)|cbn in E; lia].
Qed.

(** The map after a slot got an entry that keeps the contents of the old one
    and adds [e]. *)
Lemma add_result t e old new :
  loaded t -> Forall is_byte (Path e) -> slot t (slot_of (Path e)) = Some old ->
  slot_of (Path new) = slot_of (Path e) -> Forall is_byte (Path new) ->
  (is_manifest new = true -> Path new <> [] /\ exists sub, subtrie new = Some sub /\ loaded sub) ->
  (forall q x, Forall is_byte q -> slot_of q = slot_of (Path e) ->
     ehas new q x <-> (q = Path e /\ x = content e) \/ (q <> Path e /\ ehas old q x)) ->
  let t' := set_slot (clear_hash t) (slot_of (Path e)) (Some new) in
  loaded t' /\ forall q x, Forall is_byte q ->
    has t' q x <-> (q = Path e /\ x = content e) \/ (q <> Path e /\ has t q x).
Proof.
  intros Hl Hb Hold Hsn Hbn Hm Hiff t'. assert (Hlen : length (entries t) = 257%nat) by (by inversion Hl). split.
  { subst t'. rewrite <- Hsn. apply set_slot_loaded; [by apply clear_hash_loaded|done|done]. }
  intros q x Hq. subst t'. rewrite set_slot_has by (done || by apply slot_of_lt).
  case_decide as Hs.
  - rewrite Hiff by done. rewrite (has_unfold t), <- Hs, Hold. split; intros [?|[? Hh]]; auto.
    + right. eauto.
    + right. destruct Hh as (e' & [= <-] & ?). done.
  - split; [|by intros [[-> _]|[_ ?]]]. intros Hh. right. split; [by intros ->|done].
Qed.

Lemma ehas_leaf e q x : is_manifest e = false -> ehas e q x <-> q = Path e /\ x = content e.
Proof. intros Hm. unfold ehas. by rewrite Hm. Qed.

Lemma ehas_node p h st sub q x :
  ehas (mkEntry p h manifestType st (Some sub)) q x <-> exists q', q = p ++ q' /\ has sub q' x.
Proof.
  unfold ehas, is_manifest. cbn [ContentType]. rewrite bool_decide_eq_true_2 by done. cbn. split.
  - intros (s & q' & [= <-] & -> & Hh). eauto.
  - intros (q' & -> & Hh). eauto.
Qed.

Lemma with_Path_Path r e : Path (with_Path r e) = r.
Proof. by destruct e. Qed.
Lemma with_Path_content r e : content (with_Path r e) = content e.
Proof. by destruct e. Qed.
Lemma with_Path_manifest r e : is_manifest (with_Path r e) = is_manifest e.
Proof. by destruct e. Qed.
Lemma with_Path_subtrie r e : subtrie (with_Path r e) = subtrie e.
Proof. by destruct e. Qed.

(** The entry went into the node below. *)
Lemma descend_result t e old sub sub' x r :
  loaded t -> Forall is_byte (Path e) -> slot t (slot_of (Path e)) = Some old ->
  is_manifest old = true -> subtrie old = Some sub -> Path old = x -> Path e = x ++ r -> x <> [] ->
  loaded sub' ->
  (forall q y, Forall is_byte q -> has sub' q y <-> (q = r /\ y = content e) \/ (q <> r /\ has sub q y)) ->
  let t' := set_slot (clear_hash t) (slot_of (Path e)) (Some (mkEntry x [] manifestType (Status old) (Some sub'))) in
  loaded t' /\ forall q y, Forall is_byte q ->
    has t' q y <-> (q = Path e /\ y = content e) \/ (q <> Path e /\ has t q y).
Proof.
  intros Hl Hb Hold Hmo Hsub Ho He Hx Hl' Hh'. apply (add_result t e old); cbn [Path subtrie]; try done.
  { rewrite He. by destruct x. } { rewrite He in Hb. by apply Forall_app in Hb as [? _]. } { eauto. }
  intros q y Hq Hsq. rewrite ehas_node. unfold ehas. rewrite Hmo, Hsub, Ho, He. split.
  - intros (q' & -> & Hq'). apply Hh' in Hq'; [|by apply Forall_app in Hq as [_ ?]].
    destruct Hq' as [[-> ->]|[Hne Hq']]; [by left|right]. split; [intros E; by apply app_inv_head in E|]. eauto.
  - intros [[-> ->]|[Hne (s & q' & [= <-] & -> & Hq')]].
    + exists r. split; [done|]. apply Hh'; [by apply Forall_app in Hq as [_ ?]|]. by left.
    + exists q'. split; [done|]. apply Hh'; [by apply Forall_app in Hq as [_ ?]|]. right.
      split; [by intros ->|done].
Qed.

(** Both entries went into a new node. *)
Lemma split_result t e old s x r1 r2 :
  loaded t -> Forall is_byte (Path e) -> slot t (slot_of (Path e)) = Some old ->
  is_manifest e = false -> Path e = x ++ r1 -> Path old = x ++ r2 -> x <> [] ->
  Forall is_byte r2 -> diverge r1 r2 -> (is_manifest old = true -> r2 <> []) -> loaded s ->
  (forall q y, Forall is_byte q ->
     has s q y <-> (slot_of q = slot_of r1 /\ ehas (with_Path r1 e) q y) \/
                   (slot_of q = slot_of r2 /\ ehas (with_Path r2 old) q y)) ->
  let t' := set_slot (clear_hash t) (slot_of (Path e)) (Some (mkEntry x [] manifestType 0 (Some s))) in
  loaded t' /\ forall q y, Forall is_byte q ->
    has t' q y <-> (q = Path e /\ y = content e) \/ (q <> Path e /\ has t q y).
Proof.
  intros Hl Hb Hold Hm He Ho Hx Hb2 Hdiv Hr2 Hls Hhs. pose proof Hb as Hbx. rewrite He in Hbx.
  apply Forall_app in Hbx as [Hbx Hb1]. apply (add_result t e old); cbn [Path subtrie]; try done.
  { rewrite He. by destruct x. } { eauto. }
  intros q y Hq Hsq. rewrite ehas_node, He. split.
  - intros (q' & -> & Hq'). apply Forall_app in Hq as [_ Hq2]. apply Hhs in Hq'; [|done].
    destruct Hq' as [[_ H1]|[Hs2 H2]].
    + apply ehas_leaf in H1 as [-> ->]; [|by rewrite with_Path_manifest]. left.
      by rewrite with_Path_Path, with_Path_content.
    + right. split; [|by apply (ehas_with_Path old x r2 q' y Ho)].
      intros E. apply app_inv_head in E. subst q'. by apply (diverge_slot r1 r2) in Hs2.
  - intros [[-> ->]|[Hne H2]].
    + exists r1. split; [done|]. apply Hhs; [done|]. left. split; [done|].
      apply ehas_leaf; [by rewrite with_Path_manifest|]. by rewrite with_Path_Path, with_Path_content.
    + assert (Hpre : exists q', q = x ++ q' /\ slot_of q' = slot_of r2).
      { unfold ehas in H2. rewrite Ho in H2. destruct (is_manifest old) eqn:Hmo.
        - destruct H2 as (? & q' & _ & -> & _). rewrite <- app_assoc. eexists. split; [done|].
          destruct r2; [by destruct (Hr2 eq_refl)|done].
        - destruct H2 as [-> _]. eauto. }
      destruct Hpre as (q' & -> & Hsq'). exists q'. split; [done|]. apply Forall_app in Hq as [_ Hq2].
      apply Hhs; [done|]. right. split; [done|]. by apply (ehas_with_Path old x r2 q' y Ho).
Qed.

(** Adding content at a path that is not the start of a node. *)
Lemma addEntry_ok fuel t e :
  (length (Path e) < fuel)%nat -> loaded t -> Forall is_byte (Path e) -> is_manifest e = false ->
  ~ inner t (Path e) ->
  exists t', addEntry load fuel t e = Ok t' /\ loaded t' /\
    forall q x, Forall is_byte q ->
      has t' q x <-> (q = Path e /\ x = content e) \/ (q <> Path e /\ has t q x).
Proof.
  revert t e. induction fuel as [|f IH]; intros t e Hf Hl Hb Hm Hin; [lia|].
  assert (Hlen : length (entries t) = 257%nat) by (by inversion Hl).
  destruct (slot t (slot_of (Path e))) as [old|] eqn:Hold.
  2:{ rewrite addEntry_free by done. eexists. split; [done|]. split.
      { apply set_slot_loaded; [by apply clear_hash_loaded|done|congruence]. }
      intros q x Hq. rewrite set_slot_has by (done || by apply slot_of_lt).
      case_decide as Hs; [|split; [intros Hh; right; split; [by intros ->|done]|by intros [[-> _]|[_ ?]]]].
      rewrite ehas_leaf by done. rewrite (has_unfold t), <- Hs, Hold. split; [by left|]. intros [?|[_ (? & ? & _)]]; done. }
  inversion Hl as [? _ Hslots]; subst. destruct (Hslots _ _ Hold) as (Hso & Hob & Hom).
  destruct (decide (Path old = Path e)) as [Heq|Hneq].
  { assert (Ho : is_manifest old = false).
    { destruct (is_manifest old) eqn:Ho; [|done]. destruct Hin. rewrite <- Heq. constructor; [by rewrite Heq|done]. }
    rewrite (addEntry_same f t e old) by done. eexists. split; [done|].
    apply (add_result t e old e); try done; [congruence|].
    intros q x _ _. rewrite !ehas_leaf by done. rewrite Heq. split; [by left|]. by intros [?|[? [? _]]]. }
  destruct (split_paths (Path e) (Path old)) as (x & r1 & r2 & He & Ho & Hx & Hdiv); try done.
  assert (Hb2 : Forall is_byte r2) by (rewrite Ho in Hob; by apply Forall_app in Hob as [_ ?]).
  assert (Hb1 : Forall is_byte r1) by (rewrite He in Hb; by apply Forall_app in Hb as [_ ?]).
  assert (Hlr : (length r1 < f)%nat) by (rewrite He, length_app in Hf; destruct x; [done|cbn in Hf; lia]).
  destruct (decide (is_manifest old = true /\ r2 = [])) as [[Hmo ->]|Hnot].
  - rewrite app_nil_r in Ho. destruct (Hom Hmo) as (_ & sub & Hsub & Hlsub).
    rewrite (addEntry_descend f t e old sub x r1) by (done || (intros ->; by destruct (diverge_irrefl []))).
    assert (Hcte : ContentType old = manifestType) by (by apply bool_decide_eq_true in Hmo).
    destruct (IH sub (with_Path r1 e)) as (sub' & -> & Hl' & Hh');
      rewrite ?with_Path_Path, ?with_Path_manifest; try done.
    { intros Hi. apply Hin. rewrite He, <- Ho. eapply inner_below; try done. rewrite Ho, <- Hold, He. by destruct x. }
    cbn [rbind]. eexists. split; [done|]. rewrite Hcte. apply (descend_result t e old sub sub' x r1); try done.
    intros q y Hq. rewrite (Hh' q y Hq). by rewrite with_Path_Path, with_Path_content.
  - rewrite (addEntry_split f t e old x r1 r2); try done; [|intros Hmo ->; by destruct Hnot].
    destruct f as [|f]; [lia|].
    destruct (pair_has f (with_Path r1 e) (with_Path r2 old)) as (s & Hs & Hls & Hhs);
      rewrite ?with_Path_Path; try done; [by apply diverge_slot| |].
    { intros e' [-> | ->]; rewrite with_Path_manifest, with_Path_Path, with_Path_subtrie; [congruence|].
      intros Hmo. split; [intros ->; by destruct Hnot|]. by destruct (Hom Hmo). }
    destruct (addEntry load (S f) emptyTrie (with_Path r1 e)) as [s1| |]; try done. cbn [rbind] in Hs |- *.
    rewrite Hs. cbn [rbind]. eexists. split; [done|].
    apply (split_result t e old s x r1 r2); try done; [intros Hmo ->; by destruct Hnot|].
    rewrite !with_Path_Path in Hhs. exact Hhs.
Qed.
End Add.

(** ** Lookup *)
Section Find.
Context (load : Key -> result merr manifestTrie).

Lemma set_slot_id t i e : slot t i = Some e -> set_slot t i (Some e) = t.
Proof.
  destruct t as [es h]. unfold slot, set_slot. cbn. intros Hs. f_equal. apply list_insert_id.
  destruct (es !! i) as [o|]; [cbn in Hs; by subst|done].
Qed.

Lemma is_prefix_spec p q : is_prefix p q = true <-> exists r, q = p ++ r.
Proof.
  unfold is_prefix. rewrite bool_decide_eq_true. split.
  - intros E. exists (drop (length p) q). rewrite <- E at 1. by rewrite take_drop.
  - intros [r ->]. by rewrite take_app_length.
Qed.

Lemma ehas_prefix e q x : ehas e q x -> exists r, q = Path e ++ r.
Proof.
  unfold ehas. destruct (is_manifest e).
  - intros (? & q' & _ & -> & _). eauto.
  - intros [-> _]. exists []. by rewrite app_nil_r.
Qed.

Lemma findPrefixOf_ok fuel t path :
  (length path < fuel)%nat -> loaded t -> Forall is_byte path ->
  exists found pos, findPrefixOf load fuel t path = Ok (t, found, pos) /\ 0 <= pos <= #path /\
    (forall e, found = Some e -> has t (take (Z.to_nat pos) path) (content e)) /\
    (forall x, has t path x -> exists e, found = Some e /\ content e = x /\ pos = #path).
Proof.
  revert t path. induction fuel as [|f IH]; intros t path Hf Hl Hb; [lia|].
  inversion Hl as [? Hlen Hslots]; subst. pose proof (zlen_nonneg path) as Hpl.
  assert (H256 : forall e, slot t 256 = Some e -> has t [] (content e)).
  { intros e He. destruct (Hslots _ _ He) as (Hs & Hbe & Hme).
    apply slot_of_nil in Hs; [|done]. destruct (is_manifest e) eqn:Hm; [by destruct (Hme eq_refl)|].
    rewrite <- Hs. constructor; [by rewrite Hs|done]. }
  cbn [findPrefixOf]. destruct path as [|c p].
  { exists (slot t 256), 0. split_and!; [done|lia|lia|apply H256|]. intros x Hx.
    apply has_unfold in Hx as (e & He & Heh). exists e. split_and!; [done| |done].
    destruct (Hslots _ _ He) as (_ & _ & Hme). unfold ehas in Heh.
    destruct (is_manifest e); [|by destruct Heh].
    destruct (Hme eq_refl) as [Hne _]. destruct Heh as (? & ? & _ & E & _).
    by destruct (Path e). }
  destruct (slot t (Z.to_nat c)) as [e|] eqn:He.
  2:{ exists (slot t 256), 0. split_and!; [done|lia|lia|apply H256|]. intros x Hx.
      apply has_unfold in Hx as (e & Hse & _). cbn in Hse. congruence. }
  destruct (Hslots _ _ He) as (Hs & Hbe & Hme). destruct (is_prefix (Path e) (c :: p)) eqn:Hp.
  2:{ exists None, 0. split_and!; [done|lia|lia|done|]. intros x Hx.
      apply has_unfold in Hx as (e' & Hse & Heh). cbn in Hse. rewrite He in Hse. injection Hse as <-.
      apply ehas_prefix, is_prefix_spec in Heh. congruence. }
  apply is_prefix_spec in Hp as [r Hr]. destruct (is_manifest e) eqn:Hm.
  - destruct (Hme eq_refl) as (Hne & sub & Hsub & Hlsub). rewrite (loadSubTrie_loaded load e sub) by done.
    cbn [rbind]. rewrite Hr in *. rewrite drop_app_length.
    destruct (IH sub r) as (found & pos & Hfind & Hpos & Hsound & Hexact); [|done|by apply Forall_app in Hb as [_ ?]|].
    { rewrite length_app in Hf. destruct (Path e); [done|cbn in Hf; lia]. }
    assert (Hback : set_slot t (Z.to_nat c) (Some e) = t) by (by apply set_slot_id).
    destruct e as [pe h ct st sb]. cbn in Hsub. subst sb. rewrite Hfind. cbn [rbind Path] in *. rewrite Hback.
    rewrite zlen_app. unfold zlen in *.
    assert (Hslot : slot t (slot_of (pe ++ r)) = Some (mkEntry pe h ct st (Some sub))) by (by rewrite <- Hr).
    exists found. eexists. split; [done|]. split_and!.
    + destruct found; lia.
    + destruct found; lia.
    + intros e' ->. rewrite take_app_ge by lia.
      replace (Z.to_nat (pos + Z.of_nat (length pe)) - length pe)%nat with (Z.to_nat pos) by lia.
      apply (has_node t (mkEntry pe h ct st (Some sub)) sub); [|done|done|by apply Hsound].
      cbn [Path]. rewrite <- Hslot. destruct pe; [done|done].
    + intros x Hx. apply has_unfold in Hx as (e' & Hse & Heh). rewrite Hslot in Hse. injection Hse as <-.
      unfold ehas in Heh. rewrite Hm in Heh. destruct Heh as (s & q' & [= <-] & E & Hh). cbn [Path] in E.
      apply app_inv_head in E. subst q'. destruct (Hexact x Hh) as (e' & -> & Hc & ->). exists e'. split_and!; [done|done|lia].
  - exists (Some e), (Z.of_nat (length (Path e))). rewrite Hr. unfold zlen. rewrite length_app, Nat2Z.id, take_app_length.
    split_and!; [done|lia|lia| |].
    + intros e' [= <-]. constructor; [by rewrite Hs|done].
    + intros x Hx. apply has_unfold in Hx as (e' & Hse & Heh). rewrite <- Hr in Hse. cbn in Hse. rewrite He in Hse.
      injection Hse as <-. apply ehas_leaf in Heh as [E ->]; [|done]. exists e. split_and!; [done|done|].
      rewrite <- (app_nil_r (Path e)) in E at 2. apply app_inv_head in E. subst r. cbn. lia.
Qed.
End Find.

(** ** Removal *)

(** [getCountLast] of a list of slots. *)
Lemma count_last_spec (es : list (option manifestTrieEntry)) :
  let r := foldl (fun acc e => match e with Some _ => (S (fst acc), e) | None => acc end) (0%nat, None) es in
  (fst r = 0%nat -> snd r = None /\ forall i e, es !! i <> Some (Some e)) /\
  (fst r = 1%nat -> exists i e, snd r = Some e /\ es !! i = Some (Some e) /\
     forall j e', es !! j = Some (Some e') -> j = i).
Proof.
  induction es as [|o es IH] using rev_ind; cbn zeta; [cbn; split; [|done]; intros _; split; [done|intros []; done]|].
  rewrite foldl_app. cbn [foldl]. set (r := foldl _ _ es) in *. cbn zeta in IH. destruct IH as [IH0 IH1].
  assert (Hlast : forall j e, (es ++ [o]) !! j = Some (Some e) ->
    (es !! j = Some (Some e)) \/ (j = length es /\ o = Some e)).
  { intros j e Hj. destruct (decide (j < length es)%nat) as [Hlt|Hge]; [rewrite lookup_app_l in Hj by done; by left|].
    rewrite lookup_app_r in Hj by lia. right. destruct (j - length es)%nat as [|n] eqn:E; [|done].
    split; [lia|]. by injection Hj. }
  destruct o as [e|]; cbn [fst snd].
  - split; [done|]. intros [= Hz]. destruct (IH0 Hz) as [_ Hno]. exists (length es), e.
    split_and!; [done|by rewrite list_lookup_middle|].
    intros j e' Hj. destruct (Hlast j e' Hj) as [Hx|[-> _]]; [by destruct (Hno j e')|done].
  - split; intros Hz.
    + destruct (IH0 Hz) as [Hs Hno]. split; [done|]. intros j e Hj.
      destruct (Hlast j e Hj) as [Hx|[_ ?]]; [by destruct (Hno j e)|done].
    + destruct (IH1 Hz) as (i & e & Hs & Hi & Huniq). exists i, e. split_and!; [done|by apply lookup_app_l_Some|].
      intros j e' Hj. destruct (Hlast j e' Hj) as [Hx|[_ ?]]; [by eapply Huniq|done].
Qed.

Section Delete.
Context (load : Key -> result merr manifestTrie).

(** The map after a slot is emptied or refilled so that [p] is gone. *)
Lemma delete_result t c p old new :
  loaded t -> Forall is_byte (c :: p) -> slot t (Z.to_nat c) = Some old ->
  (forall e, new = Some e -> slot_of (Path e) = Z.to_nat c /\ Forall is_byte (Path e) /\
     (is_manifest e = true -> Path e <> [] /\ exists sub, subtrie e = Some sub /\ loaded sub)) ->
  (forall q x, Forall is_byte q -> slot_of q = Z.to_nat c ->
     (exists e, new = Some e /\ ehas e q x) <-> q <> c :: p /\ ehas old q x) ->
  let t' := set_slot (clear_hash t) (Z.to_nat c) new in
  loaded t' /\ forall q x, Forall is_byte q -> has t' q x <-> q <> c :: p /\ has t q x.
Proof.
  intros Hl Hb Hold Hnew Hiff t'. inversion Hl as [? Hlen Hslots]; subst.
  assert (Hlt : (Z.to_nat c < 257)%nat) by apply (slot_of_lt (c :: p) Hb).
  assert (Hsl : forall j, slot t' j = if decide (Z.to_nat c = j) then new else slot t j)
    by (intros j; subst t'; by rewrite slot_set).
  split.
  - constructor; [subst t'; unfold set_slot; cbn [entries]; by rewrite length_insert|].
    intros i e. rewrite Hsl. case_decide; [subst i; apply Hnew|apply Hslots].
  - intros q x Hq. rewrite !has_unfold, Hsl. case_decide as Hs.
    + rewrite Hiff by done. rewrite <- Hs, Hold. split; intros [? Hh]; (split; [done|]); [eauto|].
      by destruct Hh as (e & [= <-] & ?).
    + split; [|by intros [_ ?]]. intros Hh. split; [|done]. by intros ->.
Qed.

(** A node loses its entry for [r]: it stays, goes, or is replaced by its only entry. *)
Lemma collapse_ok t c p pe h st sub sub' r :
  loaded t -> Forall is_byte (c :: p) -> slot t (Z.to_nat c) = Some (mkEntry pe h manifestType st (Some sub)) ->
  pe <> [] -> Forall is_byte pe -> c :: p = pe ++ r -> (forall q, slot_of (pe ++ q) = Z.to_nat c) ->
  loaded sub' -> (forall q x, Forall is_byte q -> has sub' q x <-> q <> r /\ has sub q x) ->
  exists t', (let '(cnt, lastentry) := getCountLast sub' in
    if Nat.ltb cnt 2 then
      Ok (set_slot (clear_hash t) (Z.to_nat c) ((fun l => with_Path (pe ++ Path l) l) <$> lastentry))
    else Ok (set_slot (clear_hash t) (Z.to_nat c) (Some (mkEntry pe [] manifestType st (Some sub')))))
    = @Ok merr _ t' /\ loaded t' /\
    forall q x, Forall is_byte q -> has t' q x <-> q <> c :: p /\ has t q x.
Proof.
  intros Hl Hb He Hne Hbe Hr Hspe Hl' Hh'. assert (Hs : slot_of pe = Z.to_nat c) by (by rewrite <- (Hspe []), app_nil_r).
  destruct (getCountLast sub') as [cnt last] eqn:Hcl.
  pose proof (count_last_spec (entries sub')) as Hspec. cbn zeta in Hspec.
  unfold getCountLast in Hcl. rewrite Hcl in Hspec. cbn [fst snd] in Hspec. destruct Hspec as [Hz Hone].
  inversion Hl' as [? Hlen' Hslots']; subst.
  assert (Hold : forall q x, Forall is_byte q ->
    (exists q', q = pe ++ q' /\ has sub' q' x) <-> q <> c :: p /\ ehas (mkEntry pe h manifestType st (Some sub)) q x).
  { intros q x Hq. rewrite ehas_node, Hr. split.
    - intros (q' & -> & Hh). apply Forall_app in Hq as [_ Hq']. apply Hh' in Hh as [Hne' Hh]; [|done].
      split; [intros E; by apply app_inv_head in E|eauto].
    - intros [Hne' (q' & -> & Hh)]. apply Forall_app in Hq as [_ Hq']. exists q'. split; [done|].
      apply Hh'; [done|]. split; [by intros ->|done]. }
  destruct (Nat.ltb_spec cnt 2) as [Hc|Hc].
  2:{ eexists. split; [done|]. apply (delete_result t c p _ _ Hl Hb He).
      - intros e' [= <-]. cbn [Path subtrie]. split_and!; [done|done|]. intros _. eauto.
      - intros q x Hq Hsq. rewrite <- Hold by done. split.
        + intros (e' & [= <-] & Hh). by apply ehas_node in Hh.
        + intros Hh. eexists. split; [done|]. by apply ehas_node. }
  destruct cnt as [|[|cnt]]; [| |lia].
  - destruct (Hz eq_refl) as [-> Hno]. cbn [fmap option_fmap option_map]. eexists. split; [done|].
    apply (delete_result t c p _ _ Hl Hb He); [done|]. intros q x Hq Hsq. rewrite <- Hold by done. split.
    + by intros (? & ? & _).
    + intros (q' & -> & Hh). apply has_unfold in Hh as (e' & He' & _). exfalso. unfold slot in He'.
      destruct (entries sub' !! slot_of q') as [[e''|]|] eqn:E; cbn in He'; try done. by eapply Hno.
  - destruct (Hone eq_refl) as (i & l & -> & Hi & Huniq). cbn [fmap option_fmap option_map]. eexists. split; [done|].
    assert (Hli : slot sub' i = Some l) by (unfold slot; by rewrite Hi).
    destruct (Hslots' _ _ Hli) as (Hsl & Hbl & Hml).
    apply (delete_result t c p _ _ Hl Hb He).
    + intros e' [= <-]. destruct l as [pl hl ctl stl sl]. cbn [with_Path Path subtrie] in *.
      split_and!; [apply Hspe|by apply Forall_app|]. intros Hml'. destruct (Hml Hml') as [_ Hx].
      split; [|done]. by destruct pe.
    + intros q x Hq Hsq. rewrite <- Hold by done.
      assert (Hlift : forall q', ehas (with_Path (pe ++ Path l) l) (pe ++ q') x <-> ehas l q' x).
      { intros q'. rewrite <- (ehas_with_Path (with_Path (pe ++ Path l) l) pe (Path l)) by (by destruct l).
        by destruct l. }
      split.
      * intros (e' & [= <-] & Hh). destruct (ehas_prefix _ _ _ Hh) as [r' Hr'].
        assert (Hq' : q = pe ++ (Path l ++ r')) by (rewrite Hr'; destruct l; cbn; by rewrite <- app_assoc).
        rewrite Hq' in Hh. apply Hlift in Hh. exists (Path l ++ r'). split; [done|]. apply has_unfold.
        exists l. split; [|done]. rewrite <- Hli. f_equal. destruct (Path l) as [|d pl] eqn:Epl; [|by rewrite <- Hsl].
        unfold ehas in Hh. rewrite Epl in Hh. destruct (is_manifest l) eqn:Eml; [by destruct (Hml eq_refl)|].
        destruct Hh as [-> _]. by rewrite <- Hsl.
      * intros (q' & -> & Hh). apply has_unfold in Hh as (e' & He' & Hh). unfold slot in He'.
        destruct (entries sub' !! slot_of q') as [[e''|]|] eqn:E; cbn in He'; try done. injection He' as ->.
        pose proof (Huniq _ _ E) as Hi'. rewrite Hi', Hi in E. injection E as ->.
        eexists. split; [done|]. by apply Hlift.
Qed.

Lemma deleteEntry_ok fuel t p :
  (length p < fuel)%nat -> loaded t -> Forall is_byte p -> ~ inner t p ->
  exists t', deleteEntry load fuel t p = Ok t' /\ loaded t' /\
    forall q x, Forall is_byte q -> has t' q x <-> q <> p /\ has t q x.
Proof.
  revert t p. induction fuel as [|f IH]; intros t p Hf Hl Hb Hin; [lia|].
  inversion Hl as [? Hlen Hslots]; subst. cbn [deleteEntry]. destruct p as [|c p].
  { eexists. split; [done|]. split.
    - constructor; [unfold set_slot; cbn [entries]; by rewrite length_insert|].
      intros i e. rewrite slot_set by (done || lia). case_decide; [done|apply Hslots].
    - intros q x Hq. rewrite !has_unfold, slot_set by (done || lia). case_decide as Hs.
      + split; [by intros (? & ? & _)|]. intros [Hne _]. by destruct Hne; apply slot_of_nil.
      + split; [|by intros [_ ?]]. intros Hh. split; [|done]. by intros ->. }
  change (slot (clear_hash t)) with (slot t). destruct (slot t (Z.to_nat c)) as [e|] eqn:He.
  2:{ eexists. split; [done|]. split; [by apply clear_hash_loaded|]. intros q x Hq. rewrite clear_hash_has.
      split; [|by intros [_ ?]]. intros Hh. split; [|done]. intros ->. apply has_unfold in Hh as (? & Hs & _).
      cbn in Hs. congruence. }
  destruct (Hslots _ _ He) as (Hs & Hbe & Hme).
  assert (Hkeep : (forall x, ~ ehas e (c :: p) x) -> exists t', Ok (clear_hash t) = @Ok merr _ t' /\ loaded t' /\
    forall q x, Forall is_byte q -> has t' q x <-> q <> c :: p /\ has t q x).
  { intros Hno. eexists. split; [done|]. split; [by apply clear_hash_loaded|]. intros q x Hq. rewrite clear_hash_has.
    split; [|by intros [_ ?]]. intros Hh. split; [|done]. intros ->. apply has_unfold in Hh as (e' & Hs' & Heh).
    cbn in Hs'. rewrite He in Hs'. injection Hs' as <-. by eapply Hno. }
  destruct (decide (Path e = c :: p)) as [Hpe|Hpe].
  { rewrite bool_decide_eq_true_2 by done. eexists. split; [done|].
    assert (Hm : is_manifest e = false).
    { destruct (is_manifest e) eqn:Hm; [|done]. destruct Hin. rewrite <- Hpe. constructor; [by rewrite Hpe|done]. }
    apply (delete_result t c p e None); try done. intros q x Hq Hsq. rewrite ehas_leaf, Hpe by done. split.
    - by intros (? & ? & _).
    - by intros [? [? _]]. }
  rewrite bool_decide_eq_false_2 by done. destruct (is_manifest e) eqn:Hm; cbn [andb].
  2:{ apply Hkeep. intros x Hh. apply ehas_leaf in Hh as [? _]; [|done]. congruence. }
  destruct (is_prefix (Path e) (c :: p)) eqn:Hpre.
  2:{ apply Hkeep. intros x Hh. apply ehas_prefix, is_prefix_spec in Hh. congruence. }
  apply is_prefix_spec in Hpre as [r Hr]. destruct (Hme eq_refl) as (Hne & sub & Hsub & Hlsub).
  rewrite (loadSubTrie_loaded load e sub) by done. cbn [rbind].
  destruct e as [pe h ct st sb]. cbn in Hsub, Hne, Hr, Hbe, Hs, Hpe. subst sb. cbn [Path].
  replace (drop (length pe) (c :: p)) with r by (rewrite Hr; by rewrite drop_app_length).
  assert (Hct : ct = manifestType) by (by apply bool_decide_eq_true in Hm). subst ct.
  assert (Hbr : Forall is_byte r) by (rewrite Hr in Hb; by apply Forall_app in Hb as [_ ?]).
  assert (Hspe : forall q, slot_of (pe ++ q) = Z.to_nat c) by (intros; rewrite <- Hs; by destruct pe).
  destruct (IH sub r) as (sub' & -> & Hl' & Hh'); try done.
  { assert (Hlc : length (c :: p) = length (pe ++ r)) by (by rewrite Hr). rewrite length_app in Hlc.
    destruct pe; [done|]. cbn in *. lia. }
  { intros Hi. apply Hin. rewrite Hr. eapply (inner_below t (mkEntry pe h manifestType st (Some sub))); cbn [Path]; try done.
    by rewrite Hspe. }
  cbn [rbind]. by apply (collapse_ok t c p pe h st sub sub' r).
Qed.
End Delete.

(** ** Regular paths *)

(** The components of a path between slashes, the empty ones included. *)
Fixpoint components (p : bytes) : list bytes :=
  match p with
  | [] => [[]]
  | c :: p =>
    if c =? slash then [] :: components p
    else match components p with h :: t => (c :: h) :: t | [] => [[c]] end
  end.

Fixpoint join (cs : list bytes) : bytes :=
  match cs with
  | [] => []
  | [c] => c
  | c :: cs => c ++ slash :: join cs
  end.

Definition proper_components (p : bytes) : list bytes := filter (fun c => c <> []) (components p).

(** The last step of [RegularSlashes]. *)
Definition strip (res : bytes) : bytes :=
  match last res with
  | Some c => if c =? slash then removelast res else res
  | None => res
  end.

Lemma components_cons p : exists h t, components p = h :: t.
Proof. destruct p as [|c p]; cbn; [eauto|]. destruct (c =? slash); [eauto|]. destruct (components p); eauto. Qed.

Lemma strip_snoc x c : strip (x ++ [c]) = if c =? slash then x else x ++ [c].
Proof. unfold strip. rewrite last_snoc. destruct (c =? slash); [apply removelast_last|done]. Qed.

Lemma strip_cons x y : y <> [] -> strip (x ++ y) = x ++ strip y.
Proof.
  intros Hy. destruct (exists_last Hy) as (y' & c & ->). rewrite app_assoc, !strip_snoc.
  destruct (c =? slash); [done|]. by rewrite app_assoc.
Qed.

(** After a byte that is not a slash, and at the start or after a slash. *)
Lemma slashes_loop_spec p :
  (forall prev, (prev = None \/ prev = Some slash) ->
     strip (slashes_loop prev p) = join (proper_components p) /\
     (slashes_loop prev p = [] <-> proper_components p = [])) /\
  (forall d x h t, d <> slash -> components p = h :: t ->
     strip (x ++ d :: slashes_loop (Some d) p) = join ((x ++ d :: h) :: filter (fun c => c <> []) t)).
Proof.
  induction p as [|c p [IHA IHB]].
  { split; [by intros prev _|]. intros d x h t Hd [= <- <-]. cbn. rewrite strip_snoc. by destruct (Z.eqb_spec d slash). }
  assert (Hstart : forall prev, prev = None \/ prev = Some slash ->
    slashes_loop prev (c :: p) = if c =? slash then slashes_loop (Some slash) p else c :: slashes_loop (Some c) p).
  { intros prev Hprev. cbn. destruct (Z.eqb_spec c slash) as [-> |Hc]; cbn [negb orb]; [|done].
    by destruct Hprev as [-> | ->]. }
  destruct (components_cons p) as (h & t & Hcomp). split.
  - intros prev Hprev. rewrite Hstart by done. unfold proper_components. cbn [components].
    destruct (Z.eqb_spec c slash) as [-> |Hc].
    + rewrite filter_cons_False by (by intros []). apply IHA. by right.
    + rewrite Hcomp. rewrite filter_cons_True by done.
      pose proof (IHB c [] h t Hc Hcomp) as HB. cbn [app] in HB. split; [exact HB|done].
  - intros d x h' t' Hd Hcomp'. cbn [components] in Hcomp'. cbn [slashes_loop].
    destruct (Z.eqb_spec d slash) as [|_]; [done|]. cbn [negb]. rewrite orb_true_r.
    destruct (Z.eqb_spec c slash) as [-> |Hc].
    + injection Hcomp' as <- <-. destruct (IHA (Some slash)) as [HA Hnil]; [by right|].
      change (filter _ (components p)) with (proper_components p).
      destruct (slashes_loop (Some slash) p) as [|y ys] eqn:E.
      * rewrite (proj1 Hnil eq_refl). cbn. change (d :: [slash]) with ([d] ++ [slash]).
        rewrite app_assoc, strip_snoc, Z.eqb_refl. done.
      * change (x ++ d :: slash :: y :: ys) with (x ++ [d; slash] ++ (y :: ys)). rewrite app_assoc, strip_cons, HA by done.
        destruct (proper_components p) as [|c1 cs]; [by pose proof (proj2 Hnil eq_refl)|].
        change (join ((x ++ [d]) :: c1 :: cs)) with ((x ++ [d]) ++ slash :: join (c1 :: cs)). by rewrite <- !app_assoc.
    + rewrite Hcomp in Hcomp'. injection Hcomp' as <- <-.
      specialize (IHB c (x ++ [d]) h t Hc Hcomp). rewrite <- !app_assoc in IHB. exact IHB.
Qed.

(** [RegularSlashes] is the path of the non-empty components joined by
    single slashes: no slash at the ends, no two in a row, all else kept. *)
Theorem RegularSlashes_components p : RegularSlashes p = join (proper_components p).
Proof. apply (slashes_loop_spec p). by left. Qed.

(** ** Theorems *)

(** C7: [addEntry] on a trie whose nodes are loaded ends and behaves as an
    insertion into the map of paths: the new path has the new content, every
    other path what it had, unless the path is the start of a node. *)
Theorem addEntry_spec load t e :
  loaded t -> Forall is_byte (Path e) -> is_manifest e = false -> ~ inner t (Path e) ->
  exists t', addEntry' load t e = Ok t' /\ loaded t' /\
    forall q x, Forall is_byte q ->
      has t' q x <-> (q = Path e /\ x = content e) \/ (q <> Path e /\ has t q x).
Proof. intros. apply addEntry_ok; try done. lia. Qed.

(** C13: [deleteEntry] on a trie whose nodes are loaded ends and removes its path
    from the map and nothing else, whether it keeps, drops or merges the node
    it leaves, unless the path is the start of a node. *)
Theorem deleteEntry_spec load t p :
  loaded t -> Forall is_byte p -> ~ inner t p ->
  exists t', deleteEntry load (S (length p)) t p = Ok t' /\ loaded t' /\
    forall q x, Forall is_byte q -> has t' q x <-> q <> p /\ has t q x.
Proof. intros. apply deleteEntry_ok; try done. lia. Qed.

(** [findPrefixOf] on a trie whose nodes are loaded ends and changes
    nothing; an entry it returns is the content of the part of the path it
    says it matched, and a path that has content is matched in full. *)
Theorem findPrefixOf_spec load t path :
  loaded t -> Forall is_byte path ->
  exists found pos, findPrefixOf load (S (length path)) t path = Ok (t, found, pos) /\ 0 <= pos <= #path /\
    (forall e, found = Some e -> has t (take (Z.to_nat pos) path) (content e)) /\
    (forall x, has t path x -> exists e, found = Some e /\ content e = x /\ pos = #path).
Proof. intros. apply findPrefixOf_ok; try done. lia. Qed.

(** Adding an entry whose path is the start of a node replaces the node: all
    the contents below it are lost. *)
Theorem addEntry_replaces_node load t e node :
  loaded t -> Forall is_byte (Path e) -> is_manifest e = false ->
  slot t (slot_of (Path e)) = Some node -> is_manifest node = true -> Path node = Path e ->
  exists t', addEntry' load t e = Ok t' /\
    forall q x, Forall is_byte q -> q <> [] -> ~ has t' (Path e ++ q) x.
Proof.
  intros Hl Hb Hm Hs Hmn Hp. inversion Hl as [? Hlen Hslots]; subst.
  destruct (Hslots _ _ Hs) as (_ & _ & Hne). destruct (Hne Hmn) as [Hne' _]. rewrite Hp in Hne'.
  unfold addEntry'. rewrite (addEntry_same _ _ _ _ node) by done. eexists. split; [done|].
  intros q x Hq Hqn. rewrite set_slot_has by (done || by apply slot_of_lt).
  rewrite decide_True by (by destruct (Path e)). rewrite ehas_leaf by done. intros [E _].
  rewrite <- (app_nil_r (Path e)) in E at 2. by apply app_inv_head in E.
Qed.

(** An entry without hash and node makes [recalcAndStore] fail. *)
Lemma recalc_dangling Store Marshal es i p ct st :
  es !! i = Some (Some (mkEntry p [] ct st None)) ->
  forall t', recalcAndStore Store Marshal (mkTrie es None) <> Ok t'.
Proof.
  intros Hi t'. cbn [recalcAndStore]. intros E. apply rbind_Ok in E as (es' & E & _). revert i es' Hi E.
  induction es as [|o es IH]; intros i es' Hi E; [done|]. destruct i as [|i]; cbn in Hi.
  - injection Hi as ->. done.
  - destruct o as [[p' h' ct' st' sub']|].
    + destruct (bool_decide (h' = [])).
      * destruct sub' as [s|]; [|done]. apply rbind_Ok in E as (s' & _ & E). apply rbind_Ok in E as (es2 & E & _).
        by eapply IH.
      * apply rbind_Ok in E as (es2 & E & _). by eapply IH.
    + apply rbind_Ok in E as (es2 & E & _). by eapply IH.
Qed.

(** When the node below an entry cannot be loaded, [addEntry] returns as if
    nothing had happened but has erased the hash of that entry: storing the
    trie afterwards never succeeds, it dereferences the missing node. *)
Theorem addEntry_failed_load load Store Marshal t e node r err :
  length (entries t) = 257%nat -> Forall is_byte (Path e) ->
  slot t (slot_of (Path e)) = Some node -> is_manifest node = true -> subtrie node = None ->
  Path e = Path node ++ r -> Path node <> [] -> r <> [] ->
  load (Hex2Bytes (Hash node)) = Err err ->
  exists t', addEntry' load t e = Ok t' /\ forall t'', recalcAndStore Store Marshal t' <> Ok t''.
Proof.
  intros Hlen Hb Hs Hm Hsub He Hx Hr Hload.
  exists (set_slot (clear_hash t) (slot_of (Path e)) (Some (mkEntry (Path node) [] (ContentType node) (Status node) None))).
  split.
  - unfold addEntry'. cbn [addEntry]. rewrite He. destruct (Path node) as [|c x] eqn:Hx'; [done|]. cbn [app].
    rewrite He in Hs. cbn in Hs. change (slot (clear_hash t)) with (slot t). rewrite Hs, Hx'.
    rewrite bool_decide_eq_false_2.
    2:{ intros E. apply Hr. change (c :: x ++ r) with ((c :: x) ++ r) in E.
        rewrite <- (app_nil_r (c :: x)) in E at 1. by apply app_inv_head in E. }
    change (c :: x ++ r) with ((c :: x) ++ r). rewrite cpl_prefix, Hm, Nat.eqb_refl. cbn [andb].
    unfold loadSubTrie. rewrite Hsub, Hload. cbn [rbind]. by rewrite Hx'.
  - apply (recalc_dangling Store Marshal _ (slot_of (Path e)) (Path node) (ContentType node) (Status node)).
    apply list_lookup_insert_eq. cbn [entries clear_hash]. rewrite Hlen. by apply slot_of_lt.
Qed.

(** ** Witnesses *)
Definition no_load (_ : Key) : result merr manifestTrie := Err NotFound.
Definition leaf (p : bytes) : manifestTrieEntry := mkEntry p (str "00") (str "text/plain") 0 None.

Definition trie_of (ps : list bytes) : manifestTrie :=
  match add_all no_load emptyTrie (map leaf ps) with Ok t => t | _ => emptyTrie end.

Lemma inner_empty p : ~ inner emptyTrie p.
Proof. intros Hi. inversion Hi as [t e Hs|t e sub q Hs]; subst; by rewrite emptyTrie_slot in Hs. Qed.

Lemma leaf_loaded : loaded (trie_of [str "ab"]).
Proof.
  destruct (addEntry_ok no_load 3 emptyTrie (leaf (str "ab"))) as (t' & E & Hl & _);
    [cbn; lia|apply emptyTrie_loaded| |done|apply inner_empty|].
  { repeat constructor; unfold is_byte; lia. }
  change (trie_of [str "ab"]) with (match addEntry no_load 3 emptyTrie (leaf (str "ab")) with Ok t => t | _ => emptyTrie end).
  by rewrite E.
Qed.

Lemma leaf_not_inner p : ~ inner (trie_of [str "ab"]) p.
Proof.
  assert (Hslot : forall i e, slot (trie_of [str "ab"]) i = Some e -> e = leaf (str "ab")).
  { intros i e. destruct (decide (i = 97%nat)) as [-> |Hne]; [by intros [= <-]|].
    change (trie_of [str "ab"]) with (set_slot emptyTrie 97 (Some (leaf (str "ab")))).
    rewrite slot_set by (done || lia). rewrite decide_False by done. by rewrite emptyTrie_slot. }
  intros Hi. inversion Hi as [t e Hs Hm|t e sub q Hs Hm]; subst; apply Hslot in Hs; by subst.
Qed.

Lemma addEntry_spec_witness :
  exists t', addEntry' no_load (trie_of [str "ab"]) (leaf (str "ac")) = Ok t' /\ loaded t' /\
    forall q x, Forall is_byte q ->
      has t' q x <-> (q = str "ac" /\ x = content (leaf (str "ac"))) \/ (q <> str "ac" /\ has (trie_of [str "ab"]) q x).
Proof.
  apply (addEntry_spec no_load (trie_of [str "ab"]) (leaf (str "ac")));
    [apply leaf_loaded|repeat constructor; unfold is_byte; lia|done|apply leaf_not_inner].
Defined.

Lemma deleteEntry_spec_witness :
  exists t', deleteEntry no_load 3 (trie_of [str "ab"]) (str "ab") = Ok t' /\ loaded t' /\
    forall q x, Forall is_byte q -> has t' q x <-> q <> str "ab" /\ has (trie_of [str "ab"]) q x.
Proof.
  apply (deleteEntry_spec no_load (trie_of [str "ab"]) (str "ab"));
    [apply leaf_loaded|repeat constructor; unfold is_byte; lia|apply leaf_not_inner].
Defined.

Lemma findPrefixOf_spec_witness :
  exists found pos, findPrefixOf no_load 5 (trie_of [str "ab"]) (str "ab/c") = Ok (trie_of [str "ab"], found, pos) /\
    0 <= pos <= #(str "ab/c") /\
    (forall e, found = Some e -> has (trie_of [str "ab"]) (take (Z.to_nat pos) (str "ab/c")) (content e)) /\
    (forall x, has (trie_of [str "ab"]) (str "ab/c") x ->
       exists e, found = Some e /\ content e = x /\ pos = #(str "ab/c")).
Proof.
  apply (findPrefixOf_spec no_load (trie_of [str "ab"]) (str "ab/c"));
    [apply leaf_loaded|repeat constructor; unfold is_byte; lia].
Defined.

(** Two files below [a]; a node of their common prefix. *)
Definition two_files : manifestTrie := trie_of [str "ab"; str "ac"].

Lemma two_files_loaded : loaded two_files.
Proof.
  destruct (addEntry_ok no_load 3 (trie_of [str "ab"]) (leaf (str "ac"))) as (t' & E & Hl & _);
    [cbn; lia|apply leaf_loaded|repeat constructor; unfold is_byte; lia|done|apply leaf_not_inner|].
  change two_files with (match addEntry no_load 3 (trie_of [str "ab"]) (leaf (str "ac")) with Ok t => t | _ => emptyTrie end).
  by rewrite E.
Qed.

Lemma addEntry_replaces_node_witness :
  exists t', addEntry' no_load two_files (leaf (str "a")) = Ok t' /\
    forall q x, Forall is_byte q -> q <> [] -> ~ has t' (str "a" ++ q) x.
Proof.
  apply (addEntry_replaces_node no_load two_files (leaf (str "a")) (default (leaf []) (slot two_files 97)));
    [apply two_files_loaded|repeat constructor; unfold is_byte; lia|done|done|done|done].
Defined.

(** The files are there before and gone after. *)
Example two_files_lost :
  (exists t, findPrefixOf no_load 9 two_files (str "ab") = Ok (t, Some (leaf (str "b")), 2)) /\
  (let! t := addEntry' no_load two_files (leaf (str "a")) in
   let! '(_, e, pos) := findPrefixOf no_load 9 t (str "ab") in Ok (e, pos)) = Ok (Some (leaf (str "a")), 1).
Proof. split; [eexists|]; vm_compute; reflexivity. Qed.

Lemma addEntry_failed_load_witness :
  exists t', addEntry' no_load (set_slot emptyTrie 97 (Some (mkEntry (str "a") (str "00ff") manifestType 0 None)))
               (leaf (str "ab")) = Ok t' /\
    forall t'', recalcAndStore (fun _ => Ok []) (fun _ => Some []) t' <> Ok t''.
Proof.
  apply (addEntry_failed_load no_load (fun _ => Ok []) (fun _ => Some [])
           (set_slot emptyTrie 97 (Some (mkEntry (str "a") (str "00ff") manifestType 0 None)))
           (leaf (str "ab")) (mkEntry (str "a") (str "00ff") manifestType 0 None) (str "b") NotFound);
    try done. repeat constructor; unfold is_byte; lia.
Defined.
