(* ===== verification/ManifestStore.v ===== *)
(** Stored manifests ([livepeer/api/manifest.go]): a trie read back from the document store has its nodes loaded
    on demand. The relation [lazy t T] says that [t], whose nodes may be loaded or not and whose hashes may be
    recalculated or not, stands for the trie [T] that is loaded in full; the operations on [t] follow those
    on [T], and [recalcAndStore] leaves a document from which [T] is loaded again.

    The text of a manifest is that of encoding/json, which gives entries back whose strings are text: the law
    is stated for ASCII. *)
From stdpp Require Import base gmap list strings.
From Stdlib Require Import ZArith Lia.
From S2P Require Import Prelude Types Manifest ManifestProps.

Definition text (s : bytes) : Prop := Forall (fun c => 0 <= c < 128) s.

Lemma text_byte s : text s -> Forall is_byte s.
Proof. intros Hs. eapply Forall_impl; [exact Hs|]. unfold is_byte. cbn. lia. Qed.

Lemma text_take n s : text s -> text (take n s).
Proof. apply Forall_take. Qed.

Lemma text_drop n s : text s -> text (drop n s).
Proof. apply Forall_drop. Qed.

Lemma text_app a b : text (a ++ b) <-> text a /\ text b.
Proof. apply Forall_app. Qed.

Create HintDb manifests.
#[export] Hint Resolve text_take text_drop text_byte : manifests.

(** What the text of a manifest keeps of an entry. *)
Definition flat (e : manifestTrieEntry) : manifestTrieEntry := mkEntry (Path e) (Hash e) (ContentType e) (Status e) None.

Definition plain (e : manifestTrieEntry) : Prop := text (Path e) /\ text (Hash e) /\ text (ContentType e).

Class ManifestJson (Unmarshal : bytes -> option (list manifestTrieEntry)) (Marshal : list manifestTrieEntry -> option bytes) : Prop :=
  mj_roundtrip : forall es, Forall plain es -> exists m, Marshal es = Some m /\ Unmarshal m = Some (flat <$> es).

Definition key_ok (k : Key) : Prop := length k = 32%nat /\ Forall is_byte k.

Section Lazy.
Context (load : Key -> result merr manifestTrie).

(** An entry [e] for the entry [E] of the loaded trie: the hash of a node is empty or that of the node. *)
Definition entry_rel (R : manifestTrie -> manifestTrie -> Prop) (e E : manifestTrieEntry) : Prop :=
  (Path e = Path E /\ ContentType e = ContentType E /\ Status e = Status E /\ plain e) /\
  (is_manifest E = false -> Hash e = Hash E /\ Hash e <> []) /\
  (is_manifest E = true -> exists S, subtrie E = Some S /\
     (forall s, subtrie e = Some s -> R s S) /\ (subtrie e = None -> Hash e <> []) /\
     (Hash e <> [] -> exists s, load (Hex2Bytes (Hash e)) = Ok s /\ R s S)).

#[warnings="-register-all"] Inductive lazy : manifestTrie -> manifestTrie -> Prop :=
| lazy_intro t T :
    length (entries t) = 257%nat -> length (entries T) = 257%nat ->
    (forall i, option_Forall2 (entry_rel lazy) (slot t i) (slot T i)) ->
    (forall k, hash t = Some k -> key_ok k /\ exists s, load k = Ok s /\ lazy s T) -> lazy t T.

Abbreviation lze := (entry_rel lazy).

Lemma lazy_slot t T i : lazy t T -> option_Forall2 lze (slot t i) (slot T i).
Proof using Type. by destruct 1. Qed.

Lemma lazy_lengths t T : lazy t T -> length (entries t) = 257%nat /\ length (entries T) = 257%nat.
Proof using Type. by destruct 1. Qed.

Lemma lazy_clear t T : lazy t T -> lazy (clear_hash t) (clear_hash T).
Proof using Type. destruct 1. by constructor. Qed.

Lemma lazy_clear_r t T : lazy t (clear_hash T) <-> lazy t T.
Proof using Type.
  split.
  - revert T. enough (H : forall t T0, lazy t T0 -> forall T, T0 = clear_hash T -> lazy t T) by eauto.
    fix IH 3. intros t' T0 [t0 T1 Hl HL Hs Hh] T ->. constructor; [done|done|exact Hs|]. intros k Hk.
    destruct (Hh k Hk) as (? & s & Hs1 & Hs2). split; [done|]. exists s. split; [done|]. by eapply IH.
  - revert t T. fix IH 3. intros t' T0 [t0 T1 Hl HL Hs Hh]. constructor; [done|done|exact Hs|]. intros k Hk.
    destruct (Hh k Hk) as (? & s & Hs1 & Hs2). split; [done|]. exists s. split; [done|]. by apply IH.
Qed.

Lemma lazy_empty : lazy emptyTrie emptyTrie.
Proof using Type. constructor; [done|done| |done]. intros i. rewrite emptyTrie_slot. constructor. Qed.

(** A slot is replaced in both; the hash of the trie is cleared. *)
Lemma lazy_set t T i o O :
  lazy t T -> (i < 257)%nat -> option_Forall2 lze o O -> lazy (set_slot (clear_hash t) i o) (set_slot (clear_hash T) i O).
Proof using Type.
  intros [t0 T0 Hl HL Hs _] Hi Ho. constructor; [by rewrite <- Hl; apply length_insert|by rewrite <- HL; apply length_insert| |done].
  intros j. rewrite !slot_set by done. case_decide; [done|]. apply Hs.
Qed.

Lemma lze_path e E : lze e E -> Path e = Path E.
Proof using Type. by intros [(? & _) _]. Qed.

Lemma lze_manifest e E : lze e E -> is_manifest e = is_manifest E.
Proof using Type. intros [(_ & Hc & _) _]. unfold is_manifest. by rewrite Hc. Qed.

Lemma lze_content e E : lze e E -> is_manifest E = false -> content e = content E.
Proof using Type. intros [(_ & Hc & Hst & _) [Hh _]] Hm. destruct (Hh Hm) as [Hh' _]. unfold content. by rewrite Hc, Hst, Hh'. Qed.

Lemma lze_with_Path r e E : text r -> lze e E -> lze (with_Path r e) (with_Path r E).
Proof using Type.
  destruct e as [p h ct st s], E as [P H CT ST S]. intros Hr [(Hp & Hc & Hst & Hpl) [Hl Hn]]. cbn in *.
  split; [|split]; [|exact Hl|exact Hn]. split_and!; try done. destruct Hpl as (_ & ? & ?). by split_and!.
Qed.

(** A node whose subtrie was just changed or loaded. *)
Lemma lze_node p ct st s S H :
  text p -> text ct -> ct = manifestType -> lazy s S -> lze (mkEntry p [] ct st (Some s)) (mkEntry p H ct st (Some S)).
Proof using Type.
  intros Hp Hct Hm Hs. split; [|split]; cbn.
  - split_and!; try done. split_and!; try done. constructor.
  - intros Hf. apply bool_decide_eq_false in Hf. done.
  - intros _. exists S. split_and!; try done. by intros s' [= <-].
Qed.

(** Loading a node on demand. *)
Lemma loadSubTrie_lazy e E :
  lze e E -> is_manifest E = true -> exists h s S,
    loadSubTrie load e = Ok (mkEntry (Path e) h (ContentType e) (Status e) (Some s), None) /\
    lze (mkEntry (Path e) h (ContentType e) (Status e) (Some s)) E /\ subtrie E = Some S /\ lazy s S /\ loadSubTrie load E = Ok (E, None).
Proof using Type.
  intros He Hm. pose proof He as [(Hp & Hc & Hst & Hpl) [_ Hn]]. destruct (Hn Hm) as (S & HS & Hs & Hnone & Hh).
  unfold loadSubTrie. rewrite HS. destruct (subtrie e) as [s|] eqn:Es.
  - exists (Hash e), s, S. destruct e as [p h ct st sb]. cbn in *. subst sb. split_and!; try done. by apply Hs.
  - destruct (Hh (Hnone eq_refl)) as (s & Hload & Hlz). rewrite Hload. exists [], s, S. split_and!; try done.
    destruct E as [P H CT ST SB]. cbn in *. subst SB. rewrite Hp, Hc, Hst. destruct Hpl as (Htp & _ & Htc). rewrite Hp in Htp. rewrite Hc in Htc.
    apply lze_node; try done. by apply bool_decide_eq_true in Hm.
Qed.

(** ** The operations *)

Definition rrel {A B} (R : A -> B -> Prop) (r : result merr A) (r' : result merr B) : Prop :=
  match r, r' with
  | Ok a, Ok b => R a b
  | Err x, Err y => x = y
  | Panic, Panic => True
  | _, _ => False
  end.

Lemma rrel_bind {A B C D} (R : A -> B -> Prop) (Q : C -> D -> Prop) r r' f g :
  rrel R r r' -> (forall a b, R a b -> rrel Q (f a) (g b)) -> rrel Q (rbind r f) (rbind r' g).
Proof using Type. destruct r, r'; cbn; try done. eauto. Qed.

Lemma manifestType_text : text manifestType.
Proof using Type. vm_compute. repeat constructor; done. Qed.

Lemma first_byte c p : text (c :: p) -> (Z.to_nat c < 257)%nat.
Proof using Type. inversion 1. lia. Qed.

Lemma lze_plain e E : lze e E -> text (Path E) /\ text (ContentType E).
Proof using Type. intros [(<- & <- & _ & ? & _ & ?) _]. done. Qed.

Lemma addEntry_lazy fuel t T e E :
  lazy t T -> lze e E -> rrel lazy (addEntry load fuel t e) (addEntry load fuel T E).
Proof using Type.
  revert t T e E. induction fuel as [|f IH]; intros t T e E Ht He; [done|]. cbn [addEntry].
  pose proof (lze_path _ _ He) as Hp. rewrite Hp. pose proof (lze_plain _ _ He) as [Htp _].
  assert (Hset : forall i o O, (i < 257)%nat -> option_Forall2 lze o O ->
    rrel lazy (Ok (set_slot (clear_hash t) i o)) (Ok (set_slot (clear_hash T) i O))) by (intros; by apply lazy_set).
  destruct (Path E) as [|c p] eqn:EP; [apply Hset; [lia|by constructor]|].
  pose proof (first_byte _ _ Htp) as Hc. change (slot (clear_hash t)) with (slot t). change (slot (clear_hash T)) with (slot T).
  destruct (lazy_slot _ _ (Z.to_nat c) Ht) as [old Old Ho|]; [|by apply Hset; [|constructor]].
  pose proof (lze_path _ _ Ho) as Hpo. rewrite Hpo. pose proof (lze_plain _ _ Ho) as [Htpo Htco].
  case_bool_decide; [by apply Hset; [|constructor]|]. rewrite (lze_manifest _ _ Ho). set (cpl := cpl_loop (c :: p) (Path Old)).
  destruct (is_manifest Old && Nat.eqb cpl (length (Path Old))) eqn:Hm.
  - apply andb_true_iff in Hm as [Hm _]. destruct (loadSubTrie_lazy old Old Ho Hm) as (h & s & S & -> & Hl & HS & Hs & ->). cbn [rbind].
    destruct Old as [PO HO CO STO SO]. cbn in HS, Hpo, Htpo, Htco. subst SO. pose proof Ho as [(_ & Hco & Hsto & _) _]. cbn in Hco, Hsto.
    eapply rrel_bind; [apply IH; [exact Hs|by apply lze_with_Path; auto with manifests]|].
    intros sub Sub Hsub. apply Hset; [done|]. constructor. rewrite Hpo, Hco, Hsto. apply lze_node; try done. by apply bool_decide_eq_true in Hm.
  - eapply rrel_bind; [apply IH; [apply lazy_empty|by apply lze_with_Path; auto with manifests]|]. intros s1 S1 H1.
    eapply rrel_bind; [apply IH; [exact H1|by apply lze_with_Path; auto with manifests]|]. intros s2 S2 H2.
    apply Hset; [done|]. constructor. apply lze_node; try done; auto with manifests. apply manifestType_text.
Qed.

Lemma lazy_entries t T : lazy t T -> Forall2 (option_Forall2 lze) (entries t) (entries T).
Proof using Type.
  intros [t0 T0 Hl HL Hs _]. apply Forall2_same_length_lookup. split; [congruence|]. intros i o O Ho HO. specialize (Hs i).
  unfold slot in Hs. by rewrite Ho, HO in Hs.
Qed.

Lemma getCountLast_lazy t T :
  lazy t T -> fst (getCountLast t) = fst (getCountLast T) /\ option_Forall2 lze (snd (getCountLast t)) (snd (getCountLast T)).
Proof using Type.
  intros Ht%lazy_entries. unfold getCountLast.
  enough (H : forall acc Acc : nat * option manifestTrieEntry, fst acc = fst Acc -> option_Forall2 lze (snd acc) (snd Acc) ->
    let step := fun acc e => match e with Some _ => (S (fst acc), e) | None => acc end in
    fst (foldl step acc (entries t)) = fst (foldl step Acc (entries T)) /\ option_Forall2 lze (snd (foldl step acc (entries t))) (snd (foldl step Acc (entries T))))
    by (apply H; [done|constructor]).
  induction Ht as [|o O es Es Ho _ IH]; intros acc Acc H1 H2; cbn [foldl]; [done|].
  destruct Ho as [e E He|]; apply IH; cbn; try done; [by rewrite H1|by constructor].
Qed.

Lemma deleteEntry_lazy fuel t T path :
  text path -> lazy t T -> rrel lazy (deleteEntry load fuel t path) (deleteEntry load fuel T path).
Proof using Type.
  revert t T path. induction fuel as [|f IH]; intros t T path Htp Ht; [done|]. cbn [deleteEntry].
  assert (Hset : forall i o O, (i < 257)%nat -> option_Forall2 lze o O ->
    rrel lazy (Ok (set_slot (clear_hash t) i o)) (Ok (set_slot (clear_hash T) i O))) by (intros; by apply lazy_set).
  destruct path as [|c p]; [apply Hset; [lia|by constructor]|].
  pose proof (first_byte _ _ Htp) as Hc. change (slot (clear_hash t)) with (slot t). change (slot (clear_hash T)) with (slot T).
  destruct (lazy_slot _ _ (Z.to_nat c) Ht) as [old Old Ho|]; [|by apply lazy_clear].
  pose proof (lze_path _ _ Ho) as Hpo. rewrite Hpo. pose proof (lze_plain _ _ Ho) as [Htpo Htco].
  case_bool_decide; [by apply Hset; [|constructor]|]. rewrite (lze_manifest _ _ Ho).
  destruct (is_manifest Old && is_prefix (Path Old) (c :: p)) eqn:Hm; [|by apply lazy_clear].
  apply andb_true_iff in Hm as [Hm _]. destruct (loadSubTrie_lazy old Old Ho Hm) as (h & s & S & -> & Hl & HS & Hs & ->). cbn [rbind].
  destruct Old as [PO HO CO STO SO]. cbn in HS, Hpo, Htpo, Htco. subst SO. pose proof Ho as [(_ & Hco & Hsto & _) _]. cbn in Hco, Hsto.
  rewrite Hpo. eapply rrel_bind; [apply IH; [by auto with manifests|exact Hs]|]. intros sub Sub Hsub.
  destruct (getCountLast_lazy _ _ Hsub) as [H1 H2]. destruct (getCountLast sub) as [cnt last], (getCountLast Sub) as [Cnt Last]. cbn in H1, H2. subst Cnt.
  destruct (Nat.ltb cnt 2).
  - apply Hset; [done|]. destruct H2 as [l L Hll|]; [|constructor]. constructor. rewrite (lze_path _ _ Hll).
    apply lze_with_Path; [|done]. apply text_app. split; [done|]. by apply (lze_plain _ _ Hll).
  - apply Hset; [done|]. constructor. rewrite Hco, Hsto. apply lze_node; try done. by apply bool_decide_eq_true in Hm.
Qed.

(** An entry is loaded, the trie stays the same. *)
Lemma lazy_put t T i e E : lazy t T -> slot T i = Some E -> lze e E -> lazy (set_slot t i (Some e)) T.
Proof using Type.
  intros [t0 T0 Hl HL Hs Hh] HE He. constructor; [by rewrite <- Hl; apply length_insert|done| |done].
  assert (Hi : (i < 257)%nat).
  { unfold slot in HE. destruct (entries T0 !! i) eqn:E0; [|done]. apply lookup_lt_Some in E0. lia. }
  intros j. rewrite slot_set by done. case_decide; [|apply Hs]. subst j. rewrite HE. by constructor.
Qed.

Lemma findPrefixOf_lazy fuel t T path :
  (length path < fuel)%nat -> lazy t T -> loaded T -> Forall is_byte path ->
  exists t' found Found pos, findPrefixOf load fuel t path = Ok (t', found, pos) /\ findPrefixOf load fuel T path = Ok (T, Found, pos) /\
    lazy t' T /\ option_Forall2 lze found Found.
Proof using Type.
  revert t T path. induction fuel as [|f IH]; intros t T path Hf Ht HT Hb; [lia|]. cbn [findPrefixOf].
  destruct path as [|c p]; [eexists _, _, _, _; split_and!; [done|done|done|by apply lazy_slot]|].
  pose proof (lazy_slot _ _ (Z.to_nat c) Ht) as Hc. destruct (slot T (Z.to_nat c)) as [E|] eqn:HE; inversion Hc as [e E' He Hse|Hse];
    [subst E'|eexists _, _, _, _; split_and!; [done|done|done|by apply lazy_slot]].
  rewrite (lze_path _ _ He). destruct (is_prefix (Path E) (c :: p)) eqn:Hpre; [|eexists _, _, _, _; split_and!; [done|done|done|constructor]].
  rewrite (lze_manifest _ _ He). destruct (is_manifest E) eqn:Hm; [|eexists _, _, _, _; split_and!; [done|done|done|by constructor]].
  destruct (loadSubTrie_lazy e E He Hm) as (h & s & S & -> & Hl & HS & Hs & ->). cbn [rbind].
  inversion HT as [? _ Hslots]; subst. destruct (Hslots _ _ HE) as (_ & Hbe & Hme). destruct (Hme Hm) as (Hne & S' & HS' & HlS).
  assert (S' = S) as -> by congruence. apply is_prefix_spec in Hpre as [r Hr].
  destruct (IH s S (drop (length (Path E)) (c :: p))) as (s' & found & Found & pos & E1 & E2 & Hs' & Hfound); try done.
  { rewrite Hr, drop_app_length. rewrite Hr, length_app in Hf. destruct (Path E); [done|]. cbn in Hf. lia. }
  { by apply Forall_drop. }
  rewrite E1. destruct E as [PE HE' CE SE SB]. cbn in HS. subst SB. cbn [Path] in *. rewrite E2. cbn [rbind]. rewrite (set_slot_id T) by done.
  eexists _, _, _, _. split; [done|]. split; [destruct Hfound; done|]. split; [|done].
  apply (lazy_put _ _ _ _ _ Ht HE). destruct Hl as [(? & ? & ? & ?) [? Hn]]. split; [done|]. split; [done|].
  intros Hm'. destruct (Hn Hm') as (S1 & [= <-] & _ & _ & Hh). exists S. split_and!; try done. by intros s0 [= <-].
Qed.

(** ** Listing *)

(** How deep the nodes of a loaded trie go. *)
Fixpoint height (t : manifestTrie) : nat :=
  match t with
  | mkTrie es _ =>
    S ((fix go (es : list (option manifestTrieEntry)) : nat :=
          match es with
          | [] => 0%nat
          | Some (mkEntry _ _ ct _ (Some s)) :: es => if bool_decide (ct = manifestType) then Nat.max (height s) (go es) else go es
          | _ :: es => go es
          end) es)
  end.

Lemma height_sub T i E S : slot T i = Some E -> is_manifest E = true -> subtrie E = Some S -> (height S < height T)%nat.
Proof using Type.
  destruct T as [es h]. unfold slot. cbn [entries]. intros HE Hm HS. cbn [height]. apply Nat.lt_succ_r. revert i HE.
  induction es as [|o es IH]; intros i HE; [by rewrite lookup_nil in HE|]. destruct i as [|i]; cbn in HE.
  - subst o. destruct E as [p h' ct st sb]. cbn in HS. subst sb. unfold is_manifest in Hm. cbn [ContentType] in Hm. rewrite Hm. lia.
  - specialize (IH i HE). destruct o as [[p h' ct st [s|]]|]; [case_bool_decide|..]; lia.
Qed.

(** What a listing says of a set of paths: the entries with the rests of their paths behind [prefix], each once. *)
Definition lists (P : bytes -> bytes * bytes * Z -> Prop) (prefix rp : bytes) (out : list (manifestTrieEntry * bytes)) : Prop :=
  (forall e suf, (e, suf) ∈ out -> exists q, suf = rp ++ q /\ Forall is_byte q /\ P (prefix ++ q) (content e)) /\
  (forall q x, Forall is_byte q -> P (prefix ++ q) x -> exists e, (e, rp ++ q) ∈ out /\ content e = x) /\
  NoDup (snd <$> out).

Lemma lists_ext (P Q : bytes -> bytes * bytes * Z -> Prop) prefix rp out :
  (forall q x, Forall is_byte q -> P (prefix ++ q) x <-> Q (prefix ++ q) x) -> lists P prefix rp out -> lists Q prefix rp out.
Proof using Type.
  intros H (H1 & H2 & H3). split_and!; [|intros q x Hq Hx; apply H2; [done|by apply H]|done].
  intros e suf He. destruct (H1 e suf He) as (q & -> & Hq & HP). exists q. split_and!; [done|done|]. by apply H.
Qed.

Lemma lists_none prefix rp : lists (fun _ _ => False) prefix rp [].
Proof using Type. split_and!; [intros e suf H; by apply not_elem_of_nil in H|by intros|constructor]. Qed.

(** Two listings of paths that are not in common. *)
Lemma lists_app (P Q : bytes -> bytes * bytes * Z -> Prop) prefix rp out out' :
  (forall q x y, Forall is_byte q -> P q x -> Q q y -> False) -> Forall is_byte prefix ->
  lists P prefix rp out -> lists Q prefix rp out' -> lists (fun q x => P q x \/ Q q x) prefix rp (out ++ out').
Proof using Type.
  intros Hd Hb (A1 & A2 & A3) (B1 & B2 & B3). split_and!.
  - intros e suf [H|H]%elem_of_app; [destruct (A1 _ _ H) as (q & ? & ? & ?)|destruct (B1 _ _ H) as (q & ? & ? & ?)]; exists q; eauto.
  - intros q x Hq [H|H]; [destruct (A2 q x Hq H) as (e & ? & ?)|destruct (B2 q x Hq H) as (e & ? & ?)]; exists e; (split; [|done]); apply elem_of_app; auto.
  - rewrite fmap_app. apply NoDup_app. split_and!; [done| |done]. intros suf ([e s1] & -> & H1)%list_elem_of_fmap ([e' s2] & E & H2)%list_elem_of_fmap.
    cbn in E. subst s2. destruct (A1 _ _ H1) as (q & -> & Hq & HP). destruct (B1 _ _ H2) as (q' & E & _ & HQ).
    apply app_inv_head in E. subst q'. eapply (Hd (prefix ++ q)); [by apply Forall_app|done|done].
Qed.

(** The paths of one slot. *)
Lemma slot_has T i E q x :
  loaded T -> slot T i = Some E -> (slot_of q = i /\ has T q x) <-> ehas E q x.
Proof using Type.
  intros HT HE. inversion HT as [? _ Hslots]; subst. destruct (Hslots _ _ HE) as (Hso & _ & Hm). rewrite has_unfold. split.
  - intros (<- & e & He & Hx). congruence.
  - intros Hx. assert (Hq : slot_of q = i).
    { unfold ehas in Hx. destruct (is_manifest E).
      - destruct (Hm eq_refl) as (Hne & _). destruct Hx as (_ & q' & _ & -> & _). rewrite <- Hso. by destruct (Path E).
      - destruct Hx as [-> _]. done. }
    split; [done|]. exists E. by rewrite Hq.
Qed.

(** The listing of a node, below its path. *)
Lemma lists_node E S prefix rp out :
  is_manifest E = true -> subtrie E = Some S -> Forall is_byte (Path E) ->
  let l := Nat.min (length prefix) (length (Path E)) in
  take l prefix = take l (Path E) -> lists (has S) (drop l prefix) (rp ++ drop l (Path E)) out -> lists (ehas E) prefix rp out.
Proof using Type.
  intros Hm HS Hb l Ht (H1 & H2 & H3). assert (Hx : forall q x, ehas E q x <-> exists q', q = Path E ++ q' /\ has S q' x).
  { intros q x. unfold ehas. rewrite Hm. split; [intros (S' & q' & HS' & ? & ?)|intros (q' & ? & ?)]; [|by eexists _, _].
    assert (S' = S) as -> by congruence. eauto. }
  pose proof (take_drop l prefix) as Hpfx. pose proof (take_drop l (Path E)) as HPE. rewrite Ht in Hpfx. clear Ht.
  assert (Hdr : drop l prefix = [] \/ drop l (Path E) = []).
  { subst l. destruct (Nat.min_dec (length prefix) (length (Path E))) as [-> | ->]; [left|right]; apply drop_all. }
  assert (Hr : Forall is_byte (drop l (Path E))) by (by apply Forall_drop).
  revert Hdr Hr H1 H2 Hpfx HPE. generalize (take l (Path E)) (drop l (Path E)) (drop l prefix). intros c r d Hdr Hr H1 H2 <- HPE.
  setoid_rewrite <- HPE in Hx. split_and!; [| |done].
  - intros e suf He. destruct (H1 e suf He) as (q & -> & Hq & Hh). exists (r ++ q). rewrite app_assoc. split_and!; [done|by apply Forall_app|].
    apply Hx. exists (d ++ q). split; [|done]. destruct Hdr as [-> | ->]; cbn; by rewrite ?app_nil_r, ?app_assoc.
  - intros q x Hq (q' & E' & Hh)%Hx. rewrite <- !app_assoc in E'. apply app_inv_head in E'. destruct Hdr as [-> | ->]; cbn in E', H2 |- *.
    + subst q. apply Forall_app in Hq as [_ Hq]. destruct (H2 q' x Hq Hh) as (e & He & ?). exists e. by rewrite <- app_assoc in He.
    + subst q'. destruct (H2 q x Hq Hh) as (e & He & ?). exists e. by rewrite app_nil_r in He.
Qed.

Lemma lists_leaf e E prefix rp :
  lze e E -> is_manifest E = false -> Forall is_byte (Path E) ->
  lists (ehas E) prefix rp (if is_prefix prefix (Path E) then [(e, rp ++ drop (length prefix) (Path E))] else []).
Proof using Type.
  intros He Hm Hb. destruct (is_prefix prefix (Path E)) eqn:Hp.
  - apply is_prefix_spec in Hp as [r Hr]. rewrite Hr, drop_app_length. rewrite Hr in Hb. apply Forall_app in Hb as [_ Hb]. split_and!.
    + intros e' suf [= -> ->]%list_elem_of_singleton. exists r. split_and!; [done|done|]. rewrite (lze_content _ _ He Hm). apply ehas_leaf; [done|]. by rewrite Hr.
    + intros q x Hq [Eq ->]%ehas_leaf; [|done]. rewrite Hr in Eq. apply app_inv_head in Eq. subst q. exists e. split; [by apply list_elem_of_singleton|].
      by apply lze_content.
    + apply NoDup_singleton.
  - eapply lists_ext; [|apply lists_none]. intros q x _. split; [done|]. intros [Eq _]%ehas_leaf; [|done].
    destruct (is_prefix_spec prefix (Path E)) as [_ H]. rewrite H in Hp; [done|eauto].
Qed.

Lemma lists_apart E prefix rp :
  is_manifest E = true -> let l := Nat.min (length prefix) (length (Path E)) in take l prefix <> take l (Path E) -> lists (ehas E) prefix rp [].
Proof using Type.
  intros Hm l Ht. eapply lists_ext; [|apply lists_none]. intros q x _. split; [done|]. unfold ehas. rewrite Hm. intros (_ & q' & _ & Eq & _).
  apply Ht. apply (f_equal (take l)) in Eq. subst l. by rewrite !take_app_le in Eq by lia.
Qed.

Abbreviation lister := (manifestTrie -> bytes -> bytes -> option nat -> result merr (manifestTrie * list (manifestTrieEntry * bytes) * option nat * option merr)).

(** A function that lists the nodes below [T]. *)
Definition lists_below (rec : lister) (T : manifestTrie) : Prop :=
  forall s S prefix rp, lazy s S -> loaded S -> (height S < height T)%nat -> Forall is_byte prefix ->
    exists s' out, rec s prefix rp None = Ok (s', out, None, None) /\ lazy s' S /\ lists (has S) prefix rp out.

(** One round of the loop. *)
Lemma list_slot (rec : lister) t T prefix rp n i out :
  lists_below rec T -> lazy t T -> loaded T -> Forall is_byte prefix ->
  exists t' out', list_slots load rec prefix rp (S n) i t out None = list_slots load rec prefix rp n (S i) t' (out ++ out') None /\
    lazy t' T /\ lists (fun q x => slot_of q = i /\ has T q x) prefix rp out'.
Proof using Type.
  intros Hrec Ht HT Hb. cbn [list_slots poll]. pose proof (lazy_slot _ _ i Ht) as Hi.
  destruct (slot T i) as [E|] eqn:HE; inversion Hi as [e E' He Hse|Hse]; [subst E'|].
  2:{ exists t, []. rewrite app_nil_r. split_and!; [done|done|]. eapply lists_ext; [|apply lists_none]. intros q x _. split; [done|].
      intros [Hq (E & HE' & _)%has_unfold]. congruence. }
  inversion HT as [? _ Hslots]; subst. destruct (Hslots _ _ HE) as (_ & HbE & HmE).
  assert (Hext : forall out', lists (ehas E) prefix rp out' -> lists (fun q x => slot_of q = i /\ has T q x) prefix rp out').
  { intros out'. apply lists_ext. intros q x _. by rewrite (slot_has T i E). }
  rewrite (lze_path _ _ He), (lze_manifest _ _ He). destruct (is_manifest E) eqn:Hm.
  - case_bool_decide as Hl; [|exists t, []; rewrite app_nil_r; split_and!; [done|done|]; by apply Hext, lists_apart].
    destruct (loadSubTrie_lazy e E He Hm) as (h & s & S & -> & Hle & HS & Hs & _). cbn [rbind].
    destruct (HmE eq_refl) as (_ & S' & HS' & HlS). assert (S' = S) as -> by congruence. rewrite (lze_path _ _ He).
    set (l := Nat.min (length prefix) (length (Path E))) in *.
    destruct (Hrec s S (drop l prefix) (rp ++ drop l (Path E)) Hs HlS (height_sub _ _ _ _ HE Hm HS)) as (s' & out' & -> & Hs' & Hout); [by apply Forall_drop|].
    cbn [rbind]. eexists _, out'. split; [done|]. split; [|apply Hext; by eapply lists_node].
    apply (lazy_put _ _ _ _ E Ht HE). rewrite (lze_path _ _ He) in Hle. destruct Hle as [? [? Hn]]. split; [done|]. split; [done|].
    intros Hm'. destruct (Hn Hm') as (S1 & HS1 & _ & _ & Hh). assert (S1 = S) as -> by congruence. exists S. split_and!; try done. by intros s0 [= <-].
  - pose proof (lists_leaf e E prefix rp He Hm HbE) as Hleaf. destruct (is_prefix prefix (Path E)); eexists t, _; (split_and!; [|done|by apply Hext]); [done|by rewrite app_nil_r].
Qed.

Lemma list_slots_ok (rec : lister) T prefix rp n :
  lists_below rec T -> loaded T -> Forall is_byte prefix -> forall i t out, lazy t T ->
  exists t' out', list_slots load rec prefix rp n i t out None = Ok (t', out ++ out', None, None) /\
    lazy t' T /\ lists (fun q x => (i <= slot_of q < i + n)%nat /\ has T q x) prefix rp out'.
Proof using Type.
  intros Hrec HT Hb. induction n as [|n IH]; intros i t out Ht.
  - exists t, []. rewrite app_nil_r. split_and!; [done|done|]. eapply lists_ext; [|apply lists_none]. intros q x _. split; [done|]. lia.
  - destruct (list_slot rec t T prefix rp n i out Hrec Ht HT Hb) as (t1 & o1 & -> & Ht1 & H1).
    destruct (IH (S i) t1 (out ++ o1) Ht1) as (t2 & o2 & -> & Ht2 & H2). exists t2, (o1 ++ o2). rewrite app_assoc. split_and!; [done|done|].
    eapply lists_ext; [|apply lists_app; [|exact Hb|exact H1|exact H2]].
    + intros q x _. split; [intros [[? ?]|[? ?]]; (split; [lia|done])|]. intros [Hr Hh]. destruct (decide (slot_of (prefix ++ q) = i)); [by left|right; split; [lia|done]].
    + intros q x y _ [? _] [? _]. lia.
Qed.

(** Everything below a prefix is listed, each path once. *)
Lemma listWithPrefixInt_ok fuel : forall t T prefix rp,
  (height T <= fuel)%nat -> lazy t T -> loaded T -> Forall is_byte prefix ->
  exists t' out, listWithPrefixInt load fuel t prefix rp None = Ok (t', out, None, None) /\ lazy t' T /\ lists (has T) prefix rp out.
Proof using Type.
  induction fuel as [|f IH]; intros t T prefix rp Hf Ht HT Hb; [destruct T; cbn in Hf; lia|]. cbn [listWithPrefixInt].
  assert (Hrec : lists_below (listWithPrefixInt load f) T) by (intros s S p r Hs HS Hh Hp; apply IH; try done; lia).
  set (ss := match prefix with [] => (0%nat, 256%nat) | c :: _ => (Z.to_nat c, Z.to_nat c) end).
  destruct (list_slots_ok (listWithPrefixInt load f) T prefix rp (S (snd ss - fst ss)) Hrec HT Hb (fst ss) t [] Ht) as (t' & out & E & Ht' & Hout).
  exists t', out. split_and!; [by destruct ss|done|]. eapply lists_ext; [|exact Hout]. intros q x Hq. split; [by intros [_ ?]|]. intros Hh.
  split; [|done]. subst ss. destruct prefix as [|c p]; cbn; [pose proof (slot_of_lt q Hq); lia|lia].
Qed.
End Lazy.

(** ** The document store *)

(** What a reader of a document gives: its size and, in one read, its bytes; [io.EOF] may come with them. *)
Definition serves (r : LazySectionReader) (d : bytes) : Prop :=
  rd_Size r = Some (#d) /\ exists eof, rd_Read r (#d) = (d, #d, eof).

(** A document store gives back what was put into it, under 32 byte keys. *)
Class DocStore (Retrieve : Key -> LazySectionReader) (dpa_Store : bytes -> Z -> result merr Key) : Prop := {
  ds_key : forall d k, dpa_Store d (#d) = Ok k -> length k = 32%nat /\ Forall is_byte k;
  ds_serves : forall d k, dpa_Store d (#d) = Ok k -> serves (Retrieve k) d
}.

Lemma Key_String_hex k : length k = 32%nat -> Key_String k = hex_encode k.
Proof. intros Hk. unfold Key_String, pad_zero. by rewrite length_hex_encode, Hk. Qed.

Lemma hex_encode_digits l : Forall is_byte l -> Forall (fun c => is_Some (hex_value c)) (hex_encode l).
Proof.
  induction 1 as [|b l Hb _ IH]; [constructor|]. unfold is_byte in Hb. cbn [hex_encode].
  pose proof (Z.mod_pos_bound b 16 ltac:(lia)). pose proof (Z.div_pos b 16 ltac:(lia) ltac:(lia)).
  pose proof (Z.div_lt_upper_bound b 16 16 ltac:(lia) ltac:(lia)).
  constructor; [|constructor]; [rewrite hex_value_digit by lia; eauto..|done].
Qed.

Lemma Hex2Bytes_key k : length k = 32%nat -> Forall is_byte k -> Hex2Bytes (Key_String k) = k.
Proof. intros Hl Hb. rewrite Key_String_hex by done. unfold Hex2Bytes. by rewrite hex_decode_encode. Qed.

Lemma Key_String_text k : length k = 32%nat -> Forall is_byte k -> text (Key_String k) /\ Key_String k <> [].
Proof.
  intros Hl Hb. rewrite Key_String_hex by done. split.
  - eapply Forall_impl; [exact (hex_encode_digits k Hb)|]. intros c [v Hv]. unfold hex_value in Hv. repeat case_match; try done; lia.
  - intros E. apply (f_equal length) in E. rewrite length_hex_encode in E. cbn in E. lia.
Qed.

Section Stored.
Context (Retrieve : Key -> LazySectionReader) (dpa_Store : bytes -> Z -> result merr Key) {HDS : DocStore Retrieve dpa_Store}.
Context (Unmarshal : bytes -> option (list manifestTrieEntry)) (Marshal : list manifestTrieEntry -> option bytes) {HMJ : ManifestJson Unmarshal Marshal}.
Context (f : nat).

Abbreviation load := (loadManifest Retrieve Unmarshal (S f)).
Abbreviation store := (fun m => dpa_Store m (#m)).

(** Reading a manifest decodes its document. *)
Lemma readManifest_serves ld r m :
  serves r m -> readManifest Unmarshal ld r = match Unmarshal m with None => Err Malformed | Some es => add_all ld emptyTrie es end.
Proof using Type.
  intros [Hs [eof Hr]]. unfold readManifest. rewrite Hs. destruct (Z.ltb_spec (#m) 0); [zlia|]. by rewrite Hr, Z.ltb_irrefl.
Qed.

(** The slots of a trie, put into an empty one. *)
Lemma add_slots ld (es : list (option manifestTrieEntry)) : forall (n : nat) done,
  length done = n -> (n + length es = 257)%nat ->
  (forall i e, es !! i = Some (Some e) -> slot_of (Path e) = (n + i)%nat) ->
  add_all ld (mkTrie (done ++ replicate (length es) None) None) (flat <$> omap id es) = Ok (mkTrie (done ++ (option_map flat <$> es)) None).
Proof using Type.
  induction es as [|o es IH]; intros n dn Hn Hl Hs; [done|]. cbn [length] in Hl.
  assert (Hs' : forall i e, es !! i = Some (Some e) -> slot_of (Path e) = (S n + i)%nat).
  { intros i e He. rewrite (Hs (S i) e He). lia. }
  assert (Hrep : forall x : option manifestTrieEntry, dn ++ x :: replicate (length es) None = (dn ++ [x]) ++ replicate (length es) None) by (intros; by rewrite <- app_assoc).
  destruct o as [e|]; cbn [omap list_omap id length replicate fmap list_fmap option_map add_all].
  - pose proof (Hs 0%nat e eq_refl) as He. rewrite Nat.add_0_r in He. unfold addEntry'.
    assert (Hsl : slot (mkTrie (dn ++ None :: replicate (length es) None) None) n = None).
    { unfold slot. cbn [entries]. by rewrite lookup_app_r, Hn, Nat.sub_diag by lia. }
    rewrite addEntry_free by (cbn [flat Path]; by rewrite He). cbn [rbind flat Path]. rewrite He. unfold set_slot. cbn [entries clear_hash hash].
    rewrite insert_app_r_alt, Hn, Nat.sub_diag by lia. cbn [insert list_insert].
    match goal with |- context [dn ++ ?x :: replicate _ None] => rewrite (Hrep x) end.
    erewrite (IH (S n)); [by rewrite <- app_assoc|rewrite length_app; cbn; lia|lia|done].
  - rewrite Hrep. erewrite (IH (S n)); [by rewrite <- app_assoc|rewrite length_app; cbn; lia|lia|done].
Qed.

(** The document of a manifest gives back its entries. *)
Lemma load_stored es k m :
  length es = 257%nat -> (forall i e, es !! i = Some (Some e) -> slot_of (Path e) = i) -> Unmarshal m = Some (flat <$> omap id es) ->
  dpa_Store m (#m) = Ok k -> load k = Ok (mkTrie (option_map flat <$> es) None).
Proof using HDS.
  intros Hl Hs Hu Hk. cbn [loadManifest]. rewrite (readManifest_serves _ _ _ (ds_serves _ _ Hk)), Hu. change emptyTrie with (mkTrie ([] ++ replicate 257 None) None). rewrite <- Hl.
  apply (add_slots _ es 0 []); [done|done|done].
Qed.

(** ** Storing *)

Abbreviation recalc := (recalcAndStore store Marshal).

(** The loop of [recalcAndStore] over the entries. *)
Fixpoint recalc_entries (es : list (option manifestTrieEntry)) : result merr (list (option manifestTrieEntry)) :=
  match es with
  | [] => Ok []
  | None :: es => let! es := recalc_entries es in Ok (None :: es)
  | Some (mkEntry p h ct st sub) :: es =>
    if bool_decide (h = []) then
      match sub with
      | None => Panic
      | Some s =>
        let! s := recalc s in
        let! es := recalc_entries es in
        Ok (Some (mkEntry p (match hash s with Some k => Key_String k | None => Key_String [] end) ct st (Some s)) :: es)
      end
    else let! es := recalc_entries es in Ok (Some (mkEntry p h ct st sub) :: es)
  end.

Lemma recalc_unfold es :
  recalc (mkTrie es None) =
    (let! es := recalc_entries es in
     match Marshal (omap id es) with
     | None => Err MarshalError
     | Some manifest => let! key := store manifest in Ok (mkTrie es (Some key))
     end).
Proof using Type. reflexivity. Qed.

(** The documents that [recalcAndStore] hands to the document store, in their order, up to the first that it does not take. *)
Fixpoint recalc_docs (t : manifestTrie) : list bytes :=
  match t with
  | mkTrie _ (Some _) => []
  | mkTrie es None =>
    (fix go (es : list (option manifestTrieEntry)) : list bytes :=
       match es with
       | [] => []
       | None :: es => go es
       | Some (mkEntry _ h _ _ sub) :: es =>
         if bool_decide (h = []) then
           match sub with None => [] | Some s => recalc_docs s ++ match recalc s with Ok _ => go es | _ => [] end end
         else go es
       end) es ++
    match recalc_entries es with
    | Ok es => match Marshal (omap id es) with Some manifest => [manifest] | None => [] end
    | _ => []
    end
  end.

Fixpoint entries_docs (es : list (option manifestTrieEntry)) : list bytes :=
  match es with
  | [] => []
  | None :: es => entries_docs es
  | Some (mkEntry _ h _ _ sub) :: es =>
    if bool_decide (h = []) then
      match sub with None => [] | Some s => recalc_docs s ++ match recalc s with Ok _ => entries_docs es | _ => [] end end
    else entries_docs es
  end.

Lemma recalc_docs_unfold es :
  recalc_docs (mkTrie es None) = entries_docs es ++
    match recalc_entries es with Ok es => match Marshal (omap id es) with Some manifest => [manifest] | None => [] end | _ => [] end.
Proof using Type. reflexivity. Qed.

(** The document store takes a document. *)
Definition taken (m : bytes) : Prop := exists k, dpa_Store m (#m) = Ok k.

(** Of the documents [docs] of a call the last was refused by the document store, and the outcome of the call is that of the refusal. *)
Definition refused {A} (docs : list bytes) (r : result merr A) : Prop :=
  exists pre m, docs = pre ++ [m] /\ Forall taken pre /\
    match dpa_Store m (#m), r with
    | Err e, Err e' => e = e'
    | Panic, Panic => True
    | _, _ => False
    end.

Lemma refused_behind {A B} l docs (r : result merr A) (r' : result merr B) :
  Forall taken l -> match r, r' with Err e, Err e' => e = e' | Panic, Panic => True | _, _ => False end ->
  refused docs r -> refused (l ++ docs) r'.
Proof using Type.
  intros Hl Hr (pre & m & -> & Hp & Hm). exists (l ++ pre), m. split_and!; [by rewrite app_assoc|by apply Forall_app|].
  destruct (dpa_Store m (#m)), r, r'; (done || congruence).
Qed.

Abbreviation lze := (entry_rel load (lazy load)).

(** An entry with its hash. *)
Definition hashed (e E : manifestTrieEntry) : Prop := lze e E /\ Hash e <> [].

Lemma hashed_flat e E : hashed e E -> lze (flat e) E.
Proof using Type.
  intros [[(? & ? & ? & ?) [Hl Hn]] Hh]. split; [done|]. split; [done|]. intros Hm. destruct (Hn Hm) as (S & HS & _ & _ & HL). exists S. by split_and!.
Qed.

Lemma slots_lazy es Es h H0 :
  length es = 257%nat -> Forall2 (option_Forall2 lze) es Es -> (forall k, h = Some k -> key_ok k /\ exists s, load k = Ok s /\ lazy load s (mkTrie Es H0)) ->
  lazy load (mkTrie es h) (mkTrie Es H0).
Proof using Type.
  intros Hl HF Hh. pose proof (Forall2_length _ _ _ HF). constructor; [done|cbn; congruence| |done].
  intros i. unfold slot. cbn [entries].
  destruct (es !! i) as [o|] eqn:Eo.
  - destruct (Forall2_lookup_l _ _ _ _ _ HF Eo) as (O & -> & HO). done.
  - apply lookup_ge_None in Eo. rewrite (proj2 (lookup_ge_None Es i)) by lia. constructor.
Qed.

Lemma recalc_entries_ok es Es :
  Forall2 (option_Forall2 lze) es Es ->
  (forall s S, (exists e E i, es !! i = Some (Some e) /\ Es !! i = Some (Some E) /\ subtrie e = Some s /\ subtrie E = Some S /\ is_manifest E = true) -> lazy load s S ->
     match recalc s with
     | Ok s' => (exists k, hash s' = Some k /\ key_ok k) /\ lazy load s' S /\ Forall taken (recalc_docs s)
     | r => refused (recalc_docs s) r
     end) ->
  match recalc_entries es with
  | Ok es' => Forall2 (option_Forall2 hashed) es' Es /\ Forall taken (entries_docs es)
  | r => refused (entries_docs es) r
  end.
Proof using Type.
  intros HF. induction HF as [|o O es Es Ho HF IH]; intros Hsub; [split; constructor|].
  assert (IH' : match recalc_entries es with
    | Ok es' => Forall2 (option_Forall2 hashed) es' Es /\ Forall taken (entries_docs es) | r => refused (entries_docs es) r end).
  { apply IH. intros s S (e & E & i & H1 & H2 & H3). apply Hsub. by exists e, E, (Datatypes.S i). }
  clear IH. destruct Ho as [e E He|]; cbn [recalc_entries entries_docs].
  - destruct e as [p h ct st sub]. case_bool_decide as Hh.
    + subst h. pose proof He as [(Hp & Hc & Hst & Hpl & _ & Hpc) [Hlf Hn]]. cbn in Hp, Hc, Hst, Hpl, Hpc, Hlf, Hn.
      destruct (is_manifest E) eqn:Hm; [|by destruct (Hlf eq_refl)]. destruct (Hn eq_refl) as (S & HS & HL & Hnone & _).
      destruct sub as [s|]; [|by destruct (Hnone eq_refl)].
      specialize (Hsub s S ltac:(exists (mkEntry p [] ct st (Some s)), E, 0%nat; by rewrite HS) (HL s eq_refl)).
      destruct (recalc s) as [s'| |]; cbn [rbind]; [|rewrite app_nil_r; exact Hsub..].
      destruct Hsub as ((k & Hk & Hlk & Hbk) & Hs' & Hd).
      destruct (recalc_entries es) as [es'|e|]; cbn [rbind]; [|by apply refused_behind with (3 := IH')..].
      destruct IH' as [IH' Hde]. split; [|by apply Forall_app]. constructor; [|done]. constructor.
      rewrite Hk. destruct (Key_String_text k Hlk Hbk) as [Htk Hne].
      split; [|done]. split; [by split_and!|]. split; [cbn; congruence|]. intros _. exists S. cbn [subtrie Hash]. split_and!; [done|by intros ? [= <-]|done|].
      intros _. rewrite Hex2Bytes_key by done. destruct Hs' as [? ? _ _ _ Hload]. by apply Hload.
    + destruct (recalc_entries es) as [es'| |]; cbn [rbind]; [|exact IH'..]. destruct IH' as [IH' Hde]. split; [|done]. constructor; [|done]. by constructor.
  - destruct (recalc_entries es) as [es'| |]; cbn [rbind]; [|exact IH'..]. destruct IH' as [IH' Hde]. split; [|done]. constructor; [|done]. constructor.
Qed.

(** A trie is stored so that it is loaded again, unless the document store refuses one of its documents. *)
Lemma recalc_ok n : forall t T, (height t <= n)%nat -> lazy load t T -> loaded T ->
  match recalc t with
  | Ok t' => (exists k, hash t' = Some k /\ key_ok k) /\ lazy load t' T /\ Forall taken (recalc_docs t)
  | r => refused (recalc_docs t) r
  end.
Proof using HDS HMJ.
  induction n as [|n IH]; intros t T Hn Ht HT; [destruct t; cbn in Hn; lia|]. destruct t as [es [k|]].
  { change (recalc (mkTrie es (Some k))) with (Ok (mkTrie es (Some k)) : result merr manifestTrie). split; [|split; [done|constructor]]. inversion Ht as [? ? _ _ _ Hh]; subst.
    exists k. split; [done|]. by apply Hh. }
  rewrite recalc_unfold, recalc_docs_unfold. pose proof (lazy_lengths _ _ _ Ht) as [Hlen HlenT]. pose proof (lazy_entries _ _ _ Ht) as HF. destruct T as [Es H0]. cbn [entries] in *.
  assert (Hes : match recalc_entries es with
    | Ok es' => Forall2 (option_Forall2 hashed) es' Es /\ Forall taken (entries_docs es) | r => refused (entries_docs es) r end).
  { apply recalc_entries_ok; [done|]. intros s S (e & E & i & He & HE & Hs & HS & Hm) Hlz. apply IH; [|done|].
    - assert (Hsl : slot (mkTrie es None) i = Some e) by (unfold slot; cbn [entries]; by rewrite He). assert (Hme : is_manifest e = true).
      { destruct (Forall2_lookup_l _ _ _ _ _ HF He) as (O & HO & Hr). inversion Hr as [? E' HE'|]; subst. rewrite (lze_manifest _ _ _ HE'). congruence. }
      pose proof (height_sub _ _ _ _ Hsl Hme Hs). lia.
    - inversion HT as [? _ Hslots]; subst. destruct (Hslots i E) as (_ & _ & HmE); [unfold slot; cbn [entries]; by rewrite HE|].
      destruct (HmE Hm) as (_ & S' & HS' & ?). congruence. }
  destruct (recalc_entries es) as [es'| |]; cbn [rbind]; [|rewrite app_nil_r; exact Hes..]. destruct Hes as [Hes Hde].
  assert (Hl' : length es' = 257%nat) by (rewrite (Forall2_length _ _ _ Hes); done).
  destruct (mj_roundtrip (omap id es')) as (m & Hm & Hu).
  { apply Forall_forall. intros e (o & Ho & Heq)%list_elem_of_omap. cbn in Heq. subst o. apply list_elem_of_lookup in Ho as [i Hi].
    destruct (Forall2_lookup_l _ _ _ _ _ Hes Hi) as (O & _ & HO). inversion HO as [? E [[(_ & _ & _ & ?) _] _]|]. done. }
  rewrite Hm. destruct (dpa_Store m (#m)) as [k|e|] eqn:Hk; cbn [rbind]; [|by exists (entries_docs es), m; rewrite Hk..].
  destruct (ds_key _ _ Hk) as [Hk1 Hk2].
  assert (Hload : load k = Ok (mkTrie (option_map flat <$> es') None)).
  { apply (load_stored es' k m); try done. intros i e He. destruct (Forall2_lookup_l _ _ _ _ _ Hes He) as (O & HO & Hr).
    inversion Hr as [? E [HE _]|]; subst. rewrite (lze_path _ _ _ HE). inversion HT as [? _ Hslots]; subst. apply Hslots. unfold slot. cbn [entries]. by rewrite HO. }
  split; [by exists k|]. split; [|by apply Forall_app; repeat constructor; [|exists k]]. apply slots_lazy; [done| |].
  - eapply Forall2_impl; [exact Hes|]. intros o O Ho. destruct Ho as [e E [? _]|]; by constructor.
  - intros k' [= <-]. split; [done|]. eexists. split; [exact Hload|]. apply slots_lazy; [by rewrite length_fmap| |done].
    apply Forall2_fmap_l. eapply Forall2_impl; [exact Hes|]. intros o O Ho. destruct Ho as [e E ?|]; constructor. by apply hashed_flat.
Qed.
End Stored.

(** ** Nodes and the paths below them *)

(** Every node has an entry with a path. *)
#[warnings="-register-all"] Inductive branching : manifestTrie -> Prop :=
| branching_intro t :
    length (entries t) = 257%nat ->
    (forall i e, slot t i = Some e -> is_manifest e = true ->
       exists sub, subtrie e = Some sub /\ branching sub /\ exists j e', j <> 256%nat /\ slot sub j = Some e') ->
    branching t.

Definition entry_branching (e : manifestTrieEntry) : Prop :=
  is_manifest e = true -> exists sub, subtrie e = Some sub /\ branching sub /\ exists j e', j <> 256%nat /\ slot sub j = Some e'.

Lemma branching_empty : branching emptyTrie.
Proof. constructor; [done|]. intros i e. by rewrite emptyTrie_slot. Qed.

Lemma branching_length t : branching t -> length (entries t) = 257%nat.
Proof. by destruct 1. Qed.

Lemma branching_set t i e : (i < 257)%nat -> branching t -> entry_branching e -> branching (set_slot (clear_hash t) i (Some e)).
Proof.
  intros Hi Hbt He. destruct Hbt as [t Hl Ht]. constructor; [by rewrite <- Hl; apply length_insert|]. intros j e' Hs. rewrite slot_set in Hs by done.
  case_decide; [injection Hs as <-; apply He|exact (Ht _ _ Hs)].
Qed.

Section Branching.
Context (load : Key -> result merr manifestTrie).

(** Slots that are taken stay taken. *)
Definition grows (t t' : manifestTrie) : Prop := forall j, slot t j <> None -> slot t' j <> None.

Lemma grows_set t i e : length (entries t) = 257%nat -> (i < 257)%nat -> grows t (set_slot (clear_hash t) i (Some e)).
Proof using Type. intros Hl Hi j Hj. rewrite slot_set by done. by case_decide. Qed.

Lemma grows_entry t t' : grows t t' -> (exists j e, j <> 256%nat /\ slot t j = Some e) -> exists j e, j <> 256%nat /\ slot t' j = Some e.
Proof using Type.
  intros Hg (j & e & Hj & He). specialize (Hg j ltac:(by rewrite He)). destruct (slot t' j) as [e'|] eqn:E; [by exists j, e'|done].
Qed.

(** A node of two entries that go apart. *)
Lemma pair_branching f e1 e2 s1 s :
  diverge (Path e1) (Path e2) -> Forall is_byte (Path e1) -> Forall is_byte (Path e2) -> entry_branching e1 -> entry_branching e2 ->
  addEntry load (S f) emptyTrie e1 = Ok s1 -> addEntry load (S f) s1 e2 = Ok s ->
  branching s /\ exists j e, j <> 256%nat /\ slot s j = Some e.
Proof using Type.
  intros Hd H1 H2 B1 B2. pose proof (diverge_slot _ _ H1 H2 Hd) as Hne. pose proof (slot_of_lt _ H1) as L1. pose proof (slot_of_lt _ H2) as L2.
  rewrite addEntry_free by apply emptyTrie_slot. intros [= <-].
  assert (Hb1 : branching (set_slot (clear_hash emptyTrie) (slot_of (Path e1)) (Some e1))) by (apply branching_set; [done|apply branching_empty|done]).
  rewrite addEntry_free by (rewrite slot_set, decide_False by done; apply emptyTrie_slot). intros [= <-]. split; [by apply branching_set|].
  assert (Hs2 : forall j, slot (set_slot (clear_hash (set_slot (clear_hash emptyTrie) (slot_of (Path e1)) (Some e1))) (slot_of (Path e2)) (Some e2)) j =
    if decide (slot_of (Path e2) = j) then Some e2 else if decide (slot_of (Path e1) = j) then Some e1 else None).
  { intros j. rewrite slot_set by (done || exact (branching_length _ Hb1)). case_decide; [done|]. change (slot (clear_hash ?x)) with (slot x). rewrite slot_set by done. case_decide; [done|]. apply emptyTrie_slot. }
  destruct (decide (Path e2 = [])) as [E2|E2].
  - exists (slot_of (Path e1)), e1. rewrite Hs2, decide_False, decide_True by done. split; [|done]. intros E. rewrite E, E2 in Hne. done.
  - exists (slot_of (Path e2)), e2. rewrite Hs2, decide_True by done. split; [|done]. intros E. by apply slot_of_nil in E.
Qed.

Lemma addEntry_branching fuel : forall t e t',
  addEntry load fuel t e = Ok t' -> loaded t -> branching t -> is_manifest e = false -> Forall is_byte (Path e) -> branching t' /\ grows t t'.
Proof using Type.
  induction fuel as [|f IH]; intros t e t' E HT Ht Hm Hb; [done|]. pose proof (slot_of_lt _ Hb) as Hlt. pose proof (branching_length _ Ht) as Hl.
  assert (Hset : forall x, entry_branching x -> let t' := set_slot (clear_hash t) (slot_of (Path e)) (Some x) in branching t' /\ grows t t').
  { intros x Hx. split; [by apply branching_set|by apply grows_set]. }
  assert (He : forall p, entry_branching (with_Path p e)) by (intros p Hp; rewrite with_Path_manifest in Hp; congruence).
  assert (He0 : entry_branching e) by (intros Hp; congruence).
  destruct (slot t (slot_of (Path e))) as [old|] eqn:Hold; [|rewrite addEntry_free in E by done; injection E as <-; by apply Hset].
  destruct (decide (Path old = Path e)) as [Heq|Hneq]; [rewrite (addEntry_same load f t e old) in E by done; injection E as <-; by apply Hset|].
  inversion HT as [? _ Hslots]; subst. destruct (Hslots _ _ Hold) as (Hso & Hob & Hom). inversion Ht as [? _ Hbs]; subst. pose proof (Hbs _ _ Hold) as Hbold.
  destruct (split_paths (Path e) (Path old)) as (x & r1 & r2 & Ee & Eo & Hx & Hdiv); try done.
  assert (Hb1 : Forall is_byte r1) by (rewrite Ee in Hb; by apply Forall_app in Hb as [_ ?]).
  assert (Hb2 : Forall is_byte r2) by (rewrite Eo in Hob; by apply Forall_app in Hob as [_ ?]).
  destruct (decide (is_manifest old = true /\ r2 = [])) as [[Hmo ->]|Hnot].
  - rewrite app_nil_r in Eo. destruct (Hom Hmo) as (_ & sub & Hsub & Hlsub). destruct (Hbold Hmo) as (sub0 & Hsub0 & Hbsub & Hent). assert (sub0 = sub) as -> by congruence.
    rewrite (addEntry_descend load f t e old sub x r1) in E by (done || (intros ->; by destruct (diverge_irrefl []))).
    apply rbind_Ok in E as (sub' & E & [= <-]). destruct (IH sub (with_Path r1 e) sub' E) as [Hb' Hg]; rewrite ?with_Path_Path, ?with_Path_manifest; try done.
    apply Hset. intros _. exists sub'. split_and!; [done|done|]. by eapply grows_entry.
  - rewrite (addEntry_split load f t e old x r1 r2) in E; try done; [|intros Hmo ->; by destruct Hnot].
    apply rbind_Ok in E as (s1 & E1 & E). apply rbind_Ok in E as (s & E2 & [= <-]). destruct f as [|f]; [done|].
    apply Hset. intros _. exists s. split; [done|]. apply (pair_branching f (with_Path r1 e) (with_Path r2 old) s1 s); rewrite ?with_Path_Path; try done.
    intros Hmo. rewrite with_Path_manifest in Hmo. rewrite with_Path_subtrie. by apply Hbold.
Qed.
End Branching.

(** An entry gives content below its path. *)
Lemma branching_has n : forall t j e,
  (height t <= n)%nat -> loaded t -> branching t -> slot t j = Some e -> exists q x, has t (Path e ++ q) x /\ Forall is_byte q.
Proof.
  induction n as [|n IH]; intros t j e Hn HT Ht He; [destruct t; cbn in Hn; lia|]. inversion HT as [? _ Hslots]; subst. destruct (Hslots _ _ He) as (Hso & _ & Hm).
  destruct (is_manifest e) eqn:Hme.
  - destruct (Hm eq_refl) as (Hne & sub & Hsub & Hls). inversion Ht as [? _ Hbs]; subst. destruct (Hbs _ _ He Hme) as (sub0 & Hsub0 & Hbsub & i & e' & _ & He').
    assert (sub0 = sub) as -> by congruence. destruct (IH sub i e') as (q & x & Hh & Hq); [pose proof (height_sub _ _ _ _ He Hme Hsub); lia|done|done|done|].
    inversion Hls as [? _ Hss]; subst. destruct (Hss _ _ He') as (_ & Hb' & _).
    exists (Path e' ++ q), x. split; [|by apply Forall_app]. apply (has_node t e sub); try done. rewrite <- He. f_equal. destruct (Path e); [done|]. done.
  - exists [], (content e). rewrite app_nil_r. split; [|done]. apply has_leaf; [by rewrite Hso|done].
Qed.

(** A path at which a node starts goes on to a path with content. *)
Lemma inner_extends t p : loaded t -> branching t -> inner t p -> exists r x, r <> [] /\ Forall is_byte r /\ has t (p ++ r) x.
Proof.
  intros HT Ht Hi. induction Hi as [t e Hs Hm|t e sub q Hs Hm Hsub Hi IH].
  - inversion Ht as [? _ Hbs]; subst. destruct (Hbs _ _ Hs Hm) as (sub & Hsub & Hbsub & j & e' & Hj & He'). inversion HT as [? _ Hslots]; subst.
    destruct (Hslots _ _ Hs) as (_ & _ & Hme). destruct (Hme Hm) as (Hne & sub0 & Hsub0 & Hls). assert (sub0 = sub) as -> by congruence.
    destruct (branching_has (height sub) sub j e' (le_n _) Hls Hbsub He') as (q & x & Hh & Hq). inversion Hls as [? _ Hss]; subst. destruct (Hss _ _ He') as (Hsj & Hb' & _).
    exists (Path e' ++ q), x. split_and!; [intros E; apply app_eq_nil in E as [E _]; rewrite E in Hsj; by subst j|by apply Forall_app|].
    apply (has_node t e sub); try done. rewrite <- Hs. f_equal. by destruct (Path e).
  - inversion Ht as [? _ Hbs]; subst. destruct (Hbs _ _ Hs Hm) as (sub1 & Hsub1 & Hbsub & _). inversion HT as [? _ Hslots]; subst.
    destruct (Hslots _ _ Hs) as (_ & _ & Hme). destruct (Hme Hm) as (Hne & sub0 & Hsub0 & Hls). assert (sub0 = sub) as -> by congruence. assert (sub1 = sub) as -> by congruence.
    destruct (IH Hls Hbsub) as (r & x & Hr & Hb & Hh). exists r, x. split_and!; [done|done|]. rewrite <- app_assoc. apply (has_node t e sub); try done.
    rewrite <- Hs. f_equal. by destruct (Path e).
Qed.

(** The height is bounded by the paths. *)
Lemma height_slots t n :
  (forall i e s, slot t i = Some e -> is_manifest e = true -> subtrie e = Some s -> (height s <= n)%nat) -> (height t <= S n)%nat.
Proof.
  destruct t as [es h]. unfold slot. cbn [entries height]. intros H. apply le_n_S. induction es as [|o es IH]; [lia|].
  assert (IH' := IH (fun i e s => H (S i) e s)). pose proof (H 0%nat) as H0. cbn in H0. destruct o as [[p h' ct st [s|]]|]; try done.
  case_bool_decide as Hc; [|done]. specialize (H0 _ s eq_refl ltac:(by apply bool_decide_eq_true) eq_refl). lia.
Qed.

Lemma height_paths n : forall t, loaded t -> branching t -> (forall q x, Forall is_byte q -> has t q x -> (length q <= n)%nat) -> (height t <= S n)%nat.
Proof.
  induction n as [|n IH]; intros t HT Ht Hlen; apply height_slots; intros i e s He Hm Hs; inversion HT as [? _ Hslots]; subst;
    destruct (Hslots _ _ He) as (Hso & Hbe & Hme); destruct (Hme Hm) as (Hne & sub & Hsub & Hls); assert (sub = s) as -> by congruence;
    inversion Ht as [? _ Hbs]; subst; destruct (Hbs _ _ He Hm) as (sub' & Hsub' & Hbsub & _); assert (sub' = s) as -> by congruence.
  - destruct (branching_has (height t) t _ e (le_n _) HT Ht He) as (q & x & Hh & Hq). assert (Hl := Hlen (Path e ++ q) x (proj2 (Forall_app _ _ _) (conj Hbe Hq)) Hh). clear Hlen. rename Hl into Hlen.
    rewrite length_app in Hlen. destruct (Path e); [done|cbn in Hlen; lia].
  - apply IH; [done|done|]. intros q x Hq Hh. enough (length (Path e ++ q) <= S n)%nat by (rewrite length_app in *; destruct (Path e); [done|cbn in *; lia]).
    apply (Hlen _ x); [by apply Forall_app|]. apply (has_node t e s); try done. rewrite <- He. f_equal. by destruct (Path e).
Qed.
