(* ===== verification/Api.v ===== *)
(** The content API ([livepeer/api/api.go], [livepeer/api/storage.go]) and the
    request handler of the HTTP proxy ([livepeer/api/http/server.go]).

    The document store below is the pair [Retrieve], [dpa_Store]; the name
    resolver is [dns], absent when none is configured; encoding/json on manifests
    is [Unmarshal] and [Marshal]. Nodes of manifests are loaded to depth [fuel]. *)
From stdpp Require Import base gmap list strings.
From Stdlib Require Import ZArith Lia.
From S2P Require Import Prelude Types Manifest ManifestProps ManifestStore.

(** ** URIs *)

Fixpoint skip_slashes (s : bytes) : bytes :=
  match s with c :: s' => if c =? slash then skip_slashes s' else s | [] => [] end.

(** What the pattern [/+] splits off: the bytes before the first run of slashes
    and those behind it. *)
Fixpoint break_slash (s : bytes) : option (bytes * bytes) :=
  match s with
  | [] => None
  | c :: s' =>
    if c =? slash then Some ([], skip_slashes s')
    else match break_slash s' with Some (a, b) => Some (c :: a, b) | None => None end
  end.

(** [slashes.Split(s, k + 1)]. *)
Fixpoint split_slashes (k : nat) (s : bytes) : list bytes :=
  match k with
  | O => [s]
  | S k' => match break_slash s with Some (a, b) => a :: split_slashes k' b | None => [s] end
  end.

(** The loop that skips empty parts; it panics behind the last one. *)
Fixpoint skip_empty (parts : list bytes) : option (bytes * list bytes) :=
  match parts with
  | [] => None
  | p :: rest => if bool_decide (p = []) then skip_empty rest else Some (p, rest)
  end.

(** The loop that joins the parts behind the host. *)
Fixpoint join_parts (path : bytes) (parts : list bytes) : bytes :=
  match parts with
  | [] => path
  | p :: rest => join_parts (if bool_decide (path = []) then p else path ++ slash :: p) rest
  end.

(** [parse]: host and path; [None] is the index panic. *)
Definition parse (uri : bytes) : option (bytes * bytes) :=
  '(hostPort, rest) ← skip_empty (split_slashes 2 uri);
  Some (hostPort, join_parts [] rest).

(** [hashMatcher]: the first 64 bytes are hexadecimal digits. *)
Definition hashMatcher (s : bytes) : bool :=
  (64 <=? #s) && forallb (fun c => match hex_value c with Some _ => true | None => false end) (take 64 s).

Inductive apierr := ErrResolve | NotContentHash | ErrManifest (e : merr) | EntryNotFound | ErrStore (e : merr).

Section Api.
Context (Retrieve : Key -> LazySectionReader).
Context (dpa_Store : bytes -> Z -> result merr Key).
Context (Unmarshal : bytes -> option (list manifestTrieEntry)).
Context (Marshal : list manifestTrieEntry -> option bytes).
Context (dns : option (bytes -> Key * bool)).
Context (fuel : nat).

Abbreviation load := (loadManifest Retrieve Unmarshal fuel).

Definition Resolve (hostPort : bytes) (nameresolver : bool) : Key * option apierr :=
  match hashMatcher hostPort, dns with
  | true, _ | _, None => (Hex2Bytes hostPort, None)
  | false, Some resolve =>
    if negb nameresolver then ([], Some NotContentHash)
    else let '(h, err) := resolve hostPort in (h, if err : bool then Some ErrResolve else None)
  end.

Definition parseAndResolve (uri : bytes) (nameresolver : bool) : option (Key * bytes * bytes * option apierr) :=
  '(hostPort, path) ← parse uri;
  let '(contentHash, err) := Resolve hostPort nameresolver in
  Some (contentHash, hostPort, path, err).

(** The manifest text of [Put]. *)
Definition singleton_manifest (key : Key) (contentType : bytes) : bytes :=
  str "{" ++ [34] ++ str "entries" ++ [34] ++ str ":[{" ++ [34] ++ str "hash" ++ [34] ++ str ":" ++ [34] ++
  Key_String key ++ [34] ++ str "," ++ [34] ++ str "contentType" ++ [34] ++ str ":" ++ [34] ++ contentType ++
  [34] ++ str "}]}".

Definition Put (content contentType : bytes) : result apierr bytes :=
  match dpa_Store content (#content) with
  | Err e => Err (ErrStore e)
  | Panic => Panic
  | Ok key =>
    let manifest := singleton_manifest key contentType in
    match dpa_Store manifest (#manifest) with
    | Err e => Err (ErrStore e)
    | Panic => Panic
    | Ok key => Ok (Key_String key)
    end
  end.

(** [Get]: reader, mime type and status. The error of [parseAndResolve] is
    overwritten by that of [loadManifest]. *)
Definition Get (uri : bytes) (nameresolver : bool) : result apierr (LazySectionReader * bytes * Z) :=
  let! '(key, _, path, _) := or_panic (parseAndResolve uri nameresolver) in
  match load key with
  | Err e => Err (ErrManifest e)
  | Panic => Panic
  | Ok trie =>
    match getEntry load (S (length (RegularSlashes path))) trie path with
    | Err e => Err (ErrManifest e)
    | Panic => Panic
    | Ok (_, Some entry, _) => Ok (Retrieve (Hex2Bytes (Hash entry)), ContentType entry, Status entry)
    | Ok (_, None, _) => Err EntryNotFound
    end
  end.

Definition Modify (uri contentHash contentType : bytes) (nameresolver : bool) : result apierr bytes :=
  let! '(root, _, path, _) := or_panic (parseAndResolve uri nameresolver) in
  match load root with
  | Err e => Err (ErrManifest e)
  | Panic => Panic
  | Ok trie =>
    let r :=
      let! trie := (if bool_decide (contentHash = []) then deleteEntry load (S (length path)) trie path
                    else addEntry' load trie (mkEntry path contentHash contentType 0 None)) in
      recalcAndStore (fun m => dpa_Store m (#m)) Marshal trie in
    match r with
    | Err e => Err (ErrManifest e)
    | Panic => Panic
    | Ok trie => Ok (Key_String (default [] (hash trie)))
    end
  end.

(** ** The storage service *)

Record Response := mkResponse { rs_MimeType : bytes; rs_Status : Z; rs_Size : Z; rs_Content : bytes }.

Definition Storage_Put (content contentType : bytes) : result apierr bytes := Put content contentType.

(** [Storage.Get]: the response and whether the read failed. *)
Definition Storage_Get (bzzpath : bytes) : result apierr (Response * bool) :=
  let! '(reader, mimeType, status) := Get bzzpath true in
  match rd_Size reader with
  | None => Err (ErrManifest NotFound)
  | Some expsize =>
    if expsize <? 0 then Panic
    else
      let '(body, size, err) := rd_Read reader expsize in
      let! content := or_panic (slice body 0 size) in
      Ok ({| rs_MimeType := mimeType; rs_Status := status; rs_Size := expsize; rs_Content := content |},
          if size =? expsize then false else err)
  end.

Definition Storage_Modify (rootHash path contentHash contentType : bytes) : result apierr bytes :=
  Modify (rootHash ++ slash :: path) contentHash contentType true.

(** ** The HTTP proxy *)

(** Number of leading bytes equal to the slash. *)
Fixpoint lead_slashes (s : bytes) : nat :=
  match s with c :: s' => if c =? slash then S (lead_slashes s') else 0%nat | [] => 0%nat end.

(** Match of [^/+bzz[ir]?:/+]: the protocol and the rest. *)
Definition bzzPrefix (uri : bytes) : option (bytes * bytes) :=
  let n := lead_slashes uri in
  if Nat.eqb n 0 then None
  else
    let s := drop n uri in
    if negb (is_prefix (str "bzz") s) then None
    else
      let s := drop 3 s in
      let m := match s with c :: _ => if (c =? 105) || (c =? 114) then 1%nat else 0%nat | [] => 0%nat end in
      match drop m s with
      | c :: s' =>
        let k := lead_slashes s' in
        if (c =? 58) && negb (Nat.eqb k 0) then
          let len := (n + 3 + m + 1 + k)%nat in Some (take len uri, drop len uri)
        else None
      | [] => None
      end.

(** [trailingSlashes.ReplaceAllString(path, "")]. *)
Definition strip_trailing (s : bytes) : bytes := rev (drop (lead_slashes (rev s)) (rev s)).

(** [rootDocumentUri]: a host without slashes behind [bzz:] or [bzzi:]. *)
Definition rootDocumentUri (uri : bytes) : bool :=
  match bzzPrefix uri with
  | None => false
  | Some (proto, rest) =>
    negb (bool_decide (drop (lead_slashes proto) proto !! 3%nat = Some 114)) &&
    negb (bool_decide (rest = [])) && forallb (fun c => negb (c =? slash)) rest
  end.

Record request := mkRequest {
  rq_Method : bytes;
  rq_Path : bytes;
  rq_ContentLengthHeader : bytes;
  rq_ContentLength : Z;
  rq_Body : bytes;
  rq_ContentType : bytes;
  rq_content_type : bytes
}.

Inductive response :=
| HttpError (status : Z)
| ServeText (body : bytes)
| ServeReader (mime : bytes) (status : Z) (reader : LazySectionReader)
| ServeReaderError (mime : bytes) (status : Z) (code : Z)
| Redirect (path : bytes).

Definition rawType : bytes := str "application/octet-stream".

(** [verbose] is [glog.V(logger.Error)], which guards the refusal of a URI
    without protocol. [api.ErrResolve] is an interface type with the methods of
    [error], so the type assertion that chooses between the statuses 400 and
    404 succeeds for every error of [Get]. *)
Definition handler (verbose : bool) (r : request) : result apierr response :=
  let uri := rq_Path r in
  let '(proto, path) := match bzzPrefix uri with Some p => p | None => ([], uri) end in
  if bool_decide (proto = []) && verbose then Ok (HttpError 400)
  else
    let scheme := take 4 (drop 1 proto) in
    let long := 4 <? #proto in
    let raw := long && bool_decide (scheme = str "bzzr") in
    let nameresolver := long && negb (bool_decide (scheme = str "bzzi")) in
    let method := rq_Method r in
    if bool_decide (method = str "POST") || bool_decide (method = str "PUT") then
      if bool_decide (rq_ContentLengthHeader r = []) then Ok (HttpError 400)
      else
        match dpa_Store (take (Z.to_nat (rq_ContentLength r)) (rq_Body r)) (rq_ContentLength r) with
        | Panic => Panic
        | Err _ => Ok (HttpError 400)
        | Ok key =>
          if bool_decide (method = str "POST") then
            if raw then Ok (ServeText (hex_encode key)) else Ok (HttpError 400)
          else if raw then Ok (HttpError 400)
          else
            match Modify (RegularSlashes path) (hex_encode key) (rq_ContentType r) nameresolver with
            | Ok newKey => Ok (ServeText newKey)
            | Err _ => Ok (HttpError 400)
            | Panic => Panic
            end
        end
    else if bool_decide (method = str "DELETE") then
      if raw then Ok (HttpError 400)
      else
        match Modify (RegularSlashes path) [] [] nameresolver with
        | Ok newKey => Ok (ServeText newKey)
        | Err _ => Ok (HttpError 400)
        | Panic => Panic
        end
    else if bool_decide (method = str "GET") || bool_decide (method = str "HEAD") then
      let path := strip_trailing path in
      if raw then
        match Resolve path nameresolver with
        | (_, Some _) => Ok (HttpError 400)
        | (key, None) =>
          let reader := Retrieve key in
          match rd_Size reader with
          | None => Ok (HttpError 404)
          | Some _ =>
            let mime := if bool_decide (rq_content_type r = []) then rawType else rq_content_type r in
            Ok (ServeReader mime 200 reader)
          end
        end
      else if rootDocumentUri uri then Ok (Redirect (path ++ [slash]))
      else
        match Get path nameresolver with
        | Panic => Panic
        | Err _ => Ok (HttpError 400)
        | Ok (reader, mimeType, status) =>
          match rd_Size reader with
          | None => Ok (ServeReaderError mimeType status 404)
          | Some _ => Ok (ServeReader mimeType (if 0 <? status then status else 200) reader)
          end
        end
    else Ok (HttpError 405).
End Api.

(** Text that stands for itself in a JSON string: printable ASCII without the quote and the backslash. [Put] writes the content type without escaping it. *)
Definition unescaped (ct : bytes) : Prop := Forall (fun c => 32 <= c < 127 /\ c <> 34 /\ c <> 92) ct.

(** What is used of encoding/json for the manifests of [Put]. *)
Class JsonSingleton (Unmarshal : bytes -> option (list manifestTrieEntry)) : Prop :=
  json_singleton k ct : key_ok k -> unescaped ct -> Unmarshal (singleton_manifest k ct) = Some [mkEntry [] (Key_String k) ct 0 None].

(** ** Theorems: URIs *)

Lemma components_app a b :
  Forall (fun c => c <> slash) a -> components (a ++ slash :: b) = a :: components b.
Proof.
  induction 1 as [|c a Hc _ IH]; cbn; [done|]. destruct (Z.eqb_spec c slash); [done|]. by rewrite IH.
Qed.

Lemma components_noslash a : Forall (fun c => c <> slash) a -> components a = [a].
Proof. induction 1 as [|c a Hc _ IH]; cbn; [done|]. destruct (Z.eqb_spec c slash); [done|]. by rewrite IH. Qed.

Lemma pc_noslash a : Forall (fun c => c <> slash) a -> a <> [] -> proper_components a = [a].
Proof. intros Ha Hn. unfold proper_components. by rewrite components_noslash, filter_cons_True. Qed.

Lemma pc_app a b :
  Forall (fun c => c <> slash) a ->
  proper_components (a ++ slash :: b) = (if decide (a = []) then [] else [a]) ++ proper_components b.
Proof.
  intros Ha. unfold proper_components. rewrite components_app by done. case_decide.
  - rewrite filter_cons_False; [done|]. by intros ?.
  - by rewrite filter_cons_True.
Qed.

Lemma pc_skip s : proper_components (skip_slashes s) = proper_components s.
Proof.
  induction s as [|c s IH]; [done|]. cbn [skip_slashes]. destruct (Z.eqb_spec c slash) as [-> |]; [|done].
  rewrite IH. symmetry. by apply (pc_app [] s).
Qed.

Lemma skip_slashes_head s c s' : skip_slashes s = c :: s' -> c <> slash.
Proof.
  induction s as [|d s IH]; [done|]. cbn. destruct (Z.eqb_spec d slash); [done|]. by intros [= <- _].
Qed.

Lemma break_slash_spec s :
  match break_slash s with
  | None => Forall (fun c => c <> slash) s
  | Some (a, b) => Forall (fun c => c <> slash) a /\ exists rest, s = a ++ slash :: rest /\ b = skip_slashes rest
  end.
Proof.
  induction s as [|c s IH]; [constructor|]. cbn [break_slash]. destruct (Z.eqb_spec c slash) as [-> |Hc].
  - split; [constructor|]. by exists s.
  - destruct (break_slash s) as [[a b]|]; [|by constructor].
    destruct IH as (Ha & rest & -> & ->). split; [by constructor|]. by exists rest.
Qed.

(** [parse] splits a URI into its first component and a path whose
    components are the others, whatever slashes lead, trail or repeat; it
    panics exactly when there is no component (the empty URI or only slashes). *)
Theorem parse_components uri :
  match parse uri with
  | Some (host, path) => proper_components uri = host :: proper_components path
  | None => proper_components uri = []
  end.
Proof.
  unfold parse. cbn [split_slashes]. pose proof (break_slash_spec uri) as H1.
  destruct (break_slash uri) as [[a b]|].
  2:{ cbn [skip_empty]. case_bool_decide as Hu; [by subst|]. cbn. by rewrite pc_noslash. }
  destruct H1 as (Ha & rest & -> & Hb). rewrite pc_app by done. rewrite <- (pc_skip rest), <- Hb.
  pose proof (break_slash_spec b) as H2. destruct (break_slash b) as [[a2 b2]|].
  - destruct H2 as (Ha2 & rest2 & Hb2 & ->). rewrite Hb2, pc_app, <- (pc_skip rest2) by done.
    assert (Hn2 : a2 <> []) by (intros ->; symmetry in Hb; rewrite Hb2 in Hb; by apply skip_slashes_head in Hb).
    rewrite (decide_False (P := a2 = [])) by done. cbn [skip_empty app].
    case_bool_decide as Hn; cbn [skip_empty mbind option_bind join_parts].
    + rewrite decide_True by done. rewrite bool_decide_eq_false_2 by done. reflexivity.
    + rewrite decide_False by done. cbn [app]. rewrite (bool_decide_eq_true_2 ([] = [])) by done.
      rewrite bool_decide_eq_false_2 by done.
      rewrite pc_app by done. by rewrite decide_False.
  - cbn [skip_empty app]. case_bool_decide as Hn; cbn [skip_empty mbind option_bind join_parts].
    + rewrite decide_True by done. case_bool_decide as Hbn; [by rewrite Hbn|]. cbn. by rewrite pc_noslash.
    + rewrite decide_False by done. cbn [app]. by rewrite (bool_decide_eq_true_2 ([] = [])).
Qed.

(** ** Theorems: contents *)

Lemma hex_noslash s : Forall (fun c => is_Some (hex_value c)) s -> Forall (fun c => c <> slash) s.
Proof. intros Hs. eapply Forall_impl; [exact Hs|]. by intros c [v Hv] ->. Qed.

Lemma hashMatcher_key k : length k = 32%nat -> Forall is_byte k -> hashMatcher (Key_String k) = true.
Proof.
  intros Hl Hb. rewrite Key_String_hex by done. unfold hashMatcher. apply andb_true_iff. split.
  - apply Z.leb_le. unfold zlen. rewrite length_hex_encode. lia.
  - apply forallb_forall. intros c Hc. apply list_elem_of_In in Hc. apply elem_of_take in Hc as (i & Hc & _).
    pose proof (Forall_lookup_1 _ _ _ _ (hex_encode_digits k Hb) Hc) as [v Hv]. by rewrite Hv.
Qed.

Lemma parse_key k : length k = 32%nat -> Forall is_byte k -> parse (Key_String k) = Some (Key_String k, []).
Proof.
  intros Hl Hb. rewrite Key_String_hex by done. pose proof (hex_noslash _ (hex_encode_digits k Hb)) as Hn.
  assert (Hne : hex_encode k <> []) by (intros E; apply (f_equal length) in E; rewrite length_hex_encode in E; cbn in E; lia).
  unfold parse. cbn [split_slashes]. pose proof (break_slash_spec (hex_encode k)) as Hs.
  destruct (break_slash (hex_encode k)) as [[a b]|].
  - destruct Hs as (_ & rest & E & _). rewrite E in Hn. apply Forall_app in Hn as [_ Hn]. by inversion Hn.
  - cbn [skip_empty]. by rewrite bool_decide_eq_false_2.
Qed.

Section Contents.
Context (Retrieve : Key -> LazySectionReader) (dpa_Store : bytes -> Z -> result merr Key).
Context {HDS : DocStore Retrieve dpa_Store}.
Context (Unmarshal : bytes -> option (list manifestTrieEntry)) {HJ : JsonSingleton Unmarshal} (dns : option (bytes -> Key * bool)).

Lemma Resolve_key k b :
  length k = 32%nat -> Forall is_byte k -> Resolve dns (Key_String k) b = (k, None).
Proof using Type. intros Hl Hb. unfold Resolve. by rewrite hashMatcher_key, Hex2Bytes_key. Qed.

(** A manifest of one document leads to the document. *)
Lemma Get_singleton k1 k2 ct fuel b :
  (0 < fuel)%nat -> key_ok k1 -> key_ok k2 -> serves (Retrieve k2) (singleton_manifest k1 ct) ->
  unescaped ct -> Get Retrieve Unmarshal dns fuel (Key_String k2) b = Ok (Retrieve k1, ct, 0).
Proof using HJ.
  intros Hfuel Hk1 [Hl2 Hb2] Hm Hct. pose proof (json_singleton k1 ct Hk1 Hct) as Hjson. destruct Hk1 as [Hl1 Hb1]. unfold Get, parseAndResolve. rewrite parse_key by done. cbn [mbind option_bind].
  rewrite Resolve_key by done. cbn [or_panic rbind]. destruct fuel as [|f]; [lia|].
  assert (Hload : loadManifest Retrieve Unmarshal (S f) k2
    = Ok (set_slot (clear_hash emptyTrie) 256 (Some (mkEntry [] (Key_String k1) ct 0 None)))).
  { cbn [loadManifest]. by rewrite (readManifest_serves _ _ _ _ Hm), Hjson. }
  rewrite Hload. unfold getEntry. cbn [RegularSlashes slashes_loop last length findPrefixOf rbind].
  rewrite slot_set by (done || lia). rewrite decide_True by done. cbn [Hash ContentType Status].
  by rewrite Hex2Bytes_key.
Qed.

(** The service reads a document in full. *)
Lemma Storage_Get_serves fuel h r ct st content :
  Get Retrieve Unmarshal dns fuel h true = Ok (r, ct, st) -> serves r content ->
  Storage_Get Retrieve Unmarshal dns fuel h =
    Ok ({| rs_MimeType := ct; rs_Status := st; rs_Size := #content; rs_Content := content |}, false).
Proof using Type.
  intros Hg [Hs [eof Hr]]. unfold Storage_Get. rewrite Hg. cbn [rbind]. rewrite Hs. destruct (Z.ltb_spec (#content) 0); [zlia|].
  rewrite Hr, slice_full, Z.eqb_refl. done.
Qed.

(** Content stored through the API comes back under the key the API
    returned: [Put] and then [Get] of that key gives a reader of the content,
    its content type and no status, for every content type that JSON need not escape. *)
Theorem api_Put_Get content ct h fuel b :
  (0 < fuel)%nat -> unescaped ct -> Put dpa_Store content ct = Ok h ->
  exists r, Get Retrieve Unmarshal dns fuel h b = Ok (r, ct, 0) /\ serves r content.
Proof using HDS HJ.
  intros Hfuel Hct HPut. unfold Put in HPut.
  destruct (dpa_Store content (#content)) as [k1| |] eqn:E1; try done. set (m := singleton_manifest k1 ct) in *.
  destruct (dpa_Store m (#m)) as [k2| |] eqn:E2; try done. injection HPut as <-.
  exists (Retrieve k1). split; [|by apply ds_serves].
  apply Get_singleton; [done|by apply ds_key in E1|by apply ds_key in E2|by apply ds_serves in E2|done].
Qed.

(** A GET of the bare protocol ([/bzz:/]) panics in [parse], whatever the
    store and the log level. *)
Theorem handler_bare_protocol_panics Marshal fuel verbose r :
  rq_Method r = str "GET" -> rq_Path r = str "/bzz:/" ->
  handler Retrieve dpa_Store Unmarshal Marshal dns fuel verbose r = Panic.
Proof using Type. intros Hm Hp. unfold handler. rewrite Hm, Hp. by destruct verbose. Qed.

(** A structured GET or HEAD whose content is not found is answered with
    status 400, never 404: the test for a resolver error holds for every error. *)
Theorem handler_not_found_is_400 Marshal fuel verbose r proto path e :
  bzzPrefix (rq_Path r) = Some (proto, path) -> take 4 (drop 1 proto) <> str "bzzr" ->
  rq_Method r = str "GET" \/ rq_Method r = str "HEAD" -> rootDocumentUri (rq_Path r) = false ->
  Get Retrieve Unmarshal dns fuel (strip_trailing path)
      ((4 <? #proto) && negb (bool_decide (take 4 (drop 1 proto) = str "bzzi"))) = Err e ->
  handler Retrieve dpa_Store Unmarshal Marshal dns fuel verbose r = Ok (HttpError 400).
Proof using Type.
  intros Hp Hr Hm Hroot Hget. unfold handler. rewrite Hp.
  rewrite (bool_decide_eq_false_2 (take 4 _ = str "bzzr")), andb_false_r by done.
  destruct (bool_decide (proto = []) && verbose); [done|].
  destruct Hm as [-> | ->]; cbn [bool_decide decide]; rewrite Hroot, Hget; done.
Qed.
End Contents.

(** ** Witnesses *)

(** A store of one document, and decoding of its manifest. *)
Definition one_key : Key := replicate 32 7.
Definition man_key : Key := replicate 32 9.
Definition one_doc : bytes := str "hello".
Definition one_type : bytes := str "text/plain".
Definition reader_of (d : bytes) : LazySectionReader :=
  {| rd_Size := Some (#d); rd_Read n := (take (Z.to_nat n) d, #d, #d <=? n) |}.

Lemma reader_of_serves d : serves (reader_of d) d.
Proof. split; [done|]. eexists. cbn. unfold zlen. rewrite Nat2Z.id. by rewrite take_ge. Qed.

Definition one_store (d : bytes) (size : Z) : result merr Key :=
  if bool_decide (d = one_doc) then Ok one_key
  else if bool_decide (d = singleton_manifest one_key one_type) then Ok man_key else Err StoreError.
Definition one_retrieve (k : Key) : LazySectionReader :=
  if bool_decide (k = one_key) then reader_of one_doc
  else if bool_decide (k = man_key) then reader_of (singleton_manifest one_key one_type)
  else {| rd_Size := None; rd_Read _ := ([], 0, true) |}.

(** Decoding of singleton manifests: key and type at their places. *)
Definition decode_singleton (m : bytes) : option (list manifestTrieEntry) :=
  Some [mkEntry [] (take 64 (drop 21 m)) (take (length m - 106) (drop 102 m)) 0 None].

#[export] Instance one_store_doc : DocStore one_retrieve one_store.
Proof.
  split; intros d k; unfold one_store; repeat case_bool_decide; intros [= <-]; subst;
    try (split; [done|repeat constructor; unfold is_byte; lia]); apply reader_of_serves.
Qed.

#[export] Instance decode_singleton_ok : JsonSingleton decode_singleton.
Proof.
  intros k ct [Hk _] _. assert (Hl : length (Key_String k) = 64%nat) by (rewrite Key_String_hex, length_hex_encode by done; lia).
  unfold decode_singleton, singleton_manifest. set (s := Key_String k) in *. clearbody s.
  do 64 (destruct s as [|? s]; [done|]). destruct s as [|? s]; [|done]. cbn. do 3 f_equal.
  apply take_app_length'. rewrite length_app. cbn. lia.
Qed.

Lemma one_type_unescaped : unescaped one_type.
Proof. by apply (bool_decide_unpack _). Qed.

Lemma api_Put_Get_witness :
  exists r, Get one_retrieve decode_singleton None 1 (Key_String man_key) true = Ok (r, one_type, 0) /\
    serves r one_doc.
Proof.
  apply (api_Put_Get one_retrieve one_store decode_singleton None one_doc one_type (Key_String man_key) 1 true);
    [lia|exact one_type_unescaped|vm_compute; reflexivity].
Defined.

Definition get_request (path : bytes) : request :=
  {| rq_Method := str "GET"; rq_Path := path; rq_ContentLengthHeader := []; rq_ContentLength := 0; rq_Body := [];
     rq_ContentType := []; rq_content_type := [] |}.

Lemma handler_bare_protocol_panics_witness :
  handler one_retrieve one_store decode_singleton (fun _ => None) None 1 true (get_request (str "/bzz:/")) = Panic.
Proof. apply handler_bare_protocol_panics; reflexivity. Defined.

Lemma handler_not_found_is_400_witness :
  handler one_retrieve one_store decode_singleton (fun _ => None) None 1 true (get_request (str "/bzz:/nothing/x"))
  = Ok (HttpError 400).
Proof.
  apply (handler_not_found_is_400 one_retrieve one_store decode_singleton None (fun _ => None) 1 true
           (get_request (str "/bzz:/nothing/x")) (str "/bzz:/") (str "nothing/x") (ErrManifest NotFound));
    [reflexivity|done|by left|reflexivity|vm_compute; reflexivity].
Defined.
