(* ===== verification/ApiProps.v ===== *)
(** Theorems of the content API on stored manifests: what [Modify] and [Get] do to the map of paths that the document under a key
    stands for. *)
From stdpp Require Import base gmap list strings.
From Stdlib Require Import ZArith Lia.
From S2P Require Import Prelude Types Manifest ManifestProps ManifestStore Api.

(** ** Regular paths *)

Lemma skip_slashes_noop c s : c <> slash -> skip_slashes (c :: s) = c :: s.
Proof. intros Hc. cbn. by destruct (Z.eqb_spec c slash). Qed.

Lemma break_slash_app a s : Forall (fun c => c <> slash) a -> break_slash (a ++ slash :: s) = Some (a, skip_slashes s).
Proof. induction 1 as [|c a Hc _ IH]; cbn; [done|]. destruct (Z.eqb_spec c slash); [done|]. by rewrite IH. Qed.

Lemma break_slash_none a : Forall (fun c => c <> slash) a -> break_slash a = None.
Proof. induction 1 as [|c a Hc _ IH]; cbn; [done|]. destruct (Z.eqb_spec c slash); [done|]. by rewrite IH. Qed.

Lemma components_noslashes p : Forall (Forall (fun c => c <> slash)) (components p).
Proof.
  induction p as [|c p IH]; cbn; [by repeat constructor|]. destruct (Z.eqb_spec c slash); [by repeat constructor|].
  destruct (components p) as [|h t]; [by repeat constructor|]. inversion_clear IH. by repeat constructor.
Qed.

Lemma proper_components_ok p : Forall (fun c : bytes => Forall (fun x => x <> slash) c /\ c <> []) (proper_components p).
Proof.
  apply Forall_forall. intros c [Hc Hin]%list_elem_of_filter. split; [|done]. pose proof (components_noslashes p) as H. rewrite Forall_forall in H. by apply H.
Qed.

(** A regular path behind a key is parsed into the two. *)
Lemma parse_key_path k path :
  key_ok k -> RegularSlashes path = path -> parse (Key_String k ++ slash :: path) = Some (Key_String k, path).
Proof.
  intros [Hl Hb] Hp. rewrite RegularSlashes_components in Hp. pose proof (proper_components_ok path) as HF.
  pose proof (Key_String_text k Hl Hb) as [_ Hne]. assert (Hns : Forall (fun c => c <> slash) (Key_String k)).
  { rewrite Key_String_hex by done. by apply hex_noslash, hex_encode_digits. }
  unfold parse. cbn [split_slashes]. rewrite break_slash_app by done. rewrite <- Hp.
  destruct (proper_components path) as [|c cs]; [|inversion_clear HF as [|? ? [Hc Hcn] HF']; destruct cs as [|c2 cs]].
  - cbn. by rewrite bool_decide_eq_false_2.
  - cbn [join]. replace (skip_slashes c) with c by (destruct c; [done|]; inversion_clear Hc; by rewrite skip_slashes_noop).
    rewrite break_slash_none by done. cbn. by rewrite bool_decide_eq_false_2.
  - change (join (c :: c2 :: cs)) with (c ++ slash :: join (c2 :: cs)).
    replace (skip_slashes (c ++ _)) with (c ++ slash :: join (c2 :: cs)) by (destruct c; [done|]; inversion_clear Hc; cbn [app]; by rewrite skip_slashes_noop).
    rewrite break_slash_app by done. inversion_clear HF' as [|? ? [Hc2 Hcn2] _].
    assert (exists d r, join (c2 :: cs) = d :: r /\ d <> slash) as (d & r & -> & Hd).
    { destruct c2 as [|d c2]; [done|]. inversion_clear Hc2. destruct cs; cbn; eauto. }
    rewrite skip_slashes_noop by done. cbn [skip_empty]. rewrite bool_decide_eq_false_2 by done. cbn [mbind option_bind join_parts].
    rewrite (bool_decide_eq_true_2 ([] = [])) by done. by rewrite bool_decide_eq_false_2.
Qed.

(** ** Stored manifests *)
Section Stored.
Context (Retrieve : Key -> LazySectionReader) (dpa_Store : bytes -> Z -> result merr Key) {HDS : DocStore Retrieve dpa_Store}.
Context (Unmarshal : bytes -> option (list manifestTrieEntry)) (Marshal : list manifestTrieEntry -> option bytes) {HMJ : ManifestJson Unmarshal Marshal}.
Context (dns : option (bytes -> Key * bool)) (f : nat).

Abbreviation load := (loadManifest Retrieve Unmarshal (S f)).

(** The document under [key] is a manifest that stands for the trie [T]. *)
Record manifest_at (key : Key) (T : manifestTrie) : Prop := {
  ma_key : key_ok key;
  ma_loaded : loaded T;
  ma_load : exists s, load key = Ok s /\ lazy load s T
}.

Lemma parseAndResolve_key k path b :
  key_ok k -> RegularSlashes path = path ->
  parseAndResolve dns (Key_String k ++ slash :: path) b = Some (k, Key_String k, path, None).
Proof using Type.
  intros Hk Hp. unfold parseAndResolve. rewrite parse_key_path by done. cbn [mbind option_bind]. destruct Hk. by rewrite Resolve_key.
Qed.

(** What is stored under the new key. *)
Lemma recalc_manifest t T t' k :
  lazy load t T -> loaded T -> recalcAndStore (fun m => dpa_Store m (#m)) Marshal t = Ok t' -> hash t' = Some k -> manifest_at k T.
Proof using HDS HMJ.
  intros Ht HT Hr Hk. pose proof (recalc_ok Retrieve dpa_Store Unmarshal Marshal f (height t) t T (le_n _) Ht HT) as Hok. rewrite Hr in Hok.
  destruct Hok as [(k' & Hk' & Hko) [Hlz _]]. assert (k' = k) as -> by congruence. inversion Hlz as [? ? _ _ _ Hh]; subst. destruct (Hh k Hk) as (_ & s & Hs & Hl). 
  split; [done|done|eauto].
Qed.

Lemma recalc_key t T t' :
  lazy load t T -> loaded T -> recalcAndStore (fun m => dpa_Store m (#m)) Marshal t = Ok t' -> exists k, hash t' = Some k.
Proof using HDS HMJ.
  intros Ht HT Hr. pose proof (recalc_ok Retrieve dpa_Store Unmarshal Marshal f (height t) t T (le_n _) Ht HT) as Hok. rewrite Hr in Hok.
  destruct Hok as [(k & Hk & _) _]. eauto.
Qed.

(** What has content is not a node. *)
Lemma has_type t q x : has t q x -> snd (fst x) <> manifestType.
Proof using Type. induction 1 as [t e _ Hm|]; [|done]. by apply bool_decide_eq_false in Hm. Qed.

(** The content that [Modify] is asked to put at a path; none is a removal. *)
Definition new_content (contentHash contentType : bytes) : option (bytes * bytes * Z) :=
  if bool_decide (contentHash = []) then None else Some (contentHash, contentType, 0).

(** The documents that a call of [Modify] hands to the document store, up to the first that it does not take. *)
Definition Modify_docs (uri contentHash contentType : bytes) (nameresolver : bool) : list bytes :=
  match parseAndResolve dns uri nameresolver with
  | None => []
  | Some (root, _, path, _) =>
    match (let! trie := load root in
           if bool_decide (contentHash = []) then deleteEntry load (S (length path)) trie path
           else addEntry' load trie (mkEntry path contentHash contentType 0 None)) with
    | Ok trie => recalc_docs dpa_Store Marshal trie
    | _ => []
    end
  end.

(** The trie is changed, whichever nodes have to be loaded for it. *)
Lemma modified s T path contentHash contentType :
  lazy load s T -> loaded T -> text path -> ~ inner T path -> text contentHash -> text contentType -> contentType <> manifestType ->
  exists t' T', (if bool_decide (contentHash = []) then deleteEntry load (S (length path)) s path
                 else addEntry' load s (mkEntry path contentHash contentType 0 None)) = Ok t' /\ lazy load t' T' /\ loaded T' /\
    forall q x, Forall is_byte q -> has T' q x <-> if decide (q = path) then new_content contentHash contentType = Some x else has T q x.
Proof using Type.
  intros Hlz HT Htp Hin Hth Htc Hct. unfold new_content. case_bool_decide as Hc.
  - destruct (deleteEntry_ok load (S (length path)) T path) as (T' & E & HT' & Hh); auto with manifests.
    pose proof (deleteEntry_lazy load (S (length path)) s T path Htp Hlz) as Hrel. rewrite E in Hrel.
    destruct (deleteEntry load (S (length path)) s path) as [t'| |]; try done. exists t', T'. split_and!; try done.
    intros q x Hq. rewrite (Hh q x Hq). case_decide; intuition congruence.
  - set (e := mkEntry path contentHash contentType 0 None). assert (Hm : is_manifest e = false) by (apply bool_decide_eq_false; done).
    destruct (addEntry_ok load (S (length path)) T e) as (T' & E & HT' & Hh); auto with manifests.
    pose proof (addEntry_lazy load (S (length path)) s T e e Hlz) as Hrel. rewrite E in Hrel.
    assert (Hee : entry_rel load (lazy load) e e) by (split; [done|split; [done|congruence]]). specialize (Hrel Hee). unfold addEntry'. change (Path e) with path.
    destruct (addEntry load (S (length path)) s e) as [t'| |]; try done. exists t', T'. split_and!; try done.
    intros q x Hq. rewrite (Hh q x Hq). change (Path e) with path. change (content e) with (contentHash, contentType, 0). case_decide; intuition congruence.
Qed.

(** C5: [Modify] of a stored manifest refines an update of the map of paths, for ASCII paths, hashes and types: it returns
    the key of a manifest in which the path has the new content - or none, for an empty hash - and every other path what
    it had, whichever nodes had to be loaded, split, merged and stored again for it; the path must be regular and not be the start of
    a node. It fails only if the document store refuses a manifest of this very call ([Modify_docs], the last of them, those before it taken), and then with the error of
    that refusal; it succeeds when all of them are taken. *)
Theorem Modify_updates key T path contentHash contentType b :
  manifest_at key T -> text path -> RegularSlashes path = path -> ~ inner T path ->
  text contentHash -> text contentType -> contentType <> manifestType ->
  let uri := Key_String key ++ slash :: path in
  let docs := Modify_docs uri contentHash contentType b in
  match Modify Retrieve dpa_Store Unmarshal Marshal dns (S f) uri contentHash contentType b with
  | Ok h => (exists key' T', h = Key_String key' /\ manifest_at key' T' /\
      forall q x, Forall is_byte q -> has T' q x <-> if decide (q = path) then new_content contentHash contentType = Some x else has T q x) /\
      Forall (taken dpa_Store) docs
  | Err (ErrManifest e) => refused dpa_Store (A := bytes) docs (Err e)
  | Err _ => False
  | Panic => refused dpa_Store (A := bytes) docs Panic
  end.
Proof using HDS HMJ.
  intros [Hk HT (s & Hs & Hlz)] Htp Hreg Hin Hth Htc Hct. cbv zeta. unfold Modify, Modify_docs. rewrite parseAndResolve_key by done. cbn [or_panic rbind]. rewrite Hs. cbn [rbind].
  destruct (modified s T path contentHash contentType) as (t' & T' & -> & Hlz' & HT' & Hh); try done. cbn [rbind].
  pose proof (recalc_ok Retrieve dpa_Store Unmarshal Marshal f (height t') t' T' (le_n _) Hlz' HT') as Hok.
  destruct (recalcAndStore _ _ t') as [t''|err|] eqn:Er; [|exact Hok..].
  destruct (recalc_key t' T' t'' Hlz' HT' Er) as [k Hkk]. split; [|apply Hok]. exists k, T'. rewrite Hkk. split_and!; [done|by eapply recalc_manifest|done].
Qed.

(** C10: [Get] of a path in a stored manifest ends and finds its content: for a path that has content, the reader
    of the document it names, its content type and its status, through however many manifests that are loaded on the way. *)
Theorem Get_finds key T path h ct st b :
  manifest_at key T -> RegularSlashes path = path -> Forall is_byte path -> has T path (h, ct, st) ->
  Get Retrieve Unmarshal dns (S f) (Key_String key ++ slash :: path) b = Ok (Retrieve (Hex2Bytes h), ct, st).
Proof using Type.
  intros [Hk HT (s & Hs & Hlz)] Hreg Hb Hhas. unfold Get. rewrite parseAndResolve_key by done. cbn [or_panic rbind]. rewrite Hs. unfold getEntry. rewrite Hreg.
  destruct (findPrefixOf_lazy load (S (length path)) s T path ltac:(lia) Hlz HT Hb) as (t' & found & Found & pos & -> & E & _ & Hf). cbn [rbind].
  destruct (findPrefixOf_ok load (S (length path)) T path ltac:(lia) HT Hb) as (F' & pos' & E' & _ & _ & Hexact).
  rewrite E in E'. injection E' as <- <-. destruct (Hexact _ Hhas) as (e & -> & Hc & _). inversion Hf as [e' ? He|]; subst.
  assert (Hm : is_manifest e = false) by (apply bool_decide_eq_false; unfold content in Hc; injection Hc as _ -> _; by apply (has_type _ _ _ Hhas)).
  pose proof (lze_content _ _ _ He Hm) as Hce. rewrite Hc in Hce. unfold content in Hce. by injection Hce as -> -> ->.
Qed.
End Stored.

(** ** A shelf of documents *)

(** A document store that takes a given list of documents, the key of each its place. *)
Definition shelf_key (i : nat) : Key := replicate 31 0 ++ [Z.of_nat i].

Definition shelf_store (docs : list bytes) (d : bytes) (size : Z) : result merr Key :=
  match list_find (fun d' => d' = d) docs with
  | Some (i, _) => if Nat.ltb i 256 then Ok (shelf_key i) else Err StoreError
  | None => Err StoreError
  end.

Definition shelf_retrieve (docs : list bytes) (k : Key) : LazySectionReader :=
  match docs !! Z.to_nat (default 0 (last k)) with
  | Some d => reader_of d
  | None => {| rd_Size := None; rd_Read _ := ([], 0, true) |}
  end.

#[export] Instance shelf_doc docs : DocStore (shelf_retrieve docs) (shelf_store docs).
Proof.
  assert (H : forall d k, shelf_store docs d (#d) = Ok k -> key_ok k /\ shelf_retrieve docs k = reader_of d).
  { intros d k. unfold shelf_store. destruct (list_find _ docs) as [[i d']|] eqn:E; [|done]. apply list_find_Some in E as (Hi & -> & _).
    destruct (Nat.ltb_spec i 256); [|done]. intros [= <-]. split.
    - split; [done|]. apply Forall_app. split; [by repeat constructor|]. repeat constructor; lia.
    - unfold shelf_retrieve, shelf_key. rewrite last_snoc. cbn [from_option id]. by rewrite Nat2Z.id, Hi. }
  split; intros d k [Hk Hr]%H; [exact Hk|]. rewrite Hr. apply reader_of_serves.
Qed.

(** An encoding of manifests as one number. *)
Definition entry_tuple (e : manifestTrieEntry) : bytes * bytes * bytes * Z := (Path e, Hash e, ContentType e, Status e).

Definition num_marshal (es : list manifestTrieEntry) : option bytes := Some [Z.pos (encode (entry_tuple <$> es))].

Definition num_unmarshal (m : bytes) : option (list manifestTrieEntry) :=
  match m with
  | [Z.pos p] => fmap (fun l : list (bytes * bytes * bytes * Z) => (fun '(p, h, ct, st) => mkEntry p h ct st None) <$> l) (decode p)
  | _ => None
  end.

#[export] Instance num_json : ManifestJson num_unmarshal num_marshal.
Proof.
  intros es _. eexists. split; [done|]. unfold num_unmarshal. rewrite decode_encode. cbn. f_equal. rewrite <- list_fmap_compose. done.
Qed.

Definition doc_of (es : list manifestTrieEntry) : bytes := default [] (num_marshal es).
Definition node_entry (p : bytes) (i : nat) : manifestTrieEntry := mkEntry p (Key_String (shelf_key i)) manifestType 0 None.

(** The manifests of two files below [a], and of three. *)
Definition two_docs : list bytes :=
  [doc_of [leaf (str "b"); leaf (str "c")]; doc_of [node_entry (str "a") 0];
   doc_of [leaf (str "b"); leaf (str "c"); mkEntry (str "d") (str "11") (str "text/css") 0 None]; doc_of [node_entry (str "a") 2]].

Abbreviation two_load := (loadManifest (shelf_retrieve two_docs) num_unmarshal 1).

Lemma leaf_rel p : text p -> entry_rel two_load (lazy two_load) (leaf p) (leaf p).
Proof. intros Hp. split; [|split; [done|done]]. split_and!; try done. by split; [|split; vm_compute; repeat constructor]. Qed.

Lemma two_files_lazy : lazy two_load two_files two_files.
Proof.
  assert (H1 : rrel (lazy two_load) (addEntry two_load 3 emptyTrie (leaf (str "ab"))) (addEntry two_load 3 emptyTrie (leaf (str "ab")))).
  { apply addEntry_lazy; [apply lazy_empty|]. apply leaf_rel. vm_compute. repeat constructor; done. }
  pose proof (addEntry_lazy two_load 3 (trie_of [str "ab"]) (trie_of [str "ab"]) (leaf (str "ac")) (leaf (str "ac")) H1) as H2. apply H2.
  apply leaf_rel. vm_compute. repeat constructor; done.
Qed.

Lemma two_files_at : manifest_at (shelf_retrieve two_docs) num_unmarshal 0 (shelf_key 1) two_files.
Proof.
  eapply (recalc_manifest (shelf_retrieve two_docs) (shelf_store two_docs) num_unmarshal num_marshal 0 two_files two_files);
    [apply two_files_lazy|apply two_files_loaded|vm_compute; reflexivity|reflexivity].
Qed.

(** The nodes of a trie, one level deep. *)
Definition check_slots (P : manifestTrieEntry -> bool) (t : manifestTrie) : bool :=
  forallb (fun o => match o with Some e => P e | None => true end) (entries t).

Lemma check_slots_ok P t i e : check_slots P t = true -> slot t i = Some e -> P e = true.
Proof.
  intros Hc Hs. unfold check_slots in Hc. rewrite forallb_forall in Hc. unfold slot in Hs. destruct (entries t !! i) as [o|] eqn:E; [|done].
  cbn in Hs. subst o. apply list_elem_of_lookup_2, list_elem_of_In in E. exact (Hc _ E).
Qed.

Lemma inner_one t p :
  check_slots (fun e => negb (is_manifest e) ||
    (bool_decide (Path e = p) && match subtrie e with Some s => check_slots (fun e => negb (is_manifest e)) s | None => true end)) t = true ->
  forall q, inner t q -> q = p.
Proof.
  intros Hc q Hi. destruct Hi as [t e Hs Hm|t e sub q Hs Hm Hsub Hi]; pose proof (check_slots_ok _ _ _ _ Hc Hs) as He; cbn in He; rewrite Hm in He;
    cbn in He; apply andb_true_iff in He as [He1 He2]; [by apply bool_decide_eq_true in He1|].
  rewrite Hsub in He2. destruct Hi as [t' e' Hs' Hm'|t' e' ? ? Hs' Hm']; pose proof (check_slots_ok _ _ _ _ He2 Hs') as Hk; cbn in Hk; by rewrite Hm' in Hk.
Qed.

(** A third file is put beside the two: the node of their prefix is loaded, changed and stored again. *)
Example Modify_docs_two :
  Modify_docs (shelf_retrieve two_docs) (shelf_store two_docs) num_unmarshal num_marshal None 0 (Key_String (shelf_key 1) ++ slash :: str "ad") (str "11") (str "text/css") true =
    drop 2 two_docs.
Proof. vm_compute. reflexivity. Qed.

Lemma Modify_updates_witness :
  let uri := Key_String (shelf_key 1) ++ slash :: str "ad" in
  let docs := Modify_docs (shelf_retrieve two_docs) (shelf_store two_docs) num_unmarshal num_marshal None 0 uri (str "11") (str "text/css") true in
  let r := Modify (shelf_retrieve two_docs) (shelf_store two_docs) num_unmarshal num_marshal None 1 uri (str "11") (str "text/css") true in
  r = Ok (Key_String (shelf_key 3)) /\
  match r with
  | Ok h => (exists key' T', h = Key_String key' /\ manifest_at (shelf_retrieve two_docs) num_unmarshal 0 key' T' /\
      forall q x, Forall is_byte q -> has T' q x <-> if decide (q = str "ad") then new_content (str "11") (str "text/css") = Some x else has two_files q x) /\
      Forall (taken (shelf_store two_docs)) docs
  | Err (ErrManifest e) => refused (shelf_store two_docs) (A := bytes) docs (Err e)
  | Err _ => False
  | Panic => refused (shelf_store two_docs) (A := bytes) docs Panic
  end.
Proof.
  split; [vm_compute; reflexivity|].
  apply (Modify_updates (shelf_retrieve two_docs) (shelf_store two_docs) num_unmarshal num_marshal None 0 (shelf_key 1) two_files (str "ad") (str "11") (str "text/css") true);
    [apply two_files_at|vm_compute; repeat constructor; done|reflexivity| |vm_compute; repeat constructor; done|vm_compute; repeat constructor; done|done].
  intros Hi. pose proof (inner_one two_files (str "a") ltac:(vm_compute; reflexivity) _ Hi). done.
Defined.

Lemma Get_finds_witness :
  Get (shelf_retrieve two_docs) num_unmarshal None 1 (Key_String (shelf_key 1) ++ slash :: str "ac") true =
    Ok (shelf_retrieve two_docs (Hex2Bytes (str "00")), str "text/plain", 0).
Proof.
  apply (Get_finds (shelf_retrieve two_docs) num_unmarshal None 0 (shelf_key 1) two_files (str "ac"));
    [apply two_files_at|reflexivity|repeat constructor; unfold is_byte; lia|].
  eapply (has_node two_files (default (leaf []) (slot two_files 97))); [reflexivity|reflexivity|reflexivity|].
  apply (has_leaf _ (leaf (str "c"))); reflexivity.
Defined.
