(* ===== verification/FileSystem.v ===== *)
(** Upload and download of directories ([livepeer/api/filesystem.go]).

    The local file system is a tree of files and directories below the root; a directory has its entries in the order
    in which [filepath.Walk] visits them, that of their names, and a file or directory that cannot be read has none. The part of
    [path/filepath] that the code uses is written out for Unix. The detection of content types is [DetectContentType], and the
    document store and the manifests are those of the content API.

    The files of an upload are stored by goroutines that touch only their own entry of the list: their results do not depend on
    the order. The goroutines of a download and the loop that starts them are the steps of a transition system. *)
From stdpp Require Import base gmap list strings.
From Stdlib Require Import ZArith Lia.
From S2P Require Import Prelude Types Manifest ManifestProps ManifestStore Api.

(** ** Paths *)

Definition dot : Z := 46.

(** The components of [filepath.Clean], those kept so far in reverse. *)
Fixpoint clean_loop (rooted : bool) (kept cs : list bytes) : list bytes :=
  match cs with
  | [] => rev kept
  | c :: cs =>
    if bool_decide (c = []) || bool_decide (c = [dot]) then clean_loop rooted kept cs
    else if bool_decide (c = [dot; dot]) then
      match kept with
      | top :: kept' => if bool_decide (top = [dot; dot]) then clean_loop rooted (c :: kept) cs else clean_loop rooted kept' cs
      | [] => clean_loop rooted (if rooted then [] else [c]) cs
      end
    else clean_loop rooted (c :: kept) cs
  end.

Definition IsAbs (path : bytes) : bool := match path with c :: _ => c =? slash | [] => false end.

Definition Clean (path : bytes) : bytes :=
  let cs := clean_loop (IsAbs path) [] (components path) in
  if IsAbs path then slash :: join cs
  else match cs with [] => [dot] | _ => join cs end.

Definition Abs (cwd path : bytes) : bytes := if IsAbs path then Clean path else Clean (cwd ++ slash :: path).

(** [path[:i+1]] up to the last slash, of the reversed path. *)
Fixpoint upto_slash (rpath : bytes) : bytes :=
  match rpath with [] => [] | c :: r => if c =? slash then rpath else upto_slash r end.

Definition Dir (path : bytes) : bytes := Clean (rev (upto_slash (rev path))).

Fixpoint ext_loop (rpath acc : bytes) : bytes :=
  match rpath with
  | [] => []
  | c :: r => if c =? slash then [] else if c =? dot then c :: acc else ext_loop r (c :: acc)
  end.

Definition Ext (path : bytes) : bytes := ext_loop (rev path) [].

(** [filepath.Join] of a clean path and a name. *)
Definition join_path (path name : bytes) : bytes := if bool_decide (path = [slash]) then slash :: name else path ++ slash :: name.

(** ** Files *)

#[warnings="-register-all"] Inductive fnode :=
| File (data : option bytes)
| Directory (names : option (list (bytes * fnode))).

Definition IsDir (n : fnode) : bool := match n with Directory _ => true | File _ => false end.

Fixpoint find_name (name : bytes) (es : list (bytes * fnode)) : option fnode :=
  match es with
  | [] => None
  | (n, t) :: es => if bool_decide (n = name) then Some t else find_name name es
  end.

Fixpoint node_at (n : fnode) (cs : list bytes) : option fnode :=
  match cs with
  | [] => Some n
  | c :: cs =>
    match n with
    | Directory (Some es) => match find_name c es with Some t => node_at t cs | None => None end
    | _ => None
    end
  end.

(** [os.Open]. *)
Definition os_Open (root : fnode) (path : bytes) : option fnode :=
  match node_at root (proper_components path) with
  | Some (File None) | Some (Directory None) | None => None
  | Some n => Some n
  end.

Inductive fserr :=
| FsOpen | FsReadDir | FsShort | FsPrefix | FsStore (e : merr) | FsManifest (e : merr) | FsResolve (e : apierr) | FsMkdir | FsCreate.

Definition map_err {E E' A} (g : E -> E') (r : result E A) : result E' A :=
  match r with Ok a => Ok a | Err e => Err (g e) | Panic => Panic end.

Definition walk_fn : Type := bytes -> bool -> option fserr -> list bytes -> result fserr (list bytes).

(** [filepath.Walk] from a path on, with the list that the callback extends. *)
Fixpoint walk (fn : walk_fn) (path : bytes) (n : fnode) (l : list bytes) : result fserr (list bytes) :=
  let! l := fn path (IsDir n) None l in
  match n with
  | File _ => Ok l
  | Directory None => fn path true (Some FsReadDir) l
  | Directory (Some es) =>
    (fix visit (es : list (bytes * fnode)) (l : list bytes) : result fserr (list bytes) :=
       match es with
       | [] => Ok l
       | (name, t) :: es => let! l := walk fn (join_path path name) t l in visit es l
       end) es l
  end.

Section FileSystem.
Context (Retrieve : Key -> LazySectionReader) (dpa_Store : bytes -> Z -> result merr Key).
Context (Unmarshal : bytes -> option (list manifestTrieEntry)) (Marshal : list manifestTrieEntry -> option bytes).
Context (dns : option (bytes -> Key * bool)) (fuel : nat).
(** [http.DetectContentType]. *)
Context (DetectContentType : bytes -> bytes).
(** The local file system and the working directory. *)
Context (root : fnode) (cwd : bytes).

Abbreviation load := (loadManifest Retrieve Unmarshal fuel).

(** ** Upload *)

(** The callback of the walk: the files, whose paths go on from that of the directory. *)
Definition upload_visit (localpath : bytes) : walk_fn := fun path isDir err l =>
  match err with
  | Some e => Err e
  | None =>
    if isDir then Ok l
    else
      let start := length localpath in
      if Nat.leb (length path) start then Err FsShort
      else if negb (bool_decide (take start path = localpath)) then Err FsPrefix
      else Ok (l ++ [path])
  end.

(** The files to be stored and where their paths in the manifest start. *)
Definition upload_list (localpath : bytes) : result fserr (list bytes * nat) :=
  match os_Open root localpath with
  | None => Err FsOpen
  | Some n =>
    if IsDir n then let! l := walk (upload_visit localpath) localpath n [] in Ok (l, length localpath)
    else
      let dir := Dir localpath in
      let start := length dir in
      if Nat.leb (length localpath) start then Err FsShort
      else if negb (bool_decide (take start localpath = dir)) then Err FsPrefix
      else Ok ([localpath], start)
  end.

Definition file_type (path data : bytes) : bytes :=
  let first512 := take 512 data in
  if bool_decide (first512 = []) then []
  else if bool_decide (Ext path = str ".css") then str "text/css" else DetectContentType first512.

(** The goroutine of a file: its entry and its error. *)
Definition upload_file (path : bytes) : result fserr (manifestTrieEntry * option fserr) :=
  match os_Open root path with
  | Some (File (Some data)) =>
    match dpa_Store data (#data) with
    | Ok hash => Ok (mkEntry path (Key_String hash) (file_type path data) 0 None, None)
    | Err e => Ok (mkEntry path [] [] 0 None, Some (FsStore e))
    | Panic => Panic
    end
  | _ => Ok (mkEntry path [] [] 0 None, Some FsOpen)
  end.

Fixpoint upload_files (paths : list bytes) : result fserr (list (manifestTrieEntry * option fserr)) :=
  match paths with
  | [] => Ok []
  | p :: ps => let! r := upload_file p in let! rs := upload_files ps in Ok (r :: rs)
  end.

(** The loop that adds the entries to the trie. *)
Fixpoint upload_trie (start : nat) (index : bytes) (trie : manifestTrie) (l : list (manifestTrieEntry * option fserr)) : result fserr manifestTrie :=
  match l with
  | [] => Ok trie
  | (_, Some err) :: _ => Err err
  | (entry, None) :: l =>
    let entry := with_Path (RegularSlashes (drop start (Path entry))) entry in
    let! trie := (if bool_decide (Path entry = index)
                  then map_err FsManifest (addEntry' load trie (mkEntry [] (Hash entry) (ContentType entry) 0 None)) else Ok trie) in
    let! trie := map_err FsManifest (addEntry' load trie entry) in
    upload_trie start index trie l
  end.

Definition Upload (lpath index : bytes) : result fserr bytes :=
  let localpath := Abs cwd (Clean lpath) in
  let! '(list, start) := upload_list localpath in
  let! list := upload_files list in
  let! trie := upload_trie start index emptyTrie list in
  let! trie := map_err FsManifest (recalcAndStore (fun m => dpa_Store m (#m)) Marshal trie) in
  Ok (match hash trie with Some k => Key_String k | None => Key_String [] end).

(** ** Download *)

Record downloadListEntry := mkDownload { dl_key : Key; dl_path : bytes }.

(** The callback of the listing, call by call; [mkdir] says which directories can be made and [mde] whether the last of
    them was. *)
Fixpoint download_list (mkdir : bytes -> bool) (lpath prevPath : bytes) (mde : bool) (calls : list (manifestTrieEntry * bytes)) : list downloadListEntry :=
  match calls with
  | [] => []
  | (entry, suffix) :: calls =>
    let key := Hex2Bytes (Hash entry) in
    let path := lpath ++ slash :: suffix in
    let dir := Dir path in
    let mde := if negb (bool_decide (dir = prevPath)) then mkdir dir else mde in
    let rest := download_list mkdir lpath dir mde calls in
    if mde && negb (bool_decide (path = dir ++ [slash])) then mkDownload key path :: rest else rest
  end.

(** [Download] until its files are created: the list of them. *)
Definition download_prepare (mkdir : bytes -> bool) (bzzpath localpath : bytes) : result fserr (list downloadListEntry) :=
  let lpath := Abs cwd (Clean localpath) in
  if negb (mkdir lpath) then Err FsMkdir
  else
    let! '(key, _, path, err) := or_panic (parseAndResolve dns bzzpath true) in
    match err with
    | Some e => Err (FsResolve e)
    | None =>
      let path := match path with [] => [] | _ => path ++ [slash] end in
      let! trie := map_err FsManifest (load key) in
      let! '(_, calls, _, err) := map_err FsManifest (listWithPrefix load fuel trie path None) in
      match err with
      | Some e => Err (FsManifest e)
      | None => Ok (download_list mkdir lpath lpath true calls)
      end
    end.

(** What is written to a created file: the errors of [Size] and [CopyN] go to a variable of their own block and are lost. *)
Definition file_contents (key : Key) : bytes :=
  let reader := Retrieve key in
  match rd_Size reader with
  | None => []
  | Some size => if size <=? 0 then [] else let '(data, n, _) := rd_Read reader size in take (Z.to_nat n) data
  end.

Definition maxParallelFiles : nat := 5.

(** The loop and its goroutines: the entries it has not started, the tokens in [done], the goroutines that run and those that wait to
    send their error, the files written, and what was returned. *)
Record download_state := mkDl {
  todo : list downloadListEntry;
  tokens : nat;
  running : list downloadListEntry;
  blocked : list downloadListEntry;
  written : list (bytes * bytes);
  returned : option (option fserr)
}.

Definition download_start (l : list downloadListEntry) : download_state :=
  {| todo := l; tokens := 0; running := []; blocked := []; written := []; returned := None |}.

Section Steps.
(** The files that can be created. *)
Context (create : bytes -> bool).

Inductive download_step : download_state -> download_state -> Prop :=
| dl_spawn e es n r bl w :
    (n < maxParallelFiles)%nat -> download_step (mkDl (e :: es) n r bl w None) (mkDl es (S n) (r ++ [e]) bl w None)
| dl_write es n l1 e l2 bl w ret :
    create (dl_path e) = true ->
    download_step (mkDl es n (l1 ++ e :: l2) bl w ret) (mkDl es (Nat.pred n) (l1 ++ l2) bl (w ++ [(dl_path e, file_contents (dl_key e))]) ret)
| dl_fail es n l1 e l2 bl w ret :
    create (dl_path e) = false -> download_step (mkDl es n (l1 ++ e :: l2) bl w ret) (mkDl es n (l1 ++ l2) (bl ++ [e]) w ret)
| dl_error n r l1 e l2 w :
    download_step (mkDl [] n r (l1 ++ e :: l2) w None) (mkDl [] n r (l1 ++ l2) w (Some (Some FsCreate)))
| dl_done n w : download_step (mkDl [] n [] [] w None) (mkDl [] n [] [] w (Some None)).
End Steps.
End FileSystem.
