(* ===== verification/FileProps.v ===== *)
(** Theorems of uploads and downloads: a directory becomes a manifest that stands for its files, a download of that manifest
    creates the same files, and the goroutines of a download end or block for ever. *)
From stdpp Require Import base gmap list sorting strings.
From Stdlib Require Import ZArith Lia.
From S2P Require Import Prelude Types Manifest ManifestProps ManifestStore Api ApiProps FileSystem.

(** ** Paths *)

Definition noslash (c : bytes) : Prop := Forall (fun x => x <> slash) c.

Record ok_name (c : bytes) : Prop := { on_noslash : noslash c; on_nonempty : c <> []; on_text : text c }.

Lemma components_split a b : components (a ++ slash :: b) = components a ++ components b.
Proof.
  induction a as [|c a IH]; [done|]. cbn [components app]. destruct (c =? slash); [by rewrite IH|]. rewrite IH.
  destruct (components_cons a) as (h & t & ->). done.
Qed.

Lemma pc_split a b : proper_components (a ++ slash :: b) = proper_components a ++ proper_components b.
Proof. unfold proper_components. by rewrite components_split, filter_app. Qed.

Definition slashed (cs : list bytes) : bytes := concat (map (cons slash) cs).

Lemma pc_slashed cs : Forall ok_name cs -> proper_components (slashed cs) = cs.
Proof.
  intros HF. enough (H : forall a, proper_components (a ++ slashed cs) = proper_components a ++ cs) by (apply (H [])).
  induction HF as [|c cs [Hn He _] _ IH]; intros a; [by rewrite !app_nil_r|].
  change (slashed (c :: cs)) with (slash :: c ++ slashed cs). rewrite pc_split, IH, (pc_noslash c) by done. done.
Qed.

Lemma pc_join cs : Forall ok_name cs -> proper_components (join cs) = cs.
Proof.
  induction 1 as [|c cs [Hn He _] _ IH]; [done|]. destruct cs as [|c2 cs]; [by apply pc_noslash|].
  change (join (c :: c2 :: cs)) with (c ++ slash :: join (c2 :: cs)). rewrite pc_split, IH, (pc_noslash c) by done. done.
Qed.

Lemma slashed_join c cs : slashed (c :: cs) = slash :: join (c :: cs).
Proof.
  revert c. induction cs as [|c2 cs IH]; intros c; [unfold slashed; cbn; by rewrite app_nil_r|].
  change (slashed (c :: c2 :: cs)) with (slash :: c ++ slashed (c2 :: cs)). by rewrite IH.
Qed.

Lemma join_nonempty cs : Forall ok_name cs -> cs <> [] -> join cs <> [].
Proof. intros HF Hne E. pose proof (pc_join cs HF) as H. rewrite E in H. by subst cs. Qed.

Lemma join_text cs : Forall ok_name cs -> text (join cs).
Proof.
  induction 1 as [|c cs [_ _ Ht] _ IH]; [constructor|]. destruct cs as [|c2 cs]; [done|].
  change (join (c :: c2 :: cs)) with (c ++ slash :: join (c2 :: cs)). apply text_app. split; [done|]. constructor; [unfold slash; lia|done].
Qed.

Lemma RegularSlashes_join cs : Forall ok_name cs -> RegularSlashes (join cs) = join cs.
Proof. intros HF. by rewrite RegularSlashes_components, pc_join. Qed.

(** The path of the names [cs] below [path], as the walk makes it. *)
Definition path_of (path : bytes) (cs : list bytes) : bytes := foldl join_path path cs.

Definition base (path : bytes) : bytes := if bool_decide (path = [slash]) then [] else path.

Lemma path_of_eq path cs : Forall ok_name cs -> cs <> [] -> path_of path cs = base path ++ slashed cs.
Proof.
  intros HF. revert path. induction HF as [|c cs [Hn He Ht] HF IH]; intros path Hne; [done|]. cbn [path_of foldl]. fold (path_of (join_path path c) cs).
  assert (Hj : join_path path c = base path ++ slash :: c) by (unfold join_path, base; by case_bool_decide).
  destruct cs as [|c2 cs]; [cbn; rewrite Hj; unfold slashed; cbn; by rewrite app_nil_r|].
  rewrite IH by done. unfold base at 1. rewrite bool_decide_eq_false_2.
  - rewrite Hj. change (slashed (c :: c2 :: cs)) with (slash :: c ++ slashed (c2 :: cs)). by rewrite <- app_assoc.
  - rewrite Hj. intros E. apply (f_equal length) in E. rewrite length_app in E. destruct c; [done|]. cbn in E. lia.
Qed.

(** The path in the manifest. *)
Lemma path_of_regular path cs :
  Forall ok_name cs -> cs <> [] -> RegularSlashes (drop (length path) (path_of path cs)) = join cs.
Proof.
  intros HF Hne. rewrite path_of_eq, RegularSlashes_components by done. f_equal. unfold base. case_bool_decide as Hp.
  - subst path. destruct cs as [|c cs]; [done|]. rewrite slashed_join. cbn [length app drop]. by apply pc_join.
  - rewrite drop_app_length. by apply pc_slashed.
Qed.

Lemma path_of_components path cs :
  Forall ok_name cs -> cs <> [] -> proper_components (path_of path cs) = proper_components path ++ cs.
Proof.
  intros HF Hne. rewrite path_of_eq by done. destruct cs as [|c cs]; [done|]. rewrite slashed_join, pc_split, pc_join by done. f_equal.
  unfold base. case_bool_decide as Hp; [by subst|done].
Qed.

(** ** Trees of files *)

Section Ind.
Context (P : fnode -> Prop) (Hf : forall d, P (File d)) (Hn : P (Directory None)).
Context (Hd : forall es, Forall (fun nt => P (snd nt)) es -> P (Directory (Some es))).

Fixpoint fnode_ind' (n : fnode) : P n :=
  match n with
  | File d => Hf d
  | Directory None => Hn
  | Directory (Some es) =>
    Hd es ((fix go (es : list (bytes * fnode)) : Forall (fun nt => P (snd nt)) es :=
              match es with [] => Forall_nil_2 _ | (name, t) :: es => Forall_cons_2 _ (name, t) es (fnode_ind' t) (go es) end) es)
  end.
End Ind.

(** The files of a tree with the names that lead to them, in the order of the walk. *)
Fixpoint files_of (n : fnode) : list (list bytes * option bytes) :=
  match n with
  | File d => [([], d)]
  | Directory None => []
  | Directory (Some es) =>
    (fix go (es : list (bytes * fnode)) : list (list bytes * option bytes) :=
       match es with
       | [] => []
       | (name, t) :: es => ((fun cd => (name :: fst cd, snd cd)) <$> files_of t) ++ go es
       end) es
  end.

(** The order of names. *)
Fixpoint lex_lt (a b : bytes) : bool :=
  match a, b with
  | _, [] => false
  | [], _ => true
  | x :: a, y :: b => (x <? y) || ((x =? y) && lex_lt a b)
  end.

(** Names that are sorted, and all files and directories readable. *)
Fixpoint tree_ok (n : fnode) : Prop :=
  match n with
  | File d => d <> None
  | Directory None => False
  | Directory (Some es) =>
    StronglySorted (fun a b => lex_lt a b = true) (fst <$> es) /\
    (fix go (es : list (bytes * fnode)) : Prop :=
       match es with [] => True | (name, t) :: es => ok_name name /\ tree_ok t /\ go es end) es
  end.

Lemma tree_ok_dir es :
  tree_ok (Directory (Some es)) <->
  StronglySorted (fun a b => lex_lt a b = true) (fst <$> es) /\ Forall (fun nt => ok_name (fst nt) /\ tree_ok (snd nt)) es.
Proof.
  cbn [tree_ok]. apply and_iff_compat_l. induction es as [|[name t] es IH]; [by split|]. rewrite IH, Forall_cons. cbn. tauto.
Qed.

Lemma files_of_dir name t es :
  files_of (Directory (Some ((name, t) :: es))) = ((fun cd => (name :: fst cd, snd cd)) <$> files_of t) ++ files_of (Directory (Some es)).
Proof. done. Qed.

Lemma files_of_names n : tree_ok n -> Forall (fun cd => Forall ok_name (fst cd) /\ snd cd <> None) (files_of n).
Proof.
  induction n as [d| |es IH] using fnode_ind'; intros Hok; [by repeat constructor|done|]. apply tree_ok_dir in Hok as [_ HF].
  induction es as [|[name t] es IHes]; [constructor|]. rewrite files_of_dir. inversion_clear IH as [|? ? Ht IH']. inversion_clear HF as [|? ? [Hname Htok] HF'].
  apply Forall_app. split; [|by apply IHes]. apply Forall_fmap. eapply Forall_impl; [by apply Ht|]. intros [cs d] [? ?]. split; [by constructor|done].
Qed.

(** The files of a directory are below it. *)
Lemma files_of_below es : Forall (fun cd => fst cd <> []) (files_of (Directory (Some es))).
Proof. induction es as [|[name t] es IH]; [constructor|]. rewrite files_of_dir. apply Forall_app. split; [|done]. apply Forall_fmap, Forall_true. by intros. Qed.

Lemma node_at_app n a b : node_at n (a ++ b) = match node_at n a with Some m => node_at m b | None => None end.
Proof. revert n. induction a as [|c a IH]; intros n; [done|]. cbn. destruct n as [|[es|]]; try done. destruct (find_name c es); [apply IH|done]. Qed.

Lemma lex_irrefl a : lex_lt a a = false.
Proof. induction a as [|x a IH]; [done|]. cbn. by rewrite Z.ltb_irrefl, Z.eqb_refl, IH. Qed.

Lemma files_of_open n cs d : tree_ok n -> (cs, d) ∈ files_of n -> node_at n cs = Some (File d).
Proof.
  revert cs. induction n as [d'| |es IH] using fnode_ind'; intros cs Hok Hin; [by apply list_elem_of_singleton in Hin as [= -> ->]|done|].
  apply tree_ok_dir in Hok as [Hs HF]. induction es as [|[name t] es IHes]; [by apply not_elem_of_nil in Hin|]. rewrite files_of_dir in Hin.
  inversion_clear IH as [|? ? Ht IH']. inversion_clear HF as [|? ? [Hname Htok] HF']. inversion_clear Hs as [|? ? Hs' Hlt].
  apply elem_of_app in Hin as [Hin|Hin].
  - apply list_elem_of_fmap in Hin as ([cs' d'] & [= -> ->] & Hin). cbn. rewrite bool_decide_eq_true_2 by done. by apply Ht.
  - specialize (IHes IH' Hs' HF' Hin). pose proof (proj1 (Forall_forall _ _) (files_of_below es) _ Hin) as Hne. cbn in Hne.
    destruct cs as [|c cs]; [done|]. cbn in IHes |- *. case_bool_decide as Hc; [|done]. subst c. exfalso.
    destruct (find_name name es) as [t'|] eqn:Ef; [|done]. clear - Ef Hlt.
    induction es as [|[m t2] es IH]; [done|]. cbn in Ef. inversion_clear Hlt as [|? ? H1 H2]. case_bool_decide; [subst m; by rewrite lex_irrefl in H1|by apply IH].
Qed.

(** ** The walk *)

Lemma join_path_prefix lp path c :
  lp `prefix_of` path -> c <> [] -> lp `prefix_of` join_path path c /\ (length lp < length (join_path path c))%nat.
Proof.
  intros [r ->] Hc. unfold join_path. case_bool_decide as Hs.
  - rewrite <- (app_nil_r [slash]) in Hs. destruct lp as [|x lp]; [split; [apply prefix_nil|cbn; lia]|].
    injection Hs as -> Hlp. apply app_eq_nil in Hlp as [-> ->]. split; [apply prefix_cons, prefix_nil|destruct c; [done|cbn; lia]].
  - split; [by do 2 apply prefix_app_r|]. rewrite !length_app. destruct c; [done|cbn; lia].
Qed.

Lemma visit_file lp path l :
  lp `prefix_of` path -> (length lp < length path)%nat -> upload_visit lp path false None l = Ok (l ++ [path]).
Proof.
  intros [r ->] Hlen. unfold upload_visit. destruct (Nat.leb_spec (length (lp ++ r)) (length lp)); [lia|].
  by rewrite take_app_length, bool_decide_eq_true_2.
Qed.

Lemma walk_files lp n : forall path l,
  tree_ok n -> lp `prefix_of` path -> (IsDir n = false -> (length lp < length path)%nat) ->
  walk (upload_visit lp) path n l = Ok (l ++ ((fun cd => path_of path (fst cd)) <$> files_of n)).
Proof.
  induction n as [d| |es IH] using fnode_ind'; intros path l Hok Hp Hlen; [|done|].
  - cbn [walk IsDir]. by rewrite visit_file by auto.
  - apply tree_ok_dir in Hok as [_ HF]. cbn [walk IsDir]. change (upload_visit lp path true None l) with (Ok l : result fserr (list bytes)). cbn [rbind].
    revert l. induction es as [|[name t] es IHes]; intros l; [by rewrite app_nil_r|].
    inversion_clear IH as [|? ? Ht IH']. inversion_clear HF as [|? ? [Hname Htok] HF']. cbn [fst snd] in *.
    destruct (join_path_prefix lp path name Hp (on_nonempty _ Hname)) as [Hp' Hl']. rewrite Ht by done. cbn [rbind]. rewrite IHes by done.
    rewrite files_of_dir, fmap_app, <- list_fmap_compose, app_assoc. done.
Qed.

(** No file comes before one whose path its own extends. *)
Lemma prefix_lex n1 n2 : n2 `prefix_of` n1 -> lex_lt n1 n2 = false.
Proof.
  intros [r ->]. induction n2 as [|x n2 IH]; [by destruct r|]. cbn. by rewrite Z.ltb_irrefl, Z.eqb_refl, IH.
Qed.

(** Two names followed by nothing or a slash. *)
Lemma name_prefix n1 n2 s1 s2 :
  noslash n1 -> noslash n2 -> (s1 = [] \/ exists r, s1 = slash :: r) -> (s2 = [] \/ exists r, s2 = slash :: r) ->
  n2 ++ s2 `prefix_of` n1 ++ s1 -> n2 `prefix_of` n1.
Proof.
  intros H1 H2 Hs1 Hs2. revert n1 H1. induction H2 as [|x n2 Hx _ IH]; intros n1 H1 [r Hr]; [apply prefix_nil|]. cbn in Hr. destruct H1 as [|y n1 Hy H1].
  - cbn in Hr. destruct Hs1 as [-> |(r1 & ->)]; [done|]. injection Hr as <- _. done.
  - injection Hr as -> Hr. apply prefix_cons, IH; [done|]. by exists r.
Qed.

Lemma join_tail c cs : exists s, join (c :: cs) = c ++ s /\ (s = [] \/ exists r, s = slash :: r).
Proof.
  destruct cs as [|c2 cs]; [exists []; rewrite app_nil_r; by auto|]. exists (slash :: join (c2 :: cs)). eauto.
Qed.

Definition unextended (p q : bytes) : Prop := ~ q `prefix_of` p.

Lemma unextended_below name cs cs' : unextended (join cs) (join cs') -> unextended (join (name :: cs)) (join (name :: cs')).
Proof.
  intros Hu Hp. destruct cs' as [|c' cs']; [apply Hu; apply prefix_nil|]. change (join (name :: c' :: cs')) with (name ++ slash :: join (c' :: cs')) in Hp.
  destruct cs as [|c cs].
  - apply prefix_length in Hp. rewrite length_app in Hp. cbn [join length] in Hp. lia.
  - change (join (name :: c :: cs)) with (name ++ slash :: join (c :: cs)) in Hp. by apply prefix_app_inv, prefix_cons_inv_2 in Hp.
Qed.

Lemma files_head es cd : cd ∈ files_of (Directory (Some es)) -> exists name cs, fst cd = name :: cs /\ name ∈ es.*1.
Proof.
  induction es as [|[name t] es IH]; [by intros ?%not_elem_of_nil|]. rewrite files_of_dir. intros [Hin|Hin]%elem_of_app.
  - apply list_elem_of_fmap in Hin as ([cs d] & -> & _). exists name, cs. split; [done|]. by left.
  - destruct (IH Hin) as (m & cs & ? & ?). exists m, cs. split; [done|]. by right.
Qed.

Lemma files_order n :
  tree_ok n -> StronglySorted (fun cd cd' => unextended (join (fst cd)) (join (fst cd'))) (files_of n).
Proof.
  induction n as [d| |es IH] using fnode_ind'; intros Hok; [by repeat constructor|done|]. apply tree_ok_dir in Hok as [Hs HF].
  induction es as [|[name t] es IHes]; [constructor|]. inversion_clear IH as [|? ? Ht IH']. inversion_clear HF as [|? ? [Hname Htok] HF']. inversion_clear Hs as [|? ? Hs' Hlt].
  cbn [fst snd] in *. rewrite files_of_dir. apply StronglySorted_app_2; [|eapply StronglySorted_fmap; [|by apply Ht]; cbn; intros; by apply unextended_below|by apply IHes].
  intros cd cd' ([cs d] & -> & _)%list_elem_of_fmap (m & cs' & Hcd' & Hm)%files_head Hp. rewrite Hcd' in Hp. cbn [fst] in Hp.
  destruct (join_tail name cs) as (s1 & E1 & Hs1). destruct (join_tail m cs') as (s2 & E2 & Hs2). rewrite E1, E2 in Hp.
  rewrite Forall_forall in Hlt. specialize (Hlt m Hm). assert (Hmn : noslash m).
  { apply list_elem_of_fmap in Hm as ([m' t'] & -> & Hm). rewrite Forall_forall in HF'. apply (HF' _ Hm). }
  rewrite (prefix_lex name m) in Hlt; [done|]. by eapply (name_prefix name m s1 s2); [apply Hname|..].
Qed.

(** ** Uploads *)

Section Upload.
Context (Retrieve : Key -> LazySectionReader) (dpa_Store : bytes -> Z -> result merr Key) {HDS : DocStore Retrieve dpa_Store}.
Context (Unmarshal : bytes -> option (list manifestTrieEntry)) (Marshal : list manifestTrieEntry -> option bytes) {HMJ : ManifestJson Unmarshal Marshal}.
Context (dns : option (bytes -> Key * bool)) (f : nat) (DetectContentType : bytes -> bytes).
(** Detected content types are text and not that of manifests. *)
Context (Htypes : forall d, text (DetectContentType d) /\ DetectContentType d <> manifestType).
Context (root : fnode) (cwd : bytes).

Abbreviation load := (loadManifest Retrieve Unmarshal (S f)).
Abbreviation ftype := (file_type DetectContentType).

Lemma ftype_ok path d : text (ftype path d) /\ ftype path d <> manifestType.
Proof using Htypes.
  unfold file_type. case_bool_decide; [split; [constructor|done]|]. case_bool_decide; [|apply Htypes]. split; [vm_compute; repeat constructor; done|done].
Qed.

(** A trie that is built up from the empty one. *)
Record built (t T : manifestTrie) : Prop := { bu_lazy : lazy load t T; bu_loaded : loaded T; bu_branching : branching T }.

Lemma built_empty : built emptyTrie emptyTrie.
Proof using Type. split; [apply lazy_empty|apply emptyTrie_loaded|apply branching_empty]. Qed.

Lemma built_add t T e :
  built t T -> plain e -> Hash e <> [] -> is_manifest e = false -> ~ inner T (Path e) ->
  exists t' T', addEntry' load t e = Ok t' /\ built t' T' /\
    forall q x, Forall is_byte q -> has T' q x <-> (q = Path e /\ x = content e) \/ (q <> Path e /\ has T q x).
Proof using Type.
  intros [Hlz HT Hb] Hpl Hh Hm Hin. pose proof Hpl as (Hp & _ & _). destruct (addEntry_ok load (S (length (Path e))) T e) as (T' & E & HT' & Hhas); auto with manifests.
  assert (Hee : entry_rel load (lazy load) e e) by (split; [done|split; [done|congruence]]).
  pose proof (addEntry_lazy load (S (length (Path e))) t T e e Hlz Hee) as Hrel. rewrite E in Hrel. unfold addEntry'.
  destruct (addEntry load _ t e) as [t'| |]; try done. exists t', T'. split_and!; [done| |done]. split; [done|done|].
  by eapply (addEntry_branching load _ T e T' E); auto with manifests.
Qed.

Lemma inner_nil t : loaded t -> ~ inner t [].
Proof using Type.
  intros HT Hi. inversion HT as [? _ Hslots]; subst. remember [] as p eqn:Ep. destruct Hi as [t e Hs Hm|t e sub q Hs Hm Hsub Hi].
  - destruct (Hslots _ _ Hs) as (_ & _ & Hme). destruct (Hme Hm) as [Hne _]. by apply Hne.
  - destruct (app_eq_nil _ _ Ep) as [Ep1 _]. destruct (Hslots _ _ Hs) as (_ & _ & Hme). destruct (Hme Hm) as [Hne _]. apply Hne. by rewrite Ep, Ep1.
Qed.

Section Directory.
Context (lp : bytes) (D : fnode).
Context (HD : node_at root (proper_components lp) = Some D) (Hok : tree_ok D).

(** What a file contributes to the manifest. *)
Definition file_content (cs : list bytes) (d : bytes) (k : Key) : bytes * bytes * Z := (Key_String k, ftype (path_of lp cs) d, 0).

Definition uploaded (files : list (list bytes * option bytes)) (q : bytes) (x : bytes * bytes * Z) : Prop :=
  exists cs d k, (cs, Some d) ∈ files /\ q = join cs /\ dpa_Store d (#d) = Ok k /\ x = file_content cs d k.

(** The outcome of the goroutine of a file. *)
Definition file_result (cd : list bytes * option bytes) (r : manifestTrieEntry * option fserr) : Prop :=
  exists d, snd cd = Some d /\
    match dpa_Store d (#d) with
    | Ok k => r = (mkEntry (path_of lp (fst cd)) (Key_String k) (ftype (path_of lp (fst cd)) d) 0 None, None)
    | Err err => exists e, r = (e, Some (FsStore err))
    | Panic => False
    end.

(** What becomes of an upload when the document store does not take the contents of one of the files. *)
Definition file_refused (files : list (list bytes * option bytes)) {A} (r : result fserr A) : Prop :=
  exists cs d, (cs, Some d) ∈ files /\
    match dpa_Store d (#d), r with
    | Err e, Err (FsStore e') => e = e'
    | Panic, Panic => True
    | _, _ => False
    end.

(** The contents of a file are stored. *)
Definition file_stored (cd : list bytes * option bytes) : Prop := exists d k, snd cd = Some d /\ dpa_Store d (#d) = Ok k.

Lemma upload_files_ok files :
  (forall cd, cd ∈ files -> cd ∈ files_of D /\ fst cd <> []) ->
  match upload_files dpa_Store DetectContentType root ((fun cd => path_of lp (fst cd)) <$> files) with
  | Ok rs => Forall2 file_result files rs
  | r => file_refused files r
  end.
Proof using HD Hok.
  induction files as [|[cs o] files IH]; intros Hin; [constructor|]. rewrite fmap_cons. cbn [upload_files fst].
  destruct (Hin (cs, o)) as [Hf Hne]; [by left|]. cbn in Hne. pose proof (proj1 (Forall_forall _ _) (files_of_names D Hok) _ Hf) as [Hn Ho]. cbn in Hn, Ho.
  destruct o as [d|]; [|done]. unfold upload_file, os_Open. rewrite path_of_components, node_at_app, HD, (files_of_open D cs (Some d)) by done.
  assert (IH' := IH (fun cd Hcd => Hin cd (list_elem_of_further _ _ _ Hcd))). 
  assert (Hmore : forall r : result fserr (list (manifestTrieEntry * option fserr)), file_refused files r -> file_refused ((cs, Some d) :: files) r)
    by (intros r (cs' & d' & Hc & Hd); exists cs', d'; split; [by right|done]).
  destruct (dpa_Store d (#d)) as [k|e|] eqn:Ek; cbn [rbind]; [| |by exists cs, d; rewrite Ek; split; [left|]];
    (destruct (upload_files _ _ _ _) as [rs| |]; cbn [rbind]; [|by apply Hmore..]; constructor; [|done]; exists d; split; [done|]; rewrite Ek; eauto).
Qed.

Section Index.
Context (index : bytes).

(** The map of the manifest: the files, and the index under the empty path. *)
Definition upload_map (files : list (list bytes * option bytes)) (q : bytes) (x : bytes * bytes * Z) : Prop :=
  uploaded files q x \/ (q = [] /\ uploaded files index x).

Definition names_ok (files : list (list bytes * option bytes)) : Prop := Forall (fun cd => Forall ok_name (fst cd) /\ fst cd <> []) files.

Lemma uploaded_snoc files cs d k q x :
  dpa_Store d (#d) = Ok k -> uploaded (files ++ [(cs, Some d)]) q x <-> uploaded files q x \/ (q = join cs /\ x = file_content cs d k).
Proof using Type.
  intros Hk. split.
  - intros (cs' & d' & k' & [Hin|Hin]%elem_of_app & -> & Hk' & ->); [left; by exists cs', d', k'|right].
    apply list_elem_of_singleton in Hin as [= -> ->]. split; [done|]. congruence.
  - intros [(cs' & d' & k' & Hin & ? & ? & ?)|[-> ->]]; [exists cs', d', k'|exists cs, d, k]; split_and!; try done; apply elem_of_app; [by left|right].
    by apply list_elem_of_singleton.
Qed.

Lemma uploaded_nonempty files x : names_ok files -> ~ uploaded files [] x.
Proof using Type.
  intros HF (cs & d & k & Hin & E & _). pose proof (proj1 (Forall_forall _ _) HF _ Hin) as [Hn Hne]. by apply (join_nonempty cs Hn Hne).
Qed.

(** The paths before do not go on from the new one. *)
Lemma uploaded_fresh files cs q x : Forall (fun cd => unextended (join (fst cd)) (join cs)) files -> join cs `prefix_of` q -> ~ uploaded files q x.
Proof using Type. intros HF Hp (cs' & d & k & Hin & -> & _). by apply (proj1 (Forall_forall _ _) HF _ Hin). Qed.

Lemma fresh_inner t T files cs :
  built t T -> (forall q x, Forall is_byte q -> has T q x <-> upload_map files q x) -> Forall ok_name cs ->
  Forall (fun cd => unextended (join (fst cd)) (join cs)) files -> ~ inner T (join cs).
Proof using Type.
  intros [_ HT Hb] Hmap Hn HF Hi. destruct (inner_extends T _ HT Hb Hi) as (r & x & Hr & Hbr & Hh).
  apply Hmap in Hh as [Hu|[E _]]; [|by apply app_eq_nil in E as [_ ?]|by apply Forall_app; split; [apply text_byte, join_text|]].
  eapply uploaded_fresh; [exact HF| |exact Hu]. by apply prefix_app_r.
Qed.

(** One round of the loop that adds the entries. *)
Lemma upload_step t T files cs d k l :
  names_ok (files ++ [(cs, Some d)]) -> Forall (fun cd => unextended (join (fst cd)) (join cs)) files -> dpa_Store d (#d) = Ok k ->
  built t T -> (forall q x, Forall is_byte q -> has T q x <-> upload_map files q x) ->
  exists t' T', upload_trie Retrieve Unmarshal (S f) (length lp) index t ((mkEntry (path_of lp cs) (Key_String k) (ftype (path_of lp cs) d) 0 None, None) :: l)
      = upload_trie Retrieve Unmarshal (S f) (length lp) index t' l /\
    built t' T' /\ forall q x, Forall is_byte q -> has T' q x <-> upload_map (files ++ [(cs, Some d)]) q x.
Proof using HDS Htypes.
  intros Hnames HF Hk Hb Hmap. apply Forall_app in Hnames as [Hnf Hnc]. inversion_clear Hnc as [|? ? [Hn Hne] _]. cbn [fst] in *.
  cbn [upload_trie with_Path Path Hash ContentType]. rewrite path_of_regular by done. set (ct := ftype (path_of lp cs) d).
  pose proof (join_text cs Hn) as Htj. pose proof (join_nonempty cs Hn Hne) as Hjn.
  destruct (ds_key _ _ Hk) as [Hk1 Hk2]. pose proof (Key_String_text k Hk1 Hk2) as [Htk Hnk]. destruct (ftype_ok (path_of lp cs) d) as [Htt Hnt]. fold ct in Htt, Hnt.
  assert (Hadd : forall t T p, built t T -> text p -> ~ inner T p -> exists t' T', addEntry' load t (mkEntry p (Key_String k) ct 0 None) = Ok t' /\ built t' T' /\
    forall q x, Forall is_byte q -> has T' q x <-> (q = p /\ x = file_content cs d k) \/ (q <> p /\ has T q x)).
  { intros t0 T0 p Hb0 Hp Hi. apply (built_add t0 T0 (mkEntry p (Key_String k) ct 0 None)); try done. by apply bool_decide_eq_false. }
  pose proof (fresh_inner t T files cs Hb Hmap Hn HF) as Hin.
  assert (Hfr : forall x, ~ uploaded files (join cs) x) by (intros x; by eapply uploaded_fresh).
  assert (Hnil : forall x, ~ uploaded files [] x) by (intros x; by apply uploaded_nonempty).
  case_bool_decide as Hidx.
  - destruct (Hadd t T [] Hb ltac:(constructor) (inner_nil T (bu_loaded _ _ Hb))) as (t1 & T1 & -> & Hb1 & Hm1). cbn [map_err rbind].
    assert (Hin1 : ~ inner T1 (join cs)).
    { intros Hi. destruct (inner_extends T1 _ (bu_loaded _ _ Hb1) (bu_branching _ _ Hb1) Hi) as (r & x & Hr & Hbr & Hh).
      apply Hm1 in Hh as [[E _]|[_ Hh]]; [by apply app_eq_nil in E as [_ ?]| |by apply Forall_app; split; [apply text_byte|]].
      apply Hmap in Hh as [Hu|[E _]]; [|by apply app_eq_nil in E as [_ ?]|by apply Forall_app; split; [apply text_byte|]].
      eapply uploaded_fresh; [exact HF| |exact Hu]. by apply prefix_app_r. }
    destruct (Hadd t1 T1 (join cs) Hb1 Htj Hin1) as (t2 & T2 & -> & Hb2 & Hm2). exists t2, T2. split_and!; [done|done|].
    intros q x Hq. rewrite (Hm2 q x Hq), (Hm1 q x Hq), (Hmap q x Hq). unfold upload_map. rewrite !(uploaded_snoc _ _ _ k) by done. rewrite <- Hidx.
    specialize (Hfr x). specialize (Hnil x). destruct (decide (q = [])) as [-> |]; [|destruct (decide (q = join cs)) as [-> |]]; intuition congruence.
  - cbn [rbind]. destruct (Hadd t T (join cs) Hb Htj Hin) as (t2 & T2 & -> & Hb2 & Hm2). exists t2, T2. split_and!; [done|done|].
    intros q x Hq. rewrite (Hm2 q x Hq), (Hmap q x Hq). unfold upload_map. rewrite !(uploaded_snoc _ _ _ k) by done.
    specialize (Hfr x). destruct (decide (q = join cs)) as [-> |]; intuition congruence.
Qed.

Lemma upload_trie_ok rest : forall dn rs t T,
  names_ok (dn ++ rest) -> StronglySorted (fun cd cd' => unextended (join (fst cd)) (join (fst cd'))) (dn ++ rest) -> Forall2 file_result rest rs ->
  built t T -> (forall q x, Forall is_byte q -> has T q x <-> upload_map dn q x) ->
  match upload_trie Retrieve Unmarshal (S f) (length lp) index t rs with
  | Ok t' => Forall file_stored rest /\ exists T', built t' T' /\ forall q x, Forall is_byte q -> has T' q x <-> upload_map (dn ++ rest) q x
  | r => file_refused rest r
  end.
Proof using HDS Htypes.
  induction rest as [|cd rest IH]; intros dn rs t T Hn Hs HF Hb Hmap; inversion_clear HF as [|? r ? rs' Hr HF'].
  { rewrite app_nil_r. cbn. split; [constructor|eauto]. }
  destruct cd as [cs o]. destruct Hr as (d & Ho & Hr). cbn in Ho. subst o. destruct (dpa_Store d (#d)) as [k|e|] eqn:Hk.
  - cbn [fst] in Hr. subst r. assert (Happ : dn ++ (cs, Some d) :: rest = (dn ++ [(cs, Some d)]) ++ rest) by (by rewrite <- app_assoc). rewrite Happ in *.
    destruct (upload_step t T dn cs d k rs') as (t' & T' & -> & Hb' & Hmap'); try done.
    + by apply Forall_app in Hn as [? _].
    + apply StronglySorted_app in Hs as (_ & Hs & _). apply StronglySorted_app in Hs as (Hs & _ & _). apply Forall_forall. intros cd Hcd.
      apply (Hs cd (cs, Some d) Hcd). by apply list_elem_of_singleton.
    + specialize (IH _ rs' t' T' Hn Hs HF' Hb' Hmap'). destruct (upload_trie _ _ _ _ _ _ _); [|destruct IH as (cs' & d' & Hc & Hd); exists cs', d'; by split; [right|]..].
      destruct IH as [IH1 IH2]. split; [|done]. constructor; [|done]. by exists d, k.
  - destruct Hr as (e' & ->). cbn. exists cs, d. rewrite Hk. split; [by left|done].
  - done.
Qed.
End Index.
End Directory.

Lemma upload_map_empty lp index q x : Forall is_byte q -> has emptyTrie q x <-> upload_map lp index [] q x.
Proof using Type.
  intros _. split.
  - intros (e & He & _)%has_unfold. by rewrite emptyTrie_slot in He.
  - intros [(cs & d & k & Hin & _)|[_ (cs & d & k & Hin & _)]]; by apply not_elem_of_nil in Hin.
Qed.

(** The manifests that an upload hands to the document store, up to the first that it does not take. *)
Definition Upload_docs (lpath index : bytes) : list bytes :=
  match (let! '(list, start) := upload_list root (Abs cwd (Clean lpath)) in
         let! list := upload_files dpa_Store DetectContentType root list in
         upload_trie Retrieve Unmarshal (S f) start index emptyTrie list) with
  | Ok trie => recalc_docs dpa_Store Marshal trie
  | _ => []
  end.

(** What an upload of the files [files] that fails goes back to: the contents of one of them, or one of its manifests. *)
Definition upload_refused (files : list (list bytes * option bytes)) (docs : list bytes) (r : result fserr bytes) : Prop :=
  file_refused files r \/
  Forall file_stored files /\ match r with
    | Err (FsManifest e) => refused dpa_Store (A := bytes) docs (Err e)
    | Panic => refused dpa_Store (A := bytes) docs Panic
    | _ => False
    end.

(** With the fact that its nodes have paths below them. *)
Lemma upload_ok lpath index es :
  let lp := Abs cwd (Clean lpath) in let D := Directory (Some es) in
  node_at root (proper_components lp) = Some D -> tree_ok D ->
  match Upload Retrieve dpa_Store Unmarshal Marshal (S f) DetectContentType root cwd lpath index with
  | Ok h => exists key T, h = Key_String key /\ manifest_at Retrieve Unmarshal f key T /\ branching T /\ Forall file_stored (files_of D) /\
      forall q x, Forall is_byte q -> has T q x <-> upload_map lp index (files_of D) q x
  | r => upload_refused (files_of D) (Upload_docs lpath index) r
  end.
Proof using HDS HMJ Htypes.
  intros lp D HD Hok. unfold Upload, Upload_docs. fold lp. unfold upload_list, os_Open. rewrite HD. subst D. cbn [IsDir].
  rewrite (walk_files lp (Directory (Some es)) lp []) by done. cbn [app rbind].
  pose proof (upload_files_ok lp (Directory (Some es)) HD Hok (files_of (Directory (Some es)))) as Hfiles.
  assert (Hne := files_of_below es). assert (Hnames := files_of_names _ Hok). rewrite Forall_forall in Hne, Hnames.
  specialize (Hfiles (fun cd Hcd => conj Hcd (Hne cd Hcd))).
  destruct (upload_files _ _ _ _) as [rs| |]; cbn [rbind]; [|by left..].
  pose proof (upload_trie_ok lp index (files_of (Directory (Some es))) [] rs emptyTrie emptyTrie) as Htrie. cbn [app] in Htrie.
  assert (Hno : names_ok (files_of (Directory (Some es)))) by (apply Forall_forall; intros cd Hcd; split; [apply (Hnames cd Hcd)|by apply Hne]).
  specialize (Htrie Hno (files_order _ Hok) Hfiles built_empty (upload_map_empty lp index)).
  destruct (upload_trie _ _ _ _ _ _ _) as [t| |]; cbn [rbind]; [|by left..]. destruct Htrie as (Hst & T & [Hlz HT Hbr] & Hmap).
  pose proof (recalc_ok Retrieve dpa_Store Unmarshal Marshal f (height t) t T (le_n _) Hlz HT) as Hr.
  destruct (recalcAndStore _ _ t) as [t'| |] eqn:Er; cbn [map_err rbind]; [|by right..].
  destruct Hr as [(k & Hk & _) _]. rewrite Hk. exists k, T. split_and!; [done|by eapply recalc_manifest|done|done|done].
Qed.

(** C8: An upload of a directory whose files can be read and have ASCII names gives the key of a manifest that
    stands for exactly the files of the directory, all of them stored: each under its path below the directory, with the key of its contents and its
    content type, and the index file under the empty path as well. It fails only if the document store refuses the contents of one of these files, or takes them all and refuses
    one of the manifests of this upload (the last of [Upload_docs], those before it taken), and then with the error of that refusal. *)
Theorem Upload_represents lpath index es :
  let lp := Abs cwd (Clean lpath) in let D := Directory (Some es) in
  node_at root (proper_components lp) = Some D -> tree_ok D ->
  match Upload Retrieve dpa_Store Unmarshal Marshal (S f) DetectContentType root cwd lpath index with
  | Ok h => exists key T, h = Key_String key /\ manifest_at Retrieve Unmarshal f key T /\ Forall file_stored (files_of D) /\
      forall q x, Forall is_byte q -> has T q x <-> upload_map lp index (files_of D) q x
  | r => upload_refused (files_of D) (Upload_docs lpath index) r
  end.
Proof using HDS HMJ Htypes.
  intros lp D HD Hok. pose proof (upload_ok lpath index es HD Hok) as H. destruct (Upload _ _ _ _ _ _ _ _ _ _); [|done|done].
  destruct H as (key & T & ? & ? & _ & ? & ?). by exists key, T.
Qed.
End Upload.
