(* ===== verification/FileDownload.v ===== *)
(** Theorems of downloads ([livepeer/api/filesystem.go]): the goroutines of [Download] end with all files written when all of them can be
    created and block for ever when too many cannot, and a download of an uploaded directory creates its files again. *)
From stdpp Require Import base gmap list sorting strings.
From Stdlib Require Import ZArith Lia.
From S2P Require Import Prelude Types Manifest ManifestProps ManifestStore Api ApiProps FileSystem FileProps.

(** ** The goroutines *)
Section Steps.
Context (Retrieve : Key -> LazySectionReader) (create : bytes -> bool).

Abbreviation step := (download_step Retrieve create).
Abbreviation output := (fun e => (dl_path e, file_contents Retrieve (dl_key e))).

(** Every step brings an entry forward. *)
Definition download_measure (s : download_state) : nat :=
  3 * length (todo s) + 2 * length (running s) + length (blocked s) + match returned s with None => 1 | Some _ => 0 end.

Lemma step_decreases s s' : step s s' -> (download_measure s' < download_measure s)%nat.
Proof using Type. destruct 1; unfold download_measure; cbn; rewrite ?length_app; cbn; rewrite ?length_app; cbn; lia. Qed.

Lemma steps_finite s : Acc (fun b a => step a b) s.
Proof using Type. exact (measure_finite _ _ step_decreases s). Qed.

(** With files that can all be created: the entries that were started run or are written. *)
Record writing (l : list downloadListEntry) (s : download_state) : Prop := {
  wi_blocked : blocked s = [];
  wi_tokens : tokens s = length (running s);
  wi_entries : exists wr, written s = output <$> wr /\ l ≡ₚ running s ++ wr ++ todo s;
  wi_returned : returned s = None \/ (returned s = Some None /\ todo s = [] /\ running s = [])
}.

Lemma writing_start l : writing l (download_start l).
Proof using Type. split; [done|done|by exists []|by left]. Qed.

Lemma writing_step l s s' : Forall (fun e => create (dl_path e) = true) l -> writing l s -> step s s' -> writing l s'.
Proof using Type.
  intros Hl [Hb Ht (wr & Hw & Hp) Hr] Hs. destruct Hs as [e es n r bl w Hn|es n l1 e l2 bl w ret Hc|es n l1 e l2 bl w ret Hc|n r l1 e l2 w|n w]; cbn in *.
  - split; cbn; [done|rewrite length_app; cbn; lia| |by left]. exists wr. split; [done|]. rewrite Hp. solve_Permutation.
  - split; cbn; [done|rewrite length_app in *; cbn in *; lia| |destruct Hr as [?|(_ & _ & E)]; [by left|by destruct l1]].
    exists (wr ++ [e]). split; [by rewrite fmap_app, Hw|]. rewrite Hp. solve_Permutation.
  - exfalso. rewrite Hp, !Forall_app, Forall_cons in Hl. destruct Hl as [(_ & He & _) _]. congruence.
  - by destruct l1.
  - split; cbn; [done|done|eauto|by right].
Qed.

Lemma download_complete l :
  Forall (fun e => create (dl_path e) = true) l ->
  forall s, rtc step (download_start l) s -> (forall s', ~ step s s') -> returned s = Some None /\ written s ≡ₚ output <$> l.
Proof using Type.
  intros Hl s Hreach Hstuck.
  assert (Hinv : writing l s) by (eapply rtc_keeps; [|exact Hreach|apply writing_start]; intros; by eapply writing_step).
  destruct Hinv as [Hb Ht (wr & Hw & Hp) Hr]. destruct s as [td tk rn bl w ret]. cbn in *. subst bl.
  destruct rn as [|e rn].
  2:{ exfalso. apply (Hstuck (mkDl td (Nat.pred tk) rn [] (w ++ [output e]) ret)). apply (dl_write _ _ td tk [] e rn [] w ret).
      rewrite Hp in Hl. by inversion Hl. }
  destruct td as [|e td].
  - destruct Hr as [-> |(-> & _)]; [|split; [done|]; rewrite Hw, Hp; cbn; by rewrite app_nil_r].
    exfalso. apply (Hstuck (mkDl [] tk [] [] w (Some None))). constructor.
  - destruct Hr as [-> |(_ & ? & _)]; [|done]. exfalso. apply (Hstuck (mkDl td (S tk) ([] ++ [e]) [] w None)). constructor. rewrite Ht. cbn. unfold maxParallelFiles. lia.
Qed.

(** The entries whose files cannot be created. *)
Abbreviation failing := (filter (fun e => create (dl_path e) = false)).

Record jamming (pre post : list downloadListEntry) (s : download_state) : Prop := {
  ja_returned : returned s = None;
  ja_tokens : tokens s = (length (running s) + length (blocked s))%nat;
  ja_bound : (tokens s <= maxParallelFiles)%nat;
  ja_todo : exists started, pre ++ post = started ++ todo s /\ todo s <> [] /\ length (failing started) = (length (failing (running s)) + length (failing (blocked s)))%nat
}.

Lemma failing_length l : (length (failing l) <= length l)%nat.
Proof using Type. apply length_filter. Qed.

Lemma jamming_step pre post s s' :
  post <> [] -> (maxParallelFiles <= length (failing pre))%nat -> jamming pre post s -> step s s' -> jamming pre post s'.
Proof using Type.
  intros Hpost Hpre [Hr Ht Hb (st & Hst & Htd & Hf)] Hs. destruct Hs as [e es n r bl w Hn|es n l1 e l2 bl w ret Hc|es n l1 e l2 bl w ret Hc|n r l1 e l2 w|n w]; cbn in *; try done.
  - split; cbn; [done|rewrite length_app; cbn; lia|lia|]. exists (st ++ [e]). split_and!; [by rewrite Hst, <- app_assoc| |rewrite !filter_app, !length_app; lia].
    intros ->. assert (exists post', st = pre ++ post') as [post' ->].
    { destruct (exists_last Hpost) as (p' & e' & ->). rewrite app_assoc in Hst. apply app_inj_tail in Hst as [<- _]. by exists p'. }
    rewrite filter_app, length_app in Hf. pose proof (failing_length r). pose proof (failing_length bl). lia.
  - split; cbn; [done|rewrite length_app in *; cbn in *; lia|lia|]. exists st. split_and!; [done|done|]. rewrite Hf, !filter_app, filter_cons_False, length_app by congruence. done.
  - split; cbn; [done|rewrite !length_app in *; cbn in *; lia|lia|]. exists st. split_and!; [done|done|].
    rewrite Hf, !filter_app, !filter_cons_True, filter_nil, !length_app by done. cbn [length]. lia.
Qed.

(** C39: If five files of a download cannot be created and there is one more behind them, the download never returns: each failed goroutine
    keeps its token and waits to send its error, and the loop that starts the others waits for a token before it receives one. *)
Theorem download_blocks pre post s :
  post <> [] -> (maxParallelFiles <= length (failing pre))%nat -> rtc step (download_start (pre ++ post)) s ->
  returned s = None /\ todo s <> [] /\ Acc (fun b a => step a b) s.
Proof using Type.
  intros Hpost Hpre Hreach. assert (Hinv : jamming pre post s).
  { eapply rtc_keeps; [|exact Hreach|]; [intros; by eapply jamming_step|].
    split; cbn; [done|done|lia|]. exists []. split_and!; [done| |done]. intros E. by apply app_eq_nil in E as [_ ?]. }
  destruct Hinv as [? _ _ (st & _ & ? & _)]. split_and!; [done|done|apply steps_finite].
Qed.
End Steps.

(** ** Clean paths *)

(** A component that [Clean] keeps of a rooted path. *)
Definition kept (c : bytes) : Prop := noslash c /\ c <> [] /\ c <> [dot] /\ c <> [dot; dot].

Lemma clean_kept st cs : Forall kept st -> Forall noslash cs -> Forall kept (clean_loop true st cs).
Proof.
  intros Hst Hcs. revert st Hst. induction Hcs as [|c cs Hc _ IH]; intros st Hst; cbn [clean_loop]; [by apply Forall_rev|].
  destruct (bool_decide (c = []) || bool_decide (c = [dot])) eqn:E; [by apply IH|]. apply orb_false_iff in E as [E1%bool_decide_eq_false E2%bool_decide_eq_false].
  case_bool_decide as E3; [|apply IH; by constructor].
  destruct Hst as [|top st (Ht1 & Ht2 & Ht3 & Ht4) Hst]; [by apply IH|]. rewrite bool_decide_eq_false_2 by done. by apply IH.
Qed.

Lemma components_join cs : cs <> [] -> Forall noslash cs -> components (join cs) = cs.
Proof.
  intros Hne HF. induction HF as [|c cs Hc HF IH]; [done|]. destruct cs as [|c2 cs]; [by apply components_noslash|].
  change (join (c :: c2 :: cs)) with (c ++ slash :: join (c2 :: cs)). rewrite components_split, IH, components_noslash by done. done.
Qed.

Lemma Abs_shape cwd p : IsAbs cwd = true -> exists cs, Abs cwd p = slash :: join cs /\ Forall kept cs.
Proof.
  intros Hc. assert (H : forall p, IsAbs p = true -> exists cs, Clean p = slash :: join cs /\ Forall kept cs).
  { intros q Hq. unfold Clean. rewrite Hq. eexists. split; [done|]. apply clean_kept; [constructor|]. apply components_noslashes. }
  unfold Abs. destruct (IsAbs p) eqn:E; [by apply H|]. apply H. by destruct cwd.
Qed.

(** The directory of a clean path followed by a slash is the path. *)
Lemma Dir_slash cs : Forall kept cs -> Dir (slash :: join cs ++ [slash]) = slash :: join cs.
Proof.
  intros Hcs. unfold Dir. change (slash :: join cs ++ [slash]) with ((slash :: join cs) ++ [slash]). rewrite rev_app_distr.
  change (rev [slash]) with [slash]. change ([slash] ++ rev (slash :: join cs)) with (slash :: rev (slash :: join cs)). cbn [upto_slash]. rewrite Z.eqb_refl.
  change (rev (slash :: rev (slash :: join cs))) with (rev (rev (slash :: join cs)) ++ [slash]). rewrite rev_involutive.
  unfold Clean. cbn [app IsAbs]. rewrite Z.eqb_refl. f_equal. change (components (slash :: join cs ++ [slash])) with ([] :: components (join cs ++ slash :: [])).
  rewrite components_split. cbn [components clean_loop]. rewrite bool_decide_eq_true_2 by done. cbn [orb].
  destruct (decide (cs = [])) as [-> |Hne]; [done|]. rewrite components_join; [|done|eapply Forall_impl; [exact Hcs|by intros ? []]].
  enough (E : clean_loop true [] (cs ++ [[]]) = cs) by (by rewrite E).
  enough (E : forall st, clean_loop true st (cs ++ [[]]) = rev st ++ cs) by apply E. clear Hne.
  induction Hcs as [|c cs (H1 & H2 & H3 & H4) _ IH]; intros st; cbn [clean_loop app]; [cbn; by rewrite app_nil_r|].
  rewrite !bool_decide_eq_false_2 by done. cbn [orb]. rewrite IH. cbn [rev]. by rewrite <- app_assoc.
Qed.

Lemma path_not_dir lp cs dir : Forall ok_name cs -> cs <> [] -> lp ++ slash :: join cs <> dir ++ [slash].
Proof.
  intros HF Hne E. apply (f_equal components) in E. change (dir ++ [slash]) with (dir ++ slash :: []) in E.
  rewrite !components_split, components_join in E; [|done|eapply Forall_impl; [exact HF|by intros ? []]].
  apply (f_equal last) in E. change (components []) with ([[]] : list bytes) in E. rewrite last_snoc in E.
  destruct (exists_last Hne) as (cs' & c & ->). rewrite app_assoc, last_snoc in E. injection E as ->. apply Forall_app in HF as [_ HF]. inversion_clear HF as [|? ? [_ ? _]]. done.
Qed.

(** ** The files of a listing *)

(** What the listing of an uploaded directory is called back with. *)
Definition file_suffix (q : bytes) : Prop := q = [] \/ exists cs, Forall ok_name cs /\ cs <> [] /\ q = join cs.

Lemma download_list_all mkdir cs0 prev calls :
  Forall kept cs0 -> (forall d, mkdir d = true) -> Forall (fun c => file_suffix (snd c)) calls ->
  download_list mkdir (slash :: join cs0) prev true calls =
    (fun c => mkDownload (Hex2Bytes (Hash (fst c))) ((slash :: join cs0) ++ slash :: snd c)) <$> filter (fun c => snd c <> []) calls.
Proof.
  intros Hcs Hmk HF. revert prev. induction HF as [|[e q] calls Hq _ IH]; intros prev; [done|]. cbn [download_list snd fst].
  rewrite Hmk. replace (if negb _ then true else true) with true by (by destruct (negb _)). cbn [andb]. rewrite IH. destruct Hq as [Hq|(cs & Hn & Hne & Hq)]; cbn in Hq; subst q.
  - rewrite filter_cons_False by (by intros ?). rewrite bool_decide_eq_true_2; [done|].
    change ((slash :: join cs0) ++ [slash]) with (slash :: join cs0 ++ [slash]) at 2. by rewrite Dir_slash.
  - rewrite filter_cons_True by (by apply join_nonempty). rewrite bool_decide_eq_false_2 by (by apply path_not_dir). done.
Qed.

Lemma file_contents_stored Retrieve dpa_Store {HDS : DocStore Retrieve dpa_Store} d k :
  dpa_Store d (#d) = Ok k -> file_contents Retrieve (Hex2Bytes (Key_String k)) = d.
Proof.
  intros Hk. destruct (ds_key _ _ Hk) as [H1 H2]. rewrite Hex2Bytes_key by done. unfold file_contents. destruct (ds_serves _ _ Hk) as [-> [eof Hr]].
  destruct (Z.leb_spec (#d) 0) as [Hz|_]; [by destruct d; [|unfold zlen in Hz; cbn in Hz; lia]|]. rewrite Hr. unfold zlen. rewrite Nat2Z.id. by apply take_ge.
Qed.

Section RoundTrip.
Context (Retrieve : Key -> LazySectionReader) (dpa_Store : bytes -> Z -> result merr Key) {HDS : DocStore Retrieve dpa_Store}.
Context (Unmarshal : bytes -> option (list manifestTrieEntry)) (Marshal : list manifestTrieEntry -> option bytes) {HMJ : ManifestJson Unmarshal Marshal}.
Context (dns : option (bytes -> Key * bool)) (f : nat) (DetectContentType : bytes -> bytes).
Context (Htypes : forall d, text (DetectContentType d) /\ DetectContentType d <> manifestType).
Context (root : fnode) (cwd : bytes) (Hcwd : IsAbs cwd = true).

Abbreviation Upload := (Upload Retrieve dpa_Store Unmarshal Marshal (S f) DetectContentType root cwd).
Abbreviation prepare := (download_prepare Retrieve Unmarshal dns (S f) cwd).

(** The files of a tree below another directory. *)
Definition copies (tp : bytes) (D : fnode) : list (bytes * bytes) := (fun cd => (tp ++ slash :: join (fst cd), default [] (snd cd))) <$> files_of D.

Lemma copies_nodup tp D : tree_ok D -> NoDup (copies tp D).
Proof using Type.
  intros Hok. apply (NoDup_fmap_1 fst). unfold copies. rewrite <- list_fmap_compose. pose proof (files_order D Hok) as Hs.
  induction Hs as [|cd l Hs IH HF]; [constructor|]. rewrite fmap_cons. constructor; [|done]. intros (cd' & E & Hin)%list_elem_of_fmap. cbn in E.
  apply app_inv_head in E. injection E as E. rewrite Forall_forall in HF. apply (HF cd' Hin). by rewrite E.
Qed.

Lemma prepare_lists key T target mkdir :
  manifest_at Retrieve Unmarshal f key T -> (height T <= S f)%nat -> (forall d, mkdir d = true) ->
  (forall q x, Forall is_byte q -> has T q x -> file_suffix q) ->
  exists calls, lists (has T) [] [] calls /\ prepare mkdir (Key_String key) target =
    Ok ((fun c => mkDownload (Hex2Bytes (Hash (fst c))) (Abs cwd (Clean target) ++ slash :: snd c)) <$> filter (fun c => snd c <> []) calls).
Proof using Hcwd.
  intros [[Hk1 Hk2] HT (s & Hs & Hlz)] Hh Hmk Hsuf. unfold download_prepare. rewrite Hmk. cbn [negb]. unfold parseAndResolve.
  rewrite parse_key by done. cbn [mbind option_bind]. rewrite Resolve_key by done. cbn [or_panic rbind]. rewrite Hs. cbn [map_err rbind].
  destruct (listWithPrefixInt_ok (loadManifest Retrieve Unmarshal (S f)) (S f) s T [] [] Hh Hlz HT) as (s' & calls & E & _ & Hl); [constructor|].
  unfold listWithPrefix. rewrite E. cbn [map_err rbind]. exists calls. split; [done|]. f_equal.
  destruct (Abs_shape cwd (Clean target) Hcwd) as (cs0 & -> & Hcs0). apply download_list_all; [done|done|].
  apply Forall_forall. intros [e q] Hin. destruct Hl as (H1 & _ & _). destruct (H1 e q Hin) as (q' & -> & Hq & Hx). cbn [app snd] in *. by eapply Hsuf.
Qed.

Lemma uploaded_suffix lp index es q x :
  tree_ok (Directory (Some es)) -> upload_map dpa_Store DetectContentType lp index (files_of (Directory (Some es))) q x -> file_suffix q.
Proof using Type.
  intros Hok [(cs & d & k & Hin & -> & _)|[-> _]]; [right|by left]. exists cs.
  pose proof (proj1 (Forall_forall _ _) (files_of_names _ Hok) _ Hin) as [? _]. pose proof (proj1 (Forall_forall _ _) (files_of_below es) _ Hin). done.
Qed.

(** The files that the listing of an uploaded directory leads to. *)
Lemma listing_copies tp lp index es T calls :
  let D := Directory (Some es) in tree_ok D -> Forall (file_stored dpa_Store) (files_of D) ->
  (forall q x, Forall is_byte q -> has T q x <-> upload_map dpa_Store DetectContentType lp index (files_of D) q x) -> lists (has T) [] [] calls ->
  (fun c => (tp ++ slash :: snd c, file_contents Retrieve (Hex2Bytes (Hash (fst c))))) <$> filter (fun c : manifestTrieEntry * bytes => snd c <> []) calls ≡ₚ copies tp D.
Proof using HDS.
  intros D Hok Hst Hmap (H1 & H2 & H3). apply NoDup_Permutation.
  - apply (NoDup_fmap_1 fst). rewrite <- list_fmap_compose. assert (Hnd : NoDup (filter (fun c : manifestTrieEntry * bytes => snd c <> []) calls).*2) by (by apply NoDup_fmap_filter).
    assert (E : (fst ∘ (fun c : manifestTrieEntry * bytes => (tp ++ slash :: snd c, file_contents Retrieve (Hex2Bytes (Hash (fst c)))))) =
      (fun q => tp ++ slash :: q) ∘ snd) by done. rewrite E, list_fmap_compose. apply NoDup_fmap; [|done]. intros a b Hab. apply app_inv_head in Hab. by injection Hab.
  - by apply copies_nodup.
  - intros [p d]. split.
    + intros ([e q] & [= -> ->] & [Hne Hin]%list_elem_of_filter)%list_elem_of_fmap. cbn [fst snd] in *. destruct (H1 e q Hin) as (q' & -> & Hq & Hx). cbn [app] in *.
      apply Hmap in Hx as [(cs & d & k & Hf & -> & Hk & Hc)|[-> _]]; [|done|done]. unfold content, file_content in Hc. injection Hc as -> _ _.
      apply list_elem_of_fmap. exists (cs, Some d). split; [|done]. cbn. by rewrite (file_contents_stored Retrieve dpa_Store d k).
    + intros ([cs o] & [= -> ->] & Hin)%list_elem_of_fmap. pose proof (proj1 (Forall_forall _ _) Hst _ Hin) as (d & k & Ho & Hk). cbn in Ho. subst o. cbn [fst snd default].
      pose proof (proj1 (Forall_forall _ _) (files_of_names _ Hok) _ Hin) as [Hn _]. pose proof (proj1 (Forall_forall _ _) (files_of_below es) _ Hin) as Hne. cbn in Hn, Hne.
      destruct (H2 (join cs) (file_content DetectContentType lp cs d k)) as (e & He & Hc); [by apply text_byte, join_text| |].
      { apply Hmap; [by apply text_byte, join_text|]. left. by exists cs, d, k. }
      apply list_elem_of_fmap. exists (e, join cs). unfold content, file_content in Hc. injection Hc as Hc _ _. cbn [fst snd]. rewrite Hc. split.
      * by rewrite (file_contents_stored Retrieve dpa_Store d k).
      * apply list_elem_of_filter. split; [by apply join_nonempty|done].
Qed.

(** C4: A directory whose files can be read and have ASCII names, and that was uploaded, is downloaded again: if all directories and files can be made below the target, the
    download of the key that the upload returned writes exactly the files of the directory, each once under its path with its
    contents, and returns without an error, whatever the order of the goroutines; no run goes on for ever. *)
Theorem upload_download lpath index es target mkdir create h :
  let D := Directory (Some es) in
  node_at root (proper_components (Abs cwd (Clean lpath))) = Some D -> tree_ok D ->
  Forall (fun cd => (length (join (fst cd)) <= f)%nat) (files_of D) -> (forall d, mkdir d = true) -> (forall p, create p = true) ->
  Upload lpath index = Ok h ->
  exists l, prepare mkdir h target = Ok l /\ Acc (fun b a => download_step Retrieve create a b) (download_start l) /\
    forall s, rtc (download_step Retrieve create) (download_start l) s -> (forall s', ~ download_step Retrieve create s s') ->
      returned s = Some None /\ written s ≡ₚ copies (Abs cwd (Clean target)) D.
Proof using HDS HMJ Htypes Hcwd.
  intros D HD Hok Hlen Hmk Hcr HU. pose proof (upload_ok Retrieve dpa_Store Unmarshal Marshal f DetectContentType Htypes root cwd lpath index es HD Hok) as H.
  rewrite HU in H. destruct H as (key & T & -> & Hat & Hbr & Hst & Hmap).
  assert (Hh : (height T <= S f)%nat).
  { apply height_paths; [apply Hat|done|]. intros q x Hq [(cs & d & k & Hin & -> & _)|[-> _]]%Hmap; [|cbn; lia|done]. by apply (proj1 (Forall_forall _ _) Hlen _ Hin). }
  destruct (prepare_lists key T target mkdir Hat Hh Hmk) as (calls & Hcalls & E).
  { intros q x Hq Hx. eapply uploaded_suffix; [exact Hok|]. by apply Hmap. }
  eexists. split; [exact E|]. split; [apply steps_finite|]. intros s Hreach Hstuck.
  destruct (download_complete Retrieve create _ (proj2 (Forall_forall _ _) (fun e _ => Hcr (dl_path e))) s Hreach Hstuck) as [Hret Hw]. split; [done|].
  rewrite Hw, <- list_fmap_compose. by apply (listing_copies _ _ _ _ T calls Hok Hst Hmap).
Qed.
End RoundTrip.

(** ** A small directory *)

Definition plain_type (_ : bytes) : bytes := str "text/plain".

Definition toy_dir : list (bytes * fnode) :=
  [(str "a.css", File (Some (str "x"))); (str "ab", File (Some (str "hi"))); (str "b", Directory (Some [(str "c", File (Some (str "y")))]))].

Definition toy_root : fnode := Directory (Some [(str "d", Directory (Some toy_dir))]).

Definition toy_leaf (p : bytes) (i : nat) (ct : bytes) : manifestTrieEntry := mkEntry p (Key_String (shelf_key i)) ct 0 None.

(** Its files and the manifests of its upload. *)
Definition toy_docs : list bytes :=
  [str "x"; str "hi"; str "y";
   doc_of [toy_leaf (str ".css") 0 (str "text/css"); toy_leaf (str "b") 1 (str "text/plain")];
   doc_of [node_entry (str "a") 3; toy_leaf (str "b/c") 2 (str "text/plain"); toy_leaf [] 1 (str "text/plain")]].

Abbreviation toy_upload := (Upload (shelf_retrieve toy_docs) (shelf_store toy_docs) num_unmarshal num_marshal 6 plain_type toy_root (str "/")).

Lemma toy_upload_key : toy_upload (str "x/../d/") (str "ab") = Ok (Key_String (shelf_key 4)).
Proof. vm_compute. reflexivity. Qed.

Lemma plain_type_ok d : text (plain_type d) /\ plain_type d <> manifestType.
Proof. split; [vm_compute; repeat constructor; done|done]. Qed.

Lemma toy_dir_ok : tree_ok (Directory (Some toy_dir)).
Proof.
  assert (Hn : forall c, forallb (fun x => (0 <=? x) && (x <? 128) && negb (x =? slash)) c = true -> c <> [] -> ok_name c).
  { intros c Hc Hne. rewrite forallb_forall in Hc. split; [|done|]; apply Forall_forall; intros x Hx; apply list_elem_of_In, Hc in Hx; unfold slash in *; lia. }
  apply tree_ok_dir. split; [repeat constructor|]. repeat (constructor; [split; [by apply Hn|]|]); cbn; try done.
  split; [repeat constructor|]. split_and!; try done. by apply Hn.
Qed.

Lemma Upload_represents_witness :
  match toy_upload (str "x/../d/") (str "ab") with
  | Ok h => exists key T, h = Key_String key /\ manifest_at (shelf_retrieve toy_docs) num_unmarshal 5 key T /\
      Forall (file_stored (shelf_store toy_docs)) (files_of (Directory (Some toy_dir))) /\
      forall q x, Forall is_byte q ->
        has T q x <-> upload_map (shelf_store toy_docs) plain_type (str "/d") (str "ab") (files_of (Directory (Some toy_dir))) q x
  | r => upload_refused (shelf_store toy_docs) (files_of (Directory (Some toy_dir)))
      (Upload_docs (shelf_retrieve toy_docs) (shelf_store toy_docs) num_unmarshal num_marshal 5 plain_type toy_root (str "/") (str "x/../d/") (str "ab")) r
  end.
Proof.
  apply (Upload_represents (shelf_retrieve toy_docs) (shelf_store toy_docs) num_unmarshal num_marshal 5 plain_type plain_type_ok toy_root (str "/") (str "x/../d/") (str "ab") toy_dir);
    [vm_compute; reflexivity|apply toy_dir_ok].
Defined.

Lemma upload_download_witness :
  exists l, download_prepare (shelf_retrieve toy_docs) num_unmarshal None 6 (str "/") (fun _ => true) (Key_String (shelf_key 4)) (str "t") = Ok l /\
    Acc (fun b a => download_step (shelf_retrieve toy_docs) (fun _ => true) a b) (download_start l) /\
    forall s, rtc (download_step (shelf_retrieve toy_docs) (fun _ => true)) (download_start l) s ->
      (forall s', ~ download_step (shelf_retrieve toy_docs) (fun _ => true) s s') ->
      returned s = Some None /\ written s ≡ₚ [(str "/t/a.css", str "x"); (str "/t/ab", str "hi"); (str "/t/b/c", str "y")].
Proof.
  apply (upload_download (shelf_retrieve toy_docs) (shelf_store toy_docs) num_unmarshal num_marshal None 5 plain_type plain_type_ok toy_root (str "/") eq_refl
           (str "x/../d/") (str "ab") toy_dir (str "t") (fun _ => true) (fun _ => true) (Key_String (shelf_key 4)));
    [vm_compute; reflexivity|apply toy_dir_ok|repeat constructor; cbn; lia|done|done|vm_compute; reflexivity].
Defined.

Definition toy_entry (n : Z) : downloadListEntry := mkDownload [] [n].
Definition toy_entries : list downloadListEntry := toy_entry <$> [1; 2; 3; 4; 5].

Lemma download_blocks_witness :
  let s := mkDl [toy_entry 6] 5 [] toy_entries [] None in
  returned s = None /\ todo s <> [] /\ Acc (fun b a => download_step (shelf_retrieve []) (fun _ => false) a b) s.
Proof.
  apply (download_blocks (shelf_retrieve []) (fun _ => false) toy_entries [toy_entry 6] (mkDl [toy_entry 6] 5 [] toy_entries [] None)); [done|vm_compute; lia|].
  do 5 (eapply rtc_l; [apply dl_spawn; unfold maxParallelFiles; lia|]). cbn [app].
  do 5 (eapply rtc_l; [by apply (dl_fail _ _ _ _ [])|]). apply rtc_refl.
Defined.

(** An entry of a manifest with a path that leads out of the target directory is created there. *)
Example download_leaves_target :
  download_list (fun _ => true) (str "/t") (str "/t") true [(toy_leaf [] 0 [], str "../x")] = [mkDownload (shelf_key 0) (str "/t/../x")].
Proof. vm_compute. reflexivity. Qed.

(** A character of two bytes that shares its first byte with another is split by the trie: the path of the node is not
    text any more, and encoding/json replaces it. *)
Example addEntry_splits_characters :
  match add_all no_load emptyTrie [leaf [195; 169]; leaf [195; 168]] with Ok t => Path <$> slot t 195 | _ => None end = Some [195].
Proof. vm_compute. reflexivity. Qed.
