(* ===== verification/MemStore.v ===== *)
(** The memory cache ([livepeer/storage/memstore.go]): a prefix tree of chunks whose
    nodes keep the smallest access counts of their parts, so that the entry that was
    not accessed for the longest time is found by a descent.

    The nodes form a heap; the address of a node is the list of the indices that
    lead to it, the last one first: [parentIdx] is the head, [parent] the tail, the root
    the empty list. [subtree[l]] of the node at [p] is nil when nothing is at [l :: p].
    An entry is the number of a chunk object with its key. [MemInv] has the invariant
    and what the operations do to it, [MemProps] the properties. *)
From stdpp Require Import base gmap list strings.
From Stdlib Require Import ZArith Lia.
From S2P Require Import Prelude Types.

Definition memTreeLW : Z := 2.
Definition memTreeFLW : Z := 14.
Definition dbForceUpdateAccessCnt : Z := 1000.
Definition defaultCacheCapacity : Z := 5000.

Record memTree := mkTree {
  mt_bits : Z;
  mt_width : Z;
  mt_entry : option (Key * nat);
  mt_lastDBaccess : Z;
  mt_access : list Z
}.

Abbreviation ptr := (list Z).
Abbreviation nodes := (gmap ptr memTree).

(** The counters do not reach the limit of 64 bits. *)
Record MemStore := mkMem {
  ms_memtree : nodes;
  ms_entryCnt : Z;
  ms_capacity : Z;
  ms_accessCnt : Z;
  ms_dbAccessCnt : Z
}.

(** [newMemTree(b, parent, pidx)] for the address [pidx :: parent]. *)
Definition newMemTree (b : Z) (p : ptr) (N : nodes) : nodes :=
  <[p := {| mt_bits := b; mt_width := Z.shiftl 1 b; mt_entry := None; mt_lastDBaccess := 0;
            mt_access := replicate (Z.to_nat (Z.shiftl 1 b - 1)) 0 |}]> N.

(** Assignments to fields of the node at [p]. *)
Definition set_access (N : nodes) (p : ptr) (i : Z) (a : Z) : nodes :=
  alter (fun n => {| mt_bits := mt_bits n; mt_width := mt_width n; mt_entry := mt_entry n;
                     mt_lastDBaccess := mt_lastDBaccess n; mt_access := <[Z.to_nat i := a]> (mt_access n) |}) p N.
Definition set_entry (N : nodes) (p : ptr) (e : option (Key * nat)) : nodes :=
  alter (fun n => {| mt_bits := mt_bits n; mt_width := mt_width n; mt_entry := e;
                     mt_lastDBaccess := mt_lastDBaccess n; mt_access := mt_access n |}) p N.
Definition set_lastDBaccess (N : nodes) (p : ptr) (x : Z) : nodes :=
  alter (fun n => {| mt_bits := mt_bits n; mt_width := mt_width n; mt_entry := mt_entry n;
                     mt_lastDBaccess := x; mt_access := mt_access n |}) p N.

(** [nn.access[0]] of a subtree, 0 when it is nil. *)
Definition sub_access (N : nodes) (p : ptr) : outcome Z :=
  match N !! p with
  | Some nn => or_crash (index (mt_access nn) 0)
  | None => Ret 0
  end.

(** [if (aa != 0) && (aa < a) { a = aa }]. *)
Definition lower (aa a : Z) : Z := if negb (aa =? 0) && (aa <? a) then aa else a.

(** The loop of [updateAccess]. *)
Fixpoint updateAccess_loop (fuel : nat) (N : nodes) (p : ptr) (aidx a oa : Z) : outcome nodes :=
  match fuel with
  | O => Wait
  | S f =>
    let& node := or_crash (N !! p) in
    let& v := or_crash (index (mt_access node) aidx) in
    if v =? oa then
      let N := set_access N p aidx a in
      if 0 <? aidx then
        let& aa := or_crash (index (mt_access node) (Z.lxor (aidx - 1) 1 + 1)) in
        updateAccess_loop f N p (Z.shiftr (aidx - 1) 1) (lower aa a) oa
      else match p with
      | [] => Ret N
      | pidx :: q =>
        let& parent := or_crash (N !! q) in
        let& aa := sub_access N (Z.lxor pidx 1 :: q) in
        updateAccess_loop f N q (Z.shiftr (mt_width parent + pidx - 2) 1) (lower aa a) oa
      end
    else Ret N
  end.

(** The steps of a walk to the root: at most 14 in a node. *)
Definition climb_fuel (p : ptr) : nat := 16 * S (length p).

Definition updateAccess (N : nodes) (p : ptr) (a : Z) : outcome nodes :=
  let& node := or_crash (N !! p) in
  let& oa := or_crash (index (mt_access node) 0) in
  updateAccess_loop (climb_fuel p) N p 0 a oa.

(** ** removeOldest *)

(** The inner loop of the descent: each count on the way is replaced by that of its sibling. *)
Fixpoint oldest_inner (fuel : nat) (N : nodes) (p : ptr) (aidx av : Z) : outcome (Z * nodes) :=
  match fuel with
  | O => Wait
  | S f =>
    let& node := or_crash (N !! p) in
    if aidx <? mt_width node / 2 - 1 then
      let& l := or_crash (index (mt_access node) (aidx * 2 + 1)) in
      let& r := or_crash (index (mt_access node) (aidx * 2 + 2)) in
      if av =? l then oldest_inner f (set_access N p aidx r) p (aidx * 2 + 1) av
      else if av =? r then oldest_inner f (set_access N p aidx l) p (aidx * 2 + 2) av
      else Crash
    else Ret (aidx, N)
  end.

(** [(node.subtree[pidx] != nil) && (av == node.subtree[pidx].access[0])]. *)
Definition sub_has (N : nodes) (p : ptr) (av : Z) : outcome bool :=
  match N !! p with
  | Some nn => let& x := or_crash (index (mt_access nn) 0) in Ret (av =? x)
  | None => Ret false
  end.

(** The descent: the address of the oldest entry. *)
Fixpoint oldest_loop (fuel : nat) (N : nodes) (p : ptr) : outcome (ptr * nodes) :=
  match fuel with
  | O => Wait
  | S f =>
    let& node := or_crash (N !! p) in
    match mt_entry node with
    | Some _ => Ret (p, N)
    | None =>
      let& av := or_crash (index (mt_access node) 0) in
      let& x := oldest_inner 16 N p 0 av in
      let '(aidx, N) := x in
      let pidx := aidx * 2 + 2 - mt_width node in
      let& l := sub_has N (pidx :: p) av in
      if l : bool then
        let& aa := sub_access N (pidx + 1 :: p) in
        oldest_loop f (set_access N p aidx aa) (pidx :: p)
      else
      let& r := sub_has N (pidx + 1 :: p) av in
      if r : bool then
        let& aa := sub_access N (pidx :: p) in
        oldest_loop f (set_access N p aidx aa) (pidx + 1 :: p)
      else Crash
    end
  end.

(** The walk back to the root. *)
Fixpoint restore_loop (fuel : nat) (N : nodes) (p : ptr) (aidx : Z) : outcome nodes :=
  match fuel with
  | O => Wait
  | S f =>
    let& node := or_crash (N !! p) in
    let& aa := or_crash (index (mt_access node) aidx) in
    let raise q i :=
      let& node := or_crash (N !! q) in
      let& v := or_crash (index (mt_access node) i) in
      let N := if negb (aa =? 0) && ((aa <? v) || (v =? 0)) then set_access N q i aa else N in
      restore_loop f N q i in
    if 0 <? aidx then raise p (Z.shiftr (aidx - 1) 1)
    else match p with
    | [] => Ret N
    | pidx :: q =>
      let& parent := or_crash (N !! q) in
      raise q (Z.shiftr (mt_width parent + pidx - 2) 1)
    end
  end.

(** One more than the number of nodes: a descent visits each at most once. *)
Definition tree_fuel (N : nodes) : nat := S (size N).

(** [ready c] waits until the chunk object [c] is stored on disk and says whether it has
    data: an entry without data is not removed, but loses its access count. *)
Definition removeOldest (s : MemStore) (ready : nat -> outcome bool) : outcome MemStore :=
  let& x := oldest_loop (tree_fuel (ms_memtree s)) (ms_memtree s) [] in
  let '(p, N) := x in
  let& node := or_crash (N !! p) in
  let& e := or_crash (mt_entry node) in
  let& data := ready (snd e) in
  let '(N, cnt) := if data : bool then (set_entry N p None, ms_entryCnt s - 1) else (N, ms_entryCnt s) in
  let N := set_access N p 0 0 in
  let& N := restore_loop (climb_fuel p) N p 0 in
  Ret {| ms_memtree := N; ms_entryCnt := cnt; ms_capacity := ms_capacity s; ms_accessCnt := ms_accessCnt s;
         ms_dbAccessCnt := ms_dbAccessCnt s |}.

(** [for c < s.entryCnt { s.removeOldest() }]. *)
Fixpoint setCapacity_loop (fuel : nat) (s : MemStore) (c : Z) (ready : nat -> outcome bool) : outcome MemStore :=
  match fuel with
  | O => Wait
  | S f =>
    if c <? ms_entryCnt s then let& s := removeOldest s ready in setCapacity_loop f s c ready
    else Ret s
  end.

Definition setCapacity (fuel : nat) (s : MemStore) (c : Z) (ready : nat -> outcome bool) : outcome MemStore :=
  let& s := setCapacity_loop fuel s c ready in
  Ret {| ms_memtree := ms_memtree s; ms_entryCnt := ms_entryCnt s; ms_capacity := c; ms_accessCnt := ms_accessCnt s;
         ms_dbAccessCnt := ms_dbAccessCnt s |}.

(** There are no entries, so the loop of [setCapacity] does not run. *)
Definition NewMemStore (capacity : Z) : outcome MemStore :=
  setCapacity 1 {| ms_memtree := newMemTree memTreeFLW [] ∅; ms_entryCnt := 0; ms_capacity := 0; ms_accessCnt := 0;
                   ms_dbAccessCnt := 0 |} capacity (fun _ => Crash).

(** ** Put *)

(** The descent: to the entry on the way of the key, or to a new node. *)
Fixpoint put_descend (fuel : nat) (N : nodes) (p : ptr) (bitpos : Z) (key : Key) : outcome (ptr * Z * nodes) :=
  match fuel with
  | O => Wait
  | S f =>
    let& node := or_crash (N !! p) in
    match mt_entry node with
    | Some _ => Ret (p, bitpos, N)
    | None =>
      let& l := or_crash (Key_bits key bitpos (mt_bits node)) in
      match N !! (l :: p) with
      | None => Ret (l :: p, bitpos + mt_bits node, newMemTree memTreeLW (l :: p) N)
      | Some _ => put_descend f N (l :: p) (bitpos + mt_bits node) key
      end
    end
  end.

(** [st := node.subtree[l]; if st == nil { st = newMemTree(memTreeLW, node, l) }]. *)
Definition get_subtree (N : nodes) (p : ptr) (l : Z) : nodes :=
  match N !! (l :: p) with
  | None => newMemTree memTreeLW (l :: p) N
  | Some _ => N
  end.

(** The loop that moves an entry with another key down until the ways part. *)
Fixpoint split_loop (fuel : nat) (N : nodes) (p : ptr) (bitpos : Z) (key : Key) : outcome (ptr * nodes) :=
  match fuel with
  | O => Wait
  | S f =>
    let& node := or_crash (N !! p) in
    match mt_entry node with
    | None => Ret (p, N)
    | Some old =>
      let& l := or_crash (Key_bits (fst old) bitpos (mt_bits node)) in
      let N := get_subtree N p l in
      let N := set_entry N (l :: p) (Some old) in
      let N := set_entry N p None in
      let& a := or_crash (index (mt_access node) 0) in
      let& N := updateAccess N (l :: p) a in
      let& l := or_crash (Key_bits key bitpos (mt_bits node)) in
      let N := get_subtree N p l in
      split_loop f N (l :: p) (bitpos + mt_bits node) key
    end
  end.

(** More than the number of bits of the key. *)
Definition split_fuel (key : Key) : nat := S (8 * length key).

(** The rest of [Put]: the entry goes to the node at [p]. *)
Definition put_entry (s : MemStore) (N : nodes) (p : ptr) (key : Key) (c : nat) : outcome MemStore :=
  let N := set_entry N p (Some (key, c)) in
  let N := set_lastDBaccess N p (ms_dbAccessCnt s) in
  let& N := updateAccess N p (ms_accessCnt s) in
  Ret {| ms_memtree := N; ms_entryCnt := ms_entryCnt s + 1; ms_capacity := ms_capacity s;
         ms_accessCnt := ms_accessCnt s; ms_dbAccessCnt := ms_dbAccessCnt s |}.

Definition with_tree (s : MemStore) (N : nodes) : MemStore :=
  {| ms_memtree := N; ms_entryCnt := ms_entryCnt s; ms_capacity := ms_capacity s; ms_accessCnt := ms_accessCnt s;
     ms_dbAccessCnt := ms_dbAccessCnt s |}.
Definition accessed (s : MemStore) : MemStore :=
  {| ms_memtree := ms_memtree s; ms_entryCnt := ms_entryCnt s; ms_capacity := ms_capacity s;
     ms_accessCnt := ms_accessCnt s + 1; ms_dbAccessCnt := ms_dbAccessCnt s |}.

(** [Put] after the capacity check: the entry goes to its node, or to a new one. *)
Definition put_insert (s : MemStore) (key : Key) (c : nat) : outcome (option nat * MemStore) :=
  let s := accessed s in
  let& x := put_descend (tree_fuel (ms_memtree s)) (ms_memtree s) [] 0 key in
  let '(p, bitpos, N) := x in
  let& node := or_crash (N !! p) in
  match mt_entry node with
  | Some old =>
    if Key_isEqual (fst old) key then
      let& N := updateAccess N p (ms_accessCnt s) in
      Ret (Some (snd old), with_tree s (set_entry N p (Some (key, c))))
    else
      let& x := split_loop (split_fuel key) N p bitpos key in
      let '(p, N) := x in
      let& s := put_entry s N p key c in Ret (None, s)
  | None => let& s := put_entry s N p key c in Ret (None, s)
  end.

(** [Put] of the chunk object [c] with its key. The number returned is the entry it replaces,
    whose missing fields the caller copies. *)
Definition MemStore_Put (s : MemStore) (key : Key) (c : nat) (ready : nat -> outcome bool) : outcome (option nat * MemStore) :=
  if ms_capacity s =? 0 then Ret (None, s)
  else
    let& s := (if ms_capacity s <=? ms_entryCnt s then removeOldest s ready else Ret s) in
    put_insert s key c.

(** ** Get *)

Fixpoint find_loop (fuel : nat) (N : nodes) (p : ptr) (bitpos : Z) (key : Key) : outcome (option ptr) :=
  match fuel with
  | O => Wait
  | S f =>
    let& node := or_crash (N !! p) in
    match mt_entry node with
    | Some _ => Ret (Some p)
    | None =>
      let& l := or_crash (Key_bits key bitpos (mt_bits node)) in
      match N !! (l :: p) with
      | None => Ret None
      | Some _ => find_loop f N (l :: p) (bitpos + mt_bits node) key
      end
    end
  end.

(** The flag says that [dbStore.updateAccessCnt] is called for the key. *)
Definition MemStore_Get (s : MemStore) (key : Key) : outcome (option nat * bool * MemStore) :=
  let& x := find_loop (tree_fuel (ms_memtree s)) (ms_memtree s) [] 0 key in
  match x with
  | None => Ret (None, false, s)
  | Some p =>
    let& node := or_crash (ms_memtree s !! p) in
    let& e := or_crash (mt_entry node) in
    if Key_isEqual (fst e) key then
      let s := accessed s in
      let& N := updateAccess (ms_memtree s) p (ms_accessCnt s) in
      if dbForceUpdateAccessCnt <? u64 (ms_dbAccessCnt s - mt_lastDBaccess node) then
        let d := ms_dbAccessCnt s + 1 in
        Ret (Some (snd e), true,
             {| ms_memtree := set_lastDBaccess N p d; ms_entryCnt := ms_entryCnt s; ms_capacity := ms_capacity s;
                ms_accessCnt := ms_accessCnt s; ms_dbAccessCnt := d |})
      else Ret (Some (snd e), false, with_tree s N)
    else Ret (None, false, s)
  end.
