(* ===== verification/MemInv.v ===== *)
(** The invariant of the tree of the memory cache ([MemStore]) and what its loops do
    to it.

    A position is a slot of the [access] array of a node. The positions form a binary
    tree across the nodes: [up] is the step of the loops towards the root, [sibp] the
    position with the same [up]. Away from the way of a running loop the count of a
    position is the smaller of the counts of the two below it, a count of zero being none. *)
From stdpp Require Import base gmap list strings.
From Stdlib Require Import ZArith Lia.
From S2P Require Import Prelude Types MemStore.

Ltac zdiv := Z.div_mod_to_equations; lia.

(** ** Keys and their ways *)

Definition key32 (k : Key) : Prop := #k = HashLength /\ Forall is_byte k.

Definition bits_at (p : ptr) : Z := match p with [] => memTreeFLW | _ => memTreeLW end.
Definition width_at (p : ptr) : Z := match p with [] => 16384 | _ => 4 end.
Definition bitpos_at (p : ptr) : Z := match p with [] => 0 | _ :: q => 14 + 2 * #q end.

(** The index of the subtree for a key. *)
Definition digit (k : Key) (p : ptr) : Z := (le_val k / 2 ^ bitpos_at p) mod 2 ^ bits_at p.

Fixpoint onpath (k : Key) (p : ptr) : Prop :=
  match p with
  | [] => True
  | l :: q => l = digit k q /\ onpath k q
  end.

Lemma width_pow p : width_at p = 2 ^ bits_at p.
Proof. by destruct p. Qed.

Lemma bitpos_cons l p : bitpos_at (l :: p) = bitpos_at p + bits_at p.
Proof. destruct p; cbn -[zlen]; [done|]. rewrite zlen_cons. unfold memTreeLW. lia. Qed.

Lemma bitpos_nonneg p : 0 <= bitpos_at p.
Proof. destruct p as [|l p]; cbn -[zlen]; [done|]. pose proof (zlen_nonneg p). lia. Qed.

Lemma digit_range k p : 0 <= digit k p < width_at p.
Proof. rewrite width_pow. apply Z.mod_pos_bound. by destruct p. Qed.

(** The bits the loops read: past the end of the key all are zero, as in the number. *)
Lemma Key_bits_way k p : 2 <= #k -> Forall is_byte k -> Key_bits k (bitpos_at p) (bits_at p) = Some (digit k p).
Proof.
  intros Hlen HF. unfold digit. destruct p as [|l p].
  - apply Key_bits_ok; try done. cbn [bitpos_at bits_at]. unfold memTreeFLW. lia.
  - cbn [bitpos_at bits_at]. pose proof (zlen_nonneg p) as Hp. unfold memTreeLW.
    destruct (decide (14 + 2 * #p + 2 <= 8 * #k)) as [Hin|Hout].
    { apply Key_bits_ok; try done; lia. }
    unfold Key_bits, Key_Size. rewrite Z.shiftr_div_pow2 by lia. change (2 ^ 3) with 8.
    destruct (Z.leb_spec (#k) ((14 + 2 * #p) / 8)) as [_|Hlt]; [|zdiv].
    rewrite Z.div_small; [done|]. pose proof (le_val_bound k HF) as Hb.
    split; [lia|]. apply Z.lt_le_trans with (256 ^ #k); [lia|]. change 256 with (2 ^ 8). rewrite <- Z.pow_mul_r by lia.
    apply Z.pow_le_mono_r; lia.
Qed.

Lemma Key_bits_digit k p : key32 k -> Key_bits k (bitpos_at p) (bits_at p) = Some (digit k p).
Proof. intros [Hlen HF]. apply Key_bits_way; [|done]. rewrite Hlen. done. Qed.

(** Two keys whose ways go through the same node agree on the bits of the way. *)
Lemma onpath_mod k k' p : onpath k p -> onpath k' p -> le_val k mod 2 ^ bitpos_at p = le_val k' mod 2 ^ bitpos_at p.
Proof.
  induction p as [|l p IH]; [cbn; intros; by rewrite !Z.mod_1_r|]. intros [H1 Hk] [H2 Hk'].
  specialize (IH Hk Hk'). rewrite bitpos_cons. pose proof (bitpos_nonneg p).
  assert (0 < bits_at p) by (by destruct p).
  rewrite Z.pow_add_r, !Z.rem_mul_r by lia. rewrite IH. f_equal. f_equal. unfold digit in *. congruence.
Qed.

(** Ways of different keys part within the bits of the keys. *)
Lemma onpath_same k k' p :
  key32 k -> key32 k' -> onpath k p -> onpath k' p -> 256 <= bitpos_at p -> k = k'.
Proof.
  intros [Hl HF] [Hl' HF'] Hp Hp' Hpos. pose proof (onpath_mod _ _ _ Hp Hp') as E.
  pose proof (le_val_bound k HF) as B. pose proof (le_val_bound k' HF') as B'.
  rewrite Hl in B. rewrite Hl' in B'. change (256 ^ HashLength) with (2 ^ 256) in *.
  assert (2 ^ 256 <= 2 ^ bitpos_at p) by (apply Z.pow_le_mono_r; lia).
  rewrite !Z.mod_small in E by lia.
  rewrite <- (le_bytes_val k HF), <- (le_bytes_val k' HF'), E. f_equal. zlia.
Qed.

Lemma onpath_app k p q : onpath k (p ++ q) -> onpath k q.
Proof. induction p as [|l p IH]; [done|]. intros [_ Hp]. auto. Qed.

(** The way of a key is a chain. *)
Lemma onpath_chain k p q : onpath k p -> onpath k q -> (length p <= length q)%nat -> exists r, q = r ++ p.
Proof.
  intros Hp. revert p Hp. induction q as [|l q IH]; intros p Hp Hq Hlen.
  { destruct p; [by exists []|cbn in Hlen; lia]. }
  destruct (decide (length p = S (length q))) as [E|Hne].
  - exists []. clear IH Hlen. cbn. revert q l p Hp Hq E. fix F 1. intros [|m q] l [|x p] Hp Hq E; cbn in E; try lia.
    + destruct p; [|cbn in E; lia]. destruct Hp as [-> _], Hq as [-> _]. done.
    + destruct Hp as [-> Hp], Hq as [-> Hq]. rewrite (F q m p Hp Hq) by lia. done.
  - destruct Hq as [_ Hq]. destruct (IH p Hp Hq) as [r ->]; [cbn in Hlen; lia|]. by exists (l :: r).
Qed.

(** ** Positions *)

Abbreviation pos := (ptr * Z)%type.

Definition up (x : pos) : option pos :=
  if 0 <? snd x then Some (fst x, Z.shiftr (snd x - 1) 1)
  else match fst x with
  | [] => None
  | l :: q => Some (q, Z.shiftr (width_at q + l - 2) 1)
  end.

Definition sibp (x : pos) : pos :=
  if 0 <? snd x then (fst x, Z.lxor (snd x - 1) 1 + 1)
  else match fst x with
  | [] => x
  | l :: q => (Z.lxor l 1 :: q, 0)
  end.

Definition valid (x : pos) : Prop :=
  0 <= snd x < width_at (fst x) - 1 /\ match fst x with [] => True | l :: q => 0 <= l < width_at q end.

(** Distance from the root. *)
Definition dep (x : pos) : Z := bitpos_at (fst x) + Z.log2 (snd x + 1).

(** The count of a position; none is zero. *)
Definition A (N : nodes) (x : pos) : Z := default 0 (N !! fst x ≫= fun n => index (mt_access n) (snd x)).

Lemma lxor1 x : Z.lxor x 1 = if Z.even x then x + 1 else x - 1.
Proof.
  assert (Hev : forall y, Z.even y = true -> Z.lxor y 1 = y + 1).
  { intros y Hy. symmetry. apply Z.add_nocarry_lxor. change 1 with (Z.ones 1).
    rewrite Z.land_ones by lia. by rewrite Z.pow_1_r, Zmod_even, Hy. }
  destruct (Z.even x) eqn:E; [auto|].
  assert (Z.even (x - 1) = true) as E' by (rewrite Z.even_sub, E; done).
  replace x with (Z.lxor (x - 1) 1) at 1 by (rewrite (Hev _ E'); lia).
  by rewrite Z.lxor_assoc, Z.lxor_nilpotent, Z.lxor_0_r.
Qed.

(** Parity as a remainder, for [lia]. *)
Lemma lxor1_mod x : Z.lxor x 1 = x + 1 - 2 * (x mod 2).
Proof. rewrite lxor1, Zmod_even. destruct (Z.even x); lia. Qed.

Lemma shiftr1 x : Z.shiftr x 1 = x / 2.
Proof. by rewrite Z.shiftr_div_pow2. Qed.

Lemma width_even p : exists h, width_at p = 2 * h /\ 2 <= h.
Proof. destruct p; [exists 8192|exists 2]; done. Qed.

Ltac positions := unfold up, sibp, valid in *; cbn [fst snd] in *.

Lemma up_sibp x : valid x -> up (sibp x) = up x.
Proof.
  destruct x as [p i]. positions. intros [Hi Hp]. rewrite lxor1_mod. destruct (Z.ltb_spec 0 i); cbn [fst snd].
  - destruct (Z.ltb_spec 0 (i - 1 + 1 - 2 * ((i - 1) mod 2) + 1)); [|zdiv]. do 2 f_equal. rewrite !shiftr1. zdiv.
  - destruct p as [|l q]; cbn [fst snd].
    + by destruct (Z.ltb_spec 0 i); [lia|].
    + cbn. do 2 f_equal. rewrite !shiftr1, lxor1_mod. destruct (width_even q) as (h & -> & _). zdiv.
Qed.

Lemma valid_sibp x : valid x -> valid (sibp x).
Proof.
  destruct x as [p i]. positions. intros [Hi Hp]. destruct (width_even p) as (h & Hh & _).
  destruct (Z.ltb_spec 0 i); cbn [fst snd].
  - rewrite lxor1_mod. split; [zdiv|done].
  - destruct p as [|l q]; cbn [fst snd]; [done|]. rewrite lxor1_mod. destruct (width_even q) as (h' & Hh' & _).
    rewrite Hh' in *. cbn [width_at]. split; [lia|zdiv].
Qed.

Lemma sibp_ne x y : valid x -> up x = Some y -> sibp x <> x.
Proof.
  destruct x as [p i]. positions. intros [Hi Hp]. destruct (Z.ltb_spec 0 i).
  - intros _ [=E]. rewrite lxor1_mod in E. zdiv.
  - destruct p as [|l q]; [done|]. intros _ [=E]. rewrite lxor1_mod in E. zdiv.
Qed.

Lemma valid_up x y : valid x -> up x = Some y -> 0 <= snd y < width_at (fst y) - 1.
Proof.
  destruct x as [p i]. positions. intros [Hi Hp]. destruct (Z.ltb_spec 0 i).
  - intros [= <-]. cbn. rewrite shiftr1. zdiv.
  - destruct p as [|l q]; [done|]. intros [= <-]. cbn. rewrite shiftr1. destruct (width_even q) as (h & Hh & _). zdiv.
Qed.

(** The two positions below [(p, i)]. *)
Definition kid (p : ptr) (i : Z) : pos := if i <? width_at p - 1 then (p, i) else (i - (width_at p - 1) :: p, 0).

Lemma kid_valid p i : 0 < i < 2 * width_at p - 1 -> match p with [] => True | l :: q => 0 <= l < width_at q end -> valid (kid p i).
Proof.
  intros Hi Hp. unfold kid. destruct (Z.ltb_spec i (width_at p - 1)); positions; cbn [width_at]; lia || (split; [lia|done]).
Qed.

Lemma kid_up p i j : 0 <= j < width_at p - 1 -> i = 2 * j + 1 \/ i = 2 * j + 2 -> up (kid p i) = Some (p, j).
Proof.
  intros Hj Hi. unfold kid. destruct (Z.ltb_spec i (width_at p - 1)); positions.
  - destruct (Z.ltb_spec 0 i); [|lia]. do 2 f_equal. rewrite shiftr1. zdiv.
  - cbn. do 2 f_equal. rewrite shiftr1. zdiv.
Qed.

Lemma kid_sibp p j : 0 <= j < width_at p - 1 -> sibp (kid p (2 * j + 1)) = kid p (2 * j + 2).
Proof.
  intros Hj. unfold kid. destruct (width_even p) as (h & Hh & _).
  destruct (Z.ltb_spec (2 * j + 1) (width_at p - 1)), (Z.ltb_spec (2 * j + 2) (width_at p - 1)); try lia; positions.
  - destruct (Z.ltb_spec 0 (2 * j + 1)); [|lia]. f_equal. rewrite lxor1_mod. zdiv.
  - cbn. rewrite lxor1_mod. do 2 f_equal. zdiv.
Qed.

Lemma kid_sibp' p j : 0 <= j < width_at p - 1 -> sibp (kid p (2 * j + 2)) = kid p (2 * j + 1).
Proof.
  intros Hj. unfold kid. destruct (width_even p) as (h & Hh & _).
  destruct (Z.ltb_spec (2 * j + 1) (width_at p - 1)), (Z.ltb_spec (2 * j + 2) (width_at p - 1)); try lia; positions.
  - destruct (Z.ltb_spec 0 (2 * j + 2)); [|lia]. f_equal. rewrite lxor1_mod. zdiv.
  - cbn. rewrite lxor1_mod. do 2 f_equal. zdiv.
Qed.

Lemma up_kid x p j : valid x -> up x = Some (p, j) -> x = kid p (2 * j + 1) \/ x = kid p (2 * j + 2).
Proof.
  destruct x as [q i]. unfold kid. positions. intros [Hi Hq]. destruct (Z.ltb_spec 0 i).
  - intros [= -> <-]. rewrite shiftr1. 
    destruct (Z.ltb_spec (2 * ((i - 1) / 2) + 1) (width_at p - 1)), (Z.ltb_spec (2 * ((i - 1) / 2) + 2) (width_at p - 1));
      try zdiv; destruct (decide ((i - 1) mod 2 = 0)); [left|right|left|right]; try (f_equal; zdiv);
      exfalso; destruct (width_even p) as (h & Hh & _); zdiv.
  - destruct q as [|l q]; [done|]. intros [= -> <-]. rewrite shiftr1. assert (i = 0) as -> by lia.
    destruct (width_even p) as (h & Hh & _).
    destruct (Z.ltb_spec (2 * ((width_at p + l - 2) / 2) + 1) (width_at p - 1)); [zdiv|].
    destruct (Z.ltb_spec (2 * ((width_at p + l - 2) / 2) + 2) (width_at p - 1)); [zdiv|].
    destruct (decide (l mod 2 = 0)); [left|right]; do 2 f_equal; zdiv.
Qed.

Lemma sibp_sibp x : valid x -> sibp (sibp x) = x.
Proof.
  destruct x as [p i]. positions. intros [Hi Hp]. destruct (Z.ltb_spec 0 i); cbn [fst snd].
  - rewrite lxor1_mod. destruct (Z.ltb_spec 0 (i - 1 + 1 - 2 * ((i - 1) mod 2) + 1)); [|zdiv].
    rewrite lxor1_mod. f_equal. zdiv.
  - assert (i = 0) as -> by lia. destruct p as [|l q]; [done|]. cbn. rewrite !lxor1_mod. do 2 f_equal. zdiv.
Qed.

Lemma log2_double a b : 0 < a -> b = 2 * a \/ b = 2 * a + 1 -> Z.log2 b = Z.log2 a + 1.
Proof.
  intros Ha [-> | ->]; [rewrite Z.log2_double by lia|rewrite Z.log2_succ_double by lia]; lia.
Qed.

Lemma dep_up x y : valid x -> up x = Some y -> dep x = dep y + 1.
Proof.
  destruct x as [p i]. unfold dep. positions. intros [Hi Hp]. destruct (Z.ltb_spec 0 i).
  - intros [= <-]. cbn [fst snd]. rewrite shiftr1. rewrite (log2_double ((i - 1) / 2 + 1) (i + 1)) by zdiv. lia.
  - destruct p as [|l q]; [done|]. intros [= <-]. cbn [fst snd]. assert (i = 0) as -> by lia.
    rewrite bitpos_cons, shiftr1. change (Z.log2 (0 + 1)) with 0. enough (Z.log2 ((width_at q + l - 2) / 2 + 1) = bits_at q - 1) by lia.
    apply Z.log2_unique; [by destruct q|]. replace (Z.succ (bits_at q - 1)) with (bits_at q) by lia.
    rewrite <- width_pow. assert (2 * 2 ^ (bits_at q - 1) = width_at q) by (by destruct q). zdiv.
Qed.

Lemma dep_nonneg x : valid x -> 0 <= dep x.
Proof. intros [Hi _]. unfold dep. pose proof (bitpos_nonneg (fst x)). pose proof (Z.log2_nonneg (snd x + 1)). lia. Qed.

Lemma dep_sibp x y : valid x -> up x = Some y -> dep (sibp x) = dep x.
Proof.
  intros Hx E. rewrite (dep_up x y), (dep_up (sibp x) y); auto using valid_sibp. by rewrite up_sibp.
Qed.

(** ** The invariant *)

(** The smaller of two counts, zero being none. *)
Definition minp (a b : Z) : Z := if a =? 0 then b else if b =? 0 then a else Z.min a b.

Ltac minp := unfold minp, lower in *; repeat (case_match; zbool); try lia.

(** The heap condition at a position. *)
Definition heap_at (N : nodes) (y : pos) : Prop :=
  A N y = minp (A N (kid (fst y) (2 * snd y + 1))) (A N (kid (fst y) (2 * snd y + 2))).

(** A position of a node without entry. *)
Definition inner (N : nodes) (y : pos) : Prop :=
  exists n, N !! fst y = Some n /\ mt_entry n = None /\ 0 <= snd y < width_at (fst y) - 1.

Record shape (N : nodes) : Prop := {
  sh_root : exists n, N !! [] = Some n /\ mt_entry n = None;
  sh_node : forall p n, N !! p = Some n ->
    mt_bits n = bits_at p /\ mt_width n = width_at p /\ #(mt_access n) = width_at p - 1;
  sh_child : forall l p n, N !! (l :: p) = Some n ->
    0 <= l < width_at p /\ exists m, N !! p = Some m /\ mt_entry m = None;
  sh_entry : forall p n k c, N !! p = Some n -> mt_entry n = Some (k, c) -> key32 k /\ onpath k p
}.

(** The counts of a node with entry are all zero but the first. *)
Definition leaf_zero (N : nodes) : Prop :=
  forall p n e i, N !! p = Some n -> mt_entry n = Some e -> i <> 0 -> A N (p, i) = 0.

Record tree_ok (N : nodes) : Prop := {
  ok_shape : shape N;
  ok_heap : forall y, inner N y -> heap_at N y;
  ok_leaf : leaf_zero N;
  ok_nonneg : forall x, 0 <= A N x
}.

(** All of a node but its counts. *)
Definition skel (n : memTree) := (mt_bits n, mt_width n, mt_entry n, mt_lastDBaccess n, #(mt_access n)).
Definition same (N N' : nodes) : Prop := skel <$> N = skel <$> N'.

Lemma minp_comm a b : minp a b = minp b a.
Proof. minp. Qed.

Lemma kids_any N z y :
  valid z -> up z = Some y ->
  minp (A N (kid (fst y) (2 * snd y + 1))) (A N (kid (fst y) (2 * snd y + 2))) = minp (A N z) (A N (sibp z)).
Proof.
  intros Hz E. destruct y as [p j]. pose proof (valid_up _ _ Hz E) as Hj. cbn in Hj. cbn [fst snd].
  destruct (up_kid _ _ _ Hz E) as [-> | ->]; [by rewrite kid_sibp|by rewrite kid_sibp', minp_comm].
Qed.

Lemma heap_at_any N z y :
  valid z -> up z = Some y -> (heap_at N y <-> A N y = minp (A N z) (A N (sibp z))).
Proof. intros Hz E. unfold heap_at. by rewrite (kids_any N z y). Qed.

Lemma same_lookup N N' p n :
  same N N' -> N !! p = Some n -> exists n', N' !! p = Some n' /\ skel n' = skel n.
Proof.
  intros E Hn. assert (skel <$> N !! p = skel <$> N' !! p) as Ep by (rewrite <- !lookup_fmap; by rewrite E).
  rewrite Hn in Ep. destruct (N' !! p) as [n'|]; [|done]. injection Ep as Ep. exists n'. split; [done|]. unfold skel. congruence.
Qed.

Lemma same_trans N N' N'' : same N N' -> same N' N'' -> same N N''.
Proof. unfold same. congruence. Qed.

Lemma same_sym N N' : same N N' -> same N' N.
Proof. unfold same. congruence. Qed.

Lemma same_shape N N' : same N N' -> shape N -> shape N'.
Proof.
  intros E [Hr Hn Hc He]. apply same_sym in E. split.
  - destruct Hr as (n & Hr & Hne). destruct (same_lookup _ _ _ _ (same_sym _ _ E) Hr) as (n' & -> & Es).
    exists n'. split; [done|]. unfold skel in Es. congruence.
  - intros p n Hp. destruct (same_lookup _ _ _ _ E Hp) as (n' & Hp' & Es).
    destruct (Hn p n' Hp') as (? & ? & ?). unfold skel in Es. split_and!; congruence.
  - intros l p n Hp. destruct (same_lookup _ _ _ _ E Hp) as (n' & Hp' & _).
    destruct (Hc _ _ _ Hp') as (Hl & m & Hm & Hme). split; [done|].
    destruct (same_lookup _ _ _ _ (same_sym _ _ E) Hm) as (m' & -> & Es). exists m'. split; [done|]. unfold skel in Es. congruence.
  - intros p n k c Hp Hk. destruct (same_lookup _ _ _ _ E Hp) as (n' & Hp' & Es).
    apply (He p n' k c Hp'). unfold skel in Es. congruence.
Qed.

Lemma same_inner N N' y : same N N' -> inner N y -> inner N' y.
Proof.
  intros E (n & Hn & He & Hy). destruct (same_lookup _ _ _ _ E Hn) as (n' & Hn' & Es).
  exists n'. unfold skel in Es. split_and!; [done|congruence|lia|lia].
Qed.

Lemma same_entry N N' p n e : same N N' -> N !! p = Some n -> mt_entry n = e -> exists n', N' !! p = Some n' /\ mt_entry n' = e.
Proof.
  intros E Hn He. destruct (same_lookup _ _ _ _ E Hn) as (n' & Hn' & Es). exists n'. unfold skel in Es. split; congruence.
Qed.

Lemma same_set_access N p i a : same N (set_access N p i a).
Proof.
  apply map_eq. intros q. rewrite !lookup_fmap. unfold set_access. rewrite lookup_alter. case_decide; [subst q|done].
  destruct (N !! p) as [n|]; [|done]. cbn. f_equal. unfold skel. cbn. unfold zlen. by rewrite length_insert.
Qed.

Lemma A_set_access N p i a n x :
  N !! p = Some n -> 0 <= i < #(mt_access n) -> A (set_access N p i a) x = if decide (x = (p, i)) then a else A N x.
Proof.
  intros Hn Hi. destruct x as [q j]. unfold A, set_access. cbn [fst snd]. rewrite lookup_alter. case_decide as Eq.
  - subst q. rewrite Hn. cbn. unfold index. cbn [mt_access]. destruct (decide (0 <= j)).
    + destruct (decide ((p, j) = (p, i))) as [[= ->]|Hne].
      * rewrite list_lookup_insert_eq; [done|]. zlia.
      * rewrite list_lookup_insert_ne; [done|]. intros E. apply Hne. f_equal. lia.
    + rewrite decide_False; [done|]. intros [= ->]. lia.
  - rewrite decide_False; [done|]. congruence.
Qed.

(** ** Access to counts *)

Lemma index_A N p i n : N !! p = Some n -> 0 <= i < #(mt_access n) -> index (mt_access n) i = Some (A N (p, i)).
Proof.
  intros Hn Hi. unfold A. cbn [fst snd]. rewrite Hn. cbn. destruct (index_lt (mt_access n) i Hi) as [v ->]. done.
Qed.

Lemma sub_access_A N p : shape N -> sub_access N p = Ret (A N (p, 0)).
Proof.
  intros Hs. unfold sub_access. destruct (N !! p) as [n|] eqn:Hn.
  - rewrite (index_A N p 0 n Hn); [done|]. destruct (sh_node _ Hs _ _ Hn) as (_ & _ & ->).
    destruct (width_even p) as (h & -> & ?). lia.
  - unfold A. cbn. by rewrite Hn.
Qed.

Lemma node_valid N p n i : shape N -> N !! p = Some n -> 0 <= i < width_at p - 1 -> valid (p, i).
Proof. intros Hs Hn Hi. split; [done|]. destruct p as [|l q]; [done|]. by destruct (sh_child _ Hs _ _ _ Hn). Qed.

Lemma inner_valid N y : shape N -> inner N y -> valid y.
Proof. destruct y as [p i]. intros Hs (n & Hn & _ & Hi). by apply (node_valid N p n). Qed.

(** The position above an existing one is of a node without entry. *)
Lemma up_inner N p n i y : shape N -> N !! p = Some n -> 0 <= i < width_at p - 1 -> (mt_entry n = None \/ i = 0) ->
  up (p, i) = Some y -> inner N y.
Proof.
  intros Hs Hn Hi He Hy. pose proof (valid_up _ _ (node_valid _ _ _ _ Hs Hn Hi) Hy) as Hv. revert Hy. unfold up. cbn [fst snd].
  destruct (Z.ltb_spec 0 i).
  - intros [= <-]. exists n. destruct He; [done|lia].
  - destruct p as [|l q]; [done|]. intros [= <-]. destruct (sh_child _ Hs _ _ _ Hn) as (_ & m & Hm & Hme). by exists m.
Qed.

(** ** updateAccess *)

(** One round of the loop in terms of positions. *)
Lemma updateAccess_step f N p i n a oa :
  shape N -> N !! p = Some n -> 0 <= i < width_at p - 1 ->
  updateAccess_loop (S f) N p i a oa =
    if A N (p, i) =? oa then
      match up (p, i) with
      | None => Ret (set_access N p i a)
      | Some y => updateAccess_loop f (set_access N p i a) (fst y) (snd y) (lower (A N (sibp (p, i))) a) oa
      end
    else Ret N.
Proof.
  intros Hs Hn Hi. destruct (sh_node _ Hs _ _ Hn) as (_ & _ & Hlen). pose proof (node_valid _ _ _ _ Hs Hn Hi) as Hv.
  cbn [updateAccess_loop]. rewrite Hn. cbn [or_crash obind]. rewrite (index_A N p i n Hn) by lia. cbn [or_crash obind].
  destruct (Z.eqb_spec (A N (p, i)) oa) as [Ho|]; [|done]. unfold up, sibp. cbn [fst snd]. destruct (Z.ltb_spec 0 i).
  - pose proof (valid_sibp _ Hv) as [Hsv _]. revert Hsv. unfold sibp. cbn [fst snd].
    destruct (Z.ltb_spec 0 i); [|lia]. cbn [fst snd]. intros Hsv. rewrite (index_A N p _ n Hn) by lia. done.
  - destruct p as [|l q]; [done|]. cbn [fst snd]. destruct (sh_child _ Hs _ _ _ Hn) as (_ & m & Hm & _).
    assert (Hm' : set_access N (l :: q) i a !! q = Some m).
    { unfold set_access. rewrite lookup_alter_ne; [done|]. intros E. apply (f_equal length) in E. cbn in E. lia. }
    rewrite Hm'. cbn [or_crash obind]. destruct (sh_node _ Hs _ _ Hm) as (_ & -> & _).
    rewrite sub_access_A by (by eapply same_shape; [apply same_set_access|]). cbn [obind].
    rewrite (A_set_access N _ _ _ n) by (done || lia).
    rewrite decide_False; [done|]. intros [= E _]. rewrite lxor1_mod in E. zdiv.
Qed.

(** The state of the loop at a position: the heap condition holds elsewhere, and [a] is the
    count that the position should have. *)
Record climbing (N : nodes) (p : ptr) (i a oa : Z) : Prop := {
  cl_shape : shape N;
  cl_leaf : leaf_zero N;
  cl_nonneg : forall x, 0 <= A N x;
  cl_node : exists n, N !! p = Some n /\ (mt_entry n = None \/ i = 0);
  cl_range : 0 <= i < width_at p - 1;
  cl_heap : forall y, inner N y -> y <> (p, i) -> heap_at N y;
  cl_here : inner N (p, i) ->
    a = minp (A N (kid p (2 * i + 1))) (A N (kid p (2 * i + 2))) /\ (A N (p, i) <> oa -> A N (p, i) = a);
  cl_pos : 0 < a;
  cl_old : 0 <= oa;
  cl_new : A N (p, i) = oa -> oa <= a /\ (oa = 0 -> forall x, A N x <= a)
}.

Lemma leaf_zero_set N p i a n :
  shape N -> leaf_zero N -> N !! p = Some n -> 0 <= i < width_at p - 1 -> (mt_entry n = None \/ i = 0) ->
  leaf_zero (set_access N p i a).
Proof.
  intros Hs Hl Hn Hi He q m e j Hm Hme Hj. destruct (same_entry _ N q m (Some e) (same_sym _ _ (same_set_access N p i a)) Hm Hme) as (m' & Hm' & Hme').
  rewrite (A_set_access N p i a n _ Hn) by (destruct (sh_node _ Hs _ _ Hn) as (_ & _ & ->); lia).
  rewrite decide_False; [by eapply Hl|]. intros [= -> ->]. destruct He; congruence.
Qed.

(** Setting a count breaks the heap condition only there and above. *)
Lemma heap_at_set N p i a n y :
  shape N -> N !! p = Some n -> 0 <= i < width_at p - 1 -> valid y -> y <> (p, i) -> up (p, i) <> Some y ->
  (heap_at (set_access N p i a) y <-> heap_at N y).
Proof.
  intros Hs Hn Hi [Hy _] Hne Hup. unfold heap_at.
  assert (Hlen : 0 <= i < #(mt_access n)) by (destruct (sh_node _ Hs _ _ Hn) as (_ & _ & ->); lia).
  rewrite !(A_set_access N p i a n) by done. rewrite !decide_False; [done|..]; try done;
    intros E; apply Hup; rewrite <- E; destruct y as [q j]; apply kid_up; cbn in *; lia.
Qed.

Lemma climbing_next N p i a oa y :
  climbing N p i a oa -> A N (p, i) = oa -> up (p, i) = Some y ->
  climbing (set_access N p i a) (fst y) (snd y) (lower (A N (sibp (p, i))) a) oa.
Proof.
  intros [Hs Hl H0 (n & Hn & He) Hi Hh Hhere Hpos Hold Hnew] Ho Hy. destruct (Hnew Ho) as [Hoa Hnew0].
  pose proof (node_valid _ _ _ _ Hs Hn Hi) as Hv. pose proof (up_inner _ _ _ _ _ Hs Hn Hi He Hy) as Hin.
  assert (Hlen : 0 <= i < #(mt_access n)) by (destruct (sh_node _ Hs _ _ Hn) as (_ & _ & ->); lia).
  assert (Hne : y <> (p, i)) by (intros ->; pose proof (dep_up _ _ Hv Hy); lia).
  pose proof (proj1 (heap_at_any N _ _ Hv Hy) (Hh y Hin Hne)) as Hyv.
  set (s := A N (sibp (p, i))) in *. pose proof (H0 (sibp (p, i))) as Hs0. fold s in Hs0.
  assert (Ha : forall x, A (set_access N p i a) x = if decide (x = (p, i)) then a else A N x)
    by (intros; by apply (A_set_access N p i a n)).
  assert (Hlow : lower s a = minp a s) by (clear - Hpos Hs0; minp).
  rewrite Ho in Hyv.
  split.
  - eapply same_shape; [apply same_set_access|done].
  - by eapply leaf_zero_set.
  - intros x. rewrite Ha. case_decide; [lia|apply H0].
  - destruct Hin as (m & Hm & Hme & _). destruct (same_entry _ _ _ _ _ (same_set_access N p i a) Hm Hme) as (m' & Hm' & ?). eauto.
  - by apply (valid_up (p, i)).
  - intros z Hz Hzy. destruct (decide (z = (p, i))) as [-> |Hzp].
    + assert (Hin' : inner N (p, i)) by (by eapply same_inner; [apply same_sym, same_set_access|]).
      destruct (Hhere Hin') as [Hk _]. unfold heap_at. cbn [fst snd]. rewrite !Ha, decide_True by done.
      rewrite !decide_False; [done|..]; intros E;
        pose proof (dep_up (p, i) (p, i) Hv ltac:(rewrite <- E at 1; apply kid_up; lia)); lia.
    + apply (heap_at_set N p i a n); try done.
      * by eapply inner_valid, Hz; eapply same_shape; [apply same_set_access|].
      * intros E. rewrite Hy in E. injection E as E. apply Hzy. rewrite <- E. by destruct y.
      * apply Hh; [by eapply same_inner; [apply same_sym, same_set_access|]|done].
  - intros _. pose proof (kids_any (set_access N p i a) _ _ Hv Hy) as E.
    rewrite !Ha, (decide_True (P := (p, i) = (p, i))), (decide_False (P := sibp (p, i) = (p, i))) in E
      by (done || by eapply sibp_ne). fold s in E. rewrite <- !Ha in E.
    destruct y as [q j]. cbn [fst snd] in *. rewrite E, Hlow. split; [done|]. rewrite Ha, decide_False by done. rewrite Hyv. intros Hc.
    destruct (decide (oa = 0)) as [Hz|Hz].
    + pose proof (Hnew0 Hz (sibp (p, i))) as Hb. fold s in Hb. clear - Hb Hs0 Hpos Hz Hc. minp.
    + clear - Hs0 Hpos Hz Hc Hoa Hold. minp.
  - rewrite Hlow. clear - Hs0 Hpos. minp.
  - done.
  - destruct y as [q j]. cbn [fst snd] in *. rewrite Ha, decide_False by done. rewrite Hyv, Hlow. intros Hc. split; [clear - Hc Hs0 Hoa Hold Hpos; minp|].
    intros Hz x. rewrite Ha. assert (s = 0) as -> by (clear - Hc Hz; minp). specialize (Hnew0 Hz x). clear - Hnew0 Hpos. case_decide; minp.
Qed.

(** The end of the loop: the heap condition holds everywhere. *)
Lemma climbing_done N p i a oa : climbing N p i a oa -> A N (p, i) <> oa -> tree_ok N.
Proof.
  intros [Hs Hl H0 _ _ Hh Hhere _ _ _] Hne. split; [done| |done|done].
  intros y Hy. destruct (decide (y = (p, i))) as [-> |]; [|by apply Hh]. destruct (Hhere Hy) as [Ha E].
  unfold heap_at. cbn [fst snd]. rewrite <- Ha. auto.
Qed.

Lemma climbing_root N a oa : climbing N [] 0 a oa -> tree_ok (set_access N [] 0 a).
Proof.
  intros [Hs Hl H0 (n & Hn & He) Hi Hh Hhere Hpos _ _]. pose proof (node_valid _ _ _ _ Hs Hn Hi) as Hv.
  assert (Hin : inner N ([], 0)) by (destruct (sh_root _ Hs) as (m & Hm & Hme); exists m; done).
  assert (Ha : forall x, A (set_access N [] 0 a) x = if decide (x = ([], 0)) then a else A N x).
  { intros. apply (A_set_access N [] 0 a n); [done|]. destruct (sh_node _ Hs _ _ Hn) as (_ & _ & ->). done. }
  split.
  - eapply same_shape; [apply same_set_access|done].
  - intros y Hy. destruct (decide (y = ([], 0))) as [-> |Hne].
    + destruct (Hhere Hin) as [Hk _]. unfold heap_at. cbn [fst snd]. by rewrite !Ha.
    + apply (heap_at_set N [] 0 a n); try done.
      * by eapply inner_valid, Hy; eapply same_shape; [apply same_set_access|].
      * apply Hh; [by eapply same_inner; [apply same_sym, same_set_access|]|done].
  - by eapply leaf_zero_set; eauto.
  - intros x. rewrite Ha. case_decide; [lia|apply H0].
Qed.

(** What a walk from [x] leaves alone: counts of entries, and bounds of counts. *)
Record walked (N : nodes) (x : pos) (a : Z) (N' : nodes) : Prop := {
  wk_same : same N N';
  wk_entries : forall p n e, N !! p = Some n -> mt_entry n = Some e -> (p, 0) <> x -> A N' (p, 0) = A N (p, 0);
  wk_bound : forall m, a <= m -> (forall z, A N z <= m) -> forall z, A N' z <= m
}.

Lemma updateAccess_loop_ok fuel N p i a oa :
  climbing N p i a oa -> dep (p, i) < Z.of_nat fuel ->
  exists N', updateAccess_loop fuel N p i a oa = Ret N' /\ tree_ok N' /\ walked N (p, i) a N' /\
    (forall n e, N !! p = Some n -> mt_entry n = Some e -> A N (p, i) = oa -> A N' (p, i) = a).
Proof.
  revert N p i a. induction fuel as [|f IH]; intros N p i a Hc Hf.
  { exfalso. pose proof (bitpos_nonneg p). unfold dep in Hf. cbn in Hf. pose proof (Z.log2_nonneg (i + 1)). lia. }
  pose proof Hc as [Hs Hl H0 (n & Hn & He) Hi _ _ _ _ _]. pose proof (node_valid _ _ _ _ Hs Hn Hi) as Hv.
  rewrite (updateAccess_step f N p i n) by done.
  destruct (Z.eqb_spec (A N (p, i)) oa) as [Ho|Ho].
  2: { exists N. split_and!; [done|by eapply climbing_done| |done]. split; [done|done|auto]. }
  assert (Ha : forall x, A (set_access N p i a) x = if decide (x = (p, i)) then a else A N x).
  { intros. apply (A_set_access N p i a n); [done|]. destruct (sh_node _ Hs _ _ Hn) as (_ & _ & ->). done. }
  assert (Hw : walked N (p, i) a (set_access N p i a)).
  { split; [apply same_set_access| |].
    - intros q m e _ _ Hne. by rewrite Ha, decide_False.
    - intros m Hm Hb z. rewrite Ha. case_decide; [done|apply Hb]. }
  destruct (up (p, i)) as [y|] eqn:Hy.
  - pose proof (climbing_next _ _ _ _ _ _ Hc Ho Hy) as Hc'. pose proof (up_inner _ _ _ _ _ Hs Hn Hi He Hy) as Hin.
    destruct (IH _ _ _ _ Hc') as (N' & E & Hok & [Hsame Hent Hbnd] & _).
    { pose proof (dep_up _ _ Hv Hy). destruct y as [q j]. cbn [fst snd]. lia. }
    rewrite E. exists N'.
    assert (Hent' : forall q m e, N !! q = Some m -> mt_entry m = Some e -> A N' (q, 0) = A (set_access N p i a) (q, 0)).
    { intros q m e Hm Hme. destruct (same_entry _ _ _ _ _ (same_set_access N p i a) Hm Hme) as (m' & Hm' & Hme').
      apply (Hent q m' e Hm' Hme'). intros Ey. destruct Hin as (k & Hk & Hke & _). destruct y as [q' j'].
      cbn [fst snd] in *. simplify_eq. }
    split_and!; [done|done| |].
    + split.
      * eapply same_trans; [apply same_set_access|done].
      * intros q m e Hm Hme Hne. rewrite (Hent' q m e Hm Hme). by rewrite Ha, decide_False.
      * intros m Hm Hb. apply Hbnd; [|apply Hw; done]. specialize (Hb (sibp (p, i))). clear - Hb Hm. minp.
    + intros m e Hm Hme _. simplify_eq. destruct He as [He| ->]; [congruence|]. by rewrite (Hent' p n e), Ha, decide_True.
  - exists (set_access N p i a). assert (p = [] /\ i = 0) as [-> ->].
    { revert Hy. unfold up. cbn [fst snd]. destruct (Z.ltb_spec 0 i); [done|]. destruct p; [|done]. split; [done|lia]. }
    split_and!; [done|by eapply climbing_root|done|]. intros. by rewrite Ha, decide_True.
Qed.

Lemma climb_fuel_ok p : dep (p, 0) < Z.of_nat (climb_fuel p).
Proof.
  unfold dep, climb_fuel. cbn [fst snd]. change (Z.log2 (0 + 1)) with 0. rewrite Nat2Z.inj_mul.
  destruct p as [|l p]; cbn [bitpos_at length]; zlia.
Qed.

(** An access: the entry at [p] gets the count [a], which is the largest so far. *)
Lemma updateAccess_ok N p n e a :
  tree_ok N -> N !! p = Some n -> mt_entry n = Some e -> 0 < a -> (forall x, A N x <= a) ->
  exists N', updateAccess N p a = Ret N' /\ tree_ok N' /\ walked N (p, 0) a N' /\ A N' (p, 0) = a.
Proof.
  intros [Hs Hh Hl H0] Hn He Ha Hb. pose proof (sh_node _ Hs _ _ Hn) as (_ & _ & Hlen).
  destruct (width_even p) as (h & Hw & Hh2). unfold updateAccess. rewrite Hn. cbn [or_crash obind].
  rewrite (index_A N p 0 n Hn) by lia. cbn [or_crash obind].
  destruct (updateAccess_loop_ok (climb_fuel p) N p 0 a (A N (p, 0))) as (N' & E & Hok & Hwk & Hx).
  - split; try done; eauto; try lia.
    + intros (m & Hm & Hme & _). cbn in Hm. congruence.
  - apply climb_fuel_ok.
  - exists N'. split_and!; try done. by eapply Hx.
Qed.
