(* ===== verification/MemEvict.v ===== *)
(** [removeOldest] of the memory cache ([MemStore]): the descent follows the smallest
    count to the entry that has it, leaving on its way the counts of the siblings, and the
    walk back restores the invariant of [MemInv]. *)
From stdpp Require Import base gmap list strings.
From Stdlib Require Import ZArith Lia.
From S2P Require Import Prelude Types MemStore MemInv.

(** ** Descents fit their fuel *)

Fixpoint tails (p : ptr) : list ptr := p :: match p with [] => [] | _ :: q => tails q end.

Lemma tails_length p q : q ∈ tails p -> (length q <= length p)%nat.
Proof.
  induction p as [|l p IH]; cbn; rewrite ?elem_of_cons, ?elem_of_nil; intros [-> |Hq]; try done.
  apply IH in Hq. lia.
Qed.

Lemma depth_lt_size N p n : shape N -> N !! p = Some n -> (length p < size N)%nat.
Proof.
  intros Hs Hn.
  assert (Hin : forall q, q ∈ tails p -> is_Some (N !! q)).
  { revert n Hn. induction p as [|l p IH]; intros n Hn q; cbn; rewrite ?elem_of_cons, ?elem_of_nil; intros [-> |Hq]; try done.
    destruct (sh_child _ Hs _ _ _ Hn) as (_ & m & Hm & _). by eapply IH. }
  assert (Hnd : NoDup (tails p)).
  { clear. induction p as [|l p IH]; cbn; constructor; try done; [set_solver|constructor|]. intros Hin. apply tails_length in Hin. cbn in Hin. lia. }
  assert (Hlen : length (tails p) = S (length p)) by (clear; induction p; cbn; lia).
  rewrite <- (size_dom (D := gset ptr)), <- Nat.le_succ_l, <- Hlen, <- (size_list_to_set (C := gset ptr)) by done.
  apply subseteq_size. intros q. rewrite elem_of_list_to_set, elem_of_dom. apply Hin.
Qed.

(** ** Positions above *)

(** [anc x z]: [z] is [x] or above it. *)
Inductive anc (x : pos) : pos -> Prop :=
| anc_refl : anc x x
| anc_up z y : anc x z -> up z = Some y -> anc x y.

Definition present (N : nodes) (x : pos) : Prop :=
  exists n, N !! fst x = Some n /\ (mt_entry n = None \/ snd x = 0) /\ 0 <= snd x < width_at (fst x) - 1.

Lemma present_valid N x : shape N -> present N x -> valid x.
Proof. destruct x as [p i]. intros Hs (n & Hn & _ & Hi). by apply (node_valid N p n). Qed.

Lemma present_up N x y : shape N -> present N x -> up x = Some y -> inner N y.
Proof. destruct x as [p i]. intros Hs (n & Hn & He & Hi). by apply (up_inner N p n i). Qed.

Lemma inner_present N y : inner N y -> present N y.
Proof. intros (n & Hn & He & Hi). exists n. auto. Qed.

Lemma same_present N N' x : same N N' -> present N x -> present N' x.
Proof.
  intros E (n & Hn & He & Hi). destruct (same_lookup _ _ _ _ E Hn) as (n' & Hn' & Es).
  exists n'. split_and!; [done| |lia|lia]. unfold skel in Es. destruct He; [left; congruence|by right].
Qed.

Lemma anc_present N x z : shape N -> present N x -> anc x z -> present N z.
Proof. intros Hs Hx. induction 1; [done|]. eapply inner_present, present_up; eauto. Qed.

Lemma anc_dep N x z : shape N -> present N x -> anc x z -> dep z < dep x \/ z = x.
Proof.
  intros Hs Hx. induction 1 as [|z y Hz IH Hy]; [by right|]. left.
  pose proof (dep_up z y (present_valid _ _ Hs (anc_present _ _ _ Hs Hx Hz)) Hy). destruct IH as [| ->]; lia.
Qed.

Lemma anc_cases x y z : up z = Some x -> anc z y -> y = z \/ anc x y.
Proof.
  intros Hx. induction 1 as [|w y Hw IH Hy]; [by left|]. right. destruct IH as [-> |IH].
  - rewrite Hx in Hy. injection Hy as ->. constructor.
  - by eapply anc_up.
Qed.

Lemma anc_below x y z : up z = Some x -> anc x y -> anc z y.
Proof. intros Hx. induction 1; [eapply anc_up; [constructor|done]|by eapply anc_up]. Qed.

(** ** A tree with a way to [x] taken out *)

Record hole (N : nodes) (x : pos) : Prop := {
  ho_shape : shape N;
  ho_leaf : leaf_zero N;
  ho_nonneg : forall z, 0 <= A N z;
  ho_here : present N x;
  ho_way : forall z y, anc x z -> up z = Some y -> A N y = A N (sibp z);
  ho_heap : forall y, inner N y -> heap_at N y \/ exists z, anc x z /\ up z = Some y
}.

Lemma A_set N x a : shape N -> present N x ->
  forall z, A (set_access N (fst x) (snd x) a) z = if decide (z = x) then a else A N z.
Proof.
  destruct x as [p i]. intros Hs (n & Hn & _ & Hi) z. cbn [fst snd] in *.
  apply (A_set_access N p i a n); [done|]. by destruct (sh_node _ Hs _ _ Hn) as (_ & _ & ->).
Qed.

(** The sibling of a position above is not on the way. *)
Lemma sibp_off N x z y : shape N -> present N x -> anc x z -> up z = Some y -> sibp z <> x.
Proof.
  intros Hs Hx Hz Hy E. pose proof (present_valid _ _ Hs (anc_present _ _ _ Hs Hx Hz)) as Hv.
  pose proof (dep_sibp z y Hv Hy) as Hd. rewrite E in Hd.
  destruct (anc_dep _ _ _ Hs Hx Hz) as [|Ez]; [lia|]. subst z. by apply (sibp_ne x y).
Qed.

Lemma set_keeps N x a :
  shape N -> leaf_zero N -> (forall z, 0 <= A N z) -> present N x -> 0 <= a ->
  let N' := set_access N (fst x) (snd x) a in
  shape N' /\ leaf_zero N' /\ (forall z, 0 <= A N' z) /\ forall y, inner N' y <-> inner N y.
Proof.
  intros Hs Hl H0 Hx Ha. cbn zeta. split_and!.
  - eapply same_shape; [apply same_set_access|done].
  - destruct x as [p i], Hx as (n & Hn & He & Hi). by eapply leaf_zero_set.
  - intros z. rewrite (A_set N x) by done. case_decide; [done|apply H0].
  - intros y. split; apply same_inner; [apply same_sym|]; apply same_set_access.
Qed.

(** The descent goes from [x] to [z] below it. *)
Lemma hole_down N x z :
  hole N x -> present N z -> up z = Some x -> hole (set_access N (fst x) (snd x) (A N (sibp z))) z.
Proof.
  intros [Hs Hl H0 Hx Hway Hh] Hz Hup. pose proof (present_valid _ _ Hs Hz) as Hvz.
  destruct (set_keeps N x (A N (sibp z)) Hs Hl H0 Hx (H0 _)) as (Hs' & Hl' & H0' & Hin).
  pose proof (A_set N x (A N (sibp z)) Hs Hx) as HA. pose proof (dep_up z x Hvz Hup) as Hd.
  split; try done.
  - eapply same_present; [apply same_set_access|done].
  - intros w y Hw Hy. destruct (anc_cases _ _ _ Hup Hw) as [-> |Hw'].
    + rewrite Hup in Hy. injection Hy as <-. rewrite !HA, decide_True by done. rewrite decide_False; [done|].
      intros E. pose proof (dep_sibp z x Hvz Hup) as Hds. rewrite E in Hds. lia.
    + rewrite !HA. rewrite decide_False.
      * rewrite decide_False; [by apply Hway|]. by apply (sibp_off N x w y).
      * intros ->. pose proof (dep_up w x (present_valid _ _ Hs (anc_present _ _ _ Hs Hx Hw')) Hy).
        destruct (anc_dep _ _ _ Hs Hx Hw') as [| ->]; lia.
  - intros y Hy. apply Hin in Hy. destruct (decide (y = x)) as [-> |Hne]; [right; exists z; split; [constructor|done]|].
    destruct (Hh y Hy) as [Hhy|(w & Hw & Hwy)]; [|right; exists w; eauto using anc_below].
    destruct (decide (up x = Some y)) as [Hxy|Hxy]; [right; exists x; split; [by eapply anc_up; [constructor|]|done]|].
    left. destruct x as [p i], Hx as (n & Hn & He & Hi). apply (heap_at_set N p i _ n); try done. by apply (inner_valid N).
Qed.

(** The walk back goes from [x] to [y] above it. *)
Lemma hole_up N x y :
  hole N x -> up x = Some y -> hole (set_access N (fst y) (snd y) (minp (A N x) (A N y))) y.
Proof.
  intros [Hs Hl H0 Hx Hway Hh] Hup. pose proof (present_valid _ _ Hs Hx) as Hvx.
  pose proof (present_up _ _ _ Hs Hx Hup) as Hiny. pose proof (inner_present _ _ Hiny) as Hy.
  assert (Hm : 0 <= minp (A N x) (A N y)) by (pose proof (H0 x); pose proof (H0 y); minp).
  destruct (set_keeps N y _ Hs Hl H0 Hy Hm) as (Hs' & Hl' & H0' & Hin). pose proof (A_set N y (minp (A N x) (A N y)) Hs Hy) as HA.
  pose proof (dep_up x y Hvx Hup) as Hd. split; try done.
  - eapply same_present; [apply same_set_access|done].
  - intros z w Hz Hw. rewrite !HA. rewrite decide_False.
    + rewrite decide_False; [apply Hway; [by eapply anc_below|done]|]. by apply (sibp_off N y z w).
    + intros ->. pose proof (dep_up z y (present_valid _ _ Hs (anc_present _ _ _ Hs Hy Hz)) Hw).
      destruct (anc_dep _ _ _ Hs Hy Hz) as [| ->]; lia.
  - intros w Hw. apply Hin in Hw. destruct (decide (w = y)) as [-> |Hne].
    + left. apply (heap_at_any _ x); [done..|]. rewrite !HA, decide_True by done.
      rewrite !decide_False; [by rewrite (Hway x y) by (constructor || done)|..].
      * intros E. pose proof (dep_sibp x y Hvx Hup) as E'. rewrite E in E'. lia.
      * intros ->. lia.
    + destruct (Hh w Hw) as [Hhw|(z & Hz & Hzw)].
      * destruct (decide (up y = Some w)) as [Hyw|Hyw]; [right; exists y; split; [constructor|done]|].
        left. destruct y as [p i], Hy as (n & Hn & He & Hi). apply (heap_at_set N p i _ n); try done. by apply (inner_valid N).
      * destruct (anc_cases _ _ _ Hup Hz) as [-> |Hz']; [simplify_eq|]. right. eauto.
Qed.

(** ** The loops *)

(** The counts do not grow. *)
Definition bounded (N N' : nodes) : Prop := forall m, (forall z, A N z <= m) -> forall z, A N' z <= m.

(** The nodes without counts and the counts of entries are as before. *)
Definition kept (N N' : nodes) : Prop :=
  same N N' /\ (forall p n e, N !! p = Some n -> mt_entry n = Some e -> A N' (p, 0) = A N (p, 0)) /\ bounded N N'.

Lemma kept_refl N : kept N N.
Proof. by split_and!; [| |intros ? ?]. Qed.
#[local] Hint Resolve kept_refl : core.

Lemma kept_trans N N' N'' : kept N N' -> kept N' N'' -> kept N N''.
Proof.
  intros (Hs & HA & Hb) (Hs' & HA' & Hb'). split_and!; [by eapply same_trans| |unfold bounded in *; auto].
  intros p n e Hn He. destruct (same_entry _ _ _ _ _ Hs Hn He) as (n' & Hn' & He').
  rewrite (HA' p n' e Hn' He'). by eapply HA.
Qed.

Lemma kept_set N x a :
  shape N -> inner N x -> (forall m, (forall z, A N z <= m) -> a <= m) -> kept N (set_access N (fst x) (snd x) a).
Proof.
  intros Hs Hx Ha. split_and!; [apply same_set_access| |].
  - intros p n e Hn He. rewrite (A_set N x) by auto using inner_present.
    rewrite decide_False; [done|]. intros <-. destruct Hx as (m & Hm & Hme & _). cbn in Hm. congruence.
  - intros m Hm z. rewrite (A_set N x) by auto using inner_present. case_decide; auto.
Qed.

Lemma hole_heap N x : hole N x -> inner N x -> heap_at N x.
Proof.
  intros [Hs _ _ Hx _ Hh] Hin. destruct (Hh x Hin) as [|(z & Hz & Hzx)]; [done|].
  pose proof (dep_up z x (present_valid _ _ Hs (anc_present _ _ _ Hs Hx Hz)) Hzx).
  destruct (anc_dep _ _ _ Hs Hx Hz) as [| ->]; lia.
Qed.

Lemma hole_root N : tree_ok N <-> hole N ([], 0).
Proof.
  assert (Hanc : forall z y, anc ([], 0) z -> up z = Some y -> False).
  { intros z y Hz. revert y. induction Hz as [|z w Hz IH Hw]; [done|]. intros y _. by apply (IH w). }
  split.
  - intros [Hs Hh Hl H0]. split; try done; [| |eauto].
    + destruct (sh_root _ Hs) as (n & Hn & He). exists n. cbn. auto with lia.
    + intros z y Hz Hy. destruct (Hanc _ _ Hz Hy).
  - intros [Hs Hl H0 _ _ Hh]. split; try done. intros y Hy. destruct (Hh y Hy) as [|(z & Hz & Hzy)]; [done|].
    destruct (Hanc _ _ Hz Hzy).
Qed.

(** One step of the descent to a position below with the same count. *)
Lemma hole_step N x z av :
  hole N x -> inner N x -> present N z -> up z = Some x -> A N z = av ->
  let N' := set_access N (fst x) (snd x) (A N (sibp z)) in
  hole N' z /\ present N' z /\ A N' z = av /\ kept N N'.
Proof.
  intros Hh Hx Hz Hup Hav. pose proof (ho_shape _ _ Hh) as Hs. cbn zeta. split_and!.
  - by apply hole_down.
  - eapply same_present; [apply same_set_access|done].
  - rewrite (A_set N x) by auto using inner_present. rewrite decide_False; [done|].
    intros ->. pose proof (dep_up x x (present_valid _ _ Hs Hz) Hup). lia.
  - apply kept_set; auto.
Qed.

Lemma oldest_inner_ok fuel N p i av :
  hole N (p, i) -> inner N (p, i) -> A N (p, i) = av -> av <> 0 -> bits_at p - Z.log2 (i + 1) <= Z.of_nat fuel ->
  exists j N', oldest_inner fuel N p i av = Ret (j, N') /\ hole N' (p, j) /\ inner N' (p, j) /\ A N' (p, j) = av /\
    width_at p / 2 - 1 <= j /\ kept N N'.
Proof.
  revert N i. induction fuel as [|f IH]; intros N i Hh Hin Hav Hne Hf.
  { exfalso. destruct Hin as (_ & _ & _ & Hi). cbn in Hi. rewrite width_pow in Hi.
    assert (Z.log2 (i + 1) < bits_at p); [|lia]. apply Z.log2_lt_pow2; lia. }
  pose proof (ho_shape _ _ Hh) as Hs. pose proof Hin as (n & Hn & He & Hi). cbn in Hn, Hi.
  destruct (sh_node _ Hs _ _ Hn) as (_ & Hw & Hlen). destruct (width_even p) as (h & Hwh & Hh2).
  cbn [oldest_inner]. rewrite Hn. cbn [or_crash obind]. rewrite Hw, (Z.mul_comm i).
  assert (h = width_at p / 2) as Hhw by zdiv. rewrite <- Hhw.
  destruct (Z.ltb_spec i (h - 1)) as [Hlt|Hge].
  2: { exists i, N. by split_and!. }
  rewrite !(index_A N p _ n Hn) by lia. cbn [or_crash obind].
  pose proof (hole_heap _ _ Hh Hin) as Hheap. unfold heap_at, kid in Hheap. cbn [fst snd] in Hheap.
  destruct (Z.ltb_spec (2 * i + 1) (width_at p - 1)); [|lia]. destruct (Z.ltb_spec (2 * i + 2) (width_at p - 1)); [|lia].
  assert (Hstep : forall j, j = 2 * i + 1 \/ j = 2 * i + 2 -> A N (p, j) = av ->
    exists j' N', oldest_inner f (set_access N p i (A N (sibp (p, j)))) p j av = Ret (j', N') /\ hole N' (p, j') /\ inner N' (p, j') /\
      A N' (p, j') = av /\ h - 1 <= j' /\ kept N N').
  { intros j Hj Hjav. assert (Hij : inner N (p, j)) by (exists n; cbn; split_and!; try done; lia).
    assert (Hup : up (p, j) = Some (p, i)).
    { replace (p, j) with (kid p j); [apply kid_up; lia|]. unfold kid. destruct (Z.ltb_spec j (width_at p - 1)); [done|lia]. }
    destruct (hole_step N (p, i) (p, j) av) as (Hh' & Hp' & Ha' & Hk'); try done; [by apply inner_present|].
    cbn [fst snd] in *. rewrite Hhw. destruct (IH (set_access N p i (A N (sibp (p, j)))) j) as (j' & N' & E & ? & ? & ? & ? & Hk); try done.
    - eapply same_inner; [apply same_set_access|done].
    - rewrite (log2_double (i + 1) (j + 1)) by lia. lia.
    - exists j', N'. split_and!; try done. by eapply kept_trans. }
  pose proof (ho_nonneg _ _ Hh (p, 2 * i + 1)). pose proof (ho_nonneg _ _ Hh (p, 2 * i + 2)).
  assert (Hsib : sibp (p, 2 * i + 1) = (p, 2 * i + 2) /\ sibp (p, 2 * i + 2) = (p, 2 * i + 1)).
  { pose proof (kid_sibp p i Hi) as E1. pose proof (kid_sibp' p i Hi) as E2. unfold kid in E1, E2.
    destruct (Z.ltb_spec (2 * i + 1) (width_at p - 1)); [|lia]. destruct (Z.ltb_spec (2 * i + 2) (width_at p - 1)); [|lia]. done. }
  destruct Hsib as [Hs1 Hs2]. destruct (Z.eqb_spec av (A N (p, 2 * i + 1))) as [E1|E1].
  - rewrite <- Hs1. apply Hstep; [lia|done].
  - destruct (Z.eqb_spec av (A N (p, 2 * i + 2))) as [E2|E2].
    + rewrite <- Hs2. apply Hstep; [lia|done].
    + exfalso. rewrite Hav in Hheap. clear - Hheap E1 E2 Hne. minp.
Qed.

(** From the last position of a node to a subtree with the same count. *)
Lemma sub_has_ok N p av : shape N -> av <> 0 -> sub_has N p av = Ret (av =? A N (p, 0)).
Proof.
  intros Hs Hav. unfold sub_has. destruct (N !! p) as [n|] eqn:Hn.
  - rewrite (index_A N p 0 n Hn); [done|]. destruct (sh_node _ Hs _ _ Hn) as (_ & _ & ->).
    destruct (width_even p) as (h & -> & ?). lia.
  - assert (A N (p, 0) = 0) as -> by (unfold A; cbn; by rewrite Hn). by destruct (Z.eqb_spec av 0).
Qed.

Lemma A_present N l p : shape N -> A N (l :: p, 0) <> 0 -> present N (l :: p, 0).
Proof.
  intros Hs Ha. destruct (N !! (l :: p)) as [n|] eqn:Hn; [|by unfold A in Ha; cbn in Ha; rewrite Hn in Ha].
  exists n. cbn. split_and!; [done|by right|lia|lia].
Qed.

Lemma oldest_loop_ok fuel N p av :
  hole N (p, 0) -> A N (p, 0) = av -> av <> 0 -> (size N <= fuel + length p)%nat ->
  exists q n e N', oldest_loop fuel N p = Ret (q, N') /\ hole N' (q, 0) /\ N' !! q = Some n /\ mt_entry n = Some e /\
    A N' (q, 0) = av /\ kept N N'.
Proof.
  revert N p. induction fuel as [|f IH]; intros N p Hh Hav Hne Hf; pose proof (ho_shape _ _ Hh) as Hs;
    pose proof (ho_here _ _ Hh) as (n & Hn & _ & Hi); cbn in Hn, Hi; pose proof (depth_lt_size _ _ _ Hs Hn) as Hsz; [lia|].
  cbn [oldest_loop]. rewrite Hn. cbn [or_crash obind]. destruct (mt_entry n) as [e|] eqn:He.
  { exists p, n, e, N. by split_and!. }
  destruct (sh_node _ Hs _ _ Hn) as (_ & Hw & Hlen). rewrite (index_A N p 0 n Hn) by lia. cbn [or_crash obind]. rewrite Hav.
  assert (Hin : inner N (p, 0)) by (by exists n).
  destruct (oldest_inner_ok 16 N p 0 av) as (j & N1 & -> & Hh1 & Hin1 & Ha1 & Hj & Hk1); try done; [by destruct p|].
  cbn [obind]. pose proof (ho_shape _ _ Hh1) as Hs1. pose proof (proj1 Hk1) as Hsm.
  destruct (width_even p) as (h & Hwh & Hh2). rewrite Hw.
  assert (Hjr : 0 <= j < width_at p - 1) by (by destruct Hin1 as (_ & _ & _ & ?)).
  replace (j * 2 + 2 - width_at p) with (2 * j + 1 - (width_at p - 1)) by lia.
  replace (2 * j + 1 - (width_at p - 1) + 1) with (2 * j + 2 - (width_at p - 1)) by lia.
  pose proof (hole_heap _ _ Hh1 Hin1) as Hheap. unfold heap_at in Hheap. cbn [fst snd] in Hheap.
  assert (Hk : forall i, i = 2 * j + 1 \/ i = 2 * j + 2 -> kid p i = (i - (width_at p - 1) :: p, 0)).
  { intros i Hij. unfold kid. destruct (Z.ltb_spec i (width_at p - 1)); [zdiv|done]. }
  pose proof (kid_sibp p j Hjr) as Es1. pose proof (kid_sibp' p j Hjr) as Es2. rewrite !Hk in * by lia.
  set (l := 2 * j + 1 - (width_at p - 1)) in *. set (r := 2 * j + 2 - (width_at p - 1)) in *.
  rewrite !sub_has_ok by done. cbn [obind].
  assert (Hstep : forall m m' i, kid p i = (m :: p, 0) -> i = 2 * j + 1 \/ i = 2 * j + 2 -> sibp (m :: p, 0) = (m' :: p, 0) ->
    A N1 (m :: p, 0) = av ->
    exists q n e N', (let& aa := sub_access N1 (m' :: p) in oldest_loop f (set_access N1 p j aa) (m :: p)) = Ret (q, N') /\ hole N' (q, 0) /\
      N' !! q = Some n /\ mt_entry n = Some e /\ A N' (q, 0) = av /\ kept N N').
  { intros m m' i Hki Hij Hsib Hm. rewrite sub_access_A by done. cbn [obind]. rewrite <- Hsib.
    destruct (hole_step N1 (p, j) (m :: p, 0) av) as (Hh2' & Hp2 & Ha2 & Hk2); try done.
    - apply A_present; [done|congruence].
    - rewrite <- Hki. by apply kid_up.
    - cbn [fst snd] in *. set (N2 := set_access N1 p j (A N1 (sibp (m :: p, 0)))) in *.
      destruct (IH N2 (m :: p)) as (q & n' & e & N' & E & ? & ? & ? & ? & Hk3); try done.
      + assert (size N2 = size N) as ->.
        { destruct Hk2 as [Hk2 _]. rewrite <- (map_size_fmap skel N2), <- (map_size_fmap skel N). f_equal.
          unfold same in *. congruence. }
        cbn. lia.
      + exists q, n', e, N'. split_and!; try done. eauto using kept_trans. }
  destruct (Z.eqb_spec av (A N1 (l :: p, 0))) as [E1|E1].
  - apply (Hstep l r (2 * j + 1)); auto using Hk.
  - destruct (Z.eqb_spec av (A N1 (r :: p, 0))) as [E2|E2].
    + cbn [obind]. apply (Hstep r l (2 * j + 2)); auto using Hk.
    + exfalso. rewrite Ha1 in Hheap. pose proof (ho_nonneg _ _ Hh1 (l :: p, 0)). pose proof (ho_nonneg _ _ Hh1 (r :: p, 0)).
      clear - Hheap E1 E2 Hne. minp.
Qed.

Lemma set_access_same N p i n : N !! p = Some n -> 0 <= i < #(mt_access n) -> set_access N p i (A N (p, i)) = N.
Proof.
  intros Hn Hi. apply map_eq. intros q. unfold set_access. rewrite lookup_alter. case_decide; [subst q|done].
  rewrite Hn. cbn. f_equal. destruct n as [b w e d a]. cbn in *. f_equal. apply list_insert_id.
  pose proof (index_A N p i _ Hn Hi) as E. unfold index in E. rewrite decide_True in E by lia. exact E.
Qed.

Lemma restore_loop_ok fuel N p i :
  hole N (p, i) -> dep (p, i) < Z.of_nat fuel -> exists N', restore_loop fuel N p i = Ret N' /\ tree_ok N' /\ kept N N'.
Proof.
  revert N p i. induction fuel as [|f IH]; intros N p i Hh Hf; pose proof (ho_shape _ _ Hh) as Hs; pose proof (ho_here _ _ Hh) as Hp.
  { pose proof (dep_nonneg _ (present_valid _ _ Hs Hp)). lia. }
  pose proof Hp as (n & Hn & _ & Hi). cbn in Hn, Hi. destruct (sh_node _ Hs _ _ Hn) as (_ & _ & Hlen).
  cbn [restore_loop]. rewrite Hn. cbn [or_crash obind]. rewrite (index_A N p i n Hn) by lia. cbn [or_crash obind].
  assert (Hraise : forall q j, up (p, i) = Some (q, j) ->
    exists N', (let& node := or_crash (N !! q) in let& v := or_crash (index (mt_access node) j) in
       restore_loop f (if negb (A N (p, i) =? 0) && ((A N (p, i) <? v) || (v =? 0)) then set_access N q j (A N (p, i)) else N) q j) = Ret N' /\
      tree_ok N' /\ kept N N').
  { intros q j Hup. pose proof (present_up _ _ _ Hs Hp Hup) as Hin. pose proof Hin as (m & Hm & _ & Hj). cbn in Hm, Hj.
    destruct (sh_node _ Hs _ _ Hm) as (_ & _ & Hlm). rewrite Hm. cbn [or_crash obind]. rewrite (index_A N q j m Hm) by lia. cbn [or_crash obind].
    set (N1 := set_access N q j (minp (A N (p, i)) (A N (q, j)))).
    assert ((if negb (A N (p, i) =? 0) && ((A N (p, i) <? A N (q, j)) || (A N (q, j) =? 0)) then set_access N q j (A N (p, i)) else N) = N1) as ->.
    { subst N1. pose proof (ho_nonneg _ _ Hh (p, i)). pose proof (ho_nonneg _ _ Hh (q, j)).
      assert (Hsame : set_access N q j (A N (q, j)) = N) by (apply (set_access_same N q j m); [done|lia]).
      case_match; zbool; unfold minp; [repeat case_match; zbool; f_equal; lia|].
      rewrite <- Hsame at 1. f_equal. repeat case_match; zbool; lia. }
    destruct (IH N1 q j) as (N' & E & Hok & Hk).
    - by apply (hole_up N (p, i) (q, j)).
    - pose proof (dep_up _ _ (present_valid _ _ Hs Hp) Hup). lia.
    - exists N'. split_and!; try done. eapply kept_trans, Hk. apply (kept_set N (q, j)); [done..|].
      intros m' Hm'. pose proof (Hm' (p, i)). pose proof (Hm' (q, j)). clear - H H0. minp. }
  unfold up in Hraise. cbn [fst snd] in Hraise. destruct (Z.ltb_spec 0 i) as [H0|H0].
  - specialize (Hraise _ _ eq_refl). rewrite Hn in Hraise. exact Hraise.
  - destruct p as [|l q].
    + exists N. split_and!; [done| |done]. apply hole_root. by assert (i = 0) as -> by lia.
    + destruct (sh_child _ Hs _ _ _ Hn) as (_ & m & Hm & _). rewrite Hm. cbn [or_crash obind].
      destruct (sh_node _ Hs _ _ Hm) as (_ & -> & _). specialize (Hraise _ _ eq_refl). rewrite Hm in Hraise. exact Hraise.
Qed.

(** ** removeOldest *)

Lemma set_entry_access N p e i a : set_access (set_entry N p e) p i a = set_entry (set_access N p i a) p e.
Proof.
  apply map_eq. intros q. unfold set_access, set_entry. rewrite !lookup_alter. repeat case_decide; try done. by destruct (N !! p).
Qed.

Lemma A_set_entry N p e x : A (set_entry N p e) x = A N x.
Proof.
  unfold A, set_entry. rewrite lookup_alter. case_decide as E; [|done]. rewrite E. by destruct (N !! fst x).
Qed.

Lemma lookup_set_entry N p e q :
  set_entry N p e !! q = if decide (q = p) then (fun n => {| mt_bits := mt_bits n; mt_width := mt_width n; mt_entry := e;
    mt_lastDBaccess := mt_lastDBaccess n; mt_access := mt_access n |}) <$> N !! p else N !! q.
Proof. unfold set_entry. rewrite lookup_alter. repeat case_decide; congruence. Qed.

(** The count of the entry is taken away. *)
Lemma hole_zero N p n e :
  hole N (p, 0) -> N !! p = Some n -> mt_entry n = Some e -> hole (set_access N p 0 0) (p, 0).
Proof.
  intros [Hs Hl H0 Hx Hway Hh] Hn He. destruct (set_keeps N (p, 0) 0 Hs Hl H0 Hx) as (Hs' & Hl' & H0' & Hin); [done|].
  pose proof (A_set N (p, 0) 0 Hs Hx) as HA. cbn [fst snd] in *. pose proof (present_valid _ _ Hs Hx) as Hv.
  split; try done.
  - eapply same_present; [apply same_set_access|done].
  - intros z y Hz Hy. rewrite !HA. rewrite decide_False.
    + rewrite decide_False; [by apply Hway|]. by apply (sibp_off N (p, 0) z y).
    + intros ->. pose proof (dep_up z _ (present_valid _ _ Hs (anc_present _ _ _ Hs Hx Hz)) Hy).
      destruct (anc_dep _ _ _ Hs Hx Hz) as [| ->]; lia.
  - intros y Hy. apply Hin in Hy. destruct (Hh y Hy) as [Hhy|]; [|by right].
    destruct (decide (up (p, 0) = Some y)) as [Hxy|Hxy]; [right; exists (p, 0); split; [constructor|done]|].
    left. destruct Hx as (m & Hm & _ & Hi). apply (heap_at_set N p 0 _ m); try done; [by apply (inner_valid N)|].
    intros ->. destruct Hy as (m' & Hm' & Hme & _). cbn in Hm'. congruence.
Qed.

(** Taking an entry with count zero out of its node. *)
Lemma hole_remove N p n e :
  hole N (p, 0) -> N !! p = Some n -> mt_entry n = Some e -> A N (p, 0) = 0 -> hole (set_entry N p None) (p, 0).
Proof.
  intros [Hs Hl H0 Hx Hway Hh] Hn He Hz.
  assert (Hne : forall l, N !! (l :: p) = None).
  { intros l. destruct (N !! (l :: p)) as [m|] eqn:Hm; [|done]. destruct (sh_child _ Hs _ _ _ Hm) as (_ & m' & Hm' & Hme). congruence. }
  assert (Hp0 : forall i, A N (p, i) = 0) by (intros i; destruct (decide (i = 0)) as [-> |]; [done|by eapply Hl]).
  split.
  - split.
    + destruct (sh_root _ Hs) as (m & Hm & Hme). exists m. rewrite lookup_set_entry. case_decide; [|done]. congruence.
    + intros q m. rewrite lookup_set_entry. case_decide; [subst q|apply (sh_node _ Hs)].
      rewrite Hn. intros [= <-]. exact (sh_node _ Hs _ _ Hn).
    + intros l q m. rewrite !lookup_set_entry. case_decide as Eq.
      * intros _. subst p. destruct (sh_child _ Hs _ _ _ Hn) as (Hlr & m' & Hm' & Hme). split; [done|]. exists m'.
        rewrite decide_False by (intros E; apply (f_equal length) in E; cbn in E; lia). done.
      * intros Hm. destruct (sh_child _ Hs _ _ _ Hm) as (Hlr & m' & Hm' & Hme). split; [done|]. exists m'.
        rewrite decide_False; [done|]. intros ->. by rewrite Hne in Hm.
    + intros q m k c. rewrite lookup_set_entry. case_decide; [|apply (sh_entry _ Hs)]. rewrite Hn. by intros [= <-].
  - intros q m e' i. rewrite lookup_set_entry. case_decide as Eq; rewrite A_set_entry; [|apply Hl]. subst. intros _ _ _. apply Hp0.
  - intros z. by rewrite A_set_entry.
  - destruct Hx as (m & Hm & _ & Hi). cbn in *. eexists. rewrite lookup_set_entry, decide_True by done. rewrite Hm. cbn. eauto.
  - intros z y Hz' Hy. rewrite !A_set_entry. by apply Hway.
  - intros y (m & Hm & Hme & Hy). rewrite lookup_set_entry in Hm. unfold heap_at. rewrite !A_set_entry. case_decide as Eq.
    + left. destruct y as [q i]. cbn in *. subst q. rewrite Hp0.
      assert (Hk : forall j, A N (kid p j) = 0); [|by rewrite !Hk].
      intros j. unfold kid. case_match; [apply Hp0|]. unfold A. cbn. by rewrite Hne.
    + apply Hh. by exists m.
Qed.

(** [removeOldest] after its wait. *)
Definition evict_at (s : MemStore) (N1 : nodes) (p : ptr) (data : bool) : outcome MemStore :=
  let& N := restore_loop (climb_fuel p) (set_access (if data then set_entry N1 p None else N1) p 0 0) p 0 in
  Ret {| ms_memtree := N; ms_entryCnt := if data then ms_entryCnt s - 1 else ms_entryCnt s;
         ms_capacity := ms_capacity s; ms_accessCnt := ms_accessCnt s; ms_dbAccessCnt := ms_dbAccessCnt s |}.

(** The oldest entry: its count is that of the root. It is removed when it has data, and
    loses its count otherwise. *)
Lemma removeOldest_ok s ready :
  tree_ok (ms_memtree s) -> A (ms_memtree s) ([], 0) <> 0 ->
  exists p n e N1, ms_memtree s !! p = Some n /\ mt_entry n = Some e /\
    A (ms_memtree s) (p, 0) = A (ms_memtree s) ([], 0) /\
    removeOldest s ready = obind (ready (snd e)) (evict_at s N1 p) /\
    forall data, exists N', evict_at s N1 p data =
        Ret {| ms_memtree := N'; ms_entryCnt := if data then ms_entryCnt s - 1 else ms_entryCnt s;
               ms_capacity := ms_capacity s; ms_accessCnt := ms_accessCnt s; ms_dbAccessCnt := ms_dbAccessCnt s |} /\
      tree_ok N' /\ same (if data then set_entry (ms_memtree s) p None else ms_memtree s) N' /\
      (data = false -> A N' (p, 0) = 0) /\
      (forall q m e', ms_memtree s !! q = Some m -> mt_entry m = Some e' -> q <> p ->
         A N' (q, 0) = A (ms_memtree s) (q, 0)) /\
      (forall b, 0 <= b -> (forall z, A (ms_memtree s) z <= b) -> forall z, A N' z <= b).
Proof.
  set (N := ms_memtree s). intros Hok Hr.
  destruct (oldest_loop_ok (tree_fuel N) N [] (A N ([], 0))) as (p & n & e & N1 & E & Hh & Hn & He & Ha & Hs & Hk & Hb); try done.
  { by apply hole_root. } { unfold tree_fuel. cbn. lia. }
  destruct (same_entry _ _ _ _ _ (same_sym _ _ Hs) Hn He) as (n0 & Hn0 & He0).
  exists p, n0, e, N1. split_and!; [done|done|by rewrite <- (Hk p n0 e Hn0 He0)| |].
  { unfold removeOldest. fold N. rewrite E. cbn [obind]. rewrite Hn. cbn [or_crash obind]. rewrite He. cbn [or_crash obind].
    destruct (ready (snd e)) as [[]| |]; done. }
  intros data. unfold evict_at. set (N2 := set_access N1 p 0 0). pose proof (hole_zero _ _ _ _ Hh Hn He) as Hh2. fold N2 in Hh2.
  pose proof (A_set N1 (p, 0) 0 (ho_shape _ _ Hh) (ho_here _ _ Hh)) as HA. cbn [fst snd] in HA. fold N2 in HA.
  assert (Hn2 : exists n2, N2 !! p = Some n2 /\ mt_entry n2 = Some e) by (by eapply same_entry; [apply same_set_access|..]).
  destruct Hn2 as (n2 & Hn2 & He2).
  set (N3 := if data then set_entry N2 p None else N2).
  assert (set_access (if data then set_entry N1 p None else N1) p 0 0 = N3) as ->
    by (subst N3 N2; destruct data; [apply set_entry_access|done]).
  assert (Hh3 : hole N3 (p, 0)).
  { subst N3. destruct data; [|done]. eapply hole_remove; try done. by rewrite HA, decide_True. }
  assert (HA3 : forall z, A N3 z = A N2 z) by (intros z; subst N3; destruct data; [apply A_set_entry|done]).
  destruct (restore_loop_ok (climb_fuel p) N3 p 0 Hh3 (climb_fuel_ok p)) as (N' & -> & Hok' & Hs' & Hk' & Hb').
  assert (HsN : same (if data then set_entry N p None else N) N3).
  { subst N3. assert (Hs2 : same N N2) by (eapply same_trans; [done|apply same_set_access]).
    destruct data; [|done]. apply map_eq. intros q. rewrite !lookup_fmap, !lookup_set_entry.
    assert (Eq : forall q, skel <$> N !! q = skel <$> N2 !! q) by (intros; rewrite <- !lookup_fmap; by rewrite Hs2).
    case_decide; [subst q|apply Eq]. specialize (Eq p). destruct (N !! p), (N2 !! p); try done. cbn in *. unfold skel in *. cbn. congruence. }
  exists N'. split_and!; try done.
  - by eapply same_trans.
  - intros ->. by rewrite (Hk' p n2 e Hn2 He2), HA, decide_True.
  - intros q m e' Hm Hme Hqp. destruct (same_entry _ _ _ _ _ Hs Hm Hme) as (m1 & Hm1 & Hme1).
    destruct (same_entry _ _ _ _ _ (same_set_access N1 p 0 0) Hm1 Hme1) as (m2 & Hm2 & Hme2).
    rewrite (Hk' q m2 e'); [|subst N3; destruct data; [rewrite lookup_set_entry, decide_False by done|]; done|done].
    rewrite HA3, HA, decide_False by congruence. by apply (Hk q m e').
  - intros b Hb0 HbN. apply Hb'. intros z. rewrite HA3, HA. case_decide; [done|]. by apply Hb.
Qed.
