(* ===== verification/MemView.v ===== *)
(** What the memory cache holds ([MemStore]): a map from keys to chunk objects with
    their access counts, and how descents, splits and insertions of entries change it. *)
From stdpp Require Import base gmap list strings.
From Stdlib Require Import ZArith Lia.
From S2P Require Import Prelude Types MemStore MemInv MemEvict.

(** ** The contents of a tree *)

Definition holds (N : nodes) (k : Key) (c : nat) (a : Z) : Prop :=
  exists p n, N !! p = Some n /\ mt_entry n = Some (k, c) /\ A N (p, 0) = a.

Definition entry_of (N : nodes) (x : ptr * memTree) : option (Key * (nat * Z)) :=
  match mt_entry (snd x) with Some (k, c) => Some (k, (c, A N (fst x, 0))) | None => None end.

Definition tree_view (N : nodes) : gmap Key (nat * Z) := list_to_map (omap (entry_of N) (map_to_list N)).

Lemma above_exists N r p m : shape N -> N !! (r ++ p) = Some m -> exists n, N !! p = Some n.
Proof.
  intros Hs. revert m. induction r as [|l r IH]; intros m Hm; [eauto|].
  destruct (sh_child _ Hs _ _ _ Hm) as (_ & m' & Hm' & _). by eapply IH.
Qed.

(** A node above another has no entry. *)
Lemma chain_entry N r p n m :
  shape N -> r <> [] -> N !! (r ++ p) = Some m -> N !! p = Some n -> mt_entry n = None.
Proof.
  intros Hs. revert m. induction r as [|l r IH]; intros m Hr Hm Hn; [done|].
  destruct (sh_child _ Hs _ _ _ Hm) as (_ & m' & Hm' & Hme). destruct r as [|l' r]; [cbn in Hm'; congruence|].
  by apply (IH m').
Qed.

(** There is at most one entry on the way of a key. *)
Lemma entry_unique N k p q n m e e' :
  shape N -> N !! p = Some n -> N !! q = Some m -> mt_entry n = Some e -> mt_entry m = Some e' ->
  onpath k p -> onpath k q -> p = q.
Proof.
  intros Hs Hn Hm He He' Hp Hq.
  assert (Hw : forall p q n m e e', N !! p = Some n -> N !! q = Some m -> mt_entry n = Some e -> mt_entry m = Some e' ->
    onpath k p -> onpath k q -> (length p <= length q)%nat -> p = q).
  { clear - Hs. intros p q n m e e' Hn Hm He He' Hp Hq Hlen. destruct (onpath_chain k p q Hp Hq Hlen) as [r ->].
    destruct r as [|l r]; [done|]. pose proof (chain_entry N (l :: r) p n m Hs ltac:(done) Hm Hn). congruence. }
  destruct (Nat.le_ge_cases (length p) (length q)); [|symmetry]; by eapply Hw.
Qed.

Lemma tree_view_holds N k c a : shape N -> tree_view N !! k = Some (c, a) <-> holds N k c a.
Proof.
  intros Hs. unfold tree_view. rewrite <- elem_of_list_to_map.
  - rewrite list_elem_of_omap. split.
    + intros ([p n] & Hin & E). apply elem_of_map_to_list in Hin. unfold entry_of in E. cbn in E.
      destruct (mt_entry n) as [[k' c']|] eqn:He; [|done]. injection E as -> -> <-. by exists p, n.
    + intros (p & n & Hn & He & Ha). exists (p, n). split; [by apply elem_of_map_to_list|]. unfold entry_of. cbn. by rewrite He, Ha.
  - assert (Hnd : NoDup (map_to_list N)) by apply NoDup_map_to_list.
    assert (Hin : forall x, x ∈ map_to_list N -> N !! fst x = Some (snd x)) by (intros [p n]; apply elem_of_map_to_list).
    revert Hnd Hin. generalize (map_to_list N) as l. induction l as [|[p n] l IH]; intros Hnd Hin; [constructor|].
    apply NoDup_cons in Hnd as [Hp Hnd]. cbn. unfold entry_of at 1. cbn. destruct (mt_entry n) as [[k' c']|] eqn:He.
    2: { apply IH; [done|]. intros x Hx. apply Hin. by right. }
    cbn. constructor; [|apply IH; [done|intros x Hx; apply Hin; by right]].
    intros Hk. apply list_elem_of_fmap in Hk as ([k2 [c2 a2]] & -> & Hk). cbn in *.
    apply list_elem_of_omap in Hk as ([q m] & Hq & Em). unfold entry_of in Em. cbn in Em.
    destruct (mt_entry m) as [[k3 c3]|] eqn:Hme; [|done]. injection Em as -> _ _. pose proof (Hin (p, n) ltac:(left)) as Hn.
    pose proof (Hin (q, m) ltac:(by right)) as Hm. cbn in Hn, Hm.
    assert (p = q) as -> by (eapply (entry_unique N k2); eauto; eapply (sh_entry _ Hs); eauto). apply Hp. congruence.
Qed.

Lemma tree_view_none N k : shape N -> tree_view N !! k = None <-> forall c a, ~ holds N k c a.
Proof.
  intros Hs. split.
  - intros E c a Hh. apply tree_view_holds in Hh; [congruence|done].
  - intros Hn. destruct (tree_view N !! k) as [[c a]|] eqn:E; [|done]. apply tree_view_holds in E; [|done]. by destruct (Hn c a).
Qed.

(** Two views with the same entries are equal. *)
Lemma tree_view_ext N m : shape N -> (forall k c a, holds N k c a <-> m !! k = Some (c, a)) -> tree_view N = m.
Proof.
  intros Hs Hm. apply map_eq. intros k. destruct (m !! k) as [[c a]|] eqn:E.
  - apply tree_view_holds; [done|]. by apply Hm.
  - apply tree_view_none; [done|]. intros c a Hh. apply Hm in Hh. congruence.
Qed.

(** The entry of a key, if there is one, is the one the descent meets. *)
Lemma holds_at N p n k k' c c' a :
  shape N -> N !! p = Some n -> mt_entry n = Some (k', c') -> onpath k p ->
  holds N k c a -> k' = k /\ c' = c /\ A N (p, 0) = a.
Proof.
  intros Hs Hn He Hp (q & m & Hm & Hme & Ha). destruct (sh_entry _ Hs _ _ _ _ Hm Hme) as [_ Hq].
  assert (p = q) as -> by (by eapply (entry_unique N k)). simplify_eq. done.
Qed.

Lemma holds_missing N p n k c a :
  shape N -> N !! p = Some n -> mt_entry n = None -> onpath k p -> N !! (digit k p :: p) = None -> ~ holds N k c a.
Proof.
  intros Hs Hn He Hp Hnone (q & m & Hm & Hme & _). destruct (sh_entry _ Hs _ _ _ _ Hm Hme) as [_ Hq].
  destruct (Nat.le_gt_cases (length q) (length p)) as [Hlen|Hlen].
  - destruct (onpath_chain k q p Hq Hp Hlen) as [r ->]. destruct r as [|l r]; [cbn in Hn; congruence|].
    pose proof (chain_entry N (l :: r) q m n Hs ltac:(done) Hn Hm). congruence.
  - assert (Hp' : onpath k (digit k p :: p)) by done.
    destruct (onpath_chain k _ q Hp' Hq Hlen) as [r ->]. destruct (above_exists N r _ m Hs Hm). congruence.
Qed.

(** ** Descents *)

(** The two results of a descent along the way of a key. *)
Definition meets (N : nodes) (k : Key) (p : ptr) : Prop :=
  onpath k p /\ exists n e, N !! p = Some n /\ mt_entry n = Some e.
Definition misses (N : nodes) (k : Key) (p : ptr) : Prop :=
  onpath k p /\ N !! (digit k p :: p) = None /\ exists n, N !! p = Some n /\ mt_entry n = None.

Lemma find_loop_ok fuel N p k :
  shape N -> key32 k -> onpath k p -> is_Some (N !! p) -> (size N <= fuel + length p)%nat ->
  (exists q, find_loop fuel N p (bitpos_at p) k = Ret (Some q) /\ meets N k q) \/
  (exists q, find_loop fuel N p (bitpos_at p) k = Ret None /\ misses N k q).
Proof.
  intros Hs Hk. revert p. induction fuel as [|f IH]; intros p Hp [n Hn] Hf; pose proof (depth_lt_size _ _ _ Hs Hn); [lia|].
  cbn [find_loop]. rewrite Hn. cbn [or_crash obind]. destruct (mt_entry n) as [e|] eqn:He; [left; exists p; split; [done|by split; [|eauto]]|].
  destruct (sh_node _ Hs _ _ Hn) as (-> & _). rewrite Key_bits_digit by done. cbn [or_crash obind].
  destruct (N !! (digit k p :: p)) as [m|] eqn:Hm; [|right; exists p; split; [done|by split_and!; [| |eauto]]].
  rewrite <- (bitpos_cons (digit k p)). apply IH; [done|eauto|cbn; lia].
Qed.

Lemma put_descend_ok fuel N p k :
  shape N -> key32 k -> onpath k p -> is_Some (N !! p) -> (size N <= fuel + length p)%nat ->
  (exists q, put_descend fuel N p (bitpos_at p) k = Ret (q, bitpos_at q, N) /\ meets N k q) \/
  (exists q, put_descend fuel N p (bitpos_at p) k =
     Ret (digit k q :: q, bitpos_at (digit k q :: q), newMemTree memTreeLW (digit k q :: q) N) /\ misses N k q).
Proof.
  intros Hs Hk. revert p. induction fuel as [|f IH]; intros p Hp [n Hn] Hf; pose proof (depth_lt_size _ _ _ Hs Hn); [lia|].
  cbn [put_descend]. rewrite Hn. cbn [or_crash obind]. destruct (mt_entry n) as [e|] eqn:He; [left; exists p; split; [done|by split; [|eauto]]|].
  destruct (sh_node _ Hs _ _ Hn) as (-> & _). rewrite Key_bits_digit by done. cbn [or_crash obind]. rewrite <- (bitpos_cons (digit k p)).
  destruct (N !! (digit k p :: p)) as [m|] eqn:Hm; [|right; exists p; split; [done|by split_and!; [| |eauto]]].
  apply IH; [done|eauto|cbn; lia].
Qed.

(** ** New nodes *)

(** A node without entry, subtrees and counts on the way of a key. *)
Definition fresh (N : nodes) (k : Key) (p : ptr) : Prop :=
  onpath k p /\ p <> [] /\ (forall l, N !! (l :: p) = None) /\ (forall i, A N (p, i) = 0) /\
  exists n, N !! p = Some n /\ mt_entry n = None.

Lemma A_none N p i : N !! p = None -> A N (p, i) = 0.
Proof. intros E. unfold A. cbn. by rewrite E. Qed.

Lemma A_new N l p x : N !! (l :: p) = None -> A (newMemTree memTreeLW (l :: p) N) x = A N x.
Proof.
  intros Hn. destruct x as [q i]. unfold A, newMemTree. cbn [fst snd]. rewrite lookup_insert. case_decide as E; [|done].
  subst q. rewrite Hn. cbn. unfold index. case_decide; [|done].
  destruct (replicate (Z.to_nat (Z.shiftl 1 memTreeLW - 1)) 0 !! Z.to_nat i) eqn:E; [|done]. by apply lookup_replicate in E as [-> _].
Qed.

Lemma new_child_none N l p m : shape N -> N !! (l :: p) = None -> N !! (m :: l :: p) = None.
Proof.
  intros Hs Hn. destruct (N !! (m :: l :: p)) eqn:E; [|done]. destruct (sh_child _ Hs _ _ _ E) as (_ & m' & Hm' & _). congruence.
Qed.

Lemma new_ok N k p n :
  tree_ok N -> N !! p = Some n -> mt_entry n = None -> onpath k p -> N !! (digit k p :: p) = None ->
  let N' := newMemTree memTreeLW (digit k p :: p) N in
  tree_ok N' /\ fresh N' k (digit k p :: p) /\ (forall k' c a, holds N' k' c a <-> holds N k' c a) /\ (forall x, A N' x = A N x).
Proof.
  intros [Hs Hh Hl H0] Hn He Hp Hnone. cbn zeta. set (l := digit k p) in *. pose proof (digit_range k p) as Hr. fold l in Hr.
  set (N' := newMemTree memTreeLW (l :: p) N). assert (HA : forall x, A N' x = A N x) by (intros; by apply A_new).
  assert (Hlk : forall q, q <> l :: p -> N' !! q = N !! q) by (intros; unfold N', newMemTree; by rewrite lookup_insert_ne).
  assert (Hnew : N' !! (l :: p) = Some {| mt_bits := 2; mt_width := 4; mt_entry := None; mt_lastDBaccess := 0; mt_access := [0; 0; 0] |})
    by (unfold N', newMemTree; by rewrite lookup_insert_eq).
  assert (Hpn : p <> l :: p) by (intros E; apply (f_equal length) in E; cbn in E; lia).
  assert (Hkids : forall m, N !! (m :: l :: p) = None) by (intros; by apply new_child_none).
  split_and!; try done.
  - split.
    + split.
      * destruct (sh_root _ Hs) as (m & Hm & Hme). exists m. by rewrite Hlk.
      * intros q m. destruct (decide (q = l :: p)) as [-> |]; [rewrite Hnew; by intros [= <-]|]. rewrite Hlk by done. apply (sh_node _ Hs).
      * intros x q m. destruct (decide (x :: q = l :: p)) as [[= -> ->]|Hne].
        -- intros _. split; [done|]. exists n. by rewrite Hlk.
        -- rewrite Hlk by done. intros Hm. destruct (sh_child _ Hs _ _ _ Hm) as (Hx & m' & Hm' & Hme). split; [done|]. exists m'.
           rewrite Hlk; [done|]. intros ->. congruence.
      * intros q m k' c. destruct (decide (q = l :: p)) as [-> |]; [rewrite Hnew; by intros [= <-]|]. rewrite Hlk by done. apply (sh_entry _ Hs).
    + intros y (m & Hm & Hme & Hy). destruct y as [q i]. cbn in Hm, Hy. unfold heap_at. cbn [fst snd]. rewrite !HA.
      destruct (decide (q = l :: p)) as [-> |].
      * rewrite A_none by done. unfold kid. repeat case_match; rewrite !A_none; auto.
      * apply (Hh (q, i)). exists m. by rewrite Hlk in Hm.
    + intros q m e i. rewrite HA. destruct (decide (q = l :: p)) as [-> |]; [rewrite Hnew; by intros [= <-]|]. rewrite Hlk by done. apply Hl.
    + intros x. by rewrite HA.
  - unfold fresh. split_and!; try done; [|intros i; by rewrite HA, A_none|eauto].
    intros m. rewrite Hlk by (intros E; apply (f_equal length) in E; cbn in E; lia). done.
  - intros k' c a. unfold holds. split.
    + intros (q & m & Hm & Hme & Ha). rewrite HA in Ha. destruct (decide (q = l :: p)) as [-> |]; [rewrite Hnew in Hm; by simplify_eq|].
      rewrite Hlk in Hm by done. eauto 10.
    + intros (q & m & Hm & Hme & Ha). exists q, m. rewrite HA, Hlk; [done|]. congruence.
Qed.

(** ** Moving an entry down *)

(** A walk that writes zeros over zeros changes nothing. *)
Lemma updateAccess_loop_zero fuel N p i :
  shape N -> (forall x, 0 <= A N x) -> present N (p, i) -> dep (p, i) < Z.of_nat fuel -> updateAccess_loop fuel N p i 0 0 = Ret N.
Proof.
  intros Hs H0. revert p i. induction fuel as [|f IH]; intros p i Hp Hf.
  { pose proof (dep_nonneg _ (present_valid _ _ Hs Hp)). lia. }
  pose proof Hp as (n & Hn & He & Hi). cbn in Hn, He, Hi. rewrite (updateAccess_step f N p i n) by done.
  destruct (Z.eqb_spec (A N (p, i)) 0) as [E|]; [|done].
  assert (set_access N p i 0 = N) as ->.
  { rewrite <- E. apply (set_access_same N p i n); [done|]. by destruct (sh_node _ Hs _ _ Hn) as (_ & _ & ->). }
  destruct (up (p, i)) as [[q j]|] eqn:Hup; [|done]. cbn [fst snd].
  assert (lower (A N (sibp (p, i))) 0 = 0) as -> by (pose proof (H0 (sibp (p, i))) as Hs0; clear - Hs0; minp).
  apply IH; [by eapply inner_present, present_up|]. pose proof (dep_up _ _ (present_valid _ _ Hs Hp) Hup). lia.
Qed.

(** The entry of the node at [p] in the subtree for its key, before its count is there. *)
Definition moved (N : nodes) (p : ptr) (k : Key) (c : nat) : nodes :=
  set_entry (set_entry (newMemTree memTreeLW (digit k p :: p) N) (digit k p :: p) (Some (k, c))) p None.

Section Split.
Context (N : nodes) (p : ptr) (n : memTree) (k : Key) (c : nat).
Hypotheses (Hok : tree_ok N) (Hn : N !! p = Some n) (He : mt_entry n = Some (k, c)).

#[local] Abbreviation l := (digit k p).
#[local] Abbreviation a := (A N (p, 0)).
#[local] Abbreviation N3 := (moved N p k c).
#[local] Abbreviation j := (Z.shiftr (width_at p + digit k p - 2) 1).
#[local] Abbreviation N5 := (set_access (set_access N3 (l :: p) 0 a) p j a).

Lemma split_nonroot : width_at p = 4.
Proof using Hok Hn He.
  destruct p as [|m q]; [|done]. destruct (sh_root _ (ok_shape _ Hok)) as (r & Hr & Hre). congruence.
Qed.

Lemma split_none m : N !! (m :: p) = None.
Proof using Hok Hn He.
  destruct (N !! (m :: p)) as [x|] eqn:E; [|done].
  destruct (sh_child _ (ok_shape _ Hok) _ _ _ E) as (_ & y & Hy & Hye). congruence.
Qed.

Lemma split_zero i : i <> 0 -> A N (p, i) = 0.
Proof using Hok Hn He. by eapply (ok_leaf _ Hok). Qed.

Lemma split_ne : p <> l :: p.
Proof using Type. intros E. apply (f_equal length) in E. cbn in E. lia. Qed.

Lemma split_lookup q :
  N3 !! q = if decide (q = l :: p) then Some {| mt_bits := 2; mt_width := 4; mt_entry := Some (k, c); mt_lastDBaccess := 0; mt_access := [0; 0; 0] |}
            else if decide (q = p) then Some {| mt_bits := mt_bits n; mt_width := mt_width n; mt_entry := None;
                                                mt_lastDBaccess := mt_lastDBaccess n; mt_access := mt_access n |}
            else N !! q.
Proof using Hn.
  unfold moved. rewrite !lookup_set_entry. unfold newMemTree. rewrite !lookup_insert. pose proof split_ne.
  repeat case_decide; try congruence; rewrite ?Hn; done.
Qed.

Lemma split_A x : A N3 x = A N x.
Proof using Hok Hn He. unfold moved. rewrite !A_set_entry. apply A_new, split_none. Qed.

Lemma split_shape : shape N3.
Proof using Hok Hn He.
  pose proof (ok_shape _ Hok) as Hs. pose proof split_ne as Hne. pose proof (sh_entry _ Hs _ _ _ _ Hn He) as [Hk Hp]. split.
  - destruct (sh_root _ Hs) as (r & Hr & Hre). exists r. rewrite split_lookup, decide_False, decide_False; [done| |done].
    intros <-. congruence.
  - intros q m. rewrite split_lookup. repeat case_decide; subst; [by intros [= <-]| |apply (sh_node _ Hs)].
    intros [= <-]. exact (sh_node _ Hs _ _ Hn).
  - intros x q m Hm. rewrite split_lookup in Hm. destruct (decide (x :: q = l :: p)) as [[= -> ->]|Hne1].
    { split; [apply digit_range|]. eexists. rewrite split_lookup, decide_False, decide_True by done. done. }
    assert (Hqq : N !! (x :: q) = Some m \/ x :: q = p) by (case_decide; auto).
    assert (Hq : exists y, N !! q = Some y /\ mt_entry y = None /\ 0 <= x < width_at q).
    { destruct Hqq as [Hq|Hq]; [|rewrite <- Hq in Hn; clear Hm; rename Hn into Hq'].
      - destruct (sh_child _ Hs _ _ _ Hq) as (? & y & ? & ?). eauto.
      - destruct (sh_child _ Hs _ _ _ Hq') as (? & y & ? & ?). eauto. }
    destruct Hq as (y & Hy & Hye & Hx). split; [done|]. exists y. rewrite split_lookup, !decide_False; [done|..].
    + intros ->. congruence.
    + intros ->. by rewrite split_none in Hy.
  - intros q m k' c'. rewrite split_lookup. repeat case_decide; subst; [intros [= <-] [= <- <-]|by intros [= <-]|apply (sh_entry _ Hs)]. done.
Qed.

Lemma split_up : up (l :: p, 0) = Some (p, j) /\ up (p, j) = Some (p, 0) /\ (j = 1 \/ j = 2).
Proof using Hok Hn He.
  pose proof split_nonroot as Hw. pose proof (digit_range k p) as Hr. rewrite Hw in *.
  assert (Hj : Z.shiftr (4 + l - 2) 1 = 1 \/ Z.shiftr (4 + l - 2) 1 = 2) by (rewrite shiftr1; zdiv).
  unfold up. cbn [fst snd]. rewrite Hw. split_and!; try done. by destruct Hj as [-> | ->].
Qed.

Lemma split_present : present N3 (l :: p, 0) /\ inner N3 (p, j) /\ inner N3 (p, 0).
Proof using Hok Hn He.
  destruct split_up as (_ & _ & Hj). pose proof split_nonroot as Hw. pose proof split_ne as Hne. split_and!.
  - eexists. cbn [fst snd]. rewrite split_lookup, decide_True by done. split_and!; [done|by right|lia|done].
  - eexists. cbn [fst snd]. rewrite split_lookup, decide_False, decide_True by done. split_and!; [done|done|lia|lia].
  - eexists. cbn [fst snd]. rewrite split_lookup, decide_False, decide_True by done. split_and!; [done|done|lia|lia].
Qed.

Lemma split_A5 x : A N5 x = if decide (x = (p, j) \/ x = (l :: p, 0)) then a else A N x.
Proof using Hok Hn He.
  destruct split_present as (H1 & H2 & _). pose proof split_shape as Hs3.
  rewrite (A_set _ (p, j)); [|by eapply same_shape; [apply same_set_access|]|by eapply same_present; [apply same_set_access|apply inner_present]].
  rewrite (A_set N3 (l :: p, 0)) by done. rewrite split_A. repeat case_decide; tauto.
Qed.

Lemma split_update : updateAccess N3 (l :: p) a = Ret N5.
Proof using Hok Hn He.
  pose proof split_shape as Hs3. destruct split_present as (H1 & H2 & H3). destruct split_up as (Hu1 & Hu2 & Hj).
  pose proof split_ne as Hne. pose proof split_nonroot as Hw. unfold updateAccess. rewrite split_lookup, decide_True by done. cbn [or_crash obind mt_access index].
  change (index [0; 0; 0] 0) with (Some 0). cbn [or_crash obind].
  assert (HA0 : A N3 (l :: p, 0) = 0) by (rewrite split_A; apply A_none, split_none).
  assert (HAj : A N3 (p, j) = 0) by (rewrite split_A; apply split_zero; lia).
  destruct (decide (a = 0)) as [Hz|Hz].
  - rewrite Hz, updateAccess_loop_zero; [|done|intros; rewrite split_A; apply (ok_nonneg _ Hok)|done|apply climb_fuel_ok].
    f_equal. assert (Hset : forall q i, present N3 (q, i) -> A N3 (q, i) = 0 -> set_access N3 q i 0 = N3).
    { intros q i (m & Hm & _ & Hi) E. cbn in *. rewrite <- E. apply (set_access_same N3 q i m); [done|].
      by destruct (sh_node _ Hs3 _ _ Hm) as (_ & _ & ->). }
    rewrite (Hset (l :: p) 0) by done. symmetry. apply (Hset p j); [by apply inner_present|done].
  - assert (Hf : exists f, climb_fuel (l :: p) = S (S (S f))) by (exists (climb_fuel (l :: p) - 3)%nat; unfold climb_fuel; lia).
    destruct Hf as [f ->]. destruct H1 as (m1 & Hm1 & _ & Hi1). cbn [fst snd] in *.
    rewrite (updateAccess_step _ N3 (l :: p) 0 m1) by done. rewrite HA0, Hu1. cbn [Z.eqb fst snd].
    set (N4 := set_access N3 (l :: p) 0 a). assert (Hs4 : shape N4) by (by eapply same_shape; [apply same_set_access|]).
    assert (HA4 : forall x, A N4 x = if decide (x = (l :: p, 0)) then a else A N x).
    { intros x. unfold N4. rewrite (A_set N3 (l :: p, 0)) by (done || by exists m1; cbn; auto). by rewrite split_A. }
    assert (Hlow : lower (A N3 (sibp (l :: p, 0))) a = a).
    { rewrite split_A. unfold sibp. cbn. rewrite A_none by apply split_none. done. }
    rewrite Hlow. assert (Hin4 : inner N4 (p, j) /\ inner N4 (p, 0)) by (split; eapply same_inner; try apply same_set_access; done).
    destruct Hin4 as [(m4 & Hm4 & Hme4 & Hi4) _]. cbn [fst snd] in *. rewrite (updateAccess_step _ N4 p j m4) by done.
    rewrite HA4, decide_False by congruence. rewrite split_zero by lia. cbn [Z.eqb]. rewrite Hu2. cbn [fst snd].
    assert (Hlow2 : lower (A N4 (sibp (p, j))) a = a).
    { rewrite HA4. unfold sibp. cbn [fst snd]. destruct (Z.ltb_spec 0 j); [|lia].
      rewrite decide_False by (intros [= E _]; by destruct Hne). rewrite split_zero; [done|]. rewrite lxor1_mod. zdiv. }
    rewrite Hlow2. set (N6 := set_access N4 p j a). assert (Hs6 : shape N6) by (by eapply same_shape; [apply same_set_access|]).
    destruct (same_inner N3 N6 (p, 0)) as (m6 & Hm6 & _ & Hi6); [by eapply same_trans; apply same_set_access|done|].
    cbn [fst snd] in *. rewrite (updateAccess_step _ N6 p 0 m6) by done. unfold N6. rewrite (A_set N4 (p, j)) by (done || by exists m4; auto).
    rewrite decide_False by (intros [=]; lia). rewrite HA4, decide_False by congruence. by destruct (Z.eqb_spec a 0).
Qed.

Lemma split_tree : tree_ok N5.
Proof using Hok Hn He.
  pose proof split_shape as Hs3. destruct split_present as (H1 & H2 & H3). destruct split_up as (Hu1 & Hu2 & Hj).
  assert (Hsame : same N3 N5) by (eapply same_trans; apply same_set_access).
  pose proof (same_shape _ _ Hsame Hs3) as Hs5. pose proof split_nonroot as Hw. pose proof (digit_range k p) as Hr. rewrite Hw in Hr.
  split; [done| | |].
  - intros y Hy. apply (same_inner _ _ _ (same_sym _ _ Hsame)) in Hy. destruct Hy as (m & Hm & Hme & Hi). destruct y as [q i]. cbn [fst snd] in *.
    assert (Hkz : forall x, 0 < x -> A N (kid p x) = 0).
    { intros x Hx. unfold kid. case_match; [apply split_zero; lia|apply A_none, split_none]. }
    assert (Hv : valid (l :: p, 0) /\ valid (p, j)) by (split; apply (present_valid N3); auto using inner_present).
    assert (Hd : forall x, up x = Some (q, i) -> (q, i) <> (p, 0) -> (q, i) <> (p, j) -> A N5 x = A N x).
    { intros x Hx Hx0 Hxj. rewrite split_A5, decide_False; [done|]. intros [-> | ->]; congruence. }
    assert (Hsj : A N5 (sibp (p, j)) = 0 /\ A N5 (sibp (l :: p, 0)) = 0).
    { split; rewrite split_A5, decide_False.
      - unfold sibp. cbn [fst snd]. destruct (Z.ltb_spec 0 j); [|lia]. apply split_zero. rewrite lxor1_mod. zdiv.
      - intros [E|E]; [exact (sibp_ne (p, j) _ (proj2 Hv) Hu2 E)|]. unfold sibp in E. cbn [fst snd] in E.
        destruct (Z.ltb_spec 0 j); [|lia]. injection E as E _. by destruct split_ne.
      - unfold sibp. cbn. apply A_none, split_none.
      - intros [E|E]; [|exact (sibp_ne (l :: p, 0) _ (proj1 Hv) Hu1 E)]. unfold sibp in E. cbn in E. injection E as E _.
        apply (f_equal length) in E. cbn in E. lia. }
    rewrite split_lookup in Hm. destruct (decide (q = l :: p)); [by simplify_eq|]. destruct (decide (q = p)) as [-> |Hqp].
    + destruct (decide (i = 0)) as [-> |Hi0]; [|destruct (decide (i = j)) as [-> |Hij]].
      * apply (heap_at_any _ (p, j)); [apply Hv|done|]. rewrite (proj1 Hsj), !split_A5.
        rewrite decide_False, decide_True by (auto || (intros [[=]|[=]]; lia || by destruct split_ne)). clear. minp.
      * apply (heap_at_any _ (l :: p, 0)); [apply Hv|done|]. rewrite (proj2 Hsj), !split_A5, !decide_True by auto. clear. minp.
      * unfold heap_at. cbn [fst snd]. rewrite !(Hd (kid _ _)) by (apply kid_up || congruence; lia).
        rewrite !Hkz by lia. rewrite split_A5, decide_False by (intros [[=]|[=]]; lia || by destruct split_ne). by apply split_zero.
    + unfold heap_at. cbn [fst snd]. rewrite !(Hd (kid _ _)) by (apply kid_up || congruence; lia).
      rewrite split_A5, decide_False by (intros [[=]|[=]]; done). apply (ok_heap _ Hok (q, i)). by exists m.
  - intros q m e i Hm Hme Hi. destruct (same_entry _ _ _ _ _ (same_sym _ _ Hsame) Hm Hme) as (m3 & Hm3 & Hme3).
    rewrite split_lookup in Hm3. rewrite split_A5, decide_False.
    + destruct (decide (q = l :: p)) as [-> |]; [apply A_none, split_none|]. destruct (decide (q = p)); [by simplify_eq|].
      by eapply (ok_leaf _ Hok).
    + intros [[= -> ->]|[=]]; [|done]. rewrite decide_False, decide_True in Hm3 by (done || apply split_ne). by simplify_eq.
  - intros x. rewrite split_A5. case_decide; apply (ok_nonneg _ Hok).
Qed.

(** The contents are as before. *)
Lemma split_holds k' c' b : holds N5 k' c' b <-> holds N k' c' b.
Proof using Hok Hn He.
  assert (Hsame : same N3 N5) by (eapply same_trans; apply same_set_access). pose proof split_ne as Hne. split.
  - intros (q & m & Hm & Hme & Hb). destruct (same_entry _ _ _ _ _ (same_sym _ _ Hsame) Hm Hme) as (m3 & Hm3 & Hme3).
    rewrite split_lookup in Hm3. rewrite split_A5 in Hb. destruct (decide (q = l :: p)) as [-> |Hql].
    + rewrite decide_True in Hb by auto. injection Hm3 as <-. injection Hme3 as <- <-. by exists p, n.
    + destruct (decide (q = p)) as [-> |Hqp]; [by simplify_eq|]. rewrite decide_False in Hb by (intros [E|E]; congruence).
      by exists q, m3.
  - intros (q & m & Hm & Hme & Hb).
    assert (Hx : exists q' m', N3 !! q' = Some m' /\ mt_entry m' = Some (k', c') /\ A N5 (q', 0) = b).
    { destruct (decide (q = p)) as [-> |Hqp].
      - simplify_eq. exists (l :: p). eexists. rewrite split_lookup, decide_True by done. split_and!; [done|done|].
        rewrite split_A5, decide_True by auto. done.
      - assert (q <> l :: p) by (intros ->; by rewrite split_none in Hm). exists q, m.
        rewrite split_lookup, !decide_False by done. split_and!; [done|done|].
        rewrite split_A5, decide_False by (intros [E|E]; congruence). done. }
    destruct Hx as (q' & m' & Hm' & Hme' & Hb'). destruct (same_entry _ _ _ _ _ Hsame Hm' Hme') as (m5 & Hm5 & Hme5). by exists q', m5.
Qed.
End Split.

(** ** Insertion of entries *)

(** No node was written to the disk store for its accesses. *)
Definition db0 (N : nodes) : Prop := forall p n, N !! p = Some n -> mt_lastDBaccess n = 0.

Lemma same_db0 N N' : same N N' -> db0 N -> db0 N'.
Proof.
  intros E H p n Hn. destruct (same_lookup _ _ _ _ (same_sym _ _ E) Hn) as (n' & Hn' & Es).
  specialize (H p n' Hn'). unfold skel in Es. congruence.
Qed.

Lemma new_db0 N p : db0 N -> db0 (newMemTree memTreeLW p N).
Proof. intros H q n. unfold newMemTree. rewrite lookup_insert. case_decide; [by intros [= <-]|apply H]. Qed.

Lemma set_entry_db0 N p e : db0 N -> db0 (set_entry N p e).
Proof.
  intros H q n. rewrite lookup_set_entry. case_decide; [|apply H]. destruct (N !! p) as [m|] eqn:Hm; [|done].
  intros [= <-]. exact (H p m Hm).
Qed.

Lemma bitpos_parity p : exists h, bitpos_at p = 2 * h.
Proof. destruct p as [|l q]; [by exists 0|]. exists (7 + #q). cbn. lia. Qed.

Lemma split_loop_ok fuel N p n k k' c' :
  tree_ok N -> N !! p = Some n -> mt_entry n = Some (k', c') -> k' <> k -> key32 k -> onpath k p ->
  256 < bitpos_at p + 2 * Z.of_nat fuel ->
  exists q N', split_loop fuel N p (bitpos_at p) k = Ret (q, N') /\ tree_ok N' /\ fresh N' k q /\
    (forall k1 c1 a, holds N' k1 c1 a <-> holds N k1 c1 a) /\ bounded N N' /\ (db0 N -> db0 N').
Proof.
  revert N p n. induction fuel as [|f IH]; intros N p n Hok Hn He Hne Hk Hp Hf;
    pose proof (sh_entry _ (ok_shape _ Hok) _ _ _ _ Hn He) as [Hk' Hp'].
  { destruct Hne. eapply onpath_same; eauto. lia. }
  assert (Hpos : bitpos_at p < 256) by (apply Z.nle_gt; intros Hge; destruct Hne; by eapply onpath_same).
  destruct (bitpos_parity p) as [h Hh]. pose proof (split_none N p n k' c' Hok Hn He) as Hnone.
  pose proof (split_update N p n k' c' Hok Hn He) as Hupd. pose proof (split_tree N p n k' c' Hok Hn He) as Hok5.
  pose proof (split_holds N p n k' c' Hok Hn He) as Hh5. pose proof (split_A5 N p n k' c' Hok Hn He) as HA5.
  pose proof (split_lookup N p n k' c' Hn) as Hl3. pose proof (split_ne p k') as Hpne.
  destruct (sh_node _ (ok_shape _ Hok) _ _ Hn) as (Hb & _ & Hlen). destruct (width_even p) as (w & Hw & Hw2).
  cbn [split_loop]. rewrite Hn. cbn [or_crash obind]. rewrite He. cbn [fst]. rewrite Hb, Key_bits_digit by done. cbn [or_crash obind].
  unfold get_subtree at 1 2. rewrite Hnone, (index_A N p 0 n Hn) by lia. cbn [or_crash obind]. change (set_entry (set_entry _ _ _) p None) with (moved N p k' c').
  rewrite Hupd. cbn [obind]. rewrite Key_bits_digit by done. cbn [or_crash obind]. rewrite <- (bitpos_cons (digit k p)).
  set (N5 := set_access _ p _ _) in *. assert (Hs5 : same (moved N p k' c') N5) by (eapply same_trans; apply same_set_access).
  assert (Hlk5 : forall q m e, moved N p k' c' !! q = Some m -> mt_entry m = e -> exists m', N5 !! q = Some m' /\ mt_entry m' = e)
    by (intros; by eapply same_entry).
  assert (Hbd : bounded N N5) by (intros m Hm z; rewrite HA5; case_decide; apply Hm).
  assert (Hdb : db0 N -> db0 N5) by (intros H; eapply same_db0, set_entry_db0, set_entry_db0, new_db0, H; done).
  destruct (decide (digit k p = digit k' p)) as [E|E].
  - destruct (Hlk5 (digit k' p :: p) _ (Some (k', c')) ltac:(rewrite Hl3, decide_True by done; reflexivity) eq_refl) as (m & Hm & Hme).
    unfold get_subtree. rewrite E, Hm.
    destruct (IH N5 (digit k' p :: p) m) as (q & N' & Eq & Hok' & Hfr & Hho & Hbd' & Hdb'); try done.
    { rewrite bitpos_cons. assert (2 <= bits_at p) by (by destruct p). lia. }
    exists q, N'. split_and!; try done; [|unfold bounded in *; auto|auto]. intros. by rewrite Hho, Hh5.
  - destruct (Hlk5 p _ None ltac:(rewrite Hl3, decide_False, decide_True by done; reflexivity) eq_refl) as (m & Hm & Hme).
    assert (Hno : N5 !! (digit k p :: p) = None).
    { assert (skel <$> moved N p k' c' !! (digit k p :: p) = skel <$> N5 !! (digit k p :: p)) as Es by (rewrite <- !lookup_fmap; by rewrite Hs5).
      rewrite Hl3, !decide_False, Hnone in Es; [|by apply not_eq_sym, split_ne|congruence]. by destruct (N5 !! (digit k p :: p)). }
    destruct (new_ok N5 k p m Hok5 Hm Hme Hp Hno) as (Hok6 & Hfr & Hho & HA6). unfold get_subtree. rewrite Hno.
    set (N6 := newMemTree memTreeLW (digit k p :: p) N5) in *. destruct f as [|f]; [lia|].
    exists (digit k p :: p), N6. split_and!; try done.
    + cbn [split_loop]. destruct Hfr as (_ & _ & _ & _ & m6 & Hm6 & He6). by rewrite Hm6; cbn [or_crash obind]; rewrite He6.
    + intros. by rewrite Hho, Hh5.
    + intros b Hb0 z. rewrite HA6. by apply Hbd.
    + intros. by apply new_db0, Hdb.
Qed.
