(* ===== verification/MemProps.v ===== *)
(** Properties of the memory cache ([MemStore]): it is a map with the time of the last
    access of each entry ([tree_view]), from which a full cache drops the oldest entry that
    has data; an entry without data stays; the disk store never hears of accesses. *)
From stdpp Require Import base gmap list strings.
From Stdlib Require Import ZArith Lia.
From S2P Require Import Prelude Types MemStore MemInv MemEvict MemView.

(** ** The invariant of a store *)

(** Without the last part, which an eviction can break before the insertion that follows. *)
Record store_pre (s : MemStore) : Prop := {
  st_tree : tree_ok (ms_memtree s);
  st_clock : 0 <= ms_accessCnt s;
  st_bound : forall x, A (ms_memtree s) x <= ms_accessCnt s;
  st_count : ms_entryCnt s = Z.of_nat (size (tree_view (ms_memtree s)));
  st_db : ms_dbAccessCnt s = 0 /\ db0 (ms_memtree s)
}.
Definition store_ok (s : MemStore) : Prop :=
  store_pre s /\ (tree_view (ms_memtree s) <> ∅ -> A (ms_memtree s) ([], 0) <> 0).

(** The contents: chunk objects with the times of their last access. *)
Definition contents (s : MemStore) : gmap Key (nat * Z) := tree_view (ms_memtree s).

(** ** Lemmas *)

Lemma up_none x : valid x -> up x = None -> x = ([], 0).
Proof.
  destruct x as [p i]. unfold up, valid. cbn [fst snd]. intros [Hi _]. destruct (Z.ltb_spec 0 i); [done|].
  destruct p; [|done]. intros _. f_equal. lia.
Qed.

(** The count of the root is the smallest of all counts above zero. *)
Lemma root_smallest N x : tree_ok N -> present N x -> A N x <> 0 -> 0 < A N ([], 0) <= A N x.
Proof.
  intros Hok Hx Ha. pose proof (ok_shape _ Hok) as Hs.
  remember (Z.to_nat (dep x)) as d eqn:Ed. revert x Hx Ha Ed. induction d as [|d IH]; intros x Hx Ha Ed;
    pose proof (present_valid _ _ Hs Hx) as Hv; pose proof (dep_nonneg _ Hv) as Hd; pose proof (ok_nonneg _ Hok x) as H0;
    (destruct (up x) as [y|] eqn:Hy; [|rewrite (up_none x Hv Hy) in *; lia]);
    pose proof (present_up _ _ _ Hs Hx Hy) as Hin; pose proof (dep_up _ _ Hv Hy) as Hdy;
    pose proof (dep_nonneg y (inner_valid _ _ Hs Hin)); [lia|].
  pose proof (proj1 (heap_at_any N _ _ Hv Hy) (ok_heap _ Hok y Hin)) as E. pose proof (ok_nonneg _ Hok (sibp x)) as H1.
  assert (A N y <> 0 /\ A N y <= A N x) as [Hy0 Hyx] by (rewrite E; clear - H0 H1 Ha; minp).
  specialize (IH y (inner_present _ _ Hin) Hy0). lia.
Qed.

Lemma holds_present N p n e : shape N -> N !! p = Some n -> mt_entry n = Some e -> present N (p, 0).
Proof. intros Hs Hn He. exists n. cbn. destruct (width_even p) as (h & -> & ?). split_and!; auto; lia. Qed.

(** The contents after an access to the entry at [p]. *)
Lemma touch_view N N' p n k c a :
  tree_ok N -> tree_ok N' -> N !! p = Some n -> mt_entry n = Some (k, c) -> walked N (p, 0) a N' -> A N' (p, 0) = a ->
  tree_view N' = <[k := (c, a)]> (tree_view N).
Proof.
  intros Hok Hok' Hn He [Hsame Hent _] Ha. pose proof (ok_shape _ Hok) as Hs. apply tree_view_ext; [apply (ok_shape _ Hok')|].
  intros k1 c1 b. rewrite lookup_insert. split.
  - intros (q & m & Hm & Hme & Hb). destruct (same_entry _ _ _ _ _ (same_sym _ _ Hsame) Hm Hme) as (m0 & Hm0 & Hme0).
    destruct (decide (q = p)) as [-> |Hqp].
    + simplify_eq. by rewrite decide_True.
    + rewrite (Hent q m0 (k1, c1)) in Hb by (done || congruence). case_decide as E; [subst k1|by apply tree_view_holds; [|exists q, m0]].
      destruct Hqp. eapply (entry_unique N k); eauto; eapply (sh_entry _ Hs); eauto.
  - case_decide as E; [intros [= <- <-]; subst k1|].
    + destruct (same_entry _ _ _ _ _ Hsame Hn He) as (n' & Hn' & He'). by exists p, n'.
    + intros Hv. apply tree_view_holds in Hv as (q & m & Hm & Hme & Hb); [|done].
      destruct (same_entry _ _ _ _ _ Hsame Hm Hme) as (m' & Hm' & Hme'). exists q, m'. split_and!; [done|done|].
      rewrite (Hent q m (k1, c1)); [done|done|done|]. intros [= ->]. congruence.
Qed.

(** An access to the entry at [p] at time [t + 1]. *)
Lemma access_ok N p n k c t :
  tree_ok N -> N !! p = Some n -> mt_entry n = Some (k, c) -> 0 <= t -> (forall x, A N x <= t) -> db0 N ->
  exists N' n', updateAccess N p (t + 1) = Ret N' /\ tree_ok N' /\ (forall x, A N' x <= t + 1) /\ db0 N' /\
    tree_view N' = <[k := (c, t + 1)]> (tree_view N) /\ A N' ([], 0) <> 0 /\ N' !! p = Some n' /\ mt_entry n' = Some (k, c) /\
    A N' (p, 0) = t + 1.
Proof.
  intros Hok Hn He Ht Hb Hdb. destruct (updateAccess_ok N p n (k, c) (t + 1)) as (N' & E & Hok' & Hw & Ha); try done.
  { lia. } { intros x. specialize (Hb x). lia. }
  destruct (same_entry _ _ _ _ _ (wk_same _ _ _ _ Hw) Hn He) as (n' & Hn' & He').
  exists N', n'. split_and!; try done.
  - apply (wk_bound _ _ _ _ Hw); [lia|]. intros x. specialize (Hb x). lia.
  - by eapply same_db0; [apply (wk_same _ _ _ _ Hw)|].
  - by eapply touch_view.
  - pose proof (root_smallest N' (p, 0) Hok' (holds_present _ _ _ _ (ok_shape _ Hok') Hn' He')). lia.
Qed.

(** An entry for [k] in a node on its way that has none, or one for [k] already. *)
Lemma set_entry_ok N p n k c :
  tree_ok N -> N !! p = Some n -> p <> [] -> (forall l, N !! (l :: p) = None) -> (forall i, i <> 0 -> A N (p, i) = 0) ->
  key32 k -> onpath k p -> (mt_entry n = None \/ exists c0, mt_entry n = Some (k, c0)) ->
  (mt_entry n = None -> forall c1 b, ~ holds N k c1 b) ->
  tree_ok (set_entry N p (Some (k, c))) /\ tree_view (set_entry N p (Some (k, c))) = <[k := (c, A N (p, 0))]> (tree_view N).
Proof.
  intros Hok Hn Hp Hkids Hz Hk Hpath He Hno. pose proof (ok_shape _ Hok) as Hs. set (N' := set_entry N p (Some (k, c))).
  assert (Hlk : forall q, q <> p -> N' !! q = N !! q) by (intros; unfold N'; by rewrite lookup_set_entry, decide_False).
  assert (Hlp : exists n', N' !! p = Some n' /\ mt_entry n' = Some (k, c) /\ mt_bits n' = mt_bits n /\ mt_width n' = mt_width n /\ mt_access n' = mt_access n)
    by (unfold N'; eexists; rewrite lookup_set_entry, decide_True, Hn by done; done).
  destruct Hlp as (n' & Hn' & He' & Hb' & Hw' & Ha'). assert (HA : forall x, A N' x = A N x) by apply A_set_entry.
  assert (Hok' : tree_ok N').
  { split; [split| | |].
    - destruct (sh_root _ Hs) as (r & Hr & Hre). exists r. by rewrite Hlk.
    - intros q m Hm. destruct (decide (q = p)) as [-> |Hq]; [|rewrite Hlk in Hm by done; by apply (sh_node _ Hs)].
      rewrite Hn' in Hm. injection Hm as <-. rewrite Hb', Hw', Ha'. by apply (sh_node _ Hs).
    - intros l q m Hm. assert (Hlq : is_Some (N !! (l :: q))).
      { destruct (decide (l :: q = p)) as [<-|Hq]; [by rewrite Hn|]. by rewrite <- Hlk, Hm. }
      destruct Hlq as [m0 Hm0]. destruct (sh_child _ Hs _ _ _ Hm0) as (Hl & r & Hr & Hre). split; [done|]. exists r.
      rewrite Hlk; [done|]. intros ->. by rewrite Hkids in Hm0.
    - intros q m k1 c1 Hm Hme. destruct (decide (q = p)) as [-> |Hq]; [|rewrite Hlk in Hm by done; by eapply (sh_entry _ Hs)].
      simplify_eq. done.
    - intros [q i] (m & Hm & Hme & Hi). cbn in Hm, Hi. unfold heap_at. cbn [fst snd]. rewrite !HA.
      destruct (decide (q = p)) as [-> |Hq]; [congruence|]. rewrite Hlk in Hm by done. apply (ok_heap _ Hok (q, i)). by exists m.
    - intros q m e i Hm Hme Hi. rewrite HA. destruct (decide (q = p)) as [-> |Hq]; [by apply Hz|]. rewrite Hlk in Hm by done.
      by eapply (ok_leaf _ Hok).
    - intros x. rewrite HA. apply (ok_nonneg _ Hok). }
  split; [done|]. apply tree_view_ext; [apply (ok_shape _ Hok')|]. intros k1 c1 b. rewrite lookup_insert. split.
  - intros (q & m & Hm & Hme & Hb). rewrite HA in Hb. destruct (decide (q = p)) as [-> |Hq]; [simplify_eq; by rewrite decide_True|].
    rewrite Hlk in Hm by done. assert (Hh : holds N k1 c1 b) by (by exists q, m).
    rewrite decide_False; [by apply tree_view_holds|]. intros <-. destruct He as [He|[c0 He]]; [by eapply Hno|].
    destruct Hq. eapply (entry_unique N k); eauto. eapply (sh_entry _ Hs); eauto.
  - case_decide as E; [intros [= <- <-]; subst k1; by exists p, n'|]. intros Hv. apply tree_view_holds in Hv as (q & m & Hm & Hme & Hb); [|done].
    exists q, m. rewrite HA, Hlk; [done|]. intros ->. destruct He as [He|[c0 He]]; congruence.
Qed.

Lemma set_lastDBaccess_0 N p : db0 N -> set_lastDBaccess N p 0 = N.
Proof.
  intros H. apply map_eq. intros q. unfold set_lastDBaccess. rewrite lookup_alter. case_decide; [subst q|done].
  destruct (N !! p) as [n|] eqn:Hn; [|done]. cbn. pose proof (H p n Hn). destruct n. cbn in *. by subst.
Qed.

(** The state after an insertion of [k] at the time of the next access. *)
Record inserted (s : MemStore) (k : Key) (c : nat) (s' : MemStore) : Prop := {
  in_ok : store_ok s';
  in_view : contents s' = <[k := (c, ms_accessCnt s + 1)]> (contents s);
  in_capacity : ms_capacity s' = ms_capacity s;
  in_clock : ms_accessCnt s' = ms_accessCnt s + 1
}.

(** [put_entry] into a fresh node. *)
Lemma put_entry_ok s N p k c :
  store_pre s -> tree_ok N -> (forall k' c' a, holds N k' c' a <-> holds (ms_memtree s) k' c' a) -> bounded (ms_memtree s) N ->
  db0 N -> fresh N k p -> key32 k -> contents s !! k = None ->
  exists s', put_entry (accessed s) N p k c = Ret s' /\ inserted s k c s'.
Proof.
  intros [Hok Hclk Hbnd Hcnt [Hdb Hdb0]] HokN Hho Hbd HdbN (Hpath & Hroot & Hkids & Hz & n & Hn & He) Hk Hnone.
  pose proof (ok_shape _ Hok) as Hs. assert (Hno : forall c1 b, ~ holds N k c1 b).
  { intros c1 b Hh. apply Hho, tree_view_holds in Hh; [|done]. unfold contents in Hnone. congruence. }
  destruct (set_entry_ok N p n k c) as [Hok1 Hv1]; auto.
  assert (Hv : tree_view N = contents s).
  { apply tree_view_ext; [apply (ok_shape _ HokN)|]. intros. rewrite Hho. symmetry. by apply tree_view_holds. }
  assert (Hn1 : exists n1, set_entry N p (Some (k, c)) !! p = Some n1 /\ mt_entry n1 = Some (k, c))
    by (eexists; rewrite lookup_set_entry, decide_True, Hn by done; done).
  destruct Hn1 as (n1 & Hn1 & He1).
  destruct (access_ok (set_entry N p (Some (k, c))) p n1 k c (ms_accessCnt s)) as (N' & n' & E & Hok' & Hb' & Hd' & Hv' & Hr' & _); try done.
  { intros x. rewrite A_set_entry. by apply Hbd. } { by apply set_entry_db0. }
  rewrite Hv1, insert_insert_eq, Hv in Hv'. unfold put_entry. cbn [accessed ms_dbAccessCnt ms_accessCnt]. rewrite Hdb, set_lastDBaccess_0 by (by apply set_entry_db0).
  rewrite E. cbn [obind]. eexists. split; [done|]. split; [|exact Hv'|done|done].
  split; [split|]; cbn; try done; [lia|]. rewrite Hcnt, Hv'. rewrite map_size_insert_None by done. unfold contents. lia.
Qed.

Lemma put_insert_ok s k c :
  store_pre s -> key32 k -> exists s', put_insert s k c = Ret (fst <$> contents s !! k, s') /\ inserted s k c s'.
Proof.
  intros Hpre Hk. pose proof Hpre as [Hok Hclk Hbnd Hcnt [Hdb Hdb0]]. pose proof (ok_shape _ Hok) as Hs.
  unfold put_insert. cbn [accessed ms_memtree]. set (N := ms_memtree s) in *.
  assert (Hroot : is_Some (N !! [])) by (destruct (sh_root _ Hs) as (r & -> & _); done).
  destruct (put_descend_ok (tree_fuel N) N [] k) as [(p & E & Hpath & n & [k' c'] & Hn & He)|(p & E & Hpath & Hnone & n & Hn & He)]; try done.
  { unfold tree_fuel. cbn. lia. }
  - cbn [bitpos_at] in E. rewrite E. cbn [obind]. rewrite Hn. cbn [or_crash obind]. rewrite He. cbn [fst snd].
    unfold Key_isEqual. case_bool_decide as Ek.
    + subst k'. destruct (access_ok N p n k c' (ms_accessCnt s)) as (N1 & n1 & E1 & Hok1 & Hb1 & Hd1 & Hv1 & Hr1 & Hn1 & He1 & Ha1); try done.
      cbn [accessed ms_accessCnt]. rewrite E1. cbn [obind]. pose proof (ok_shape _ Hok1) as Hs1.
      assert (Hv : contents s !! k = Some (c', A N (p, 0))) by (apply tree_view_holds; [done|by exists p, n]).
      destruct (set_entry_ok N1 p n1 k c) as [Hok2 Hv2]; eauto.
      { intros ->. destruct (sh_root _ Hs1) as (r & Hr & Hre). congruence. }
      { intros l. destruct (N1 !! (l :: p)) eqn:El; [|done]. destruct (sh_child _ Hs1 _ _ _ El) as (_ & r & Hr & Hre). congruence. }
      { intros i Hi. by eapply (ok_leaf _ Hok1). } { congruence. }
      rewrite Ha1, Hv1, insert_insert_eq in Hv2. rewrite Hv. cbn. eexists. split; [done|]. split; [|exact Hv2|done|done].
      split; [split|]; cbn; try done; [lia|..].
      * intros x. rewrite A_set_entry. apply Hb1.
      * rewrite Hcnt, Hv2. rewrite map_size_insert. unfold contents in Hv. fold N in Hv. by rewrite Hv.
      * split; [done|by apply set_entry_db0].
      * intros _. by rewrite A_set_entry.
    + assert (Hv : contents s !! k = None).
      { apply tree_view_none; [done|]. intros c1 b Hh. by destruct (holds_at N p n k k' c1 c' b Hs Hn He Hpath Hh). }
      destruct (split_loop_ok (split_fuel k) N p n k k' c') as (q & N1 & E1 & Hok1 & Hfr & Hho & Hbd & Hd); try done.
      { unfold split_fuel. destruct Hk as [Hlen _]. unfold zlen, HashLength in Hlen. pose proof (bitpos_nonneg p). lia. }
      rewrite E1. cbn [obind]. destruct (put_entry_ok s N1 q k c) as (s' & E2 & Hin); auto. rewrite E2, Hv. cbn. eauto.
  - cbn [bitpos_at] in E. rewrite E. cbn [obind]. destruct (new_ok N k p n Hok Hn He Hpath Hnone) as (Hok1 & Hfr & Hho & HA).
    pose proof Hfr as (_ & _ & _ & _ & m & Hm & Hme). rewrite Hm. cbn [or_crash obind]. rewrite Hme.
    assert (Hv : contents s !! k = None) by (apply tree_view_none; [done|]; intros; by eapply holds_missing).
    destruct (put_entry_ok s (newMemTree memTreeLW (digit k p :: p) N) (digit k p :: p) k c) as (s' & E2 & Hin); auto.
    { intros b Hb z. by rewrite HA. } { by apply new_db0. }
    rewrite E2, Hv. cbn. eauto.
Qed.

(** ** Operations on stores *)

(** [k0] is the entry that was not accessed for the longest time: entries without a time
    are left out. *)
Definition oldest (m : gmap Key (nat * Z)) (k0 : Key) (c0 : nat) : Prop :=
  exists t0, m !! k0 = Some (c0, t0) /\ 0 < t0 /\ forall k c t, m !! k = Some (c, t) -> t <> 0 -> t0 <= t.

(** What is left when the oldest entry goes, or only loses its time. *)
Definition without (m : gmap Key (nat * Z)) (k0 : Key) (c0 : nat) (data : bool) : gmap Key (nat * Z) :=
  if data then delete k0 m else <[k0 := (c0, 0)]> m.

Lemma removed_view N N' p n k c (data : bool) :
  tree_ok N -> tree_ok N' -> N !! p = Some n -> mt_entry n = Some (k, c) ->
  same (if data then set_entry N p None else N) N' -> (data = false -> A N' (p, 0) = 0) ->
  (forall q m e, N !! q = Some m -> mt_entry m = Some e -> q <> p -> A N' (q, 0) = A N (q, 0)) ->
  tree_view N' = without (tree_view N) k c data.
Proof.
  intros Hok Hok' Hn He Hsame Hz Hq. pose proof (ok_shape _ Hok) as Hs. apply tree_view_ext; [apply (ok_shape _ Hok')|]. intros k1 c1 b.
  assert (Hother : forall q m, q <> p -> N !! q = Some m -> (exists m', N' !! q = Some m' /\ mt_entry m' = mt_entry m)).
  { intros q m Hqp Hm. eapply same_entry; [done| |done]. destruct data; [|done]. by rewrite lookup_set_entry, decide_False. }
  assert (Hback : forall q m', q <> p -> N' !! q = Some m' -> (exists m, N !! q = Some m /\ mt_entry m = mt_entry m')).
  { intros q m' Hqp Hm. destruct (same_entry _ _ _ _ _ (same_sym _ _ Hsame) Hm eq_refl) as (m & Hm' & E). exists m. split; [|done].
    destruct data; [|done]. by rewrite lookup_set_entry, decide_False in Hm'. }
  assert (Hk1 : forall q m c b, N !! q = Some m -> mt_entry m = Some (k1, c) -> q <> p -> A N (q, 0) = b -> k1 <> k /\ tree_view N !! k1 = Some (c, b)).
  { intros q m c' b' Hm Hme Hqp Hb. split; [|by apply tree_view_holds; [|exists q, m]]. intros ->. destruct Hqp.
    eapply (entry_unique N k); eauto; eapply (sh_entry _ Hs); eauto. }
  assert (Hp : N' !! p ≫= mt_entry = if data then None else Some (k, c)).
  { destruct data.
    - destruct (same_lookup (set_entry N p None) N' p {| mt_bits := mt_bits n; mt_width := mt_width n; mt_entry := None;
        mt_lastDBaccess := mt_lastDBaccess n; mt_access := mt_access n |}) as (n' & -> & Es);
        [done|by rewrite lookup_set_entry, decide_True, Hn|]. unfold skel in Es. cbn in *. congruence.
    - destruct (same_entry _ _ _ _ _ Hsame Hn He) as (n' & -> & E). done. }
  split.
  - intros (q & m' & Hm' & Hme & Hb). destruct (decide (q = p)) as [-> |Hqp].
    + rewrite Hm' in Hp. cbn in Hp. destruct data; [congruence|]. rewrite Hme in Hp. injection Hp as -> ->.
      unfold without. by rewrite lookup_insert_eq, <- Hb, Hz.
    + destruct (Hback q m' Hqp Hm') as (m & Hm & E). rewrite Hme in E. rewrite (Hq q m (k1, c1)) in Hb by done.
      destruct (Hk1 q m c1 b Hm E Hqp Hb) as [Hne Hv]. unfold without. destruct data; [by rewrite lookup_delete_ne|by rewrite lookup_insert_ne].
  - intros Hw. assert (Hc : (k1 = k /\ c1 = c /\ b = 0 /\ data = false) \/ (k1 <> k /\ tree_view N !! k1 = Some (c1, b))).
    { unfold without in Hw. destruct data.
      - apply lookup_delete_Some in Hw as [? ?]. right. done.
      - apply lookup_insert_Some in Hw as [[<- [= <- <-]]|[? ?]]; [by left|by right]. }
    destruct Hc as [(-> & -> & -> & ->)|[Hne Hv]].
    + cbn in Hp. destruct (N' !! p) as [n'|] eqn:Hn'; [|done]. exists p, n'. split_and!; auto.
    + apply tree_view_holds in Hv as (q & m & Hm & Hme & Hb); [|done]. assert (Hqp : q <> p) by (intros ->; congruence).
      destruct (Hother q m Hqp Hm) as (m' & Hm' & E). exists q, m'. rewrite E, (Hq q m (k1, c1)) by done. done.
Qed.

Lemma removeOldest_store s ready :
  store_ok s -> contents s <> ∅ ->
  exists k0 c0, oldest (contents s) k0 c0 /\
    exists f, removeOldest s ready = obind (ready c0) f /\
      forall data, exists s', f data = Ret s' /\ store_pre s' /\ contents s' = without (contents s) k0 c0 data /\
        ms_capacity s' = ms_capacity s /\ ms_accessCnt s' = ms_accessCnt s.
Proof.
  intros [[Hok Hclk Hbnd Hcnt [Hdb Hdb0]] Hlive] Hne. pose proof (ok_shape _ Hok) as Hs.
  destruct (removeOldest_ok s ready Hok (Hlive Hne)) as (p & n & [k0 c0] & N1 & Hn & He & Ha & E & Hf).
  exists k0, c0. assert (Hv : contents s !! k0 = Some (c0, A (ms_memtree s) (p, 0))) by (apply tree_view_holds; [done|by exists p, n]).
  pose proof (ok_nonneg _ Hok ([], 0)) as H0. specialize (Hlive Hne). split.
  { exists (A (ms_memtree s) (p, 0)). split_and!; [done|lia|]. intros k c t Hk Ht. apply tree_view_holds in Hk as (q & m & Hm & Hme & Hb); [|done].
    pose proof (root_smallest _ (q, 0) Hok (holds_present _ _ _ _ Hs Hm Hme)). lia. }
  exists (evict_at s N1 p). split; [done|]. intros data. destruct (Hf data) as (N' & -> & Hok' & Hsame & Hz & Hq & Hb).
  pose proof (removed_view _ _ _ _ _ _ _ Hok Hok' Hn He Hsame Hz Hq) as Hview.
  eexists. split; [done|]. split; [|split; [exact Hview|done]]. split; cbn; try done.
  - by apply Hb.
  - rewrite Hview, Hcnt. unfold without. unfold contents in Hv. destruct data.
    + rewrite map_size_delete, Hv. assert (size (tree_view (ms_memtree s)) <> 0%nat); [|lia]. by apply map_size_non_empty_iff.
    + rewrite map_size_insert, Hv. done.
  - split; [done|]. eapply same_db0; [done|]. destruct data; [by apply set_entry_db0|done].
Qed.

(** [Get] returns the chunk of exactly the key asked for, if it is there, and makes it the last
    accessed one; it never asks for an update of the access count on disk. *)
Lemma MemStore_Get_step s k :
  store_ok s -> key32 k ->
  exists s', MemStore_Get s k = Ret (fst <$> contents s !! k, false, s') /\ store_ok s' /\
    contents s' = alter (fun x => (fst x, ms_accessCnt s + 1)) k (contents s) /\ ms_capacity s' = ms_capacity s /\
    ms_accessCnt s' = match contents s !! k with Some _ => ms_accessCnt s + 1 | None => ms_accessCnt s end.
Proof.
  intros Hst Hk. pose proof Hst as [[Hok Hclk Hbnd Hcnt [Hdb Hdb0]] Hlive]. pose proof (ok_shape _ Hok) as Hs.
  unfold MemStore_Get. set (N := ms_memtree s) in *.
  assert (Hroot : is_Some (N !! [])) by (destruct (sh_root _ Hs) as (r & -> & _); done).
  assert (Hmiss : contents s !! k = None ->
    exists s', Ret (None, false, s) = Ret (fst <$> contents s !! k, false, s') /\ store_ok s' /\
      contents s' = alter (fun x => (fst x, ms_accessCnt s + 1)) k (contents s) /\ ms_capacity s' = ms_capacity s /\
      ms_accessCnt s' = match contents s !! k with Some _ => ms_accessCnt s + 1 | None => ms_accessCnt s end).
  { intros Hv. exists s. rewrite Hv. split_and!; try done.
    apply map_eq. intros k1. rewrite lookup_alter. case_decide; [subst k1; by rewrite Hv|done]. }
  destruct (find_loop_ok (tree_fuel N) N [] k) as [(p & E & Hpath & n & [k' c'] & Hn & He)|(p & E & Hpath & Hnone & n & Hn & He)]; try done.
  { unfold tree_fuel. cbn. lia. }
  - cbn [bitpos_at] in E. rewrite E. cbn [obind]. rewrite Hn. cbn [or_crash obind]. rewrite He. cbn [or_crash obind fst snd].
    unfold Key_isEqual. case_bool_decide as Ek.
    + subst k'. destruct (access_ok N p n k c' (ms_accessCnt s)) as (N1 & n1 & E1 & Hok1 & Hb1 & Hd1 & Hv1 & Hr1 & _); try done.
      cbn [accessed ms_accessCnt ms_memtree ms_dbAccessCnt]. fold N. rewrite E1. cbn [obind]. rewrite Hdb, (Hdb0 p n Hn). cbn [Z.sub].
      assert (Hv : contents s !! k = Some (c', A N (p, 0))) by (apply tree_view_holds; [done|by exists p, n]). rewrite Hv. cbn.
      eexists. split; [done|]. assert (Hal : alter (fun x : nat * Z => (fst x, ms_accessCnt s + 1)) k (contents s) = <[k := (c', ms_accessCnt s + 1)]> (contents s)).
      { apply map_eq. intros k1. rewrite lookup_alter, lookup_insert. case_decide; [subst k1; by rewrite Hv|done]. }
      rewrite Hal. split_and!; [|exact Hv1|done|done]. split; [split|]; cbn; try done; [lia|]. rewrite Hcnt, Hv1, map_size_insert.
      unfold contents in Hv. fold N in Hv. by rewrite Hv.
    + apply Hmiss, tree_view_none; [done|]. intros c1 b Hh. by destruct (holds_at N p n k k' c1 c' b Hs Hn He Hpath Hh).
  - cbn [bitpos_at] in E. rewrite E. cbn [obind]. apply Hmiss, tree_view_none; [done|]. intros; by eapply holds_missing.
Qed.

Lemma newroot_lookup p n : newMemTree memTreeFLW [] ∅ !! p = Some n ->
  p = [] /\ n = {| mt_bits := 14; mt_width := 16384; mt_entry := None; mt_lastDBaccess := 0; mt_access := replicate (Z.to_nat 16383) 0 |}.
Proof. unfold newMemTree. intros E. apply lookup_insert_Some in E as [[<- <-]|[_ E]]; [done|by rewrite lookup_empty in E]. Qed.

Lemma newroot_A x : A (newMemTree memTreeFLW [] ∅) x = 0.
Proof.
  unfold A. destruct (newMemTree memTreeFLW [] ∅ !! fst x) as [n|] eqn:E; [|done]. apply newroot_lookup in E as [_ ->]. cbn [mbind option_bind mt_access].
  unfold index. case_decide; [|done]. destruct (replicate (Z.to_nat 16383) 0 !! Z.to_nat (snd x)) eqn:E; [|done].
  by apply lookup_replicate in E as [-> _].
Qed.

Lemma newroot_ok : tree_ok (newMemTree memTreeFLW [] ∅).
Proof.
  split; [split| | |].
  - eexists. unfold newMemTree. rewrite lookup_insert_eq. done.
  - intros p n E. apply newroot_lookup in E as [-> ->]. split_and!; [done|done|]. cbn [mt_access width_at]. unfold zlen. rewrite length_replicate. lia.
  - intros l p n E. by apply newroot_lookup in E as [? _].
  - intros p n k c E. by apply newroot_lookup in E as [_ ->].
  - intros y _. unfold heap_at. by rewrite !newroot_A.
  - intros p n e i E. by apply newroot_lookup in E as [_ ->].
  - intros x. by rewrite newroot_A.
Qed.

Lemma NewMemStore_ok cap :
  0 <= cap -> exists s, NewMemStore cap = Ret s /\ store_ok s /\ contents s = ∅ /\ ms_capacity s = cap.
Proof.
  intros Hcap. assert (Hv : tree_view (newMemTree memTreeFLW [] ∅) = ∅).
  { apply tree_view_ext; [apply (ok_shape _ newroot_ok)|]. intros k c a. rewrite lookup_empty. split; [|done].
    intros (p & n & E & He & _). by apply newroot_lookup in E as [_ ->]. }
  eexists. split; [|split_and!].
  - unfold NewMemStore, setCapacity. cbn [setCapacity_loop ms_entryCnt]. destruct (Z.ltb_spec cap 0); [lia|]. cbn [obind]. reflexivity.
  - split; [split|]; cbn [ms_memtree ms_accessCnt ms_entryCnt ms_dbAccessCnt].
    + apply newroot_ok.
    + done.
    + intros x. by rewrite newroot_A.
    + by rewrite Hv.
    + split; [done|]. intros p n E. by apply newroot_lookup in E as [_ ->].
    + by rewrite Hv.
  - exact Hv.
  - done.
Qed.

(** [Put] into a cache with room, and into a full one. *)
Lemma MemStore_Put_step s k c ready :
  store_ok s -> key32 k -> 0 < ms_capacity s ->
  if decide (ms_entryCnt s < ms_capacity s) then
    exists s', MemStore_Put s k c ready = Ret (fst <$> contents s !! k, s') /\ inserted s k c s'
  else
    exists k0 c0, oldest (contents s) k0 c0 /\
      match ready c0 with
      | Ret data =>
        let m := without (contents s) k0 c0 data in
        exists s', MemStore_Put s k c ready = Ret (fst <$> m !! k, s') /\ store_ok s' /\
          contents s' = <[k := (c, ms_accessCnt s + 1)]> m /\ ms_capacity s' = ms_capacity s /\
          ms_accessCnt s' = ms_accessCnt s + 1
      | Wait => MemStore_Put s k c ready = Wait
      | Crash => MemStore_Put s k c ready = Crash
      end.
Proof.
  intros Hst Hk Hcap. unfold MemStore_Put. destruct (Z.eqb_spec (ms_capacity s) 0); [lia|].
  destruct (Z.leb_spec (ms_capacity s) (ms_entryCnt s)) as [Hfull|Hroom].
  - rewrite decide_False by lia. destruct (removeOldest_store s ready) as (k0 & c0 & Hold & f & E & Hf); [done| |].
    { intros E. pose proof (st_count _ (proj1 Hst)) as Hc. unfold contents in E. rewrite E, map_size_empty in Hc. lia. }
    exists k0, c0. split; [done|]. rewrite E. destruct (ready c0) as [data| |]; cbn [obind]; try done.
    destruct (Hf data) as (s1 & -> & Hpre & Hv & Hc1 & Hclk). cbn [obind].
    destruct (put_insert_ok s1 k c Hpre Hk) as (s' & -> & [Hok Hview Hcap' Hclk']). rewrite Hv, Hclk in *. exists s'. split_and!; try done; lia.
  - rewrite decide_True by lia. cbn [obind]. apply put_insert_ok; [apply Hst|done].
Qed.

Lemma count_dom s : store_ok s -> ms_entryCnt s = Z.of_nat (size (dom (contents s))).
Proof. intros [Hpre _]. rewrite (st_count _ Hpre). by rewrite size_dom. Qed.

(** The cache is full and the entry that [Put] takes for the oldest is left: it has no data. *)
Definition spares (s : MemStore) (has : nat -> bool) : bool :=
  (ms_capacity s <=? ms_entryCnt s) &&
  match removeOldest s (fun c => Ret (has c)) with Ret s' => ms_entryCnt s' =? ms_entryCnt s | _ => false end.

(** A series of [Put]s; with each, the chunks that have data at that time. The number counts the puts that spare the oldest entry. *)
Fixpoint puts (s : MemStore) (l : list (Key * nat * (nat -> bool))) : outcome (MemStore * nat) :=
  match l with
  | [] => Ret (s, 0%nat)
  | (k, c, has) :: l =>
    let& x := MemStore_Put s k c (fun i => Ret (has i)) in
    let& y := puts (snd x) l in
    Ret (fst y, if spares s has then S (snd y) else snd y)
  end.

Lemma removeOldest_count s has :
  store_ok s -> 0 < ms_capacity s <= ms_entryCnt s ->
  exists k0 c0 s1, oldest (contents s) k0 c0 /\ removeOldest s (fun c => Ret (has c)) = Ret s1 /\ store_pre s1 /\
    ms_capacity s1 = ms_capacity s /\ ms_entryCnt s1 = ms_entryCnt s - (if has c0 then 1 else 0) /\
    (has c0 = false -> dom (contents s1) = dom (contents s)).
Proof.
  intros Hst Hfull. pose proof (st_count _ (proj1 Hst)) as Hc.
  destruct (removeOldest_store s (fun c => Ret (has c)) Hst) as (k0 & c0 & Hold & f & E & Hf).
  { intros E. unfold contents in E. rewrite E, map_size_empty in Hc. lia. }
  destruct (Hf (has c0)) as (s1 & E1 & Hpre & Hv & Hcap & _). cbn [obind] in E. rewrite E1 in E. exists k0, c0, s1.
  pose proof (st_count _ Hpre) as Hc1. fold (contents s1) in Hc1. rewrite Hv in Hc1. unfold without in *.
  pose proof Hold as (t0 & Hk0 & _). fold (contents s) in Hc. split_and!; try done.
  - destruct (has c0).
    + rewrite map_size_delete, Hk0 in Hc1. assert (size (contents s) <> 0%nat); [|lia].
      apply map_size_non_empty_iff. intros E0. by rewrite E0, lookup_empty in Hk0.
    + rewrite map_size_insert, Hk0 in Hc1. unfold id in Hc1. lia.
  - intros Hf0. rewrite Hv, Hf0, dom_insert_L. assert (k0 ∈ dom (contents s)) by (by apply elem_of_dom; rewrite Hk0). set_solver.
Qed.

(** What one [Put] does to the number of entries. *)
Lemma Put_count s k c has :
  store_ok s -> key32 k -> 0 < ms_capacity s ->
  exists r s', MemStore_Put s k c (fun i => Ret (has i)) = Ret (r, s') /\ store_ok s' /\ ms_capacity s' = ms_capacity s /\
    ms_entryCnt s' <= Z.max (ms_capacity s) (ms_entryCnt s + (if spares s has then 1 else 0)) /\
    ((forall i, has i = true) -> spares s has = false) /\
    ((forall i, has i = false) -> dom (contents s') = {[k]} ∪ dom (contents s)).
Proof.
  intros Hst Hk Hcap. unfold MemStore_Put, spares. destruct (Z.eqb_spec (ms_capacity s) 0); [lia|].
  assert (Hin : forall s1, store_pre s1 -> exists r s', put_insert s1 k c = Ret (r, s') /\ store_ok s' /\
    ms_capacity s' = ms_capacity s1 /\ ms_entryCnt s' <= ms_entryCnt s1 + 1 /\ dom (contents s') = {[k]} ∪ dom (contents s1)).
  { intros s1 Hpre. destruct (put_insert_ok s1 k c Hpre Hk) as (s' & E & [Hok Hv Hc' _]). eexists _, s'. split_and!; try done.
    - pose proof (st_count _ (proj1 Hok)) as H1. pose proof (st_count _ Hpre) as H2. fold (contents s') in H1. fold (contents s1) in H2.
      rewrite Hv, map_size_insert in H1. destruct (contents s1 !! k); unfold id in H1; lia.
    - by rewrite Hv, dom_insert_L. }
  destruct (Z.leb_spec (ms_capacity s) (ms_entryCnt s)) as [Hfull|Hroom]; cbn [andb].
  - destruct (removeOldest_count s has Hst ltac:(lia)) as (k0 & c0 & s1 & _ & -> & Hpre & Hc1 & Hn & Hd). cbn [obind].
    destruct (Hin s1 Hpre) as (r & s' & E & Hok & Hc' & Hle & Hdom). exists r, s'. rewrite Hn.
    split_and!; [done|done|lia| | |].
    + destruct (has c0); [rewrite (proj2 (Z.eqb_neq _ _)) by lia|rewrite (proj2 (Z.eqb_eq _ _)) by lia]; lia.
    + intros Ht. rewrite Ht. apply Z.eqb_neq. lia.
    + intros Hf. by rewrite Hdom, (Hd (Hf c0)).
  - cbn [obind]. destruct (Hin s (proj1 Hst)) as (r & s' & E & Hok & Hc' & Hle & Hdom). exists r, s'. split_and!; try done. lia.
Qed.

Lemma puts_count l s :
  Forall (fun x => key32 x.1.1) l -> store_ok s -> 0 < ms_capacity s ->
  exists s' n, puts s l = Ret (s', n) /\ store_ok s' /\ ms_entryCnt s' <= Z.max (ms_capacity s) (ms_entryCnt s) + Z.of_nat n /\
    (Forall (fun x => forall i, x.2 i = true) l -> n = 0%nat) /\
    (Forall (fun x => forall i, x.2 i = false) l -> dom (contents s') = list_to_set l.*1.*1 ∪ dom (contents s)).
Proof.
  intros Hl. revert s. induction Hl as [|[[k c] has] l Hk _ IH]; intros s Hst Hcap; cbn [puts].
  { exists s, 0%nat. split_and!; try done; [lia|]. intros _. set_solver. }
  destruct (Put_count s k c has Hst Hk Hcap) as (r & s1 & -> & Hst1 & Hc1 & Hle1 & Ht1 & Hf1). cbn [obind snd].
  destruct (IH s1 Hst1) as (s' & n & -> & Hst' & Hle & Ht & Hf); [lia|]. eexists s', _. split; [done|]. cbn [fst snd].
  split_and!; [done|destruct (spares s has); lia| |].
  - intros [Hh Hr]%Forall_cons. by rewrite (Ht1 Hh), (Ht Hr).
  - intros [Hh Hr]%Forall_cons. rewrite (Hf Hr), (Hf1 Hh). cbn. set_solver.
Qed.

(** C32: The cache grows beyond its capacity by open requests only: whatever is put into a new cache, and whenever its entries get their
    data, it holds at most as many entries as its capacity and the number of puts that found the oldest entry without data, which they spare. So where all
    entries have their data when they are put, the capacity bounds the cache, and where none has, it is not bounded: all keys that were ever put are in it. *)
Theorem cache_bounds cap l :
  0 < cap -> Forall (fun x => key32 x.1.1) l ->
  exists s s' n, NewMemStore cap = Ret s /\ puts s l = Ret (s', n) /\ ms_entryCnt s' <= cap + Z.of_nat n /\
    (Forall (fun x => forall i, x.2 i = true) l -> n = 0%nat) /\
    (Forall (fun x => forall i, x.2 i = false) l -> ms_entryCnt s' = Z.of_nat (size (list_to_set l.*1.*1 : gset Key))).
Proof.
  intros Hcap Hl. destruct (NewMemStore_ok cap) as (s & E & Hst & Hv & Hc); [lia|].
  destruct (puts_count l s Hl Hst) as (s' & n & Ep & Hst' & Hle & Ht & Hf); [lia|].
  exists s, s', n. split_and!; try done.
  - rewrite (count_dom s Hst), Hv, Hc, dom_empty_L, size_empty in Hle. lia.
  - intros Hr. rewrite (count_dom s' Hst'), (Hf Hr), Hv, dom_empty_L. do 2 f_equal. set_solver.
Qed.

(** ** Refinement of a map with times of access *)

Inductive cache_op := OpPut (k : Key) (c : nat) | OpGet (k : Key).
Definition op_key (o : cache_op) : Key := match o with OpPut k _ => k | OpGet k => k end.

Definition mem_step (ready : nat -> outcome bool) (s : MemStore) (o : cache_op) : outcome (option nat * MemStore) :=
  match o with
  | OpPut k c => MemStore_Put s k c ready
  | OpGet k => let& x := MemStore_Get s k in let '(r, _, s) := x in Ret (r, s)
  end.

Fixpoint mem_run (ready : nat -> outcome bool) (s : MemStore) (os : list cache_op) : outcome (list (option nat) * MemStore) :=
  match os with
  | [] => Ret ([], s)
  | o :: os =>
    let& x := mem_step ready s o in
    let& y := mem_run ready (snd x) os in
    Ret (fst x :: fst y, snd y)
  end.

(** The specification: a map from keys to chunks with the times of their last access, and
    the time. A full map drops the oldest entry, which stays without a time if it has no data. *)
Inductive lru_step (has_data : nat -> bool) (cap : Z) :
  gmap Key (nat * Z) * Z -> cache_op -> option nat -> gmap Key (nat * Z) * Z -> Prop :=
| lru_hit m t k c t0 : m !! k = Some (c, t0) -> lru_step has_data cap (m, t) (OpGet k) (Some c) (<[k := (c, t + 1)]> m, t + 1)
| lru_miss m t k : m !! k = None -> lru_step has_data cap (m, t) (OpGet k) None (m, t)
| lru_room m t k c : Z.of_nat (size m) < cap ->
    lru_step has_data cap (m, t) (OpPut k c) (fst <$> m !! k) (<[k := (c, t + 1)]> m, t + 1)
| lru_full m t k c k0 c0 : cap <= Z.of_nat (size m) -> oldest m k0 c0 ->
    lru_step has_data cap (m, t) (OpPut k c) (fst <$> without m k0 c0 (has_data c0) !! k)
      (<[k := (c, t + 1)]> (without m k0 c0 (has_data c0)), t + 1).

Inductive lru_run (has_data : nat -> bool) (cap : Z) :
  gmap Key (nat * Z) * Z -> list cache_op -> list (option nat) -> gmap Key (nat * Z) * Z -> Prop :=
| lru_done x : lru_run has_data cap x [] [] x
| lru_next x o r y os rs z : lru_step has_data cap x o r y -> lru_run has_data cap y os rs z ->
    lru_run has_data cap x (o :: os) (r :: rs) z.

Lemma mem_step_refines has_data s o :
  store_ok s -> key32 (op_key o) -> 0 < ms_capacity s ->
  exists r s', mem_step (fun c => Ret (has_data c)) s o = Ret (r, s') /\ store_ok s' /\ ms_capacity s' = ms_capacity s /\
    lru_step has_data (ms_capacity s) (contents s, ms_accessCnt s) o r (contents s', ms_accessCnt s').
Proof.
  intros Hok Hk Hcap. pose proof (st_count _ (proj1 Hok)) as Hcnt. destruct o as [k c|k]; cbn [mem_step op_key] in *.
  - pose proof (MemStore_Put_step s k c (fun c => Ret (has_data c)) Hok Hk Hcap) as Hp. case_decide.
    + destruct Hp as (s' & E & [Hok' Hv Hc Ht]). exists (fst <$> contents s !! k), s'. split_and!; try done. rewrite Hv, Ht. apply lru_room.
      unfold contents. lia.
    + destruct Hp as (k0 & c0 & Hold & s' & E & Hok' & Hv & Hc & Ht). eexists _, s'. split_and!; try done. rewrite Hv, Ht. apply lru_full; [|done].
      unfold contents. lia.
  - destruct (MemStore_Get_step s k Hok Hk) as (s' & -> & Hok' & Hv & Hc & Ht). cbn [obind]. eexists _, s'. split_and!; try done.
    rewrite Hv, Ht. destruct (contents s !! k) as [[c t0]|] eqn:E.
    + replace (alter _ k (contents s)) with (<[k := (c, ms_accessCnt s + 1)]> (contents s)); [by eapply lru_hit|].
      apply map_eq. intros k1. rewrite lookup_alter, lookup_insert. case_decide; [subst; by rewrite E|done].
    + replace (alter _ k (contents s)) with (contents s); [by apply lru_miss|].
      apply map_eq. intros k1. rewrite lookup_alter. case_decide; [subst; by rewrite E|done].
Qed.

(** C9: The prefix tree of the memory cache refines a map with times of access: every sequence
    of [Put] and [Get] on a new cache, with keys of 32 bytes, ends without panic and gives the results of
    the map, in which a full cache drops the entry that was not accessed for the longest time. *)
Theorem MemStore_refines_lru has_data cap os :
  0 < cap -> Forall (fun o => key32 (op_key o)) os ->
  exists s rs s', NewMemStore cap = Ret s /\ mem_run (fun c => Ret (has_data c)) s os = Ret (rs, s') /\
    lru_run has_data cap (∅, 0) os rs (contents s', ms_accessCnt s') /\ ms_entryCnt s' = Z.of_nat (size (contents s')).
Proof.
  intros Hcap Hos. destruct (NewMemStore_ok cap) as (s & E & Hok & Hv & Hc); [lia|].
  assert (ms_accessCnt s = 0) as Ht by (revert E; unfold NewMemStore, setCapacity; cbn [setCapacity_loop ms_entryCnt];
    destruct (Z.ltb_spec cap 0); [lia|]; by intros [= <-]).
  assert (Hrun : exists rs s', mem_run (fun c => Ret (has_data c)) s os = Ret (rs, s') /\ store_ok s' /\
    lru_run has_data cap (contents s, ms_accessCnt s) os rs (contents s', ms_accessCnt s')).
  { clear E Hv Ht. revert s Hok Hc. induction Hos as [|o os Hk _ IH]; intros s Hok Hc; cbn [mem_run].
    { exists [], s. split_and!; try done. constructor. }
    destruct (mem_step_refines has_data s o Hok Hk) as (r & s1 & -> & Hok1 & Hc1 & Hstep); [lia|]. cbn [obind fst snd].
    destruct (IH s1 Hok1) as (rs & s' & -> & Hok' & Hrun); [lia|]. cbn [obind fst snd]. exists (r :: rs), s'. split_and!; try done.
    rewrite Hc in Hstep. by econstructor. }
  destruct Hrun as (rs & s' & Er & Hok' & Hrun). rewrite Hv, Ht in Hrun. exists s, rs, s'. split_and!; try done. apply (st_count _ (proj1 Hok')).
Qed.

(** ** Keys of other lengths *)

Lemma Key_bits_short b : Key_bits [b] 0 14 = None.
Proof. done. Qed.

(** A key of one byte panics in the first step of a descent. *)
Lemma short_key_crashes s b : store_ok s -> MemStore_Get s [b] = Crash.
Proof.
  intros [[Hok _ _ _ _] _]. destruct (sh_root _ (ok_shape _ Hok)) as (n & Hn & He). unfold MemStore_Get, tree_fuel.
  cbn [find_loop]. rewrite Hn. cbn [or_crash obind]. rewrite He. destruct (sh_node _ (ok_shape _ Hok) _ _ Hn) as (-> & _).
  cbn [bits_at]. unfold memTreeFLW. by rewrite Key_bits_short.
Qed.

(** A longer key that goes on with zeros takes the way of the short one for ever. *)
Lemma Key_bits_zeros k z p :
  key32 k -> Key_bits (k ++ replicate z 0) (bitpos_at p) (bits_at p) = Some (digit k p).
Proof.
  intros [Hlen HF]. rewrite Key_bits_way.
  - f_equal. unfold digit. do 2 f_equal. clear. induction k as [|b k IH]; cbn; [|by rewrite IH].
    induction z as [|z IH]; [done|]. cbn in *. lia.
  - rewrite zlen_app, Hlen. pose proof (zlen_nonneg (replicate z 0)). unfold HashLength. lia.
  - apply Forall_app. split; [done|]. apply Forall_replicate. done.
Qed.

Lemma split_loop_diverges k k' :
  (forall p, Key_bits k' (bitpos_at p) (bits_at p) = Some (digit k p)) ->
  forall fuel N p n c, tree_ok N -> N !! p = Some n -> mt_entry n = Some (k, c) -> split_loop fuel N p (bitpos_at p) k' = Wait.
Proof.
  intros Hk'. induction fuel as [|f IH]; intros N p n c Hok Hn He; [done|].
  pose proof (sh_entry _ (ok_shape _ Hok) _ _ _ _ Hn He) as [Hk Hp]. pose proof (split_none N p n k c Hok Hn He) as Hnone.
  pose proof (split_update N p n k c Hok Hn He) as Hupd. pose proof (split_tree N p n k c Hok Hn He) as Hok5.
  destruct (sh_node _ (ok_shape _ Hok) _ _ Hn) as (Hb & _ & Hlen). destruct (width_even p) as (w & Hw & Hw2).
  cbn [split_loop]. rewrite Hn. cbn [or_crash obind]. rewrite He. cbn [fst]. rewrite Hb, Key_bits_digit by done. cbn [or_crash obind].
  unfold get_subtree at 1 2. rewrite Hnone, (index_A N p 0 n Hn) by lia. cbn [or_crash obind]. change (set_entry (set_entry _ _ _) p None) with (moved N p k c).
  rewrite Hupd. cbn [obind]. rewrite Hk'. cbn [or_crash obind]. rewrite <- (bitpos_cons (digit k p)).
  set (N5 := set_access _ p _ _) in *. assert (Hs5 : same (moved N p k c) N5) by (eapply same_trans; apply same_set_access).
  destruct (same_entry _ _ (digit k p :: p) _ _ Hs5 ltac:(rewrite (split_lookup N p n k c Hn), decide_True by done; reflexivity) eq_refl) as (m & Hm & Hme).
  unfold get_subtree. rewrite Hm. by apply (IH N5 _ m c).
Qed.

(** Descents depend on the bits of the key only. *)
Lemma descend_same N k k' :
  shape N -> key32 k -> (forall p, Key_bits k' (bitpos_at p) (bits_at p) = Some (digit k p)) ->
  forall fuel p, put_descend fuel N p (bitpos_at p) k' = put_descend fuel N p (bitpos_at p) k /\
    find_loop fuel N p (bitpos_at p) k' = find_loop fuel N p (bitpos_at p) k.
Proof.
  intros Hs Hk Hk'. induction fuel as [|f IH]; intros p; [done|]. cbn [put_descend find_loop].
  destruct (N !! p) as [n|] eqn:Hn; [|done]. cbn [or_crash obind]. destruct (mt_entry n); [done|].
  destruct (sh_node _ Hs _ _ Hn) as (-> & _). rewrite Hk', Key_bits_digit by done. cbn [or_crash obind].
  destruct (N !! (digit k p :: p)); [|done]. rewrite <- (bitpos_cons (digit k p)). apply IH.
Qed.

(** While a key is cached, [Get] of the key extended with zero bytes finds nothing, and [Put]
    of it runs for ever, holding the lock of the cache. A key of one byte panics. *)
Lemma odd_keys_block s k z :
  store_ok s -> key32 k -> contents s !! k <> None -> (0 < z)%nat -> ms_entryCnt s < ms_capacity s ->
  (forall c ready, MemStore_Put s (k ++ replicate z 0) c ready = Wait) /\
  MemStore_Get s (k ++ replicate z 0) = Ret (None, false, s) /\
  (exists p, forall fuel, split_loop fuel (ms_memtree s) p (bitpos_at p) (k ++ replicate z 0) = Wait) /\
  forall b, MemStore_Get s [b] = Crash.
Proof.
  intros Hst Hk Hin Hz Hroom. pose proof Hst as [[Hok Hclk _ Hcnt _] _]. pose proof (ok_shape _ Hok) as Hs.
  pose proof (fun p => Key_bits_zeros k z p Hk) as Hway. set (k' := k ++ replicate z 0) in *.
  assert (Hne : Key_isEqual k k' = false).
  { unfold Key_isEqual. apply bool_decide_false. subst k'. intros E. apply (f_equal length) in E. rewrite length_app, length_replicate in E. lia. }
  assert (Hroot : is_Some (ms_memtree s !! [])) by (destruct (sh_root _ Hs) as (r & -> & _); done).
  destruct (contents s !! k) as [[c0 t0]|] eqn:Hc; [|done]. apply tree_view_holds in Hc; [|done].
  set (N := ms_memtree s) in *. pose proof (descend_same N k k' Hs Hk Hway (tree_fuel N) []) as [Hd Hf]. cbn [bitpos_at] in Hd, Hf.
  assert (Hfuel : (size N <= tree_fuel N + length (@nil Z))%nat) by (unfold tree_fuel; cbn; lia).
  assert (Hmeet : forall p n k1 c1, onpath k p -> N !! p = Some n -> mt_entry n = Some (k1, c1) -> k1 = k)
    by (intros p n k1 c1 Hp Hn He; by destruct (holds_at N p n k k1 c0 c1 t0 Hs Hn He Hp Hc)).
  assert (Hfull : forall c ready, MemStore_Put s k' c ready = put_insert s k' c).
  { intros. unfold MemStore_Put. destruct (Z.eqb_spec (ms_capacity s) 0); [lia|]. by destruct (Z.leb_spec (ms_capacity s) (ms_entryCnt s)); [lia|]. }
  destruct (put_descend_ok (tree_fuel N) N [] k) as [(p & E & Hpath & n & [k1 c1] & Hn & He)|(p & _ & Hpath & Hnone & n & Hn & He)]; try done.
  2: { by destruct (holds_missing N p n k c0 t0 Hs Hn He Hpath Hnone). }
  pose proof (Hmeet p n k1 c1 Hpath Hn He) as ->. cbn [bitpos_at] in E. split_and!.
  - intros c ready. rewrite Hfull. unfold put_insert. cbn [accessed ms_memtree]. fold N. rewrite Hd, E. cbn [obind]. rewrite Hn. cbn [or_crash obind].
    rewrite He. cbn [fst snd]. rewrite Hne. by rewrite (split_loop_diverges k k' Hway _ N p n c1 Hok Hn He).
  - unfold MemStore_Get. fold N. rewrite Hf.
    destruct (find_loop_ok (tree_fuel N) N [] k) as [(q & E' & Hpq & m & [k2 c2] & Hm & Hme)|(q & _ & Hpq & Hnq & m & Hm & Hme)]; try done.
    + cbn [bitpos_at] in E'. rewrite E'. cbn [obind]. rewrite Hm. cbn [or_crash obind]. rewrite Hme. cbn [or_crash obind fst].
      by rewrite (Hmeet q m k2 c2 Hpq Hm Hme), Hne.
    + by destruct (holds_missing N q m k c0 t0 Hs Hm Hme Hpq Hnq).
  - exists p. intros fuel. by apply (split_loop_diverges k k' Hway fuel N p n c1).
  - intros b. by apply short_key_crashes.
Qed.

(** ** Witnesses *)

(** A new cache of capacity 10. *)
Definition mem10 : MemStore :=
  {| ms_memtree := newMemTree memTreeFLW [] ∅; ms_entryCnt := 0; ms_capacity := 10; ms_accessCnt := 0; ms_dbAccessCnt := 0 |}.

Lemma mem10_ok : store_ok mem10.
Proof. destruct (NewMemStore_ok 10) as (s & E & Hok & _); [lia|]. injection E as <-. exact Hok. Qed.

(** The cache after one [Put]. *)
Definition mem_put (k : Key) : MemStore :=
  match MemStore_Put mem10 k 0 (fun _ => Crash) with Ret x => snd x | _ => mem10 end.

Lemma mem_put_ok k : key32 k -> store_ok (mem_put k) /\ size (contents (mem_put k)) = 1%nat /\ ms_capacity (mem_put k) = 10.
Proof.
  intros Hk. pose proof (MemStore_Put_step mem10 k 0 (fun _ => Crash) mem10_ok Hk) as Hp.
  rewrite decide_True in Hp by done. destruct Hp as (s & E & [Hok Hv Hc _]); [done|]. unfold mem_put. rewrite E.
  assert (contents mem10 = ∅) as E0 by (destruct (NewMemStore_ok 10) as (s0 & Es & _ & Hv0 & _); [lia|]; by injection Es as <-).
  split_and!; [done| |done]. cbn [snd]. by rewrite Hv, E0, insert_empty, map_size_singleton.
Qed.

Lemma key32_replicate x : is_byte x -> key32 (replicate 32 x).
Proof. intros Hx. split; [done|]. apply Forall_replicate. exact Hx. Qed.


Lemma MemStore_refines_lru_witness :
  exists s rs s', NewMemStore 1 = Ret s /\
    mem_run (fun _ => Ret true) s [OpPut (replicate 32 3) 7; OpPut (replicate 32 5) 8; OpGet (replicate 32 3); OpGet (replicate 32 5)] = Ret (rs, s') /\
    lru_run (fun _ => true) 1 (∅, 0) [OpPut (replicate 32 3) 7; OpPut (replicate 32 5) 8; OpGet (replicate 32 3); OpGet (replicate 32 5)]
      rs (contents s', ms_accessCnt s') /\ ms_entryCnt s' = Z.of_nat (size (contents s')).
Proof.
  apply (MemStore_refines_lru (fun _ => true) 1); [lia|]. repeat (apply Forall_cons; split; [by apply key32_replicate|]). apply Forall_nil. done.
Defined.

(** Three requests in a cache for two entries. *)
(** Two requests and three chunks with data in a cache for two entries: the requests are spared twice, and then have data. *)
Definition mixed_puts : list (Key * nat * (nat -> bool)) :=
  let req := fun i => negb (i <? 2)%nat in
  [(replicate 32 3, 0%nat, req); (replicate 32 4, 1%nat, req); (replicate 32 5, 2%nat, req); (replicate 32 6, 3%nat, req);
   (replicate 32 7, 4%nat, fun _ => true)].

Example mixed_puts_grow :
  match NewMemStore 2 with Ret s => match puts s mixed_puts with Ret (s', n) => (ms_entryCnt s', n) = (4, 2%nat) | _ => False end | _ => False end.
Proof. by vm_compute. Qed.

Lemma cache_bounds_witness :
  exists s s' n, NewMemStore 2 = Ret s /\ puts s mixed_puts = Ret (s', n) /\ ms_entryCnt s' <= 2 + Z.of_nat n /\
    (Forall (fun x => forall i, x.2 i = true) mixed_puts -> n = 0%nat) /\
    (Forall (fun x => forall i, x.2 i = false) mixed_puts -> ms_entryCnt s' = Z.of_nat (size (list_to_set mixed_puts.*1.*1 : gset Key))).
Proof.
  apply (cache_bounds 2 mixed_puts); [lia|].
  repeat (apply Forall_cons; split; [by apply key32_replicate|]). apply Forall_nil. done.
Defined.
