(* ===== verification/Streamer.v ===== *)
(** The stream broker ([livepeer/streaming/streamer.go], [types.go]): stream
    identifiers, and the streams, subscribers and workers of a node.

    Streams, subscribers, muxers and workers are objects with identifiers. The
    subscriber object of the lpms package is the record [StreamSubscriber] with the
    two maps of muxers it keeps. The goroutine that adds an RTMP muxer is a pending
    task, which runs at any later time ([ORun]), also after the subscriber object
    has left the map. The theorems: identifiers split into what they were made of,
    every history of operations is free of panics, has a worker of its own for each
    subscriber entry and forgets none, and leaving an RTMP stream drops the stream also at its
    origin. A worker that is cancelled or comes to the end of its stream returns at any later time ([OExit]). *)
From stdpp Require Import base gmap list strings.
From Stdlib Require Import ZArith Lia.
From S2P Require Import Prelude Types.

(** ** Stream identifiers *)

Abbreviation StreamID := bytes (only parsing).
Abbreviation Hash32 := bytes (only parsing).

Definition RequestStreamMsgID : Z := 0.
Definition DeliverStreamMsgID : Z := 1.
Definition EOFStreamMsgID : Z := 2.
Definition StopStreamMsgID : Z := 3.
Definition TranscodeRequestMsgID : Z := 4.
Definition TranscodeAckMsgID : Z := 5.

Definition MakeStreamID (nodeID : Hash32) (id : bytes) : StreamID := hex_encode nodeID ++ id.

(** [common.FromHex], [common.BytesToHash] and [common.HexToHash]. *)
Definition FromHex (s : bytes) : bytes :=
  if 1 <? #s then
    let s := if bool_decide (take 2 s = str "0x") || bool_decide (take 2 s = str "0X") then drop 2 s else s in
    let s := if Z.odd (#s) then 48 :: s else s in
    Hex2Bytes s
  else [].
Definition BytesToHash (b : bytes) : Hash32 :=
  let b := if 32 <? #b then drop (length b - 32) b else b in
  replicate (32 - length b) 0 ++ b.
Definition HexToHash (s : bytes) : Hash32 := BytesToHash (FromHex s).

Definition SplitComponents (self : StreamID) : Hash32 * bytes :=
  let originComponentLength := 64%nat in
  if negb (#self =? 128) then (make_bytes 32, [])
  else (HexToHash (take originComponentLength self), drop originComponentLength self).

(** ** Subscribers *)

Inductive VideoFormat := HLS | RTMP.

#[export] Instance VideoFormat_eq_dec : EqDecision VideoFormat.
Proof. solve_decision. Defined.

Record StreamSubscriber := mkSub { ss_stream : nat; ss_rtmp : gmap bytes nat; ss_hls : gmap bytes nat }.

Definition NewStreamSubscriber (s : nat) : StreamSubscriber := {| ss_stream := s; ss_rtmp := ∅; ss_hls := ∅ |}.

(** Refused when there are subscribers of the other format. *)
Definition SubscribeRTMP (s : StreamSubscriber) (muxID : bytes) (mux : nat) : StreamSubscriber :=
  if bool_decide (ss_hls s = ∅) then
    {| ss_stream := ss_stream s; ss_rtmp := <[muxID := mux]> (ss_rtmp s); ss_hls := ss_hls s |}
  else s.

Definition SubscribeHLS (s : StreamSubscriber) (muxID : bytes) (mux : nat) : StreamSubscriber * bool :=
  if negb (bool_decide (ss_rtmp s = ∅)) then (s, true)
  else match ss_hls s !! muxID with
       | Some _ => (s, true)
       | None => ({| ss_stream := ss_stream s; ss_rtmp := ss_rtmp s; ss_hls := <[muxID := mux]> (ss_hls s) |}, false)
       end.

Definition sub_HasSubscribers (s : StreamSubscriber) : bool :=
  Nat.ltb 0 (size (ss_rtmp s) + size (ss_hls s)).

(** ** The streamer *)

Record Streamer := mkStreamer {
  networkStreams : gmap StreamID (nat * VideoFormat);
  subscribers : gmap StreamID nat;             (* subscriber objects *)
  cancellation : gmap StreamID nat;            (* the worker that the function cancels *)
  SelfAddress : Hash32;
  objs : gmap nat StreamSubscriber;            (* the heap of subscriber objects *)
  next : nat;                                  (* next object *)
  running : gset nat;                          (* workers that have not returned *)
  cancelled : gset nat;                        (* workers whose context is cancelled *)
  pending : list (nat * (bytes * nat));        (* goroutines that have to add an RTMP muxer *)
  ended : gset nat                             (* streams with a trailer written *)
}.

Definition NewStreamer (selfAddress : Hash32) : Streamer :=
  {| networkStreams := ∅; subscribers := ∅; cancellation := ∅; SelfAddress := selfAddress;
     objs := ∅; next := 0; running := ∅; cancelled := ∅; pending := []; ended := ∅ |}.

(** [m[id] = s] and [delete(m, id)] on the map of streams. *)
Definition with_streams (self : Streamer) (ns : gmap StreamID (nat * VideoFormat)) : Streamer :=
  {| networkStreams := ns; subscribers := subscribers self; cancellation := cancellation self;
     SelfAddress := SelfAddress self; objs := objs self; next := next self; running := running self; cancelled := cancelled self;
     pending := pending self; ended := ended self |}.

(** The id of a new object. *)
Definition fresh_object (self : Streamer) : nat * Streamer :=
  (next self, {| networkStreams := networkStreams self; subscribers := subscribers self;
                 cancellation := cancellation self; SelfAddress := SelfAddress self; objs := objs self;
                 next := S (next self); running := running self; cancelled := cancelled self; pending := pending self; ended := ended self |}).

Definition AddNewNetworkStream (self : Streamer) (strmID : StreamID) (format : VideoFormat) : Streamer * nat :=
  let '(strm, self) := fresh_object self in
  (with_streams self (<[strmID := (strm, format)]> (networkStreams self)), strm).

Definition DeleteNetworkStream (self : Streamer) (streamID : StreamID) : Streamer :=
  with_streams self (delete streamID (networkStreams self)).

(** The stream of an id, created when absent. *)
Definition get_stream (self : Streamer) (strmID : StreamID) (format : VideoFormat) : nat * Streamer :=
  match networkStreams self !! strmID with
  | Some (strm, _) => (strm, self)
  | None => let '(self, strm) := AddNewNetworkStream self strmID format in (strm, self)
  end.

(** The subscriber object of an id; a new one comes with a worker and its cancel function. *)
Definition get_subscriber (self : Streamer) (strmID : StreamID) (strm : nat) : nat * Streamer :=
  match subscribers self !! strmID with
  | Some sub => (sub, self)
  | None =>
    let sub := next self in
    let worker := S (next self) in
    (sub, {| networkStreams := networkStreams self; subscribers := <[strmID := sub]> (subscribers self);
             cancellation := <[strmID := worker]> (cancellation self); SelfAddress := SelfAddress self;
             objs := <[sub := NewStreamSubscriber strm]> (objs self); next := S (S (next self));
             running := {[worker]} ∪ running self; cancelled := cancelled self; pending := pending self; ended := ended self |})
  end.

(** A call of a method of the subscriber object [o]. *)
Definition update_object (self : Streamer) (o : nat) (f : StreamSubscriber -> StreamSubscriber) : Streamer :=
  {| networkStreams := networkStreams self; subscribers := subscribers self; cancellation := cancellation self;
     SelfAddress := SelfAddress self; objs := alter f o (objs self); next := next self;
     running := running self; cancelled := cancelled self; pending := pending self; ended := ended self |}.

Definition with_pending (self : Streamer) (p : list (nat * (bytes * nat))) : Streamer :=
  {| networkStreams := networkStreams self; subscribers := subscribers self; cancellation := cancellation self;
     SelfAddress := SelfAddress self; objs := objs self; next := next self;
     running := running self; cancelled := cancelled self; pending := p; ended := ended self |}.

Definition SubscribeToRTMPStream (self : Streamer) (strmID subID : bytes) (mux : nat) : Streamer :=
  let '(strm, self) := get_stream self strmID RTMP in
  let '(sub, self) := get_subscriber self strmID strm in
  with_pending self (pending self ++ [(sub, (subID, mux))]).

(** The [n]th pending [go sub.SubscribeRTMP(subID, mux)] runs. *)
Definition run_pending (self : Streamer) (n : nat) : Streamer :=
  match pending self !! n with
  | None => self
  | Some (sub, (subID, mux)) =>
    let self := with_pending self (take n (pending self) ++ drop (S n) (pending self)) in
    update_object self sub (fun s => SubscribeRTMP s subID mux)
  end.

(** The flag is the error of the subscription. *)
Definition SubscribeToHLSStream (self : Streamer) (strmID subID : bytes) (mux : nat) : Streamer * bool :=
  let '(strm, self) := get_stream self strmID HLS in
  let '(sub, self) := get_subscriber self strmID strm in
  match objs self !! sub with
  | None => (self, true)
  | Some s => (update_object self sub (fun _ => fst (SubscribeHLS s subID mux)), snd (SubscribeHLS s subID mux))
  end.

Definition EndRTMPStream (self : Streamer) (strmID : bytes) : Streamer :=
  match networkStreams self !! strmID with
  | Some (strm, _) =>
    {| networkStreams := networkStreams self; subscribers := subscribers self; cancellation := cancellation self;
       SelfAddress := SelfAddress self; objs := objs self; next := next self; running := running self; cancelled := cancelled self;
       pending := pending self; ended := {[strm]} ∪ ended self |}
  | None => self
  end.

(** [cancellation[id]()] and [delete(subscribers, id)]; calling a nil function panics. The context is cancelled; the worker looks at it only
    after a segment or packet, and runs until then. *)
Definition drop_subscriber (self : Streamer) (strmID : bytes) : option Streamer :=
  match cancellation self !! strmID with
  | None => None
  | Some w =>
    Some {| networkStreams := networkStreams self; subscribers := delete strmID (subscribers self);
            cancellation := cancellation self; SelfAddress := SelfAddress self; objs := objs self;
            next := next self; running := running self; cancelled := {[w]} ∪ cancelled self; pending := pending self; ended := ended self |}
  end.

Definition UnsubscribeHLS (subID : bytes) (s : StreamSubscriber) : StreamSubscriber :=
  {| ss_stream := ss_stream s; ss_rtmp := ss_rtmp s; ss_hls := delete subID (ss_hls s) |}.
Definition UnsubscribeRTMP (subID : bytes) (s : StreamSubscriber) : StreamSubscriber :=
  {| ss_stream := ss_stream s; ss_rtmp := delete subID (ss_rtmp s); ss_hls := ss_hls s |}.
Definition sub_UnsubscribeAll (s : StreamSubscriber) : StreamSubscriber :=
  {| ss_stream := ss_stream s; ss_rtmp := ∅; ss_hls := ∅ |}.

(** [sub.HasSubscribers()] of an object. *)
Definition object_used (self : Streamer) (o : nat) : bool :=
  match objs self !! o with Some s => sub_HasSubscribers s | None => false end.

Definition UnsubscribeToHLSStream (self : Streamer) (strmID subID : bytes) : option Streamer :=
  match subscribers self !! strmID with
  | None => Some self
  | Some sub =>
    let self := update_object self sub (UnsubscribeHLS subID) in
    if negb (object_used self sub) then
      self ← drop_subscriber self strmID;
      let nID := fst (SplitComponents strmID) in
      Some (if negb (bool_decide (SelfAddress self = nID)) then DeleteNetworkStream self strmID else self)
    else Some self
  end.

Definition UnsubscribeToRTMPStream (self : Streamer) (strmID subID : bytes) : option Streamer :=
  match subscribers self !! strmID with
  | None => Some self
  | Some sub =>
    let self := update_object self sub (UnsubscribeRTMP subID) in
    if negb (object_used self sub) then
      self ← drop_subscriber self strmID;
      Some (DeleteNetworkStream self strmID)
    else Some self
  end.

Definition UnsubscribeAll (self : Streamer) (strmID : bytes) : option Streamer :=
  match subscribers self !! strmID with
  | None => Some self
  | Some sub =>
    let self := update_object self sub sub_UnsubscribeAll in
    self ← drop_subscriber self strmID;
    Some (DeleteNetworkStream self strmID)
  end.

Definition HasSubscribers (self : Streamer) (strmID : bytes) : bool :=
  match subscribers self !! strmID with Some sub => object_used self sub | None => false end.

Definition GetNetworkStream (self : Streamer) (id : StreamID) : option (nat * VideoFormat) :=
  networkStreams self !! id.

Definition GetAllNetworkStreams (self : Streamer) : list (nat * VideoFormat) := (map_to_list (networkStreams self)).*2.

Definition GetHLSMuxer (self : Streamer) (strmID subID : bytes) : option nat :=
  match subscribers self !! strmID with
  | Some sub => s ← objs self !! sub; ss_hls s !! subID
  | None => None
  end.

(** A worker ([StartHLSWorker], [StartRTMPWorker]) returns: at the end of the stream, at an error of a read - of the HLS worker also when
    there was no segment for the time it waits - or when it finds its context cancelled. The entry of the subscriber stays. *)
Definition worker_exit (self : Streamer) (w : nat) : Streamer :=
  {| networkStreams := networkStreams self; subscribers := subscribers self; cancellation := cancellation self;
     SelfAddress := SelfAddress self; objs := objs self; next := next self; running := running self ∖ {[w]};
     cancelled := cancelled self; pending := pending self; ended := ended self |}.

(** ** The operations as steps *)

Inductive streamer_op :=
| OSubRTMP (id sub : bytes) (mux : nat)
| ORun (n : nat)
| OSubHLS (id sub : bytes) (mux : nat)
| OUnsubHLS (id sub : bytes)
| OUnsubRTMP (id sub : bytes)
| OUnsubAll (id : bytes)
| OEnd (id : bytes)
| OAdd (id : bytes) (f : VideoFormat)
| ODelete (id : bytes)
| OExit (w : nat).

Definition streamer_step (s : Streamer) (o : streamer_op) : option Streamer :=
  match o with
  | OSubRTMP id sub mux => Some (SubscribeToRTMPStream s id sub mux)
  | ORun n => Some (run_pending s n)
  | OSubHLS id sub mux => Some (fst (SubscribeToHLSStream s id sub mux))
  | OUnsubHLS id sub => UnsubscribeToHLSStream s id sub
  | OUnsubRTMP id sub => UnsubscribeToRTMPStream s id sub
  | OUnsubAll id => UnsubscribeAll s id
  | OEnd id => Some (EndRTMPStream s id)
  | OAdd id f => Some (fst (AddNewNetworkStream s id f))
  | ODelete id => Some (DeleteNetworkStream s id)
  | OExit w => Some (worker_exit s w)
  end.

Fixpoint streamer_run (s : Streamer) (os : list streamer_op) : option Streamer :=
  match os with
  | [] => Some s
  | o :: os => s ← streamer_step s o; streamer_run s os
  end.

(** ** Invariant: workers and subscriber entries *)

(** [exits] holds the workers that have returned. *)
Record streamer_ok (exits : gset nat) (s : Streamer) : Prop := {
  so_worker : forall id o, subscribers s !! id = Some o ->
    is_Some (objs s !! o) /\ exists w, cancellation s !! id = Some w /\ w ∉ cancelled s /\ w ∈ running s ∪ exits;
  so_only : forall w, w ∈ running s -> w ∈ cancelled s \/ exists id, is_Some (subscribers s !! id) /\ cancellation s !! id = Some w;
  so_distinct : forall id id' w, cancellation s !! id = Some w -> cancellation s !! id' = Some w -> id = id';
  so_fresh : forall w, w ∈ running s \/ w ∈ cancelled s \/ (exists id, cancellation s !! id = Some w) -> (w < next s)%nat
}.

Lemma streamer_new_ok a : streamer_ok ∅ (NewStreamer a).
Proof. split; try done. intros w [Hw|[Hw|[id Hw]]]; set_solver. Qed.

(** Two streamers that differ in streams, muxers, tasks and the next id only. *)
Definition same_workers (s s' : Streamer) : Prop :=
  subscribers s' = subscribers s /\ cancellation s' = cancellation s /\ running s' = running s /\ cancelled s' = cancelled s /\
  (forall o, is_Some (objs s !! o) -> is_Some (objs s' !! o)) /\ (next s <= next s')%nat.

Lemma same_workers_ok X s s' : same_workers s s' -> streamer_ok X s -> streamer_ok X s'.
Proof.
  intros (Es & Ec & Ew & El & Eo & En) [Hw Ho Hd Hf]. split; rewrite ?Es, ?Ec, ?Ew, ?El; try done.
  - intros id o Hid. destruct (Hw id o Hid) as [Hob Hwk]. auto.
  - intros w H. apply Hf in H. lia.
Qed.

Lemma update_object_same s o f : same_workers s (update_object s o f).
Proof.
  split_and!; cbn; try done. intros i Hi. rewrite lookup_alter. case_decide; [|done].
  subst. by apply fmap_is_Some.
Qed.

Lemma get_stream_same s id f : same_workers s (snd (get_stream s id f)).
Proof.
  unfold get_stream. destruct (networkStreams s !! id) as [[strm g]|]; split_and!; cbn; auto; lia.
Qed.

Lemma run_pending_same s n : same_workers s (run_pending s n).
Proof.
  unfold run_pending. destruct (pending s !! n) as [[o [subID mux]]|]; [|split_and!; auto].
  apply (update_object_same (with_pending s _)).
Qed.

(** The subscriber entry of an id exists afterwards, with its worker. *)
Lemma get_subscriber_ok X s id strm :
  streamer_ok X s ->
  streamer_ok X (snd (get_subscriber s id strm)) /\
  subscribers (snd (get_subscriber s id strm)) !! id = Some (fst (get_subscriber s id strm)).
Proof.
  intros Hok. unfold get_subscriber. destruct (subscribers s !! id) as [o|] eqn:Hs; [done|].
  destruct Hok as [Hw Ho Hd Hf]. cbn. rewrite lookup_insert_eq. split; [|done].
  assert (Hnew : forall i w, cancellation s !! i = Some w -> (w < next s)%nat) by eauto.
  assert (Hc : S (next s) ∉ cancelled s). { intros H. assert (S (next s) < next s)%nat by eauto. lia. }
  split; cbn.
  - intros i o. rewrite (lookup_insert (subscribers s)). destruct (decide (id = i)) as [<- |Hne].
    + intros [= <-]. rewrite !lookup_insert_eq. split; [done|]. exists (S (next s)). split_and!; [done..|]. set_solver.
    + intros Hi. destruct (Hw i _ Hi) as (Hob & w & Hcw & Hnc & Hin). rewrite (lookup_insert_ne (cancellation s)) by done. split.
      * rewrite lookup_insert. by case_decide.
      * exists w. split_and!; [done..|]. set_solver.
  - intros w Hin. apply elem_of_union in Hin as [Hin|Hin].
    + apply elem_of_singleton in Hin as ->. right. exists id. by rewrite !lookup_insert_eq.
    + destruct (Ho w Hin) as [|(i & Hi & Hci)]; [by left|]. right. destruct (decide (i = id)) as [-> |Hne].
      * rewrite Hs in Hi. by destruct Hi.
      * exists i. by rewrite !lookup_insert_ne.
  - intros i i' w. rewrite !lookup_insert. repeat case_decide; subst; try done.
    + intros [= <-] Hci. apply Hnew in Hci. lia.
    + intros Hci [= <-]. apply Hnew in Hci. lia.
    + apply Hd.
  - intros w [Hin|[Hin|(i & Hi)]].
    + apply elem_of_union in Hin as [Hin|Hin]; [apply elem_of_singleton in Hin as ->; lia|].
      assert (w < next s)%nat by eauto. lia.
    + assert (w < next s)%nat by eauto. lia.
    + rewrite lookup_insert in Hi. case_decide; [injection Hi as <-; lia|].
      apply Hnew in Hi. lia.
Qed.

(** Removing the subscriber of an id cancels its worker. *)
Lemma drop_subscriber_ok X s id o :
  streamer_ok X s -> subscribers s !! id = Some o ->
  exists s', drop_subscriber s id = Some s' /\ streamer_ok X s' /\
    networkStreams s' = networkStreams s /\ subscribers s' !! id = None.
Proof.
  intros [Hw Ho Hd Hf] Hs. destruct (Hw id o Hs) as (Hob & w & Hc & Hnc & Hin).
  unfold drop_subscriber. rewrite Hc. eexists. split; [done|]. cbn.
  split_and!; [|done|apply lookup_delete_eq]. split; cbn.
  - intros i x. rewrite lookup_delete_Some. intros [Hne Hi]. destruct (Hw i x Hi) as (Hx & w' & Hc' & Hnc' & Hin').
    split; [done|]. exists w'. split_and!; [done| |done]. intros [Hx'%elem_of_singleton|?]%elem_of_union; [|done].
    subst w'. apply Hne. by eapply Hd.
  - intros w' Hin'. destruct (decide (w' = w)) as [-> |Hne]; [left; set_solver|].
    destruct (Ho w' Hin') as [|(i & Hi & Hc')]; [left; set_solver|]. right. exists i. split; [|done].
    rewrite lookup_delete_ne; [done|]. intros <-. congruence.
  - done.
  - intros w' [Hin'|[[->%elem_of_singleton|Hin']%elem_of_union|Hc']]; apply Hf; eauto.
Qed.

Lemma with_streams_same s ns : same_workers s (with_streams s ns).
Proof. split_and!; auto. Qed.

(** The common tail of the operations that remove a subscriber. *)
Lemma drop_update_ok X s id o f :
  streamer_ok X s -> subscribers s !! id = Some o ->
  exists s', drop_subscriber (update_object s o f) id = Some s' /\ streamer_ok X s' /\
    networkStreams s' = networkStreams s /\ subscribers s' !! id = None.
Proof.
  intros Hok Hs. apply (drop_subscriber_ok X (update_object s o f) id o); [|done].
  eapply same_workers_ok; [apply update_object_same|done].
Qed.

Lemma worker_exit_ok X s w : streamer_ok X s -> streamer_ok ({[w]} ∪ X) (worker_exit s w).
Proof.
  intros [Hw Ho Hd Hf]. split; cbn; [| |done|].
  - intros id o Hid. destruct (Hw id o Hid) as (Hob & v & Hc & Hnc & Hin). split; [done|]. exists v. split_and!; [done..|].
    destruct (decide (v = w)); set_solver.
  - intros v Hv. apply Ho. set_solver.
  - intros v [Hv|[Hv|Hv]]; apply Hf; [left; set_solver|eauto..].
Qed.

Definition exit_of (o : streamer_op) : gset nat := match o with OExit w => {[w]} | _ => ∅ end.

Lemma streamer_step_ok X s o :
  streamer_ok X s -> exists s', streamer_step s o = Some s' /\ streamer_ok (exit_of o ∪ X) s'.
Proof.
  intros Hok.
  assert (Hsub : forall id f, streamer_ok X (snd (get_stream s id f))).
  { intros id f. eapply same_workers_ok; [apply get_stream_same|done]. }
  destruct o as [id sub mux|n|id sub mux|id sub|id sub|id|id|id f|id|w]; cbn [streamer_step exit_of];
    try (rewrite (left_id_L ∅ (∪)));
    try (eexists; split; [done|]).
  - unfold SubscribeToRTMPStream. specialize (Hsub id RTMP).
    destruct (get_stream s id RTMP) as [strm s1]. destruct (get_subscriber_ok X s1 id strm Hsub) as [H2 _].
    destruct (get_subscriber s1 id strm) as [o s2]. eapply same_workers_ok; [|exact H2]. split_and!; auto.
  - eapply same_workers_ok; [apply run_pending_same|done].
  - unfold SubscribeToHLSStream. specialize (Hsub id HLS).
    destruct (get_stream s id HLS) as [strm s1]. destruct (get_subscriber_ok X s1 id strm Hsub) as [H2 _].
    destruct (get_subscriber s1 id strm) as [o s2]. cbn [snd] in H2. destruct (objs s2 !! o); [|done].
    eapply same_workers_ok; [apply update_object_same|done].
  - unfold UnsubscribeToHLSStream. destruct (subscribers s !! id) as [o|] eqn:Hs; [|eauto].
    destruct (negb _); [|eexists; split; [done|]; eapply same_workers_ok; [apply update_object_same|done]].
    destruct (drop_update_ok X s id o (UnsubscribeHLS sub) Hok Hs) as (s' & -> & Hs' & _). cbn [mbind option_bind].
    eexists. split; [done|]. destruct (negb _); [|done]. eapply same_workers_ok; [apply with_streams_same|done].
  - unfold UnsubscribeToRTMPStream. destruct (subscribers s !! id) as [o|] eqn:Hs; [|eauto].
    destruct (negb _); [|eexists; split; [done|]; eapply same_workers_ok; [apply update_object_same|done]].
    destruct (drop_update_ok X s id o (UnsubscribeRTMP sub) Hok Hs) as (s' & -> & Hs' & _). cbn [mbind option_bind].
    eexists. split; [done|]. eapply same_workers_ok; [apply with_streams_same|done].
  - unfold UnsubscribeAll. destruct (subscribers s !! id) as [o|] eqn:Hs; [|eauto].
    destruct (drop_update_ok X s id o sub_UnsubscribeAll Hok Hs) as (s' & -> & Hs' & _). cbn [mbind option_bind].
    eexists. split; [done|]. eapply same_workers_ok; [apply with_streams_same|done].
  - unfold EndRTMPStream. destruct (networkStreams s !! id) as [[strm g]|]; [|done].
    eapply same_workers_ok; [|exact Hok]. split_and!; auto.
  - eapply same_workers_ok; [|exact Hok]. split_and!; cbn; auto; lia.
  - eapply same_workers_ok; [apply with_streams_same|done].
  - by apply worker_exit_ok.
Qed.

(** The invariant, whichever workers have returned. *)
Definition streamer_sound (s : Streamer) : Prop := exists X, streamer_ok X s.

Lemma streamer_new_sound a : streamer_sound (NewStreamer a).
Proof. exists ∅. apply streamer_new_ok. Qed.

Lemma streamer_step_sound s o : streamer_sound s -> exists s', streamer_step s o = Some s' /\ streamer_sound s'.
Proof. intros [X Hok]. destruct (streamer_step_ok X s o Hok) as (s' & E & Hok'). exists s'. split; [done|]. by eexists. Qed.

(** The workers that return in a history. *)
Definition exits_of (os : list streamer_op) : gset nat := ⋃ (exit_of <$> os).

Lemma elem_of_exits w os : w ∈ exits_of os <-> OExit w ∈ os.
Proof.
  unfold exits_of. rewrite elem_of_union_list. split.
  - intros (X & (o & -> & Ho)%list_elem_of_fmap & Hw). destruct o; cbn in Hw; set_solver.
  - intros Hw. exists {[w]}. split; [|set_solver]. apply list_elem_of_fmap. by exists (OExit w).
Qed.

Lemma streamer_run_ok X s os :
  streamer_ok X s -> exists s', streamer_run s os = Some s' /\ streamer_ok (exits_of os ∪ X) s'.
Proof.
  revert X s. induction os as [|o os IH]; intros X s Hok; cbn [streamer_run].
  { exists s. split; [done|]. unfold exits_of. cbn. by rewrite (left_id_L ∅ (∪)). }
  destruct (streamer_step_ok X s o Hok) as (s1 & -> & Hok1). destruct (IH _ _ Hok1) as (s' & E & Hok'). exists s'. split; [done|].
  unfold exits_of in *. cbn. by replace (exit_of o ∪ ⋃ (exit_of <$> os) ∪ X) with (⋃ (exit_of <$> os) ∪ (exit_of o ∪ X)) by set_solver.
Qed.

(** C16: Every history of streamer operations, with the pending RTMP subscriptions run and the workers returning at any time, is free of
    panics (no nil cancel function is called). Every subscriber entry has a worker of its own, which was not told to stop and runs unless it
    returned by itself, at the end of its stream or at an error; and a worker that runs has been told to stop or belongs to exactly one entry, whose
    cancel function stops it: none is forgotten. *)
Theorem streamer_workers a os :
  exists s, streamer_run (NewStreamer a) os = Some s /\
    (forall id o, subscribers s !! id = Some o ->
       exists w, cancellation s !! id = Some w /\ w ∉ cancelled s /\ (w ∈ running s \/ OExit w ∈ os) /\
         forall id', cancellation s !! id' = Some w -> id' = id) /\
    (forall w, w ∈ running s ->
       w ∈ cancelled s \/ exists id, is_Some (subscribers s !! id) /\ cancellation s !! id = Some w /\
         forall id', cancellation s !! id' = Some w -> id' = id).
Proof.
  destruct (streamer_run_ok _ _ os (streamer_new_ok a)) as (s & Hs & [Hw Ho Hd Hf]). exists s. split_and!; [done| |].
  - intros id o Hid. apply Hw in Hid as (_ & w & Hc & Hnc & Hr). exists w. split_and!; [done..| |intros id' Hc'; by eapply Hd].
    rewrite (right_id_L ∅ (∪)) in Hr. rewrite <- elem_of_exits. by apply elem_of_union.
  - intros w Hin. destruct (Ho w Hin) as [|(id & Hid & Hc)]; [by left|]. right. exists id. split_and!; try done.
    intros id' Hc'. by eapply Hd.
Qed.

(** A worker that has returned is not started again while the entry of its subscriber stays: whoever subscribes to the stream then
    is added to the entry, and nothing reads the stream for it. *)
Theorem returned_worker_stays s id o w :
  subscribers s !! id = Some o -> cancellation s !! id = Some w -> w ∉ running s ->
  forall sub mux s', s' = fst (SubscribeToHLSStream s id sub mux) \/ s' = SubscribeToRTMPStream s id sub mux ->
    running s' = running s /\ subscribers s' !! id = Some o /\ cancellation s' !! id = Some w.
Proof.
  intros Hs Hc Hr sub mux s' Hs'.
  assert (Hg : forall f, subscribers (snd (get_stream s id f)) !! id = Some o /\ cancellation (snd (get_stream s id f)) !! id = Some w /\
    running (snd (get_stream s id f)) = running s).
  { intros f. destruct (get_stream_same s id f) as (-> & -> & -> & _). done. }
  destruct Hs' as [-> | ->].
  - unfold SubscribeToHLSStream. destruct (Hg HLS) as (H1 & H2 & H3). destruct (get_stream s id HLS) as [strm s1]. cbn [snd] in *.
    unfold get_subscriber. rewrite H1. destruct (objs s1 !! o); cbn; by rewrite ?H1, ?H2, ?H3.
  - unfold SubscribeToRTMPStream. destruct (Hg RTMP) as (H1 & H2 & H3). destruct (get_stream s id RTMP) as [strm s1]. cbn [snd] in *.
    unfold get_subscriber. rewrite H1. cbn. by rewrite ?H1, ?H2, ?H3.
Qed.

(** ** Leaving a stream *)

(** When the last subscriber leaves a stream of this very node, the HLS
    operation keeps the stream of the node and the RTMP operation deletes it. *)
Theorem Unsubscribe_origin X s strm sub o st :
  streamer_ok X s -> subscribers s !! strm = Some o -> objs s !! o = Some st ->
  SelfAddress s = fst (SplitComponents strm) ->
  (ss_rtmp st = ∅ /\ delete sub (ss_hls st) = ∅ ->
   exists s', UnsubscribeToHLSStream s strm sub = Some s' /\ subscribers s' !! strm = None /\
     GetNetworkStream s' strm = GetNetworkStream s strm) /\
  (delete sub (ss_rtmp st) = ∅ /\ ss_hls st = ∅ ->
   exists s', UnsubscribeToRTMPStream s strm sub = Some s' /\ subscribers s' !! strm = None /\
     GetNetworkStream s' strm = None).
Proof.
  intros Hok Hs Ho Ha. unfold UnsubscribeToHLSStream, UnsubscribeToRTMPStream. rewrite Hs.
  unfold object_used. cbn [update_object objs]. rewrite !lookup_alter_eq, Ho. cbn [fmap option_fmap option_map].
  unfold sub_HasSubscribers. cbn. split; intros [E1 E2]; rewrite E1, E2.
  - destruct (drop_update_ok X s strm o (UnsubscribeHLS sub) Hok Hs) as (s' & Hd & Hs' & Hn & Hl).
    rewrite Hd. cbn [mbind option_bind]. exists s'.
    assert (SelfAddress s' = SelfAddress s) as ->.
    { unfold drop_subscriber in Hd. cbn in Hd. destruct (cancellation s !! strm); by simplify_eq. }
    rewrite bool_decide_true by done. cbn. unfold GetNetworkStream. by rewrite Hn.
  - destruct (drop_update_ok X s strm o (UnsubscribeRTMP sub) Hok Hs) as (s' & Hd & Hs' & Hn & Hl).
    rewrite Hd. cbn [mbind option_bind]. eexists. split_and!; [done|done|].
    unfold GetNetworkStream. cbn. apply lookup_delete_eq.
Qed.

(** ** Identifiers *)

Lemma hex_digit_range d : 0 <= d < 16 -> hex_digit d <> 120 /\ hex_digit d <> 88.
Proof. unfold hex_digit. intros. destruct (Z.ltb_spec d 10); lia. Qed.

Lemma FromHex_encode l : Forall is_byte l -> FromHex (hex_encode l) = l.
Proof.
  intros HF. destruct l as [|b l]; [done|]. unfold FromHex.
  assert (Hlen : #(hex_encode (b :: l)) = 2 * #(b :: l)) by (unfold zlen; rewrite length_hex_encode; lia).
  rewrite Hlen. destruct (Z.ltb_spec 1 (2 * #(b :: l))) as [_|Hge]; [|zlia].
  assert (Hb : is_byte b) by by inversion HF. destruct (hex_digit_range (b mod 16)) as [Hx HX].
  { apply Z.mod_pos_bound. lia. }
  rewrite !bool_decide_false by (cbn; intros [= _ H]; by rewrite H in *). cbn [orb].
  rewrite Hlen, Z.odd_mul. cbn [Z.odd andb]. unfold Hex2Bytes. by rewrite hex_decode_encode.
Qed.

(** A stream identifier made of a node address and a 64 character id splits into
    exactly these two; with an id of any other length the components are lost. *)
Theorem MakeStreamID_split node id :
  Forall is_byte node -> length node = 32%nat ->
  SplitComponents (MakeStreamID node id) =
    if decide (length id = 64%nat) then (node, id) else (make_bytes 32, []).
Proof.
  intros HF Hlen. unfold SplitComponents, MakeStreamID.
  assert (Hhex : length (hex_encode node) = 64%nat) by (rewrite length_hex_encode; lia).
  rewrite zlen_app. case_decide as Hid.
  - replace (#(hex_encode node) + #id) with 128 by zlia. cbn [Z.eqb negb Pos.eqb].
    rewrite <- Hhex, take_app_length, drop_app_length. f_equal. unfold HexToHash.
    rewrite FromHex_encode by done. unfold BytesToHash.
    destruct (Z.ltb_spec 32 (#node)); [zlia|]. by rewrite Hlen.
  - destruct (Z.eqb_spec (#(hex_encode node) + #id) 128); [zlia|done].
Qed.

(** ** Witnesses *)

Definition node0 : Hash32 := replicate 32 171.
Definition strm0 : StreamID := MakeStreamID node0 (replicate 64 49).

Lemma MakeStreamID_split_witness :
  SplitComponents (MakeStreamID node0 (replicate 64 49)) = (node0, replicate 64 49).
Proof.
  rewrite (MakeStreamID_split node0 (replicate 64 49)); [by rewrite decide_True| |done].
  apply Forall_replicate. done.
Defined.

(** A node that plays one of its own streams. *)
Definition playing : Streamer :=
  let s := fst (AddNewNetworkStream (NewStreamer node0) strm0 RTMP) in
  run_pending (SubscribeToRTMPStream s strm0 (str "a") 7) 0.

Lemma playing_ok : streamer_ok ∅ playing.
Proof.
  destruct (streamer_run_ok ∅ (NewStreamer node0) [OAdd strm0 RTMP; OSubRTMP strm0 (str "a") 7; ORun 0]) as (s & Hs & Hok).
  - apply streamer_new_ok.
  - assert (s = playing) as ->; [|done].
    assert (Hp : streamer_run (NewStreamer node0) [OAdd strm0 RTMP; OSubRTMP strm0 (str "a") 7; ORun 0] = Some playing)
      by reflexivity.
    congruence.
Qed.

Lemma Unsubscribe_origin_witness :
  GetNetworkStream playing strm0 = Some (0%nat, RTMP) /\
  exists s', UnsubscribeToRTMPStream playing strm0 (str "a") = Some s' /\ subscribers s' !! strm0 = None /\
     GetNetworkStream s' strm0 = None.
Proof.
  split; [vm_compute; reflexivity|].
  apply (Unsubscribe_origin ∅ playing strm0 (str "a") 1%nat
    {| ss_stream := 0; ss_rtmp := {[str "a" := 7%nat]}; ss_hls := ∅ |}).
  - exact playing_ok.
  - vm_compute. reflexivity.
  - vm_compute. reflexivity.
  - vm_compute. reflexivity.
  - split; vm_compute; reflexivity.
Defined.

(** The worker of the node's own stream comes to an end, and another muxer joins. *)
Lemma returned_worker_stays_witness :
  let s := worker_exit playing 2 in
  running (SubscribeToRTMPStream s strm0 (str "b") 8) = running s /\
  subscribers (SubscribeToRTMPStream s strm0 (str "b") 8) !! strm0 = Some 1%nat /\
  cancellation (SubscribeToRTMPStream s strm0 (str "b") 8) !! strm0 = Some 2%nat.
Proof.
  apply (returned_worker_stays (worker_exit playing 2) strm0 1 2) with (sub := str "b") (mux := 8%nat); [by vm_compute..|vm_compute; set_solver|by right].
Defined.
