(* ===== verification/MediaServer.v ===== *)
(** The media server ([mediaserver/mediaserver.go]): the handlers of the HLS and RTMP endpoints on the stream broker of the node,
    and the worker that drops HLS streams nobody asks for any more.

    The calls of the forwarder and of the visualisation client are recorded in the order they are made. Muxers are objects with
    identifiers; the playlists that a buffer has ready are the results of the polls of a request, with the clock readings around
    them. The sweep of the worker visits the entries of its map in an arbitrary order. *)
From stdpp Require Import base gmap list strings.
From Stdlib Require Import ZArith Lia.
From S2P Require Import Prelude Types Manifest ManifestProps Streamer.

(** ** Request paths *)

Definition stream_dir : bytes := str "/stream/".

(** What is behind the first occurrence of [/stream/]. *)
Fixpoint behind_dir (s : bytes) : option bytes :=
  match s with
  | [] => None
  | _ :: s' => if is_prefix stream_dir s then Some (drop (length stream_dir) s) else behind_dir s'
  end.

(** [[[:alpha:]]|\d]. *)
Definition alnum (c : Z) : bool :=
  ((65 <=? c) && (c <=? 90)) || ((97 <=? c) && (c <=? 122)) || ((48 <=? c) && (c <=? 57)).

Fixpoint alnum_run (s : bytes) : bytes :=
  match s with c :: s' => if alnum c then c :: alnum_run s' else [] | [] => [] end.

(** [strings.Replace(s, pat, "", -1)], with the bytes of an occurrence still to be skipped. *)
Fixpoint remove_all (pat : bytes) (skip : nat) (s : bytes) : bytes :=
  match s with
  | [] => []
  | c :: s' =>
    match skip with
    | S k => remove_all pat k s'
    | O => if is_prefix pat s then remove_all pat (length pat - 1) s' else c :: remove_all pat 0 s'
    end
  end.

Definition parseStreamID (reqPath : bytes) : bytes :=
  let match_ := match behind_dir reqPath with Some rest => stream_dir ++ alnum_run rest | None => [] end in
  if bool_decide (match_ = []) then [] else remove_all stream_dir 0 match_.

(** The longest match of [.*\.ts]; the dot does not match a new line. *)
Fixpoint upto_ts (s : bytes) : option bytes :=
  match s with
  | [] => None
  | c :: s' =>
    if c =? 10 then None
    else match upto_ts s' with
         | Some p => Some (c :: p)
         | None => if is_prefix (str ".ts") s then Some (str ".ts") else None
         end
  end.

Fixpoint seg_match (s : bytes) : bytes :=
  match s with
  | [] => []
  | _ :: s' =>
    match (if is_prefix stream_dir s then upto_ts (drop (length stream_dir) s) else None) with
    | Some p => stream_dir ++ p
    | None => seg_match s'
    end
  end.

Definition parseSegName (reqPath : bytes) : bytes :=
  let match_ := seg_match reqPath in
  if bool_decide (match_ = []) then [] else remove_all stream_dir 0 match_.

(** ** The server *)

Inductive forward := FwdStream (id : bytes) (f : VideoFormat) | FwdStop (id : bytes) (f : VideoFormat).

Inductive mediaerr := StreamNotFound | ErrNotFound | ErrStreamPublish | ErrHLSPlay | ErrSubscribe.

Record LPMS := mkLPMS {
  ms_streamer : Streamer;
  hlsSubTimer : gmap bytes Z;         (* nanoseconds *)
  ms_muxers : nat;                    (* next muxer object *)
  ms_forwarded : list forward;        (* calls of the forwarder *)
  ms_viz : list bytes                 (* streams reported to the visualisation *)
}.

Definition second : Z := 1000000000.
Definition HLSWaitTime : Z := 10 * second.
Definition HLSUnsubscribeWaitLimit : Z := 20 * second.
Definition local : bytes := str "local".
Arguments local : simpl never.

Definition StartLPMS (streamer : Streamer) : LPMS :=
  {| ms_streamer := streamer; hlsSubTimer := ∅; ms_muxers := 0; ms_forwarded := []; ms_viz := [] |}.

Definition with_streamer (m : LPMS) (s : Streamer) : LPMS :=
  {| ms_streamer := s; hlsSubTimer := hlsSubTimer m; ms_muxers := ms_muxers m; ms_forwarded := ms_forwarded m; ms_viz := ms_viz m |}.

Definition with_timer (m : LPMS) (t : gmap bytes Z) : LPMS :=
  {| ms_streamer := ms_streamer m; hlsSubTimer := t; ms_muxers := ms_muxers m; ms_forwarded := ms_forwarded m; ms_viz := ms_viz m |}.

Definition forwarder (m : LPMS) (f : forward) : LPMS :=
  {| ms_streamer := ms_streamer m; hlsSubTimer := hlsSubTimer m; ms_muxers := ms_muxers m; ms_forwarded := ms_forwarded m ++ [f]; ms_viz := ms_viz m |}.

Definition viz_log (m : LPMS) (ids : list bytes) : LPMS :=
  {| ms_streamer := ms_streamer m; hlsSubTimer := hlsSubTimer m; ms_muxers := ms_muxers m; ms_forwarded := ms_forwarded m; ms_viz := ms_viz m ++ ids |}.

(** A new buffer or queue. *)
Definition new_muxer (m : LPMS) : nat * LPMS :=
  (ms_muxers m, {| ms_streamer := ms_streamer m; hlsSubTimer := hlsSubTimer m; ms_muxers := S (ms_muxers m); ms_forwarded := ms_forwarded m; ms_viz := ms_viz m |}).

(** *** The unsubscribe worker *)

(** One entry of the map in a round of the worker; a panic of the streamer is [None]. *)
Definition sweep_entry (now limit : Z) (m : LPMS) (e : bytes * Z) : option LPMS :=
  let '(sid, t) := e in
  if limit <? now - t then
    s ← UnsubscribeToHLSStream (ms_streamer m) sid local;
    let m := forwarder (with_streamer m s) (FwdStop sid HLS) in
    Some (with_timer m (delete sid (hlsSubTimer m)))
  else Some m.

Fixpoint sweep_entries (now limit : Z) (m : LPMS) (es : list (bytes * Z)) : option LPMS :=
  match es with
  | [] => Some m
  | e :: es => m ← sweep_entry now limit m e; sweep_entries now limit m es
  end.

(** *** HLS *)

(** [getMediaPlaylist] up to its loop: the stream and the buffer to wait for. *)
Definition playlist_subscribe (m : LPMS) (path : bytes) : LPMS * (mediaerr + bytes * nat) :=
  let strmID := parseStreamID path in
  let '(nodeID, streamID) := SplitComponents strmID in
  if bool_decide (strmID = []) || bool_decide (streamID = []) then (m, inl StreamNotFound)
  else
    let found := match GetNetworkStream (ms_streamer m) strmID with
                 | Some _ => Some m
                 | None => if negb (bool_decide (SelfAddress (ms_streamer m) = nodeID)) then Some (forwarder m (FwdStream strmID HLS)) else None
                 end in
    match found with
    | None => (m, inl ErrNotFound)
    | Some m =>
      match GetHLSMuxer (ms_streamer m) strmID local with
      | Some hlsBuffer => (m, inr (strmID, hlsBuffer))
      | None =>
        let '(hlsBuffer, m) := new_muxer m in
        let '(s, err) := SubscribeToHLSStream (ms_streamer m) strmID local hlsBuffer in
        (with_streamer m s, if err : bool then inl ErrSubscribe else inr (strmID, hlsBuffer))
      end
    end.

(** A round of the loop: whether the first [LatestPlaylist] succeeds, what the second returns, and the clock when the timer is set and when the
    waiting time is checked. *)
Record poll_round (PL : Type) := mkRound { pr_ready : bool; pr_playlist : option PL; pr_now : Z; pr_check : Z }.
Arguments pr_ready {PL}. Arguments pr_playlist {PL}. Arguments pr_now {PL}. Arguments pr_check {PL}.

(** The loop of [getMediaPlaylist]; without a further round the request still waits ([None]). The result of a served request
    is that of the second call. *)
Fixpoint playlist_wait {PL} (m : LPMS) (strmID : bytes) (startTime : Z) (rounds : list (poll_round PL)) : option (LPMS * (mediaerr + option PL)) :=
  match rounds with
  | [] => None
  | r :: rounds =>
    if pr_ready r then Some (with_timer m (<[strmID := pr_now r]> (hlsSubTimer m)), inr (pr_playlist r))
    else if HLSWaitTime <? pr_check r - startTime then Some (m, inl ErrNotFound)
    else playlist_wait m strmID startTime rounds
  end.

(** [getSegment]: the buffer and the name of the segment it waits for. *)
Definition getSegment (m : LPMS) (path : bytes) : mediaerr + nat * bytes :=
  match GetHLSMuxer (ms_streamer m) (parseStreamID path) local with
  | None => inl ErrNotFound
  | Some buf => inr (buf, parseSegName path)
  end.

(** *** RTMP *)

(** [fmt.Sprintf("%x", streaming.RandomStreamID())] of 32 random bytes. *)
Definition random_id (m : LPMS) (rand : bytes) : bytes := MakeStreamID (SelfAddress (ms_streamer m)) (hex_encode rand).

Definition makeStreamID (m : LPMS) (path rand : bytes) : bytes :=
  let rtmpStrmID := parseStreamID path in
  if bool_decide (rtmpStrmID = []) then random_id m rand else rtmpStrmID.

Definition gotStream (m : LPMS) (rtmpStrmID hlsQuery rand : bytes) : LPMS * option mediaerr :=
  let self := SelfAddress (ms_streamer m) in
  if negb (bool_decide (fst (SplitComponents rtmpStrmID) = self)) then (m, Some ErrStreamPublish)
  else
    let m := match GetNetworkStream (ms_streamer m) rtmpStrmID with
             | Some _ => m
             | None => with_streamer m (fst (AddNewNetworkStream (ms_streamer m) rtmpStrmID RTMP))
             end in
    let hlsStrmID := if bool_decide (hlsQuery = []) then random_id m rand else hlsQuery in
    if negb (bool_decide (fst (SplitComponents hlsStrmID) = self)) then (m, Some ErrStreamPublish)
    else
      let m := with_streamer m (fst (AddNewNetworkStream (ms_streamer m) hlsStrmID HLS)) in
      (viz_log m [rtmpStrmID; hlsStrmID], None).

Definition endStream (m : LPMS) (rtmpStrmID : bytes) : option LPMS :=
  s ← UnsubscribeAll (DeleteNetworkStream (ms_streamer m) rtmpStrmID) rtmpStrmID;
  Some (with_streamer m s).

(** [getStream] of the RTMP player: the stream that was found before the subscription, none for a remote one. *)
Definition getStream (m : LPMS) (path subID : bytes) : LPMS * (mediaerr + option (nat * VideoFormat)) :=
  let strmID := parseStreamID path in
  if bool_decide (strmID = []) then (m, inl StreamNotFound)
  else
    let m := viz_log m [strmID] in
    let strm := GetNetworkStream (ms_streamer m) strmID in
    let m := match strm with Some _ => m | None => forwarder m (FwdStream strmID RTMP) end in
    let '(q, m) := new_muxer m in
    (with_streamer m (SubscribeToRTMPStream (ms_streamer m) strmID subID q), inr strm).

(** *** Pages *)

Definition createStream (m : LPMS) (rand : bytes) : LPMS * bytes :=
  let strmID := random_id m rand in
  (with_streamer m (fst (AddNewNetworkStream (ms_streamer m) strmID RTMP)), strmID).

(** [/localStreams]: format, id and source, where [None] is the node itself. *)
Definition localStreams (m : LPMS) : list (VideoFormat * bytes * option bytes) :=
  (fun e : bytes * (nat * VideoFormat) =>
     let nodeID := fst (SplitComponents (fst e)) in
     (snd (snd e), fst e, if bool_decide (nodeID = SelfAddress (ms_streamer m)) then None else Some nodeID))
  <$> map_to_list (networkStreams (ms_streamer m)).

(** ** Histories *)

(** What happens at the server: the handlers, the end of a wait that served a playlist, a round of the worker with the order in which it
    visits the map, and the operations that other parts of the node call on the broker. *)
Inductive media_op :=
| MPlaylist (path : bytes)
| MServed (strmID : bytes) (now : Z)
| MSweep (now : Z) (order : list (bytes * Z) -> list (bytes * Z))
| MGot (rtmpStrmID hlsQuery rand : bytes)
| MEnd (rtmpStrmID : bytes)
| MPlay (path subID : bytes)
| MCreate (rand : bytes)
| MBroker (o : streamer_op).

Definition media_step (m : LPMS) (o : media_op) : option LPMS :=
  match o with
  | MPlaylist path => Some (fst (playlist_subscribe m path))
  | MServed strmID now => Some (with_timer m (<[strmID := now]> (hlsSubTimer m)))
  | MSweep now order => sweep_entries now HLSUnsubscribeWaitLimit m (order (map_to_list (hlsSubTimer m)))
  | MGot rtmp hls rand => Some (fst (gotStream m rtmp hls rand))
  | MEnd id => endStream m id
  | MPlay path subID => Some (fst (getStream m path subID))
  | MCreate rand => Some (fst (createStream m rand))
  | MBroker o => s ← streamer_step (ms_streamer m) o; Some (with_streamer m s)
  end.

Fixpoint media_run (m : LPMS) (os : list media_op) : option LPMS :=
  match os with
  | [] => Some m
  | o :: os => m ← media_step m o; media_run m os
  end.

(** The operations on the broker that an event stands for. *)
Inductive broker_steps : Streamer -> list streamer_op -> Streamer -> Prop :=
| bs_nil s : broker_steps s [] s
| bs_cons s o s1 os s2 : streamer_step s o = Some s1 -> broker_steps s1 os s2 -> broker_steps s (o :: os) s2.

Lemma broker_app s os s1 os' s2 : broker_steps s os s1 -> broker_steps s1 os' s2 -> broker_steps s (os ++ os') s2.
Proof. induction 1; cbn; [done|]. intros. econstructor; eauto. Qed.

Lemma broker_one s o s' : streamer_step s o = Some s' -> broker_steps s [o] s'.
Proof. intros E. econstructor; [exact E|constructor]. Qed.

(** The streams whose subscription of the server an operation ends. *)
Definition op_ends (id : bytes) (o : streamer_op) : bool :=
  match o with
  | OUnsubHLS id' sub => bool_decide (id' = id) && bool_decide (sub = local)
  | OUnsubAll id' => bool_decide (id' = id)
  | _ => false
  end.

(** ** Subscriptions that stay *)

(** Every subscriber object belongs to one stream. *)
Record owned (s : Streamer) : Prop := {
  ow_inj : forall id id' o, subscribers s !! id = Some o -> subscribers s !! id' = Some o -> id = id';
  ow_next : forall id o, subscribers s !! id = Some o -> (o < next s)%nat
}.

Lemma owned_new a : owned (NewStreamer a).
Proof. by split. Qed.

(** The subscription [mux] of the server to the stream [id]. *)
Record kept_sub (id : bytes) (mux : nat) (s : Streamer) : Prop := {
  ks_owned : owned s;
  ks_mux : exists o so, subscribers s !! id = Some o /\ objs s !! o = Some so /\ ss_hls so !! local = Some mux
}.

Lemma kept_GetHLSMuxer id mux s : kept_sub id mux s -> GetHLSMuxer s id local = Some mux.
Proof. intros [_ (o & so & H1 & H2 & H3)]. unfold GetHLSMuxer. by rewrite H1, H2. Qed.

Lemma owned_same s s' : subscribers s' = subscribers s -> (next s <= next s')%nat -> owned s -> owned s'.
Proof. intros Es En [Hi Hn]. split; rewrite Es; [done|]. intros id o Ho. apply Hn in Ho. lia. Qed.

Lemma owned_delete s s' id : subscribers s' = delete id (subscribers s) -> next s' = next s -> owned s -> owned s'.
Proof.
  intros Es En [Hi Hn]. split; rewrite Es.
  - intros i i' o [_ H]%lookup_delete_Some [_ H']%lookup_delete_Some. eauto.
  - intros i o [_ H]%lookup_delete_Some. rewrite En. eauto.
Qed.

(** A call on an object leaves the muxer of the server in it if the call does. *)
Lemma kept_update id mux s o f :
  kept_sub id mux s -> (forall so, subscribers s !! id = Some o -> ss_hls so !! local = Some mux -> ss_hls (f so) !! local = Some mux) -> kept_sub id mux (update_object s o f).
Proof.
  intros [Hw (o' & so & H1 & H2 & H3)] Hf. split; [by apply (owned_same s)|]. cbn [subscribers objs update_object].
  exists o'. rewrite lookup_alter. destruct (decide (o = o')) as [-> |Hne].
  - exists (f so). rewrite H2. cbn. split_and!; [done|done|]. by apply Hf.
  - exists so. done.
Qed.

Lemma kept_get_stream id mux s id' f : kept_sub id mux s -> kept_sub id mux (snd (get_stream s id' f)).
Proof.
  unfold get_stream. destruct (networkStreams s !! id') as [[? ?]|]; [done|]. intros [Hw Hm]. split; [|done]. apply (owned_same s); [done|cbn; lia|done].
Qed.

Lemma kept_get_subscriber id mux s id' strm :
  kept_sub id mux s -> kept_sub id mux (snd (get_subscriber s id' strm)) /\
  subscribers (snd (get_subscriber s id' strm)) !! id' = Some (fst (get_subscriber s id' strm)).
Proof.
  intros Hk. unfold get_subscriber. destruct (subscribers s !! id') as [o|] eqn:Hs; [done|]. cbn [fst snd]. split; [|apply lookup_insert_eq].
  destruct Hk as [[Hi Hn] (o & so & H1 & H2 & H3)]. split; [split; cbn|].
  - intros i i' x. rewrite !lookup_insert_Some. intros [[<- <-]|[? H]] [[<- E]|[? H']]; try done; [apply Hn in H'; lia|apply Hn in H; lia|eauto].
  - intros i x. rewrite lookup_insert_Some. intros [[<- <-]|[_ H%Hn]]; lia.
  - exists o, so. cbn. assert (id' <> id) by congruence. pose proof (Hn _ _ H1). rewrite !lookup_insert_ne by (done || lia). done.
Qed.

(** Leaving a stream by another way than that of the server keeps its object. *)
Lemma kept_used id mux s : kept_sub id mux s -> forall o, subscribers s !! id = Some o -> object_used s o = true.
Proof.
  intros [_ (o' & so & H1 & H2 & H3)] o Ho. assert (o' = o) as -> by congruence. unfold object_used. rewrite H2. unfold sub_HasSubscribers. apply Nat.ltb_lt.
  assert (size (ss_hls so) <> 0%nat); [|lia]. intros E. apply map_size_empty_inv in E. by rewrite E in H3.
Qed.

Lemma kept_drop id mux s id' s' : kept_sub id mux s -> id' <> id -> drop_subscriber s id' = Some s' -> kept_sub id mux s'.
Proof.
  intros [Hw (o & so & H1 & H2 & H3)] Hne. unfold drop_subscriber. destruct (cancellation s !! id'); [|done]. intros [= <-].
  split; [by eapply (owned_delete s)|]. exists o, so. cbn. by rewrite lookup_delete_ne.
Qed.

Lemma kept_streams id mux s ns : kept_sub id mux s -> kept_sub id mux (with_streams s ns).
Proof. intros [Hw Hm]. split; [by apply (owned_same s)|done]. Qed.

Lemma kept_step id mux s o s' : kept_sub id mux s -> op_ends id o = false -> streamer_step s o = Some s' -> kept_sub id mux s'.
Proof.
  intros Hk He. destruct o as [i sub mx|n|i sub mx|i sub|i sub|i|i|i f|i|wk]; cbn [streamer_step op_ends] in *.
  - intros [= <-]. unfold SubscribeToRTMPStream. pose proof (kept_get_stream id mux s i RTMP Hk) as H1. destruct (get_stream s i RTMP) as [strm s1]. cbn in H1.
    destruct (kept_get_subscriber id mux s1 i strm H1) as [H2 _]. destruct (get_subscriber s1 i strm) as [o s2]. cbn in H2. destruct H2 as [Hw Hm].
    split; [by apply (owned_same s2)|done].
  - intros [= <-]. unfold run_pending. destruct (pending s !! n) as [[o [subID mx]]|]; [|done]. apply kept_update.
    + destruct Hk as [Hw Hm]. split; [by apply (owned_same s)|done].
    + intros so _ Hso. unfold SubscribeRTMP. by case_bool_decide.
  - intros [= <-]. unfold SubscribeToHLSStream. pose proof (kept_get_stream id mux s i HLS Hk) as H1. destruct (get_stream s i HLS) as [strm s1]. cbn in H1.
    destruct (kept_get_subscriber id mux s1 i strm H1) as [H2 Hi]. destruct (get_subscriber s1 i strm) as [o s2]. cbn in H2, Hi.
    destruct (objs s2 !! o) as [so|] eqn:Eo; [|done]. cbn [fst].
    assert (Hf : forall x, subscribers s2 !! id = Some o -> ss_hls x !! local = Some mux -> ss_hls (fst (SubscribeHLS so sub mx)) !! local = Some mux).
    { intros x Hid _. destruct H2 as [_ (o' & so' & E1 & E2 & E3)]. assert (o' = o) as -> by congruence. assert (so' = so) as -> by congruence.
      unfold SubscribeHLS. case_bool_decide; cbn [negb]; [|done]. destruct (ss_hls so !! sub) eqn:Es; [done|]. cbn. rewrite lookup_insert_ne; [done|]. intros ->. congruence. }
    by apply kept_update.
  - unfold UnsubscribeToHLSStream. destruct (subscribers s !! i) as [o|] eqn:Ei; [|intros [= <-]; done].
    assert (Hu : kept_sub id mux (update_object s o (UnsubscribeHLS sub))).
    { apply kept_update; [done|]. intros so Hid Hso. assert (i = id) as -> by (destruct Hk as [[Hinj _] _]; eauto). cbn. rewrite lookup_delete_ne; [done|].
      intros ->. by rewrite !bool_decide_eq_true_2 in He. }
    destruct (decide (i = id)) as [-> |Hne]; [rewrite (kept_used _ _ _ Hu) by done; intros [= <-]; done|].
    destruct (object_used _ _); cbn [negb]; [intros [= <-]; done|]. destruct (drop_subscriber _ i) as [s1|] eqn:Ed; [|done]. intros [= <-].
    pose proof (kept_drop _ _ _ _ _ Hu Hne Ed) as Hk1. destruct (negb _); [by apply kept_streams|done].
  - unfold UnsubscribeToRTMPStream. destruct (subscribers s !! i) as [o|] eqn:Ei; [|intros [= <-]; done].
    assert (Hu : kept_sub id mux (update_object s o (UnsubscribeRTMP sub))) by (by apply kept_update).
    destruct (decide (i = id)) as [-> |Hne]; [rewrite (kept_used _ _ _ Hu) by done; intros [= <-]; done|].
    destruct (object_used _ _); cbn [negb]; [intros [= <-]; done|]. destruct (drop_subscriber _ i) as [s1|] eqn:Ed; [|done]. intros [= <-].
    apply kept_streams. by eapply kept_drop.
  - apply bool_decide_eq_false in He. unfold UnsubscribeAll. destruct (subscribers s !! i) as [o|] eqn:Ei; [|intros [= <-]; done].
    assert (Hu : kept_sub id mux (update_object s o sub_UnsubscribeAll)).
    { apply kept_update; [done|]. intros so Hid. destruct Hk as [[Hinj _] _]. destruct He. eauto. }
    destruct (drop_subscriber _ i) as [s1|] eqn:Ed; [|done]. intros [= <-]. apply kept_streams. by eapply kept_drop.
  - intros [= <-]. unfold EndRTMPStream. destruct (networkStreams s !! i) as [[? ?]|]; [|done]. destruct Hk as [Hw Hm]. split; [by apply (owned_same s)|done].
  - intros [= <-]. destruct Hk as [Hw Hm]. split; [apply (owned_same s); [done|cbn; lia|done]|done].
  - intros [= <-]. by apply kept_streams.
  - intros [= <-]. destruct Hk as [Hw Hm]. split; [by apply (owned_same s)|done].
Qed.

Lemma kept_steps id mux s os s' : broker_steps s os s' -> kept_sub id mux s -> Forall (fun o => op_ends id o = false) os -> kept_sub id mux s'.
Proof. induction 1 as [|s o s1 os s2 E _ IH]; [done|]. intros Hk HF. inversion_clear HF. apply IH; [|done]. by eapply kept_step. Qed.

(** ** The broker below the handlers *)

Lemma owned_get_stream s i f : owned s -> owned (snd (get_stream s i f)).
Proof. intros Hw. unfold get_stream. destruct (networkStreams s !! i) as [[? ?]|]; [done|]. apply (owned_same s); [done|cbn; lia|done]. Qed.

Lemma owned_get_subscriber s i strm : owned s -> owned (snd (get_subscriber s i strm)).
Proof.
  intros [Hi Hn]. unfold get_subscriber. destruct (subscribers s !! i) as [o|] eqn:Hs; [done|]. split; cbn.
  - intros a b x. rewrite !lookup_insert_Some. intros [[<- <-]|[? H]] [[<- E]|[? H']]; try done; [apply Hn in H'; lia|apply Hn in H; lia|eauto].
  - intros a x. rewrite lookup_insert_Some. intros [[<- <-]|[_ H%Hn]]; lia.
Qed.

Lemma owned_drop s o f i s' : owned s -> drop_subscriber (update_object s o f) i = Some s' -> owned s'.
Proof. intros Hw. unfold drop_subscriber. cbn. destruct (cancellation s !! i); [|done]. intros [= <-]. by eapply (owned_delete s). Qed.

Lemma owned_step s o s' : streamer_step s o = Some s' -> owned s -> owned s'.
Proof.
  intros E Hw. destruct o as [i sub mx|n|i sub mx|i sub|i sub|i|i|i f|i|wk]; cbn [streamer_step] in E.
  - injection E as <-. unfold SubscribeToRTMPStream. pose proof (owned_get_stream s i RTMP Hw) as H1. destruct (get_stream s i RTMP) as [strm s1].
    pose proof (owned_get_subscriber s1 i strm H1) as H2. destruct (get_subscriber s1 i strm) as [o s2]. by apply (owned_same s2).
  - injection E as <-. unfold run_pending. destruct (pending s !! n) as [[o [subID mx]]|]; [|done]. by apply (owned_same s).
  - injection E as <-. unfold SubscribeToHLSStream. pose proof (owned_get_stream s i HLS Hw) as H1. destruct (get_stream s i HLS) as [strm s1].
    pose proof (owned_get_subscriber s1 i strm H1) as H2. destruct (get_subscriber s1 i strm) as [o s2]. destruct (objs s2 !! o); [|done]. by apply (owned_same s2).
  - unfold UnsubscribeToHLSStream in E. destruct (subscribers s !! i) as [o|]; [|by injection E as <-]. destruct (object_used _ _); cbn [negb] in E; [injection E as <-; by apply (owned_same s)|].
    destruct (drop_subscriber _ i) as [s1|] eqn:Ed; [|done]. injection E as <-. pose proof (owned_drop _ _ _ _ _ Hw Ed). destruct (negb _); [by apply (owned_same s1)|done].
  - unfold UnsubscribeToRTMPStream in E. destruct (subscribers s !! i) as [o|]; [|by injection E as <-]. destruct (object_used _ _); cbn [negb] in E; [injection E as <-; by apply (owned_same s)|].
    destruct (drop_subscriber _ i) as [s1|] eqn:Ed; [|done]. injection E as <-. pose proof (owned_drop _ _ _ _ _ Hw Ed). by apply (owned_same s1).
  - unfold UnsubscribeAll in E. destruct (subscribers s !! i) as [o|]; [|by injection E as <-].
    destruct (drop_subscriber _ i) as [s1|] eqn:Ed; [|done]. injection E as <-. pose proof (owned_drop _ _ _ _ _ Hw Ed). by apply (owned_same s1).
  - injection E as <-. unfold EndRTMPStream. destruct (networkStreams s !! i) as [[? ?]|]; [|done]. by apply (owned_same s).
  - injection E as <-. apply (owned_same s); [done|cbn; lia|done].
  - injection E as <-. by apply (owned_same s).
  - injection E as <-. by apply (owned_same s).
Qed.

Lemma owned_steps s os s' : broker_steps s os s' -> owned s -> owned s'.
Proof. induction 1 as [|s o s1 os s2 E _ IH]; [done|]. intros Hw. apply IH. by eapply owned_step. Qed.

Lemma steps_ok s os s' : broker_steps s os s' -> streamer_sound s -> streamer_sound s'.
Proof. induction 1 as [|s o s1 os s2 E _ IH]; [done|]. intros Hw. apply IH. destruct (streamer_step_sound s o Hw) as (s1' & E' & ?). congruence. Qed.

(** The subscriptions of the server that an event ends. *)
Definition media_ends (id : bytes) (o : media_op) : Prop :=
  match o with
  | MServed id' _ => id' = id
  | MEnd id' => id' = id
  | MBroker o => op_ends id o = true
  | _ => False
  end.

(** The rounds of the worker are visits of its map in some order. *)
Definition fair_order (o : media_op) : Prop :=
  match o with MSweep _ order => forall l, order l ≡ₚ l | _ => True end.

Lemma sweep_steps now limit es : forall m m',
  sweep_entries now limit m es = Some m' ->
  exists os, broker_steps (ms_streamer m) os (ms_streamer m') /\ Forall (fun o => exists e, e ∈ es /\ limit < now - snd e /\ o = OUnsubHLS (fst e) local) os.
Proof.
  induction es as [|[sid t] es IH]; intros m m'; cbn [sweep_entries sweep_entry]; [intros [= <-]; by exists []; repeat constructor|].
  destruct (Z.ltb_spec limit (now - t)) as [Hlt|Hge].
  - destruct (UnsubscribeToHLSStream (ms_streamer m) sid local) as [s|] eqn:Eu; [|done]. cbn [mbind option_bind]. intros E. destruct (IH _ _ E) as (os & Hb & HF).
    exists (OUnsubHLS sid local :: os). split; [by econstructor|]. constructor; [exists (sid, t); split_and!; [by left|done|done]|].
    eapply Forall_impl; [exact HF|]. intros o (e & ? & ?). exists e. split; [by right|done].
  - cbn [mbind option_bind]. intros E. destruct (IH _ _ E) as (os & Hb & HF). exists os. split; [done|]. eapply Forall_impl; [exact HF|]. intros o (e & ? & ?). exists e. split; [by right|done].
Qed.

Lemma sweep_timer now limit es id : forall m m', sweep_entries now limit m es = Some m' -> hlsSubTimer m !! id = None -> hlsSubTimer m' !! id = None.
Proof.
  induction es as [|[sid t] es IH]; intros m m'; cbn [sweep_entries sweep_entry]; [by intros [= <-]|]. destruct (limit <? now - t); cbn [mbind option_bind]; [|apply IH].
  destruct (UnsubscribeToHLSStream _ _ _) as [s|]; [|done]. cbn [mbind option_bind]. intros E Hid. apply (IH _ _ E). cbn. by rewrite lookup_delete_None; right.
Qed.

(** Every event is a sequence of operations on the broker. *)
Lemma media_steps m o m' :
  media_step m o = Some m' -> fair_order o -> exists os, broker_steps (ms_streamer m) os (ms_streamer m') /\
    forall id, ~ media_ends id o -> hlsSubTimer m !! id = None -> Forall (fun o => op_ends id o = false) os /\ hlsSubTimer m' !! id = None.
Proof.
  intros E Hfair. destruct o as [path|sid now|now order|rtmp hls rand|sid|path subID|rand|o]; cbn [media_step] in E.
  - injection E as <-. unfold playlist_subscribe. destruct (SplitComponents (parseStreamID path)) as [nodeID streamID]. destruct (_ || _); [exists []; repeat constructor; done|].
    set (found := match GetNetworkStream _ _ with Some _ => _ | None => _ end).
    assert (Hfound : match found with Some m1 => ms_streamer m1 = ms_streamer m /\ hlsSubTimer m1 = hlsSubTimer m | None => True end).
    { subst found. destruct (GetNetworkStream _ _); [done|]. by destruct (negb _). }
    destruct found as [m1|]; [|exists []; repeat constructor; done]. destruct Hfound as [<- Ht].
    destruct (GetHLSMuxer _ _ _); [exists []; split; [constructor|]; cbn [fst]; rewrite Ht; repeat constructor; done|]. cbn [new_muxer ms_streamer].
    destruct (SubscribeToHLSStream _ _ _ _) as [s err] eqn:Es. cbn [fst with_streamer ms_streamer hlsSubTimer]. exists [OSubHLS (parseStreamID path) local (ms_muxers m1)]. split.
    + apply broker_one. cbn [streamer_step]. by rewrite Es.
    + rewrite Ht. repeat constructor; done.
  - injection E as <-. exists []. split; [constructor|]. intros id He Hid. split; [constructor|]. cbn. cbn in He. by rewrite lookup_insert_ne.
  - destruct (sweep_steps _ _ _ _ _ E) as (os & Hb & HF). exists os. split; [done|]. intros id _ Hid. split.
    + eapply Forall_impl; [exact HF|]. intros o ([sid t] & Hin & _ & ->). cbn. rewrite (Hfair _), elem_of_map_to_list in Hin. rewrite bool_decide_eq_false_2; [done|]. cbn. congruence.
    + by eapply sweep_timer.
  - injection E as <-. unfold gotStream. destruct (negb _); [exists []; repeat constructor; done|]. set (m1 := match GetNetworkStream _ _ with Some _ => m | None => _ end).
    assert (H1 : exists os, broker_steps (ms_streamer m) os (ms_streamer m1) /\ (forall id, Forall (fun o => op_ends id o = false) os) /\ hlsSubTimer m1 = hlsSubTimer m).
    { subst m1. destruct (GetNetworkStream _ _); [exists []; repeat constructor; done|]. exists [OAdd rtmp RTMP]. split; [by apply broker_one|]. repeat constructor; done. }
    destruct H1 as (os & Hb & HF & Ht). set (hid := if bool_decide (hls = []) then _ else _). destruct (negb _); [exists os; split; [done|]; cbn; rewrite Ht; auto|].
    exists (os ++ [OAdd hid HLS]). split; [eapply broker_app; [exact Hb|by apply broker_one]|]. intros id _ Hid. cbn. rewrite Ht. split; [|done]. apply Forall_app. split; [done|by repeat constructor].
  - unfold endStream in E. destruct (UnsubscribeAll _ sid) as [s|] eqn:Eu; [|done]. injection E as <-. exists [ODelete sid; OUnsubAll sid]. split.
    + econstructor; [reflexivity|]. by apply broker_one.
    + intros id He Hid. cbn in He. split; [|done]. repeat constructor. cbn. by apply bool_decide_eq_false.
  - injection E as <-. unfold getStream. case_bool_decide; [exists []; repeat constructor; done|]. set (strm := GetNetworkStream _ _).
    destruct strm; (eexists [OSubRTMP (parseStreamID path) subID _]; split; [apply broker_one; reflexivity|repeat constructor; done]).
  - injection E as <-. exists [OAdd (random_id m rand) RTMP]. split; [by apply broker_one|repeat constructor; done].
  - destruct (streamer_step (ms_streamer m) o) as [s|] eqn:Eo; [|done]. injection E as <-. exists [o]. split; [by apply broker_one|].
    intros id He Hid. split; [|done]. constructor; [|done]. cbn in He. by destruct (op_ends id o).
Qed.

(** No event panics. *)
Lemma sweep_ok now limit es : forall m, streamer_sound (ms_streamer m) -> exists m', sweep_entries now limit m es = Some m' /\ streamer_sound (ms_streamer m').
Proof.
  induction es as [|[sid t] es IH]; intros m Hok; cbn [sweep_entries sweep_entry]; [eauto|]. destruct (limit <? now - t); [|by apply IH].
  destruct (streamer_step_sound (ms_streamer m) (OUnsubHLS sid local) Hok) as (s & E & Hs). cbn [streamer_step] in E. rewrite E. cbn [mbind option_bind]. by apply IH.
Qed.

Lemma media_step_ok m o : streamer_sound (ms_streamer m) -> fair_order o -> exists m', media_step m o = Some m' /\ streamer_sound (ms_streamer m').
Proof.
  intros Hok Hfair. assert (Hsome : exists m', media_step m o = Some m').
  { destruct o as [path|sid now|now order|rtmp hls rand|sid|path subID|rand|o]; cbn [media_step]; eauto.
    - destruct (sweep_ok now HLSUnsubscribeWaitLimit (order (map_to_list (hlsSubTimer m))) m Hok) as (m' & E & _). eauto.
    - destruct (streamer_step_sound (ms_streamer m) (ODelete sid) Hok) as (s1 & [= <-] & H1). destruct (streamer_step_sound _ (OUnsubAll sid) H1) as (s2 & E & _).
      cbn [streamer_step] in E. unfold endStream. rewrite E. cbn. eauto.
    - destruct (streamer_step_sound (ms_streamer m) o Hok) as (s & -> & _). cbn. eauto. }
  destruct Hsome as [m' E]. exists m'. split; [done|]. destruct (media_steps _ _ _ E Hfair) as (os & Hb & _). by eapply steps_ok.
Qed.

(** The states the server reaches. *)
Definition reached (a : Hash32) (m : LPMS) : Prop := exists os, Forall fair_order os /\ media_run (StartLPMS (NewStreamer a)) os = Some m.

Lemma media_run_keeps (P : LPMS -> Prop) (Q : media_op -> Prop) :
  (forall m o m', P m -> Q o -> media_step m o = Some m' -> P m') -> forall os m m', Forall Q os -> P m -> media_run m os = Some m' -> P m'.
Proof.
  intros Hstep os. induction os as [|o os IH]; intros m m' HF Hm E; cbn in E; [by injection E as <-|]. inversion_clear HF.
  destruct (media_step m o) as [m1|] eqn:E1; [|done]. cbn in E. eapply IH; [done| |exact E]. by eapply Hstep.
Qed.

Lemma reached_ok a m : reached a m -> streamer_sound (ms_streamer m) /\ owned (ms_streamer m).
Proof.
  intros (os & HF & E). eapply (media_run_keeps (fun m => streamer_sound (ms_streamer m) /\ owned (ms_streamer m)) fair_order); [|exact HF| |exact E].
  - intros m1 o m2 [H1 H2] Hf E1. destruct (media_steps _ _ _ E1 Hf) as (os1 & Hb & _). split; [by eapply steps_ok|by eapply owned_steps].
  - split; [apply streamer_new_sound|apply owned_new].
Qed.
