(* ===== verification/MediaProps.v ===== *)
(** Theorems of the media server: idle HLS streams are dropped and watched ones kept, a request that is not served leaves its subscription
    behind, what publishing a stream registers, and the paths of streams. *)
From stdpp Require Import base gmap list strings.
From Stdlib Require Import ZArith Lia.
From S2P Require Import Prelude Types Manifest ManifestProps Streamer MediaServer.

(** ** The unsubscribe worker *)

Abbreviation muxer m id := (GetHLSMuxer (ms_streamer m) id local).

Lemma unused_empty so : sub_HasSubscribers so = false -> ss_hls so = ∅.
Proof. unfold sub_HasSubscribers. intros H%Nat.ltb_ge. apply map_size_empty_iff. lia. Qed.

(** Leaving a stream ends the subscription of the server to it and no other subscription. *)
Lemma unsub_gone s id s' : streamer_step s (OUnsubHLS id local) = Some s' -> GetHLSMuxer s' id local = None.
Proof.
  cbn [streamer_step]. unfold UnsubscribeToHLSStream. destruct (subscribers s !! id) as [o|] eqn:Ei; [|intros [= <-]; unfold GetHLSMuxer; by rewrite Ei].
  destruct (object_used _ _); cbn [negb].
  - intros [= <-]. unfold GetHLSMuxer. cbn. rewrite Ei, lookup_alter_eq. destruct (objs s !! o); [|done]. cbn. apply lookup_delete_eq.
  - unfold drop_subscriber. cbn. destruct (cancellation s !! id); [|done]. cbn. intros [= <-]. unfold GetHLSMuxer.
    destruct (negb _); cbn; by rewrite lookup_delete_eq.
Qed.

Lemma unsub_other s id id' sub s' :
  owned s -> id' <> id \/ sub <> local -> streamer_step s (OUnsubHLS id local) = Some s' -> GetHLSMuxer s' id' sub = GetHLSMuxer s id' sub.
Proof.
  intros Hw Hor. cbn [streamer_step]. unfold UnsubscribeToHLSStream. destruct (subscribers s !! id) as [o|] eqn:Ei; [|intros [= <-]; done].
  set (s1 := update_object s o (UnsubscribeHLS local)).
  assert (Hup : GetHLSMuxer s1 id' sub = GetHLSMuxer s id' sub).
  { unfold GetHLSMuxer. cbn. destruct (subscribers s !! id') as [o'|] eqn:Ei'; [|done]. destruct (decide (o = o')) as [<- |Hne]; [|by rewrite lookup_alter_ne].
    assert (id' = id) as -> by (by eapply ow_inj). destruct Hor as [?|Hl]; [done|]. rewrite lookup_alter_eq. destruct (objs s !! o) as [so|]; [|done].
    cbn. by rewrite lookup_delete_ne. }
  destruct (object_used s1 o) eqn:Eu; cbn [negb]; [intros [= <-]; exact Hup|].
  unfold drop_subscriber. destruct (cancellation s1 !! id); [|done]. cbn [mbind option_bind]. intros [= <-]. rewrite <- Hup. unfold GetHLSMuxer.
  change (subscribers s1) with (subscribers s). destruct (negb _); cbn [DeleteNetworkStream with_streams subscribers objs]; (destruct (decide (id' = id)) as [-> |Hne];
    [rewrite lookup_delete_eq, Ei; change (objs s1) with (alter (UnsubscribeHLS local) o (objs s)); unfold object_used in Eu; change (objs s1) with (alter (UnsubscribeHLS local) o (objs s)) in Eu;
     destruct (alter _ o (objs s) !! o) as [so|]; [cbn; by rewrite (unused_empty so Eu), lookup_empty|done]
    |by rewrite lookup_delete_ne]).
Qed.

(** The entries that a round drops. *)
Definition idle (now limit : Z) (e : bytes * Z) : bool := limit <? now - snd e.

Lemma sweep_spec now limit es : forall m,
  streamer_sound (ms_streamer m) -> owned (ms_streamer m) -> NoDup es.*1 -> exists m', sweep_entries now limit m es = Some m' /\
    (forall id, hlsSubTimer m' !! id = if existsb (fun e => bool_decide (fst e = id) && idle now limit e) es then None else hlsSubTimer m !! id) /\
    (forall id, muxer m' id = if existsb (fun e => bool_decide (fst e = id) && idle now limit e) es then None else muxer m id) /\
    (forall id sub, sub <> local -> GetHLSMuxer (ms_streamer m') id sub = GetHLSMuxer (ms_streamer m) id sub) /\
    ms_forwarded m' = ms_forwarded m ++ ((fun e => FwdStop (fst e) HLS) <$> filter (fun e => idle now limit e = true) es).
Proof.
  induction es as [|[sid t] es IH]; intros m Hok Hw Hnd; cbn [sweep_entries]; [exists m; rewrite app_nil_r; by split_and!|].
  rewrite fmap_cons in Hnd. inversion_clear Hnd as [|? ? Hni Hnd']. cbn [fst] in Hni. unfold sweep_entry. cbn [existsb fst]. unfold idle at 1 3. cbn [snd].
  assert (Hno : forall p : bytes * Z -> bool, existsb (fun e => bool_decide (fst e = sid) && p e) es = false).
  { intros p. apply not_true_is_false. intros (e & Hin & He)%existsb_exists. apply andb_true_iff in He as [He%bool_decide_eq_true _]. apply Hni. rewrite <- He.
    apply list_elem_of_fmap_2. by apply list_elem_of_In. }
  destruct (limit <? now - t) eqn:Hlt.
  - destruct (streamer_step_sound (ms_streamer m) (OUnsubHLS sid local) Hok) as (s & E & Hs). pose proof E as Eu. cbn [streamer_step] in Eu. rewrite Eu. cbn [mbind option_bind].
    match goal with |- context [sweep_entries now limit ?x es] => destruct (IH x) as (m' & -> & H1 & H2 & Hp & H3) end; [done|by eapply owned_step|done|].
    cbn [hlsSubTimer with_timer ms_streamer forwarder with_streamer ms_forwarded] in H1, H2, Hp, H3. exists m'. split; [done|]. split_and!.
    + intros id. rewrite H1. destruct (decide (sid = id)) as [<- |Hne]; [rewrite bool_decide_eq_true_2, Hno, lookup_delete_eq by done; done|].
      rewrite bool_decide_eq_false_2, lookup_delete_ne by done. done.
    + intros id. rewrite H2. destruct (decide (sid = id)) as [<- |Hne]; [rewrite bool_decide_eq_true_2, Hno, (unsub_gone _ _ _ E) by done; done|].
      rewrite bool_decide_eq_false_2, (unsub_other _ _ _ _ _ Hw (or_introl (not_eq_sym Hne)) E) by done. done.
    + intros id sub Hl. rewrite (Hp id sub Hl). exact (unsub_other _ _ _ _ _ Hw (or_intror Hl) E).
    + rewrite H3, filter_cons_True, fmap_cons by done. by rewrite <- app_assoc.
  - destruct (IH m Hok Hw Hnd') as (m' & E & H1 & H2 & Hp & H3). cbn [mbind option_bind]. exists m'. rewrite filter_cons_False by (unfold idle; cbn; congruence).
    split_and!; [done| | |done|done]; intros id; rewrite andb_false_r; [apply H1|apply H2].
Qed.

(** C19: A round of the worker drops exactly the streams whose playlist was served before and not within the limit: in whatever order it visits its map, it ends the
    subscription of the server to each of them, asks the network once to stop it and forgets its time. It leaves as it was every other time, the
    subscription of the server to every other stream - also to those whose playlist was never served, which have no time - and the HLS subscriptions of all peers. *)
Theorem sweep_drops_idle a m now order :
  reached a m -> (forall l, order l ≡ₚ l) -> exists m', media_step m (MSweep now order) = Some m' /\
    (forall id, muxer m' id = match hlsSubTimer m !! id with Some t => if HLSUnsubscribeWaitLimit <? now - t then None else muxer m id | None => muxer m id end) /\
    (forall id sub, sub <> local -> GetHLSMuxer (ms_streamer m') id sub = GetHLSMuxer (ms_streamer m) id sub) /\
    (forall id t, hlsSubTimer m' !! id = Some t <-> hlsSubTimer m !! id = Some t /\ now - t <= HLSUnsubscribeWaitLimit) /\
    (exists stops, ms_forwarded m' = ms_forwarded m ++ ((fun id => FwdStop id HLS) <$> stops) /\ NoDup stops /\
       forall id, id ∈ stops <-> exists t, hlsSubTimer m !! id = Some t /\ HLSUnsubscribeWaitLimit < now - t).
Proof.
  intros Hr Hord. destruct (reached_ok a m Hr) as [Hok Hw]. cbn [media_step]. set (T := hlsSubTimer m). set (es := order (map_to_list T)).
  assert (Hnd : NoDup es.*1) by (unfold es; rewrite Hord; apply NoDup_fst_map_to_list).
  destruct (sweep_spec now HLSUnsubscribeWaitLimit es m Hok Hw Hnd) as (m' & E & Ht & Hm & Hp & Hf). exists m'. split; [done|].
  assert (Hin : forall id t, (id, t) ∈ es <-> T !! id = Some t) by (intros; unfold es; by rewrite Hord, elem_of_map_to_list).
  assert (Hex : forall id, existsb (fun e => bool_decide (fst e = id) && idle now HLSUnsubscribeWaitLimit e) es =
    match T !! id with Some t => HLSUnsubscribeWaitLimit <? now - t | None => false end).
  { intros id. apply eq_true_iff_eq. rewrite existsb_exists. split.
    - intros ([i t] & H1%list_elem_of_In%Hin & H2). apply andb_true_iff in H2 as [H2%bool_decide_eq_true H3]. cbn in H2. subst i. by rewrite H1.
    - destruct (T !! id) as [t|] eqn:ET; [|done]. intros H. exists (id, t). split; [by apply list_elem_of_In, Hin|]. by rewrite bool_decide_eq_true_2. }
  split_and!.
  - intros id. rewrite Hm, Hex. destruct (T !! id); [|done]. by destruct (_ <? _).
  - exact Hp.
  - intros id t. rewrite Ht, Hex. fold T. destruct (T !! id) as [t'|] eqn:ET; [|split; [done|intros [? _]; done]].
    destruct (Z.ltb_spec HLSUnsubscribeWaitLimit (now - t')) as [Hlt|Hge]; split; [done| | |]; intros H; [destruct H as [[= <-] ?]; lia|by injection H as <-|by destruct H].
  - exists (filter (fun e => idle now HLSUnsubscribeWaitLimit e = true) es).*1. split_and!.
    + rewrite Hf. by rewrite <- list_fmap_compose.
    + by apply NoDup_fmap_filter.
    + intros id. split.
      * intros ([i t] & -> & [H1 H2]%list_elem_of_filter)%list_elem_of_fmap. exists t. split; [by apply Hin|]. by apply Z.ltb_lt in H1.
      * intros (t & H1 & H2). apply list_elem_of_fmap. exists (id, t). split; [done|]. apply list_elem_of_filter. split; [by apply Z.ltb_lt|by apply Hin].
Qed.

(** ** Requests that are not served *)

Lemma muxer_kept s id mux : owned s -> GetHLSMuxer s id local = Some mux -> kept_sub id mux s.
Proof.
  intros Hw. unfold GetHLSMuxer. destruct (subscribers s !! id) as [o|] eqn:E1; [|done]. destruct (objs s !! o) as [so|] eqn:E2; [|done]. intros E3.
  split; [done|]. by exists o, so.
Qed.

Lemma subscribe_muxer s id mux s' : SubscribeToHLSStream s id local mux = (s', false) -> GetHLSMuxer s' id local = Some mux.
Proof.
  unfold SubscribeToHLSStream. destruct (get_stream s id HLS) as [strm s1].
  assert (Hsub : subscribers (snd (get_subscriber s1 id strm)) !! id = Some (fst (get_subscriber s1 id strm))).
  { unfold get_subscriber. destruct (subscribers s1 !! id) eqn:E; [done|]. cbn. apply lookup_insert_eq. }
  destruct (get_subscriber s1 id strm) as [o s2]. cbn in Hsub. destruct (objs s2 !! o) as [so|] eqn:Eo; [|done]. intros [= <- Herr].
  unfold GetHLSMuxer. cbn. rewrite Hsub, lookup_alter_eq, Eo. cbn. unfold SubscribeHLS in *. case_bool_decide; cbn [negb] in *; [|done].
  destruct (ss_hls so !! local); [done|]. cbn. apply lookup_insert_eq.
Qed.

Lemma playlist_kept m path m1 id mux :
  owned (ms_streamer m) -> playlist_subscribe m path = (m1, inr (id, mux)) -> kept_sub id mux (ms_streamer m1) /\ hlsSubTimer m1 = hlsSubTimer m.
Proof.
  intros Hw. unfold playlist_subscribe. destruct (SplitComponents (parseStreamID path)) as [nodeID streamID]. destruct (_ || _); [done|].
  set (found := match GetNetworkStream _ _ with Some _ => _ | None => _ end).
  assert (Hfound : match found with Some m1 => ms_streamer m1 = ms_streamer m /\ hlsSubTimer m1 = hlsSubTimer m | None => True end).
  { subst found. destruct (GetNetworkStream _ _); [done|]. by destruct (negb _). }
  destruct found as [m2|]; [|done]. destruct Hfound as [Es Ht]. destruct (GetHLSMuxer (ms_streamer m2) _ _) eqn:Eg.
  - intros [= <- <- <-]. split; [|done]. apply muxer_kept; [by rewrite Es|done].
  - cbn [new_muxer ms_streamer]. destruct (SubscribeToHLSStream _ _ _ _) as [s err] eqn:Esub. destruct err; [done|]. intros [= <- <- <-]. split; [|done].
    apply muxer_kept; [|by eapply subscribe_muxer]. cbn [with_streamer ms_streamer].
    apply (owned_step (ms_streamer m2) (OSubHLS (parseStreamID path) local (ms_muxers m2))); [cbn [streamer_step]; by rewrite Esub|by rewrite Es].
Qed.

(** C40: A request for a playlist that is not served leaves its subscription behind, and the worker never drops it: the time of a stream is set only when
    a playlist is served, and the worker drops only streams with a time. The subscription is there after every history of requests, publications, rounds of the
    worker and operations of the broker in which no later request for the stream is served, the stream is not ended ([endStream]) and the broker is not asked
    to remove all subscribers of the stream or the server's own subscription to it. *)
Theorem unserved_subscription_stays a m path m1 id mux os m2 :
  reached a m -> playlist_subscribe m path = (m1, inr (id, mux)) -> hlsSubTimer m !! id = None ->
  Forall (fun o => fair_order o /\ ~ media_ends id o) os -> media_run m1 os = Some m2 -> muxer m2 id = Some mux.
Proof.
  intros Hr Hsub Ht HF Hrun. destruct (reached_ok a m Hr) as [_ Hw]. destruct (playlist_kept m path m1 id mux Hw Hsub) as [Hk Ht1]. rewrite <- Ht1 in Ht.
  apply kept_GetHLSMuxer. enough (kept_sub id mux (ms_streamer m2) /\ hlsSubTimer m2 !! id = None) as [? _] by done.
  eapply (media_run_keeps (fun m => kept_sub id mux (ms_streamer m) /\ hlsSubTimer m !! id = None)); [|exact HF|by split|exact Hrun].
  intros m3 o m4 [Hk3 Ht3] [Hfair Hends] E. destruct (media_steps _ _ _ E Hfair) as (bs & Hb & Hspare). destruct (Hspare id Hends Ht3) as [HF3 Ht4].
  split; [|done]. by eapply kept_steps.
Qed.

(** ** Paths of streams *)

Lemma is_prefix_app p r : is_prefix p (p ++ r) = true.
Proof. apply is_prefix_spec. by exists r. Qed.

Lemma alnum_hex l : Forall is_byte l -> forallb alnum (hex_encode l) = true.
Proof.
  induction 1 as [|b l Hb _ IH]; [done|]. unfold is_byte in Hb. cbn [hex_encode forallb]. rewrite IH.
  pose proof (Z.mod_pos_bound b 16 ltac:(lia)). pose proof (Z.div_pos b 16 ltac:(lia) ltac:(lia)). pose proof (Z.div_lt_upper_bound b 16 16 ltac:(lia) ltac:(lia)).
  assert (Hd : forall d, 0 <= d < 16 -> alnum (hex_digit d) = true) by (intros d Hd; unfold alnum, hex_digit; destruct (Z.ltb_spec d 10); lia).
  by rewrite !Hd by lia.
Qed.

Lemma alnum_run_app s tail : forallb alnum s = true -> match tail with c :: _ => alnum c = false | [] => True end -> alnum_run (s ++ tail) = s.
Proof.
  intros Hs Ht. induction s as [|c s IH]; cbn in *; [destruct tail as [|c t]; [done|cbn; by rewrite Ht]|]. apply andb_true_iff in Hs as [Hc Hs]. rewrite Hc. by rewrite IH.
Qed.

(** A text without a slash has no occurrence of the directory. *)
Lemma remove_noslash s : Forall (fun c => c <> slash) s -> remove_all stream_dir 0 s = s.
Proof.
  induction 1 as [|c s Hc _ IH]; [done|]. cbn [remove_all]. destruct (is_prefix stream_dir (c :: s)) eqn:E; [|by rewrite IH].
  apply is_prefix_spec in E as [r E]. by injection E as -> _.
Qed.

Lemma remove_skip n s : remove_all stream_dir n s = remove_all stream_dir 0 (drop n s).
Proof. revert n. induction s as [|c s IH]; intros [|n]; try done. cbn. apply IH. Qed.

Lemma remove_dir s : Forall (fun c => c <> slash) s -> remove_all stream_dir 0 (stream_dir ++ s) = s.
Proof.
  intros Hs. change (stream_dir ++ s) with (47 :: (drop 1 stream_dir ++ s)). cbn [remove_all]. change (47 :: (drop 1 stream_dir ++ s)) with (stream_dir ++ s).
  rewrite is_prefix_app, remove_skip. change (drop (length stream_dir - 1) (drop 1 stream_dir ++ s)) with s. by apply remove_noslash.
Qed.

Lemma alnum_noslash s : forallb alnum s = true -> Forall (fun c => c <> slash) s.
Proof. intros Hs. rewrite forallb_forall in Hs. apply Forall_forall. intros c Hc%list_elem_of_In%Hs ->. done. Qed.

Lemma upto_ts_end s : Forall (fun c => c <> 10) s -> upto_ts (s ++ str ".ts") = Some (s ++ str ".ts").
Proof. induction 1 as [|c s Hc _ IH]; [done|]. cbn [app upto_ts]. destruct (Z.eqb_spec c 10); [done|]. by rewrite IH. Qed.

(** C33: The path of a stream leads back to it: the id of a stream of this program, found in the path of a request behind [/stream/] and
    before an extension, splits into the node and the random part it was made of, and the path of a segment gives the name
    of the segment. *)
Theorem stream_path_roundtrip node rand tail seg :
  Forall is_byte node -> length node = 32%nat -> Forall is_byte rand -> length rand = 32%nat ->
  match tail with c :: _ => alnum c = false | [] => True end -> Forall (fun c => c <> slash /\ c <> 10) seg ->
  let id := MakeStreamID node (hex_encode rand) in
  parseStreamID (stream_dir ++ id ++ tail) = id /\ SplitComponents id = (node, hex_encode rand) /\
  parseSegName (stream_dir ++ seg ++ str ".ts") = seg ++ str ".ts".
Proof.
  intros Hn Hnl Hr Hrl Ht Hseg id. split_and!.
  - unfold parseStreamID. change (stream_dir ++ id ++ tail) with (47 :: (drop 1 stream_dir ++ id ++ tail)). cbn [behind_dir].
    change (47 :: (drop 1 stream_dir ++ id ++ tail)) with (stream_dir ++ id ++ tail). rewrite is_prefix_app, drop_app_length.
    assert (Ha : forallb alnum id = true) by (unfold id, MakeStreamID; by rewrite forallb_app, !alnum_hex).
    rewrite alnum_run_app by done. rewrite bool_decide_eq_false_2 by done. by apply remove_dir, alnum_noslash.
  - unfold id. rewrite MakeStreamID_split by done. rewrite decide_True; [done|]. rewrite length_hex_encode. lia.
  - unfold parseSegName. change (stream_dir ++ seg ++ str ".ts") with (47 :: (drop 1 stream_dir ++ seg ++ str ".ts")). cbn [seg_match].
    change (47 :: (drop 1 stream_dir ++ seg ++ str ".ts")) with (stream_dir ++ seg ++ str ".ts"). rewrite is_prefix_app, drop_app_length.
    rewrite upto_ts_end by (eapply Forall_impl; [exact Hseg|by intros c []]). rewrite bool_decide_eq_false_2 by done. apply remove_dir.
    apply Forall_app. split; [eapply Forall_impl; [exact Hseg|by intros c []]|by repeat constructor].
Qed.

(** ** Witnesses *)

Definition server0 : LPMS := StartLPMS (NewStreamer (replicate 32 1)).
Definition path0 : bytes := stream_dir ++ strm0 ++ str ".m3u8".

(** A stream of another node that was served at time 0. *)
Definition watched : LPMS := default server0 (media_run server0 [MPlaylist path0; MServed strm0 0]).

Lemma watched_reached : reached (replicate 32 1) watched.
Proof. exists [MPlaylist path0; MServed strm0 0]. split; [by repeat constructor|]. vm_compute. reflexivity. Qed.

Lemma sweep_drops_idle_witness :
  exists m', media_step watched (MSweep (21 * second) (@reverse _)) = Some m' /\
    (forall id, muxer m' id = match hlsSubTimer watched !! id with
                              | Some t => if HLSUnsubscribeWaitLimit <? 21 * second - t then None else muxer watched id
                              | None => muxer watched id end) /\
    (forall id sub, sub <> local -> GetHLSMuxer (ms_streamer m') id sub = GetHLSMuxer (ms_streamer watched) id sub) /\
    (forall id t, hlsSubTimer m' !! id = Some t <-> hlsSubTimer watched !! id = Some t /\ 21 * second - t <= HLSUnsubscribeWaitLimit) /\
    (exists stops, ms_forwarded m' = ms_forwarded watched ++ ((fun id => FwdStop id HLS) <$> stops) /\ NoDup stops /\
       forall id, id ∈ stops <-> exists t, hlsSubTimer watched !! id = Some t /\ HLSUnsubscribeWaitLimit < 21 * second - t).
Proof. apply (sweep_drops_idle (replicate 32 1) watched (21 * second) (@reverse _)); [apply watched_reached|apply reverse_Permutation]. Defined.

(** The subscription before and after the round. *)
Example watched_dropped :
  muxer watched strm0 = Some 0%nat /\ option_map (fun m => muxer m strm0) (media_step watched (MSweep (21 * second) (@reverse _))) = Some None.
Proof. vm_compute. done. Qed.

(** A request for a stream of another node that no playlist comes for, and two rounds of the worker later. *)
Definition later_ops : list media_op := [MSweep (100 * second) (@reverse _); MCreate (replicate 32 5); MSweep (1000 * second) (@reverse _)].

Lemma unserved_subscription_stays_witness :
  muxer (default server0 (media_run (fst (playlist_subscribe server0 path0)) later_ops)) strm0 = Some 0%nat.
Proof.
  apply (unserved_subscription_stays (replicate 32 1) server0 path0 (fst (playlist_subscribe server0 path0)) strm0 0 later_ops).
  - by exists [].
  - vm_compute. reflexivity.
  - reflexivity.
  - repeat (apply Forall_cons_2; [split; [first [exact I|intros l; apply reverse_Permutation]|by intros []]|]). apply Forall_nil_2.
  - vm_compute. reflexivity.
Defined.

Lemma stream_path_roundtrip_witness :
  let id := MakeStreamID node0 (hex_encode (replicate 32 17)) in
  parseStreamID (stream_dir ++ id ++ str ".m3u8") = id /\ SplitComponents id = (node0, hex_encode (replicate 32 17)) /\
  parseSegName (stream_dir ++ str "a_1" ++ str ".ts") = str "a_1" ++ str ".ts".
Proof.
  apply (stream_path_roundtrip node0 (replicate 32 17) (str ".m3u8") (str "a_1"));
    [repeat constructor; unfold is_byte; lia|done|repeat constructor; unfold is_byte; lia|done|done|repeat constructor; done].
Defined.

(** A publication whose HLS id names another node is refused after the RTMP stream was added. *)
Example refused_publication_stays :
  let rtmp := MakeStreamID (replicate 32 1) (replicate 64 49) in
  let '(m, err) := gotStream server0 rtmp strm0 [] in err = Some ErrStreamPublish /\ GetNetworkStream (ms_streamer m) rtmp = Some (0%nat, RTMP).
Proof. vm_compute. done. Qed.

(** The player of a remote RTMP stream gets no stream, although it is subscribed to one then. *)
Example remote_play_without_stream :
  let '(m, r) := getStream server0 path0 (str "s") in r = inr None /\ GetNetworkStream (ms_streamer m) strm0 = Some (0%nat, RTMP).
Proof. vm_compute. done. Qed.
