(* ===== verification/Messages.v ===== *)
(** The wire messages of the protocol ([livepeer/network/messages.go]), the
    sync state they carry ([syncer.go]), the messages a peer muxer sends
    ([peer_muxer.go]) and the table of stream requesters ([streamdb.go]).

    A peer is the identifier of its protocol instance; times are nanoseconds.
    Methods with a value receiver work on a copy, which they drop. *)
From stdpp Require Import base gmap list strings.
From Stdlib Require Import ZArith Lia.
From S2P Require Import Prelude Types Database DbStore Streamer.

Abbreviation Address := bytes (only parsing).
Abbreviation peer := nat (only parsing).

(** ** Message codes *)
Definition statusMsg : Z := 0.
Definition storeRequestMsg : Z := 1.
Definition retrieveRequestMsg : Z := 2.
Definition peersMsg : Z := 3.
Definition syncRequestMsg : Z := 4.
Definition deliveryRequestMsg : Z := 5.
Definition unsyncedKeysMsg : Z := 6.
Definition paymentMsg : Z := 7.
Definition streamRequestMsg : Z := 8.
Definition stopStreamRequestMsg : Z := 9.
Definition transcodeRequestMsg : Z := 10.
Definition transcodeAckMsg : Z := 11.

(** ** Peer addresses *)
Record peerAddr := mkPeerAddr { pa_IP : bytes; pa_Port : Z; pa_ID : bytes; pa_Addr : Address }.

#[export] Instance peerAddr_eq_dec : EqDecision peerAddr.
Proof. solve_decision. Defined.

(** ** Sync states *)
(** The channel [synced] is left out: it only signals the end of a segment. *)
Record syncState := mkSyncState {
  ss_Db : DbSyncState;
  ss_SessionAt : Z;
  ss_LastSeenAt : Z;
  ss_Latest : Key;
  ss_Synced : bool
}.

Definition no_sync : DbSyncState := {| Start := []; Stop := []; First := 0; Last := 0 |}.

#[export] Instance DbSyncState_eq_dec : EqDecision DbSyncState.
Proof. solve_decision. Defined.
#[export] Instance syncState_eq_dec : EqDecision syncState.
Proof. solve_decision. Defined.

Record syncRequest := mkSyncRequest { sq_Key : Key; sq_Priority : Z }.

(** ** Messages *)
Record statusMsgData := mkStatus {
  st_Version : Z; st_ID : bytes; st_Addr : peerAddr; st_NetworkId : Z }.

(** [None] is a format that is neither HLS nor RTMP, such as the zero value. *)
Record streamRequestMsgData := mkStream {
  sr_OriginNode : Hash32; sr_StreamID : bytes; sr_Format : option VideoFormat; sr_SData : bytes; sr_Id : Z }.

Record stopStreamRequestMsgData := mkStop {
  sp_OriginNode : Hash32; sp_Format : option VideoFormat; sp_StreamID : bytes; sp_SData : bytes; sp_Id : Z }.

Record transcodeRequestMsgData := mkTranscode {
  tr_OriginNode : Hash32; tr_OriginStreamID : bytes; tr_TranscodeID : Hash32; tr_Id : Z;
  tr_Formats : list bytes; tr_Bitrates : list bytes; tr_CodecIn : bytes; tr_CodecOut : list bytes }.

Record transcodedStreamData := mkTranscoded {
  ts_StreamID : bytes; ts_Format : bytes; ts_Bitrate : bytes; ts_CodecIn : bytes; ts_CodecOut : bytes }.

Record transcodeAckMsgData := mkAck {
  ta_OriginNode : Hash32; ta_OriginStreamID : bytes; ta_TranscodeID : Hash32;
  ta_NewStreamIDs : list transcodedStreamData }.

Record storeRequestMsgData := mkStoreReq {
  so_Key : Key; so_SData : option bytes; so_Id : Z; so_requestTimeout : option Z }.

Record retrieveRequestMsgData := mkRetrieve {
  rr_Key : option Key;        (* [None] is nil *)
  rr_Id : Z; rr_MaxSize : Z; rr_MaxPeers : Z; rr_Timeout : Z;
  rr_timeout : option Z; rr_from : option peer }.

Record peersMsgData := mkPeers {
  pm_Peers : list peerAddr; pm_Timeout : Z; pm_timeout : option Z; pm_Key : option Key; pm_Id : Z }.

Record syncRequestMsgData := mkSyncMsg { sm_SyncState : option syncState }.
Record deliveryRequestMsgData := mkDelivery { dm_Deliver : list syncRequest }.
Record unsyncedKeysMsgData := mkUnsynced { um_Unsynced : list syncRequest; um_State : syncState }.
Record paymentMsgData := mkPayment { py_Units : Z; py_Promise : bytes }.

#[export] Instance syncRequest_eq_dec : EqDecision syncRequest.
Proof. solve_decision. Defined.
#[export] Instance storeRequestMsgData_eq_dec : EqDecision storeRequestMsgData.
Proof. solve_decision. Defined.
#[export] Instance retrieveRequestMsgData_eq_dec : EqDecision retrieveRequestMsgData.
Proof. solve_decision. Defined.

Inductive Msg :=
| MStatus (m : statusMsgData)
| MStore (m : storeRequestMsgData)
| MRetrieve (m : retrieveRequestMsgData)
| MPeers (m : peersMsgData)
| MSync (m : syncRequestMsgData)
| MDelivery (m : deliveryRequestMsgData)
| MUnsynced (m : unsyncedKeysMsgData)
| MPayment (m : paymentMsgData)
| MStream (m : streamRequestMsgData)
| MStop (m : stopStreamRequestMsgData)
| MTranscode (m : transcodeRequestMsgData)
| MAck (m : transcodeAckMsgData).

(** The code each message is sent with. *)
Definition Msg_code (m : Msg) : Z :=
  match m with
  | MStatus _ => statusMsg
  | MStore _ => storeRequestMsg
  | MRetrieve _ => retrieveRequestMsg
  | MPeers _ => peersMsg
  | MSync _ => syncRequestMsg
  | MDelivery _ => deliveryRequestMsg
  | MUnsynced _ => unsyncedKeysMsg
  | MPayment _ => paymentMsg
  | MStream _ => streamRequestMsg
  | MStop _ => stopStreamRequestMsg
  | MTranscode _ => transcodeRequestMsg
  | MAck _ => transcodeAckMsg
  end.

(** ** Retrieve requests *)

Definition isLookup (self : retrieveRequestMsgData) : bool := rr_Id self =? 0.

(** The receiver is a copy: the message of the caller comes back as it was. *)
Definition retrieve_setTimeout (self : retrieveRequestMsgData) (t : option Z) : retrieveRequestMsgData :=
  let copy :=
    {| rr_Key := rr_Key self; rr_Id := rr_Id self; rr_MaxSize := rr_MaxSize self; rr_MaxPeers := rr_MaxPeers self;
       rr_Timeout := match t with Some n => u64 n | None => 0 end; rr_timeout := t; rr_from := rr_from self |} in
  let _ := copy in self.

(** [time.Unix(int64(self.Timeout), 0)] counts seconds. *)
Definition retrieve_getTimeout (self : retrieveRequestMsgData) : option Z :=
  if (0 <? rr_Timeout self) && bool_decide (rr_timeout self = None)
  then Some (i64 (rr_Timeout self) * 1000000000) else None.

Definition peers_setTimeout (self : peersMsgData) (t : option Z) : peersMsgData :=
  let copy :=
    {| pm_Peers := pm_Peers self; pm_Timeout := match t with Some n => u64 n | None => 0 end;
       pm_timeout := t; pm_Key := pm_Key self; pm_Id := pm_Id self |} in
  let _ := copy in self.

Definition peers_getTimeout (self : peersMsgData) : option Z :=
  if (0 <? pm_Timeout self) && bool_decide (pm_timeout self = None)
  then Some (i64 (pm_Timeout self) * 1000000000) else None.

(** ** Messages of a peer muxer

    [gob] stands for [streaming.VideoChunkToByteArr], which encodes with
    encoding/gob; [parse_seconds] for [time.ParseDuration] of ["%vs"]. *)
Record VideoChunk := mkVideoChunk {
  vc_ID : Z; vc_Seq : Z; vc_Header : option bytes; vc_Packet : option bytes;
  vc_SegData : option bytes; vc_SegName : bytes; vc_Duration : Z; vc_M3U8 : option bytes }.

Definition plain_chunk (id : Z) : VideoChunk :=
  {| vc_ID := id; vc_Seq := 0; vc_Header := None; vc_Packet := None; vc_SegData := None;
     vc_SegName := []; vc_Duration := 0; vc_M3U8 := None |}.

Section Muxer.
Context (gob : VideoChunk -> bytes) (parse_seconds : Z -> Z).
Context (originNode : Hash32) (streamID : bytes).

Definition mux_message (format : option VideoFormat) (id : Z) (chunk : VideoChunk) : streamRequestMsgData :=
  {| sr_OriginNode := originNode; sr_StreamID := streamID; sr_Format := format; sr_SData := gob chunk; sr_Id := id |}.

Definition WriteSegment (seqNo : Z) (name : bytes) (duration : Z) (s : option bytes) : streamRequestMsgData :=
  mux_message None DeliverStreamMsgID
    {| vc_ID := DeliverStreamMsgID; vc_Seq := seqNo; vc_Header := None; vc_Packet := None; vc_SegData := s;
       vc_SegName := name; vc_Duration := parse_seconds duration; vc_M3U8 := None |}.

Definition WriteHeader (header : option bytes) : streamRequestMsgData :=
  mux_message None DeliverStreamMsgID
    {| vc_ID := DeliverStreamMsgID; vc_Seq := 0; vc_Header := header; vc_Packet := None; vc_SegData := None;
       vc_SegName := []; vc_Duration := 0; vc_M3U8 := None |}.

Definition WritePacket (pkt : option bytes) : streamRequestMsgData :=
  mux_message None DeliverStreamMsgID
    {| vc_ID := DeliverStreamMsgID; vc_Seq := 0; vc_Header := None; vc_Packet := pkt; vc_SegData := None;
       vc_SegName := []; vc_Duration := 0; vc_M3U8 := None |}.

Definition WriteTrailer : streamRequestMsgData :=
  mux_message (Some RTMP) EOFStreamMsgID (plain_chunk EOFStreamMsgID).
End Muxer.

(** ** The table of requesters *)
Record StreamDB := mkStreamDB {
  DownstreamRequesters : gmap StreamID (list peer);
  UpstreamTranscodeRequesters : gmap StreamID peer;
  TranscodedStreams : gmap StreamID (list transcodedStreamData)
}.

Definition NewStreamDB : StreamDB :=
  {| DownstreamRequesters := ∅; UpstreamTranscodeRequesters := ∅; TranscodedStreams := ∅ |}.

Definition AddDownstreamPeer (self : StreamDB) (streamID : StreamID) (p : peer) : StreamDB :=
  {| DownstreamRequesters :=
       <[streamID := default [] (DownstreamRequesters self !! streamID) ++ [p]]> (DownstreamRequesters self);
     UpstreamTranscodeRequesters := UpstreamTranscodeRequesters self;
     TranscodedStreams := TranscodedStreams self |}.

(** The last index whose peer has the address, or [-1]. *)
Fixpoint find_last (addr : peer -> Address) (p : peer) (peers : list peer) (pi removei : Z) : Z :=
  match peers with
  | [] => removei
  | q :: peers' =>
    find_last addr p peers' (pi + 1)
      (if bool_decide (hex_encode (addr p) = hex_encode (addr q)) then pi else removei)
  end.

Definition RemoveDownstreamPeer (addr : peer -> Address) (self : StreamDB) (streamID : StreamID) (p : peer) : StreamDB :=
  let peers := default [] (DownstreamRequesters self !! streamID) in
  let removei := find_last addr p peers 0 (-1) in
  if -1 <? removei then
    match peers !! (length peers - 1)%nat with
    | None => self
    | Some l =>
      let peers := <[Z.to_nat removei := l]> peers in
      {| DownstreamRequesters := <[streamID := take (length peers - 1) peers]> (DownstreamRequesters self);
         UpstreamTranscodeRequesters := UpstreamTranscodeRequesters self;
         TranscodedStreams := TranscodedStreams self |}
    end
  else self.

Definition AddUpstreamTranscodeRequester (self : StreamDB) (transcodeID : StreamID) (p : peer) : StreamDB :=
  {| DownstreamRequesters := DownstreamRequesters self;
     UpstreamTranscodeRequesters := <[transcodeID := p]> (UpstreamTranscodeRequesters self);
     TranscodedStreams := TranscodedStreams self |}.

Definition AddTranscodedStream (self : StreamDB) (originalStreamID : StreamID) (ts : transcodedStreamData) : StreamDB :=
  {| DownstreamRequesters := DownstreamRequesters self;
     UpstreamTranscodeRequesters := UpstreamTranscodeRequesters self;
     TranscodedStreams :=
       <[originalStreamID := default [] (TranscodedStreams self !! originalStreamID) ++ [ts]]> (TranscodedStreams self) |}.

(** ** Lemmas: removal from the table *)

Lemma hex_encode_inj a b : Forall is_byte a -> Forall is_byte b -> hex_encode a = hex_encode b -> a = b.
Proof.
  intros Ha Hb H. apply (f_equal hex_decode) in H. rewrite !hex_decode_encode in H by done. congruence.
Qed.

Lemma find_last_spec addr p peers pi r :
  (find_last addr p peers pi r = r /\ Forall (fun q => hex_encode (addr p) <> hex_encode (addr q)) peers) \/
  (exists i q, peers !! i = Some q /\ find_last addr p peers pi r = pi + Z.of_nat i /\
     hex_encode (addr p) = hex_encode (addr q)).
Proof.
  revert pi r. induction peers as [|q peers IH]; intros pi r; cbn [find_last]; [left; by split|].
  destruct (IH (pi + 1) (if bool_decide (hex_encode (addr p) = hex_encode (addr q)) then pi else r))
    as [[E HF]|(i & q' & Hi & E & Hq)].
  - case_bool_decide as Hpq.
    + right. exists 0%nat, q. split_and!; [done|lia|done].
    + left. split; [done|]. by constructor.
  - right. exists (S i), q'. split_and!; [done|lia|done].
Qed.

(** Overwriting an element by the last one and cutting the end drops that element. *)
Lemma swap_last_perm (l : list peer) i x y :
  l !! i = Some x -> l !! (length l - 1)%nat = Some y ->
  x :: take (length l - 1) (<[i := y]> l) ≡ₚ l.
Proof.
  destruct (rev l) as [|z r] eqn:Hr.
  { apply (f_equal (@rev peer)) in Hr. rewrite rev_involutive in Hr. by subst. }
  apply (f_equal (@rev peer)) in Hr. rewrite rev_involutive in Hr. cbn [rev] in Hr.
  set (k := rev r) in *. clearbody k. subst l. rewrite length_app. cbn [length].
  replace (length k + 1 - 1)%nat with (length k) by lia.
  rewrite (list_lookup_middle k [] z (length k)) by done. intros Hi [= <-].
  destruct (decide (i = length k)) as [-> |Hne].
  - rewrite list_lookup_middle in Hi by done. injection Hi as <-.
    rewrite insert_app_r_alt by lia. rewrite Nat.sub_diag. cbn. rewrite take_app_length. solve_Permutation.
  - apply lookup_lt_Some in Hi as Hlt. rewrite length_app in Hlt. cbn in Hlt.
    rewrite lookup_app_l in Hi by lia. rewrite insert_app_l by lia.
    rewrite <- (length_insert k i z), take_app_length.
    rewrite insert_take_drop by lia. rewrite <- (take_drop_middle k i x Hi) at 3. solve_Permutation.
Qed.

(** Removing a downstream peer drops exactly one requester with that address
    and keeps all others; without such a requester the table is as before. *)
Theorem RemoveDownstreamPeer_removes_one addr db id p :
  (forall q, Forall is_byte (addr q)) ->
  let before := default [] (DownstreamRequesters db !! id) in
  let after := default [] (DownstreamRequesters (RemoveDownstreamPeer addr db id p) !! id) in
  (exists q, addr q = addr p /\ q :: after ≡ₚ before) \/
  (RemoveDownstreamPeer addr db id p = db /\ Forall (fun q => addr q <> addr p) before).
Proof.
  intros Hbytes before after. subst after. unfold RemoveDownstreamPeer. fold before.
  destruct (find_last_spec addr p before 0 (-1)) as [[E HF]|(i & q & Hi & E & Hq)]; rewrite E.
  - right. split; [done|]. eapply Forall_impl; [exact HF|]. intros q Hne Heq. apply Hne. by f_equal.
  - left. exists q. split; [symmetry; by apply hex_encode_inj|].
    destruct (Z.ltb_spec (-1) (0 + Z.of_nat i)); [|lia].
    apply lookup_lt_Some in Hi as Hlt.
    destruct (lookup_lt_is_Some_2 before (length before - 1)) as [l Hl]; [lia|]. rewrite Hl.
    cbn [DownstreamRequesters]. rewrite lookup_insert_eq. cbn [default]. rewrite length_insert.
    replace (Z.to_nat (0 + Z.of_nat i)) with i by lia. by apply swap_last_perm.
Qed.

Definition addr1 (p : peer) : Address := [Z.of_nat (p mod 256)].
Definition two_requesters : StreamDB := AddDownstreamPeer (AddDownstreamPeer NewStreamDB [] 1%nat) [] 2%nat.

Lemma RemoveDownstreamPeer_removes_one_witness :
  default [] (DownstreamRequesters (RemoveDownstreamPeer addr1 two_requesters [] 1%nat) !! []) = [2%nat] /\
  ((exists q, addr1 q = addr1 1%nat /\
     q :: default [] (DownstreamRequesters (RemoveDownstreamPeer addr1 two_requesters [] 1%nat) !! [])
       ≡ₚ default [] (DownstreamRequesters two_requesters !! [])) \/
   (RemoveDownstreamPeer addr1 two_requesters [] 1%nat = two_requesters /\
     Forall (fun q => addr1 q <> addr1 1%nat) (default [] (DownstreamRequesters two_requesters !! [])))).
Proof.
  split; [vm_compute; reflexivity|]. apply (RemoveDownstreamPeer_removes_one addr1 two_requesters [] 1%nat).
  intros q. constructor; [|constructor]. unfold is_byte.
  pose proof (Nat.mod_upper_bound q 256). lia.
Defined.
