(* ===== verification/SyncDb.v ===== *)
(** The delivery queue of a peer and priority ([livepeer/network/syncdb.go]):
    an in-memory buffer that spills into the request database shared by all
    peers, and the reader that replays the database.

    [bufferRead] is the state machine [bufferRead_step]: its state holds the
    channel of the queue and the local variables of the loop, an event is the case
    the select takes. [dbRead] is a loop with fuel; the batch sizes it gets from
    [bufferRead] are a list, whose end is the quit signal. The theorems: database
    keys keep the order of requests and are disjoint between queues, a shutdown
    saves the whole backlog in order; a failed delivery shuts the queue down, a
    replay takes the entries of other queues as well, and never ends once an entry
    cannot be delivered. *)
From stdpp Require Import base gmap list strings sorting.
From Stdlib Require Import ZArith Lia.
From S2P Require Import Prelude Types Database Messages.

Definition counterKeyPrefix : Z := 1.

(** ** Requests: what the [interface{}] of a queue may hold *)
Inductive request :=
| RKey (k : Key)
| REntry (key val : bytes)              (* a [*syncDbEntry] *)
| RChunk (c : Chunk)
| RStore (m : storeRequestMsgData)
| ROther.

#[export] Instance request_eq_dec : EqDecision request.
Proof. solve_decision. Defined.

(** Priorities. *)
Definition Low : Z := 0.
Definition Medium : Z := 1.
Definition High : Z := 2.
Definition priorities : Z := 3.

(** ** The queue object *)
Record syncDb := mkSyncDb {
  sd_start : bytes;
  sd_key : Key;
  sd_counterKey : bytes;
  sd_priority : Z;
  sd_bufferSize : nat;
  sd_dbBatchSize : Z
}.

Definition newSyncDb (key : Key) (priority : Z) (bufferSize : nat) (dbBatchSize : Z) : syncDb :=
  let start := <[1%nat := u8 (priorities - priority)]> (make_bytes 42) in
  let start := copy_at start 2 (take 32 key) in
  let counterKey := <[0%nat := counterKeyPrefix]> (make_bytes 34) in
  let counterKey := copy_at counterKey 1 (take 33 (drop 1 start)) in
  {| sd_start := start; sd_key := key; sd_counterKey := counterKey; sd_priority := priority;
     sd_bufferSize := bufferSize; sd_dbBatchSize := dbBatchSize |}.

(** The key of an entry: 34 bytes of the queue and the counter. *)
Definition entry_key (self : syncDb) (counter : Z) : bytes :=
  copy_at (copy_at (make_bytes 42) 0 (take 34 (sd_start self))) 34 (be64 counter).
Definition entry_val (key : Key) (id : Z) : bytes := copy_at (copy_at (make_bytes 40) 0 key) 32 (be64 id).

(** [gen] is the random id drawn for a request without one; [None] is the type error. *)
Definition newSyncDbEntry (self : syncDb) (req : request) (counter gen : Z) : option (bytes * bytes) :=
  match req with
  | RKey key => Some (entry_key self counter, entry_val key gen)
  | RChunk c => Some (entry_key self counter, entry_val (ck_Key c) gen)
  | RStore m => Some (entry_key self counter, entry_val (so_Key m) (so_Id m))
  | REntry key val => Some (key, val)
  | ROther => None
  end.

Section Queue.
Context {D : Type} `{LevelDB D}.
Context (rle_decompress : bytes -> option bytes).
(** The id drawn for the entry with a given counter. *)
Context (generateId : Z -> Z).

(** ** bufferRead *)

Record bufstate := mkBuf {
  bs_db : LDBDatabase D;
  bs_chan : list request;        (* the items in [self.buffer] *)
  bs_closed : bool;              (* [self.buffer] is closed *)
  bs_buffer : bool;              (* local [buffer] is not nil *)
  bs_dbmode : bool;              (* local [db] is not nil *)
  bs_quit : bool;                (* local [quit] is not nil *)
  bs_batch : list batch_op;
  bs_counter : Z;
  bs_inBatch : Z;
  bs_inDb : Z;
  bs_total : Z;
  bs_dbTotal : Z;
  bs_readers : list Z;           (* counters of the [dbRead] routines started *)
  bs_done : bool
}.

Inductive bufevent :=
| EPush (r : request)                            (* a sender on [self.buffer] *)
| EBuffer (ok : bool) (arrived : list request)   (* [req = <-buffer]; what came in while it was delivered *)
| EDb                                            (* [req, more = <-db] *)
| EBatch                                         (* [dbSize = <-self.batch] *)
| EQuit.                                         (* [<-quit] *)

(** What a step does: the case cannot be taken now, it panics, or it continues,
    with the number sent to the requester of a batch. *)
Inductive bufres := BBlocked | BPanic | BNext (s : bufstate) (reply : option Z).

(** The counter of the database, zero when there is none; fewer than 8 bytes panic. *)
Definition start_counter (self : syncDb) (db : LDBDatabase D) : option Z :=
  match LDB_Get rle_decompress db (sd_counterKey self) with
  | None => Some 0
  | Some data => if #data <? 8 then None else Some (be64_val data)
  end.

Definition bufferRead_init (db : LDBDatabase D) (counter : Z) : bufstate :=
  {| bs_db := db; bs_chan := []; bs_closed := false; bs_buffer := false; bs_dbmode := false; bs_quit := true;
     bs_batch := []; bs_counter := counter; bs_inBatch := 0; bs_inDb := 0; bs_total := 0; bs_dbTotal := 0;
     bs_readers := []; bs_done := false |}.

Definition writeSyncBatch (db : LDBDatabase D) (batch : list batch_op) : LDBDatabase D * list batch_op :=
  let '(db, err) := LDB_Write db batch in
  (db, if err : bool then batch else []).

(** The end of the loop body: the item goes into the batch. *)
Definition save_request (self : syncDb) (s : bufstate) (req : request) : bufres :=
  match newSyncDbEntry self req (bs_counter s) (generateId (bs_counter s)) with
  | None => BNext s None
  | Some (k, v) =>
    let batch := bs_batch s ++ [BPut k v] in
    let readers := if (bs_inDb s =? 0) && bs_quit s then bs_readers s ++ [bs_counter s] else bs_readers s in
    let inBatch := bs_inBatch s + 1 in
    if sd_dbBatchSize self =? 0 then BPanic
    else
      let '(db, batch) :=
        if Z.rem inBatch (sd_dbBatchSize self) =? 0 then writeSyncBatch (bs_db s) batch else (bs_db s, batch) in
      BNext {| bs_db := db; bs_chan := bs_chan s; bs_closed := bs_closed s; bs_buffer := bs_buffer s;
               bs_dbmode := bs_dbmode s; bs_quit := bs_quit s; bs_batch := batch;
               bs_counter := u64 (bs_counter s + 1); bs_inBatch := inBatch; bs_inDb := bs_inDb s + 1;
               bs_total := bs_total s; bs_dbTotal := bs_dbTotal s; bs_readers := readers; bs_done := false |} None
  end.

(** The five cases of the select. *)
Definition step_push (self : syncDb) (s : bufstate) (r : request) : bufres :=
  if bs_closed s then BPanic
  else if Nat.ltb (length (bs_chan s)) (sd_bufferSize self) then
    BNext {| bs_db := bs_db s; bs_chan := bs_chan s ++ [r]; bs_closed := bs_closed s; bs_buffer := bs_buffer s;
             bs_dbmode := bs_dbmode s; bs_quit := bs_quit s; bs_batch := bs_batch s; bs_counter := bs_counter s;
             bs_inBatch := bs_inBatch s; bs_inDb := bs_inDb s; bs_total := bs_total s; bs_dbTotal := bs_dbTotal s;
             bs_readers := bs_readers s; bs_done := bs_done s |} None
  else BBlocked.

Definition step_buffer (self : syncDb) (s : bufstate) (ok : bool) (arrived : list request) : bufres :=
  match bs_buffer s, bs_chan s with
  | true, req :: chan =>
    let chan := chan ++ arrived in
    if negb ok then
      (* treated as the quit signal: the buffer is closed, the item is saved *)
      save_request self
        {| bs_db := bs_db s; bs_chan := chan; bs_closed := true; bs_buffer := false; bs_dbmode := true;
           bs_quit := false; bs_batch := bs_batch s; bs_counter := bs_counter s; bs_inBatch := bs_inBatch s;
           bs_inDb := bs_inDb s; bs_total := bs_total s; bs_dbTotal := bs_dbTotal s;
           bs_readers := bs_readers s; bs_done := false |} req
    else
      let full := Nat.eqb (length chan) (sd_bufferSize self) in
      BNext {| bs_db := bs_db s; bs_chan := chan; bs_closed := bs_closed s; bs_buffer := negb full;
               bs_dbmode := if full then true else bs_dbmode s; bs_quit := bs_quit s; bs_batch := bs_batch s;
               bs_counter := bs_counter s; bs_inBatch := bs_inBatch s; bs_inDb := bs_inDb s;
               bs_total := bs_total s + 1; bs_dbTotal := bs_dbTotal s; bs_readers := bs_readers s;
               bs_done := false |} None
  | _, _ => BBlocked
  end.

Definition step_db (self : syncDb) (s : bufstate) : bufres :=
  match bs_dbmode s, bs_chan s with
  | true, req :: chan =>
    save_request self
      {| bs_db := bs_db s; bs_chan := chan; bs_closed := bs_closed s; bs_buffer := bs_buffer s; bs_dbmode := true;
         bs_quit := bs_quit s; bs_batch := bs_batch s; bs_counter := bs_counter s; bs_inBatch := bs_inBatch s;
         bs_inDb := bs_inDb s; bs_total := bs_total s + 1; bs_dbTotal := bs_dbTotal s + 1;
         bs_readers := bs_readers s; bs_done := false |} req
  | true, [] =>
    if bs_closed s then
      let '(db, batch) :=
        writeSyncBatch (bs_db s) (bs_batch s ++ [BPut (sd_counterKey self) (be64 (bs_counter s))]) in
      BNext {| bs_db := db; bs_chan := []; bs_closed := true; bs_buffer := bs_buffer s; bs_dbmode := true;
               bs_quit := bs_quit s; bs_batch := batch; bs_counter := bs_counter s; bs_inBatch := bs_inBatch s;
               bs_inDb := bs_inDb s; bs_total := bs_total s; bs_dbTotal := bs_dbTotal s;
               bs_readers := bs_readers s; bs_done := true |} None
    else BBlocked
  | false, _ => BBlocked
  end.

Definition step_batch (self : syncDb) (s : bufstate) : bufres :=
  if (bs_inBatch s =? 0) && bs_quit s then
    BNext {| bs_db := bs_db s; bs_chan := bs_chan s; bs_closed := bs_closed s; bs_buffer := true;
             bs_dbmode := false; bs_quit := bs_quit s; bs_batch := bs_batch s; bs_counter := bs_counter s;
             bs_inBatch := bs_inBatch s; bs_inDb := 0; bs_total := bs_total s; bs_dbTotal := bs_dbTotal s;
             bs_readers := bs_readers s; bs_done := false |} (Some 0)
  else
    let '(db, batch) :=
      writeSyncBatch (bs_db s) (bs_batch s ++ [BPut (sd_counterKey self) (be64 (bs_counter s))]) in
    BNext {| bs_db := db; bs_chan := bs_chan s; bs_closed := bs_closed s; bs_buffer := bs_buffer s;
             bs_dbmode := bs_dbmode s; bs_quit := bs_quit s; bs_batch := batch; bs_counter := bs_counter s;
             bs_inBatch := 0; bs_inDb := bs_inDb s; bs_total := bs_total s; bs_dbTotal := bs_dbTotal s;
             bs_readers := bs_readers s; bs_done := false |} (Some (bs_inBatch s)).

Definition step_quit (s : bufstate) : bufres :=
  if bs_quit s then
    if bs_closed s then BPanic
    else
      BNext {| bs_db := bs_db s; bs_chan := bs_chan s; bs_closed := true; bs_buffer := false; bs_dbmode := true;
               bs_quit := false; bs_batch := bs_batch s; bs_counter := bs_counter s; bs_inBatch := bs_inBatch s;
               bs_inDb := bs_inDb s; bs_total := bs_total s; bs_dbTotal := bs_dbTotal s;
               bs_readers := bs_readers s; bs_done := false |} None
  else BBlocked.

Definition bufferRead_step (self : syncDb) (s : bufstate) (e : bufevent) : bufres :=
  match e with
  | EPush r => step_push self s r
  | EBuffer ok arrived => if bs_done s then BBlocked else step_buffer self s ok arrived
  | EDb => if bs_done s then BBlocked else step_db self s
  | EBatch => if bs_done s then BBlocked else step_batch self s
  | EQuit => if bs_done s then BBlocked else step_quit s
  end.

(** [n] times the same case. *)
Fixpoint bufferRead_steps (self : syncDb) (s : bufstate) (es : list bufevent) : bufres :=
  match es with
  | [] => BNext s None
  | e :: es =>
    match bufferRead_step self s e with
    | BNext s _ => bufferRead_steps self s es
    | r => r
    end
  end.

(** ** dbRead *)

(** The inner loop over an iterator. At the end of the iterator the key buffer keeps its
    content and the value is empty. The result: key buffer, mode, deletions, items passed
    to [fun]; [None] when the fuel is used up. *)
Fixpoint dbRead_iter (fuel : nat) (self : syncDb) (fun_ : request -> bool) (it : list (bytes * bytes))
    (useBatches : bool) (cnt n : Z) (key : bytes) (del : list batch_op) (out : list request)
  : option (bytes * bool * list batch_op * list request) :=
  if useBatches && negb (n <? cnt) then Some (key, useBatches, del, out)
  else match fuel with
  | O => None
  | S fuel =>
    let '(ik, iv) := match it with [] => ([], []) | p :: _ => p end in
    let key := copy_at key 0 ik in
    if (#key =? 0) || negb (bool_decide (head key = Some 0)) then
      Some (copy_at key 0 (sd_start self), true, del, out)
    else
      let val := copy_at (make_bytes 40) 0 iv in
      let entry := REntry key val in
      if fun_ entry
      then dbRead_iter fuel self fun_ (tail it) useBatches cnt (n + 1) key (del ++ [BDelete key]) (out ++ [entry])
      else Some (key, useBatches, del, out ++ [entry])
  end.

(** The outer loop. [cnts] are the batch sizes [bufferRead] answers with. *)
Fixpoint dbRead_loop (fuel : nat) (self : syncDb) (fun_ : request -> bool) (useBatches : bool) (key : bytes)
    (cnts : list Z) (db : LDBDatabase D) (out : list request) : option (LDBDatabase D * list request) :=
  match fuel with
  | O => None
  | S fuel' =>
    let round cnt cnts :=
      let it := it_Seek (LDB_NewIterator db) key in
      match it with
      | [] => dbRead_loop fuel' self fun_ true (copy_at key 0 (sd_start self)) cnts db out
      | _ =>
        match dbRead_iter fuel self fun_ it useBatches cnt 0 key [] out with
        | None => None
        | Some (key, useBatches, del, out) =>
          dbRead_loop fuel' self fun_ useBatches key cnts (fst (LDB_Write db del)) out
        end
      end in
    if useBatches then
      match cnts with
      | [] => Some (db, out)                       (* quit *)
      | cnt :: cnts => if cnt =? 0 then Some (db, out) else round cnt cnts
      end
    else round 0 cnts
  end.

Definition dbRead (fuel : nat) (self : syncDb) (useBatches : bool) (counter : Z) (fun_ : request -> bool)
    (cnts : list Z) (db : LDBDatabase D) : option (LDBDatabase D * list request) :=
  let key := copy_at (make_bytes 42) 0 (sd_start self) in
  let key := copy_at key 34 (be64 counter) in
  dbRead_loop fuel self fun_ useBatches key cnts db [].
End Queue.

(** ** Lemmas: key layout *)

Lemma newSyncDb_start key p n b :
  length key = 32%nat -> sd_start (newSyncDb key p n b) = [0; u8 (priorities - p)] ++ key ++ replicate 8 0.
Proof.
  intros Hlen. unfold newSyncDb. cbn [sd_start]. rewrite take_ge by lia.
  change (<[1%nat := u8 (priorities - p)]> (make_bytes 42))
    with ([0; u8 (priorities - p)] ++ replicate 32 0 ++ replicate 8 0).
  apply (copy_at_fit [0; u8 (priorities - p)] (replicate 32 0) (replicate 8 0) key).
  by rewrite length_replicate.
Qed.

Lemma newSyncDb_counterKey key p n b :
  length key = 32%nat -> sd_counterKey (newSyncDb key p n b) = [1; u8 (priorities - p)] ++ key.
Proof.
  intros Hlen. pose proof (newSyncDb_start key p n b Hlen) as Hs.
  unfold newSyncDb in *. cbn [sd_start sd_counterKey] in *. rewrite Hs.
  change (drop 1 ([0; u8 (priorities - p)] ++ key ++ replicate 8 0))
    with (([u8 (priorities - p)] ++ key) ++ replicate 8 0).
  rewrite take_app_ge by (rewrite length_app; cbn; lia).
  rewrite length_app, Hlen. cbn [length Nat.sub Nat.add take]. rewrite app_nil_r.
  change (<[0%nat := counterKeyPrefix]> (make_bytes 34)) with ([1] ++ replicate 33 0 ++ []).
  rewrite (copy_at_fit [1] (replicate 33 0) []); [by rewrite app_nil_r|].
  rewrite length_replicate, length_app, Hlen. done.
Qed.

Lemma entry_key_layout key p n b c :
  length key = 32%nat -> entry_key (newSyncDb key p n b) c = [0; u8 (priorities - p)] ++ key ++ be64 c.
Proof.
  intros Hlen. unfold entry_key. rewrite newSyncDb_start by done.
  set (q := u8 (priorities - p)). clearbody q.
  replace (take 34 ([0; q] ++ key ++ replicate 8 0)) with ([0; q] ++ key).
  2:{ rewrite app_assoc, take_app_ge by (rewrite length_app; cbn; lia).
      rewrite length_app, Hlen. cbn [length Nat.sub Nat.add take]. by rewrite app_nil_r. }
  change (make_bytes 42) with (replicate 34 0 ++ replicate 8 0).
  rewrite copy_at_front by (rewrite length_replicate, length_app, Hlen; done).
  rewrite copy_at_back; [by rewrite app_assoc|rewrite length_app, Hlen; done|].
  by rewrite length_be64, length_replicate.
Qed.

Lemma entry_val_layout key id : length key = 32%nat -> entry_val key id = key ++ be64 id.
Proof.
  intros Hlen. unfold entry_val. change (make_bytes 40) with (replicate 32 0 ++ replicate 8 0).
  rewrite copy_at_front by (by rewrite length_replicate).
  rewrite copy_at_back; [done|done|]. by rewrite length_be64, length_replicate.
Qed.

Lemma bytes_compare_app a b c d :
  length a = length b ->
  bytes_compare (a ++ c) (b ++ d) = match bytes_compare a b with Eq => bytes_compare c d | r => r end.
Proof.
  revert b. induction a as [|x a IH]; intros [|y b] Hlen; cbn in *; try lia; [done|].
  destruct (x ?= y); [|done|done]. apply IH. lia.
Qed.

(** Big endian numbers compare like the numbers. *)
Lemma be_compare n a b :
  0 <= a < 2 ^ (8 * Z.of_nat n) -> 0 <= b < 2 ^ (8 * Z.of_nat n) ->
  bytes_compare (rev (le_bytes n a)) (rev (le_bytes n b)) = (a ?= b).
Proof.
  revert a b. induction n as [|n IH]; intros a b Ha Hb.
  { cbn in *. assert (a = b) as -> by lia. by rewrite Z.compare_refl. }
  assert (E : 2 ^ (8 * Z.of_nat (S n)) = 256 * 2 ^ (8 * Z.of_nat n)).
  { replace (8 * Z.of_nat (S n)) with (8 + 8 * Z.of_nat n) by lia. by rewrite Z.pow_add_r by lia. }
  rewrite E in *. cbn [le_bytes rev].
  rewrite bytes_compare_app by (by rewrite !length_rev, !length_le_bytes).
  assert (Hdiv : forall z, 0 <= z < 256 * 2 ^ (8 * Z.of_nat n) -> 0 <= z / 256 < 2 ^ (8 * Z.of_nat n)).
  { intros z Hz. split; [apply Z.div_pos; lia|apply Z.div_lt_upper_bound; lia]. }
  rewrite IH by auto. cbn [bytes_compare].
  pose proof (Z.div_mod a 256 ltac:(lia)). pose proof (Z.div_mod b 256 ltac:(lia)).
  pose proof (Z.mod_pos_bound a 256 ltac:(lia)). pose proof (Z.mod_pos_bound b 256 ltac:(lia)).
  destruct (Z.compare_spec (a / 256) (b / 256)); destruct (Z.compare_spec a b); try lia; try done.
  all: destruct (Z.compare_spec (a mod 256) (b mod 256)); try lia; done.
Qed.

Lemma be64_compare a b : is_u64 a -> is_u64 b -> bytes_compare (be64 a) (be64 b) = (a ?= b).
Proof. unfold is_u64. intros. apply be_compare; lia. Qed.

(** The database keys of one queue are ordered like its counters, and the keys
    of queues of different peers or priorities are never equal, nor equal to a
    counter key. *)
Theorem entry_keys_ordered_disjoint k1 k2 p1 p2 n b c1 c2 :
  length k1 = 32%nat -> length k2 = 32%nat -> 0 <= p1 < priorities -> 0 <= p2 < priorities ->
  is_u64 c1 -> is_u64 c2 ->
  let q1 := newSyncDb k1 p1 n b in
  let q2 := newSyncDb k2 p2 n b in
  bytes_compare (entry_key q1 c1) (entry_key q1 c2) = (c1 ?= c2) /\
  ((k1, p1) <> (k2, p2) -> entry_key q1 c1 <> entry_key q2 c2 /\ sd_counterKey q1 <> sd_counterKey q2) /\
  entry_key q1 c1 <> sd_counterKey q2.
Proof.
  intros H1 H2 Hp1 Hp2 Hc1 Hc2 q1 q2. subst q1 q2. unfold priorities in Hp1, Hp2.
  rewrite !entry_key_layout, !newSyncDb_counterKey by done.
  assert (Hu : forall p, 0 <= p < 3 -> u8 (priorities - p) = 3 - p).
  { intros p Hp. unfold u8, priorities. rewrite Z.mod_small; lia. }
  split_and!.
  - rewrite bytes_compare_app by done. rewrite bytes_compare_refl.
    rewrite bytes_compare_app by done. rewrite bytes_compare_refl. by apply be64_compare.
  - intros Hne. rewrite !Hu by done. split.
    + intros [= Hp Ht]. apply app_inj_1 in Ht as [Hk _]; [|lia]. apply Hne. f_equal; [done|lia].
    + intros [= Hp Hk]. apply Hne. f_equal; [done|lia].
  - intros [=].
Qed.

Lemma entry_keys_ordered_disjoint_witness :
  bytes_compare (entry_key (newSyncDb ZeroKey Low 4 4) 3) (entry_key (newSyncDb ZeroKey Low 4 4) 4) = Lt /\
  entry_key (newSyncDb ZeroKey Low 4 4) 3 <> entry_key (newSyncDb ZeroKey High 4 4) 4.
Proof.
  destruct (entry_keys_ordered_disjoint ZeroKey ZeroKey Low High 4 4 3 4) as (Ho & Hd & _);
    try (unfold Low, High, priorities, is_u64; (reflexivity || lia)).
  split; [exact Ho|]. apply Hd. unfold Low, High. congruence.
Defined.

(** ** Lemmas: shutdown *)

Lemma apply_batch_app m a b : apply_batch (apply_batch m a) b = apply_batch m (a ++ b).
Proof. unfold apply_batch. by rewrite foldl_app. Qed.

Definition op_key (o : batch_op) : bytes := match o with BPut k _ => k | BDelete k => k end.

Lemma apply_batch_untouched m b k : Forall (fun o => op_key o <> k) b -> apply_batch m b !! k = m !! k.
Proof.
  intros HF. revert m. induction HF as [|o b Ho _ IH]; intros m; [done|].
  cbn. rewrite IH. destruct o; cbn in *; [by rewrite lookup_insert_ne|by rewrite lookup_delete_ne].
Qed.

Lemma apply_batch_last_put m a b k v :
  Forall (fun o => op_key o <> k) b -> apply_batch m (a ++ BPut k v :: b) !! k = Some v.
Proof.
  intros HF. rewrite <- apply_batch_app. cbn. rewrite apply_batch_untouched by done. apply lookup_insert_eq.
Qed.

(** Maps that agree but for one key. *)
Definition same_off (k0 : bytes) (m m' : gmap bytes bytes) : Prop := forall k, k <> k0 -> m !! k = m' !! k.

Lemma same_off_batch k0 m m' b : same_off k0 m m' -> same_off k0 (apply_batch m b) (apply_batch m' b).
Proof.
  revert m m'. induction b as [|o b IH]; intros m m' Hm; [done|]. apply IH. intros k Hk. destruct o; cbn; [rewrite !lookup_insert|rewrite !lookup_delete]; case_decide; auto.
Qed.

(** The writes that save a list of requests from a counter on, and the counter behind them. *)
Fixpoint backlog (generateId : Z -> Z) (self : syncDb) (c : Z) (rs : list request) : list batch_op * Z :=
  match rs with
  | [] => ([], c)
  | r :: rs =>
    match newSyncDbEntry self r c (generateId c) with
    | None => backlog generateId self c rs
    | Some (k, v) =>
      let '(ops, c') := backlog generateId self (u64 (c + 1)) rs in (BPut k v :: ops, c')
    end
  end.

Section Shutdown.
Context {D : Type} `{LevelDBLaws D} (Hhealthy : healthy D) (generateId : Z -> Z) (self : syncDb).

Abbreviation view s := (ldb_view (ldb (bs_db s))).

Lemma LDB_Write_healthy (db : LDBDatabase D) b :
  snd (LDB_Write db b) = false /\ ldb_view (ldb (fst (LDB_Write db b))) = apply_batch (ldb_view (ldb db)) b.
Proof using Type*.
  unfold LDB_Write. pose proof (Hhealthy (ldb db) b) as Hh.
  destruct (ldb_write (ldb db) b) as [d e] eqn:E. cbn in *. subst e. split; [done|]. by eapply ldb_write_ok.
Qed.

Lemma writeSyncBatch_view (db : LDBDatabase D) b :
  snd (writeSyncBatch db b) = [] /\
  ldb_view (ldb (fst (writeSyncBatch db b))) = apply_batch (ldb_view (ldb db)) b.
Proof using Type*.
  unfold writeSyncBatch. destruct (LDB_Write_healthy db b) as [He Hv].
  destruct (LDB_Write db b) as [d e]. cbn in *. by subst e.
Qed.

(** The item is in the database or in the batch. *)
Lemma save_request_view (s : bufstate (D := D)) r :
  sd_dbBatchSize self <> 0 -> bs_done s = false ->
  exists s', save_request generateId self s r = BNext s' None /\
    let ops := backlog generateId self (bs_counter s) [r] in
    apply_batch (view s') (bs_batch s') = apply_batch (view s) (bs_batch s ++ fst ops) /\
    bs_counter s' = snd ops /\ bs_chan s' = bs_chan s /\ bs_closed s' = bs_closed s /\
    bs_dbmode s' = bs_dbmode s /\ bs_quit s' = bs_quit s /\ bs_done s' = false.
Proof using Type*.
  intros Hsz Hdone. unfold save_request, backlog.
  destruct (newSyncDbEntry self r (bs_counter s) (generateId (bs_counter s))) as [[k v]|].
  2:{ exists s. rewrite app_nil_r. split_and!; done. }
  destruct (Z.eqb_spec (sd_dbBatchSize self) 0); [done|].
  destruct (Z.rem (bs_inBatch s + 1) (sd_dbBatchSize self) =? 0).
  - destruct (writeSyncBatch_view (bs_db s) (bs_batch s ++ [BPut k v])) as [Hb Hv].
    destruct (writeSyncBatch (bs_db s) _) as [db b]. cbn in Hb, Hv. subst b.
    eexists. split; [done|]. cbn. split_and!; try done. 
  - eexists. split; [done|]. cbn. split_and!; done.
Qed.

Lemma backlog_cons c r rs :
  backlog generateId self c (r :: rs) =
  (fst (backlog generateId self c [r]) ++ fst (backlog generateId self (snd (backlog generateId self c [r])) rs),
   snd (backlog generateId self (snd (backlog generateId self c [r])) rs)).
Proof using Type.
  cbn. destruct (newSyncDbEntry self r c (generateId c)) as [[k v]|]; cbn.
  - by destruct (backlog generateId self (u64 (c + 1)) rs).
  - by destruct (backlog generateId self c rs).
Qed.

(** The schedules of a loop that was told to quit: its select takes the buffer, which is closed, or the request for a batch, until the buffer is empty. *)
Definition is_db (e : bufevent) : bool := match e with EDb => true | _ => false end.
Definition winds_down (n : nat) (es : list bufevent) : Prop :=
  Forall (fun e => e = EDb \/ e = EBatch) es /\ length (filter (fun e => is_db e = true) es) = S n /\ last es = Some EDb.

Lemma winds_down_replicate n : winds_down n (replicate (S n) EDb).
Proof using Type.
  split_and!.
  - apply Forall_replicate. by left.
  - induction n as [|n IH]; [done|]. cbn [replicate] in *. rewrite filter_cons_True by done. cbn [length]. by rewrite IH.
  - induction n as [|n IH]; [done|]. exact IH.
Qed.

(** Reading the closed buffer to its end, with batches asked for on the way: what is written besides the counter is the backlog. *)
Lemma drain_closed es : forall s : bufstate (D := D),
  sd_dbBatchSize self <> 0 -> bs_done s = false -> bs_dbmode s = true -> bs_closed s = true -> bs_quit s = false -> winds_down (length (bs_chan s)) es ->
  let ops := backlog generateId self (bs_counter s) (bs_chan s) in
  exists s', bufferRead_steps generateId self s es = BNext s' None /\ bs_done s' = true /\ bs_closed s' = true /\
    view s' !! sd_counterKey self = Some (be64 (snd ops)) /\ same_off (sd_counterKey self) (view s') (apply_batch (view s) (bs_batch s ++ fst ops)).
Proof using Type*.
  induction es as [|e es IH]; intros s Hsz Hdone Hdb Hcl Hq (HF & Hn & Hlast) ops; subst ops; [done|].
  apply Forall_cons in HF as [He HF]. cbn [bufferRead_steps].
  destruct (writeSyncBatch_view (bs_db s) (bs_batch s ++ [BPut (sd_counterKey self) (be64 (bs_counter s))])) as [Hb Hv].
  assert (Hcounter : forall m : gmap bytes bytes, same_off (sd_counterKey self) (<[sd_counterKey self := be64 (bs_counter s)]> m) m)
    by (intros m k Hk; by rewrite lookup_insert_ne).
  destruct He as [-> | ->]; cbn [bufferRead_step]; rewrite Hdone.
  - rewrite filter_cons_True in Hn by done. cbn [length] in Hn. unfold step_db. rewrite Hdb. destruct (bs_chan s) as [|r rs] eqn:Hch.
    + rewrite Hcl. destruct (writeSyncBatch (bs_db s) _) as [db b]. cbn in Hb, Hv. subst b.
      assert (es = []) as ->.
      { destruct es as [|e es] using rev_ind; [done|]. exfalso.
        assert (Hl : last (es ++ [e]) = Some EDb) by (destruct (es ++ [e]) eqn:E; [by destruct es|exact Hlast]). rewrite last_snoc in Hl. injection Hl as ->.
        rewrite filter_app, length_app, filter_cons_True in Hn by done. cbn in Hn. lia. }
      eexists. split; [done|]. cbn. split_and!; [done|done|rewrite Hv, <- apply_batch_app; apply lookup_insert_eq|].
      rewrite app_nil_r, Hv, <- apply_batch_app. apply Hcounter.
    + rewrite Hcl. match goal with |- context [save_request generateId self ?x r] => set (s0 := x) end.
      destruct (save_request_view s0 r Hsz eq_refl) as (s1 & E1 & Hv1 & Hc & Hch1 & Hcl1 & Hdb1 & Hq1 & Hd1). rewrite E1.
      destruct (IH s1) as (s' & E' & Hdone' & Hcl' & Hk & Hv'); try done; [by rewrite Hq1| |].
      { subst s0. cbn in Hch1. rewrite Hch1. split_and!; [done|cbn in Hn; lia|]. destruct es; [cbn in Hn; lia|exact Hlast]. }
      exists s'. subst s0. cbn in Hc, Hch1, Hv1. rewrite Hc, Hch1 in *. rewrite backlog_cons. cbn [fst snd]. split_and!; try done.
      intros k Hne. rewrite (Hv' k Hne), <- apply_batch_app, Hv1, apply_batch_app. by rewrite <- !app_assoc.
  - rewrite filter_cons_False in Hn by done. unfold step_batch. rewrite Hq, andb_false_r. destruct (writeSyncBatch (bs_db s) _) as [db b]. cbn in Hb, Hv. subst b.
    match goal with |- context [bufferRead_steps generateId self ?x es] => set (s1 := x) end.
    destruct (IH s1) as (s' & E' & Hdone' & Hcl' & Hk & Hv'); try done.
    { split_and!; [done|exact Hn|]. destruct es; [done|exact Hlast]. }
    exists s'. split_and!; try done. intros k Hne. rewrite (Hv' k Hne). subst s1. cbn [bs_db bs_batch bs_counter bs_chan app]. rewrite Hv, <- !apply_batch_app.
    apply (same_off_batch (sd_counterKey self)); [apply Hcounter|done].
Qed.
End Shutdown.

Lemma apply_batch_deletes m (l : list bytes) k : k ∈ l -> apply_batch m (BDelete <$> l) !! k = None.
Proof.
  revert m. induction l as [|x l IH]; intros m Hk; [by apply not_elem_of_nil in Hk|].
  cbn. destruct (decide (k ∈ l)) as [Hl|Hl]; [by apply IH|].
  apply elem_of_cons in Hk as [<-|Hk]; [|done].
  change (apply_batch (delete k m) (BDelete <$> l) !! k = None).
  rewrite apply_batch_untouched; [apply lookup_delete_eq|].
  apply Forall_fmap, Forall_forall. intros y Hy. cbn. by intros ->.
Qed.

(** What the requests before the [i]th have added to the counter. *)
Definition saved_before (rs : list request) (i : nat) : Z := #(filter (fun r => r <> ROther) (take i rs)).

Lemma saved_before_cons r rs i : saved_before (r :: rs) (S i) = (if decide (r = ROther) then 0 else 1) + saved_before rs i.
Proof. unfold saved_before. cbn [take]. rewrite filter_cons. repeat case_decide; try done. rewrite zlen_cons. lia. Qed.

Lemma saved_before_bound rs i : 0 <= saved_before rs i <= #rs.
Proof.
  unfold saved_before, zlen. pose proof (length_filter (fun r => r <> ROther) (take i rs)) as Hf. rewrite length_take in Hf. lia.
Qed.

Section Backlog.
Context (generateId : Z -> Z) (key : Key) (p : Z) (n : nat) (b : Z).
Context (Hkey : length key = 32%nat).
Let self := newSyncDb key p n b.

(** The entry of the [i]th request. *)
Definition entry_at (c : Z) (rs : list request) (i : nat) : option (bytes * bytes) :=
  r ← rs !! i; newSyncDbEntry self r (c + saved_before rs i) (generateId (c + saved_before rs i)).

Lemma entry_at_cons c r rs i : entry_at c (r :: rs) (S i) = entry_at (c + if decide (r = ROther) then 0 else 1) rs i.
Proof using Type. clear Hkey. unfold entry_at. cbn [lookup list_lookup]. rewrite saved_before_cons. by rewrite Z.add_assoc. Qed.

Lemma entry_at_here c r rs : entry_at c (r :: rs) 0 = newSyncDbEntry self r c (generateId c).
Proof using Type. clear Hkey. unfold entry_at, saved_before. cbn. by rewrite Z.add_0_r. Qed.

Lemma newSyncDbEntry_None r c g : newSyncDbEntry self r c g = None <-> r = ROther.
Proof using Type. clear Hkey. by destruct r. Qed.

(** The writes of a backlog are its entries. *)
Lemma backlog_entries rs : forall c, 0 <= c -> c + #rs < 2 ^ 64 ->
  snd (backlog generateId self c rs) = c + saved_before rs (length rs) /\
  Forall (fun o => exists i e, entry_at c rs i = Some e /\ op_key o = fst e) (fst (backlog generateId self c rs)) /\
  forall m i k v, entry_at c rs i = Some (k, v) -> (forall j e, (i < j)%nat -> entry_at c rs j = Some e -> fst e <> k) ->
    apply_batch m (fst (backlog generateId self c rs)) !! k = Some v.
Proof using Type.
  clear Hkey. induction rs as [|r rs IH]; intros c Hc Hb.
  { split_and!; [symmetry; apply Z.add_0_r|constructor|by intros m i k v [=]]. }
  rewrite zlen_cons in Hb. pose proof (zlen_nonneg rs). set (c1 := c + if decide (r = ROther) then 0 else 1).
  assert (Hbl : backlog generateId self c (r :: rs) =
    (fst (backlog generateId self c [r]) ++ fst (backlog generateId self c1 rs), snd (backlog generateId self c1 rs))).
  { rewrite backlog_cons. assert (snd (backlog generateId self c [r]) = c1) as ->; [|done]. subst c1. cbn. destruct (newSyncDbEntry self r c (generateId c)) as [[k v]|] eqn:E.
    - rewrite decide_False by (by intros ->). cbn. apply u64_id. unfold is_u64. lia.
    - apply newSyncDbEntry_None in E. rewrite decide_True by done. cbn. lia. }
  destruct (IH c1) as (H1 & H2 & H3); [subst c1; case_decide; lia..|]. rewrite Hbl. cbn [fst snd].
  assert (Hr : forall o, o ∈ fst (backlog generateId self c [r]) -> exists k v, o = BPut k v /\ entry_at c (r :: rs) 0 = Some (k, v)).
  { intros o. rewrite entry_at_here. cbn [backlog]. destruct (newSyncDbEntry self r c (generateId c)) as [[k v]|]; cbn; [|by intros ?%not_elem_of_nil]. intros ->%list_elem_of_singleton. eauto. }
  split_and!.
  - rewrite H1. cbn [length]. rewrite saved_before_cons. subst c1. lia.
  - apply Forall_app. split.
    + apply Forall_forall. intros o (k & v & -> & E)%Hr. by exists 0%nat, (k, v).
    + eapply Forall_impl; [exact H2|]. intros o (i & e & E & Ek). exists (S i), e. by rewrite entry_at_cons.
  - intros m [|i] k v E Hlater.
    + rewrite <- apply_batch_app. rewrite apply_batch_untouched.
      * cbn. rewrite entry_at_here in E. rewrite E. cbn. apply lookup_insert_eq.
      * eapply Forall_impl; [exact H2|]. intros o (j & e & Ej & ->). apply (Hlater (S j)); [lia|]. by rewrite entry_at_cons.
    + rewrite entry_at_cons in E. rewrite <- apply_batch_app. apply (H3 _ i); [done|]. intros j e Hj Ej. apply (Hlater (S j)); [lia|]. by rewrite entry_at_cons.
Qed.

Lemma entry_key_inj c d : is_u64 c -> is_u64 d -> entry_key self c = entry_key self d -> c = d.
Proof using Hkey.
  intros Hc Hd. unfold self. rewrite !entry_key_layout by done. intros E.
  do 2 apply app_inv_head in E. by apply be64_inj.
Qed.

Lemma entry_key_not_counter c : entry_key self c <> sd_counterKey self.
Proof using Hkey. unfold self. rewrite entry_key_layout, newSyncDb_counterKey by done. intros [=]. Qed.

(** Requests that did not come out of the database get keys of their own. *)
Definition replayed (r : request) : bool := match r with REntry _ _ => true | _ => false end.

Lemma entry_at_own c rs i e : Forall (fun r => replayed r = false) rs -> entry_at c rs i = Some e ->
  fst e = entry_key self (c + saved_before rs i).
Proof using Type.
  clear Hkey. intros HF. unfold entry_at. destruct (rs !! i) as [r|] eqn:Er; [|done]. pose proof (proj1 (Forall_lookup _ _) HF i r Er) as Hr. destruct r; try done; by intros [= <-].
Qed.

Lemma saved_before_lt c rs i j e : (i < j)%nat -> entry_at c rs i = Some e -> saved_before rs i < saved_before rs j.
Proof using Type.
  clear Hkey. revert c i j. induction rs as [|r rs IH]; intros c i j Hlt E; [done|]. destruct j as [|j]; [lia|]. rewrite saved_before_cons. destruct i as [|i].
  - rewrite entry_at_here in E. rewrite decide_False by (by intros ->). change (saved_before (r :: rs) 0) with 0. pose proof (saved_before_bound rs j). lia.
  - rewrite entry_at_cons in E. rewrite saved_before_cons. specialize (IH _ i j ltac:(lia) E). lia.
Qed.

Lemma entries_distinct c rs i j ei ej : 0 <= c -> c + #rs < 2 ^ 64 -> Forall (fun r => replayed r = false) rs -> (i < j)%nat ->
  entry_at c rs i = Some ei -> entry_at c rs j = Some ej -> fst ej <> fst ei.
Proof using Hkey.
  intros Hc Hb HF Hlt Ei Ej. rewrite (entry_at_own _ _ _ _ HF Ei), (entry_at_own _ _ _ _ HF Ej). intros E.
  pose proof (saved_before_lt _ _ _ _ _ Hlt Ei). pose proof (saved_before_bound rs i). pose proof (saved_before_bound rs j).
  apply entry_key_inj in E; [lia|unfold is_u64; lia..].
Qed.

(** No entry is written where the counter is. *)
Lemma entry_not_counter c rs i e : Forall (fun r => match r with REntry k _ => head k = Some 0 | _ => True end) rs -> entry_at c rs i = Some e -> fst e <> sd_counterKey self.
Proof using Hkey.
  intros HF. unfold entry_at. destruct (rs !! i) as [r|] eqn:Er; [|done]. pose proof (proj1 (Forall_lookup _ _) HF i r Er) as Hr.
  destruct r as [k|k v|ch|m|]; try (intros [= <-]; apply entry_key_not_counter). intros [= <-]. cbn [fst]. intros ->. unfold self in Hr. by rewrite newSyncDb_counterKey in Hr.
Qed.
End Backlog.

(** C14: A shutdown loses no request: in every schedule after the quit signal - the loop reads its closed buffer to the end, and requests for batches may come in
    between - the loop ends by itself without panic, and on a working database the request with number [i] of the buffer, be it a key, a chunk, a message or an entry that
    was replayed, is stored: under the counter plus the number of requests saved before it with its key and its id, a replayed entry under its own key. Only a later
    replayed entry can take its place, and without replayed entries there is none. The counter behind the last one is persisted for the next session. Requests of other types are dropped. *)
Theorem shutdown_saves_backlog {D} `{LevelDBLaws D} (Hhealthy : healthy D) gen key p n b
    (s : bufstate (D := D)) es :
  let self := newSyncDb key p n b in
  let rs := bs_chan s in
  length key = 32%nat -> b <> 0 ->
  bs_done s = false -> bs_closed s = false -> bs_quit s = true ->
  Forall (fun r => match r with REntry k _ => head k = Some 0 | _ => True end) rs ->
  0 <= bs_counter s -> bs_counter s + #rs < 2 ^ 64 -> winds_down (length rs) es ->
  exists s', bufferRead_steps gen self s (EQuit :: es) = BNext s' None /\ bs_done s' = true /\
    (forall i k v, entry_at gen key p n b (bs_counter s) rs i = Some (k, v) ->
       (forall j e, (i < j)%nat -> entry_at gen key p n b (bs_counter s) rs j = Some e -> fst e <> k) ->
       ldb_view (ldb (bs_db s')) !! k = Some v) /\
    (Forall (fun r => replayed r = false) rs -> forall i r, rs !! i = Some r -> r <> ROther ->
       exists v, ldb_view (ldb (bs_db s')) !! entry_key self (bs_counter s + saved_before rs i) = Some v /\
         newSyncDbEntry self r (bs_counter s + saved_before rs i) (gen (bs_counter s + saved_before rs i)) = Some (entry_key self (bs_counter s + saved_before rs i), v)) /\
    ldb_view (ldb (bs_db s')) !! sd_counterKey self = Some (be64 (bs_counter s + saved_before rs (length rs))).
Proof.
  intros self rs Hkey Hb Hdone Hcl Hq Hre Hc Hlt Hes. cbn [bufferRead_steps bufferRead_step]. rewrite Hdone.
  unfold step_quit. rewrite Hq, Hcl.
  match goal with |- context [bufferRead_steps gen self ?x _] => set (s0 := x) end.
  destruct (drain_closed Hhealthy gen self es s0 Hb eq_refl eq_refl eq_refl eq_refl Hes) as (s' & E & Hd & _ & Hk & Hv).
  change (bs_chan s0) with rs in *. change (bs_counter s0) with (bs_counter s) in *.
  destruct (backlog_entries gen key p n b rs (bs_counter s) Hc Hlt) as (Hcnt & _ & Hlook). fold self in Hcnt, Hlook.
  assert (Hsaved : forall i k v, entry_at gen key p n b (bs_counter s) rs i = Some (k, v) ->
    (forall j e, (i < j)%nat -> entry_at gen key p n b (bs_counter s) rs j = Some e -> fst e <> k) -> ldb_view (ldb (bs_db s')) !! k = Some v).
  { intros i k v Ei Hl. rewrite Hv by (by apply (entry_not_counter gen key p n b Hkey _ _ _ (k, v) Hre Ei)). rewrite <- apply_batch_app. by apply (Hlook _ i). }
  exists s'. split_and!; try done; [|by rewrite Hk, Hcnt].
  intros HF i r Er Hr. destruct (entry_at gen key p n b (bs_counter s) rs i) as [[k v]|] eqn:Ei.
  - pose proof (entry_at_own gen key p n b _ _ _ _ HF Ei) as Hown. cbn in Hown. fold self in Hown. subst k. exists v. split.
    + apply (Hsaved i); [done|]. intros j e Hj Ej. by apply (entries_distinct gen key p n b Hkey _ _ _ _ _ _ Hc Hlt HF Hj Ei Ej).
    + unfold entry_at in Ei. rewrite Er in Ei. exact Ei.
  - unfold entry_at in Ei. rewrite Er in Ei. cbn in Ei. by apply newSyncDbEntry_None in Ei.
Qed.

(** ** A failed delivery *)

(** When the delivery of a buffered item fails, for whatever reason, the loop
    behaves as if it had been told to quit: the buffer is closed, so the next sender
    panics, the quit signal is no longer heard, and after the rest of the buffer is
    saved the loop ends. *)
Theorem failed_delivery_ends_queue {D} `{LevelDBLaws D} (Hhealthy : healthy D) gen self
    (s : bufstate (D := D)) r chan arrived :
  sd_dbBatchSize self <> 0 -> bs_done s = false -> bs_buffer s = true -> bs_chan s = r :: chan ->
  exists s1, bufferRead_step gen self s (EBuffer false arrived) = BNext s1 None /\
    (forall r', bufferRead_step gen self s1 (EPush r') = BPanic) /\
    bufferRead_step gen self s1 EQuit = BBlocked /\
    exists s2, bufferRead_steps gen self s1 (replicate (S (length (chan ++ arrived))) EDb) = BNext s2 None /\
      bs_done s2 = true.
Proof.
  intros Hsz Hdone Hbuf Hch. cbn [bufferRead_step]. rewrite Hdone. unfold step_buffer. rewrite Hbuf, Hch. cbn [negb].
  match goal with |- context [save_request gen self ?x r] => set (s0 := x) end.
  destruct (save_request_view Hhealthy gen self s0 r Hsz eq_refl) as (s1 & E1 & _ & _ & Hch1 & Hcl1 & Hdb1 & Hq1 & Hd1).
  exists s1. split; [exact E1|]. subst s0. cbn in Hch1, Hcl1, Hdb1, Hq1. split_and!.
  - intros r'. unfold step_push. by rewrite Hcl1.
  - rewrite Hd1. unfold step_quit. by rewrite Hq1.
  - destruct (drain_closed Hhealthy gen self (replicate (S (length (bs_chan s1))) EDb) s1 Hsz Hd1 Hdb1 Hcl1 Hq1 (winds_down_replicate _)) as (s2 & E & Hd2 & _).
    exists s2. split; [|done]. by rewrite Hch1 in E.
Qed.

(** ** Replay *)

Section Replay.
Context {D : Type} `{LevelDBLaws D} (self : syncDb) (fun_ : request -> bool).

(** Entries of any queue: 42 byte keys that start with zero. *)
Definition queue_entry (q : bytes * bytes) : Prop := length (fst q) = 42%nat /\ head (fst q) = Some 0.
Definition as_entry (q : bytes * bytes) : request := REntry (fst q) (copy_at (make_bytes 40) 0 (snd q)).

(** Without batches the inner loop takes every entry up to the first key of another kind. *)
Lemma dbRead_iter_all es k v rest key del out fuel cnt n :
  Forall queue_entry es -> Forall (fun q => fun_ (as_entry q) = true) es ->
  head k = Some 1 -> length key = 42%nat -> (length es < fuel)%nat ->
  exists key', dbRead_iter fuel self fun_ (es ++ (k, v) :: rest) false cnt n key del out =
    Some (key', true, del ++ (BDelete <$> es.*1), out ++ (as_entry <$> es)).
Proof using Type.
  intros HF Hf Hk. revert key del out fuel n.
  induction es as [|[ik iv] es IH]; intros key del out fuel n Hlen Hfuel;
    (destruct fuel as [|fuel]; [lia|]); cbn [dbRead_iter andb app].
  - assert (Hh : head (copy_at key 0 k) = Some 1).
    { destruct k as [|x k]; [done|]. injection Hk as ->. destruct key as [|y key]; [done|]. done. }
    destruct (copy_at key 0 k) as [|x key'] eqn:Ek; [done|]. injection Hh as ->.
    rewrite bool_decide_false by done. rewrite orb_true_r. eexists. cbn. by rewrite !app_nil_r.
  - apply Forall_cons in HF as [[Hl Hh] HF]. apply Forall_cons in Hf as [Hf1 Hf]. cbn in Hl, Hh.
    rewrite (copy_at_whole key ik) by congruence.
    assert ((#ik =? 0) = false) as -> by (apply Z.eqb_neq; zlia). rewrite bool_decide_true by done. cbn [orb negb].
    unfold as_entry in Hf1. cbn in Hf1. rewrite Hf1. cbn [tail].
    destruct (IH HF Hf ik (del ++ [BDelete ik]) (out ++ [REntry ik (copy_at (make_bytes 40) 0 iv)]) fuel (n + 1))
      as [key' E]; [done|cbn in Hfuel; lia|]. exists key'. rewrite E. by rewrite !fmap_cons, <- !app_assoc.
Qed.

(** An entry that cannot be delivered ends the round where it began. *)
Lemma dbRead_iter_stuck ik iv it key del out fuel cnt n :
  queue_entry (ik, iv) -> fun_ (as_entry (ik, iv)) = false -> length key = 42%nat ->
  dbRead_iter (S fuel) self fun_ ((ik, iv) :: it) false cnt n key del out =
    Some (ik, false, del, out ++ [as_entry (ik, iv)]).
Proof using Type.
  intros [Hl Hh] Hf Hlen. cbn in Hl, Hh. cbn [dbRead_iter andb].
  rewrite (copy_at_whole key ik) by congruence.
  assert ((#ik =? 0) = false) as -> by (apply Z.eqb_neq; zlia). rewrite bool_decide_true by done. cbn [orb negb].
  unfold as_entry in *. cbn in Hf |- *. by rewrite Hf.
Qed.

(** The first pair at or after a key. *)
Definition first_at (v : gmap bytes bytes) (key ik iv : bytes) : Prop :=
  v !! ik = Some iv /\ bytes_ltb ik key = false /\
  forall k, is_Some (v !! k) -> bytes_ltb k key = false -> bytes_ltb k ik = false.

Lemma seek_first (d : D) key ik iv :
  first_at (ldb_view d) key ik iv -> exists it, it_Seek (ldb_iter d) key = (ik, iv) :: it.
Proof using Type*.
  intros (Hv & Hge & Hmin). rewrite it_Seek_sorted by apply ldb_iter_sorted.
  assert (Hin : (ik, iv) ∈ filter (fun q => bytes_ltb (fst q) key = false) (ldb_iter d)).
  { apply list_elem_of_filter. split; [done|]. by apply ldb_iter_elem. }
  assert (Hs : StronglySorted key_lt (filter (fun q => bytes_ltb (fst q) key = false) (ldb_iter d))).
  { apply StronglySorted_filter, ldb_iter_sorted. }
  destruct (filter _ (ldb_iter d)) as [|[k v] l] eqn:E; [by apply not_elem_of_nil in Hin|].
  exists l. apply elem_of_cons in Hin as [<-|Hin]; [done|]. exfalso.
  apply StronglySorted_inv in Hs as [_ HF]. rewrite Forall_forall in HF. specialize (HF _ Hin).
  unfold key_lt in HF. cbn in HF.
  assert (Hk : (k, v) ∈ filter (fun q => bytes_ltb (fst q) key = false) (ldb_iter d)) by (rewrite E; left).
  apply list_elem_of_filter in Hk as [Hge' Hk]. apply ldb_iter_elem in Hk.
  rewrite (Hmin k) in HF; [done|by eexists|done].
Qed.

Lemma dbRead_loop_stuck fuel key cnts (db : LDBDatabase D) out ik iv :
  first_at (ldb_view (ldb db)) key ik iv -> queue_entry (ik, iv) -> length key = 42%nat ->
  fun_ (as_entry (ik, iv)) = false ->
  dbRead_loop fuel self fun_ false key cnts db out = None.
Proof using Type*.
  revert key db out. induction fuel as [|fuel IH]; intros key db out Hfst Hq Hlen Hf; [done|].
  cbn [dbRead_loop]. destruct (seek_first (ldb db) key ik iv Hfst) as [it Hit].
  unfold LDB_NewIterator. rewrite Hit. rewrite dbRead_iter_stuck by done.
  apply IH; try done.
  - assert (Hv : ldb_view (ldb (fst (LDB_Write db []))) = ldb_view (ldb db)).
    { unfold LDB_Write. destruct (ldb_write (ldb db) []) as [d [|]] eqn:E; cbn.
      - by eapply ldb_write_err. - by apply ldb_write_ok in E. }
    rewrite Hv. destruct Hfst as (H1 & H2 & H3). split_and!; [done|apply bytes_ltb_irrefl|].
    intros k _ Hk. exact Hk.
  - by destruct Hq.
Qed.

(** In a sorted snapshot the entries come before the counters. *)
Lemma split_sorted (l : list (bytes * bytes)) :
  StronglySorted key_lt l -> Forall (fun q => queue_entry q \/ head (fst q) = Some 1) l ->
  l = filter (fun q => head (fst q) = Some 0) l ++ filter (fun q => head (fst q) = Some 1) l.
Proof using Type.
  induction 1 as [|q l Hs IH HF]; intros Hw; [done|]. apply Forall_cons in Hw as [[[_ Hq]|Hq] Hw].
  - rewrite filter_cons_True by done. rewrite filter_cons_False by congruence.
    cbn [app]. f_equal. by apply IH.
  - rewrite filter_cons_False by congruence. rewrite filter_cons_True by done.
    assert (H1 : Forall (fun r => head (fst r) = Some 1) l).
    { rewrite Forall_forall in Hw, HF |- *. intros r Hr. destruct (Hw r Hr) as [[_ Hr0]|Hr1]; [|done]. exfalso.
      specialize (HF r Hr). unfold key_lt in HF. destruct (fst q) as [|x qs]; [done|]. destruct (fst r) as [|y rs]; [done|].
      injection Hq as ->. injection Hr0 as ->. by cbn in HF. }
    rewrite filter_none, (filter_all _ l) by (done || (eapply Forall_impl; [exact H1|]; cbn; congruence)). done.
Qed.
End Replay.

(** The start of a queue is where its replay begins. *)
Lemma dbRead_start {D} `{LevelDB D} key p n b fuel useBatches fun_ cnts (db : LDBDatabase D) :
  length key = 32%nat ->
  dbRead fuel (newSyncDb key p n b) useBatches 0 fun_ cnts db =
  dbRead_loop fuel (newSyncDb key p n b) fun_ useBatches (sd_start (newSyncDb key p n b)) cnts db [].
Proof.
  intros Hlen. unfold dbRead. rewrite newSyncDb_start by done. f_equal.
  rewrite copy_at_whole by (rewrite !length_app, Hlen; done).
  rewrite app_assoc. rewrite copy_at_back; [done|rewrite length_app, Hlen; done|done].
Qed.

(** The replay of one queue takes the backlog of other queues too: every stored
    request of any peer and priority that is not below the start of the queue is
    passed to this peer and deleted from the shared database. *)
Theorem replay_takes_foreign {D} `{LevelDBLaws D} (Hhealthy : healthy D) key p n b fun_ (db : LDBDatabase D) :
  length key = 32%nat ->
  (forall k v, ldb_view (ldb db) !! k = Some v -> queue_entry (k, v) \/ head k = Some 1) ->
  (exists k v, ldb_view (ldb db) !! k = Some v /\ head k = Some 1) ->
  (forall k v, fun_ (as_entry (k, v)) = true) ->
  let self := newSyncDb key p n b in
  exists fuel db' out, dbRead fuel self false 0 fun_ [0] db = Some (db', out) /\
    forall key' p' c v, length key' = 32%nat ->
      let k := entry_key (newSyncDb key' p' n b) c in
      ldb_view (ldb db) !! k = Some v -> bytes_ltb k (sd_start self) = false ->
      as_entry (k, v) ∈ out /\ ldb_view (ldb db') !! k = None.
Proof.
  intros Hlen Hwf (k0 & v0 & Hk0 & Hh0) Hf self. subst self. set (self := newSyncDb key p n b).
  set (it := it_Seek (ldb_iter (ldb db)) (sd_start self)).
  assert (Hit : it = filter (fun q => bytes_ltb (fst q) (sd_start self) = false) (ldb_iter (ldb db)))
    by apply it_Seek_sorted, ldb_iter_sorted.
  assert (Hwit : Forall (fun q => queue_entry q \/ head (fst q) = Some 1) it).
  { apply Forall_forall. intros [k v] Hq. rewrite Hit in Hq. apply list_elem_of_filter in Hq as [_ Hq].
    apply ldb_iter_elem in Hq. by apply Hwf. }
  assert (Hsplit := split_sorted it ltac:(rewrite Hit; apply StronglySorted_filter, ldb_iter_sorted) Hwit).
  set (es := filter (fun q => head (fst q) = Some 0) it) in *.
  destruct (filter (fun q => head (fst q) = Some 1) it) as [|[k1 v1] rest] eqn:Erest.
  { exfalso. assert (Hin : (k0, v0) ∈ filter (fun q => head (fst q) = Some 1) it);
      [|rewrite Erest in Hin; by apply not_elem_of_nil in Hin].
    apply list_elem_of_filter. split; [done|]. rewrite Hit. apply list_elem_of_filter.
    split; [|by apply ldb_iter_elem]. unfold self. rewrite newSyncDb_start by done.
    destruct k0 as [|x k0]; [done|]. injection Hh0 as ->. done. }
  assert (Hh1 : head k1 = Some 1).
  { assert (Hin : (k1, v1) ∈ filter (fun q => head (fst q) = Some 1) it) by (rewrite Erest; left).
    by apply list_elem_of_filter in Hin as [Hin _]. }
  assert (HFes : Forall queue_entry es).
  { apply Forall_forall. intros q Hq. apply list_elem_of_filter in Hq as [Hq Hin].
    rewrite Forall_forall in Hwit. destruct (Hwit q Hin) as [Hw|Hw]; [done|congruence]. }
  destruct (dbRead_iter_all self fun_ es k1 v1 rest (sd_start self) [] [] (S (S (length es))) 0 0) as [key' E]; try done.
  { apply Forall_forall. intros [k v] _. apply Hf. }
  { unfold self. rewrite newSyncDb_start by done. rewrite !length_app, Hlen. done. }
  { lia. }
  rewrite !app_nil_l in E.
  exists (S (S (length es))), (fst (LDB_Write db (BDelete <$> es.*1))), (as_entry <$> es). split.
  - unfold self at 1. rewrite dbRead_start by done. fold self. cbn [dbRead_loop]. unfold LDB_NewIterator.
    fold it. rewrite Hsplit, E. destruct (es ++ (k1, v1) :: rest) eqn:Enil; [by destruct es|]. done.
  - intros key2 p2 c v Hlen2 k Hk Hge.
    assert (Hin : (k, v) ∈ es).
    { apply list_elem_of_filter. split; [unfold k; by rewrite entry_key_layout|].
      rewrite Hit. apply list_elem_of_filter. split; [done|]. by apply ldb_iter_elem. }
    split; [apply list_elem_of_fmap; by exists (k, v)|].
    destruct (LDB_Write_healthy Hhealthy db (BDelete <$> es.*1)) as [_ Hv]. rewrite Hv.
    apply apply_batch_deletes, list_elem_of_fmap. by exists (k, v).
Qed.

(** A stored request that cannot be delivered, for example because its chunk is
    gone, is never deleted nor skipped: the replay tries it again without end, so
    it never returns and the sync script that waits for it never goes on. *)
Theorem replay_livelock {D} `{LevelDBLaws D} key p n b fun_ cnts (db : LDBDatabase D) k v fuel :
  length key = 32%nat ->
  first_at (ldb_view (ldb db)) (sd_start (newSyncDb key p n b)) k v -> queue_entry (k, v) ->
  fun_ (as_entry (k, v)) = false ->
  dbRead fuel (newSyncDb key p n b) false 0 fun_ cnts db = None.
Proof.
  intros Hlen Hfst Hq Hf. rewrite dbRead_start by done. eapply dbRead_loop_stuck; try done.
  rewrite newSyncDb_start by done. rewrite !length_app, Hlen. done.
Qed.

(** ** Witnesses *)

Definition peer_key (x : Z) : Key := replicate 32 x.
Definition store_msg (x : Z) : storeRequestMsgData :=
  {| so_Key := peer_key x; so_SData := Some [x]; so_Id := x; so_requestTimeout := None |}.
Definition queue1 : syncDb := newSyncDb (peer_key 1) Low 4 2.

(** A queue in buffer mode with two items, counter at 5, and one with a key, a chunk and a message. *)
Definition busy_with (rs : list request) : bufstate (D := MapDB) :=
  {| bs_db := NewLDBDatabase (∅ : MapDB); bs_chan := rs; bs_closed := false;
     bs_buffer := true; bs_dbmode := false; bs_quit := true; bs_batch := []; bs_counter := 5; bs_inBatch := 0;
     bs_inDb := 0; bs_total := 0; bs_dbTotal := 0; bs_readers := []; bs_done := false |}.
Definition busy := busy_with (RStore <$> [store_msg 7; store_msg 8]).
Definition mixed : list request :=
  [RKey (peer_key 3); ROther; RChunk {| ck_Key := peer_key 4; ck_SData := None; ck_Size := 0; ck_Source := None; ck_Req := None |}; RStore (store_msg 8)].

Lemma shutdown_saves_backlog_witness :
  exists s', bufferRead_steps (fun c => c) queue1 (busy_with mixed) (EQuit :: [EDb; EBatch; EDb; EDb; EBatch; EDb; EDb]) = BNext s' None /\ bs_done s' = true /\
    ldb_view (ldb (bs_db s')) !! entry_key queue1 6 = Some (entry_val (peer_key 4) 6) /\
    ldb_view (ldb (bs_db s')) !! entry_key queue1 7 = Some (entry_val (peer_key 8) 8).
Proof.
  destruct (shutdown_saves_backlog MapDB_healthy (fun c => c) (peer_key 1) Low 4 2 (busy_with mixed) [EDb; EBatch; EDb; EDb; EBatch; EDb; EDb])
    as (s' & E & Hd & _ & Hl & _); try reflexivity; try (cbn; lia).
  - repeat constructor.
  - split_and!; [repeat (apply Forall_cons; split; [by (left + right)|]); by apply Forall_nil|reflexivity|reflexivity].
  - exists s'. split; [exact E|]. split; [exact Hd|]. specialize (Hl ltac:(repeat constructor)).
    destruct (Hl 2%nat _ eq_refl ltac:(discriminate)) as (v1 & H1 & [= E1]). destruct (Hl 3%nat _ eq_refl ltac:(discriminate)) as (v2 & H2 & [= E2]).
    rewrite <- E1 in H1. rewrite <- E2 in H2. split; [exact H1|exact H2].
Defined.

Lemma failed_delivery_ends_queue_witness :
  exists s1, bufferRead_step (fun _ => 0) queue1 busy (EBuffer false []) = BNext s1 None /\
    bufferRead_step (fun _ => 0) queue1 s1 (EPush ROther) = BPanic.
Proof.
  destruct (failed_delivery_ends_queue MapDB_healthy (fun _ => 0) queue1 busy
    (RStore (store_msg 7)) [RStore (store_msg 8)] []) as (s1 & E & Hp & _); try reflexivity; try (cbn; lia).
  exists s1. split; [exact E|]. apply Hp.
Defined.

(** A request of another peer, with its counter, in the shared database. *)
Definition foreign_key : bytes := entry_key (newSyncDb (peer_key 9) Low 4 2) 0.
Definition shared_map : gmap bytes bytes :=
  <[foreign_key := entry_val (peer_key 3) 3]> {[sd_counterKey (newSyncDb (peer_key 9) Low 4 2) := be64 1]}.
Definition shared : LDBDatabase MapDB := NewLDBDatabase (shared_map : MapDB).

Lemma shared_keys k v :
  ldb_view (ldb shared) !! k = Some v -> queue_entry (k, v) \/ head k = Some 1.
Proof.
  change (shared_map !! k = Some v -> queue_entry (k, v) \/ head k = Some 1). unfold shared_map.
  rewrite lookup_insert_Some. intros [[<- <-]|[_ Hl]].
  - left. split; vm_compute; reflexivity.
  - apply lookup_singleton_Some in Hl as [<- <-]. right. vm_compute. reflexivity.
Qed.

Lemma replay_takes_foreign_witness :
  exists fuel db' out, dbRead fuel queue1 false 0 (fun _ => true) [0] shared = Some (db', out) /\
    as_entry (foreign_key, entry_val (peer_key 3) 3) ∈ out /\ ldb_view (ldb db') !! foreign_key = None.
Proof.
  destruct (replay_takes_foreign MapDB_healthy (peer_key 1) Low 4 2 (fun _ => true) shared)
    as (fuel & db' & out & E & Hf).
  - reflexivity.
  - exact shared_keys.
  - exists (sd_counterKey (newSyncDb (peer_key 9) Low 4 2)), (be64 1). split; vm_compute; reflexivity.
  - reflexivity.
  - exists fuel, db', out. split; [exact E|].
    apply (Hf (peer_key 9) Low 0 (entry_val (peer_key 3) 3)); vm_compute; reflexivity.
Defined.

Lemma replay_livelock_witness :
  dbRead 1000 queue1 false 0 (fun _ => false) [] shared = None.
Proof.
  apply (replay_livelock (peer_key 1) Low 4 2 (fun _ => false) [] shared foreign_key (entry_val (peer_key 3) 3) 1000).
  - reflexivity.
  - split; [vm_compute; reflexivity|]. split; [vm_compute; reflexivity|].
    intros k [v Hk] Hge. change (shared_map !! k = Some v) in Hk. unfold shared_map in Hk.
    rewrite lookup_insert_Some in Hk. destruct Hk as [[<- _]|[_ Hl]]; [apply bytes_ltb_irrefl|].
    apply lookup_singleton_Some in Hl as [<- _]. vm_compute. reflexivity.
  - split; vm_compute; reflexivity.
  - reflexivity.
Defined.
