(* ===== verification/Syncer.v ===== *)
(** The syncer of a peer connection ([livepeer/network/syncer.go]): the script
    that replays history in segments, the loop that sends batches of unsynced
    keys, the loop that sends deliveries, and the entry points of the forwarder.

    Channels are queues with their capacity; an operation that would wait is
    [Wait]. The script and the loop share the sync state: the script is given what
    the loop does to the state while it waits ([env]). The theorems: an
    undisturbed script covers the history up to the session start; a sent message
    during the second segment makes it skip the third; an unfinished session skips
    one index; the loop sends every key it takes exactly once and in order. *)
From stdpp Require Import base gmap list strings.
From Stdlib Require Import ZArith Lia.
From S2P Require Import Prelude Types Database DbStore Messages SyncDb.

(** ** Parameters *)
Definition requestDbBatchSize : Z := 512.
Definition keyBufferSize : Z := 1024.
Definition syncBatchSize : Z := 128.
Definition syncBufferSize : Z := 128.
Definition syncCacheSize : Z := 1024.

Definition DeliverReq : Z := 0.
Definition PushReq : Z := 1.
Definition PropagateReq : Z := 2.
Definition HistoryReq : Z := 3.
Definition BacklogReq : Z := 4.

Record SyncParams := mkSyncParams {
  RequestDbBatchSize : Z; KeyBufferSize : Z; SyncBatchSize : Z; SyncBufferSize : Z; SyncCacheSize : Z;
  SyncPriorities : list Z; SyncModes : list bool }.

Definition NewSyncParams : SyncParams :=
  {| RequestDbBatchSize := requestDbBatchSize; KeyBufferSize := keyBufferSize; SyncBatchSize := syncBatchSize;
     SyncBufferSize := syncBufferSize; SyncCacheSize := syncCacheSize;
     SyncPriorities := [High; Medium; Medium; Low; Low]; SyncModes := [true; true; true; true; false] |}.

(** ** The syncer *)
Record syncer := mkSyncer {
  sy_params : SyncParams;
  sy_syncF : bool;                                  (* what [syncF()] returns *)
  sy_key : Key;
  sy_state : syncState;
  sy_deliveryRequest : bool;                        (* an item in the channel of capacity 1 *)
  sy_newUnsyncedKeys : bool;
  sy_quit : bool;                                   (* [quit] is closed *)
  sy_keys : list (list request);                    (* per priority *)
  sy_deliveries : list (list storeRequestMsgData);  (* senders on the unbuffered channels *)
  sy_queues : list (list request);                  (* [queues[p].buffer] *)
  sy_dbQuit : list bool                             (* [queues[p].quit] is closed *)
}.

Definition newSyncer (params : SyncParams) (syncF : bool) (remotekey : Key) (state : syncState) : syncer :=
  {| sy_params := params; sy_syncF := syncF; sy_key := remotekey; sy_state := state; sy_deliveryRequest := false;
     sy_newUnsyncedKeys := false; sy_quit := false; sy_keys := [[]; []; []]; sy_deliveries := [[]; []; []];
     sy_queues := [[]; []; []]; sy_dbQuit := [false; false; false] |}.

Definition with_keys (s : syncer) (keys : list (list request)) (wake : bool) : syncer :=
  {| sy_params := sy_params s; sy_syncF := sy_syncF s; sy_key := sy_key s; sy_state := sy_state s;
     sy_deliveryRequest := sy_deliveryRequest s; sy_newUnsyncedKeys := wake; sy_quit := sy_quit s;
     sy_keys := keys; sy_deliveries := sy_deliveries s; sy_queues := sy_queues s; sy_dbQuit := sy_dbQuit s |}.
Definition with_deliveries (s : syncer) (d : list (list storeRequestMsgData)) : syncer :=
  {| sy_params := sy_params s; sy_syncF := sy_syncF s; sy_key := sy_key s; sy_state := sy_state s;
     sy_deliveryRequest := sy_deliveryRequest s; sy_newUnsyncedKeys := sy_newUnsyncedKeys s; sy_quit := sy_quit s;
     sy_keys := sy_keys s; sy_deliveries := d; sy_queues := sy_queues s; sy_dbQuit := sy_dbQuit s |}.
Definition with_queues (s : syncer) (q : list (list request)) : syncer :=
  {| sy_params := sy_params s; sy_syncF := sy_syncF s; sy_key := sy_key s; sy_state := sy_state s;
     sy_deliveryRequest := sy_deliveryRequest s; sy_newUnsyncedKeys := sy_newUnsyncedKeys s; sy_quit := sy_quit s;
     sy_keys := sy_keys s; sy_deliveries := sy_deliveries s; sy_queues := q; sy_dbQuit := sy_dbQuit s |}.

(** ** Requests *)

(** Key, id, chunk and store request of a request; [Panic] is a value of fewer than 40 bytes. *)
Definition parseRequest (req : request) (generateId : Z)
  : result unit (Key * Z * option Chunk * option storeRequestMsgData) :=
  match req with
  | RKey key => Ok (key, generateId, None, None)
  | REntry _ val =>
    if #val <? 40 then Panic else Ok (take 32 val, be64_val (drop 32 val), None, None)
  | RChunk c => Ok (ck_Key c, generateId, Some c, None)
  | RStore m => Ok (so_Key m, 0, None, Some m)
  | ROther => Err tt
  end.

Definition newSyncRequest (req : request) (p : Z) (generateId : Z) : result unit syncRequest :=
  let! r := parseRequest req generateId in
  let '(key, _, _, _) := r in Ok {| sq_Key := key; sq_Priority := p |}.

(** [get] is [dbAccess.get]. *)
Definition newStoreRequestMsgData (get : Key -> option Chunk) (req : request) (generateId : Z)
  : result unit storeRequestMsgData :=
  let! r := parseRequest req generateId in
  let '(key, id, chunk, sreq) := r in
  match sreq with
  | Some m => Ok m
  | None =>
    let! c := match chunk with
              | Some c => Ok c
              | None => match get key with Some c => Ok c | None => Err tt end
              end in
    Ok {| so_Key := ck_Key c; so_SData := ck_SData c; so_Id := id; so_requestTimeout := None |}
  end.

(** ** Entry points *)

(** A select between a send and the closed [quit]: [pick] is the choice when both are ready. *)
Definition addKey (s : syncer) (req : request) (priority : Z) (pick : bool) : outcome (bool * syncer) :=
  match index (sy_keys s) priority with
  | None => Crash
  | Some ch =>
    let room := #ch <? KeyBufferSize (sy_params s) in
    if room && (pick || negb (sy_quit s)) then
      Ret (true, with_keys s (<[Z.to_nat priority := ch ++ [req]]> (sy_keys s)) true)
    else if sy_quit s then Ret (false, s) else Wait
  end.

(** A buffer that its queue has not closed. *)
Definition addDelivery (s : syncer) (req : request) (priority : Z) (pick : bool) : outcome (bool * syncer) :=
  match index (sy_queues s) priority with
  | None => Crash
  | Some ch =>
    let room := #ch <? SyncBufferSize (sy_params s) in
    if room && (pick || negb (sy_quit s)) then
      Ret (true, with_queues s (<[Z.to_nat priority := ch ++ [req]]> (sy_queues s)))
    else if sy_quit s then Ret (false, s) else Wait
  end.

(** The delivery loop always comes back to the channel, so the send is taken unless
    [quit] is chosen. *)
Definition doDelivery (get : Key -> option Chunk) (s : syncer) (req : request) (priority generateId : Z) (pick : bool)
  : outcome (bool * syncer) :=
  match newStoreRequestMsgData get req generateId with
  | Panic => Crash
  | Err _ => Ret (false, s)
  | Ok msg =>
    match index (sy_deliveries s) priority with
    | None => Crash
    | Some ch =>
      if pick || negb (sy_quit s) then
        Ret (true, with_deliveries s (<[Z.to_nat priority := ch ++ [msg]]> (sy_deliveries s)))
      else Ret (false, s)
    end
  end.

Definition addRequest (s : syncer) (req : request) (ty : Z) (pick : bool) : outcome syncer :=
  match index (SyncPriorities (sy_params s)) ty with
  | None => Crash
  | Some priority =>
    if sy_syncF s || (ty =? DeliverReq) then
      match index (SyncModes (sy_params s)) ty with
      | None => Crash
      | Some mode =>
        match (if mode : bool then addKey s req priority pick else addDelivery s req priority pick) with
        | Ret (_, s) => Ret s
        | Wait => Wait
        | Crash => Crash
        end
      end
    else Ret s
  end.

(** The function the replay of the request database calls. *)
Definition replay (get : Key -> option Chunk) (s : syncer) (req : request) (generateId : Z) (pick : bool)
  : outcome (bool * syncer) :=
  match index (SyncModes (sy_params s)) BacklogReq, index (SyncPriorities (sy_params s)) BacklogReq with
  | Some true, Some priority => addKey s req priority pick
  | Some false, Some priority => doDelivery get s req priority generateId pick
  | _, _ => Crash
  end.

Definition sendUnsyncedKeys (s : syncer) : syncer :=
  {| sy_params := sy_params s; sy_syncF := sy_syncF s; sy_key := sy_key s; sy_state := sy_state s;
     sy_deliveryRequest := true; sy_newUnsyncedKeys := sy_newUnsyncedKeys s; sy_quit := sy_quit s;
     sy_keys := sy_keys s; sy_deliveries := sy_deliveries s; sy_queues := sy_queues s; sy_dbQuit := sy_dbQuit s |}.

(** Closing a closed channel panics. The queues get their quit signal, on which they save
    their backlog and end ([SyncDb]); [stop] waits for that. *)
Definition stop (s : syncer) : outcome syncer :=
  if sy_quit s then Crash else
  Ret {| sy_params := sy_params s; sy_syncF := sy_syncF s; sy_key := sy_key s; sy_state := sy_state s;
         sy_deliveryRequest := sy_deliveryRequest s; sy_newUnsyncedKeys := sy_newUnsyncedKeys s; sy_quit := true;
         sy_keys := sy_keys s; sy_deliveries := sy_deliveries s; sy_queues := sy_queues s; sy_dbQuit := (fun _ => true) <$> sy_dbQuit s |}.

(** One turn of the delivery loop: it looks at its current priority [p] and the lower ones; when
    all are empty it takes any sender ([free] is the choice of the runtime) and starts
    again at the top. The results: the request to send, the syncer and the priority it looks at next. *)
Fixpoint syncDeliveries_step (n : nat) (s : syncer) (p free : Z) : option (storeRequestMsgData * syncer * Z) :=
  let take_from q :=
    ch ← index (sy_deliveries s) q;
    match ch with
    | [] => None
    | msg :: ch => Some (msg, with_deliveries s (<[Z.to_nat q := ch]> (sy_deliveries s)))
    end in
  match take_from p with
  | Some (msg, s) => Some (msg, s, p)
  | None =>
    if p =? Low then '(msg, s) ← take_from free; Some (msg, s, High)
    else match n with O => None | S n => syncDeliveries_step n s (p - 1) free end
  end.

(** ** The sync script *)

Definition set_range (st : syncState) (start : Key) (first last : Z) : syncState :=
  {| ss_Db := {| Start := start; Stop := Stop (ss_Db st); First := first; Last := last |};
     ss_SessionAt := ss_SessionAt st; ss_LastSeenAt := ss_LastSeenAt st; ss_Latest := ss_Latest st;
     ss_Synced := ss_Synced st |}.
Definition set_Latest (st : syncState) (latest : Key) : syncState :=
  {| ss_Db := ss_Db st; ss_SessionAt := ss_SessionAt st; ss_LastSeenAt := ss_LastSeenAt st;
     ss_Latest := latest; ss_Synced := ss_Synced st |}.

Section Script.
(** What happens to the shared state while the script waits for segment 1, 2 or 3. *)
Context (env : nat -> syncState -> syncState).

(** Step 3: since the last disconnect up to the session start. *)
Definition sync_step3 (st : syncState) : list DbSyncState * syncState :=
  if ss_LastSeenAt st <? ss_SessionAt st then
    let st := set_range st (Start (ss_Db st)) (First (ss_Db st)) (ss_SessionAt st) in
    ([ss_Db st], env 3 st)
  else ([], st).

(** Step 2: up to the last disconnect. *)
Definition sync_step2 (st : syncState) (start : Key) : list DbSyncState * syncState :=
  let st := set_Latest st ZeroKey in
  let st := set_range st start (First (ss_Db st)) (Last (ss_Db st)) in
  if First (ss_Db st) <? ss_LastSeenAt st then
    let st := set_range st start (First (ss_Db st)) (ss_LastSeenAt st) in
    let seg := ss_Db st in
    let st := env 2 st in
    let st := set_range st (Start (ss_Db st)) (ss_LastSeenAt st) (Last (ss_Db st)) in
    let '(segs, st) := sync_step3 (set_Latest st ZeroKey) in (seg :: segs, st)
  else sync_step3 (set_Latest st ZeroKey).

(** Step 1: the rest of an unfinished session. *)
Definition sync_step1 (st : syncState) : list DbSyncState * syncState :=
  let start := Start (ss_Db st) in
  if negb (IsZeroKey (ss_Latest st)) then
    let st := set_range st (ss_Latest st) (First (ss_Db st)) (Last (ss_Db st)) in
    let seg := ss_Db st in
    let st := env 1 st in
    let st := if Last (ss_Db st) <? ss_SessionAt st
              then set_range st (Start (ss_Db st)) (u64 (Last (ss_Db st) + 1)) (Last (ss_Db st)) else st in
    let '(segs, st) := sync_step2 st start in (seg :: segs, st)
  else sync_step2 st start.

(** The segments the script hands to the loop, after the replay of the request database. *)
Definition sync (st : syncState) : list DbSyncState * syncState :=
  if ss_SessionAt st =? 0 then ([], st)
  else if negb (ss_Synced st) then sync_step1 st
  else sync_step3 (set_range st (Start (ss_Db st)) (ss_LastSeenAt st) (Last (ss_Db st))).
End Script.

(** ** The loop that sends unsynced keys *)

(** The keys of a segment; without iterator (an empty range) nothing ever closes the channel. *)
Definition syncHistory (iterator : DbSyncState -> option (list Key)) (state : syncState) : list Key * bool :=
  match iterator (ss_Db state) with
  | Some keys => (keys, true)
  | None => ([], false)
  end.

(** The channel [keys] of the next select. *)
Inductive keysrc := KNone | KQueue (p : Z) | KHistory.

#[export] Instance keysrc_eq_dec : EqDecision keysrc.
Proof. solve_decision. Defined.

Record loopstate := mkLoop {
  lp_sy : syncer;
  lp_unsynced : list syncRequest;
  lp_justSynced : bool;
  lp_priority : Z;
  lp_keys : keysrc;
  lp_history : option (list Key * bool);  (* what the history routine has left and whether it
                                             closes the channel; [None] is nil *)
  lp_deliveryRequest : bool;              (* local channel is not nil *)
  lp_newUnsyncedKeys : bool;
  lp_syncStates : bool;
  lp_sent : list (list syncRequest)       (* the batches passed to [unsyncedKeys] *)
}.

Definition loop_init (s : syncer) : loopstate :=
  {| lp_sy := s; lp_unsynced := []; lp_justSynced := false; lp_priority := High; lp_keys := KQueue High;
     lp_history := None; lp_deliveryRequest := false; lp_newUnsyncedKeys := false; lp_syncStates := true;
     lp_sent := [] |}.

Definition queue_len (s : syncer) (p : Z) : Z :=
  match index (sy_keys s) p with Some ch => #ch | None => 0 end.

(** The search for the highest priority with keys, history behind the queue of its level. *)
Fixpoint select_keys (fuel : nat) (l : loopstate) (histPrior p : Z) : Z * keysrc :=
  match fuel with
  | O => (p, KNone)
  | S fuel =>
    if 0 <? queue_len (lp_sy l) p then (p, KQueue p)
    else if (p =? histPrior) && bool_decide (lp_history l <> None) then (p, KHistory)
    else select_keys fuel l histPrior (p - 1)
  end.

(** The channel to read from: no selection is needed while the queue of high priority has items. *)
Definition choose_keys (histPrior : Z) (l : loopstate) : Z * keysrc :=
  if negb (lp_priority l =? High) ||
     match lp_keys l with KQueue p => queue_len (lp_sy l) p =? 0 | KNone => true | KHistory => true end
  then select_keys 3 l histPrior High else (lp_priority l, lp_keys l).

(** The part of an iteration before the select. [counter] is the storage counter. *)
Definition loop_prepare (histPrior counter : Z) (l : loopstate) : loopstate :=
  let '(priority, keys) := choose_keys histPrior l in
  let newKeys := if bool_decide (keys = KNone) && negb (lp_deliveryRequest l) then true else lp_newUnsyncedKeys l in
  if negb (lp_deliveryRequest l) &&
     (lp_justSynced l || ((0 <? #(lp_unsynced l)) && bool_decide (keys = KNone))
      || (#(lp_unsynced l) =? SyncBatchSize (sy_params (lp_sy l)))) then
    let s := lp_sy l in
    let st := sy_state s in
    let st := {| ss_Db := ss_Db st; ss_SessionAt := ss_SessionAt st; ss_LastSeenAt := counter;
                 ss_Latest := ZeroKey; ss_Synced := ss_Synced st |} in
    let s := {| sy_params := sy_params s; sy_syncF := sy_syncF s; sy_key := sy_key s; sy_state := st;
                sy_deliveryRequest := sy_deliveryRequest s; sy_newUnsyncedKeys := sy_newUnsyncedKeys s;
                sy_quit := sy_quit s; sy_keys := sy_keys s; sy_deliveries := sy_deliveries s;
                sy_queues := sy_queues s; sy_dbQuit := sy_dbQuit s |} in
    {| lp_sy := s; lp_unsynced := []; lp_justSynced := false; lp_priority := priority; lp_keys := KNone;
       lp_history := lp_history l; lp_deliveryRequest := true; lp_newUnsyncedKeys := false;
       lp_syncStates := lp_syncStates l; lp_sent := lp_sent l ++ [lp_unsynced l] |}
  else
    {| lp_sy := lp_sy l; lp_unsynced := lp_unsynced l; lp_justSynced := lp_justSynced l; lp_priority := priority;
       lp_keys := keys; lp_history := lp_history l; lp_deliveryRequest := lp_deliveryRequest l;
       lp_newUnsyncedKeys := newKeys; lp_syncStates := lp_syncStates l; lp_sent := lp_sent l |}.

(** What happens at the select: other routines add keys or report a ready peer, or
    one of the cases is taken. *)
Inductive loopevent :=
| LAdd (r : request) (p : Z) (pick : bool)   (* [addKey] *)
| LReady                                     (* [sendUnsyncedKeys] *)
| LKeys (gen : Z)                            (* [req, more = <-keys] *)
| LDelivery                                  (* [<-deliveryRequest] *)
| LNewKeys                                   (* [<-newUnsyncedKeys] *)
| LState (h : option (list Key * bool)).     (* [state, more = <-syncStates], with its history *)

Definition with_sy (l : loopstate) (s : syncer) : loopstate :=
  {| lp_sy := s; lp_unsynced := lp_unsynced l; lp_justSynced := lp_justSynced l; lp_priority := lp_priority l;
     lp_keys := lp_keys l; lp_history := lp_history l; lp_deliveryRequest := lp_deliveryRequest l;
     lp_newUnsyncedKeys := lp_newUnsyncedKeys l; lp_syncStates := lp_syncStates l; lp_sent := lp_sent l |}.

(** [state.Synced] and [state.Latest]. *)
Definition with_state (s : syncer) (synced : bool) (latest : Key) : syncer :=
  let st := sy_state s in
  {| sy_params := sy_params s; sy_syncF := sy_syncF s; sy_key := sy_key s;
     sy_state := {| ss_Db := ss_Db st; ss_SessionAt := ss_SessionAt st; ss_LastSeenAt := ss_LastSeenAt st;
                    ss_Latest := latest; ss_Synced := synced |};
     sy_deliveryRequest := sy_deliveryRequest s; sy_newUnsyncedKeys := sy_newUnsyncedKeys s; sy_quit := sy_quit s;
     sy_keys := sy_keys s; sy_deliveries := sy_deliveries s; sy_queues := sy_queues s; sy_dbQuit := sy_dbQuit s |}.

(** The end of an iteration: the request joins the batch unless its type is not allowed. *)
Definition loop_add (l : loopstate) (req : request) (gen : Z) : option loopstate :=
  match newSyncRequest req (lp_priority l) gen with
  | Panic => None
  | Err _ => Some l
  | Ok sreq =>
    Some {| lp_sy := lp_sy l; lp_unsynced := lp_unsynced l ++ [sreq]; lp_justSynced := lp_justSynced l;
            lp_priority := lp_priority l; lp_keys := lp_keys l; lp_history := lp_history l;
            lp_deliveryRequest := lp_deliveryRequest l; lp_newUnsyncedKeys := lp_newUnsyncedKeys l;
            lp_syncStates := lp_syncStates l; lp_sent := lp_sent l |}
  end.

(** A receive from [keys]: the request with the state before it joins the batch. *)
Definition loop_take (l : loopstate) : option (option request * loopstate) :=
  let s := lp_sy l in
  match lp_keys l with
  | KNone => None
  | KQueue p =>
    ch ← index (sy_keys s) p;
    match ch with
    | [] => None
    | req :: ch =>
      Some (Some req, with_sy l (with_keys s (<[Z.to_nat p := ch]> (sy_keys s)) (sy_newUnsyncedKeys s)))
    end
  | KHistory =>
    h ← lp_history l;
    match h with
    | ([], false) => None
    | ([], true) =>
      (* the history channel is closed: the segment is complete *)
      Some (None,
        {| lp_sy := with_state s true (ss_Latest (sy_state s)); lp_unsynced := lp_unsynced l; lp_justSynced := true;
           lp_priority := lp_priority l; lp_keys := KHistory; lp_history := None;
           lp_deliveryRequest := lp_deliveryRequest l; lp_newUnsyncedKeys := lp_newUnsyncedKeys l;
           lp_syncStates := true; lp_sent := lp_sent l |})
    | (k :: h, closes) =>
      Some (Some (RKey k),
        {| lp_sy := with_state s (ss_Synced (sy_state s)) k; lp_unsynced := lp_unsynced l;
           lp_justSynced := lp_justSynced l; lp_priority := lp_priority l; lp_keys := KHistory; lp_history := Some (h, closes);
           lp_deliveryRequest := lp_deliveryRequest l; lp_newUnsyncedKeys := lp_newUnsyncedKeys l;
           lp_syncStates := lp_syncStates l; lp_sent := lp_sent l |})
    end
  end.

(** The other cases of the select. *)
Definition loop_wake (l : loopstate) (e : loopevent) : option loopstate :=
  let s := lp_sy l in
  match e with
  | LDelivery =>
    if lp_deliveryRequest l && sy_deliveryRequest s then
      let s := {| sy_params := sy_params s; sy_syncF := sy_syncF s; sy_key := sy_key s; sy_state := sy_state s;
                  sy_deliveryRequest := false; sy_newUnsyncedKeys := sy_newUnsyncedKeys s; sy_quit := sy_quit s;
                  sy_keys := sy_keys s; sy_deliveries := sy_deliveries s; sy_queues := sy_queues s; sy_dbQuit := sy_dbQuit s |} in
      Some {| lp_sy := s; lp_unsynced := lp_unsynced l; lp_justSynced := lp_justSynced l;
              lp_priority := lp_priority l; lp_keys := lp_keys l; lp_history := lp_history l;
              lp_deliveryRequest := false; lp_newUnsyncedKeys := lp_newUnsyncedKeys l;
              lp_syncStates := lp_syncStates l; lp_sent := lp_sent l |}
    else None
  | LNewKeys =>
    if lp_newUnsyncedKeys l && sy_newUnsyncedKeys s then
      Some {| lp_sy := with_keys s (sy_keys s) false; lp_unsynced := lp_unsynced l;
              lp_justSynced := lp_justSynced l; lp_priority := lp_priority l; lp_keys := KQueue High;
              lp_history := lp_history l; lp_deliveryRequest := lp_deliveryRequest l; lp_newUnsyncedKeys := false;
              lp_syncStates := lp_syncStates l; lp_sent := lp_sent l |}
    else None
  | LState h =>
    if lp_syncStates l then
      Some {| lp_sy := with_state s (bool_decide (h = None)) (ss_Latest (sy_state s));
              lp_unsynced := lp_unsynced l; lp_justSynced := lp_justSynced l; lp_priority := lp_priority l;
              lp_keys := lp_keys l; lp_history := match h with Some _ => h | None => lp_history l end;
              lp_deliveryRequest := lp_deliveryRequest l; lp_newUnsyncedKeys := lp_newUnsyncedKeys l;
              lp_syncStates := false; lp_sent := lp_sent l |}
    else None
  | _ => None
  end.

(** One event; the cases of the select end with the head of the next iteration. [counter] is
    the storage counter then. Second result: the request taken and where from. [None]: the
    case cannot be taken. *)
Definition loop_step (l : loopstate) (e : loopevent) (counter : Z) : option (loopstate * list (keysrc * request)) :=
  match index (SyncPriorities (sy_params (lp_sy l))) HistoryReq with
  | None => None
  | Some histPrior =>
    match e with
    | LAdd r p pick =>
      match addKey (lp_sy l) r p pick with
      | Ret (_, s) => Some (with_sy l s, [])
      | _ => None
      end
    | LReady => Some (with_sy l (sendUnsyncedKeys (lp_sy l)), [])
    | LKeys gen =>
      match loop_take l with
      | None => None
      | Some (None, l') => Some (loop_prepare histPrior counter l', [])
      | Some (Some req, l') =>
        l'' ← loop_add l' req gen;
        Some (loop_prepare histPrior counter l'', [(lp_keys l, req)])
      end
    | _ => l' ← loop_wake l e; Some (loop_prepare histPrior counter l', [])
    end
  end.

Fixpoint loop_run (l : loopstate) (es : list (loopevent * Z)) : option (loopstate * list (keysrc * request)) :=
  match es with
  | [] => Some (l, [])
  | (e, c) :: es =>
    '(l1, t1) ← loop_step l e c;
    '(l2, t2) ← loop_run l1 es;
    Some (l2, t1 ++ t2)
  end.

(** ** Lemmas: the loop *)

(** Keys of the requests that may be sent. *)
Definition key_of (r : request) : list Key :=
  match parseRequest r 0 with Ok (k, _, _, _) => [k] | _ => [] end.
Definition pending_keys (l : loopstate) : list Key := sq_Key <$> (concat (lp_sent l) ++ lp_unsynced l).
Definition queue (l : loopstate) (p : Z) : list request := default [] (index (sy_keys (lp_sy l)) p).

Lemma loop_prepare_same h c l :
  pending_keys (loop_prepare h c l) = pending_keys l /\ sy_keys (lp_sy (loop_prepare h c l)) = sy_keys (lp_sy l).
Proof.
  unfold loop_prepare. destruct (choose_keys h l) as [p k].
  destruct (negb (lp_deliveryRequest l) && _); [|done]. cbn. split; [|done].
  unfold pending_keys. cbn. rewrite concat_app. cbn. by rewrite !app_nil_r.
Qed.

Lemma parseRequest_key r g k id c m : parseRequest r g = Ok (k, id, c, m) -> key_of r = [k].
Proof.
  unfold key_of. destruct r; cbn; try (intros; by simplify_eq).
  destruct (#val <? 40); intros; by simplify_eq.
Qed.

Lemma loop_add_keys l r g l' :
  loop_add l r g = Some l' ->
  pending_keys l' = pending_keys l ++ key_of r /\ sy_keys (lp_sy l') = sy_keys (lp_sy l).
Proof.
  unfold loop_add, newSyncRequest. destruct (parseRequest r g) as [[[[k id] c] m]| |] eqn:E; cbn; [| |done].
  - intros [= <-]. split; [|done]. unfold pending_keys. cbn.
    rewrite app_assoc, fmap_app. by rewrite (parseRequest_key _ _ _ _ _ _ E).
  - intros [= <-]. split; [|done]. destruct r; cbn in E; try done.
    + by destruct (#val <? 40).
    + unfold key_of. cbn. by rewrite app_nil_r.
Qed.

Lemma index_update {A} (l : list A) p q x y :
  0 <= p -> 0 <= q -> index l p = Some y ->
  index (<[Z.to_nat p := x]> l) q = if decide (q = p) then Some x else index l q.
Proof.
  intros Hp Hq. unfold index. rewrite !decide_True by lia. intros Hl. case_decide as E.
  - subst q. apply list_lookup_insert_eq. by apply lookup_lt_Some in Hl.
  - rewrite decide_True by lia. apply list_lookup_insert_ne. lia.
Qed.

Lemma index_nonneg {A} (l : list A) p x : index l p = Some x -> 0 <= p.
Proof. unfold index. by case_decide. Qed.

(** The requests an event adds to a queue. *)
Definition added (l : loopstate) (e : loopevent) (p : Z) : list request :=
  match e with
  | LAdd r q pick =>
    match addKey (lp_sy l) r q pick with
    | Ret (true, _) => if decide (q = p) then [r] else []
    | _ => []
    end
  | _ => []
  end.

Definition from_queue (p : Z) (t : list (keysrc * request)) : list request :=
  (filter (fun x => fst x = KQueue p) t).*2.

Lemma addKey_queue l r q pick b s p :
  addKey (lp_sy l) r q pick = Ret (b, s) -> 0 <= p ->
  queue (with_sy l s) p = queue l p ++ added l (LAdd r q pick) p.
Proof.
  unfold added. intros E Hp. rewrite E. revert E. unfold addKey.
  destruct (index (sy_keys (lp_sy l)) q) as [ch|] eqn:Ei; [|done].
  destruct (_ && _); [|destruct (sy_quit (lp_sy l)); [|done]]; intros [= <- <-]; unfold queue; cbn.
  - rewrite (index_update _ q p _ ch) by (try done; by eapply index_nonneg).
    destruct (decide (p = q)) as [-> |Hne]; [rewrite decide_True by done; by rewrite Ei|].
    rewrite decide_False by done. by rewrite app_nil_r.
  - by rewrite app_nil_r.
Qed.

Lemma loop_take_queue l o l' p :
  loop_take l = Some (o, l') -> 0 <= p ->
  pending_keys l' = pending_keys l /\
  queue l p = match o with Some r => from_queue p [(lp_keys l, r)] | None => [] end ++ queue l' p.
Proof.
  unfold loop_take, from_queue. intros E Hp. destruct (lp_keys l) as [|q|] eqn:Ek; [done| |].
  - destruct (index (sy_keys (lp_sy l)) q) as [[|r ch]|] eqn:Ei; cbn in E; [done| |done].
    injection E as <- <-. split; [done|]. unfold queue. cbn [lp_sy with_sy with_keys sy_keys].
    rewrite (index_update _ q p _ (r :: ch)) by (try done; by eapply index_nonneg).
    destruct (decide (p = q)) as [-> |Hne].
    + rewrite Ei, filter_cons_True by done. done.
    + rewrite filter_cons_False; [done|]. cbn. congruence.
  - destruct (lp_history l) as [[[|k h] [|]]|]; cbn in E; try done; injection E as <- <-; done.
Qed.

Lemma loop_wake_queue l e l' :
  loop_wake l e = Some l' -> pending_keys l' = pending_keys l /\ sy_keys (lp_sy l') = sy_keys (lp_sy l).
Proof.
  destruct e; cbn; try done; case_match; try done; intros [= <-]; done.
Qed.

(** One event: what is taken goes into the batches, what is added waits in its queue. *)
Lemma loop_step_keys l e c l' t p :
  loop_step l e c = Some (l', t) -> 0 <= p ->
  pending_keys l' = pending_keys l ++ (t.*2 ≫= key_of) /\
  queue l p ++ added l e p = from_queue p t ++ queue l' p.
Proof.
  unfold loop_step. destruct (index (SyncPriorities _) HistoryReq) as [h|]; [|done].
  assert (Hw : forall l1, loop_wake l e = Some l1 -> added l e p = [] ->
    pending_keys (loop_prepare h c l1) = pending_keys l /\ queue l p ++ added l e p = queue (loop_prepare h c l1) p).
  { intros l1 E1 ->. destruct (loop_wake_queue _ _ _ E1) as [Hpk Hk].
    destruct (loop_prepare_same h c l1) as [-> Hk1]. split; [done|].
    unfold queue. rewrite Hk1, Hk. by rewrite app_nil_r. }
  intros E Hp. destruct e as [r q pick| |gen| | |hs].
  - destruct (addKey (lp_sy l) r q pick) as [[b s]| |] eqn:Ea; [|done|done]. injection E as <- <-.
    rewrite (addKey_queue _ _ _ _ _ _ p Ea Hp). cbn. by rewrite app_nil_r.
  - injection E as <- <-. cbn. by rewrite !app_nil_r.
  - cbn [added]. rewrite app_nil_r. destruct (loop_take l) as [[o l1]|] eqn:Et; [|done].
    destruct (loop_take_queue _ _ _ p Et Hp) as [Hpk Hq]. destruct o as [r|].
    + destruct (loop_add l1 r gen) as [l2|] eqn:El; [|done]. cbn in E. injection E as <- <-.
      destruct (loop_add_keys _ _ _ _ El) as [Hpk2 Hk2]. destruct (loop_prepare_same h c l2) as [-> Hk3].
      rewrite Hpk2, Hpk, Hq. split; [cbn; by rewrite app_nil_r|]. unfold queue. by rewrite Hk3, Hk2.
    + injection E as <- <-. destruct (loop_prepare_same h c l1) as [-> Hk3]. rewrite Hpk, Hq.
      split; [cbn; by rewrite app_nil_r|]. unfold queue. by rewrite Hk3.
  - destruct (loop_wake l LDelivery) as [l1|] eqn:Ew; cbn in E; [|done]. injection E as <- <-.
    cbn [fmap list_fmap mbind list_bind]. rewrite app_nil_r. by apply Hw.
  - destruct (loop_wake l LNewKeys) as [l1|] eqn:Ew; cbn in E; [|done]. injection E as <- <-.
    cbn [fmap list_fmap mbind list_bind]. rewrite app_nil_r. by apply Hw.
  - destruct (loop_wake l (LState hs)) as [l1|] eqn:Ew; cbn in E; [|done]. injection E as <- <-.
    cbn [fmap list_fmap mbind list_bind]. rewrite app_nil_r. by apply Hw.
Qed.

(** The requests a run adds to a queue. *)
Fixpoint added_run (l : loopstate) (es : list (loopevent * Z)) (p : Z) : list request :=
  match es with
  | [] => []
  | (e, c) :: es => added l e p ++ match loop_step l e c with Some (l1, _) => added_run l1 es p | None => [] end
  end.

Lemma loop_run_keys l es l' t p :
  loop_run l es = Some (l', t) -> 0 <= p ->
  pending_keys l' = pending_keys l ++ (t.*2 ≫= key_of) /\
  queue l p ++ added_run l es p = from_queue p t ++ queue l' p.
Proof.
  revert l t. induction es as [|[e c] es IH]; intros l t E Hp; cbn in E.
  { injection E as <- <-. cbn. by rewrite !app_nil_r. }
  destruct (loop_step l e c) as [[l1 t1]|] eqn:E1; [|done]. cbn in E.
  destruct (loop_run l1 es) as [[l2 t2]|] eqn:E2; [|done]. cbn in E. injection E as <- <-.
  destruct (loop_step_keys _ _ _ _ _ p E1 Hp) as [Hk1 Hq1]. destruct (IH _ _ E2 Hp) as [Hk2 Hq2].
  cbn [added_run]. rewrite E1. split.
  - rewrite Hk2, Hk1, fmap_app, bind_app. by rewrite app_assoc.
  - rewrite app_assoc, Hq1, <- app_assoc, Hq2. unfold from_queue. by rewrite filter_app, fmap_app, app_assoc.
Qed.

(** C12: In every run of the key loop the keys in the sent batches and in the open
    batch are, in order, exactly the keys of the requests it has taken, and for each
    priority the requests added so far are those taken from its queue followed by those
    still waiting: no key is lost, duplicated or reordered within its priority. *)
Theorem keys_sent_once_in_order s es l t p :
  sy_keys s = [[]; []; []] -> 0 <= p ->
  let l0 := loop_prepare Low 0 (loop_init s) in
  loop_run l0 es = Some (l, t) ->
  sq_Key <$> (concat (lp_sent l) ++ lp_unsynced l) = t.*2 ≫= key_of /\
  added_run l0 es p = from_queue p t ++ queue l p.
Proof.
  intros Hs Hp l0 E. destruct (loop_run_keys _ _ _ _ p E Hp) as [Hk Hq].
  destruct (loop_prepare_same Low 0 (loop_init s)) as [Hpk Hsk]. fold l0 in Hpk, Hsk. split.
  - unfold pending_keys in *. rewrite Hk, Hpk. done.
  - assert (queue l0 p = []) as Hnil; [|by rewrite Hnil in Hq].
    unfold queue. rewrite Hsk. cbn. rewrite Hs. unfold index. case_decide; [|done].
    destruct (Z.to_nat p) as [|[|[|n]]]; done.
Qed.

(** ** The script *)

Definition in_segment (i : Z) (seg : DbSyncState) : Prop := First seg <= i < Last seg.

(** The environment leaves the counters of the state alone. *)
Definition undisturbed (env : nat -> syncState -> syncState) : Prop :=
  forall n st, ss_Db (env n st) = ss_Db st /\ ss_LastSeenAt (env n st) = ss_LastSeenAt st /\
    ss_SessionAt (env n st) = ss_SessionAt st.

(** C29: When no message goes out while the script waits and there is no unfinished
    earlier session, the segments of the script cover every storage index from the
    last synced one (from the last disconnect, if synced) up to the session start,
    each exactly once and over the whole address range. *)
Theorem sync_script_covers env st i :
  undisturbed env -> ss_Latest st = ZeroKey -> First (ss_Db st) <= ss_LastSeenAt st <= ss_SessionAt st ->
  0 <= First (ss_Db st) -> (if ss_Synced st then ss_LastSeenAt st else First (ss_Db st)) <= i < ss_SessionAt st ->
  exists a seg b, fst (sync env st) = a ++ seg :: b /\ in_segment i seg /\ Start seg = Start (ss_Db st) /\
    Stop seg = Stop (ss_Db st) /\ Forall (fun s => ~ in_segment i s) (a ++ b).
Proof.
  intros Henv HL Hf H0 Hi. unfold sync. destruct (Z.eqb_spec (ss_SessionAt st) 0); [destruct (ss_Synced st); lia|].
  unfold in_segment. destruct (ss_Synced st); cbn [negb].
  - unfold sync_step3. cbn. destruct (Z.ltb_spec (ss_LastSeenAt st) (ss_SessionAt st)); [|lia].
    eexists [], _, []. split; [done|]. cbn. split_and!; try done; lia.
  - unfold sync_step1. rewrite HL. cbn [IsZeroKey negb]. change (IsZeroKey ZeroKey) with true. cbn [negb].
    unfold sync_step2, sync_step3. cbn.
    destruct (Z.ltb_spec (First (ss_Db st)) (ss_LastSeenAt st)) as [Hlt|Hge]; cbn.
    + match goal with |- context [env 2%nat ?x] => destruct (Henv 2%nat x) as (Hdb & Hls & Hsa) end.
      rewrite Hdb, Hls, Hsa. cbn.
      destruct (Z.ltb_spec (ss_LastSeenAt st) (ss_SessionAt st)) as [H3|H3]; cbn.
      * destruct (decide (i < ss_LastSeenAt st)).
        -- eexists [], _, [_]. split; [done|]. cbn. split_and!; try done; try lia.
           constructor; [cbn; lia|constructor].
        -- eexists [_], _, []. split; [done|]. cbn. split_and!; try done; try lia.
           constructor; [cbn; lia|constructor].
      * eexists [], _, []. split; [done|]. cbn. split_and!; try done; lia.
    + destruct (Z.ltb_spec (ss_LastSeenAt st) (ss_SessionAt st)) as [H3|H3]; cbn; [|lia].
      eexists [], _, []. split; [done|]. cbn. split_and!; try done; lia.
Qed.

(** When a batch of keys is sent while the second segment is served, which sets
    [LastSeenAt] to the storage counter, the third segment is skipped: nothing
    stored between the last disconnect and the session start is ever offered. *)
Theorem sync_script_gap env st i :
  ss_Synced st = false -> ss_Latest st = ZeroKey -> ss_SessionAt st <> 0 ->
  First (ss_Db st) < ss_LastSeenAt st ->
  (forall s, ss_SessionAt st <= ss_LastSeenAt (env 2%nat s) /\ ss_SessionAt (env 2%nat s) = ss_SessionAt st) ->
  ss_LastSeenAt st <= i < ss_SessionAt st ->
  Forall (fun seg => ~ in_segment i seg) (fst (sync env st)).
Proof.
  intros Hs HL Hn Hlt Henv Hi. unfold sync. destruct (Z.eqb_spec (ss_SessionAt st) 0); [done|].
  rewrite Hs. cbn [negb]. unfold sync_step1. rewrite HL. change (IsZeroKey ZeroKey) with true. cbn [negb].
  unfold sync_step2, sync_step3. cbn. destruct (Z.ltb_spec (First (ss_Db st)) (ss_LastSeenAt st)); [|lia]. cbn.
  match goal with |- context [env 2%nat ?x] => destruct (Henv x) as [Hls Hsa]; set (st2 := env 2%nat x) in * end.
  rewrite Hsa. destruct (Z.ltb_spec (ss_LastSeenAt st2) (ss_SessionAt st)); [lia|]. cbn.
  constructor; [|constructor]. unfold in_segment. cbn. lia.
Qed.

(** After an unfinished earlier session the chunk with the index [Last] of that
    session is in no segment: the first segment ends before [Last], the next one
    begins after it. *)
Theorem sync_script_skips_last env st :
  undisturbed env -> ss_Synced st = false -> IsZeroKey (ss_Latest st) = false -> ss_SessionAt st <> 0 ->
  First (ss_Db st) <= Last (ss_Db st) < ss_SessionAt st -> is_u64 (First (ss_Db st)) -> is_u64 (ss_SessionAt st) ->
  Last (ss_Db st) <= ss_LastSeenAt st <= ss_SessionAt st -> Last (ss_Db st) + 1 < ss_LastSeenAt st ->
  Forall (fun seg => ~ in_segment (Last (ss_Db st)) seg) (fst (sync env st)).
Proof.
  intros Henv Hs HL Hn Hf Hu1 Hu2 Hl Hl2. unfold sync. destruct (Z.eqb_spec (ss_SessionAt st) 0); [done|].
  rewrite Hs. cbn [negb]. unfold sync_step1. rewrite HL. cbn [negb].
  match goal with |- context [env 1%nat ?x] => destruct (Henv 1%nat x) as (Hdb & Hls & Hsa) end.
  rewrite Hdb, Hsa. cbn. destruct (Z.ltb_spec (Last (ss_Db st)) (ss_SessionAt st)); [|lia].
  unfold sync_step2, sync_step3. cbn. rewrite Hls. cbn.
  unfold is_u64 in *. rewrite u64_id by (unfold is_u64; lia).
  destruct (Z.ltb_spec (Last (ss_Db st) + 1) (ss_LastSeenAt st)); [|lia]. cbn.
  match goal with |- context [env 2%nat ?x] => destruct (Henv 2%nat x) as (Hdb2 & Hls2 & Hsa2) end.
  rewrite Hls2, Hsa2. cbn. rewrite Hls, Hsa. cbn.
  destruct (Z.ltb_spec (ss_LastSeenAt st) (ss_SessionAt st)); cbn;
    repeat constructor; unfold in_segment; cbn; lia.
Qed.

(** ** Witnesses *)

Definition full_range : DbSyncState := {| Start := replicate 32 0; Stop := replicate 32 255; First := 3; Last := 5 |}.

(** A peer last seen at index 10 that comes back at index 20. *)
Definition state0 (synced : bool) (latest : Key) : syncState :=
  {| ss_Db := full_range; ss_SessionAt := 20; ss_LastSeenAt := 10; ss_Latest := latest; ss_Synced := synced |}.

Definition quiet (n : nat) (st : syncState) : syncState := st.

Lemma quiet_undisturbed : undisturbed quiet.
Proof. intros n st. done. Qed.

Lemma sync_script_covers_witness :
  exists a seg b, fst (sync quiet (state0 false ZeroKey)) = a ++ seg :: b /\ in_segment 12 seg /\
    Start seg = replicate 32 0 /\ Stop seg = replicate 32 255 /\ Forall (fun s => ~ in_segment 12 s) (a ++ b).
Proof.
  apply (sync_script_covers quiet (state0 false ZeroKey) 12); (exact quiet_undisturbed || reflexivity || (cbn; lia)).
Defined.

(** The loop sends a batch at counter 25 during the second segment. *)
Definition sends (n : nat) (st : syncState) : syncState :=
  {| ss_Db := ss_Db st; ss_SessionAt := 20; ss_LastSeenAt := 25; ss_Latest := ZeroKey; ss_Synced := false |}.

Lemma sync_script_gap_witness :
  Forall (fun seg => ~ in_segment 12 seg) (fst (sync sends (state0 false ZeroKey))).
Proof.
  apply (sync_script_gap sends (state0 false ZeroKey) 12); (reflexivity || (cbn; lia)).
Defined.

Lemma sync_script_skips_last_witness :
  Forall (fun seg => ~ in_segment 5 seg) (fst (sync quiet (state0 false (replicate 32 7)))).
Proof.
  apply (sync_script_skips_last quiet (state0 false (replicate 32 7))); 
    (exact quiet_undisturbed || (vm_compute; reflexivity) || (unfold is_u64; cbn; lia)).
Defined.

(** Three keys, the peer ready after the first. *)
Definition run0 : list (loopevent * Z) :=
  [(LAdd (RKey [1]) Low true, 0); (LAdd (RKey [2]) High true, 0); (LNewKeys, 7); (LKeys 0, 8); (LKeys 0, 9);
   (LAdd (RKey [3]) Low true, 9); (LReady, 9); (LDelivery, 9)].
Definition idle : syncer := newSyncer NewSyncParams true ZeroKey (state0 true ZeroKey).

Lemma keys_sent_once_in_order_witness :
  exists l t, loop_run (loop_prepare Low 0 (loop_init idle)) run0 = Some (l, t) /\
    lp_sent l = [[{| sq_Key := [2]; sq_Priority := High |}; {| sq_Key := [1]; sq_Priority := Low |}]] /\
    sq_Key <$> (concat (lp_sent l) ++ lp_unsynced l) = t.*2 ≫= key_of /\
    added_run (loop_prepare Low 0 (loop_init idle)) run0 Low = from_queue Low t ++ queue l Low.
Proof.
  destruct (loop_run (loop_prepare Low 0 (loop_init idle)) run0) as [[l t]|] eqn:E; [|vm_compute in E; discriminate].
  exists l, t. split; [reflexivity|]. split; [vm_compute in E; injection E as <- <-; reflexivity|].
  apply (keys_sent_once_in_order idle run0 l t Low); [reflexivity|unfold Low; lia|exact E].
Defined.
