(* ===== verification/Hive.v ===== *)
(** The peers of a node ([livepeer/network/hive.go]) and the connection object
    they share with the protocol ([protocol.go]): sending, joining and leaving the
    Kademlia table, proximity, peer suggestions and the replies to lookups.

    The Kademlia table is the vendored package of go-ethereum: the class
    [Kademlia] has the calls the hive makes. A peer is the identifier of its
    connection [bzz] in the table [bees]. The theorems: [proximity] is the number
    of leading bits two addresses share and orders addresses like the XOR metric,
    and the peers closer than this node are exactly the closer ones. *)
From stdpp Require Import base gmap list strings.
From Stdlib Require Import ZArith Lia.
From S2P Require Import Prelude Types Database DbStore Streamer Messages SyncDb Syncer.

Definition ProtocolLength : Z := 11.

(** ** Proximity *)

(** The loop over the bits of a byte, [n] of them from bit [j] on. *)
Fixpoint prox_byte (n : nat) (j oxo : Z) : option Z :=
  match n with
  | O => None
  | S n => if negb (Z.land (Z.shiftr oxo (7 - j)) 1 =? 0) then Some j else prox_byte n (j + 1) oxo
  end.

Fixpoint prox_loop (i : Z) (one other : Hash32) : Z :=
  match one, other with
  | x :: one, y :: other =>
    match prox_byte 8 0 (Z.lxor x y) with
    | Some j => i * 8 + j
    | None => prox_loop (i + 1) one other
    end
  | _, _ => i * 8
  end.

Definition proximity (one other : Hash32) : Z := prox_loop 0 one other.

(** ** Kademlia *)

Record NodeRecord := mkRecord { nr_Addr : Address; nr_Url : bytes }.

(** What [On] does: the table, the [Meta] of the record it passed to the callback,
    whether it failed and the peer it replaced and dropped. *)
Record on_result (K : Type) := mkOn {
  on_kad : K; on_meta : option bytes; on_err : bool; on_replaced : option peer }.
Arguments mkOn {K} _ _ _ _.
Arguments on_kad {K} _.
Arguments on_meta {K} _.
Arguments on_err {K} _.
Arguments on_replaced {K} _.

Class Kademlia (K : Type) := {
  kad_FindClosest : K -> Address -> Z -> list peer;
  (* the callback says whether it accepts the [Meta] of the record *)
  kad_On : K -> peer -> Address -> (option bytes -> bool) -> on_result K;
  (* the callback gives the new [Meta] of the record *)
  kad_Off : K -> Address -> (peer -> option bytes) -> K;
  kad_Add : K -> list NodeRecord -> K;
  kad_Count : K -> Z;
  kad_DBCount : K -> Z;
  kad_MaxProx : K -> Z;
  kad_Suggest : K -> option NodeRecord * bool * Z;
  kad_KeyRange : K -> Address -> Address * Address
}.

(** ** Connections and the hive *)

Section Hive.
Context {K : Type} `{Kademlia K}.
(** The state of the payment channel of a peer ([swap.Swap]). *)
Context {SW : Type}.
(** encoding/json on sync states, and [peerAddr.String()], the enode URL. *)
Context (sync_Marshal : syncState -> option bytes) (sync_Unmarshal : bytes -> option syncState).
Context (addr_String : peerAddr -> bytes).
(** [netutil.CheckRelayIP]: whether an address may be relayed by a sender. *)
Context (CheckRelayIP : bytes -> bytes -> bool).

Record bzz := mkBzz {
  bz_remoteAddr : peerAddr;
  bz_lastActive : Z;
  bz_swap : option SW;
  bz_syncEnabled : bool;
  bz_syncer : option syncer;
  bz_syncState : option syncState;
  bz_up : bool;                   (* the connection takes messages *)
  bz_dropped : bool;              (* [Drop] was called *)
  bz_out : list Msg               (* messages sent *)
}.

(** Where the update loop of the hive is: waiting on [more], or woken by a signal. *)
Inductive updater := UWaiting | UWoken | UToggle (need : bool).

Record Hive := mkHive {
  hv_kad : K;
  hv_id : bytes;
  hv_addr : Address;
  hv_listen : bytes * Z;          (* host and port of [listenAddr()] *)
  hv_swapEnabled : bool;
  hv_syncEnabled : bool;
  hv_blockRead : bool;
  hv_blockWrite : bool;
  hv_loop : updater;
  hv_alarm : bool;                (* the ticker of [keepAlive] is set *)
  hv_calls : list bytes;          (* urls passed to [connectPeer] *)
  bees : gmap peer bzz
}.

Definition NewHive (kad : K) (addr : Address) (swapEnabled syncEnabled : bool) : Hive :=
  {| hv_kad := kad; hv_id := []; hv_addr := addr; hv_listen := ([], 0); hv_swapEnabled := swapEnabled;
     hv_syncEnabled := syncEnabled; hv_blockRead := false; hv_blockWrite := false; hv_loop := UWaiting;
     hv_alarm := true; hv_calls := []; bees := ∅ |}.

Definition with_kad (h : Hive) (kad : K) : Hive :=
  {| hv_kad := kad; hv_id := hv_id h; hv_addr := hv_addr h; hv_listen := hv_listen h;
     hv_swapEnabled := hv_swapEnabled h; hv_syncEnabled := hv_syncEnabled h; hv_blockRead := hv_blockRead h;
     hv_blockWrite := hv_blockWrite h; hv_loop := hv_loop h; hv_alarm := hv_alarm h; hv_calls := hv_calls h;
     bees := bees h |}.
Definition with_bees (h : Hive) (b : gmap peer bzz) : Hive :=
  {| hv_kad := hv_kad h; hv_id := hv_id h; hv_addr := hv_addr h; hv_listen := hv_listen h;
     hv_swapEnabled := hv_swapEnabled h; hv_syncEnabled := hv_syncEnabled h; hv_blockRead := hv_blockRead h;
     hv_blockWrite := hv_blockWrite h; hv_loop := hv_loop h; hv_alarm := hv_alarm h; hv_calls := hv_calls h;
     bees := b |}.
Definition with_loop (h : Hive) (u : updater) (alarm : bool) (calls : list bytes) : Hive :=
  {| hv_kad := hv_kad h; hv_id := hv_id h; hv_addr := hv_addr h; hv_listen := hv_listen h;
     hv_swapEnabled := hv_swapEnabled h; hv_syncEnabled := hv_syncEnabled h; hv_blockRead := hv_blockRead h;
     hv_blockWrite := hv_blockWrite h; hv_loop := u; hv_alarm := alarm; hv_calls := calls;
     bees := bees h |}.

(** The four switches for tests. *)
Definition SyncEnabled (h : Hive) (on : bool) : Hive :=
  {| hv_kad := hv_kad h; hv_id := hv_id h; hv_addr := hv_addr h; hv_listen := hv_listen h;
     hv_swapEnabled := hv_swapEnabled h; hv_syncEnabled := on; hv_blockRead := hv_blockRead h;
     hv_blockWrite := hv_blockWrite h; hv_loop := hv_loop h; hv_alarm := hv_alarm h; hv_calls := hv_calls h;
     bees := bees h |}.
Definition SwapEnabled (h : Hive) (on : bool) : Hive :=
  {| hv_kad := hv_kad h; hv_id := hv_id h; hv_addr := hv_addr h; hv_listen := hv_listen h;
     hv_swapEnabled := on; hv_syncEnabled := hv_syncEnabled h; hv_blockRead := hv_blockRead h;
     hv_blockWrite := hv_blockWrite h; hv_loop := hv_loop h; hv_alarm := hv_alarm h; hv_calls := hv_calls h;
     bees := bees h |}.
Definition BlockNetworkRead (h : Hive) (on : bool) : Hive :=
  {| hv_kad := hv_kad h; hv_id := hv_id h; hv_addr := hv_addr h; hv_listen := hv_listen h;
     hv_swapEnabled := hv_swapEnabled h; hv_syncEnabled := hv_syncEnabled h; hv_blockRead := on;
     hv_blockWrite := hv_blockWrite h; hv_loop := hv_loop h; hv_alarm := hv_alarm h; hv_calls := hv_calls h;
     bees := bees h |}.
Definition BlockNetworkWrite (h : Hive) (on : bool) : Hive :=
  {| hv_kad := hv_kad h; hv_id := hv_id h; hv_addr := hv_addr h; hv_listen := hv_listen h;
     hv_swapEnabled := hv_swapEnabled h; hv_syncEnabled := hv_syncEnabled h; hv_blockRead := hv_blockRead h;
     hv_blockWrite := on; hv_loop := hv_loop h; hv_alarm := hv_alarm h; hv_calls := hv_calls h;
     bees := bees h |}.

(** A change of one connection. *)
Definition on_bee (h : Hive) (p : peer) (f : bzz -> bzz) : Hive := with_bees h (alter f p (bees h)).

Definition set_dropped (b : bzz) : bzz :=
  {| bz_remoteAddr := bz_remoteAddr b; bz_lastActive := bz_lastActive b; bz_swap := bz_swap b;
     bz_syncEnabled := bz_syncEnabled b; bz_syncer := bz_syncer b; bz_syncState := bz_syncState b;
     bz_up := bz_up b; bz_dropped := true; bz_out := bz_out b |}.
Definition set_syncState (st : option syncState) (b : bzz) : bzz :=
  {| bz_remoteAddr := bz_remoteAddr b; bz_lastActive := bz_lastActive b; bz_swap := bz_swap b;
     bz_syncEnabled := bz_syncEnabled b; bz_syncer := bz_syncer b; bz_syncState := st;
     bz_up := bz_up b; bz_dropped := bz_dropped b; bz_out := bz_out b |}.
Definition set_syncer (s : option syncer) (b : bzz) : bzz :=
  {| bz_remoteAddr := bz_remoteAddr b; bz_lastActive := bz_lastActive b; bz_swap := bz_swap b;
     bz_syncEnabled := bz_syncEnabled b; bz_syncer := s; bz_syncState := bz_syncState b;
     bz_up := bz_up b; bz_dropped := bz_dropped b; bz_out := bz_out b |}.
Definition add_out (m : Msg) (b : bzz) : bzz :=
  {| bz_remoteAddr := bz_remoteAddr b; bz_lastActive := bz_lastActive b; bz_swap := bz_swap b;
     bz_syncEnabled := bz_syncEnabled b; bz_syncer := bz_syncer b; bz_syncState := bz_syncState b;
     bz_up := bz_up b; bz_dropped := bz_dropped b; bz_out := bz_out b ++ [m] |}.

(** [Drop]. *)
Definition Drop (h : Hive) (p : peer) : Hive := on_bee h p set_dropped.

(** [p2p.Send] refuses a code that is not below the length of the protocol and fails on a
    closed connection. The flag is the error. *)
Definition send (h : Hive) (p : peer) (m : Msg) : bool * Hive :=
  if hv_blockWrite h then (true, h)
  else match bees h !! p with
  | None => (true, h)
  | Some b =>
    if (Msg_code m <? ProtocolLength) && bz_up b then (false, on_bee h p (add_out m))
    else (true, Drop h p)
  end.

Definition bee_Addr (h : Hive) (p : peer) : Address :=
  match bees h !! p with Some b => pa_Addr (bz_remoteAddr b) | None => [] end.

(** The signal on [more], lost when the loop does not wait. *)
Definition more_signal (h : Hive) : Hive :=
  match hv_loop h with
  | UWaiting => with_loop h UWoken (hv_alarm h) (hv_calls h)
  | _ => h
  end.

(** [copy(addr[:], target[:])]. *)
Definition to_address (target : Key) : Address := copy_at (make_bytes 32) 0 target.

Definition getPeers (h : Hive) (target : Key) (max : Z) : list peer :=
  kad_FindClosest (hv_kad h) (to_address target) max.

Definition getPeersCloserThanSelf (h : Hive) (target : Key) (max : Z) : list peer :=
  let addr := to_address target in
  filter (fun p => proximity (hv_addr h) addr < proximity (bee_Addr h p) addr) (kad_FindClosest (hv_kad h) addr max).

Definition DropAll (h : Hive) : Hive :=
  foldl Drop h (kad_FindClosest (hv_kad h) (make_bytes 32) 0).

Definition PeersCount (h : Hive) : Z := #(kad_FindClosest (hv_kad h) (make_bytes 32) 0).

Definition newNodeRecord (addr : peerAddr) : NodeRecord := {| nr_Addr := pa_Addr addr; nr_Url := addr_String addr |}.

Definition HandlePeersMsg (h : Hive) (req : peersMsgData) (from : peer) : Hive :=
  match bees h !! from with
  | None => h
  | Some b =>
    let good := filter (fun a => CheckRelayIP (pa_IP (bz_remoteAddr b)) (pa_IP a) = true) (pm_Peers req) in
    with_kad h (kad_Add (hv_kad h) (newNodeRecord <$> good))
  end.

(** ** Sync states of peers *)

Definition encodeSync (state : syncState) : option bytes := sync_Marshal state.
Definition decodeSync (meta : bytes) : option syncState := if #meta =? 0 then None else sync_Unmarshal meta.

(** The sync state for the [Meta] of a record; [None] is an error. *)
Definition loadSync (meta : option bytes) : option syncState :=
  match meta with
  | None => Some {| ss_Db := no_sync; ss_SessionAt := 0; ss_LastSeenAt := 0; ss_Latest := []; ss_Synced := false |}
  | Some m => decodeSync m
  end.

(** A nil state encodes as [null]. *)
Definition saveSync (h : Hive) (p : peer) : option bytes :=
  b ← bees h !! p;
  match bz_syncState b with Some st => encodeSync st | None => Some (str "null") end.

Definition self_lookup : retrieveRequestMsgData :=
  {| rr_Key := None; rr_Id := 0; rr_MaxSize := 0; rr_MaxPeers := 0; rr_Timeout := 0; rr_timeout := None;
     rr_from := None |}.

(** The flag is the error; the callback has set the sync state also when the table is full. *)
Definition addPeer (h : Hive) (p : peer) : bool * Hive :=
  let r := kad_On (hv_kad h) p (bee_Addr h p) (fun meta => bool_decide (loadSync meta <> None)) in
  let h := with_kad h (on_kad r) in
  let h := match loadSync (on_meta r) with Some st => on_bee h p (set_syncState (Some st)) | None => h end in
  let h := match on_replaced r with Some q => Drop h q | None => h end in
  if on_err r then (true, more_signal h)
  else
    let '(_, h) := send h p (MRetrieve self_lookup) in
    (false, more_signal h).

Definition removePeer (h : Hive) (p : peer) : Hive :=
  more_signal (with_kad h (kad_Off (hv_kad h) (bee_Addr h p) (saveSync h))).

(** ** Replies to lookups *)

(** [now] is the time. The request of a self lookup loses its key. *)
Definition peers (h : Hive) (req : retrieveRequestMsgData) (now : Z) : Hive :=
  match rr_from req with
  | None => h
  | Some from =>
    if match rr_timeout req with None => true | Some t => now <? t end then
      let zero := match rr_Key req with None => true | Some k => IsZeroKey k end in
      let key := if zero then bee_Addr h from else default [] (rr_Key req) in
      let rkey := if zero then None else rr_Key req in
      let addrs := (fun p => match bees h !! p with Some b => [bz_remoteAddr b] | None => [] end)
                     <$> getPeers h key (i64 (rr_MaxPeers req)) in
      let data := {| pm_Peers := concat addrs; pm_Timeout := 0; pm_timeout := None; pm_Key := rkey;
                     pm_Id := rr_Id req |} in
      snd (send h from (MPeers (peers_setTimeout data (rr_timeout req))))
    else h
  end.

(** ** The update loop and its alarm *)

(** One turn of the loop started by [Start]: [rnd] and [randAddr] are the random addresses. *)
Definition update_step (h : Hive) (rnd randAddr : Address) : Hive :=
  match hv_loop h with
  | UWoken =>
    let '(node, need, _) := kad_Suggest (hv_kad h) in
    let calls := match node with
                 | Some n => if 0 <? #(nr_Url n) then hv_calls h ++ [nr_Url n] else hv_calls h
                 | None => hv_calls h
                 end in
    let h := with_loop h (UToggle need) (hv_alarm h) calls in
    if need then
      match kad_FindClosest (hv_kad h) rnd 1 with
      | p :: _ =>
        snd (send h p (MRetrieve {| rr_Key := Some randAddr; rr_Id := 0; rr_MaxSize := 0; rr_MaxPeers := 0;
                                    rr_Timeout := 0; rr_timeout := None; rr_from := None |}))
      | [] => h
      end
    else h
  | _ => h
  end.

(** The cases of [keepAlive]: a tick, and a message from the update loop. *)
Definition keepAlive_tick (h : Hive) : Hive :=
  if hv_alarm h && (0 <? kad_DBCount (hv_kad h)) then more_signal h else h.
Definition keepAlive_toggle (h : Hive) : Hive :=
  match hv_loop h with
  | UToggle need =>
    let alarm := if negb (hv_alarm h) && need then true else if hv_alarm h && negb need then false else hv_alarm h in
    with_loop h UWaiting alarm (hv_calls h)
  | _ => h
  end.
End Hive.
Arguments bzz : clear implicits.
Arguments Hive : clear implicits.

(** ** Reference: common bits and the XOR metric *)

(** The bits of a byte from bit [j] on, and of an address, most significant first. *)
Fixpoint bits_from (n : nat) (j x : Z) : list bool :=
  match n with O => [] | S n => Z.testbit x (7 - j) :: bits_from n (j + 1) x end.
Fixpoint addr_bits (l : bytes) : list bool :=
  match l with [] => [] | x :: l => bits_from 8 0 x ++ addr_bits l end.

(** The length of the longest common prefix. *)
Fixpoint common (a b : list bool) : Z :=
  match a, b with
  | x :: a, y :: b => if eqb x y then 1 + common a b else 0
  | _, _ => 0
  end.

(** The XOR of two addresses as a number. *)
Fixpoint distance (a b : bytes) : Z :=
  match a, b with
  | x :: a, y :: b => Z.lxor x y * 256 ^ #a + distance a b
  | _, _ => 0
  end.

Lemma land_bit z k : 0 <= k -> (Z.land (Z.shiftr z k) 1 =? 0) = negb (Z.testbit z k).
Proof.
  intros Hk. change 1 with (Z.ones 1). rewrite Z.land_ones by lia. change (2 ^ 1) with 2.
  rewrite <- Z.bit0_mod, Z.shiftr_spec by lia. rewrite Z.add_0_l. by destruct (Z.testbit z k).
Qed.

Lemma common_bound a b : 0 <= common a b <= #a.
Proof.
  revert b. induction a as [|x a IH]; intros [|y b]; cbn [common]; try zlia.
  specialize (IH b). destruct (eqb x y); zlia.
Qed.

Lemma length_bits_from n j x : length (bits_from n j x) = n.
Proof. revert j. induction n as [|n IH]; intros j; cbn; [done|]. by rewrite IH. Qed.

Lemma prox_byte_common n j x y :
  0 <= j -> j + Z.of_nat n <= 8 ->
  let c := common (bits_from n j x) (bits_from n j y) in
  prox_byte n j (Z.lxor x y) = if c =? Z.of_nat n then None else Some (j + c).
Proof.
  revert j. induction n as [|n IH]; intros j Hj Hn c; [done|]. subst c. cbn [prox_byte bits_from common].
  rewrite land_bit, Z.lxor_spec, negb_involutive by lia.
  pose proof (common_bound (bits_from n (j + 1) x) (bits_from n (j + 1) y)) as Hb.
  unfold zlen in Hb. rewrite length_bits_from in Hb.
  destruct (Z.testbit x (7 - j)), (Z.testbit y (7 - j)); cbn [xorb eqb].
  2,3: destruct (Z.eqb_spec 0 (Z.of_nat (S n))); [lia|]; f_equal; lia.
  all: rewrite IH by lia; destruct (Z.eqb_spec (common (bits_from n (j + 1) x) (bits_from n (j + 1) y)) (Z.of_nat n)),
    (Z.eqb_spec (1 + common (bits_from n (j + 1) x) (bits_from n (j + 1) y)) (Z.of_nat (S n))); try lia; try done;
    f_equal; lia.
Qed.

Lemma common_app a b c d :
  length a = length b -> common (a ++ c) (b ++ d) = if common a b =? #a then #a + common c d else common a b.
Proof.
  revert b. induction a as [|x a IH]; intros [|y b] Hlen; cbn [length] in Hlen; try lia; [done|].
  cbn [app common]. rewrite zlen_cons. pose proof (common_bound a b). destruct (eqb x y).
  - rewrite IH by lia.
    destruct (Z.eqb_spec (common a b) (#a)), (Z.eqb_spec (1 + common a b) (1 + #a)); lia.
  - destruct (Z.eqb_spec 0 (1 + #a)); lia.
Qed.

Lemma prox_loop_common i a b : length a = length b -> prox_loop i a b = i * 8 + common (addr_bits a) (addr_bits b).
Proof.
  revert i b. induction a as [|x a IH]; intros i [|y b] Hlen; cbn [length] in Hlen; try lia; [cbn; lia|].
  cbn [prox_loop addr_bits]. rewrite common_app by (by rewrite !length_bits_from).
  pose proof (prox_byte_common 8 0 x y ltac:(lia) ltac:(lia)) as Hp. cbn zeta in Hp. rewrite Hp.
  unfold zlen. rewrite length_bits_from. destruct (_ =? Z.of_nat 8); [|lia]. rewrite IH by lia. lia.
Qed.

(** The proximity of two addresses is the number of leading bits they share. *)
Theorem proximity_common a b :
  length a = length b -> proximity a b = common (addr_bits a) (addr_bits b).
Proof. intros Hlen. unfold proximity. rewrite prox_loop_common by done. lia. Qed.

(** ** Proximity and distance *)

Lemma prox_byte_range o :
  is_byte o -> match prox_byte 8 0 o with Some j => 0 <= j < 8 /\ 2 ^ (7 - j) <= o < 2 ^ (8 - j) | None => o = 0 end.
Proof.
  intros Ho.
  assert (Hall : forallb (fun n => let o := Z.of_nat n in
    match prox_byte 8 0 o with
    | Some j => (0 <=? j) && (j <? 8) && (2 ^ (7 - j) <=? o) && (o <? 2 ^ (8 - j))
    | None => o =? 0 end) (seq 0 256) = true) by (vm_compute; reflexivity).
  rewrite forallb_forall in Hall. specialize (Hall (Z.to_nat o)). cbn zeta in Hall.
  unfold is_byte in Ho. rewrite Z2Nat.id in Hall by lia.
  assert (Hin : In (Z.to_nat o) (seq 0 256)) by (apply in_seq; lia). specialize (Hall Hin).
  destruct (prox_byte 8 0 o) as [j|]; [|by apply Z.eqb_eq in Hall].
  rewrite !andb_true_iff, Z.leb_le, Z.ltb_lt, Z.leb_le, Z.ltb_lt in Hall. lia.
Qed.

Lemma lxor_byte x y : is_byte x -> is_byte y -> is_byte (Z.lxor x y).
Proof.
  unfold is_byte. intros Hx Hy. split; [apply Z.lxor_nonneg; lia|].
  destruct (decide (Z.lxor x y = 0)) as [-> |Hne]; [lia|].
  assert (0 <= Z.lxor x y) by (apply Z.lxor_nonneg; lia).
  change 256 with (2 ^ 8). apply Z.log2_lt_pow2; [lia|].
  pose proof (Z.log2_lxor x y ltac:(lia) ltac:(lia)) as Hl.
  assert (Hlog : forall z, 0 <= z < 256 -> Z.log2 z < 8).
  { intros z Hz. destruct (decide (z = 0)) as [-> |]; [done|]. apply Z.log2_lt_pow2; lia. }
  pose proof (Hlog x Hx). pose proof (Hlog y Hy). lia.
Qed.

Lemma distance_bound a b :
  Forall is_byte a -> Forall is_byte b -> length a = length b -> 0 <= distance a b < 256 ^ #a.
Proof.
  intros Ha. revert b. induction Ha as [|x a Hx _ IH]; intros [|y b] Hb Hlen; cbn [length] in Hlen; try lia; [done|].
  apply Forall_cons in Hb as [Hy Hb]. cbn [distance]. specialize (IH b Hb ltac:(lia)).
  pose proof (lxor_byte x y Hx Hy) as Ho. unfold is_byte in Ho.
  rewrite zlen_cons, Z.pow_add_r by zlia. change (256 ^ 1) with 256. nia.
Qed.

(** An address at proximity [p] is at a distance with [p] leading zero bits. *)
Lemma distance_prox a b i :
  Forall is_byte a -> Forall is_byte b -> length a = length b ->
  let p := prox_loop i a b - 8 * i in
  0 <= p <= 8 * #a /\ distance a b < 2 ^ (8 * #a - p) /\ (p < 8 * #a -> 2 ^ (8 * #a - p - 1) <= distance a b).
Proof.
  intros Ha. revert b i. induction Ha as [|x a Hx Ha IH]; intros [|y b] i Hb Hlen; cbn [length] in Hlen; try lia.
  { cbn [distance prox_loop]. cbn zeta. unfold zlen. cbn [length Z.of_nat]. replace (i * 8 - 8 * i) with 0 by lia. cbn. split_and!; lia. }
  apply Forall_cons in Hb as [Hy Hb]. cbn [distance prox_loop].
  pose proof (prox_byte_range _ (lxor_byte x y Hx Hy)) as Hp. pose proof (distance_bound a b Ha Hb ltac:(lia)) as Hd.
  set (n := #a) in *. assert (Hn : 0 <= n) by apply zlen_nonneg. rewrite zlen_cons. fold n.
  assert (E256 : 256 ^ n = 2 ^ (8 * n)) by (rewrite Z.pow_mul_r by lia; done).
  destruct (prox_byte 8 0 (Z.lxor x y)) as [j|].
  - destruct Hp as [Hj Ho]. cbn zeta. replace (i * 8 + j - 8 * i) with j by lia.
    rewrite E256 in *.
    replace (8 * (1 + n) - j) with ((8 - j) + 8 * n) by lia.
    replace (8 - j + 8 * n - 1) with ((7 - j) + 8 * n) by lia.
    rewrite !Z.pow_add_r by lia. split_and!; [lia|lia|nia|intros _; nia].
  - rewrite Hp. destruct (IH b (i + 1) Hb ltac:(lia)) as (H1 & H2 & H3). cbn zeta.
    set (q := prox_loop (i + 1) a b) in *.
    replace (8 * (1 + n) - (q - 8 * i)) with (8 * n - (q - 8 * (i + 1))) by lia.
    split_and!; [lia|lia|lia|]. intros Hlt. apply H3. lia.
Qed.

(** A larger proximity is a smaller distance. *)
Lemma proximity_distance t a b :
  Forall is_byte t -> Forall is_byte a -> Forall is_byte b -> length a = length t -> length b = length t ->
  proximity a t < proximity b t -> distance b t < distance a t.
Proof.
  intros Ht Ha Hb Hla Hlb Hlt. unfold proximity in *.
  destruct (distance_prox a t 0 Ha Ht Hla) as (Hpa & _ & Hda).
  destruct (distance_prox b t 0 Hb Ht Hlb) as (Hpb & Hdb & _).
  cbn zeta in *. rewrite Z.mul_0_r, Z.sub_0_r in *.
  assert (#a = #b) as Hab by zlia. specialize (Hda ltac:(lia)).
  assert (2 ^ (8 * #b - prox_loop 0 b t) <= 2 ^ (8 * #a - prox_loop 0 a t - 1)); [|lia].
  apply Z.pow_le_mono_r; lia.
Qed.

(** The peers closer than this node are found among the closest peers, in their
    order, and each is strictly closer to the target in the XOR metric than the node. *)
Theorem getPeersCloserThanSelf_closer {K} `{Kademlia K} {SW} (h : Hive K SW) target max :
  let addr := to_address target in
  Forall is_byte addr -> Forall is_byte (hv_addr h) -> length (hv_addr h) = 32%nat -> length addr = 32%nat ->
  (forall p, p ∈ getPeers h target max -> Forall is_byte (bee_Addr h p) /\ length (bee_Addr h p) = 32%nat) ->
  sublist (getPeersCloserThanSelf h target max) (getPeers h target max) /\
  forall p, p ∈ getPeersCloserThanSelf h target max -> distance (bee_Addr h p) addr < distance (hv_addr h) addr.
Proof.
  intros addr Hb Hs Hls Hl Hp. subst addr. unfold getPeersCloserThanSelf, getPeers in *. split.
  - apply sublist_filter.
  - intros p Hin. apply list_elem_of_filter in Hin as [Hlt Hin]. destruct (Hp p Hin) as [Hbp Hlp].
    apply proximity_distance; try done; congruence.
Qed.

(** ** A table of peers: a list with their addresses *)

Definition ListKad : Type := list (peer * Address).

(** Every peer is offered; records keep no [Meta]. *)
#[export] Instance ListKad_Kademlia : Kademlia ListKad := {
  kad_FindClosest := fun k _ max => if max =? 0 then k.*1 else take (Z.to_nat max) k.*1;
  kad_On := fun k p a cb => if cb None then mkOn (k ++ [(p, a)]) None false None else mkOn k None true None;
  kad_Off := fun k a _ => filter (fun x => snd x <> a) k;
  kad_Add := fun k _ => k;
  kad_Count := fun k => #k;
  kad_DBCount := fun k => #k;
  kad_MaxProx := fun _ => 8;
  kad_Suggest := fun _ => (None, false, 0);
  kad_KeyRange := fun _ _ => (replicate 32 0, replicate 32 255)
}.

Definition bee_at (a : Address) (s : option syncer) : bzz unit :=
  {| bz_remoteAddr := {| pa_IP := [10; 0; 0; 1]; pa_Port := 30399; pa_ID := []; pa_Addr := a |};
     bz_lastActive := 0; bz_swap := None; bz_syncEnabled := true; bz_syncer := s; bz_syncState := None;
     bz_up := true; bz_dropped := false; bz_out := [] |}.

(** A node at address zero with two peers. *)
Definition hive2 (s : option syncer) : Hive ListKad unit :=
  with_bees (NewHive ([(1%nat, replicate 32 200); (2%nat, replicate 32 3)] : ListKad) (replicate 32 0) false true)
    {[1%nat := bee_at (replicate 32 200) s; 2%nat := bee_at (replicate 32 3) s]}.

Lemma proximity_common_witness :
  proximity (replicate 32 200) (replicate 32 201) = common (addr_bits (replicate 32 200)) (addr_bits (replicate 32 201)).
Proof. apply proximity_common. reflexivity. Defined.

Lemma getPeersCloserThanSelf_closer_witness :
  getPeersCloserThanSelf (hive2 None) (replicate 32 255) 0 = [1%nat] /\
  forall p, p ∈ getPeersCloserThanSelf (hive2 None) (replicate 32 255) 0 ->
    distance (bee_Addr (hive2 None) p) (to_address (replicate 32 255)) <
    distance (hv_addr (hive2 None)) (to_address (replicate 32 255)).
Proof.
  split; [vm_compute; reflexivity|].
  apply (getPeersCloserThanSelf_closer (hive2 None) (replicate 32 255) 0).
  - apply (bool_decide_unpack _). vm_compute. exact I.
  - apply (bool_decide_unpack _). vm_compute. exact I.
  - reflexivity.
  - reflexivity.
  - intros p Hp. change (p ∈ [1%nat; 2%nat]) in Hp.
    apply elem_of_cons in Hp as [-> |Hp]; [|apply list_elem_of_singleton in Hp as ->];
      (split; [apply Forall_replicate; done|reflexivity]).
Defined.
