(* ===== verification/HiveLoop.v ===== *)
(** The goroutines of the hive ([livepeer/network/hive.go]): its start with the table of an earlier run, the loop that keeps the table full, the update loop
    that it wakes, and the stop that saves the table.

    The steps of the goroutines and the calls of the protocol that signal them interleave in any order; a [select] with several ready cases may take any
    of them. A hive is started once. *)
From stdpp Require Import base gmap list strings.
From Stdlib Require Import ZArith Lia.
From S2P Require Import Prelude Types Database DbStore Streamer Messages SyncDb Syncer Hive.

(** The files of a table: [Load] changes the table, also when it fails; [Save] asks for the [Meta] of every peer and may fail. *)
Class KadFile (K : Type) := {
  kad_Load : K -> option bytes -> K * bool;
  kad_Save : K -> (peer -> option bytes) -> option bytes
}.

Section Loops.
Context {K SW : Type} `{Kademlia K, !KadFile K}.
Context (sync_Marshal : syncState -> option bytes) (sync_Unmarshal : bytes -> option syncState).

(** A hive with its goroutines: whether the update loop and [keepAlive] run, the channel [quit] (nil before the start, then whether it is closed), and
    the file of the table. *)
Record hive_run := mkRun {
  hr_hive : Hive K SW;
  hr_updater : bool;
  hr_keeper : bool;
  hr_quit : option bool;
  hr_file : option bytes
}.

Definition with_hive (r : hive_run) (h : Hive K SW) : hive_run :=
  {| hr_hive := h; hr_updater := hr_updater r; hr_keeper := hr_keeper r; hr_quit := hr_quit r; hr_file := hr_file r |}.

Definition hive_new (h : Hive K SW) (file : option bytes) : hive_run :=
  {| hr_hive := h; hr_updater := false; hr_keeper := false; hr_quit := None; hr_file := file |}.

(** [Start]: an error of the file is skipped. *)
Definition Hive_Start (r : hive_run) (id : bytes) (listenAddr : bytes * Z) : hive_run :=
  let h := hr_hive r in
  let '(kad, _) := kad_Load (hv_kad h) (hr_file r) in
  {| hr_hive := {| hv_kad := kad; hv_id := id; hv_addr := hv_addr h; hv_listen := listenAddr; hv_swapEnabled := hv_swapEnabled h;
                   hv_syncEnabled := hv_syncEnabled h; hv_blockRead := hv_blockRead h; hv_blockWrite := hv_blockWrite h; hv_loop := UWaiting;
                   hv_alarm := true; hv_calls := hv_calls h; bees := bees h |};
     hr_updater := true; hr_keeper := true; hr_quit := Some false; hr_file := hr_file r |}.

(** [Stop]: the panic is that of closing a channel that is nil or closed; the flag tells that the table was not saved. *)
Definition Hive_Stop (r : hive_run) : option (bool * hive_run) :=
  match hr_quit r with
  | Some false =>
    let h := hr_hive r in
    let saved := kad_Save (hv_kad h) (saveSync sync_Marshal h) in
    Some (bool_decide (saved = None),
          {| hr_hive := h; hr_updater := hr_updater r; hr_keeper := hr_keeper r; hr_quit := Some true;
             hr_file := match saved with Some d => Some d | None => hr_file r end |})
  | _ => None
  end.

Definition is_toggle (u : updater) : bool := match u with UToggle _ => true | _ => false end.

(** What can happen to a running hive. *)
Inductive hive_label := HTick | HToggle | HUpdate (rnd randAddr : Address) | HUpdaterQuit | HKeeperQuit | HAdd (p : peer) | HRemove (p : peer).

Definition hive_fire (r : hive_run) (l : hive_label) : option hive_run :=
  let h := hr_hive r in
  match l with
  | HTick => if hr_keeper r && hv_alarm h then Some (with_hive r (keepAlive_tick h)) else None
  | HToggle => if hr_keeper r && hr_updater r && is_toggle (hv_loop h) then Some (with_hive r (keepAlive_toggle h)) else None
  | HUpdate rnd randAddr =>
    if hr_updater r && match hv_loop h with UWoken => true | _ => false end then Some (with_hive r (update_step h rnd randAddr)) else None
  | HUpdaterQuit =>
    if hr_updater r && is_toggle (hv_loop h) && bool_decide (hr_quit r = Some true)
    then Some {| hr_hive := h; hr_updater := false; hr_keeper := hr_keeper r; hr_quit := hr_quit r; hr_file := hr_file r |} else None
  | HKeeperQuit =>
    if hr_keeper r && bool_decide (hr_quit r = Some true)
    then Some {| hr_hive := h; hr_updater := hr_updater r; hr_keeper := false; hr_quit := hr_quit r; hr_file := hr_file r |} else None
  | HAdd p => Some (with_hive r (snd (addPeer sync_Unmarshal h p)))
  | HRemove p => Some (with_hive r (removePeer sync_Marshal h p))
  end.

Inductive hive_steps : hive_run -> list hive_label -> hive_run -> Prop :=
| hs_nil r : hive_steps r [] r
| hs_cons r l r1 ls r2 : hive_fire r l = Some r1 -> hive_steps r1 ls r2 -> hive_steps r (l :: ls) r2.

(** ** After a stop *)

(** The rounds of the update loop in a run, and the steps of goroutines. *)
Definition rounds (ls : list hive_label) : nat := sum_list_with (fun l => match l with HUpdate _ _ => 1%nat | _ => 0%nat end) ls.
Definition is_call (l : hive_label) : bool := match l with HAdd _ | HRemove _ => true | _ => false end.
Definition own_steps (ls : list hive_label) : nat := sum_list_with (fun l => if is_call l then 0%nat else 1%nat) ls.

(** No goroutine of the hive can make a step. *)
Definition at_rest (r : hive_run) : Prop := forall l, is_call l = false -> hive_fire r l = None.

(** How far the update loop is: waiting, woken, at the channel to [keepAlive] after its round, ended. *)
Definition updater_phase (r : hive_run) : nat :=
  if hr_updater r then match hv_loop (hr_hive r) with UWaiting => 0 | UWoken => 1 | UToggle _ => 2 end else 3.

Definition signalled (u : updater) : updater := match u with UWaiting => UWoken | _ => u end.

Lemma more_signal_loop (h : Hive K SW) : hv_calls (more_signal h) = hv_calls h /\ hv_loop (more_signal h) = signalled (hv_loop h).
Proof using Type. unfold more_signal. destruct (hv_loop h) eqn:E; cbn; by rewrite ?E. Qed.

Lemma send_loop (h : Hive K SW) p m : hv_loop (snd (send h p m)) = hv_loop h /\ hv_calls (snd (send h p m)) = hv_calls h.
Proof using Type. unfold send, on_bee. repeat case_match; done. Qed.

Lemma addPeer_loop (h : Hive K SW) p :
  hv_calls (snd (addPeer sync_Unmarshal h p)) = hv_calls h /\ hv_loop (snd (addPeer sync_Unmarshal h p)) = signalled (hv_loop h).
Proof using Type.
  unfold addPeer. set (r := kad_On _ _ _ _). set (h1 := match loadSync sync_Unmarshal (on_meta r) with Some _ => _ | None => _ end).
  assert (H1 : hv_calls h1 = hv_calls h /\ hv_loop h1 = hv_loop h) by (subst h1; by case_match).
  set (h2 := match on_replaced r with Some _ => _ | None => _ end).
  assert (H2 : hv_calls h2 = hv_calls h /\ hv_loop h2 = hv_loop h) by (subst h2; by case_match). destruct H2 as [<- <-].
  destruct (on_err r); [apply more_signal_loop|]. destruct (send h2 p (MRetrieve self_lookup)) as [e h3] eqn:E.
  pose proof (send_loop h2 p (MRetrieve self_lookup)) as [Hl Hc]. rewrite E in Hl, Hc. cbn [snd] in *. rewrite <- Hl, <- Hc. apply more_signal_loop.
Qed.

Lemma update_step_loop (h : Hive K SW) rnd randAddr :
  hv_loop h = UWoken -> is_toggle (hv_loop (update_step h rnd randAddr)) = true /\
  (length (hv_calls (update_step h rnd randAddr)) <= length (hv_calls h) + 1)%nat.
Proof using Type.
  intros Hl. unfold update_step. rewrite Hl. destruct (kad_Suggest _) as [[node need] lim].
  match goal with |- context [with_loop _ _ _ ?c] => set (calls := c) end.
  assert (Hcalls : (length calls <= length (hv_calls h) + 1)%nat) by (subst calls; repeat case_match; rewrite ?length_app; cbn; lia).
  destruct need; [|done]. destruct (kad_FindClosest _ _ _); [done|].
  match goal with |- context [send ?h ?p ?m] => by destruct (send_loop h p m) as [-> ->] end.
Qed.

(** Once the hive is stopped and [keepAlive] has ended, the update loop goes from phase to phase and never back. *)
Definition phase_after (l : hive_label) (n : nat) : nat :=
  match l with
  | HUpdate _ _ => 2
  | HUpdaterQuit => 3
  | HAdd _ | HRemove _ => if decide (n = 0%nat) then 1 else n
  | _ => n
  end.

Definition phase_before (l : hive_label) (n : nat) : Prop :=
  match l with HUpdate _ _ => n = 1%nat | HUpdaterQuit => n = 2%nat | HAdd _ | HRemove _ => True | _ => False end.

Lemma signalled_phase r h : hv_loop h = signalled (hv_loop (hr_hive r)) ->
  updater_phase (with_hive r h) = if decide (updater_phase r = 0%nat) then 1%nat else updater_phase r.
Proof using Type. intros E. unfold updater_phase. cbn. rewrite E. destruct (hr_updater r), (hv_loop (hr_hive r)); done. Qed.

Lemma stopped_step r l r' :
  hr_quit r = Some true -> hr_keeper r = false -> hive_fire r l = Some r' ->
  hr_quit r' = Some true /\ hr_keeper r' = false /\ phase_before l (updater_phase r) /\ updater_phase r' = phase_after l (updater_phase r) /\
  (length (hv_calls (hr_hive r')) <= length (hv_calls (hr_hive r)) + rounds [l])%nat.
Proof using Type.
  intros Hq Hk. unfold hive_fire. rewrite Hk. cbn [andb]. destruct l; cbn [phase_before phase_after]; try done.
  - destruct (hr_updater r) eqn:Hu; cbn [andb]; [|done]. destruct (hv_loop (hr_hive r)) eqn:Hl; try done. intros [= <-].
    destruct (update_step_loop (hr_hive r) rnd randAddr Hl) as [Ht Hc]. unfold updater_phase. cbn [with_hive hr_quit hr_keeper hr_updater hr_hive]. rewrite Hu, Hl.
    split_and!; try done. by destruct (hv_loop (update_step _ _ _)).
  - destruct (hr_updater r && is_toggle _) eqn:Hu; cbn [andb]; [|done]. apply andb_true_iff in Hu as [Hu Ht]. case_bool_decide; [|done]. intros [= <-].
    unfold updater_phase. rewrite Hu. cbn. split_and!; try done; [by destruct (hv_loop (hr_hive r))|lia].
  - intros [= <-]. destruct (addPeer_loop (hr_hive r) p) as [Hc Hl]. split_and!; try done; [by apply signalled_phase|cbn [with_hive hr_hive]; rewrite Hc; cbn; lia].
  - intros [= <-]. unfold removePeer. match goal with |- context [more_signal ?h] => destruct (more_signal_loop h) as [Hc Hl] end.
    split_and!; try done; [by apply signalled_phase|cbn [with_hive hr_hive]; rewrite Hc; cbn; lia].
Qed.

Lemma stopped_run r ls r' :
  hr_quit r = Some true -> hr_keeper r = false -> hive_steps r ls r' ->
  hr_quit r' = Some true /\ hr_keeper r' = false /\ (updater_phase r <= updater_phase r' <= 3)%nat /\
  (own_steps ls + Nat.max 1 (updater_phase r) <= Nat.max 1 (updater_phase r'))%nat /\
  (rounds ls + (if decide (2 <= updater_phase r)%nat then 1 else 0) = if decide (2 <= updater_phase r')%nat then 1 else 0)%nat /\
  (existsb is_call ls = true -> 1 <= updater_phase r')%nat /\
  (length (hv_calls (hr_hive r')) <= length (hv_calls (hr_hive r)) + rounds ls)%nat.
Proof using Type.
  intros Hq Hk Hls. induction Hls as [r|r l ra ls rb Hf _ IH].
  - assert (updater_phase r <= 3)%nat by (unfold updater_phase; repeat case_match; lia). unfold own_steps, rounds. cbn [sum_list_with existsb]. split_and!; try done; repeat case_decide; lia.
  - destruct (stopped_step r l ra Hq Hk Hf) as (Hq' & Hk' & Hb & Ha & Hc).
    destruct (IH Hq' Hk') as (Hq2 & Hk2 & Hmon & Hown & Hr & Hcall & Hlen).
    unfold own_steps, rounds in *. cbn [sum_list_with existsb is_call] in *. rewrite Ha in *. split; [done|]. split; [done|].
    destruct l; cbn [phase_before phase_after is_call orb] in *; try done; repeat case_decide; split_and!; try done; try lia.
Qed.

(** C24: The stop of the hive does not end its update loop. Once [keepAlive] has seen the closed channel, an update loop that waits on [more] stays until a peer
    joins or leaves; the goroutines then make at most two more steps, and in every run that goes on until none is possible the loop has made exactly one more
    round - in which it may call a known peer - and has ended. From there on it never makes more than one round, whatever happens. *)
Theorem hive_after_stop r err r1 ls1 r2 ls r' :
  Hive_Stop r = Some (err, r1) -> hive_steps r1 ls1 r2 -> hr_keeper r2 = false -> hive_steps r2 ls r' ->
  (rounds ls <= 1)%nat /\ (own_steps ls <= 2)%nat /\
  (length (hv_calls (hr_hive r')) <= length (hv_calls (hr_hive r2)) + rounds ls)%nat /\
  (hr_updater r2 = true -> hv_loop (hr_hive r2) = UWaiting ->
     (Forall (fun l => is_call l = false) ls -> ls = []) /\
     (existsb is_call ls = true -> at_rest r' -> rounds ls = 1%nat /\ hr_updater r' = false) /\
     (forall p rnd randAddr, exists r3, hive_steps r2 [HRemove p; HUpdate rnd randAddr; HUpdaterQuit] r3 /\ at_rest r3)).
Proof using Type.
  intros Hstop Hrun Hk Hls.
  assert (Hq : hr_quit r2 = Some true).
  { assert (H1 : hr_quit r1 = Some true) by (revert Hstop; unfold Hive_Stop; destruct (hr_quit r) as [[|]|]; try done; by intros [= _ <-]).
    clear -H1 Hrun. induction Hrun as [|r l ra ls rb Hf _ IH]; [done|]. apply IH. clear IH. unfold hive_fire in Hf. destruct l; repeat case_match; try done; by injection Hf as <-. }
  destruct (stopped_run r2 ls r' Hq Hk Hls) as (Hq' & Hk' & Hmon & Hown & Hr & Hcall & Hlen).
  split_and!; [repeat case_decide; lia|lia|done|]. intros Hu Hl. assert (Hp : updater_phase r2 = 0%nat) by (unfold updater_phase; by rewrite Hu, Hl). split_and!.
  - intros HF. destruct Hls as [|ra l rb ls' rc Hf _]; [done|]. inversion_clear HF as [|? ? Hc _].
    destruct (stopped_step _ _ _ Hq Hk Hf) as (_ & _ & Hb & _). rewrite Hp in Hb. by destruct l.
  - intros Hc Hrest. specialize (Hcall Hc). rewrite Hp in *. pose proof (Hrest (HUpdate [] []) eq_refl) as R1. pose proof (Hrest HUpdaterQuit eq_refl) as R2.
    unfold updater_phase, hive_fire in *. rewrite Hq', bool_decide_eq_true_2 in R2 by done.
    destruct (hr_updater r'); [destruct (hv_loop (hr_hive r')); cbn in *; (lia || done)|]. split; [|done]. repeat case_decide; lia.
  - intros p rnd randAddr. set (ra := with_hive r2 (removePeer sync_Marshal (hr_hive r2) p)). set (rb := with_hive ra (update_step (hr_hive ra) rnd randAddr)).
    assert (Ha : hv_loop (hr_hive ra) = UWoken).
    { unfold ra, removePeer. cbn [with_hive hr_hive]. match goal with |- context [more_signal ?h] => destruct (more_signal_loop h) as [_ ->] end. cbn. by rewrite Hl. }
    destruct (update_step_loop (hr_hive ra) rnd randAddr Ha) as [Ht _].
    exists {| hr_hive := hr_hive rb; hr_updater := false; hr_keeper := hr_keeper rb; hr_quit := hr_quit rb; hr_file := hr_file rb |}. split.
    + econstructor; [reflexivity|]. fold ra. econstructor.
      { unfold hive_fire. change (hr_updater ra) with (hr_updater r2). rewrite Hu, Ha. reflexivity. }
      fold rb. econstructor; [|constructor]. unfold hive_fire. change (hr_updater rb) with (hr_updater r2). change (hr_quit rb) with (hr_quit r2).
      change (hr_hive rb) with (update_step (hr_hive ra) rnd randAddr). rewrite Hu, Ht, Hq, bool_decide_eq_true_2 by done. reflexivity.
    + intros l Hc. unfold hive_fire. change (hr_keeper rb) with (hr_keeper r2). rewrite Hk. by destruct l.
Qed.

(** A hive that was not started, or was stopped, cannot be stopped. *)
Lemma Stop_panics r err r1 : Hive_Stop r = Some (err, r1) -> Hive_Stop r1 = None.
Proof using Type. unfold Hive_Stop. destruct (hr_quit r) as [[|]|]; try done. by intros [= _ <-]. Qed.

Lemma Stop_new h file : Hive_Stop (hive_new h file) = None.
Proof using Type. done. Qed.
End Loops.
Arguments hive_run : clear implicits.

(** ** Witness *)

(** The table of a list of peers, which is written as one byte. *)
#[export] Instance ListKad_file : KadFile ListKad := {| kad_Load k _ := (k, false); kad_Save k _ := Some [ #k ] |}.

Definition no_marshal (s : syncState) : option bytes := None.
Definition no_unmarshal (b : bytes) : option syncState := None.

Definition started : hive_run ListKad unit := Hive_Start (hive_new (hive2 None) None) [] ([], 0).
Definition stopped : hive_run ListKad unit := match Hive_Stop no_marshal started with Some (_, r) => r | None => started end.
Definition keeper_gone : hive_run ListKad unit := default stopped (hive_fire no_marshal no_unmarshal stopped HKeeperQuit).
Definition woken : hive_run ListKad unit := default keeper_gone (hive_fire no_marshal no_unmarshal keeper_gone (HRemove 1%nat)).
Definition round_made : hive_run ListKad unit := default woken (hive_fire no_marshal no_unmarshal woken (HUpdate [] [])).
Definition loop_ended : hive_run ListKad unit := default round_made (hive_fire no_marshal no_unmarshal round_made HUpdaterQuit).

Lemma hive_after_stop_witness :
  (rounds [HRemove 1%nat; HUpdate [] []; HUpdaterQuit] = 1%nat /\ hr_updater loop_ended = false) /\
  (exists r3, hive_steps no_marshal no_unmarshal keeper_gone [HRemove 1%nat; HUpdate [] []; HUpdaterQuit] r3 /\ at_rest no_marshal no_unmarshal r3).
Proof.
  assert (H1 : hive_steps no_marshal no_unmarshal stopped [HKeeperQuit] keeper_gone) by (econstructor; [vm_compute; reflexivity|constructor]).
  assert (H2 : hive_steps no_marshal no_unmarshal keeper_gone [HRemove 1%nat; HUpdate [] []; HUpdaterQuit] loop_ended)
    by (econstructor; [vm_compute; reflexivity|econstructor; [vm_compute; reflexivity|econstructor; [vm_compute; reflexivity|constructor]]]).
  destruct (hive_after_stop no_marshal no_unmarshal started false stopped [HKeeperQuit] keeper_gone [HRemove 1%nat; HUpdate [] []; HUpdaterQuit] loop_ended)
    as (_ & _ & _ & Hw); [vm_compute; reflexivity|exact H1|reflexivity|exact H2|].
  destruct (Hw eq_refl eq_refl) as (_ & Hend & Hex). split; [|apply Hex]. apply Hend; [reflexivity|]. intros l Hl. by destruct l.
Defined.
