(* ===== verification/Node.v ===== *)
(** The storage side of a node: memory cache, local store and network store
    ([livepeer/storage/memstore.go], [localstore.go], [netstore.go], the chunk
    store of [dpa.go]), the handlers of storage messages
    ([livepeer/network/depo.go]) and the forwarder ([forwarding.go]).

    Chunks and request records are objects of a heap, since handlers, cache and
    pending requests share them; goroutines are tasks that run later. The cache is
    the class [MemIndex], of which the tree of [MemStore] is the instance, the disk store the
    class [ChunkDisk] with [DbStore] as instance. Operations return an [outcome]:
    [Crash] is a panic, [Wait] an operation that blocks. *)
From stdpp Require Import base gmap list strings.
From Stdlib Require Import ZArith Lia.
From S2P Require Import Prelude Types Database DbStore MemStore MemInv MemEvict MemView MemProps Streamer Messages SyncDb Syncer Hive.

(** ** Interfaces *)

(** The memory cache: its two operations, and what its clients know of its state. The
    flag of [mi_Get] asks for an update of the access count on disk; [mi_Put] is told of
    each entry whether it has data, once it is on disk, and returns the entry it replaced. *)
Class MemIndex (M : Type) := {
  mi_Get : M -> Key -> outcome (option nat * bool * M);
  mi_Put : M -> Key -> nat -> (nat -> outcome bool) -> outcome (option nat * M);
  mi_ok : M -> Prop;
  mi_view : M -> gmap Key nat;
  mi_capacity : M -> Z
}.

Class MemIndexLaws (M : Type) `{MemIndex M} : Prop := {
  mi_Get_law : forall m k, mi_ok m -> key32 k ->
    exists m', mi_Get m k = Ret (mi_view m !! k, false, m') /\ mi_ok m' /\ mi_view m' = mi_view m /\
      mi_capacity m' = mi_capacity m;
  mi_Put_law : forall m k c ready, mi_ok m -> key32 k -> Z.of_nat (size (mi_view m)) < mi_capacity m ->
    exists m', mi_Put m k c ready = Ret (mi_view m !! k, m') /\ mi_ok m' /\ mi_view m' = <[k := c]> (mi_view m) /\
      mi_capacity m' = mi_capacity m;
  mi_Put_full_law : forall m k c ready, mi_ok m -> key32 k -> 0 < mi_capacity m <= Z.of_nat (size (mi_view m)) ->
    exists k0 c0, mi_view m !! k0 = Some c0 /\
      match ready c0 with
      | Ret data =>
        let v := if data : bool then delete k0 (mi_view m) else mi_view m in
        exists m', mi_Put m k c ready = Ret (v !! k, m') /\ mi_ok m' /\ mi_view m' = <[k := c]> v /\
          mi_capacity m' = mi_capacity m
      | Wait => mi_Put m k c ready = Wait
      | Crash => mi_Put m k c ready = Crash
      end
}.

(** The tree is a cache. *)
#[export] Instance MemStore_MemIndex : MemIndex MemStore := {
  mi_Get := MemStore_Get;
  mi_Put := MemStore_Put;
  mi_ok := store_ok;
  mi_view := fun s => fst <$> contents s;
  mi_capacity := ms_capacity
}.

#[export] Instance MemStore_laws : MemIndexLaws MemStore.
Proof.
  assert (Hsize : forall s, store_ok s -> Z.of_nat (size (fst <$> contents s)) = ms_entryCnt s).
  { intros s [Hpre _]. by rewrite map_size_fmap, (st_count _ Hpre). }
  split; cbn.
  - intros s k Hok Hk. destruct (MemStore_Get_step s k Hok Hk) as (s' & E & Hok' & Hv & Hc & _). exists s'. rewrite E, Hv, lookup_fmap.
    split_and!; try done. apply map_eq. intros k'. rewrite !lookup_fmap, lookup_alter. case_decide; [subst|done]. by destruct (contents s !! k').
  - intros s k c ready Hok Hk Hlt. rewrite Hsize in Hlt by done.
    pose proof (MemStore_Put_step s k c ready Hok Hk) as Hp. rewrite decide_True in Hp by lia.
    destruct Hp as (s' & E & [Hok' Hv Hc _]); [pose proof (Hsize s Hok); lia|]. exists s'. rewrite E, Hv, fmap_insert, lookup_fmap. done.
  - intros s k c ready Hok Hk [Hc Hle]. rewrite Hsize in Hle by done.
    pose proof (MemStore_Put_step s k c ready Hok Hk Hc) as Hp. rewrite decide_False in Hp by lia.
    destruct Hp as (k0 & c0 & (t0 & Hk0 & _) & Hp). exists k0, c0. rewrite lookup_fmap, Hk0. split; [done|].
    destruct (ready c0) as [data| |]; try done. destruct Hp as (s' & E & Hok' & Hv & Hc' & _). exists s'. rewrite E, Hv, fmap_insert.
    assert (Hw : fst <$> without (contents s) k0 c0 data = if data then delete k0 (fst <$> contents s) else fst <$> contents s).
    { unfold without. destruct data; [apply fmap_delete|]. rewrite fmap_insert. apply insert_id. by rewrite lookup_fmap, Hk0. }
    rewrite <- lookup_fmap, Hw. done.
Qed.

(** The disk store: [DbStore.Put] (a panic is [None]), [Get] and [updateAccessCnt]. *)
Class ChunkDisk (DS : Type) := {
  dk_Put : DS -> Chunk -> option DS;
  dk_Get : DS -> Key -> DS * result geterr Chunk;
  dk_access : DS -> Key -> DS
}.

Section Disk.
Context {D : Type} `{LevelDB D} (hashfunc : bytes -> bytes).
Context (rle_compress : bytes -> bytes) (rle_decompress : bytes -> option bytes) (growcap : nat -> nat).

Definition DbStore_ChunkDisk : ChunkDisk (DbStore D) := {|
  dk_Put := put_store rle_compress rle_decompress growcap;
  dk_Get := DbStore.Get hashfunc rle_decompress;
  dk_access := updateAccessCnt rle_decompress
|}.
End Disk.

(** ** Objects *)

(** A chunk object with the state of its channel [dbStored] and its wait group [wg]. *)
Record chunkobj := mkObj { co_chunk : Chunk; co_dbStored : option chan; co_wg : option nat }.

Record RequestStatus := mkRS {
  rs_Key : Key;
  rs_C : chan;
  rs_Requesters : gmap Z (list retrieveRequestMsgData)
}.

Definition newRequestStatus (key : Key) : RequestStatus := {| rs_Key := key; rs_C := Open; rs_Requesters := ∅ |}.

(** Goroutines started by the stores. *)
Inductive task :=
| TDbPut (c : nat)       (* [DbStore.Put(chunk)] and [chunk.wg.Done()] *)
| TDeliver (c : nat)     (* [cloud.Deliver(entry)] *)
| TStore (c : nat)       (* [cloud.Store(entry)] *)
| TRetrieve (c : nat).   (* [cloud.Retrieve(chunk)] *)

#[export] Instance task_eq_dec : EqDecision task.
Proof. solve_decision. Defined.

Definition requesterCount : Z := 3.
Definition searchTimeout : Z := 3 * 1000000000.

Section Node.
Context {K SW M DS : Type} `{Kademlia K, MemIndex M, ChunkDisk DS}.
(** The hash of chunks, [Swap.Add] (error, drop, new state), the ids drawn and the choice of a
    select with two ready cases. *)
Context (hash : bytes -> bytes) (swap_Add : SW -> Z -> bool * bool * SW) (generateId : Z) (pick : bool).

Record node := mkNode {
  nd_hive : Hive K SW;
  nd_chunks : gmap nat chunkobj;
  nd_reqs : gmap nat RequestStatus;
  nd_mem : M;
  nd_disk : DS;
  nd_tasks : list task;
  nd_wgs : gmap nat Z;            (* what the local store added to the counters of wait groups *)
  nd_next : nat
}.

Definition with_hive (w : node) (h : Hive K SW) : node :=
  {| nd_hive := h; nd_chunks := nd_chunks w; nd_reqs := nd_reqs w; nd_mem := nd_mem w;
     nd_disk := nd_disk w; nd_tasks := nd_tasks w; nd_wgs := nd_wgs w; nd_next := nd_next w |}.
Definition with_chunks (w : node) (c : gmap nat chunkobj) : node :=
  {| nd_hive := nd_hive w; nd_chunks := c; nd_reqs := nd_reqs w; nd_mem := nd_mem w;
     nd_disk := nd_disk w; nd_tasks := nd_tasks w; nd_wgs := nd_wgs w; nd_next := nd_next w |}.
Definition with_reqs (w : node) (r : gmap nat RequestStatus) : node :=
  {| nd_hive := nd_hive w; nd_chunks := nd_chunks w; nd_reqs := r; nd_mem := nd_mem w;
     nd_disk := nd_disk w; nd_tasks := nd_tasks w; nd_wgs := nd_wgs w; nd_next := nd_next w |}.
Definition with_mem (w : node) (m : M) : node :=
  {| nd_hive := nd_hive w; nd_chunks := nd_chunks w; nd_reqs := nd_reqs w; nd_mem := m;
     nd_disk := nd_disk w; nd_tasks := nd_tasks w; nd_wgs := nd_wgs w; nd_next := nd_next w |}.
Definition with_disk (w : node) (d : DS) : node :=
  {| nd_hive := nd_hive w; nd_chunks := nd_chunks w; nd_reqs := nd_reqs w; nd_mem := nd_mem w;
     nd_disk := d; nd_tasks := nd_tasks w; nd_wgs := nd_wgs w; nd_next := nd_next w |}.
Definition with_tasks (w : node) (t : list task) : node :=
  {| nd_hive := nd_hive w; nd_chunks := nd_chunks w; nd_reqs := nd_reqs w; nd_mem := nd_mem w;
     nd_disk := nd_disk w; nd_tasks := t; nd_wgs := nd_wgs w; nd_next := nd_next w |}.
Definition with_wgs (w : node) (g : gmap nat Z) : node :=
  {| nd_hive := nd_hive w; nd_chunks := nd_chunks w; nd_reqs := nd_reqs w; nd_mem := nd_mem w;
     nd_disk := nd_disk w; nd_tasks := nd_tasks w; nd_wgs := g; nd_next := nd_next w |}.
Definition go (w : node) (t : task) : node := with_tasks w (nd_tasks w ++ [t]).

(** A new chunk object. *)
Definition alloc_chunk (w : node) (c : Chunk) : nat * node :=
  (nd_next w,
   {| nd_hive := nd_hive w; nd_chunks := <[nd_next w := {| co_chunk := c; co_dbStored := None; co_wg := None |}]> (nd_chunks w);
      nd_reqs := nd_reqs w; nd_mem := nd_mem w; nd_disk := nd_disk w;
      nd_tasks := nd_tasks w; nd_wgs := nd_wgs w; nd_next := S (nd_next w) |}).

(** [NewChunk(key, newRequestStatus(key))]: the record has the number of its chunk. *)
Definition alloc_request (w : node) (key : Key) : nat * node :=
  let '(c, w) := alloc_chunk w (NewChunk key (Some (nd_next w))) in
  (c, with_reqs w (<[c := newRequestStatus key]> (nd_reqs w))).

Definition chunk_at (w : node) (c : nat) : option Chunk := co_chunk <$> nd_chunks w !! c.
Definition set_chunk (w : node) (c : nat) (f : Chunk -> Chunk) : node :=
  with_chunks w (alter (fun o => {| co_chunk := f (co_chunk o); co_dbStored := co_dbStored o; co_wg := co_wg o |}) c (nd_chunks w)).
Definition set_dbStored (w : node) (c : nat) (d : option chan) : node :=
  with_chunks w (alter (fun o => {| co_chunk := co_chunk o; co_dbStored := d; co_wg := co_wg o |}) c (nd_chunks w)).
Definition set_wg (w : node) (c : nat) (g : option nat) : node :=
  with_chunks w (alter (fun o => {| co_chunk := co_chunk o; co_dbStored := co_dbStored o; co_wg := g |}) c (nd_chunks w)).

(** ** MemStore *)

(** What [removeOldest] asks of an entry: it waits until the entry is on disk. *)
Definition cache_ready (w : node) (c : nat) : outcome bool :=
  match nd_chunks w !! c with
  | None => Crash
  | Some o =>
    match co_dbStored o with
    | Some Open => Wait
    | _ => Ret (bool_decide (ck_SData (co_chunk o) <> None))
    end
  end.

(** The new entry takes over what it lacks from the one it replaces. *)
Definition merge_entry (old new : Chunk) : Chunk :=
  let new := match ck_SData new with
             | None => {| ck_Key := ck_Key new; ck_SData := ck_SData old; ck_Size := ck_Size old;
                          ck_Source := ck_Source new; ck_Req := ck_Req new |}
             | Some _ => new
             end in
  {| ck_Key := ck_Key new; ck_SData := ck_SData new; ck_Size := ck_Size new; ck_Source := ck_Source new;
     ck_Req := match ck_Req new with None => ck_Req old | r => r end |}.

Definition cache_Put (w : node) (c : nat) : outcome node :=
  match chunk_at w c with
  | None => Crash
  | Some ch =>
    let& r := mi_Put (nd_mem w) (ck_Key ch) c (cache_ready w) in
    let w := match fst r ≫= chunk_at w with
             | Some old => set_chunk w c (merge_entry old)
             | None => w
             end in
    Ret (with_mem w (snd r))
  end.

Definition cache_Get (w : node) (key : Key) : outcome (option nat * node) :=
  let& r := mi_Get (nd_mem w) key in
  let '(c, access, m) := r in
  let w := with_mem w m in
  Ret (c, if access : bool then with_disk w (dk_access (nd_disk w) key) else w).

(** ** LocalStore *)

Definition chunk_wg (w : node) (c : nat) : option nat := nd_chunks w !! c ≫= co_wg.

(** [if chunk.wg != nil { chunk.wg.Add(1) }]. *)
Definition wg_Add (w : node) (c : nat) : node :=
  with_wgs w (match chunk_wg w c with Some g => <[g := default 0 (nd_wgs w !! g) + 1]> (nd_wgs w) | None => nd_wgs w end).

(** [if chunk.wg != nil { chunk.wg.Done() }]; a counter below zero panics. *)
Definition wg_Done (w : node) (c : nat) : outcome node :=
  match chunk_wg w c with
  | None => Ret w
  | Some g =>
    let n := default 0 (nd_wgs w !! g) in
    if n <=? 0 then Crash else Ret (with_wgs w (<[g := n - 1]> (nd_wgs w)))
  end.

Definition LocalStore_Put (w : node) (c : nat) : outcome node :=
  let w := set_dbStored w c (Some Open) in
  let& w := cache_Put w c in
  Ret (go (wg_Add w c) (TDbPut c)).

(** [None] is the error; data of fewer than 8 bytes panics. *)
Definition LocalStore_Get (w : node) (key : Key) : outcome (option nat * node) :=
  let& r := cache_Get w key in
  match r with
  | (Some c, w) => Ret (Some c, w)
  | (None, w) =>
    let '(d, x) := dk_Get (nd_disk w) key in
    let w := with_disk w d in
    match x with
    | Panic => Crash
    | Err _ => Ret (None, w)
    | Ok ch =>
      let data := default [] (ck_SData ch) in
      if #data <? 8 then Crash
      else
        let '(c, w) := alloc_chunk w {| ck_Key := ck_Key ch; ck_SData := ck_SData ch; ck_Size := i64 (le64_val data);
                                        ck_Source := ck_Source ch; ck_Req := ck_Req ch |} in
        let& w := cache_Put w c in
        Ret (Some c, w)
    end
  end.

(** ** NetStore *)

(** [close(entry.Req.C)]. *)
Definition close_request (w : node) (r : nat) : outcome node :=
  match nd_reqs w !! r with
  | None => Crash
  | Some rs =>
    match rs_C rs with
    | Closed => Crash
    | Open => Ret (with_reqs w (<[r := {| rs_Key := rs_Key rs; rs_C := Closed;
                                          rs_Requesters := rs_Requesters rs |}]> (nd_reqs w)))
    end
  end.

Definition NetStore_Put (w : node) (c : nat) : outcome node :=
  let& w := LocalStore_Put w c in
  match chunk_at w c ≫= ck_Req with
  | Some r => let& w := close_request w r in Ret (go w (TDeliver c))
  | None => Ret (go w (TStore c))
  end.

Definition NetStore_Get (w : node) (key : Key) : outcome (nat * node) :=
  let& r := LocalStore_Get w key in
  match r with
  | (Some c, w) => Ret (c, w)
  | (None, w) =>
    let '(c, w) := alloc_request w key in
    let& w := cache_Put w c in
    Ret (c, go w (TRetrieve c))
  end.

(** ** The chunk store of the DPA *)

(** [Get] up to its select: the chunk if its data is there, or the request it waits for. *)
Definition Dpa_Get (w : node) (key : Key) : outcome (nat * option nat * node) :=
  let& r := NetStore_Get w key in
  let '(c, w) := r in
  match chunk_at w c with
  | None => Crash
  | Some ch =>
    match ck_SData ch, ck_Req ch with
    | Some _, _ => Ret (c, None, w)
    | None, Some r => Ret (c, Some r, w)
    | None, None => Crash
    end
  end.

(** The select: the timer (not found) or the closed channel of the request. *)
Definition Dpa_Get_select (w : node) (c r : nat) (timer : bool) : outcome (option Chunk) :=
  match nd_reqs w !! r with
  | None => Crash
  | Some rs =>
    match rs_C rs with
    | Closed => if timer then Ret None else Ret (chunk_at w c)
    | Open => if timer then Ret None else Wait
    end
  end.

Definition set_data (data : option bytes) (size : Z) (ch : Chunk) : Chunk :=
  {| ck_Key := ck_Key ch; ck_SData := data; ck_Size := size; ck_Source := ck_Source ch; ck_Req := ck_Req ch |}.

Definition Dpa_Put (w : node) (entry : nat) : outcome node :=
  match chunk_at w entry with
  | None => Crash
  | Some e =>
    let& r := LocalStore_Get w (ck_Key e) in
    match r with
    | (None, w) => NetStore_Put w entry
    | (Some c, w) =>
      match chunk_at w c with
      | None => Crash
      | Some ch =>
        match ck_SData ch with
        | None => NetStore_Put (set_chunk w c (set_data (ck_SData e) (ck_Size e))) c
        | Some _ => Ret w
        end
      end
    end
  end.

(** ** Forwarder *)

(** [p.swap.Add(n)] when the peer has a payment channel. The flag is the error. *)
Definition swap_add (w : node) (p : peer) (n : Z) : bool * node :=
  match bees (nd_hive w) !! p with
  | None => (false, w)
  | Some b =>
    match bz_swap b with
    | None => (false, w)
    | Some s =>
      let '(err, drop, s') := swap_Add s n in
      let set b := {| bz_remoteAddr := bz_remoteAddr b; bz_lastActive := bz_lastActive b; bz_swap := Some s';
                      bz_syncEnabled := bz_syncEnabled b; bz_syncer := bz_syncer b; bz_syncState := bz_syncState b;
                      bz_up := bz_up b; bz_dropped := bz_dropped b || drop; bz_out := bz_out b |} in
      (err, with_hive w (on_bee (nd_hive w) p set))
    end
  end.

Definition send_to (w : node) (p : peer) (m : Msg) : bool * node :=
  let '(err, h) := send (nd_hive w) p m in (err, with_hive w h).

(** The addresses a request came from. *)
Definition requesters (w : node) (rs : RequestStatus) : list Address :=
  concat ((fun r => match rr_from r with Some p => [bee_Addr (nd_hive w) p] | None => [] end)
            <$> concat (map_to_list (rs_Requesters rs)).*2).

Fixpoint retrieve_loop (w : node) (key : Key) (skip : list Address) (ps : list peer) : node :=
  match ps with
  | [] => w
  | p :: ps =>
    if decide (bee_Addr (nd_hive w) p ∈ skip) then retrieve_loop w key skip ps
    else
      let '(err, w) := swap_add w p (-1) in
      if err then retrieve_loop w key skip ps
      else snd (send_to w p (MRetrieve {| rr_Key := Some key; rr_Id := generateId; rr_MaxSize := 0; rr_MaxPeers := 0;
                                          rr_Timeout := 0; rr_timeout := None; rr_from := None |}))
  end.

(** A chunk without request record is a nil dereference once there is a peer. *)
Definition Retrieve (w : node) (c : nat) : outcome node :=
  match chunk_at w c with
  | None => Crash
  | Some ch =>
    let ps := getPeers (nd_hive w) (ck_Key ch) 0 in
    match ck_Req ch ≫= fun r => nd_reqs w !! r with
    | Some rs => Ret (retrieve_loop w (ck_Key ch) (requesters w rs) ps)
    | None => match ps with [] => Ret w | _ => Crash end
    end
  end.

(** [p.syncer.addRequest(req, ty)]: a nil syncer is a nil dereference. *)
Definition Deliver_to (w : node) (p : peer) (req : request) (ty : Z) : outcome node :=
  match bees (nd_hive w) !! p with
  | None => Crash
  | Some b =>
    match bz_syncer b with
    | None => Crash
    | Some s =>
      let& s := addRequest s req ty pick in
      Ret (with_hive w (on_bee (nd_hive w) p (set_syncer (Some s))))
    end
  end.

Definition store_message (ch : Chunk) (id : Z) (timeout : option Z) : storeRequestMsgData :=
  {| so_Key := ck_Key ch; so_SData := ck_SData ch; so_Id := id; so_requestTimeout := timeout |}.

Fixpoint store_loop (w : node) (msg : storeRequestMsgData) (source : option Address) (ps : list peer) : outcome node :=
  match ps with
  | [] => Ret w
  | p :: ps =>
    let b := bees (nd_hive w) !! p in
    if bool_decide ((b ≫= bz_syncer) <> None) && negb (bool_decide (source = Some (bee_Addr (nd_hive w) p))) then
      let& w := Deliver_to w p (RStore msg) PropagateReq in
      store_loop w msg source ps
    else store_loop w msg source ps
  end.

Definition Store (w : node) (c : nat) : outcome node :=
  match chunk_at w c with
  | None => Crash
  | Some ch =>
    store_loop w (store_message ch 0 None) (bee_Addr (nd_hive w) <$> ck_Source ch)
      (getPeers (nd_hive w) (ck_Key ch) 0)
  end.

(** The requesters of one id: [i] is the position in the list, which becomes the id of the
    message. [now] is the time. *)
Fixpoint deliver_loop (w : node) (ch : Chunk) (now i counter : Z) (rs : list retrieveRequestMsgData) : outcome node :=
  match rs with
  | [] => Ret w
  | r :: rs =>
    if match rr_timeout r with None => true | Some t => now <? t end then
      match rr_from r with
      | None => Crash
      | Some p =>
        let& w := Deliver_to w p (RStore (store_message ch i None)) DeliverReq in
        let counter := counter - 1 in
        if counter <=? 0 then Ret w else deliver_loop w ch now (i + 1) counter rs
      end
    else deliver_loop w ch now (i + 1) counter rs
  end.

Fixpoint deliver_ids (w : node) (ch : Chunk) (now : Z) (groups : list (list retrieveRequestMsgData)) : outcome node :=
  match groups with
  | [] => Ret w
  | rs :: groups =>
    let& w := deliver_loop w ch now 0 requesterCount rs in
    deliver_ids w ch now groups
  end.

Definition Deliver (w : node) (c : nat) (now : Z) : outcome node :=
  match chunk_at w c with
  | None => Crash
  | Some ch =>
    match ck_Req ch ≫= fun r => nd_reqs w !! r with
    | None => Crash
    | Some rs => deliver_ids w ch now (map_to_list (rs_Requesters rs)).*2
    end
  end.

(** The peer a stream request goes to: the closest one that did not send it. *)
Definition stream_peer (w : node) (nodeID : Hash32) (from : Address) : option peer :=
  match getPeers (nd_hive w) nodeID 2 with
  | p0 :: p1 :: _ => Some (if decide (bee_Addr (nd_hive w) p0 = from) then p1 else p0)
  | [p0] => Some p0
  | [] => None
  end.

Definition Stream (w : node) (id : bytes) (peerAddr : Address) (format : option VideoFormat) : node :=
  let '(nodeID, streamID) := SplitComponents id in
  if #streamID =? 0 then w
  else match stream_peer w nodeID peerAddr with
  | None => w
  | Some p => snd (send_to w p (MStream {| sr_OriginNode := nodeID; sr_StreamID := streamID; sr_Format := format;
                                           sr_SData := []; sr_Id := RequestStreamMsgID |}))
  end.

Definition StopStream (w : node) (id : bytes) (peerAddr : Address) (format : option VideoFormat) : node :=
  let '(nodeID, streamID) := SplitComponents id in
  match stream_peer w nodeID peerAddr with
  | None => w
  | Some p => snd (send_to w p (MStop {| sp_OriginNode := nodeID; sp_Format := format; sp_StreamID := streamID;
                                         sp_SData := []; sp_Id := StopStreamMsgID |}))
  end.

Definition Transcode (w : node) (streamId : bytes) (transcodeId : Hash32) (formats bitrates : list bytes)
    (codecin : bytes) (codeout : list bytes) : node :=
  let '(nodeID, streamID) := SplitComponents streamId in
  let msg := {| tr_OriginNode := nodeID; tr_OriginStreamID := streamID; tr_TranscodeID := transcodeId;
                tr_Id := TranscodeRequestMsgID; tr_Formats := formats; tr_Bitrates := bitrates;
                tr_CodecIn := codecin; tr_CodecOut := codeout |} in
  foldl (fun w p => snd (send_to w p (MTranscode msg))) w (getPeers (nd_hive w) transcodeId 1).

(** ** Tasks *)

(** The goroutine of [LocalStore.Put]: [DbStore.Put], which closes [dbStored] when it is done, and the end of the wait. *)
Definition db_put (w : node) (c : nat) : outcome node :=
  match nd_chunks w !! c with
  | None => Crash
  | Some o =>
    let& d := or_crash (dk_Put (nd_disk w) (co_chunk o)) in
    let& ch := or_crash (close_nonnil (co_dbStored o)) in
    wg_Done (set_dbStored (with_disk w d) c ch) c
  end.

(** The [n]th task runs. *)
Definition run_task (w : node) (n : nat) (now : Z) : outcome node :=
  match nd_tasks w !! n with
  | None => Ret w
  | Some t =>
    let w := with_tasks w (take n (nd_tasks w) ++ drop (S n) (nd_tasks w)) in
    match t with
    | TDbPut c => db_put w c
    | TDeliver c => Deliver w c now
    | TStore c => Store w c
    | TRetrieve c => Retrieve w c
    end
  end.

(** ** Depo *)

(** The key of each request is looked up in the local store; keys without data are missing. *)
Fixpoint missing_keys (w : node) (rs : list syncRequest) : outcome (list syncRequest * node) :=
  match rs with
  | [] => Ret ([], w)
  | r :: rs =>
    let& x := LocalStore_Get w (sq_Key r) in
    let '(c, w) := x in
    let absent := match c ≫= chunk_at w with Some ch => bool_decide (ck_SData ch = None) | None => true end in
    let& y := missing_keys w rs in
    let '(ms, w) := y in
    Ret (if absent then r :: ms else ms, w)
  end.

(** The flag is the error. *)
Definition HandleUnsyncedKeysMsg (w : node) (req : unsyncedKeysMsgData) (p : peer) : outcome (bool * node) :=
  let& r := missing_keys w (um_Unsynced req) in
  let '(missing, w) := r in
  let '(err, w) := send_to w p (MDelivery {| dm_Deliver := missing |}) in
  if err then Ret (true, w)
  else Ret (false, with_hive w (on_bee (nd_hive w) p (set_syncState (Some (um_State req))))).

(** [dbAccess.get]: the local store, whose caching of the chunk is kept. *)
Definition db_access (w : node) (key : Key) : outcome (option Chunk * node) :=
  let& r := LocalStore_Get w key in
  let '(c, w) := r in Ret (c ≫= chunk_at w, w).

(** [Push]: [p.syncer.doDelivery(key, priority, quit)]. *)
Definition Push (w : node) (p : peer) (key : Key) (priority : Z) : outcome node :=
  match bees (nd_hive w) !! p with
  | None => Crash
  | Some b =>
    match bz_syncer b with
    | None => Crash
    | Some s =>
      let& r := db_access w key in
      let '(ch, w) := r in
      let& x := doDelivery (fun _ => ch) s (RKey key) priority generateId pick in
      let '(_, s) := x in
      Ret (with_hive w (on_bee (nd_hive w) p (set_syncer (Some s))))
    end
  end.

Fixpoint push_all (w : node) (p : peer) (rs : list syncRequest) : outcome node :=
  match rs with
  | [] => Ret w
  | r :: rs => let& w := Push w p (sq_Key r) (sq_Priority r) in push_all w p rs
  end.

Definition HandleDeliveryRequestMsg (w : node) (req : deliveryRequestMsgData) (p : peer) : outcome node :=
  let& w := push_all w p (dm_Deliver req) in
  match bees (nd_hive w) !! p with
  | None => Crash
  | Some b =>
    match bz_syncer b with
    | None => Crash
    | Some s => Ret (with_hive w (on_bee (nd_hive w) p (set_syncer (Some (sendUnsyncedKeys s)))))
    end
  end.

(** The first part of [HandleStoreRequestMsg]: the chunk object to fill, if any. *)
Definition store_find (w : node) (req : storeRequestMsgData) : outcome (option nat * node) :=
  let& r := LocalStore_Get w (so_Key req) in
  match r with
  | (None, w) =>
    let '(c, w) := alloc_chunk w (NewChunk (so_Key req) None) in Ret (Some c, w)
  | (Some c, w) =>
    match chunk_at w c with
    | None => Crash
    | Some ch =>
      match ck_SData ch with
      | None => if bool_decide (hash (default [] (so_SData req)) = so_Key req) then Ret (Some c, w) else Ret (None, w)
      | Some _ => Ret (None, w)
      end
    end
  end.

(** The second part: the data goes into the object, which goes to the network store. *)
Definition store_fill (w : node) (req : storeRequestMsgData) (p : peer) (c : nat) : outcome node :=
  let data := default [] (so_SData req) in
  if #data <? 8 then Crash
  else
    let fill ch := {| ck_Key := ck_Key ch; ck_SData := so_SData req; ck_Size := i64 (le64_val data);
                      ck_Source := Some p; ck_Req := ck_Req ch |} in
    NetStore_Put (set_chunk w c fill) c.

Definition HandleStoreRequestMsg (w : node) (req : storeRequestMsgData) (p : peer) : outcome node :=
  let& r := store_find w req in
  match r with
  | (Some c, w) => store_fill w req p c
  | (None, w) => Ret w
  end.

Definition addRequester (w : node) (r : nat) (req : retrieveRequestMsgData) : outcome node :=
  match nd_reqs w !! r with
  | None => Crash
  | Some rs =>
    let l := default [] (rs_Requesters rs !! rr_Id req) in
    Ret (with_reqs w (<[r := {| rs_Key := rs_Key rs; rs_C := rs_C rs;
                                rs_Requesters := <[rr_Id req := l ++ [req]]> (rs_Requesters rs) |}]> (nd_reqs w)))
  end.

Definition searchTimeout_of (req : retrieveRequestMsgData) (now : Z) : option Z :=
  let t := now + searchTimeout in
  match retrieve_getTimeout req with
  | Some reqt => if reqt <? t then Some reqt else Some t
  | None => Some t
  end.

Definition strategyUpdateRequest (w : node) (rs : option nat) (origReq : retrieveRequestMsgData) (now : Z)
  : outcome (retrieveRequestMsgData * node) :=
  match rs with
  | None => Ret (origReq, w)
  | Some r =>
    let& w := addRequester w r origReq in
    Ret (retrieve_setTimeout origReq (searchTimeout_of origReq now), w)
  end.

Definition HandleRetrieveRequestMsg (w : node) (req : retrieveRequestMsgData) (p : peer) (now : Z) : outcome node :=
  let req := {| rr_Key := rr_Key req; rr_Id := rr_Id req; rr_MaxSize := rr_MaxSize req; rr_MaxPeers := rr_MaxPeers req;
                rr_Timeout := rr_Timeout req; rr_timeout := rr_timeout req; rr_from := Some p |} in
  let '(err, w) := swap_add w p 1 in
  if err then Ret w
  else
    let& r := NetStore_Get w (default [] (rr_Key req)) in
    let '(c, w) := r in
    match chunk_at w c with
    | None => Crash
    | Some ch =>
      let& x := strategyUpdateRequest w (ck_Req ch) req now in
      let '(req, w) := x in
      match ck_SData ch with
      | Some _ =>
        if (rr_MaxSize req =? 0) || (ck_Size ch <=? i64 (rr_MaxSize req)) then
          Deliver_to w p (RStore (store_message ch (rr_Id req) (rr_timeout req))) DeliverReq
        else Ret w
      | None => Ret w
      end
    end.
End Node.
Arguments node : clear implicits.
