(* ===== verification/NodeProps.v ===== *)
(** Properties of the storage side of a node ([Node]): what a store request does
    on every branch, how two of them interact, which messages of a peer crash the
    node, and whom a retrieve request goes to. *)
From stdpp Require Import base gmap list strings.
From Stdlib Require Import ZArith Lia.
From S2P Require Import Prelude Types Database DbStore MemStore MemInv MemEvict MemView MemProps Streamer Messages SyncDb Syncer Hive Node.

Section Props.
Context {K SW M DS : Type} `{Kademlia K, !MemIndex M, HML : !MemIndexLaws M, ChunkDisk DS}.
Context (hash : bytes -> bytes) (swap_Add : SW -> Z -> bool * bool * SW) (generateId : Z) (pick : bool).

Implicit Types (w : node K SW M DS) (c r : nat) (ch : Chunk).

(** ** Lemmas: the heap *)

Lemma chunk_at_set_chunk w c d f :
  chunk_at (set_chunk w c f) d = if decide (d = c) then f <$> chunk_at w c else chunk_at w d.
Proof using Type.
  unfold chunk_at, set_chunk. cbn. case_decide as E.
  - subst d. rewrite lookup_alter_eq. by destruct (nd_chunks w !! c).
  - by rewrite lookup_alter_ne.
Qed.

Lemma chunk_at_set_dbStored w c d x : chunk_at (set_dbStored w c x) d = chunk_at w d.
Proof using Type.
  unfold chunk_at, set_dbStored. cbn. rewrite lookup_alter. case_decide; [subst|done].
  by destruct (nd_chunks w !! d).
Qed.

Lemma chunk_at_with_mem w m d : chunk_at (with_mem w m) d = chunk_at w d.
Proof using Type. done. Qed.

(** The cache has room for one more entry. *)
Definition room w : Prop := mi_ok (nd_mem w) /\ Z.of_nat (size (mi_view (nd_mem w))) < mi_capacity (nd_mem w).

Lemma cache_Get_ok w key :
  mi_ok (nd_mem w) -> key32 key ->
  exists m, cache_Get w key = Ret (mi_view (nd_mem w) !! key, with_mem w m) /\ mi_ok m /\
    mi_view m = mi_view (nd_mem w) /\ mi_capacity m = mi_capacity (nd_mem w).
Proof using HML.
  intros Hok Hk. unfold cache_Get. destruct (mi_Get_law (nd_mem w) key Hok Hk) as (m & -> & ?). by exists m.
Qed.

Lemma cache_Put_room w c ch :
  room w -> chunk_at w c = Some ch -> key32 (ck_Key ch) ->
  exists m, cache_Put w c =
    Ret (with_mem (match mi_view (nd_mem w) !! ck_Key ch ≫= chunk_at w with
                   | Some old => set_chunk w c (merge_entry old)
                   | None => w
                   end) m) /\ mi_ok m /\ mi_view m = <[ck_Key ch := c]> (mi_view (nd_mem w)) /\
    mi_capacity m = mi_capacity (nd_mem w).
Proof using HML.
  intros [Hok Hroom] Hc Hk. unfold cache_Put. rewrite Hc.
  destruct (mi_Put_law (nd_mem w) (ck_Key ch) c (cache_ready w) Hok Hk Hroom) as (m & -> & ?). exists m. cbn [obind fst snd].
  split; [|done]. by destruct (mi_view (nd_mem w) !! ck_Key ch ≫= chunk_at w).
Qed.

(** [NetStore.Put] of an object that is new, or is the entry of its key in the cache. *)
Lemma NetStore_Put_room w c ch :
  room w -> chunk_at w c = Some ch -> key32 (ck_Key ch) ->
  (mi_view (nd_mem w) !! ck_Key ch = None \/ mi_view (nd_mem w) !! ck_Key ch = Some c) ->
  exists w1, chunk_at w1 c = Some ch /\ (forall d, chunk_at w1 d = chunk_at w d) /\
    nd_reqs w1 = nd_reqs w /\ nd_tasks w1 = nd_tasks w ++ [TDbPut c] /\ nd_hive w1 = nd_hive w /\
    mi_ok (nd_mem w1) /\ mi_view (nd_mem w1) = <[ck_Key ch := c]> (mi_view (nd_mem w)) /\
    nd_disk w1 = nd_disk w /\ mi_capacity (nd_mem w1) = mi_capacity (nd_mem w) /\
    NetStore_Put w c =
      match ck_Req ch with
      | Some r => let& w1 := close_request w1 r in Ret (go w1 (TDeliver c))
      | None => Ret (go w1 (TStore c))
      end.
Proof using HML.
  intros Hroom Hc Hk Hmem. unfold NetStore_Put, LocalStore_Put.
  set (w0 := set_dbStored w c (Some Open)).
  assert (Hat : forall d, chunk_at w0 d = chunk_at w d) by (intros d; apply chunk_at_set_dbStored).
  destruct (cache_Put_room w0 c ch) as (m & -> & Hmok & Hmv & Hmc); [exact Hroom|by rewrite Hat|done|].
  change (nd_mem w0) with (nd_mem w) in *. cbn [obind].
  set (w2 := match mi_view (nd_mem w) !! ck_Key ch ≫= chunk_at w0 with
      | Some old => set_chunk w0 c (merge_entry old) | None => w0 end).
  assert (Hmerge : forall d, chunk_at w2 d = chunk_at w d).
  { subst w2. intros d. destruct Hmem as [-> | ->]; cbn [mbind option_bind]; [apply Hat|]. rewrite Hat, Hc.
    rewrite chunk_at_set_chunk. case_decide; [subst|apply Hat]. rewrite Hat, Hc. cbn. f_equal.
    destruct ch as [k sd sz so [r'|]], sd; done. }
  assert (Hrest : nd_reqs w2 = nd_reqs w /\ nd_tasks w2 = nd_tasks w /\ nd_hive w2 = nd_hive w /\
    nd_disk w2 = nd_disk w) by (subst w2; case_match; done).
  destruct Hrest as (Hr & Ht & Hh & Hd). exists (go (wg_Add (with_mem w2 m) c) (TDbPut c)).
  assert (Hgo : forall d, chunk_at (go (wg_Add (with_mem w2 m) c) (TDbPut c)) d = chunk_at w d) by (intros d; apply Hmerge).
  rewrite (Hgo c), Hc. cbn [mbind option_bind]. split_and!; try done. cbn. by rewrite Ht.
Qed.

(** ** Store requests *)

(** A store request for a key the node does not know is accepted whatever its data
    hashes to: the data is in the local store under the key from then on, is about to be
    written to disk and is offered to other peers. *)
Theorem store_unknown_unverified w req p d e :
  room w -> key32 (so_Key req) -> mi_view (nd_mem w) !! so_Key req = None -> dk_Get (nd_disk w) (so_Key req) = (d, Err e) ->
  8 <= #(default [] (so_SData req)) ->
  exists w' c w'' ch, HandleStoreRequestMsg hash w req p = Ret w' /\
    nd_tasks w' = nd_tasks w ++ [TDbPut c; TStore c] /\
    LocalStore_Get w' (so_Key req) = Ret (Some c, w'') /\ chunk_at w'' c = Some ch /\
    ck_Key ch = so_Key req /\ ck_SData ch = so_SData req /\ ck_Source ch = Some p.
Proof using HML.
  intros [Hmok Hroom] Hk Hmem Hdisk Hlen. unfold HandleStoreRequestMsg, store_find, LocalStore_Get.
  destruct (cache_Get_ok w (so_Key req) Hmok Hk) as (m & -> & Hmok1 & Hmv1 & Hmc1).
  rewrite Hmem. cbn [obind with_mem nd_disk]. rewrite Hdisk. cbn [obind alloc_chunk with_disk with_mem nd_next]. unfold store_fill.
  destruct (Z.ltb_spec (#(default [] (so_SData req))) 8); [lia|].
  match goal with |- context [set_chunk ?x ?y ?z] => set (w0 := set_chunk x y z) end.
  set (ch := {| ck_Key := so_Key req; ck_SData := so_SData req; ck_Size := i64 (le64_val (default [] (so_SData req)));
                ck_Source := Some p; ck_Req := None |}).
  assert (Hch : chunk_at w0 (nd_next w) = Some ch).
  { subst w0. rewrite chunk_at_set_chunk, decide_True by done. unfold chunk_at. cbn. by rewrite lookup_insert_eq. }
  destruct (NetStore_Put_room w0 (nd_next w) ch) as (w1 & Hc1 & _ & _ & Ht1 & _ & Hok1 & Hm1 & _ & _ & E); try done.
  { split; cbn; [done|]. by rewrite Hmv1, Hmc1. } { left. cbn. by rewrite Hmv1. }
  rewrite E. cbn [ck_Req ch]. set (w2 := go w1 (TStore (nd_next w))).
  destruct (cache_Get_ok w2 (so_Key req)) as (m2 & E2 & _); [done|done|].
  exists w2, (nd_next w), (with_mem w2 m2), ch. split_and!; try done.
  - cbn. rewrite Ht1. cbn. by rewrite <- app_assoc.
  - rewrite E2. cbn [obind w2 go with_tasks nd_mem]. rewrite Hm1. cbn. by rewrite lookup_insert_eq.
Qed.

(** An open request: its entry in the cache has no data and an open channel. *)
Definition pending_request w key c r : Prop :=
  mi_view (nd_mem w) !! key = Some c /\
  (exists ch, chunk_at w c = Some ch /\ ck_Key ch = key /\ ck_SData ch = None /\ ck_Req ch = Some r) /\
  exists rs, nd_reqs w !! r = Some rs /\ rs_C rs = Open.

Lemma store_find_pending w req c r :
  room w -> key32 (so_Key req) -> pending_request w (so_Key req) c r ->
  exists m, store_find hash w req =
    Ret (if bool_decide (hash (default [] (so_SData req)) = so_Key req) then Some c else None, with_mem w m) /\
    room (with_mem w m) /\ pending_request (with_mem w m) (so_Key req) c r.
Proof using HML.
  intros [Hok Hroom] Hk (Hl & (ch & Hc & Hkey & Hs & Hr) & Hrs). unfold store_find, LocalStore_Get.
  destruct (cache_Get_ok w (so_Key req) Hok Hk) as (m & -> & Hmok & Hmv & Hmc). rewrite Hl. cbn [obind].
  rewrite chunk_at_with_mem, Hc, Hs. exists m. split; [by case_bool_decide|]. unfold room, pending_request. cbn [with_mem nd_mem].
  rewrite Hmv, Hmc. split_and!; try done. by exists ch.
Qed.

Lemma store_fill_pending w req p c r :
  pending_request w (so_Key req) c r -> room w -> key32 (so_Key req) -> 8 <= #(default [] (so_SData req)) ->
  exists w' rs ch, store_fill w req p c = Ret w' /\
    nd_reqs w' !! r = Some rs /\ rs_C rs = Closed /\ nd_tasks w' = nd_tasks w ++ [TDbPut c; TDeliver c] /\
    chunk_at w' c = Some ch /\ ck_SData ch = so_SData req /\ ck_Key ch = so_Key req /\ ck_Req ch = Some r /\
    mi_view (nd_mem w') !! so_Key req = Some c /\ room w'.
Proof using HML.
  intros (Hl & (ch & Hc & Hk & Hs & Hr) & rs & Hrs & HC) [Hok Hroom] Hk32 Hlen. unfold store_fill.
  destruct (Z.ltb_spec (#(default [] (so_SData req))) 8); [lia|].
  match goal with |- context [set_chunk ?x ?y ?z] => set (w0 := set_chunk x y z) end.
  set (ch' := {| ck_Key := so_Key req; ck_SData := so_SData req; ck_Size := i64 (le64_val (default [] (so_SData req)));
                ck_Source := Some p; ck_Req := Some r |}).
  assert (Hch : chunk_at w0 c = Some ch').
  { subst w0. rewrite chunk_at_set_chunk, decide_True, Hc by done. cbn. by rewrite Hk, Hr. }
  destruct (NetStore_Put_room w0 c ch') as (w1 & Hc1 & _ & Hr1 & Ht1 & _ & Hok1 & Hm1 & _ & Hcp1 & E); try done.
  { right. exact Hl. }
  rewrite E. cbn [ck_Req ch']. unfold close_request. rewrite Hr1.
  change (nd_reqs w0) with (nd_reqs w). rewrite Hrs, HC. cbn [obind].
  eexists. eexists. exists ch'. split; [done|]. split_and!; try done; cbn.
  - by rewrite lookup_insert_eq.
  - done.
  - rewrite Ht1. cbn. by rewrite <- app_assoc.
  - rewrite Hm1. cbn. by rewrite lookup_insert_eq.
  - split; cbn; [exact Hok1|]. rewrite Hm1, Hcp1, map_size_insert. cbn. by rewrite Hl.
Qed.


(** Two connections that deliver the same requested chunk at the same time, both
    finding the open request before either stores, crash the node: the second
    one closes the channel of the request again. *)
Theorem concurrent_deliveries_crash w req1 req2 p1 p2 c r :
  so_Key req2 = so_Key req1 -> pending_request w (so_Key req1) c r -> room w -> key32 (so_Key req1) ->
  hash (default [] (so_SData req1)) = so_Key req1 -> hash (default [] (so_SData req2)) = so_Key req2 ->
  8 <= #(default [] (so_SData req1)) -> 8 <= #(default [] (so_SData req2)) ->
  exists w1 w2 w3, store_find hash w req1 = Ret (Some c, w1) /\ store_find hash w1 req2 = Ret (Some c, w2) /\
    store_fill w2 req1 p1 c = Ret w3 /\ store_fill w3 req2 p2 c = Crash.
Proof using HML.
  intros Hk Hp Hroom Hk32 Hh1 Hh2 Hl1 Hl2. destruct (store_find_pending _ _ _ _ Hroom Hk32 Hp) as (m1 & E1 & Hroom1 & Hp1).
  rewrite <- Hk in Hp1, Hk32. destruct (store_find_pending _ req2 _ _ Hroom1 Hk32 Hp1) as (m2 & E2 & Hroom2 & Hp2).
  rewrite Hk in Hp2, Hk32. set (w1 := with_mem w m1) in *. set (w2 := with_mem w1 m2) in *.
  destruct (store_fill_pending w2 req1 p1 c r Hp2 Hroom2 Hk32 Hl1) as (w3 & rs & ch & E3 & Hr3 & HC3 & _ & Hc3 & _ & Hk3 & Hq3 & Hm3 & Hroom3).
  exists w1, w2, w3. split_and!.
  - rewrite E1. by rewrite bool_decide_true.
  - rewrite E2. by rewrite bool_decide_true.
  - exact E3.
  - unfold store_fill. destruct (Z.ltb_spec (#(default [] (so_SData req2))) 8); [lia|].
    match goal with |- context [set_chunk ?x ?y ?z] => set (w4 := set_chunk x y z) end.
    assert (Hch : exists ch', chunk_at w4 c = Some ch' /\ ck_Key ch' = so_Key req1 /\ ck_Req ch' = Some r).
    { subst w4. rewrite chunk_at_set_chunk, decide_True, Hc3 by done. eexists. split; [done|]. done. }
    destruct Hch as (ch' & Hch' & Hk' & Hr').
    destruct (NetStore_Put_room w4 c ch') as (w5 & _ & _ & Hr5 & _ & _ & _ & _ & _ & _ & E5); try done.
    { by rewrite Hk'. } { right. rewrite Hk'. exact Hm3. }
    rewrite E5, Hr'. unfold close_request. rewrite Hr5. change (nd_reqs w4) with (nd_reqs w3). by rewrite Hr3, HC3.
Qed.

(** ** Messages that crash the node *)

(** A peer that has not sent a sync request crashes the node with a retrieve
    request for content the node has in its cache, and with any delivery request; a peer
    with a running syncer does so with a delivery request for cached content at a
    priority out of range. *)
Theorem unsynced_peer_crashes w p b key c ch :
  bees (nd_hive w) !! p = Some b -> mi_ok (nd_mem w) -> key32 key ->
  mi_view (nd_mem w) !! key = Some c -> chunk_at w c = Some ch -> ck_SData ch <> None -> ck_Req ch = None ->
  (bz_syncer b = None ->
   (forall req now, rr_Key req = Some key -> rr_MaxSize req = 0 -> bz_swap b = None ->
      HandleRetrieveRequestMsg swap_Add pick w req p now = Crash) /\
   (forall req, HandleDeliveryRequestMsg generateId pick w req p = Crash)) /\
  (forall s prio, bz_syncer b = Some s -> #(sy_deliveries s) <= prio ->
     HandleDeliveryRequestMsg generateId pick w {| dm_Deliver := [{| sq_Key := key; sq_Priority := prio |}] |} p = Crash).
Proof using HML.
  intros Hb Hok Hk32 Hl Hc Hs Hr. destruct (cache_Get_ok w key Hok Hk32) as (m & Hg & _). rewrite Hl in Hg. split.
  - intros Hsy. split.
    + intros req now Hk Hmax Hsw. unfold HandleRetrieveRequestMsg, swap_add. rewrite Hb, Hsw.
      cbn [rr_Key rr_MaxSize]. rewrite Hk. change (default [] (Some key)) with key. unfold NetStore_Get, LocalStore_Get.
      rewrite Hg. cbn [obind]. rewrite chunk_at_with_mem, Hc, Hr. cbn [strategyUpdateRequest obind].
      destruct (ck_SData ch) as [data|]; [|done]. cbn [rr_MaxSize]. rewrite Hmax. cbn [Z.eqb orb].
      unfold Deliver_to. cbn [with_mem nd_hive]. by rewrite Hb, Hsy.
    + intros [[|r rs]]; unfold HandleDeliveryRequestMsg; cbn [dm_Deliver push_all obind].
      * by rewrite Hb, Hsy.
      * unfold Push. by rewrite Hb, Hsy.
  - intros s prio Hsy Hprio. unfold HandleDeliveryRequestMsg, Push. cbn [dm_Deliver push_all sq_Key sq_Priority].
    unfold Push. rewrite Hb, Hsy. unfold db_access, LocalStore_Get. rewrite Hg. cbn [obind].
    cbn [mbind option_bind]. rewrite chunk_at_with_mem, Hc.
    unfold doDelivery, newStoreRequestMsgData. cbn [parseRequest rbind].
    assert (index (sy_deliveries s) prio = None) as ->; [|done].
    unfold index. case_decide; [|done]. apply lookup_ge_None_2. zlia.
Qed.

(** ** Retrieve requests *)

(** Two hives with the same peers, where only the messages to [p] may differ. *)
Definition outs (h : Hive K SW) (q : peer) : list Msg := match bees h !! q with Some b => bz_out b | None => [] end.

Lemma swap_add_outs w p n :
  (forall q, outs (nd_hive (snd (swap_add swap_Add w p n))) q = outs (nd_hive w) q) /\
  (forall q, bee_Addr (nd_hive (snd (swap_add swap_Add w p n))) q = bee_Addr (nd_hive w) q).
Proof using Type.
  unfold swap_add. destruct (bees (nd_hive w) !! p) as [b|] eqn:Hb; [|done].
  destruct (bz_swap b) as [s|]; [|done]. destruct (swap_Add s n) as [[err drop] s']. cbn [snd].
  split; intros q; unfold outs, bee_Addr; cbn; rewrite lookup_alter; case_decide; try done; subst; by rewrite Hb.
Qed.

Lemma send_outs (h : Hive K SW) p m :
  exists l, (l = [] \/ l = [m]) /\
    forall q, outs (snd (send h p m)) q = outs h q ++ (if decide (q = p) then l else []).
Proof using Type.
  unfold send. destruct (hv_blockWrite h); [exists []; split; [by left|]; intros q; by case_decide; rewrite app_nil_r|].
  destruct (bees h !! p) as [b|] eqn:Hb; [|exists []; split; [by left|]; intros q; by case_decide; rewrite app_nil_r].
  destruct (_ && bz_up b); cbn [snd].
  - exists [m]. split; [by right|]. intros q. unfold outs, on_bee. cbn. rewrite lookup_alter.
    destruct (decide (p = q)) as [<-|Hne].
    + rewrite decide_True by done. by rewrite Hb.
    + rewrite decide_False by done. by rewrite app_nil_r.
  - exists []. split; [by left|]. intros q. unfold outs, Drop, on_bee. cbn. rewrite lookup_alter.
    case_decide as E; case_decide; rewrite app_nil_r; try done; subst; by rewrite Hb.
Qed.

Lemma retrieve_loop_one key skip ps w :
  let w' := retrieve_loop swap_Add generateId w key skip ps in
  (forall q, outs (nd_hive w') q = outs (nd_hive w) q) \/
  (exists p m, p ∈ ps /\ (bee_Addr (nd_hive w) p ∉ skip) /\
     forall q, outs (nd_hive w') q = outs (nd_hive w) q ++ (if decide (q = p) then [MRetrieve m] else [])).
Proof using Type.
  revert w. induction ps as [|p ps IH]; intros w w'; subst w'; cbn [retrieve_loop]; [by left|].
  case_decide as Hskip.
  { destruct (IH w) as [Hs|(q & m & Hq & Hns & Ho)]; [by left|]. right. exists q, m. split_and!; try done. by right. }
  destruct (swap_add_outs w p (-1)) as [Ho Ha]. destruct (swap_add swap_Add w p (-1)) as [[|] w1]; cbn [snd] in Ho, Ha.
  - destruct (IH w1) as [Hs|(q & m & Hq & Hns & Ho')].
    + left. intros q. by rewrite Hs, Ho.
    + right. exists q, m. split_and!; [by right|by rewrite <- Ha|]. intros x. by rewrite Ho', Ho.
  - set (msg := {| rr_Key := Some key; rr_Id := generateId; rr_MaxSize := 0; rr_MaxPeers := 0; rr_Timeout := 0;
                   rr_timeout := None; rr_from := None |}).
    unfold send_to. destruct (send_outs (nd_hive w1) p (MRetrieve msg)) as (l & Hl & Hs).
    destruct (send (nd_hive w1) p (MRetrieve msg)) as [err h]. cbn [snd nd_hive with_hive] in *. destruct Hl as [-> | ->].
    + left. intros q. rewrite Hs, Ho. case_decide; by rewrite app_nil_r.
    + right. exists p, msg. split_and!; [by left|done|]. intros q. by rewrite Hs, Ho.
Qed.

(** Forwarding a retrieve request sends at most one message, to a peer close to the
    key, and never to a peer the chunk was requested by. *)
Theorem Retrieve_one_not_requester w c ch r rs :
  chunk_at w c = Some ch -> ck_Req ch = Some r -> nd_reqs w !! r = Some rs ->
  exists w', Retrieve swap_Add generateId w c = Ret w' /\
    ((forall q, outs (nd_hive w') q = outs (nd_hive w) q) \/
     exists p m, p ∈ getPeers (nd_hive w) (ck_Key ch) 0 /\ (bee_Addr (nd_hive w) p ∉ requesters w rs) /\
       forall q, outs (nd_hive w') q = outs (nd_hive w) q ++ (if decide (q = p) then [MRetrieve m] else [])).
Proof using Type.
  intros Hc Hr Hrs. unfold Retrieve. rewrite Hc, Hr. cbn [mbind option_bind]. rewrite Hrs.
  eexists. split; [done|]. apply retrieve_loop_one.
Qed.
End Props.

(** ** Keys of other lengths *)

Section OddKeys.
Context {K SW DS : Type} `{Kademlia K, ChunkDisk DS}.
Context (hash : bytes -> bytes) (swap_Add : SW -> Z -> bool * bool * SW) (pick : bool).
Implicit Types (w : node K SW MemStore DS).

(** The node takes keys of any length from its peers, but its cache works with 32 bytes only:
    a store or retrieve request with a key of one byte crashes the node, and a store request whose
    key extends a cached one with zero bytes stops its cache for ever. *)
Theorem odd_key_message_stops_node w p :
  store_ok (nd_mem w) ->
  (forall b req, so_Key req = [b] -> HandleStoreRequestMsg hash w req p = Crash) /\
  (forall b req now w', rr_Key req = Some [b] -> swap_add swap_Add w p 1 = (false, w') -> nd_mem w' = nd_mem w ->
     HandleRetrieveRequestMsg swap_Add pick w req p now = Crash) /\
  (forall k z req d e, key32 k -> contents (nd_mem w) !! k <> None -> (0 < z)%nat ->
     ms_entryCnt (nd_mem w) < ms_capacity (nd_mem w) -> so_Key req = k ++ replicate z 0 ->
     dk_Get (nd_disk w) (so_Key req) = (d, Err e) -> 8 <= #(default [] (so_SData req)) ->
     HandleStoreRequestMsg hash w req p = Wait).
Proof using Type.
  intros Hok. split_and!.
  - intros b req Hk. unfold HandleStoreRequestMsg, store_find, LocalStore_Get, cache_Get. rewrite Hk. cbn [mi_Get MemStore_MemIndex].
    by rewrite short_key_crashes.
  - intros b req now w' Hk Hs Hm. unfold HandleRetrieveRequestMsg. rewrite Hs. cbn [rr_Key]. rewrite Hk.
    unfold NetStore_Get, LocalStore_Get, cache_Get. rewrite Hm. change (default [] (Some [b])) with [b]. cbn [mi_Get MemStore_MemIndex]. by rewrite short_key_crashes.
  - intros k z req d e Hk Hin Hz Hroom Hkey Hdisk Hlen. destruct (odd_keys_block (nd_mem w) k z) as (Hput & Hget & _); try done.
    unfold HandleStoreRequestMsg, store_find, LocalStore_Get, cache_Get. rewrite Hkey in *. cbn [mi_Get MemStore_MemIndex]. rewrite Hget.
    cbn [obind with_mem nd_disk]. rewrite Hdisk. cbn [obind alloc_chunk with_disk with_mem nd_next]. unfold store_fill.
    destruct (Z.ltb_spec (#(default [] (so_SData req))) 8); [lia|].
    unfold NetStore_Put, LocalStore_Put, cache_Put. match goal with |- context [chunk_at ?x ?y] => set (w0 := x) end.
    assert (exists ch, chunk_at w0 (nd_next w) = Some ch /\ ck_Key ch = k ++ replicate z 0 /\ nd_mem w0 = nd_mem w) as (ch & -> & -> & ->).
    { subst w0. rewrite chunk_at_set_dbStored, chunk_at_set_chunk, decide_True by done. unfold chunk_at. cbn. rewrite lookup_insert_eq.
      eexists. split_and!; [done|done|]. by destruct w as [? ? ? []]. }
    cbn [mi_Put MemStore_MemIndex]. by rewrite Hput.
Qed.
End OddKeys.

(** ** A disk store on maps *)

#[export] Instance MapDisk : ChunkDisk (gmap Key bytes) := {
  dk_Put := fun d ch => Some (<[ck_Key ch := default [] (ck_SData ch)]> d);
  dk_Get := fun d k => (d, match d !! k with
                           | Some v => Ok {| ck_Key := k; ck_SData := Some v; ck_Size := 0; ck_Source := None; ck_Req := None |}
                           | None => Err notFound
                           end);
  dk_access := fun d _ => d
}.

(** ** Witnesses *)

(** A hash for examples: 32 times the last byte. *)
Definition hash0 (b : bytes) : bytes := replicate 32 (default 0 (last b)).
Definition data_of (x : Z) : bytes := le64 1 ++ [x].
Definition swap0 (s : unit) (n : Z) : bool * bool * unit := (false, false, s).

Definition store_req (key x : Z) : storeRequestMsgData :=
  {| so_Key := replicate 32 key; so_SData := Some (data_of x); so_Id := 1; so_requestTimeout := None |}.
Definition retrieve_req (key : Z) : retrieveRequestMsgData :=
  {| rr_Key := Some (replicate 32 key); rr_Id := 9; rr_MaxSize := 0; rr_MaxPeers := 0; rr_Timeout := 0;
     rr_timeout := None; rr_from := None |}.

Abbreviation node0 := (node ListKad unit MemStore (gmap Key bytes)) (only parsing).

Lemma room_put (w : node ListKad unit MemStore (gmap Key bytes)) k : nd_mem w = mem_put k -> key32 k -> room w.
Proof.
  intros E Hk. destruct (mem_put_ok k Hk) as (Hok & Hsz & Hc). split; rewrite E; [exact Hok|]. cbn. by rewrite map_size_fmap, Hsz, Hc.
Qed.

Definition empty_node (s : option syncer) : node0 :=
  {| nd_hive := hive2 s; nd_chunks := ∅; nd_reqs := ∅; nd_mem := mem10;
     nd_disk := ∅; nd_tasks := []; nd_wgs := ∅; nd_next := 0 |}.

Definition ret_or {A} (d : A) (o : outcome A) : A := match o with Ret a => a | _ => d end.

(** A node that searches key 5, asked by peer 1. *)
Definition searching : node0 :=
  ret_or (empty_node None) (HandleRetrieveRequestMsg swap0 true (empty_node None) (retrieve_req 5) 1 0).

Lemma searching_pending : pending_request searching (replicate 32 5) 0 0.
Proof.
  split; [vm_compute; reflexivity|]. split.
  - eexists. split; [vm_compute; reflexivity|]. split_and!; vm_compute; reflexivity.
  - eexists. split; [vm_compute; reflexivity|]. reflexivity.
Qed.

Lemma searching_room : room searching.
Proof. apply (room_put _ (replicate 32 5)); [vm_compute; reflexivity|by apply key32_replicate]. Qed.

Lemma store_unknown_unverified_witness :
  hash0 (data_of 7) <> replicate 32 4 /\
  exists w' c w'' ch, HandleStoreRequestMsg hash0 (empty_node None) (store_req 4 7) 1 = Ret w' /\
    nd_tasks w' = [TDbPut c; TStore c] /\
    LocalStore_Get w' (replicate 32 4) = Ret (Some c, w'') /\ chunk_at w'' c = Some ch /\
    ck_Key ch = replicate 32 4 /\ ck_SData ch = Some (data_of 7) /\ ck_Source ch = Some 1%nat.
Proof.
  split; [vm_compute; congruence|].
  apply (store_unknown_unverified hash0 (empty_node None) (store_req 4 7) 1 ∅ notFound);
    [split; [exact mem10_ok|vm_compute; reflexivity]|by apply key32_replicate|vm_compute; reflexivity|reflexivity|vm_compute; congruence].
Defined.


Lemma concurrent_deliveries_crash_witness :
  exists w1 w2 w3, store_find hash0 searching (store_req 5 5) = Ret (Some 0%nat, w1) /\
    store_find hash0 w1 (store_req 5 5) = Ret (Some 0%nat, w2) /\
    store_fill w2 (store_req 5 5) 1 0 = Ret w3 /\ store_fill w3 (store_req 5 5) 2 0 = Crash.
Proof.
  apply (concurrent_deliveries_crash hash0 searching (store_req 5 5) (store_req 5 5) 1 2 0 0);
    (reflexivity || exact searching_pending || exact searching_room || (by apply key32_replicate) || (vm_compute; congruence)).
Defined.

(** A node with a chunk under key 4. *)
Definition holding (s : option syncer) : node0 :=
  ret_or (empty_node s) (HandleStoreRequestMsg hash0 (empty_node s) (store_req 4 4) 2).

Lemma unsynced_peer_crashes_witness :
  HandleRetrieveRequestMsg swap0 true (holding None) (retrieve_req 4) 1 0 = Crash /\
  HandleDeliveryRequestMsg 0 true (holding None) {| dm_Deliver := [] |} 1 = Crash.
Proof.
  destruct (unsynced_peer_crashes swap0 0 true (holding None) 1 (bee_at (replicate 32 200) None) (replicate 32 4) 0
    {| ck_Key := replicate 32 4; ck_SData := Some (data_of 4); ck_Size := 1; ck_Source := Some 2%nat; ck_Req := None |})
    as [Hn _]; try (vm_compute; reflexivity); try (vm_compute; congruence).
  { apply (room_put _ (replicate 32 4)); [vm_compute; reflexivity|by apply key32_replicate]. } { by apply key32_replicate. }
  destruct (Hn eq_refl) as [Hr Hd]. split; [apply Hr; reflexivity|apply Hd].
Defined.

(** Peer 1 asked for the chunk, so peer 2 is asked. *)
Lemma Retrieve_one_not_requester_witness :
  exists w', Retrieve swap0 77 searching 0 = Ret w' /\
    ((forall q, outs (nd_hive w') q = outs (nd_hive searching) q) \/
     exists p m, p ∈ getPeers (nd_hive searching) (replicate 32 5) 0 /\
       (bee_Addr (nd_hive searching) p ∉ [replicate 32 200]) /\
       forall q, outs (nd_hive w') q = outs (nd_hive searching) q ++ (if decide (q = p) then [MRetrieve m] else [])).
Proof.
  destruct (nd_reqs searching !! 0%nat) as [rs|] eqn:Hrs; [|vm_compute in Hrs; discriminate].
  assert (requesters searching rs = [replicate 32 200]) as <- by (vm_compute in Hrs; injection Hrs as <-; vm_compute; reflexivity).
  apply (Retrieve_one_not_requester swap0 77 searching 0 (NewChunk (replicate 32 5) (Some 0%nat)) 0 rs);
    [vm_compute; reflexivity|reflexivity|exact Hrs].
Defined.

Lemma odd_key_message_stops_node_witness :
  HandleStoreRequestMsg hash0 (holding None) {| so_Key := [9]; so_SData := Some (data_of 4); so_Id := 1; so_requestTimeout := None |} 1 = Crash /\
  HandleStoreRequestMsg hash0 (holding None)
    {| so_Key := replicate 32 4 ++ replicate 1 0; so_SData := Some (data_of 4); so_Id := 1; so_requestTimeout := None |} 1 = Wait.
Proof.
  destruct (odd_key_message_stops_node hash0 swap0 true (holding None) 1) as (H1 & _ & H3).
  { assert (nd_mem (holding None) = mem_put (replicate 32 4)) as -> by (vm_compute; reflexivity). apply mem_put_ok. by apply key32_replicate. }
  split; [by apply (H1 9)|]. apply (H3 (replicate 32 4) 1%nat _ ∅ notFound); try (vm_compute; congruence); [by apply key32_replicate|lia].
Defined.
