(* ===== verification/NodeInv.v ===== *)
(** The heap of a node is well typed ([Node]): every reference of the cache, of chunks and
    of tasks is to an object of the right kind, through every message, task and local
    request. Crashes for nil chunks or request records are thereby excluded. *)
From stdpp Require Import base gmap list strings.
From Stdlib Require Import ZArith Lia.
From S2P Require Import Prelude Types Database DbStore MemStore MemInv MemEvict MemView MemProps Streamer Messages SyncDb Syncer Hive Node NodeProps.

(** What the disk store returns is a chunk of the key asked for, without request. *)
Class ChunkDiskLaws (DS : Type) `{ChunkDisk DS} : Prop := {
  dk_Get_law : forall d k d' ch, dk_Get d k = (d', Ok ch) -> ck_Key ch = k /\ ck_Req ch = None
}.

Lemma DbStore_disk_laws {D : Type} `{LevelDB D} (hashfunc : bytes -> bytes) (rle_compress : bytes -> bytes)
    (rle_decompress : bytes -> option bytes) (growcap : nat -> nat) :
  @ChunkDiskLaws (DbStore D) (DbStore_ChunkDisk hashfunc rle_compress rle_decompress growcap).
Proof.
  split. intros d k d' ch. cbn. unfold DbStore.Get. destruct (tryAccessIdx _ _ _) as [[ix|] s]; [|done].
  destruct (db_Get _ _ _) as [data|]; [|done]. case_bool_decide; [|done]. unfold decodeData.
  destruct (slice data 0 8); [|done]. cbn. intros [= _ <-]. done.
Qed.

Section Inv.
Context {K SW M DS : Type} `{Kademlia K, !MemIndex M, HML : !MemIndexLaws M, !ChunkDisk DS, HDL : !ChunkDiskLaws DS}.
Context (hash : bytes -> bytes) (swap_Add : SW -> Z -> bool * bool * SW) (generateId : Z) (pick : bool).

Implicit Types (w : node K SW M DS) (c r : nat) (ch : Chunk).

(** A chunk object of the heap that has a request record. *)
Definition has_request w c : Prop := exists ch r, chunk_at w c = Some ch /\ ck_Req ch = Some r.

Definition task_ok w (t : task) : Prop :=
  match t with
  | TDbPut c | TStore c => is_Some (chunk_at w c)
  | TDeliver c | TRetrieve c => has_request w c
  end.

(** A cached chunk has its data or is being searched for. *)
Definition useful ch : Prop := ck_SData ch <> None \/ ck_Req ch <> None.

Record node_wf w : Prop := {
  wf_mem : mi_ok (nd_mem w) /\ 0 < mi_capacity (nd_mem w);
  wf_view : forall k c, mi_view (nd_mem w) !! k = Some c -> exists ch, chunk_at w c = Some ch /\ ck_Key ch = k /\ useful ch;
  wf_req : forall c ch r, chunk_at w c = Some ch -> ck_Req ch = Some r -> is_Some (nd_reqs w !! r);
  wf_next : forall c, is_Some (chunk_at w c) \/ is_Some (nd_reqs w !! c) -> (c < nd_next w)%nat;
  wf_tasks : Forall (task_ok w) (nd_tasks w)
}.

(** ** Changes that keep the types *)

(** The objects of [w] are in [w'], with their keys and requests. *)
Record grows w w' : Prop := {
  gr_chunks : forall c ch, chunk_at w c = Some ch ->
    exists ch', chunk_at w' c = Some ch' /\ ck_Key ch' = ck_Key ch /\ (ck_Req ch <> None -> ck_Req ch' <> None) /\
      (ck_SData ch <> None -> ck_SData ch' <> None);
  gr_reqs : forall r, is_Some (nd_reqs w !! r) -> is_Some (nd_reqs w' !! r)
}.

Lemma grows_refl w : grows w w.
Proof using Type. split; eauto 10. Qed.

Lemma grows_trans w w' w'' : grows w w' -> grows w' w'' -> grows w w''.
Proof using Type.
  intros [H1 H2] [H3 H4]. split; [|auto]. intros c ch Hc. destruct (H1 c ch Hc) as (ch' & Hc' & Hk & Hr & Hs).
  destruct (H3 c ch' Hc') as (ch'' & Hc'' & Hk' & Hr' & Hs'). exists ch''. split_and!; [done|congruence|auto|auto].
Qed.

Lemma grows_task w w' t : grows w w' -> task_ok w t -> task_ok w' t.
Proof using Type.
  intros [Hg _]. destruct t as [c|c|c|c]; cbn; try (intros [ch Hc]; destruct (Hg c ch Hc) as (ch' & -> & _); done);
    intros (ch & r & Hc & Hr); destruct (Hg c ch Hc) as (ch' & Hc' & _ & Hreq & _);
    (destruct (ck_Req ch') as [r'|] eqn:E; [by exists ch', r'|]); by destruct (Hreq ltac:(congruence)).
Qed.

Lemma useful_grows w w' c ch : grows w w' -> chunk_at w c = Some ch -> useful ch ->
  exists ch', chunk_at w' c = Some ch' /\ ck_Key ch' = ck_Key ch /\ useful ch'.
Proof using Type.
  intros [Hg _] Hc Hu. destruct (Hg c ch Hc) as (ch' & Hc' & Hk & Hr & Hs). exists ch'. split_and!; try done.
  destruct Hu; [left|right]; auto.
Qed.

(** Nothing but the peers changed. *)
Definition hive_only w w' : Prop := w' = with_hive w (nd_hive w').

Lemma hive_only_refl w : hive_only w w.
Proof using Type. by destruct w. Qed.

Lemma hive_only_with w h : hive_only w (with_hive w h).
Proof using Type. done. Qed.

Lemma hive_only_trans w w' w'' : hive_only w w' -> hive_only w' w'' -> hive_only w w''.
Proof using Type. unfold hive_only. intros -> E. rewrite E. done. Qed.

Lemma hive_only_wf w w' : hive_only w w' -> node_wf w -> node_wf w'.
Proof using Type.
  intros E [Hm Hv Hr Hn Ht]. rewrite E. by split.
Qed.

Lemma hive_only_grows w w' : hive_only w w' -> grows w w'.
Proof using Type. intros E. rewrite E. split; eauto 10. Qed.

(** ** Operations on the heap *)

Definition keeps w w' : Prop := node_wf w' /\ grows w w'.

Lemma keeps_trans w w' w'' : keeps w w' -> keeps w' w'' -> keeps w w''.
Proof using Type. intros [_ H1] [H2 H3]. split; [done|by eapply grows_trans]. Qed.

Lemma keeps_refl w : node_wf w -> keeps w w.
Proof using Type. split; [done|apply grows_refl]. Qed.

Lemma keeps_hive w w' : hive_only w w' -> node_wf w -> keeps w w'.
Proof using Type. intros E Hw. split; [by eapply hive_only_wf|by apply hive_only_grows]. Qed.

Lemma keeps_mem w m :
  node_wf w -> mi_ok m -> mi_view m = mi_view (nd_mem w) -> mi_capacity m = mi_capacity (nd_mem w) -> keeps w (with_mem w m).
Proof using Type.
  intros [[Hm Hc] Hv Hr Hn Ht] Hok Hview Hcap. split; [|split; eauto 10]. split; cbn; rewrite ?Hview, ?Hcap; done.
Qed.

Lemma keeps_disk w d : node_wf w -> keeps w (with_disk w d).
Proof using Type. intros [Hm Hv Hr Hn Ht]. split; [by split|split; eauto 10]. Qed.

Lemma keeps_wgs w g : node_wf w -> keeps w (with_wgs w g).
Proof using Type. intros [Hm Hv Hr Hn Ht]. split; [by split|split; eauto 10]. Qed.

Lemma wg_Done_shape w c w' : wg_Done w c = Ret w' -> exists g, w' = with_wgs w g.
Proof using Type.
  unfold wg_Done. destruct (chunk_wg w c) as [g|]; [|intros [= <-]; exists (nd_wgs w); by destruct w]. case_match; [done|]. intros [= <-]. eauto.
Qed.

Lemma keeps_go w t : node_wf w -> task_ok w t -> keeps w (go w t).
Proof using Type.
  intros [Hm Hv Hr Hn Ht] Hok. split; [|split; eauto 10]. split; try done. cbn. apply Forall_app. split; [done|by constructor].
Qed.

(** A chunk object changes but keeps its key, and gets no request that is not there. *)
Lemma keeps_set_chunk w c ch f :
  node_wf w -> chunk_at w c = Some ch -> ck_Key (f ch) = ck_Key ch ->
  (ck_Req ch <> None -> ck_Req (f ch) <> None) -> (ck_SData ch <> None -> ck_SData (f ch) <> None) ->
  (forall r, ck_Req (f ch) = Some r -> is_Some (nd_reqs w !! r)) ->
  keeps w (set_chunk w c f) /\ chunk_at (set_chunk w c f) c = Some (f ch).
Proof using Type.
  intros [Hm Hv Hr Hn Ht] Hc Hk Hq Hd Hreq.
  assert (Hat : forall d, chunk_at (set_chunk w c f) d = if decide (d = c) then Some (f ch) else chunk_at w d).
  { intros d. unfold chunk_at, set_chunk in *. cbn. rewrite lookup_alter. destruct (decide (c = d)) as [<-|Hne].
    - rewrite decide_True by done. destruct (nd_chunks w !! c); [|done]. cbn in *. congruence.
    - by rewrite decide_False. }
  assert (Hg : grows w (set_chunk w c f)).
  { split; [|done]. intros d chd Hcd. rewrite Hat. case_decide; [subst|by eauto 10]. simplify_eq. eauto 10. }
  split; [split; [|done]|by rewrite Hat, decide_True]. split; try done.
  - intros k d Hkd. destruct (Hv k d Hkd) as (chd & Hcd & Hkey & Hu). destruct (useful_grows _ _ _ _ Hg Hcd Hu) as (ch' & ? & ? & ?). exists ch'. split_and!; [done|congruence|done].
  - intros d chd r. rewrite Hat. case_decide; [intros [= <-]; apply Hreq|apply Hr].
  - intros d [Hd'|Hd']; [|by apply Hn; right]. rewrite Hat in Hd'. case_decide; [subst; apply Hn; left; by rewrite Hc|apply Hn; by left].
  - eapply Forall_impl; [exact Ht|]. intros t. by apply grows_task.
Qed.

Lemma keeps_same w w' :
  node_wf w -> nd_mem w' = nd_mem w -> nd_reqs w' = nd_reqs w -> nd_tasks w' = nd_tasks w -> nd_next w' = nd_next w ->
  (forall d, chunk_at w' d = chunk_at w d) -> keeps w w'.
Proof using Type.
  intros [Hm Hv Hr Hn Ht] E1 E2 E3 E4 Hat.
  assert (Hg : grows w w') by (split; [|by rewrite E2]; intros d ch Hd; rewrite Hat; eauto 10).
  split; [|done]. split; rewrite ?E1, ?E2, ?E3, ?E4; try done.
  - intros k d. rewrite Hat. apply Hv.
  - intros d ch r. rewrite Hat. apply Hr.
  - intros d. rewrite Hat. apply Hn.
  - eapply Forall_impl; [exact Ht|]. intros t. by apply grows_task.
Qed.

Lemma keeps_set_dbStored w c x : node_wf w -> keeps w (set_dbStored w c x).
Proof using Type. intros Hw. apply keeps_same; try done. intros d. apply chunk_at_set_dbStored. Qed.

Lemma chunk_at_set_wg w c g d : chunk_at (set_wg w c g) d = chunk_at w d.
Proof using Type. unfold chunk_at, set_wg. cbn. rewrite lookup_alter. case_decide; [subst|done]. by destruct (nd_chunks w !! d). Qed.

Lemma keeps_set_wg w c g : node_wf w -> keeps w (set_wg w c g).
Proof using Type. intros Hw. apply keeps_same; try done. intros d. apply chunk_at_set_wg. Qed.

Lemma keeps_set_reqs w r rs : node_wf w -> is_Some (nd_reqs w !! r) -> keeps w (with_reqs w (<[r := rs]> (nd_reqs w))).
Proof using Type.
  intros [Hm Hv Hr Hn Ht] Hrs.
  assert (Hin : forall x, is_Some (<[r := rs]> (nd_reqs w) !! x) <-> is_Some (nd_reqs w !! x)).
  { intros x. rewrite lookup_insert. case_decide; [subst|done]. by split. }
  assert (Hg : grows w (with_reqs w (<[r := rs]> (nd_reqs w)))) by (split; [eauto 10|]; intros x; cbn; by rewrite Hin).
  split; [|done]. split; try done.
  - intros d ch x Hd Hx. cbn. rewrite Hin. by eapply Hr.
  - intros d. cbn. rewrite Hin. apply Hn.
Qed.

Lemma alloc_chunk_wf w ch c w' :
  node_wf w -> (forall r, ck_Req ch = Some r -> is_Some (nd_reqs w !! r)) -> alloc_chunk w ch = (c, w') ->
  keeps w w' /\ chunk_at w' c = Some ch /\ c = nd_next w /\ nd_reqs w' = nd_reqs w.
Proof using Type.
  intros [Hm Hv Hr Hn Ht] Hreq. unfold alloc_chunk. intros [= <- <-]. set (w' := {| nd_hive := _ |}).
  assert (Hfresh : chunk_at w (nd_next w) = None).
  { destruct (chunk_at w (nd_next w)) eqn:E; [|done]. specialize (Hn (nd_next w) (or_introl (mk_is_Some _ _ E))). lia. }
  assert (Hat : forall d, chunk_at w' d = if decide (d = nd_next w) then Some ch else chunk_at w d).
  { intros d. unfold chunk_at. cbn. rewrite lookup_insert. by repeat case_decide; subst. }
  assert (Hg : grows w w').
  { split; [|done]. intros d chd Hd. rewrite Hat, decide_False; [eauto 10|]. congruence. }
  split_and!; [|by rewrite Hat, decide_True|done|done]. split; [|done]. split; try done.
  - intros k d Hkd. destruct (Hv k d Hkd) as (chd & Hcd & ?). exists chd. rewrite Hat, decide_False; [done|]. congruence.
  - intros d chd r. rewrite Hat. case_decide; [intros [= <-]; apply Hreq|apply Hr].
  - intros d. rewrite Hat. cbn. case_decide; [lia|]. intros Hd. specialize (Hn d Hd). lia.
  - eapply Forall_impl; [exact Ht|]. intros t. by apply grows_task.
Qed.

Lemma alloc_request_wf w key c w' :
  node_wf w -> alloc_request w key = (c, w') -> keeps w w' /\ chunk_at w' c = Some (NewChunk key (Some c)) /\ is_Some (nd_reqs w' !! c).
Proof using Type.
  intros [Hm Hv Hr Hn Ht]. unfold alloc_request, alloc_chunk. cbn. intros [= <- <-]. set (w' := with_reqs _ _).
  assert (Hfresh : chunk_at w (nd_next w) = None).
  { destruct (chunk_at w (nd_next w)) eqn:E; [|done]. specialize (Hn (nd_next w) (or_introl (mk_is_Some _ _ E))). lia. }
  assert (Hat : forall d, chunk_at w' d = if decide (d = nd_next w) then Some (NewChunk key (Some (nd_next w))) else chunk_at w d).
  { intros d. unfold chunk_at. cbn. rewrite lookup_insert. by repeat case_decide; subst. }
  assert (Hrq : forall r, is_Some (nd_reqs w' !! r) <-> r = nd_next w \/ is_Some (nd_reqs w !! r)).
  { intros r. cbn. rewrite lookup_insert_is_Some'. split; intros [E|E]; auto. }
  assert (Hg : grows w w').
  { split; [|intros r ?; apply Hrq; by right]. intros d chd Hd. rewrite Hat, decide_False; [eauto 10|]. congruence. }
  split_and!; [|by rewrite Hat, decide_True|apply Hrq; by left]. split; [|done]. split; try done.
  - intros k d Hkd. destruct (Hv k d Hkd) as (chd & Hcd & ?). exists chd. rewrite Hat, decide_False; [done|]. congruence.
  - intros d chd r. rewrite Hat, Hrq. case_decide; [by intros [= <-] [= <-]; left|intros; right; by eapply Hr].
  - intros d. rewrite Hat, Hrq. cbn. case_decide; [lia|]. intros [Hd|[Hd|Hd]];
    [specialize (Hn d (or_introl Hd))| |specialize (Hn d (or_intror Hd))]; lia.
  - eapply Forall_impl; [exact Ht|]. intros t. by apply grows_task.
Qed.

(** ** The stores *)

Lemma cache_Get_wf w key (x : option nat) w' :
  node_wf w -> key32 key -> cache_Get w key = Ret (x, w') -> keeps w w' /\ x = mi_view (nd_mem w) !! key /\ nd_reqs w' = nd_reqs w.
Proof using HML.
  intros Hw Hk. pose proof (wf_mem _ Hw) as [Hok Hcap]. unfold cache_Get.
  destruct (mi_Get_law (nd_mem w) key Hok Hk) as (m & -> & Hok' & Hv & Hc). cbn. intros [= <- <-]. split_and!; [|done|done]. by apply keeps_mem.
Qed.

(** The cache after a [Put]: the entry, and what is left of the others. *)
Lemma mi_Put_cases (m : M) k c ready (r : option nat) m' :
  mi_ok m -> 0 < mi_capacity m -> key32 k -> mi_Put m k c ready = Ret (r, m') ->
  mi_ok m' /\ mi_capacity m' = mi_capacity m /\ exists v, v ⊆ mi_view m /\ r = v !! k /\ mi_view m' = <[k := c]> v.
Proof using HML.
  intros Hok Hcap Hk E. destruct (decide (Z.of_nat (size (mi_view m)) < mi_capacity m)) as [Hlt|Hge].
  - destruct (mi_Put_law m k c ready Hok Hk Hlt) as (m2 & E2 & Hok2 & Hv2 & Hc2).
    rewrite E in E2. injection E2 as -> ->. split; [done|]. split; [done|]. by exists (mi_view m).
  - destruct (mi_Put_full_law m k c ready Hok Hk) as (k0 & c0 & Hk0 & Hp); [lia|]. destruct (ready c0) as [data| |]; [|congruence..].
    destruct Hp as (m2 & E2 & Hok2 & Hv2 & Hc2). rewrite E in E2. injection E2 as -> ->. split; [done|]. split; [done|].
    eexists. split_and!; [|done|done]. destruct data; [apply delete_subseteq|done].
Qed.

Lemma merge_entry_facts old ch :
  ck_Key (merge_entry old ch) = ck_Key ch /\ (ck_Req ch <> None -> ck_Req (merge_entry old ch) <> None) /\
  (ck_SData ch <> None -> ck_SData (merge_entry old ch) <> None) /\ (useful ch -> useful (merge_entry old ch)) /\
  forall r, ck_Req (merge_entry old ch) = Some r -> ck_Req ch = Some r \/ ck_Req old = Some r.
Proof using Type.
  unfold useful. destruct ch as [k [sd|] sz so [rq|]]; cbn; split_and!; auto; try done; intros [?|?]; done.
Qed.

Lemma cache_Put_wf w c ch w' :
  node_wf w -> chunk_at w c = Some ch -> key32 (ck_Key ch) -> useful ch -> cache_Put w c = Ret w' -> keeps w w'.
Proof using HML.
  intros Hw Hc Hk Hu. pose proof (wf_mem _ Hw) as [Hok Hcap]. unfold cache_Put. rewrite Hc.
  destruct (mi_Put (nd_mem w) (ck_Key ch) c (cache_ready w)) as [[r m]| |] eqn:E; try done. cbn [obind fst snd]. intros [= <-].
  destruct (mi_Put_cases _ _ _ _ _ _ Hok Hcap Hk E) as (Hok' & Hcap' & v & Hsub & -> & Hv').
  set (w1 := match v !! ck_Key ch ≫= chunk_at w with Some old => set_chunk w c (merge_entry old) | None => w end).
  assert (Hw1 : keeps w w1 /\ nd_mem w1 = nd_mem w /\ exists ch1, chunk_at w1 c = Some ch1 /\ ck_Key ch1 = ck_Key ch /\ useful ch1).
  { subst w1. destruct (v !! ck_Key ch) as [d|] eqn:Ed; cbn [mbind option_bind]; [|split_and!; eauto using keeps_refl].
    destruct (chunk_at w d) as [old|] eqn:Hd; [|split_and!; eauto using keeps_refl].
    destruct (merge_entry_facts old ch) as (Fk & Fr & Fs & Fu & Fq).
    destruct (keeps_set_chunk w c ch (merge_entry old)) as [Hkp Hat]; try done.
    - intros r' E'. destruct (Fq r' E'); [by eapply (wf_req _ Hw c)|by eapply (wf_req _ Hw d)].
    - split_and!; [done|done|]. eexists. split_and!; [exact Hat|done|auto]. }
  destruct Hw1 as ([Hwf1 Hg1] & Hm1 & ch1 & Hc1 & Hk1 & Hu1). split; [|destruct Hg1; split; eauto]. destruct Hwf1 as [_ Hv1 Hr1 Hn1 Ht1]. split; try done.
  - cbn. rewrite Hcap'. done.
  - intros k d. cbn. rewrite Hv', lookup_insert. case_decide; [intros [= <-]; subst; eauto|]. intros Hd. apply Hv1. rewrite Hm1. by eapply lookup_weaken.
Qed.

Lemma LocalStore_Put_wf w c ch w' :
  node_wf w -> chunk_at w c = Some ch -> key32 (ck_Key ch) -> useful ch -> LocalStore_Put w c = Ret w' -> keeps w w'.
Proof using HML.
  intros Hw Hc Hk Hu. unfold LocalStore_Put. destruct (keeps_set_dbStored w c (Some Open) Hw) as [Hw0 Hg0].
  destruct (cache_Put (set_dbStored w c (Some Open)) c) as [w1| |] eqn:E; try done. cbn. intros [= <-].
  assert (Hc0 : chunk_at (set_dbStored w c (Some Open)) c = Some ch).
  { unfold chunk_at, set_dbStored in *. cbn. rewrite lookup_alter_eq. by destruct (nd_chunks w !! c). }
  pose proof (cache_Put_wf _ _ _ _ Hw0 Hc0 Hk Hu E) as [Hw1 Hg1]. eapply keeps_trans; [split; [exact Hw0|done]|].
  eapply keeps_trans; [split; [exact Hw1|done]|]. eapply keeps_trans; [by apply keeps_wgs|]. apply keeps_go; [by apply keeps_wgs|].
  cbn. change (is_Some (chunk_at w1 c)). destruct (gr_chunks _ _ Hg1 c ch Hc0) as (ch' & -> & _). done.
Qed.

(** The local store finds an object of the key. *)
Lemma LocalStore_Get_wf w key (r : option nat) w' :
  node_wf w -> key32 key -> LocalStore_Get w key = Ret (r, w') ->
  keeps w w' /\ forall c, r = Some c -> exists ch, chunk_at w' c = Some ch /\ ck_Key ch = key /\ useful ch.
Proof using HML HDL.
  intros Hw Hk. unfold LocalStore_Get. destruct (cache_Get w key) as [[rc w1]| |] eqn:E; try done. cbn [obind].
  destruct (cache_Get_wf _ _ _ _ Hw Hk E) as ([Hw1 Hg1] & Hrc & Hrq). destruct rc as [c|].
  { intros [= <- <-]. split; [done|]. intros c' [= <-]. destruct (wf_view _ Hw key c (eq_sym Hrc)) as (ch & Hc & <- & Hu). by eapply useful_grows. }
  destruct (dk_Get (nd_disk w1) key) as [d x] eqn:Ed. destruct x as [ch|e|]; try done.
  2: { intros [= <- <-]. split; [|done]. eapply keeps_trans; [split; [exact Hw1|done]|by apply keeps_disk]. }
  destruct (dk_Get_law _ _ _ _ Ed) as [Hkey Hreq]. destruct (Z.ltb_spec (#(default [] (ck_SData ch))) 8) as [|Hlen]; [done|].
  destruct (alloc_chunk (with_disk w1 d) _) as [c w2] eqn:Ea. apply alloc_chunk_wf in Ea as ([Hw2 Hg2] & Hc2 & _ & _);
    [|by apply keeps_disk|cbn; congruence].
  destruct (cache_Put w2 c) as [w3| |] eqn:Ep; try done. cbn [obind]. intros [= <- <-].
  assert (Hu : ck_SData ch <> None) by (intros E0; rewrite E0 in Hlen; unfold zlen in Hlen; cbn in Hlen; lia).
  pose proof (cache_Put_wf _ _ _ _ Hw2 Hc2 ltac:(cbn; by rewrite Hkey) ltac:(by left) Ep) as [Hw3 Hg3].
  pose proof (keeps_disk w1 d Hw1) as Hkd. split.
  { eapply keeps_trans; [exact (conj Hw1 Hg1)|]. eapply keeps_trans; [exact Hkd|]. eapply keeps_trans; [exact (conj Hw2 Hg2)|]. exact (conj Hw3 Hg3). }
  intros c' [= <-]. destruct (useful_grows _ _ _ _ Hg3 Hc2 ltac:(by left)) as (ch3 & ? & ? & ?). exists ch3. split_and!; [done| |done]. cbn in *. congruence.
Qed.

Lemma close_request_wf w r w' : node_wf w -> close_request w r = Ret w' -> keeps w w'.
Proof using Type.
  intros Hw. unfold close_request. destruct (nd_reqs w !! r) as [rs|] eqn:E; [|done]. destruct (rs_C rs); [|done]. intros [= <-].
  apply keeps_set_reqs; [done|by rewrite E].
Qed.

Lemma NetStore_Put_wf w c ch w' :
  node_wf w -> chunk_at w c = Some ch -> key32 (ck_Key ch) -> useful ch -> NetStore_Put w c = Ret w' -> keeps w w'.
Proof using HML.
  intros Hw Hc Hk Hu. unfold NetStore_Put. destruct (LocalStore_Put w c) as [w1| |] eqn:E; try done. cbn [obind].
  pose proof (LocalStore_Put_wf _ _ _ _ Hw Hc Hk Hu E) as [Hw1 Hg1]. destruct (gr_chunks _ _ Hg1 c ch Hc) as (ch1 & Hc1 & _).
  rewrite Hc1. cbn [mbind option_bind]. destruct (ck_Req ch1) as [r|] eqn:Hr.
  - destruct (close_request w1 r) as [w2| |] eqn:E2; try done. cbn [obind]. intros [= <-]. pose proof (close_request_wf _ _ _ Hw1 E2) as [Hw2 Hg2].
    eapply keeps_trans; [exact (conj Hw1 Hg1)|]. eapply keeps_trans; [exact (conj Hw2 Hg2)|]. apply keeps_go; [done|].
    apply (grows_task w1); [done|]. by exists ch1, r.
  - intros [= <-]. eapply keeps_trans; [exact (conj Hw1 Hg1)|]. apply keeps_go; [done|]. cbn. by rewrite Hc1.
Qed.

Lemma NetStore_Get_wf w key c w' :
  node_wf w -> key32 key -> NetStore_Get w key = Ret (c, w') ->
  keeps w w' /\ exists ch, chunk_at w' c = Some ch /\ ck_Key ch = key /\ useful ch.
Proof using HML HDL.
  intros Hw Hk. unfold NetStore_Get. destruct (LocalStore_Get w key) as [[rc w1]| |] eqn:E; try done. cbn [obind].
  destruct (LocalStore_Get_wf _ _ _ _ Hw Hk E) as [[Hw1 Hg1] Hc]. destruct rc as [c1|].
  { intros [= <- <-]. split; [exact (conj Hw1 Hg1)|by apply Hc]. }
  destruct (alloc_request w1 key) as [c2 w2] eqn:Ea. destruct (alloc_request_wf _ _ _ _ Hw1 Ea) as ([Hw2 Hg2] & Hc2 & Hr2).
  destruct (cache_Put w2 c2) as [w3| |] eqn:Ep; try done. cbn [obind]. intros [= <- <-].
  assert (Hu : useful (NewChunk key (Some c2))) by (by right).
  pose proof (cache_Put_wf _ _ _ _ Hw2 Hc2 Hk Hu Ep) as [Hw3 Hg3].
  destruct (gr_chunks _ _ Hg3 c2 _ Hc2) as (ch3 & Hc3 & Hk3 & Hr3 & _). destruct (ck_Req ch3) as [r3|] eqn:Er3; [|by destruct Hr3].
  assert (Hgo : keeps w3 (go w3 (TRetrieve c2))) by (apply keeps_go; [done|by exists ch3, r3]). split.
  - eapply keeps_trans; [exact (conj Hw1 Hg1)|]. eapply keeps_trans; [exact (conj Hw2 Hg2)|]. eapply keeps_trans; [exact (conj Hw3 Hg3)|exact Hgo].
  - exists ch3. split_and!; [exact Hc3|done|]. right. congruence.
Qed.

(** ** Peers *)

Lemma swap_add_hive w p n : hive_only w (snd (swap_add swap_Add w p n)).
Proof using Type.
  unfold swap_add. destruct (bees (nd_hive w) !! p) as [b|]; [|apply hive_only_refl]. destruct (bz_swap b) as [sw|]; [|apply hive_only_refl].
  by destruct (swap_Add sw n) as [[err drop] sw'].
Qed.

Lemma send_to_hive w p m : hive_only w (snd (send_to w p m)).
Proof using Type. unfold send_to. by destruct (send (nd_hive w) p m). Qed.

Lemma retrieve_loop_hive key skip ps w : hive_only w (retrieve_loop swap_Add generateId w key skip ps).
Proof using Type.
  revert w. induction ps as [|p ps IH]; intros w; cbn; [apply hive_only_refl|]. case_decide; [apply IH|].
  pose proof (swap_add_hive w p (-1)) as Hs. destruct (swap_add swap_Add w p (-1)) as [err w1]. cbn in Hs.
  eapply hive_only_trans; [exact Hs|]. destruct err; [apply IH|apply send_to_hive].
Qed.

Lemma Deliver_to_hive w p req ty w' : Deliver_to pick w p req ty = Ret w' -> hive_only w w'.
Proof using Type.
  unfold Deliver_to. destruct (bees (nd_hive w) !! p) as [b|]; [|done]. destruct (bz_syncer b) as [s|]; [|done].
  destruct (addRequest s req ty pick); try done. cbn. intros [= <-]. done.
Qed.

Lemma store_loop_hive msg src ps w w' : store_loop pick w msg src ps = Ret w' -> hive_only w w'.
Proof using Type.
  revert w. induction ps as [|p ps IH]; intros w; cbn; [intros [= <-]; apply hive_only_refl|].
  case_match; [|apply IH]. destruct (Deliver_to pick w p (RStore msg) PropagateReq) as [w1| |] eqn:E; try done. cbn. intros E2.
  eapply hive_only_trans; [by eapply Deliver_to_hive|by apply IH].
Qed.

Lemma deliver_loop_hive ch now i n rs w w' : deliver_loop pick w ch now i n rs = Ret w' -> hive_only w w'.
Proof using Type.
  revert w i n. induction rs as [|r rs IH]; intros w i n; cbn [deliver_loop]; [intros [= <-]; apply hive_only_refl|].
  destruct (match rr_timeout r with None => true | Some t => now <? t end); [|apply IH]. destruct (rr_from r) as [p|]; [|done].
  destruct (Deliver_to pick w p _ DeliverReq) as [w1| |] eqn:E; try done. cbn [obind]. pose proof (Deliver_to_hive _ _ _ _ _ E).
  destruct (n - 1 <=? 0); [intros [= <-]; done|]. intros E2. eapply hive_only_trans; [done|by eapply IH].
Qed.

Lemma deliver_ids_hive ch now gs w w' : deliver_ids pick w ch now gs = Ret w' -> hive_only w w'.
Proof using Type.
  revert w. induction gs as [|g gs IH]; intros w; cbn; [intros [= <-]; apply hive_only_refl|].
  destruct (deliver_loop pick w ch now 0 requesterCount g) as [w1| |] eqn:E; try done. cbn. intros E2.
  eapply hive_only_trans; [by eapply deliver_loop_hive|by apply IH].
Qed.

(** ** Tasks *)

Lemma take_task_wf w n : node_wf w -> keeps w (with_tasks w (take n (nd_tasks w) ++ drop (S n) (nd_tasks w))).
Proof using Type.
  intros [Hm Hv Hr Hn Ht]. split; [|split; eauto 10]. split; try done. cbn. apply Forall_app.
  split; [by apply Forall_take|by apply Forall_drop].
Qed.

Lemma db_put_wf w c w' : node_wf w -> db_put w c = Ret w' -> keeps w w'.
Proof using Type.
  intros Hw. unfold db_put. destruct (nd_chunks w !! c) as [o|]; [|done]. destruct (dk_Put (nd_disk w) (co_chunk o)) as [d|]; [|done].
  cbn [or_crash obind]. destruct (close_nonnil (co_dbStored o)) as [x|]; [|done]. cbn [or_crash obind]. intros [g ->]%wg_Done_shape.
  pose proof (keeps_disk w d Hw) as [Hw1 Hg1]. eapply keeps_trans; [exact (conj Hw1 Hg1)|].
  eapply keeps_trans; [by apply keeps_set_dbStored|by apply keeps_wgs, keeps_set_dbStored].
Qed.

Lemma run_task_wf w n now w' : node_wf w -> run_task swap_Add generateId pick w n now = Ret w' -> keeps w w'.
Proof using Type.
  intros Hw. unfold run_task. destruct (nd_tasks w !! n) as [t|]; [|intros [= <-]; by apply keeps_refl].
  pose proof (take_task_wf w n Hw) as [Hw1 Hg1]. set (w1 := with_tasks _ _) in *. intros E. eapply keeps_trans; [exact (conj Hw1 Hg1)|].
  destruct t as [c|c|c|c].
  - by eapply db_put_wf.
  - unfold Deliver in E. destruct (chunk_at w1 c) as [ch|]; [|done]. destruct (ck_Req ch ≫= _) as [rs|]; [|done].
    eapply keeps_hive; [by eapply deliver_ids_hive|done].
  - unfold Store in E. destruct (chunk_at w1 c) as [ch|]; [|done]. eapply keeps_hive; [by eapply store_loop_hive|done].
  - unfold Retrieve in E. destruct (chunk_at w1 c) as [ch|]; [|done]. destruct (ck_Req ch ≫= _) as [rs|].
    + injection E as <-. apply keeps_hive; [apply retrieve_loop_hive|done].
    + destruct (getPeers _ _ _); [|done]. injection E as <-. by apply keeps_refl.
Qed.

(** ** Messages and local requests *)

Inductive event :=
| EvStore (req : storeRequestMsgData) (p : peer)
| EvRetrieve (req : retrieveRequestMsgData) (p : peer) (now : Z)
| EvUnsynced (req : unsyncedKeysMsgData) (p : peer)
| EvDelivery (req : deliveryRequestMsgData) (p : peer)
| EvTask (n : nat) (now : Z)
| EvGet (key : Key)
| EvPut (key : Key) (data : bytes) (size : Z).

Definition event_key (e : event) : list Key :=
  match e with
  | EvStore req _ => [so_Key req]
  | EvRetrieve req _ _ => [default [] (rr_Key req)]
  | EvUnsynced req _ => sq_Key <$> um_Unsynced req
  | EvDelivery req _ => sq_Key <$> dm_Deliver req
  | EvTask _ _ => []
  | EvGet key => [key]
  | EvPut key _ _ => [key]
  end.

(** A message handled, a goroutine run, or a request of the local node up to its wait. *)
Definition node_step w (e : event) : outcome (node K SW M DS) :=
  match e with
  | EvStore req p => HandleStoreRequestMsg hash w req p
  | EvRetrieve req p now => HandleRetrieveRequestMsg swap_Add pick w req p now
  | EvUnsynced req p => let& x := HandleUnsyncedKeysMsg w req p in Ret (snd x)
  | EvDelivery req p => HandleDeliveryRequestMsg generateId pick w req p
  | EvTask n now => run_task swap_Add generateId pick w n now
  | EvGet key => let& x := Dpa_Get w key in Ret (snd x)
  | EvPut key data size =>
    let '(c, w) := alloc_chunk w {| ck_Key := key; ck_SData := Some data; ck_Size := size; ck_Source := None; ck_Req := None |} in
    Dpa_Put w c
  end.

Fixpoint node_run w (es : list event) : outcome (node K SW M DS) :=
  match es with
  | [] => Ret w
  | e :: es => let& w := node_step w e in node_run w es
  end.

Lemma HandleStoreRequestMsg_wf w req p w' :
  node_wf w -> key32 (so_Key req) -> HandleStoreRequestMsg hash w req p = Ret w' -> keeps w w'.
Proof using HML HDL.
  intros Hw Hk. unfold HandleStoreRequestMsg. destruct (store_find hash w req) as [[rc w1]| |] eqn:E; try done. cbn [obind].
  assert (Hf : keeps w w1 /\ forall c, rc = Some c -> exists ch, chunk_at w1 c = Some ch /\ ck_Key ch = so_Key req).
  { unfold store_find in E. destruct (LocalStore_Get w (so_Key req)) as [[r w2]| |] eqn:El; try done. cbn [obind] in E.
    destruct (LocalStore_Get_wf _ _ _ _ Hw Hk El) as [Hk2 Hc2]. destruct r as [c|].
    - destruct (Hc2 c eq_refl) as (ch & Hc & Hkey & _). rewrite Hc in E. destruct (ck_SData ch).
      { injection E as <- <-. by split. }
      case_bool_decide; injection E as <- <-; split; try done. intros c' [= <-]. eauto.
    - destruct (alloc_chunk w2 _) as [c w3] eqn:Ea. injection E as <- <-. destruct Hk2 as [Hw2 Hg2].
      apply alloc_chunk_wf in Ea as (Hk3 & Hc3 & _); [|done|done]. split; [eapply keeps_trans; [exact (conj Hw2 Hg2)|done]|].
      intros c' [= <-]. eauto. }
  destruct Hf as [[Hw1 Hg1] Hc]. destruct rc as [c|]; [|intros [= <-]; done]. destruct (Hc c eq_refl) as (ch & Hch & Hkey).
  unfold store_fill. destruct (Z.ltb_spec (#(default [] (so_SData req))) 8) as [|Hlen]; [done|].
  assert (Hs : so_SData req <> None) by (intros E0; rewrite E0 in Hlen; unfold zlen in Hlen; cbn in Hlen; lia).
  match goal with |- context [set_chunk w1 c ?g] => set (f := g) end.
  destruct (keeps_set_chunk w1 c ch f) as [[Hw2 Hg2] Hat]; try done; [exact (fun r => wf_req _ Hw1 c ch r Hch)|].
  intros E2. eapply keeps_trans; [exact (conj Hw1 Hg1)|]. eapply keeps_trans; [exact (conj Hw2 Hg2)|].
  eapply NetStore_Put_wf; [exact Hw2|exact Hat|cbn; by rewrite Hkey|by left|done].
Qed.

Lemma HandleRetrieveRequestMsg_wf w req p now w' :
  node_wf w -> key32 (default [] (rr_Key req)) -> HandleRetrieveRequestMsg swap_Add pick w req p now = Ret w' -> keeps w w'.
Proof using HML HDL.
  intros Hw Hk. unfold HandleRetrieveRequestMsg. pose proof (swap_add_hive w p 1) as Hs. destruct (swap_add swap_Add w p 1) as [err w1].
  cbn in Hs. destruct (keeps_hive _ _ Hs Hw) as [Hw1 Hg1]. destruct err; [intros [= <-]; done|]. cbn [rr_Key].
  destruct (NetStore_Get w1 (default [] (rr_Key req))) as [[c w2]| |] eqn:E; try done. cbn [obind].
  destruct (NetStore_Get_wf _ _ _ _ Hw1 Hk E) as ([Hw2 Hg2] & ch & Hc & _). rewrite Hc.
  match goal with |- context [strategyUpdateRequest w2 _ ?q now] => set (req' := q) end.
  destruct (strategyUpdateRequest w2 (ck_Req ch) req' now) as [[req2 w3]| |] eqn:E3; try done. cbn [obind].
  assert (H3 : keeps w2 w3).
  { unfold strategyUpdateRequest in E3. destruct (ck_Req ch) as [r|]; [|injection E3 as _ <-; by apply keeps_refl]. unfold addRequester in E3.
    destruct (nd_reqs w2 !! r) as [rs|] eqn:Er; [|done]. cbn [obind] in E3. injection E3 as _ <-. apply keeps_set_reqs; [done|by rewrite Er]. }
  intros E4. eapply keeps_trans; [exact (conj Hw1 Hg1)|]. eapply keeps_trans; [exact (conj Hw2 Hg2)|]. eapply keeps_trans; [exact H3|].
  destruct H3 as [Hw3 _]. destruct (ck_SData ch); [|injection E4 as <-; by apply keeps_refl].
  destruct (_ || _); [|injection E4 as <-; by apply keeps_refl]. eapply keeps_hive; [by eapply Deliver_to_hive|done].
Qed.

Lemma missing_keys_wf rs w ms w' :
  node_wf w -> Forall key32 (sq_Key <$> rs) -> missing_keys w rs = Ret (ms, w') -> keeps w w'.
Proof using HML HDL.
  revert w ms w'. induction rs as [|q rs IH]; intros w ms w' Hw HF; cbn; [intros [= _ <-]; by apply keeps_refl|].
  inversion_clear HF as [|? ? Hk HF']. destruct (LocalStore_Get w (sq_Key q)) as [[x w1]| |] eqn:E; try done. cbn [obind].
  destruct (LocalStore_Get_wf _ _ _ _ Hw Hk E) as [[Hw1 Hg1] _]. destruct (missing_keys w1 rs) as [[ms1 w2]| |] eqn:E2; try done.
  cbn [obind]. intros [= _ <-]. eapply keeps_trans; [exact (conj Hw1 Hg1)|by eapply IH].
Qed.

Lemma HandleUnsyncedKeysMsg_wf w req p x :
  node_wf w -> Forall key32 (sq_Key <$> um_Unsynced req) -> HandleUnsyncedKeysMsg w req p = Ret x -> keeps w (snd x).
Proof using HML HDL.
  intros Hw HF. unfold HandleUnsyncedKeysMsg. destruct (missing_keys w (um_Unsynced req)) as [[ms w1]| |] eqn:E; try done. cbn [obind].
  pose proof (missing_keys_wf _ _ _ _ Hw HF E) as [Hw1 Hg1].
  pose proof (send_to_hive w1 p (MDelivery {| dm_Deliver := ms |})) as Hs. destruct (send_to w1 p _) as [err w2]. cbn in Hs.
  destruct (keeps_hive _ _ Hs Hw1) as [Hw2 Hg2]. destruct err; intros [= <-]; cbn;
    (eapply keeps_trans; [exact (conj Hw1 Hg1)|]); [done|]. eapply keeps_trans; [exact (conj Hw2 Hg2)|]. by apply keeps_hive.
Qed.

Lemma push_all_wf p rs w w' :
  node_wf w -> Forall key32 (sq_Key <$> rs) -> push_all generateId pick w p rs = Ret w' -> keeps w w'.
Proof using HML HDL.
  revert w. induction rs as [|q rs IH]; intros w Hw HF; cbn [push_all]; [intros [= <-]; by apply keeps_refl|].
  inversion_clear HF as [|? ? Hk HF']. destruct (Push generateId pick w p (sq_Key q) (sq_Priority q)) as [w1| |] eqn:E; try done. cbn [obind].
  intros E2. enough (Hk1 : keeps w w1) by (eapply keeps_trans; [exact Hk1|]; apply IH; [apply Hk1|done|done]).
  unfold Push in E. destruct (bees (nd_hive w) !! p) as [b|]; [|done]. destruct (bz_syncer b) as [s|]; [|done]. unfold db_access in E.
  destruct (LocalStore_Get w (sq_Key q)) as [[x w2]| |] eqn:El; try done. cbn [obind] in E.
  destruct (LocalStore_Get_wf _ _ _ _ Hw Hk El) as [[Hw2 Hg2] _].
  destruct (doDelivery _ s _ _ generateId pick) as [[y s']| |]; try done. cbn [obind] in E. injection E as <-.
  eapply keeps_trans; [exact (conj Hw2 Hg2)|]. by apply keeps_hive.
Qed.

Lemma HandleDeliveryRequestMsg_wf w req p w' :
  node_wf w -> Forall key32 (sq_Key <$> dm_Deliver req) -> HandleDeliveryRequestMsg generateId pick w req p = Ret w' -> keeps w w'.
Proof using HML HDL.
  intros Hw HF. unfold HandleDeliveryRequestMsg. destruct (push_all generateId pick w p (dm_Deliver req)) as [w1| |] eqn:E; try done. cbn [obind].
  pose proof (push_all_wf _ _ _ _ Hw HF E) as [Hw1 Hg1]. destruct (bees (nd_hive w1) !! p) as [b|]; [|done]. destruct (bz_syncer b); [|done].
  intros [= <-]. eapply keeps_trans; [exact (conj Hw1 Hg1)|]. by apply keeps_hive.
Qed.

Lemma Dpa_Get_wf w key x : node_wf w -> key32 key -> Dpa_Get w key = Ret x -> keeps w (snd x).
Proof using HML HDL.
  intros Hw Hk. unfold Dpa_Get. destruct (NetStore_Get w key) as [[c w1]| |] eqn:E; try done. cbn [obind].
  destruct (NetStore_Get_wf _ _ _ _ Hw Hk E) as (Hk1 & ch & Hc & _). rewrite Hc.
  destruct (ck_SData ch), (ck_Req ch); try done; intros [= <-]; done.
Qed.

Lemma Dpa_Put_wf w entry e w' :
  node_wf w -> chunk_at w entry = Some e -> key32 (ck_Key e) -> ck_SData e <> None -> Dpa_Put w entry = Ret w' -> keeps w w'.
Proof using HML HDL.
  intros Hw He Hk Hs. unfold Dpa_Put. rewrite He. destruct (LocalStore_Get w (ck_Key e)) as [[x w1]| |] eqn:E; try done. cbn [obind].
  destruct (LocalStore_Get_wf _ _ _ _ Hw Hk E) as [[Hw1 Hg1] Hc]. destruct x as [c|].
  - destruct (Hc c eq_refl) as (ch & Hch & Hkey & _). rewrite Hch. destruct (ck_SData ch) eqn:Esd; [intros [= <-]; done|].
    destruct (keeps_set_chunk w1 c ch (set_data (ck_SData e) (ck_Size e))) as [[Hw2 Hg2] Hat]; try done.
    { exact (fun r => wf_req _ Hw1 c ch r Hch). }
    intros E2. eapply keeps_trans; [exact (conj Hw1 Hg1)|]. eapply keeps_trans; [exact (conj Hw2 Hg2)|].
    eapply NetStore_Put_wf; [exact Hw2|exact Hat|cbn; by rewrite Hkey|by left|done].
  - intros E2. eapply keeps_trans; [exact (conj Hw1 Hg1)|]. destruct (gr_chunks _ _ Hg1 entry e He) as (e' & He' & Hk' & _ & Hs').
    eapply NetStore_Put_wf; [exact Hw1|exact He'|by rewrite Hk'|left; auto|done].
Qed.

Lemma node_step_wf w e w' : node_wf w -> Forall key32 (event_key e) -> node_step w e = Ret w' -> keeps w w'.
Proof using HML HDL.
  intros Hw HF. destruct e as [req p|req p now|req p|req p|n now|key|key data size]; cbn [node_step event_key] in *.
  - apply HandleStoreRequestMsg_wf; [done|]. by inversion_clear HF.
  - apply HandleRetrieveRequestMsg_wf; [done|]. by inversion_clear HF.
  - destruct (HandleUnsyncedKeysMsg w req p) as [x| |] eqn:E; try done. intros [= <-]. by eapply HandleUnsyncedKeysMsg_wf.
  - by apply HandleDeliveryRequestMsg_wf.
  - by apply run_task_wf.
  - destruct (Dpa_Get w key) as [x| |] eqn:E; try done. intros [= <-]. eapply Dpa_Get_wf; [done| |done]. by inversion_clear HF.
  - destruct (alloc_chunk w _) as [c w1] eqn:Ea. apply alloc_chunk_wf in Ea as ([Hw1 Hg1] & Hc & _); [|done|done].
    intros E. eapply keeps_trans; [exact (conj Hw1 Hg1)|]. eapply Dpa_Put_wf; [done|exact Hc| |done|done]. by inversion_clear HF.
Qed.

(** C15: In every run of a node from a well-typed state that returns, without panic or endless wait, and whose events have keys of 32 bytes - messages of peers, goroutines and
    local requests in any order - every chunk of the cache is an object of its key that has data
    or an open request, every request record of a chunk exists, and every pending goroutine
    has the objects it works on; a goroutine that searches for a chunk then runs without panic. *)
Theorem node_run_typed w es w' :
  node_wf w -> Forall (fun e => Forall key32 (event_key e)) es -> node_run w es = Ret w' ->
  node_wf w' /\ (forall c ch, chunk_at w c = Some ch -> exists ch', chunk_at w' c = Some ch' /\ ck_Key ch' = ck_Key ch) /\
  forall n c now, nd_tasks w' !! n = Some (TRetrieve c) -> exists w'', run_task swap_Add generateId pick w' n now = Ret w''.
Proof using HML HDL.
  intros Hw HF E. assert (Hk : keeps w w').
  { revert w Hw E. induction HF as [|e es He _ IH]; intros w Hw; cbn [node_run]; [intros [= <-]; by apply keeps_refl|].
    destruct (node_step w e) as [w1| |] eqn:E1; try done. cbn [obind]. intros E2.
    pose proof (node_step_wf _ _ _ Hw He E1) as Hk1. eapply keeps_trans; [exact Hk1|]. apply IH; [apply Hk1|done]. }
  destruct Hk as [Hw' Hg]. split_and!; [done| |].
  - intros c ch Hc. destruct (gr_chunks _ _ Hg c ch Hc) as (ch' & ? & ? & _). eauto.
  - intros n c now Hn. pose proof (proj1 (Forall_lookup _ _) (wf_tasks _ Hw') n _ Hn) as (ch & r & Hc & Hr). cbn in Hc.
    destruct (wf_req _ Hw' c ch r Hc Hr) as [rs Hrs]. unfold run_task. rewrite Hn. unfold Retrieve.
    change (chunk_at (with_tasks w' _) c) with (chunk_at w' c). rewrite Hc, Hr. cbn [mbind option_bind with_tasks nd_reqs]. rewrite Hrs. eauto.
Qed.
End Inv.

(** ** Witnesses *)

#[export] Instance MapDisk_laws : ChunkDiskLaws (gmap Key bytes).
Proof. split. intros d k d' ch. cbn. destruct (d !! k); [|done]. by intros [= _ <-]. Qed.

Lemma empty_node_wf s : node_wf (empty_node s).
Proof.
  assert (contents mem10 = ∅) as E0 by (destruct (NewMemStore_ok 10) as (s0 & Es & _ & Hv0 & _); [lia|]; by injection Es as <-).
  split.
  - split; [exact mem10_ok|reflexivity].
  - intros k c. change (mi_view (nd_mem (empty_node s))) with (fst <$> contents mem10). by rewrite E0, fmap_empty, lookup_empty.
  - intros c ch r. unfold chunk_at. change (nd_chunks (empty_node s)) with (∅ : gmap nat chunkobj). by rewrite lookup_empty.
  - intros c. unfold chunk_at. change (nd_chunks (empty_node s)) with (∅ : gmap nat chunkobj).
    change (nd_reqs (empty_node s)) with (∅ : gmap nat RequestStatus). rewrite !lookup_empty. by intros [[]|[]].
  - constructor.
Qed.

(** A search started by one peer, answered by another. *)
Definition search_events : list event :=
  [EvRetrieve (retrieve_req 5) 1 0; EvTask 0 0; EvStore (store_req 5 5) 2; EvGet (replicate 32 5)].

Lemma search_events_keys : Forall (fun e => Forall key32 (event_key e)) search_events.
Proof.
  assert (Hk : key32 (replicate 32 5)) by (by apply key32_replicate). unfold search_events.
  repeat (apply Forall_cons; split; [cbn [event_key]; repeat (apply Forall_cons; split; [exact Hk|]); by apply Forall_nil|]). by apply Forall_nil.
Qed.

Lemma node_run_typed_witness :
  exists w', node_run hash0 swap0 7 true (empty_node None) search_events = Ret w' /\ node_wf w'.
Proof.
  destruct (node_run hash0 swap0 7 true (empty_node None) search_events) as [w'| |] eqn:E; [|vm_compute in E; discriminate E..].
  exists w'. split; [reflexivity|].
  exact (proj1 (node_run_typed hash0 swap0 7 true (empty_node None) search_events w' (empty_node_wf None) search_events_keys E)).
Defined.
