(* ===== verification/NodeDisk.v ===== *)
(** The memory cache over the disk store ([MemStore], [DbStore]) as the local store
    of a node ([Node]): what the disk has is found again after the cache forgot it. *)
From stdpp Require Import base gmap list strings.
From Stdlib Require Import ZArith Lia.
From S2P Require Import Prelude Types Database DbStore DbSelect DbInv DbGc DbProps.
From S2P Require Import MemStore MemInv MemEvict MemView MemProps Streamer Messages SyncDb Syncer Hive Node NodeProps.

Section Disk.
Context {K SW M D : Type} `{Kademlia K, !MemIndex M, HML : !MemIndexLaws M} `{LevelDBLaws D} (Hhealthy : healthy D).
Context (hashfunc : bytes -> bytes) (rle_compress : bytes -> bytes) (rle_decompress : bytes -> option bytes).
Context (growcap : nat -> nat) (Hgrow : forall n, (n <= growcap n)%nat).

#[local] Instance disk : ChunkDisk (DbStore D) := DbStore_ChunkDisk hashfunc rle_compress rle_decompress growcap.

(** [chunk.wg.Done()] of a chunk that is counted in its wait group. *)
Lemma wg_Done_counted (w : node K SW M (DbStore D)) c :
  (forall g, chunk_wg w c = Some g -> 0 < default 0 (nd_wgs w !! g)) -> exists gs, wg_Done w c = Ret (with_wgs w gs).
Proof using Type.
  intros Hg. unfold wg_Done. destruct (chunk_wg w c) as [g|]; [|exists (nd_wgs w); by destruct w].
  specialize (Hg g eq_refl). destruct (Z.leb_spec (default 0 (nd_wgs w !! g)) 0); [lia|]. eauto.
Qed.

(** A new entry for a key that is not in the cache: the cache has it afterwards, or it waits for the disk write of an entry. *)
Lemma cache_Put_any (w : node K SW M (DbStore D)) c ch :
  mi_ok (nd_mem w) -> 0 < mi_capacity (nd_mem w) -> chunk_at w c = Some ch -> key32 (ck_Key ch) -> mi_view (nd_mem w) !! ck_Key ch = None ->
  (forall k0 c0, mi_view (nd_mem w) !! k0 = Some c0 -> is_Some (nd_chunks w !! c0)) ->
  (exists m, cache_Put w c = Ret (with_mem w m)) \/
  cache_Put w c = Wait /\ mi_capacity (nd_mem w) <= Z.of_nat (size (mi_view (nd_mem w))) /\
    exists k0 c0 o0, mi_view (nd_mem w) !! k0 = Some c0 /\ nd_chunks w !! c0 = Some o0 /\ co_dbStored o0 = Some Open.
Proof using HML.
  intros Hok Hcap Hc Hk Hnone Hobj. unfold cache_Put. rewrite Hc.
  destruct (Z.lt_ge_cases (Z.of_nat (size (mi_view (nd_mem w)))) (mi_capacity (nd_mem w))) as [Hlt|Hge].
  { destruct (mi_Put_law (nd_mem w) (ck_Key ch) c (cache_ready w) Hok Hk Hlt) as (m & -> & _). rewrite Hnone. left. by exists m. }
  destruct (mi_Put_full_law (nd_mem w) (ck_Key ch) c (cache_ready w) Hok Hk) as (k0 & c0 & Hk0 & Hp); [lia|]. destruct (Hobj k0 c0 Hk0) as [o0 Ho0].
  destruct (cache_ready w c0) as [data| |] eqn:Er; unfold cache_ready in Er; rewrite Ho0 in Er.
  - destruct Hp as (m & -> & _). left. exists m. cbn [obind fst snd].
    assert ((if data then delete k0 (mi_view (nd_mem w)) else mi_view (nd_mem w)) !! ck_Key ch = None) as -> by (destruct data; [by rewrite lookup_delete_None; right|done]).
    done.
  - right. rewrite Hp. split_and!; [done|done|]. exists k0, c0, o0. split_and!; [done|done|]. by destruct (co_dbStored o0) as [[|]|].
  - by destruct (co_dbStored o0) as [[|]|].
Qed.

(** C18: Once the goroutine that writes a new chunk to disk has run, the chunk is signalled as stored,
    and the local store returns its data for any cache that has forgotten it, full or not, also when the write collected
    garbage: unless the cache is full and the entry that it drops for the chunk is still being written to disk, for which the call waits. *)
Theorem chunk_survives_cache (w : node K SW M (DbStore D)) c o d :
  nd_chunks w !! c = Some o -> co_dbStored o = Some Open -> (forall g, co_wg o = Some g -> 0 < default 0 (nd_wgs w !! g)) ->
  proper hashfunc (co_chunk o) d -> Forall is_byte (ck_Key (co_chunk o)) ->
  db_ok hashfunc (nd_disk w) -> DbProps.room (nd_disk w) -> 0 < capacity (nd_disk w) ->
  get_result (nd_disk w) (ck_Key (co_chunk o)) = Err notFound ->
  exists w1, db_put w c = Ret w1 /\
    nd_chunks w1 !! c = Some {| co_chunk := co_chunk o; co_dbStored := Some Closed; co_wg := co_wg o |} /\ db_ok hashfunc (nd_disk w1) /\
    forall m, mi_ok m -> 0 < mi_capacity m -> mi_view m !! ck_Key (co_chunk o) = None ->
      (forall k0 c0, mi_view m !! k0 = Some c0 -> is_Some (nd_chunks w1 !! c0)) ->
      (exists c' w2 ch, LocalStore_Get (with_mem w1 m) (ck_Key (co_chunk o)) = Ret (Some c', w2) /\
         chunk_at w2 c' = Some ch /\ ck_Key ch = ck_Key (co_chunk o) /\ ck_SData ch = Some d /\ ck_Size ch = i64 (le64_val d) /\
         db_ok hashfunc (nd_disk w2)) \/
      (LocalStore_Get (with_mem w1 m) (ck_Key (co_chunk o)) = Wait /\ mi_capacity m <= Z.of_nat (size (mi_view m)) /\
         exists k0 c0 o0, mi_view m !! k0 = Some c0 /\ nd_chunks w1 !! c0 = Some o0 /\ co_dbStored o0 = Some Open).
Proof using HML Hhealthy Hgrow H1.
  intros Hc Hst Hwg Hp Hbytes Hok Hroom Hcap Hnf.
  destruct (put_store_get Hhealthy hashfunc rle_compress rle_decompress growcap Hgrow (nd_disk w) (co_chunk o) d)
    as (s' & s'' & E & Hok' & Hget & Hok'' & _); try done.
  destruct (wg_Done_counted (set_dbStored (with_disk w s') c (Some Closed)) c) as [gs Egs].
  { intros g. unfold chunk_wg. cbn. rewrite lookup_alter_eq, Hc. cbn. apply Hwg. }
  eexists. split; [|split; [|split]].
  - unfold db_put. rewrite Hc. cbn [dk_Put disk DbStore_ChunkDisk]. rewrite E, Hst. cbn [or_crash obind close_nonnil]. exact Egs.
  - cbn. rewrite lookup_alter_eq, Hc. done.
  - exact Hok'.
  - intros m Hmok Hmcap Hnone Hobj. set (w1 := with_mem _ m). set (key := ck_Key (co_chunk o)) in *.
    assert (Hk : key32 key) by (destruct Hp as (_ & _ & Hlen & _); split; [unfold key, zlen, HashLength; lia|done]).
    unfold LocalStore_Get. destruct (cache_Get_ok w1 key Hmok Hk) as (m1 & -> & Hmok1 & Hmv1 & Hmc1).
    change (mi_view (nd_mem w1)) with (mi_view m) in *. rewrite Hnone. cbn [obind].
    change (dk_Get (nd_disk (with_mem w1 m1)) key) with (Get hashfunc rle_decompress s' key). rewrite Hget. cbn [ck_SData ck_Key ck_Source ck_Req]. change (default [] (Some d)) with d.
    destruct Hp as (_ & _ & _ & Hd8). destruct (Z.ltb_spec (#d) 8) as [Hlt|_]; [lia|].
    set (ch := {| ck_Key := key; ck_SData := Some d; ck_Size := i64 (le64_val d); ck_Source := None; ck_Req := None |}).
    match goal with |- context [alloc_chunk ?x ch] => destruct (alloc_chunk x ch) as [c' w2] eqn:Ea end. unfold alloc_chunk in Ea. injection Ea as Ec Ew.
    assert (Hch : chunk_at w2 c' = Some ch) by (subst w2 c'; unfold chunk_at; cbn; by rewrite lookup_insert_eq).
    assert (Em : nd_mem w2 = m1) by (by subst w2). assert (Hck : ck_Key ch = key) by done.
    destruct (cache_Put_any w2 c' ch) as [[m3 ->]|(-> & Hfull & k0 & c0 & o0 & Hk0 & Ho0 & Hopen)]; [by rewrite Em|by rewrite Em, Hmc1|done|done|by rewrite Em, Hck, Hmv1| | |].
    + intros k0 c0. rewrite Em, Hmv1. intros Hk0. subst w2. cbn. rewrite lookup_insert. case_decide; [done|]. by eapply Hobj.
    + left. cbn [obind]. exists c', (with_mem w2 m3), ch. split_and!; try done. by subst w2.
    + right. cbn [obind]. rewrite Em, Hmv1, Hmc1 in Hfull. rewrite Em, Hmv1 in Hk0. split_and!; [done|done|]. exists k0, c0, o0. split_and!; [done| |done].
      revert Ho0. subst w2. cbn. rewrite lookup_insert. case_decide; [|done]. by intros [= <-].
Qed.
End Disk.

(** ** Witnesses *)

#[local] Instance disk32 : ChunkDisk (DbStore MapDB) := DbStore_ChunkDisk hash32 id Some double.

(** A node with a full disk store and a new chunk that is not on disk yet, beside one that is. *)
Definition writing : node ListKad unit MemStore (DbStore MapDB) :=
  {| nd_hive := hive2 None; nd_chunks := {[ 0%nat := {| co_chunk := mem_chunk 6; co_dbStored := Some Open; co_wg := Some 7%nat |};
       1%nat := {| co_chunk := mem_chunk 5; co_dbStored := Some Closed; co_wg := None |} ]}; nd_reqs := ∅;
     nd_mem := mem10; nd_disk := full_store; nd_tasks := [TDbPut 0]; nd_wgs := {[ 7%nat := 1 ]}; nd_next := 2 |}.

(** A cache of one place, which the other chunk has taken. *)
Lemma taken_cache : exists m : MemStore, mi_ok m /\ mi_capacity m = 1 /\ mi_view m = {[ ck_Key (mem_chunk 5) := 1%nat ]}.
Proof.
  destruct (NewMemStore_ok 1) as (m0 & _ & Hok0 & Hv & Hc); [lia|]. assert (Hok : mi_ok m0) by exact Hok0. assert (Hv0 : mi_view m0 = ∅) by (cbn; by rewrite Hv, fmap_empty).
  destruct (mi_Put_law m0 (ck_Key (mem_chunk 5)) 1%nat (fun _ => Ret true) Hok) as (m & _ & Hok' & Hv' & Hc').
  - split; [reflexivity|]. cbn. by repeat constructor.
  - rewrite Hv0, map_size_empty. cbn. rewrite Hc. lia.
  - exists m. split_and!; [done|by rewrite Hc'|by rewrite Hv', Hv0].
Qed.

(** The chunk is written, and found on disk when the only place of the cache is taken: the entry there is dropped for it. *)
Lemma chunk_survives_cache_witness :
  exists w1 m, db_put writing 0 = Ret w1 /\ mi_capacity m = Z.of_nat (size (mi_view m)) /\
    exists c' w2 ch, LocalStore_Get (with_mem w1 m) (ck_Key (mem_chunk 6)) = Ret (Some c', w2) /\
      chunk_at w2 c' = Some ch /\ ck_SData ch = Some (le64 1 ++ [6]).
Proof.
  destruct (chunk_survives_cache MapDB_healthy hash32 id Some double double_grows writing 0
    {| co_chunk := mem_chunk 6; co_dbStored := Some Open; co_wg := Some 7%nat |} (le64 1 ++ [6])) as (w1 & E & _ & _ & Hget);
    [reflexivity|reflexivity|by intros g [= <-]|apply mem_chunk_proper|cbn; by repeat constructor|apply full_store_ok|vm_compute; done|vm_compute; done|vm_compute; done|].
  destruct taken_cache as (m & Hok & Hcap & Hv). exists w1, m. split; [exact E|]. split; [by rewrite Hcap, Hv, map_size_singleton|].
  assert (Hobj : nd_chunks w1 !! 1%nat = Some {| co_chunk := mem_chunk 5; co_dbStored := Some Closed; co_wg := None |})
    by (revert E; vm_compute; by intros [= <-]).
  destruct (Hget m) as [(c' & w2 & ch & E2 & Hc & _ & Hd & _)|(_ & _ & k0 & c0 & o0 & Hk0 & Ho0 & Hopen)].
  - exact Hok.
  - by rewrite Hcap.
  - rewrite Hv. apply lookup_singleton_ne. by vm_compute.
  - intros k0 c0. rewrite Hv. intros [_ <-]%lookup_singleton_Some. by rewrite Hobj.
  - exists c', w2, ch. split; [exact E2|]. split; done.
  - exfalso. rewrite Hv in Hk0. apply lookup_singleton_Some in Hk0 as [_ <-]. rewrite Hobj in Ho0. injection Ho0 as <-. discriminate.
Defined.
