(* ===== verification/DpaNode.v ===== *)
(** The chunk store of a node ([Node]) as the store of the document API ([Dpa]): what [dpaChunkStore]
    does on a node with room in its cache satisfies the laws of a store that keeps what it is given, while
    its goroutines run at any time. *)
From stdpp Require Import base gmap list strings.
From Stdlib Require Import ZArith Lia.
From S2P Require Import Prelude Types Chunker Database DbStore MemStore MemInv MemEvict MemView MemProps Streamer Messages SyncDb Syncer Hive Node NodeProps NodeInv Dpa DpaInv DpaProps.

(** A disk store that has what [content] says, as far as it has anything. *)
Class DiskContents (DS : Type) `{ChunkDisk DS} := {
  dk_contents : (Key -> option (bytes * Z)) -> DS -> Prop;
  dk_Get_contents : forall content d k d' x, dk_contents content d -> dk_Get d k = (d', x) ->
    dk_contents content d' /\
    match x with
    | Ok ch => exists data, ck_SData ch = Some data /\ 8 <= #data /\ content k = Some (data, i64 (le64_val data))
    | Err _ => True
    | Panic => False
    end;
  dk_Put_contents : forall content d ch d', dk_contents content d -> ck_SData ch <> None ->
    content (ck_Key ch) = Some (answer ch) -> dk_Put d ch = Some d' -> dk_contents content d'
}.

Section Node.
Context {K SW M DS : Type} `{Kademlia K, !MemIndex M, HML : !MemIndexLaws M, !ChunkDisk DS, HDL : !ChunkDiskLaws DS, HDC : !DiskContents DS}.
Context (swap_Add : SW -> Z -> bool * bool * SW) (generateId : Z) (pick : bool).
Implicit Types (w : node K SW M DS) (c r n : nat) (ch : Chunk).

(** [Get] and [Put] of [dpaChunkStore], for chunks that come from the splitter; goroutines of the node run at any time. *)
Definition node_Put w ch (g : option nat) : outcome (node K SW M DS) := let '(c, w) := alloc_chunk w ch in Dpa_Put (set_wg w c g) c.

Definition node_Get w (key : Key) : outcome (getres * node K SW M DS) :=
  let& x := Dpa_Get w key in
  let '(c, o, w) := x in
  match o with
  | Some r => Ret (GPending c r, w)
  | None => let& ch := or_crash (chunk_at w c) in Ret (GFound ch, w)
  end.

#[export] Instance node_ChunkStore : ChunkStore (node K SW M DS) := {|
  cs_Put := node_Put;
  cs_Get := node_Get;
  cs_wait := Dpa_Get_select;
  cs_wg := fun w g => default 0 (nd_wgs w !! g);
  cs_bg := fun w w' => exists n now, run_task swap_Add generateId pick w n now = Ret w'
|}.

(** ** The invariant *)

Definition view w : gmap Key nat := mi_view (nd_mem w).

Record store_inv (content : Key -> option (bytes * Z)) w n : Prop := {
  si_wf : node_wf w;
  si_room : Z.of_nat (size (view w)) + Z.of_nat n <= mi_capacity (nd_mem w);
  si_heap : forall c ch d, chunk_at w c = Some ch -> ck_SData ch = Some d -> content (ck_Key ch) = Some (d, ck_Size ch);
  si_open : forall k c ch, view w !! k = Some c -> chunk_at w c = Some ch -> ck_SData ch = None ->
    exists r rs, ck_Req ch = Some r /\ nd_reqs w !! r = Some rs /\ rs_C rs = Open /\ rs_Key rs = k;
  si_disk : dk_contents content (nd_disk w);
  si_tasks : forall c, TDbPut c ∈ nd_tasks w -> exists ch, chunk_at w c = Some ch /\ ck_SData ch <> None
}.

Definition holds w k : Prop := exists c ch d, view w !! k = Some c /\ chunk_at w c = Some ch /\ ck_SData ch = Some d.

(** Entries stay in the cache and keep their data. *)
Definition keeps_entries w w' : Prop := grows w w' /\ forall k c, view w !! k = Some c -> view w' !! k = Some c.

Lemma holds_mono w w' k : keeps_entries w w' -> holds w k -> holds w' k.
Proof using Type.
  intros [Hg Hv] (c & ch & d & Hk & Hc & Hd). destruct (gr_chunks _ _ Hg c ch Hc) as (ch' & Hc' & _ & _ & Hs).
  destruct (ck_SData ch') as [d'|] eqn:E; [|by destruct Hs; [congruence|]]. exists c, ch', d'. split_and!; auto.
Qed.

Lemma keeps_entries_refl w : keeps_entries w w.
Proof using Type. split; [apply grows_refl|done]. Qed.

Lemma keeps_entries_trans w w' w'' : keeps_entries w w' -> keeps_entries w' w'' -> keeps_entries w w''.
Proof using Type. intros [? ?] [? ?]. split; [by eapply grows_trans|auto]. Qed.

Section Content.
Context (content : Key -> option (bytes * Z)).

Lemma si_weaken w n m : (m <= n)%nat -> store_inv content w n -> store_inv content w m.
Proof using Type. intros Hle [? ? ? ? ? ?]. split; try done. lia. Qed.

Lemma si_node_room w n : store_inv content w (S n) -> room w.
Proof using Type. intros [Hw Hr _ _ _ _]. split; [apply (wf_mem _ Hw)|]. unfold view in Hr. lia. Qed.

(** The cache is consulted. *)
Lemma si_mem w n m :
  store_inv content w n -> mi_ok m -> mi_view m = view w -> mi_capacity m = mi_capacity (nd_mem w) ->
  store_inv content (with_mem w m) n /\ keeps_entries w (with_mem w m).
Proof using Type.
  intros [Hw Hr Hh Ho Hd Ht] Hok Hv Hc. destruct (keeps_mem w m Hw Hok Hv Hc) as [Hw' Hg]. split.
  - split; try done; cbn; unfold view in *; cbn; rewrite ?Hv, ?Hc; done.
  - split; [done|]. intros k c. unfold view. cbn. by rewrite Hv.
Qed.

Lemma si_set_disk w n d : store_inv content w n -> dk_contents content d -> store_inv content (with_disk w d) n /\ keeps_entries w (with_disk w d).
Proof using Type.
  intros [Hw Hr Hh Ho _ Ht] Hd. destruct (keeps_disk w d Hw) as [Hw' Hg]. split; [by split|by split].
Qed.

Lemma alloc_chunk_at w ch c w' d : node_wf w -> alloc_chunk w ch = (c, w') -> chunk_at w' d = if decide (d = c) then Some ch else chunk_at w d.
Proof using Type. intros Hw. unfold alloc_chunk. intros [= <- <-]. unfold chunk_at. cbn. rewrite lookup_insert. by repeat case_decide; subst. Qed.

(** A new chunk object with data. *)
Lemma si_alloc w n ch c w' :
  store_inv content w n -> ck_Req ch = None -> ck_SData ch <> None -> content (ck_Key ch) = Some (answer ch) -> alloc_chunk w ch = (c, w') ->
  store_inv content w' n /\ keeps_entries w w' /\ chunk_at w' c = Some ch /\ view w' = view w /\ (forall k, view w' !! k <> Some c).
Proof using Type.
  intros [Hw Hr Hh Ho Hd Ht] Hq Hs Hcont E. pose proof (fun d => alloc_chunk_at _ _ _ _ d Hw E) as Hat.

  destruct (alloc_chunk_wf w ch c w' Hw ltac:(congruence) E) as ([Hw' Hg] & Hc & Hn & Hrq).
  assert (Hrest : nd_mem w' = nd_mem w /\ nd_disk w' = nd_disk w /\ nd_tasks w' = nd_tasks w) by (revert E; unfold alloc_chunk; by intros [= _ <-]).
  destruct Hrest as (Hm & Hdk & Htk). assert (Hfresh : forall k, view w !! k <> Some c).
  { intros k Hk. destruct (wf_view _ Hw k c Hk) as (chd & Hcd & _). pose proof (wf_next _ Hw c (or_introl (mk_is_Some _ _ Hcd))). lia. }
  assert (Hv : view w' = view w) by (unfold view; by rewrite Hm). split_and!; [|split; [done|by rewrite Hv]|done|done|by rewrite Hv]. split.
  - done.
  - by rewrite Hv, Hm.
  - intros d chd dd. rewrite Hat. case_decide; [intros [= <-] Hdd; rewrite Hcont; unfold answer, sdata; by rewrite Hdd|apply Hh].
  - intros k d chd. rewrite Hv, Hat, Hrq. case_decide; [subst d; intros Hk; by apply Hfresh in Hk|apply Ho].
  - by rewrite Hdk.
  - intros d. rewrite Htk. intros Hin. destruct (Ht d Hin) as (chd & Hcd & ?). exists chd. rewrite Hat, decide_False; [done|].
    intros ->. pose proof (wf_next _ Hw c (or_introl (mk_is_Some _ _ Hcd))). lia.
Qed.

(** A chunk with data enters the cache under a new key. *)
Lemma si_insert w n c ch :
  store_inv content w (S n) -> chunk_at w c = Some ch -> key32 (ck_Key ch) -> view w !! ck_Key ch = None ->
  (ck_SData ch = None -> exists r rs, ck_Req ch = Some r /\ nd_reqs w !! r = Some rs /\ rs_C rs = Open /\ rs_Key rs = ck_Key ch) ->
  exists m, cache_Put w c = Ret (with_mem w m) /\ store_inv content (with_mem w m) n /\ keeps_entries w (with_mem w m) /\
    view (with_mem w m) = <[ck_Key ch := c]> (view w).
Proof using HML.
  intros Hsi Hc Hk Hnone Hopen. pose proof (si_node_room _ _ Hsi) as Hroom.
  destruct (cache_Put_room w c ch Hroom Hc Hk) as (m & E & Hok & Hv & Hcap). unfold view in Hnone. rewrite Hnone in E. cbn in E.
  exists m. assert (Hview : view (with_mem w m) = <[ck_Key ch := c]> (view w)) by exact Hv.
  assert (Hu : useful ch).
  { unfold useful. destruct (ck_SData ch) eqn:Es; [by left|right]. destruct (Hopen eq_refl) as (r & _ & Hr & _). congruence. }
  destruct Hsi as [Hw Hr Hh Ho Hd Ht]. pose proof (cache_Put_wf _ _ _ _ Hw Hc Hk Hu E) as [Hw' Hg]. split_and!; try done.
  - split; try done.
    + rewrite Hview, map_size_insert_None by done. cbn. rewrite Hcap. lia.
    + intros k d chd. rewrite Hview, lookup_insert. case_decide; [intros [= <-] Hcd Hs; subst|apply Ho].
      change (chunk_at (with_mem w m) c) with (chunk_at w c) in Hcd. simplify_eq. by apply Hopen.
  - split; [done|]. intros k d Hkd. rewrite Hview, lookup_insert. case_decide; [subst; unfold view in *; congruence|done].
Qed.

(** [LocalStore.Get] of a node with room. *)
Lemma LocalStore_Get_room w n key :
  store_inv content w (S n) -> key32 key ->
  exists x w', LocalStore_Get w key = Ret (x, w') /\ keeps_entries w w' /\ nd_reqs w' = nd_reqs w /\
    (forall d ch, chunk_at w d = Some ch -> chunk_at w' d = Some ch) /\
    match x with
    | Some c => view w' !! key = Some c /\
        (store_inv content w' (S n) \/ store_inv content w' n /\ holds w' key)
    | None => view w !! key = None /\ view w' = view w /\ store_inv content w' (S n)
    end.
Proof using HML HDL.
  intros Hsi Hk. destruct (cache_Get_ok w key) as (m & E & Hok & Hv & Hcap); [apply (wf_mem _ (si_wf _ _ _ Hsi))|done|].
  destruct (si_mem w (S n) m Hsi Hok Hv Hcap) as [Hsi1 Hk1]. unfold LocalStore_Get. rewrite E. cbn [obind]. fold (view w).
  destruct (view w !! key) as [c|] eqn:Ec.
  { exists (Some c), (with_mem w m). split_and!; try done; [by apply Hk1|by left]. }
  destruct (dk_Get (nd_disk (with_mem w m)) key) as [d x] eqn:Ed. destruct (dk_Get_contents content _ _ _ _ (si_disk _ _ _ Hsi1) Ed) as [Hd Hx].
  destruct (si_set_disk _ _ d Hsi1 Hd) as [Hsi2 Hk2]. pose proof (keeps_entries_trans _ _ _ Hk1 Hk2) as Hk12.
  destruct x as [ch| |]; [|by exists None, (with_disk (with_mem w m) d)|done].
  destruct Hx as (data & Hdata & Hlen & Hcont). rewrite Hdata. cbn [default id]. destruct (Z.ltb_spec (#data) 8); [lia|].
  destruct (dk_Get_law _ _ _ _ Ed) as [Hkey Hreq].
  set (ch1 := {| ck_Key := ck_Key ch; ck_SData := Some data; ck_Size := i64 (le64_val data); ck_Source := ck_Source ch; ck_Req := ck_Req ch |}).
  destruct (alloc_chunk (with_disk (with_mem w m) d) ch1) as [c w2] eqn:Ea.
  pose proof (fun e => alloc_chunk_at _ _ _ _ e (si_wf _ _ _ Hsi2) Ea) as Hat.
  assert (Hrq : nd_reqs w2 = nd_reqs w) by (revert Ea; unfold alloc_chunk; by intros [= _ <-]).
  destruct (si_alloc _ _ ch1 _ _ Hsi2 Hreq ltac:(done) ltac:(cbn; rewrite Hkey; exact Hcont) Ea) as (Hsi3 & Hk3 & Hc3 & Hv3 & _).
  assert (Hnone : view w2 !! key = None) by (rewrite Hv3; unfold view in *; cbn; by rewrite Hv).
  destruct (si_insert w2 n c ch1 Hsi3 Hc3) as (m2 & Ep & Hsi4 & Hk4 & Hv4); cbn [ch1 ck_Key ck_SData]; rewrite ?Hkey; try done.
  rewrite Ep. cbn [obind]. exists (Some c), (with_mem w2 m2). split_and!; try done.
  - eapply keeps_entries_trans; [exact Hk12|]. by eapply keeps_entries_trans.
  - intros e che Hce. rewrite chunk_at_with_mem, Hat, decide_False; [done|]. intros ->.
    revert Ea. unfold alloc_chunk. intros [= <- _]. pose proof (wf_next _ (si_wf _ _ _ Hsi) _ (or_introl (mk_is_Some _ _ Hce))). cbn in *. lia.
  - rewrite Hv4. cbn [ch1 ck_Key]. by rewrite Hkey, lookup_insert_eq.
  - right. split; [done|]. eexists c, _, data. rewrite Hv4. cbn [ch1 ck_Key]. rewrite Hkey, lookup_insert_eq. split_and!; [done|exact Hc3|done].
Qed.

Lemma size_insert_le (m : gmap Key nat) k c : (size (<[k := c]> m) <= S (size m))%nat.
Proof using Type. rewrite map_size_insert. destruct (m !! k); cbn; lia. Qed.

(** [NetStore.Put] of a chunk with data that is new or the entry of its key. *)
Lemma NetStore_Put_inv w n c ch :
  store_inv content w (S n) -> chunk_at w c = Some ch -> key32 (ck_Key ch) -> ck_SData ch <> None ->
  (view w !! ck_Key ch = None \/ view w !! ck_Key ch = Some c) ->
  (forall r, ck_Req ch = Some r -> exists rs, nd_reqs w !! r = Some rs /\ rs_C rs = Open /\ rs_Key rs = ck_Key ch) ->
  exists w', NetStore_Put w c = Ret w' /\ store_inv content w' n /\ keeps_entries w w' /\ holds w' (ck_Key ch).
Proof using HML.
  intros Hsi Hc Hk Hs Hview Hreq. pose proof (si_node_room _ _ Hsi) as Hroom.
  destruct (NetStore_Put_room w c ch Hroom Hc Hk Hview) as (w1 & Hc1 & Hat & Hrq & Htk & _ & Hok & Hv & Hdk & Hcap & E).
  assert (Hfin : exists w', NetStore_Put w c = Ret w' /\ nd_mem w' = nd_mem w1 /\ (forall d, chunk_at w' d = chunk_at w d) /\ nd_disk w' = nd_disk w /\
    (forall t, t ∈ nd_tasks w' -> t ∈ nd_tasks w \/ t = TDbPut c \/ t = TDeliver c \/ t = TStore c) /\
    (forall r rs, nd_reqs w !! r = Some rs -> rs_Key rs <> ck_Key ch -> nd_reqs w' !! r = Some rs)).
  { rewrite E. destruct (ck_Req ch) as [r|].
    - destruct (Hreq r eq_refl) as (rs & Hrs & Ho & Hrk). unfold close_request. rewrite Hrq, Hrs, Ho. cbn [obind].
      eexists. split_and!; [done|done|exact Hat|exact Hdk| |].
      + intros t. cbn. rewrite Htk, !elem_of_app, !list_elem_of_singleton. tauto.
      + intros r' rs' Hr' Hne. cbn. rewrite lookup_insert_ne; [done|]. intros ->. congruence.
    - eexists. split_and!; [done|done|exact Hat|exact Hdk| |].
      + intros t. cbn. rewrite Htk, !elem_of_app, !list_elem_of_singleton. tauto.
      + intros r' rs' Hr' _. cbn. by rewrite Hrq. }
  destruct Hfin as (w' & E' & Hm & Hat' & Hdk' & Htk' & Hrq'). exists w'. pose proof Hsi as [Hw Hr Hh Ho Hd Ht].
  pose proof (NetStore_Put_wf _ _ _ _ Hw Hc Hk ltac:(by left) E') as [Hw' Hg].
  assert (Hv' : view w' = <[ck_Key ch := c]> (view w)) by (unfold view; by rewrite Hm). split_and!; try done.
  - split; try done.
    + rewrite Hv', Hm, Hcap. pose proof (size_insert_le (view w) (ck_Key ch) c). lia.
    + intros d chd dd. rewrite Hat'. apply Hh.
    + intros k d chd. rewrite Hv', lookup_insert, Hat'. case_decide as Hkd; [intros [= <-] Hcd Hn; congruence|]. intros Hkd' Hcd Hn.
      destruct (Ho k d chd Hkd' Hcd Hn) as (r & rs & ? & ? & ? & ?). exists r, rs. split_and!; try done. apply Hrq'; [done|congruence].
    + by rewrite Hdk'.
    + intros d Hin. rewrite Hat'. destruct (Htk' _ Hin) as [Hin'|[Heq|[Heq|Heq]]]; [by apply Ht| |done|done]. injection Heq as ->. eauto.
  - split; [done|]. intros k d Hkd. rewrite Hv', lookup_insert. case_decide; [subst|done]. destruct Hview as [E0|E0]; congruence.
  - destruct (ck_SData ch) as [dd|] eqn:Edd; [|done]. exists c, ch, dd. rewrite Hv', lookup_insert_eq, Hat'. done.
Qed.

Lemma si_set_wg w n c g : store_inv content w n -> store_inv content (set_wg w c g) n /\ keeps_entries w (set_wg w c g).
Proof using Type.
  intros [Hw Hr Hh Ho Hd Ht]. destruct (keeps_set_wg w c g Hw) as [Hw' Hg]. split; [|by split].
  split; try done; intros *; rewrite chunk_at_set_wg; [apply Hh|apply Ho|apply Ht].
Qed.

Lemma node_Put_law w n ch g :
  store_inv content w (S n) -> key32 (ck_Key ch) -> content (ck_Key ch) = Some (answer ch) -> ck_SData ch <> None -> ck_Req ch = None ->
  exists w', node_Put w ch g = Ret w' /\ store_inv content w' n /\ holds w' (ck_Key ch) /\ keeps_entries w w'.
Proof using HML HDL.
  intros Hsi Hk Hcont Hs Hr. unfold node_Put. destruct (alloc_chunk w ch) as [c0 w0'] eqn:Ea.
  destruct (si_alloc _ _ _ _ _ Hsi Hr Hs Hcont Ea) as (Hsi0' & Hk0' & Hc0' & Hv0' & _). set (w0 := set_wg w0' c0 g).
  destruct (si_set_wg w0' (S n) c0 g Hsi0') as [Hsi0 Hk0'']. pose proof (keeps_entries_trans _ _ _ Hk0' Hk0'') as Hk0.
  assert (Hc0 : chunk_at w0 c0 = Some ch) by (unfold w0; by rewrite chunk_at_set_wg). assert (Hv0 : view w0 = view w) by exact Hv0'. unfold Dpa_Put. rewrite Hc0.
  destruct (LocalStore_Get_room w0 n (ck_Key ch) Hsi0 Hk) as (x & w1 & -> & Hk1 & Hrq1 & Hat1 & Hx). cbn [obind].
  pose proof (keeps_entries_trans _ _ _ Hk0 Hk1) as Hk01. destruct x as [c|].
  - destruct Hx as [Hview Hx]. assert (Hw1 : node_wf w1) by (destruct Hx as [Hx|[Hx _]]; apply Hx).
    destruct (wf_view _ Hw1 _ _ Hview) as (ch1 & Hc1 & Hkey & _). rewrite Hc1. destruct (ck_SData ch1) as [d|] eqn:Ed.
    { exists w1. split_and!; try done; [destruct Hx as [Hx|[Hx _]]; [by eapply si_weaken; [|exact Hx]; lia|done]|]. by exists c, ch1, d. }
    destruct Hx as [Hsi1|[_ (c' & ch' & d' & ? & ? & ?)]]; [|congruence].
    destruct (si_open _ _ _ Hsi1 _ _ _ Hview Hc1 Ed) as (r & rs & Hreq & Hrs & Hopen & Hrk).
    set (ch2 := set_data (ck_SData ch) (ck_Size ch) ch1). set (w2 := set_chunk w1 c (set_data (ck_SData ch) (ck_Size ch))).
    destruct (keeps_set_chunk w1 c ch1 (set_data (ck_SData ch) (ck_Size ch))) as [[Hw2 Hg2] Hc2]; try done; [exact (fun r' => wf_req _ Hw1 c ch1 r' Hc1)|].
    assert (Hat2 : forall d, chunk_at w2 d = if decide (d = c) then Some ch2 else chunk_at w1 d).
    { intros d. unfold w2. rewrite chunk_at_set_chunk. repeat case_decide; subst; try done. by rewrite Hc1. }
    assert (Hsi2 : store_inv content w2 (S n)).
    { destruct Hsi1 as [_ Hr1 Hh1 Ho1 Hd1 Ht1]. split; try done.
      - intros d chd dd. rewrite Hat2. case_decide; [intros [= <-]; cbn; intros Hdd; rewrite Hkey, Hcont; unfold answer, sdata; by rewrite Hdd|apply Hh1].
      - intros k d chd Hkd. rewrite Hat2. case_decide; [intros [= <-]; cbn; intros Hdd; congruence|]. by apply Ho1.
      - intros d Hin. rewrite Hat2. case_decide; [eexists; split; [done|done]|by apply Ht1]. }
    destruct (NetStore_Put_inv w2 n c ch2 Hsi2 Hc2) as (w3 & E3 & Hsi3 & Hk3 & Hh3); try (cbn; rewrite ?Hkey; done).
    { right. cbn. by rewrite Hkey. } { intros r'. cbn. rewrite Hreq. intros [= <-]. exists rs. split_and!; [done|done|congruence]. }
    exists w3. split_and!; [exact E3|done|cbn in Hh3; by rewrite <- Hkey|].
    eapply keeps_entries_trans; [exact Hk01|]. eapply keeps_entries_trans; [|exact Hk3]. split; [done|done].
  - destruct Hx as (Hnone & Hv1 & Hsi1). pose proof (Hat1 _ _ Hc0) as Hc1.
    destruct (NetStore_Put_inv w1 n c0 ch Hsi1 Hc1 Hk Hs) as (w3 & E3 & Hsi3 & Hk3 & Hh3); [left; by rewrite Hv1|congruence|].
    exists w3. split_and!; try done. by eapply keeps_entries_trans.
Qed.

(** A new request record. *)
Lemma si_alloc_request w n key c w' :
  store_inv content w n -> alloc_request w key = (c, w') ->
  store_inv content w' n /\ keeps_entries w w' /\ chunk_at w' c = Some (NewChunk key (Some c)) /\ view w' = view w /\
  nd_reqs w' !! c = Some (newRequestStatus key).
Proof using Type.
  intros [Hw Hr Hh Ho Hd Ht] E. destruct (alloc_request_wf _ _ _ _ Hw E) as ([Hw' Hg] & Hc & _).
  revert E. unfold alloc_request. destruct (alloc_chunk w _) as [c' w1] eqn:Ea. intros [= <- <-].
  pose proof (fun d => alloc_chunk_at _ _ _ _ d Hw Ea) as Hat. assert (Hfacts : c' = nd_next w /\ nd_reqs w1 = nd_reqs w /\ nd_tasks w1 = nd_tasks w /\
    nd_mem w1 = nd_mem w /\ nd_disk w1 = nd_disk w) by (revert Ea; unfold alloc_chunk; by intros [= <- <-]). destruct Hfacts as (-> & Hrq & Htk & Hm & Hdk).
  assert (Hv : view (with_reqs w1 (<[nd_next w := newRequestStatus key]> (nd_reqs w1))) = view w) by (unfold view; cbn; by rewrite Hm).
  split_and!; [|split; [done|by rewrite Hv]|done|done|cbn; by rewrite lookup_insert_eq].
  assert (Hold : forall d chd, chunk_at w d = Some chd -> d <> nd_next w).
  { intros d chd Hcd ->. pose proof (wf_next _ Hw _ (or_introl (mk_is_Some _ _ Hcd))). lia. }
  split; try done.
  - rewrite Hv. cbn. by rewrite Hm.
  - intros d chd dd. cbn. change (chunk_at (with_reqs w1 _) d) with (chunk_at w1 d). rewrite Hat. case_decide; [by intros [= <-]|apply Hh].
  - intros k d chd. rewrite Hv. change (chunk_at (with_reqs w1 _) d) with (chunk_at w1 d). rewrite Hat. case_decide as Hdn.
    + subst d. intros Hk. destruct (wf_view _ Hw _ _ Hk) as (chd' & Hcd & _). by destruct (Hold _ _ Hcd).
    + intros Hk Hcd Hn. destruct (Ho k d chd Hk Hcd Hn) as (r & rs & Hrr & Hrs & ? & ?). exists r, rs. cbn. rewrite Hrq.
      rewrite lookup_insert_ne; [done|]. intros <-. pose proof (wf_next _ Hw _ (or_intror (mk_is_Some _ _ Hrs))). lia.
  - cbn. by rewrite Hdk.
  - intros d. cbn. rewrite Htk. intros Hin. destruct (Ht d Hin) as (chd & Hcd & ?). exists chd.
    change (chunk_at (with_reqs w1 _) d) with (chunk_at w1 d). rewrite Hat, decide_False; [done|]. by eapply Hold.
Qed.

Lemma si_go w n t : store_inv content w n -> task_ok w t -> (forall c, t <> TDbPut c) -> store_inv content (go w t) n /\ keeps_entries w (go w t).
Proof using Type.
  intros [Hw Hr Hh Ho Hd Ht] Htask Hne. destruct (keeps_go w t Hw Htask) as [Hw' Hg]. split; [|by split]. split; try done.
  intros c. cbn. rewrite elem_of_app, list_elem_of_singleton. intros [Hin|E]; [by apply Ht|by destruct (Hne c)].
Qed.

(** [NetStore.Get] of a node with room: the entry of the key, with data or an open request. *)
Lemma NetStore_Get_room w n key :
  store_inv content w (S n) -> key32 key ->
  exists c w', NetStore_Get w key = Ret (c, w') /\ store_inv content w' n /\ keeps_entries w w' /\ view w' !! key = Some c.
Proof using HML HDL.
  intros Hsi Hk. unfold NetStore_Get. destruct (LocalStore_Get_room w n key Hsi Hk) as (x & w1 & -> & Hk1 & _ & _ & Hx). cbn [obind]. destruct x as [c|].
  { destruct Hx as [Hv Hx]. exists c, w1. split_and!; try done. destruct Hx as [Hx|[Hx _]]; [|done]. eapply si_weaken; [|exact Hx]. lia. }
  destruct Hx as (Hnone & Hv1 & Hsi1). destruct (alloc_request w1 key) as [c w2] eqn:Ea.
  destruct (si_alloc_request _ _ _ _ _ Hsi1 Ea) as (Hsi2 & Hk2 & Hc2 & Hv2 & Hrq2).
  destruct (si_insert w2 n c _ Hsi2 Hc2) as (m & -> & Hsi3 & Hk3 & Hv3); [done|by rewrite Hv2, Hv1| |].
  { intros _. exists c, (newRequestStatus key). done. }
  cbn [obind]. destruct (si_go (with_mem w2 m) n (TRetrieve c) Hsi3) as [Hsi4 Hk4]; [by exists (NewChunk key (Some c)), c|done|].
  exists c, (go (with_mem w2 m) (TRetrieve c)). split_and!; try done.
  - eapply keeps_entries_trans; [exact Hk1|]. eapply keeps_entries_trans; [exact Hk2|]. by eapply keeps_entries_trans.
  - apply Hk4. rewrite Hv3. cbn. by rewrite lookup_insert_eq.
Qed.

Lemma node_Get_room w n key :
  store_inv content w (S n) -> key32 key ->
  exists x w', node_Get w key = Ret (x, w') /\ store_inv content w' n /\ keeps_entries w w' /\
    (holds w key -> exists ch, x = GFound ch /\ content key = Some (answer ch)).
Proof using HML HDL.
  intros Hsi Hk. destruct (NetStore_Get_room w n key Hsi Hk) as (c & w' & E & Hsi' & Hk' & Hv). unfold node_Get, Dpa_Get. rewrite E. cbn [obind].
  destruct (wf_view _ (si_wf _ _ _ Hsi') _ _ Hv) as (ch & Hc & Hkey & Hu). rewrite Hc. destruct (ck_SData ch) as [d|] eqn:Ed.
  - exists (GFound ch), w'. cbn [obind]. rewrite Hc. cbn [or_crash obind]. split_and!; try done. intros _. exists ch. split; [done|].
    rewrite <- Hkey. unfold answer, sdata. rewrite Ed. by apply (si_heap _ _ _ Hsi' c ch d).
  - destruct (si_open _ _ _ Hsi' _ _ _ Hv Hc Ed) as (r & rs & Hr & _). rewrite Hr. cbn [obind]. exists (GPending c r), w'. split_and!; try done.
    intros Hh. destruct (holds_mono _ _ _ Hk' Hh) as (c2 & ch2 & d2 & ? & ? & ?). congruence.
Qed.

Lemma si_hive w w' n : store_inv content w n -> hive_only w w' -> store_inv content w' n /\ keeps_entries w w'.
Proof using Type.
  intros [Hw Hr Hh Ho Hd Ht] E. pose proof (hive_only_wf _ _ E Hw) as Hw'. pose proof (hive_only_grows _ _ E) as Hg.
  unfold hive_only in E. revert Hw' Hg. rewrite E. intros Hw' Hg. split; [by split|by split].
Qed.

Lemma node_bg_law w n w' i now :
  store_inv content w n -> run_task swap_Add generateId pick w i now = Ret w' -> store_inv content w' n /\ keeps_entries w w'.
Proof using Type.
  intros Hsi. unfold run_task. destruct (nd_tasks w !! i) as [t|] eqn:Et; [|intros [= <-]; split; [done|apply keeps_entries_refl]].
  set (w1 := with_tasks w _). assert (Hsi1 : store_inv content w1 n /\ keeps_entries w w1).
  { destruct Hsi as [Hw Hr Hh Ho Hd Ht]. destruct (take_task_wf w i Hw) as [Hw1 Hg]. split; [|by split]. split; try done.
    intros c. cbn. rewrite elem_of_app. intros Hin. apply Ht. rewrite <- (take_drop (S i) (nd_tasks w)), elem_of_app.
    destruct Hin as [Hin|Hin]; [left|by right]. rewrite (take_S_r _ _ _ Et). apply elem_of_app. by left. }
  destruct Hsi1 as [Hsi1 Hk1].
  assert (Hhive : forall w2, hive_only w1 w2 -> store_inv content w2 n /\ keeps_entries w w2).
  { intros w2 E. destruct (si_hive _ _ _ Hsi1 E) as [Hs Hk]. split; [done|by eapply keeps_entries_trans]. }
  destruct t as [c|c|c|c].
  - intros E. pose proof (db_put_wf _ _ _ (si_wf _ _ _ Hsi1) E) as [Hw2 Hg2]. revert E. unfold db_put.
    destruct (nd_chunks w1 !! c) as [o|] eqn:Eo; [|done]. destruct (dk_Put (nd_disk w1) (co_chunk o)) as [d|] eqn:Ed; [|done]. cbn [or_crash obind].
    destruct (close_nonnil (co_dbStored o)) as [x|]; [|done]. cbn [or_crash obind]. intros [g ->]%wg_Done_shape.
    destruct (si_tasks _ _ _ Hsi c) as (ch & Hc & Hs); [by eapply list_elem_of_lookup_2|].
    assert (ch = co_chunk o) as -> by (unfold chunk_at in Hc; change (nd_chunks w1) with (nd_chunks w) in Eo; rewrite Eo in Hc; by injection Hc).
    destruct (ck_SData (co_chunk o)) as [dd|] eqn:Edd; [|done].
    assert (Hd2 : dk_contents content d).
    { eapply dk_Put_contents; [apply Hsi1|by rewrite Edd| |exact Ed]. unfold answer, sdata. rewrite Edd. by apply (si_heap _ _ _ Hsi c). }
    destruct (si_set_disk _ _ d Hsi1 Hd2) as [[_ Hr Hh Ho Hd Ht] Hk2].
    assert (Hat : forall e, chunk_at (with_wgs (set_dbStored (with_disk w1 d) c x) g) e = chunk_at w1 e) by (intros e; exact (chunk_at_set_dbStored (with_disk w1 d) c e x)).
    split.
    + split; try done; [intros e ch dd'; rewrite Hat; apply Hh|intros k e ch; rewrite Hat; apply Ho|intros e; rewrite Hat; apply Ht].
    + eapply keeps_entries_trans; [exact Hk1|]. by split.
  - unfold Deliver. destruct (chunk_at w1 c) as [ch|]; [|done]. destruct (ck_Req ch ≫= _) as [rs|]; [|done].
    intros E. apply Hhive. by eapply deliver_ids_hive.
  - unfold Store. destruct (chunk_at w1 c) as [ch|]; [|done]. intros E. apply Hhive. by eapply store_loop_hive.
  - unfold Retrieve. destruct (chunk_at w1 c) as [ch|]; [|done]. destruct (ck_Req ch ≫= _) as [rs|].
    + intros [= <-]. apply Hhive, retrieve_loop_hive.
    + destruct (getPeers _ _ _); [|done]. intros [= <-]. split; [done|done].
Qed.
End Content.

(** The node keeps what it is given. *)
#[export] Instance node_store_laws : ChunkStoreLaws (node K SW M DS).
Proof using HML HDL HDC.
  refine {| cs_ok := store_inv; cs_holds := holds; cs_good := key32 |}.
  - intros content w n m Hle. by apply si_weaken.
  - intros content w n ch g Hsi Hk Hc Hs Hr. destruct (node_Put_law content w n ch g Hsi Hk Hc Hs Hr) as (w' & E & Hsi' & Hh & Hkp).
    exists w'. split_and!; try done. intros k. by apply holds_mono.
  - intros content w n k Hsi Hk Hh. destruct (node_Get_room content w n k Hsi Hk) as (x & w' & E & _ & _ & Hx). destruct (Hx Hh) as (ch & -> & Hc). by exists ch, w'.
  - intros content w n k x w' Hsi Hk E. destruct (node_Get_room content w n k Hsi Hk) as (x2 & w2 & E2 & Hsi2 & Hk2 & _).
    cbn in E. rewrite E in E2. injection E2 as -> ->. split; [done|]. intros k'. by apply holds_mono.
  - intros content w n w' Hsi (i & now & E). destruct (node_bg_law content w n w' i now Hsi E) as [Hsi' Hk']. split; [done|]. intros k. by apply holds_mono.
Defined.

(** C2: A document stored through a node is read again: once the wait group of the [Store] is done, every range of
    the document is read back through the stores of the node, and every request for a chunk of it that is answered
    later is answered with that chunk - by whatever worker and schedule, among other documents, stops and
    restarts, and while the goroutines of the node write to disk and talk to peers - as long as the cache has
    room for what is asked of it. *)
Theorem node_store_then_read content0 tc rd data :
  chunker_ok tc -> #data * branches tc < 2 ^ 63 -> data `prefix_of` content rd ->
  exists key rd' chunks,
    Split tc depth_fuel rd (#data) (Some []) = Some (Ok (key, rd', Some chunks)) /\
    forall w n ls1 (x1 : DPA (node K SW M DS)) ls2 x2 g,
      store_inv content0 w n -> (costs ls1 + costs ls2 < n)%nat ->
      client_run content0 (NewDPA w) ls1 x1 -> stored_by g ls1 ≡ₚ chunks -> wg_count x1 g = 0 ->
      client_run content0 x1 ls2 x2 ->
      (forall b off, 0 <= off -> 0 < #b -> off + #b <= #data ->
         exists lr, ReadAt tc (fetch_of (d_store x2)) depth_fuel (Join key) b off
                    = Some (Ok (range data off (off + #b), #b, #data <=? off + #b, lr))) /\
      (forall o ob, d_objs x2 !! o = Some ob -> (length (d_objs x1) <= o)%nat -> do_C ob = Some Closed ->
         ck_Key (do_chunk ob) ∈ ck_Key <$> chunks -> fetch_of (d_store x2) (ck_Key (do_chunk ob)) = Some (answer (do_chunk ob))).
Proof using HML HDL HDC. exact (store_then_read content0 tc rd data). Qed.
End Node.

(** ** Witnesses *)

(** What is on a disk of maps is as the contents say; those are well-formed chunks. *)
#[export] Instance MapDisk_contents : DiskContents (gmap Key bytes).
Proof.
  refine {| dk_contents := fun content d => (forall k x, content k = Some x -> 8 <= #x.1 /\ x.2 = i64 (le64_val x.1)) /\
              forall k v, d !! k = Some v -> exists z, content k = Some (v, z) |}.
  - intros content d k d' x [Hc Hd]. cbn. destruct (d !! k) as [v|] eqn:E; intros [= <- <-]; split; try done.
    destruct (Hd k v E) as [z Hz]. destruct (Hc k _ Hz) as [Hl Hs]. cbn [fst snd] in Hl, Hs. exists v. by rewrite <- Hs.
  - intros content d ch d' [Hc Hd] Hs Hcont [= <-]. split; [done|]. intros k v. rewrite lookup_insert. case_decide; [|apply Hd].
    intros [= <-]. subst k. unfold answer, sdata in Hcont. destruct (ck_SData ch); [|done]. cbn. eauto.
Defined.

Definition sum_hash : Hasher :=
  {| h_sum := fun l => replicate 31 0 ++ [(foldr (fun x a => 3 * a + x + 1) 7 l) mod 256]; h_size := 32 |}.
Definition sum_tc : TreeChunker := {| branches := 2; hashFunc := sum_hash; hashSize := 32; chunkSize := 64 |}.

Lemma sum_tc_ok : chunker_ok sum_tc.
Proof. split; [intros x; reflexivity|done..]. Qed.

Definition sum_data : bytes := Z.of_nat <$> seq 1 70.
Definition sum_reader : reader := [(sum_data, Some EOF)].

Definition sum_chunks : list Chunk := Eval vm_compute in
  match Split sum_tc depth_fuel sum_reader (#sum_data) (Some []) with Some (Ok (_, _, Some l)) => l | _ => [] end.

(** The contents that a list of chunks stands for. *)
Definition contents_of (l : list Chunk) (k : Key) : option (bytes * Z) :=
  answer <$> find (fun c => bool_decide (ck_Key c = k)) l.

Definition well_sized (c : Chunk) : bool := (8 <=? #(sdata c)) && (ck_Size c =? i64 (le64_val (sdata c))).

Lemma contents_of_Some l k x : forallb well_sized l = true -> contents_of l k = Some x -> 8 <= #x.1 /\ x.2 = i64 (le64_val x.1).
Proof.
  intros Hall. unfold contents_of. destruct (find _ l) as [c|] eqn:E; [|done]. intros [= <-]. apply find_some in E as [Hin _].
  rewrite forallb_forall in Hall. specialize (Hall c Hin). apply andb_true_iff in Hall as [Hl Hs].
  unfold answer. cbn [fst snd]. split; [by apply Z.leb_le|by apply Z.eqb_eq].
Qed.

(** The document is stored and read through an empty node, whose cache has room for ten chunks. *)
Abbreviation node1 := (node ListKad unit MemStore (gmap Key bytes)) (only parsing).
#[local] Instance node1_store : ChunkStore node1 := node_ChunkStore swap0 7 true.
#[local] Instance node1_laws : ChunkStoreLaws node1 := node_store_laws swap0 7 true.

Lemma empty_node_store l : forallb well_sized l = true -> store_inv (contents_of l) (empty_node None) 10.
Proof.
  intros Hall.
  assert (contents mem10 = ∅) as E0 by (destruct (NewMemStore_ok 10) as (s0 & Es & _ & Hv0 & _); [lia|]; by injection Es as <-).
  assert (Hv : view (empty_node None) = ∅) by (change (view (empty_node None)) with (fst <$> contents mem10); by rewrite E0, fmap_empty).
  split.
  - apply empty_node_wf.
  - rewrite Hv, map_size_empty. vm_compute. done.
  - intros c ch d. unfold chunk_at. change (nd_chunks (empty_node None)) with (∅ : gmap nat chunkobj). by rewrite lookup_empty.
  - intros k c ch. by rewrite Hv, lookup_empty.
  - split; [intros k x; by apply contents_of_Some|]. intros k v. change (nd_disk (empty_node None)) with (∅ : gmap Key bytes). by rewrite lookup_empty.
  - intros c Hin. by apply not_elem_of_nil in Hin.
Qed.

(** The labels of a [Store] of chunks with the wait group 7, served by the first worker, and of requests for them. *)
Definition store_labels (l : list Chunk) : list label :=
  LStart :: LWork 0 false :: concat ((fun c => [LStore (Some 1%nat) c (Some 7%nat); LSend 0] ++ serve 0) <$> l).
Definition fetch_labels (l : list Chunk) : list label :=
  LWork 8 false :: concat ((fun c => [LRetrieve (Some 0%nat) (ck_Key c); LSend 0] ++ serve 8) <$> l).

(** Whether a client may do a step, and runs of such steps. *)
Definition key32b (k : Key) : bool := (#k =? 32) && forallb (fun b => (0 <=? b) && (b <? 256)) k.
Lemma key32b_ok k : key32b k = true -> key32 k.
Proof.
  unfold key32b. intros [Hl Hf]%andb_true_iff. split; [apply Z.eqb_eq in Hl; exact Hl|]. apply Forall_forall. intros b Hb.
  rewrite forallb_forall in Hf. specialize (Hf b ltac:(by apply list_elem_of_In)). unfold is_byte. lia.
Qed.

(** Runs of the document API over a store, computed. *)
Section Drive.
Context {W : Type} `{ChunkStoreLaws W} (Hgood : forall k, key32b k = true -> cs_good k).

Definition node_label_okb (chunks : list Chunk) (x : DPA W) (l : label) : bool :=
  match l with
  | LStore (Some ch) c _ => bool_decide (chan_kind x ch = Some KStore) && key32b (ck_Key c) &&
      bool_decide (contents_of chunks (ck_Key c) = Some (answer c)) && bool_decide (ck_SData c <> None) && bool_decide (ck_Req c = None)
  | LRetrieve (Some ch) k => bool_decide (chan_kind x ch = Some KRetrieve) && key32b k
  | LRetrieve None _ => false
  | _ => true
  end.

Fixpoint node_drive (chunks : list Chunk) (x : DPA W) (ls : list label) : outcome (DPA W) :=
  match ls with
  | [] => Ret x
  | l :: ls => if node_label_okb chunks x l then let& x := dpa_step_fun x l in node_drive chunks x ls else Crash
  end.

Lemma node_drive_run chunks ls x x' : node_drive chunks x ls = Ret x' -> client_run (contents_of chunks) x ls x'.
Proof using Hgood.
  revert x. induction ls as [|l ls IH]; intros x; cbn [node_drive]; [intros [= <-]; constructor|].
  destruct (node_label_okb chunks x l) eqn:El; [|done]. destruct (dpa_step_fun x l) as [x1| |] eqn:E; try done. cbn [obind]. intros Hr.
  econstructor; [|by apply step_fun|by apply IH]. unfold node_label_okb in El.
  destruct l as [| |[ch|] c g|[ch|] k| | |]; cbn [label_ok]; try done;
    rewrite !andb_true_iff, ?bool_decide_eq_true in El; destruct_and?; split_and!; try done; by apply Hgood.
Qed.

Definition run_or (x : DPA W) (o : outcome (DPA W)) : DPA W := match o with Ret x' => x' | _ => x end.

Lemma driven_run chunks x ls x0 :
  node_drive chunks x ls <> Crash -> node_drive chunks x ls <> Wait -> client_run (contents_of chunks) x ls (run_or x0 (node_drive chunks x ls)).
Proof using Hgood. intros Hc Hw. apply node_drive_run. by destruct (node_drive chunks x ls). Qed.
End Drive.

(** The states of a node after the chunks were stored, and after they were asked for. *)
Definition node_stored (l : list Chunk) : DPA node1 := run_or (NewDPA (empty_node None)) (node_drive l (NewDPA (empty_node None)) (store_labels l)).
Definition node_fetched (l : list Chunk) : DPA node1 := run_or (NewDPA (empty_node None)) (node_drive l (node_stored l) (fetch_labels l)).

Lemma sum_store_run : client_run (contents_of sum_chunks) (NewDPA (empty_node None)) (store_labels sum_chunks) (node_stored sum_chunks).
Proof. apply driven_run; [exact key32b_ok|vm_compute; discriminate..]. Qed.

Lemma sum_fetch_run : client_run (contents_of sum_chunks) (node_stored sum_chunks) (fetch_labels sum_chunks) (node_fetched sum_chunks).
Proof. apply driven_run; [exact key32b_ok|vm_compute; discriminate..]. Qed.

Lemma node_store_then_read_witness :
  exists key rd' chunks,
    Split sum_tc depth_fuel sum_reader 70 (Some []) = Some (Ok (key, rd', Some chunks)) /\
    exists lr, ReadAt sum_tc (fetch_of (d_store (node_fetched sum_chunks))) depth_fuel (Join key) (replicate 4 0) 62 = Some (Ok ([63; 64; 65; 66], 4, false, lr)).
Proof.
  destruct (node_store_then_read swap0 7 true (contents_of sum_chunks) sum_tc sum_reader sum_data sum_tc_ok ltac:(vm_compute; reflexivity) ltac:(by exists []))
    as (key & rd' & chunks & E & Hread).
  exists key, rd', chunks. split; [exact E|].
  assert (Hc : sum_chunks = chunks) by (revert E; vm_compute; by intros [= _ _ <-]).
  destruct (Hread (empty_node None) 10%nat (store_labels sum_chunks) (node_stored sum_chunks) (fetch_labels sum_chunks) (node_fetched sum_chunks) 7%nat (empty_node_store sum_chunks eq_refl)) as [Hr _].
  - vm_compute. lia.
  - exact sum_store_run.
  - rewrite <- Hc. reflexivity.
  - vm_compute. reflexivity.
  - exact sum_fetch_run.
  - exact (Hr (replicate 4 0) 62 ltac:(lia) ltac:(vm_compute; reflexivity) ltac:(vm_compute; discriminate)).
Defined.
