(* ===== verification/NodeWait.v ===== *)
(** The wait groups of [Store] calls over a node ([Dpa], [Node]): the splitter adds a chunk to the wait group of its call, a store worker takes it off, and the local store of
    the node adds it again for the time of the disk write. The counter of a wait group is the chunks with the workers and the disk writes that are pending. *)
From stdpp Require Import base gmap list strings.
From Stdlib Require Import ZArith Lia.
From S2P Require Import Prelude Types Chunker Database DbStore MemStore MemInv MemEvict MemView MemProps Streamer Messages SyncDb Syncer Hive Node NodeProps NodeInv Dpa DpaInv DpaProps DpaNode.

Section Wait.
Context {K SW M DS : Type} `{Kademlia K, !MemIndex M, HML : !MemIndexLaws M, !ChunkDisk DS, HDL : !ChunkDiskLaws DS, HDC : !DiskContents DS}.
Context (swap_Add : SW -> Z -> bool * bool * SW) (generateId : Z) (pick : bool).
Implicit Types (w : node K SW M DS) (c r n i : nat) (ch : Chunk).

#[local] Instance wait_store : ChunkStore (node K SW M DS) := node_ChunkStore swap_Add generateId pick.
#[local] Instance wait_laws : ChunkStoreLaws (node K SW M DS) := node_store_laws swap_Add generateId pick.

(** ** Pending disk writes *)

Definition task_write (t : task) : option nat := match t with TDbPut c => Some c | _ => None end.

(** The chunk objects that goroutines are to write to disk, and how many of them a wait group waits for. *)
Definition writes w : list nat := omap task_write (nd_tasks w).
Definition disk_writes w (g : nat) : nat := length (filter (fun c => chunk_wg w c = Some g) (writes w)).

Record wait_inv w : Prop := {
  wi_next : forall c, is_Some (nd_chunks w !! c) -> (c < nd_next w)%nat;
  wi_writes : forall c, c ∈ writes w -> is_Some (nd_chunks w !! c);
  wi_count : forall g, default 0 (nd_wgs w !! g) = Z.of_nat (disk_writes w g)
}.

Lemma filter_same {A} (P Q : A -> Prop) `{!forall x, Decision (P x), !forall x, Decision (Q x)} (l : list A) :
  (forall x, x ∈ l -> P x <-> Q x) -> filter P l = filter Q l.
Proof using Type.
  induction l as [|a l IH]; intros Hl; [done|]. rewrite !filter_cons. rewrite IH by (intros x Hx; apply Hl; by right).
  pose proof (Hl a ltac:(by left)). repeat case_decide; tauto.
Qed.

(** The objects that are to be written keep their wait groups. *)
Lemma wait_same w w' :
  wait_inv w -> nd_wgs w' = nd_wgs w -> writes w' = writes w ->
  (forall c, is_Some (nd_chunks w' !! c) -> (c < nd_next w')%nat) ->
  (forall c, c ∈ writes w -> is_Some (nd_chunks w' !! c) /\ chunk_wg w' c = chunk_wg w c) -> wait_inv w'.
Proof using Type.
  intros [Hn Hw Hc] Eg Ew Hn' Hk. split; [done|intros c; rewrite Ew; intros Hin; by apply Hk|]. intros g. rewrite Eg, Hc. unfold disk_writes. rewrite Ew. do 2 f_equal.
  apply filter_same. intros c Hin. by destruct (Hk c Hin) as [_ ->].
Qed.

Lemma wait_alter w c f : (forall o, co_wg (f o) = co_wg o) -> wait_inv w -> wait_inv (with_chunks w (alter f c (nd_chunks w))).
Proof using Type.
  intros Hf Hi. pose proof Hi as [Hn Hw _]. apply (wait_same w); try done.
  - intros d. cbn. rewrite lookup_alter. case_decide; [subst; rewrite fmap_is_Some|]; apply Hn.
  - intros d Hin. unfold chunk_wg. cbn. rewrite lookup_alter. destruct (Hw d Hin) as [o Ho]. case_decide; subst; rewrite Ho; cbn; [by rewrite Hf|done].
Qed.

Lemma wait_alloc w ch c w' : wait_inv w -> alloc_chunk w ch = (c, w') -> wait_inv w' /\ c ∉ writes w' /\ is_Some (nd_chunks w' !! c).
Proof using Type.
  intros Hi. unfold alloc_chunk. intros [= <- <-]. pose proof Hi as [Hn Hw _]. split_and!; [apply (wait_same w); try done| |].
  - intros d. cbn. rewrite lookup_insert. case_decide; [lia|]. intros Hd%Hn. lia.
  - intros d Hin. unfold chunk_wg. cbn. pose proof (Hn d (Hw d Hin)). rewrite lookup_insert_ne by lia. split; [by apply Hw|done].
  - intros Hin%Hw%Hn. lia.
  - cbn. by rewrite lookup_insert_eq.
Qed.

Lemma wait_set_wg w c g : wait_inv w -> c ∉ writes w -> wait_inv (set_wg w c g).
Proof using Type.
  intros Hi Hc. pose proof Hi as [Hn Hw _]. apply (wait_same w); try done.
  - intros d. cbn. rewrite lookup_alter. case_decide; [subst; rewrite fmap_is_Some|]; apply Hn.
  - intros d Hin. unfold chunk_wg. cbn. rewrite lookup_alter. rewrite decide_False by (by intros ->). split; [by apply Hw|done].
Qed.

Lemma wait_go w t : task_write t = None -> wait_inv w -> wait_inv (go w t).
Proof using Type.
  intros Ht Hi. pose proof Hi as [Hn Hw _]. apply (wait_same w); try done; [|by intros c Hc%Hw].
  unfold writes. cbn. rewrite omap_app. cbn. by rewrite Ht, app_nil_r.
Qed.

(** ** The operations of the stores *)

Lemma cache_Get_wait w key x : wait_inv w -> cache_Get w key = Ret x -> wait_inv (snd x).
Proof using Type.
  intros Hi. unfold cache_Get. destruct (mi_Get (nd_mem w) key) as [[[o a] m]| |]; try done. cbn. intros [= <-]. destruct Hi. destruct a; by split.
Qed.

Lemma cache_Put_wait w c w' : wait_inv w -> cache_Put w c = Ret w' -> wait_inv w' /\ is_Some (nd_chunks w' !! c).
Proof using Type.
  intros Hi. unfold cache_Put. destruct (chunk_at w c) as [ch|] eqn:Ec; [|done]. destruct (mi_Put _ _ _ _) as [[o m]| |]; try done. cbn. intros [= <-].
  unfold chunk_at in Ec. destruct (nd_chunks w !! c) as [ob|] eqn:Eo; [|done]. destruct (o ≫= chunk_at w) as [old|].
  - pose proof (wait_alter w c (fun o => {| co_chunk := merge_entry old (co_chunk o); co_dbStored := co_dbStored o; co_wg := co_wg o |}) ltac:(done) Hi) as [? ? ?].
    split; [by split|]. cbn. by rewrite lookup_alter_eq, Eo.
  - destruct Hi. split; [by split|]. cbn. by rewrite Eo.
Qed.

Lemma LocalStore_Get_wait w key x : wait_inv w -> LocalStore_Get w key = Ret x -> wait_inv (snd x).
Proof using Type.
  intros Hi. unfold LocalStore_Get. destruct (cache_Get w key) as [[[c|] w1]| |] eqn:E; try done; cbn [obind]; pose proof (cache_Get_wait _ _ _ Hi E) as H1; cbn in H1.
  { by intros [= <-]. }
  destruct (dk_Get (nd_disk w1) key) as [d r]. assert (H2 : wait_inv (with_disk w1 d)) by (destruct H1; by split).
  destruct r as [ch| |]; [|by intros [= <-]|done]. case_match; [done|]. destruct (alloc_chunk _ _) as [c w2] eqn:Ea. destruct (wait_alloc _ _ _ _ H2 Ea) as [H3 _].
  destruct (cache_Put w2 c) as [w3| |] eqn:Ep; try done. intros [= <-]. by eapply cache_Put_wait.
Qed.

(** The chunk is counted in its wait group as long as its disk write is pending. *)
Lemma LocalStore_Put_wait w c w' : wait_inv w -> LocalStore_Put w c = Ret w' -> wait_inv w'.
Proof using Type.
  intros Hi. unfold LocalStore_Put.
  pose proof (wait_alter w c (fun o => {| co_chunk := co_chunk o; co_dbStored := Some Open; co_wg := co_wg o |}) ltac:(done) Hi) as H0.
  fold (set_dbStored w c (Some Open)) in H0. destruct (cache_Put _ c) as [w1| |] eqn:E; try done. intros [= <-].
  destruct (cache_Put_wait _ _ _ H0 E) as [[Hn Hw Hg] Hc].
  assert (Ew : writes (go (wg_Add w1 c) (TDbPut c)) = writes w1 ++ [c]) by (unfold writes; cbn; by rewrite omap_app). split; [done| |].
  - intros d. rewrite Ew, elem_of_app, list_elem_of_singleton. intros [Hin| ->]; [by apply Hw|done].
  - intros g. unfold disk_writes. rewrite Ew, filter_app, length_app, filter_cons, filter_nil.
    change (chunk_wg (go (wg_Add w1 c) (TDbPut c))) with (chunk_wg w1). specialize (Hg g). unfold disk_writes in Hg. cbn [nd_wgs go with_tasks wg_Add with_wgs].
    destruct (chunk_wg w1 c) as [h|]; [rewrite lookup_insert|]; repeat case_decide; simplify_eq; cbn [default length from_option id]; lia.
Qed.

Lemma NetStore_Put_wait w c w' : wait_inv w -> NetStore_Put w c = Ret w' -> wait_inv w'.
Proof using Type.
  intros Hi. unfold NetStore_Put. destruct (LocalStore_Put w c) as [w1| |] eqn:E; try done. pose proof (LocalStore_Put_wait _ _ _ Hi E) as H1. cbn [obind].
  destruct (chunk_at w1 c ≫= ck_Req) as [r|]; [|intros [= <-]; by apply wait_go].
  unfold close_request. destruct (nd_reqs w1 !! r) as [rs|]; [|done]. destruct (rs_C rs); [|done]. cbn [obind]. intros [= <-]. apply wait_go; [done|]. destruct H1; by split.
Qed.

Lemma NetStore_Get_wait w key x : wait_inv w -> NetStore_Get w key = Ret x -> wait_inv (snd x).
Proof using Type.
  intros Hi. unfold NetStore_Get. destruct (LocalStore_Get w key) as [[[c|] w1]| |] eqn:E; try done; cbn [obind]; pose proof (LocalStore_Get_wait _ _ _ Hi E) as H1; cbn in H1.
  { by intros [= <-]. }
  unfold alloc_request. destruct (alloc_chunk w1 _) as [c w2] eqn:Ea. destruct (wait_alloc _ _ _ _ H1 Ea) as [H2 _].
  assert (H3 : wait_inv (with_reqs w2 (<[c := newRequestStatus key]> (nd_reqs w2)))) by (destruct H2; by split).
  destruct (cache_Put _ c) as [w3| |] eqn:Ep; try done. intros [= <-]. apply wait_go; [done|]. by eapply cache_Put_wait.
Qed.

Lemma node_Put_wait w ch g w' : wait_inv w -> node_Put w ch g = Ret w' -> wait_inv w'.
Proof using Type.
  intros Hi. unfold node_Put. destruct (alloc_chunk w ch) as [c w1] eqn:Ea. destruct (wait_alloc _ _ _ _ Hi Ea) as (H1 & Hc & _).
  pose proof (wait_set_wg w1 c g H1 Hc) as H2. unfold Dpa_Put. destruct (chunk_at _ c) as [e|]; [|done].
  destruct (LocalStore_Get _ _) as [[[c2|] w2]| |] eqn:E; try done; cbn [obind]; pose proof (LocalStore_Get_wait _ _ _ H2 E) as H3; cbn in H3; [|by apply NetStore_Put_wait].
  destruct (chunk_at w2 c2) as [ch2|]; [|done]. destruct (ck_SData ch2); [by intros [= <-]|]. apply NetStore_Put_wait. by apply wait_alter.
Qed.

Lemma node_Get_wait w key (f : getres) w' : wait_inv w -> node_Get w key = Ret (f, w') -> wait_inv w'.
Proof using Type.
  intros Hi. unfold node_Get, Dpa_Get. destruct (NetStore_Get w key) as [[c w1]| |] eqn:E; try done. pose proof (NetStore_Get_wait _ _ _ Hi E) as H1. cbn in H1 |- *.
  destruct (chunk_at w1 c) as [ch|] eqn:Ec; [|done]. destruct (ck_SData ch), (ck_Req ch); cbn [obind]; try done; rewrite ?Ec; cbn; by intros [= _ <-].
Qed.

(** A pending task is taken out. *)
Lemma take_writes w i t : nd_tasks w !! i = Some t ->
  writes w = omap task_write (take i (nd_tasks w)) ++ option_list (task_write t) ++ omap task_write (drop (S i) (nd_tasks w)).
Proof using Type.
  intros Ht. unfold writes. rewrite <- (take_drop_middle _ _ _ Ht) at 1. rewrite omap_app. cbn. by destruct (task_write t).
Qed.

Lemma db_put_wait w i c w' :
  wait_inv w -> nd_tasks w !! i = Some (TDbPut c) -> db_put (with_tasks w (take i (nd_tasks w) ++ drop (S i) (nd_tasks w))) c = Ret w' -> wait_inv w'.
Proof using Type.
  intros Hi Ht. pose proof (take_writes w i _ Ht) as Ew. change (option_list (task_write (TDbPut c))) with [c] in Ew. pose proof Hi as [Hn Hw Hg]. set (w1 := with_tasks w _).
  assert (Ew1 : writes w1 = omap task_write (take i (nd_tasks w)) ++ omap task_write (drop (S i) (nd_tasks w))) by (unfold writes; cbn; by rewrite omap_app).
  assert (Hcount : forall g, default 0 (nd_wgs w !! g) = Z.of_nat (disk_writes w1 g) + (if decide (chunk_wg w c = Some g) then 1 else 0)).
  { intros g. rewrite Hg. unfold disk_writes. rewrite Ew, Ew1. change (chunk_wg w1) with (chunk_wg w). rewrite !filter_app, !length_app, filter_cons, filter_nil.
    case_decide; cbn; lia. }
  unfold db_put. change (nd_chunks w1) with (nd_chunks w). destruct (nd_chunks w !! c) as [o|] eqn:Eo; [|done]. destruct (dk_Put _ _) as [d|]; [|done]. cbn [or_crash obind].
  destruct (close_nonnil _) as [x|]; [|done]. cbn [or_crash obind]. set (w2 := set_dbStored _ c x).
  assert (Hwg : forall d, chunk_wg w2 d = chunk_wg w d).
  { intros e. unfold chunk_wg, w2. cbn. rewrite lookup_alter. case_decide; [subst|done]. by rewrite Eo. }
  assert (Hdom : forall d, is_Some (nd_chunks w2 !! d) <-> is_Some (nd_chunks w !! d)).
  { intros e. unfold w2. cbn. rewrite lookup_alter. case_decide; [subst; by rewrite fmap_is_Some|done]. }
  assert (Hsub : forall d, d ∈ writes w1 -> is_Some (nd_chunks w !! d)) by (intros e; rewrite Ew1; rewrite elem_of_app; intros Hin; apply Hw; rewrite Ew, !elem_of_app; tauto).
  assert (Hdw : forall g, disk_writes w2 g = disk_writes w1 g) by (intros g; unfold disk_writes; f_equal; apply filter_same; intros e _; by rewrite Hwg).
  assert (Hfin : forall gs, (forall g, default 0 (gs !! g) = Z.of_nat (disk_writes w1 g)) -> wait_inv (with_wgs w2 gs)).
  { intros gs Hgs. split; [intros e He; apply Hn; by apply Hdom|intros e He; apply Hdom; by apply Hsub|]. intros g. cbn [nd_wgs with_wgs]. rewrite Hgs. by rewrite <- Hdw. }
  unfold wg_Done. rewrite Hwg. change (nd_wgs w2) with (nd_wgs w). destruct (chunk_wg w c) as [h|] eqn:Eh.
  - destruct (Z.leb_spec (default 0 (nd_wgs w !! h)) 0); [done|]. intros [= <-]. apply Hfin. intros g. specialize (Hcount g). rewrite lookup_insert.
    repeat case_decide; simplify_eq; cbn [default from_option id]; lia.
  - intros [= <-]. replace w2 with (with_wgs w2 (nd_wgs w)) by reflexivity. apply Hfin. intros g. specialize (Hcount g). rewrite decide_False in Hcount by done. lia.
Qed.

Lemma run_task_wait w i now w' : wait_inv w -> run_task swap_Add generateId pick w i now = Ret w' -> wait_inv w'.
Proof using Type.
  intros Hi. unfold run_task. destruct (nd_tasks w !! i) as [t|] eqn:Et; [|by intros [= <-]]. destruct (task_write t) as [c|] eqn:Htw.
  { destruct t as [c'| | |]; try done. by apply db_put_wait. }
  set (w1 := with_tasks w _). assert (H1 : wait_inv w1).
  { pose proof Hi as [Hn Hw _]. apply (wait_same w); try done; [|by intros c Hc%Hw]. unfold writes at 1. cbn. by rewrite (take_writes w i t Et), omap_app, Htw. }
  assert (Hhive : forall w2, hive_only w1 w2 -> wait_inv w2) by (intros w2 ->; destruct H1; by split).
  destruct t as [c|c|c|c]; [done|..].
  - unfold Deliver. destruct (chunk_at w1 c) as [ch|]; [|done]. destruct (ck_Req ch ≫= _) as [rs|]; [|done]. intros E. apply Hhive. by eapply deliver_ids_hive.
  - unfold Store. destruct (chunk_at w1 c) as [ch|]; [|done]. intros E. apply Hhive. by eapply store_loop_hive.
  - unfold Retrieve. destruct (chunk_at w1 c) as [ch|]; [|done]. destruct (ck_Req ch ≫= _) as [rs|].
    + intros [= <-]. apply Hhive, retrieve_loop_hive.
    + destruct (getPeers _ _ _); [|done]. by intros [= <-].
Qed.

(** ** Runs *)

Lemma step_wait (x : DPA (node K SW M DS)) l x' : dpa_step x l x' -> wait_inv (d_store x) -> wait_inv (d_store x').
Proof using Type.
  intros Hs Hi. destruct (step_store x l x' Hs) as [-> |[(c & g & E)|[(k & r & E)|(n & now & E)]]]; [done|exact (node_Put_wait _ _ _ _ Hi E)|exact (node_Get_wait _ _ _ _ Hi E)|exact (run_task_wait _ _ _ _ Hi E)].
Qed.

Lemma run_wait (x : DPA (node K SW M DS)) ls x' : dpa_run x ls x' -> wait_inv (d_store x) -> wait_inv (d_store x').
Proof using Type. induction 1 as [|x l x1 ls x2 Hs _ IH]; [done|]. intros Hi. by eapply IH, step_wait. Qed.

Lemma client_dpa_run content (x : DPA (node K SW M DS)) ls x' : client_run content x ls x' -> dpa_run x ls x'.
Proof using Type. induction 1; [constructor|by econstructor]. Qed.

Lemma wait_counter (x : DPA (node K SW M DS)) g : wait_inv (d_store x) -> wg_counter x g = wg_count x g + Z.of_nat (disk_writes (d_store x) g).
Proof using Type. intros Hi. unfold wg_counter. cbn. by rewrite (wi_count _ Hi). Qed.

(** C21: A started document API over a node whose cache has room for what is asked drains its queues: from any state of a history without stops the workers and senders make
    only finitely many steps by themselves, whatever the schedule; and when none of them can go on, at whatever point of their disk writes and deliveries the goroutines of the
    node are, the counter of every wait group is the number of disk writes that are still pending for it. So a [Store] call waits for the disk only, and for nothing once
    these writes have run. *)
Theorem node_workers_drain content0 w n ls x :
  store_inv content0 w n -> wait_inv w -> (costs ls <= n)%nat -> LStop ∉ ls -> client_run content0 (NewDPA w) (LStart :: ls) x ->
  (forall ls' x', Forall internal ls' -> dpa_run x ls' x' -> (length ls' + work x' <= work x)%nat) /\
  (forall ls' x', Forall unasked ls' -> dpa_run x ls' x' -> (forall l y, internal l -> ~ dpa_step x' l y) ->
     forall g, wg_counter x' g = Z.of_nat (disk_writes (d_store x') g)).
Proof using HML HDL HDC.
  intros Hsi Hi Hn Hstop Hrun. destruct (workers_drain (HL := wait_laws) content0 w n ls x Hsi Hn Hstop Hrun) as [Hfin Hend]. split; [exact Hfin|].
  intros ls' x' HF Hr Hstuck g. rewrite (Hend ls' x' HF Hr Hstuck g). apply wi_count. eapply run_wait; [exact Hr|]. eapply run_wait; [by eapply client_dpa_run|exact Hi].
Qed.

(** C38: A stop of an API that was started once strands the chunks that its workers have not taken: until it is started again, whatever clients, workers and the goroutines of
    the node do, the counter of a wait group falls by at most 8, one for each store worker, besides the disk writes that were pending when it was stopped. A [Store] call with more chunks
    on the way waits for ever. *)
Theorem node_stop_strands w ls x x1 ls' x' g :
  wait_inv w -> (starts ls <= 1)%nat -> dpa_run (NewDPA w) ls x -> d_running x = true -> Stop x = Ret x1 ->
  LStart ∉ ls' -> dpa_run x1 ls' x' ->
  wg_counter x g - Z.of_nat (disk_writes (d_store x) g) - Z.of_nat maxStoreProcesses <= wg_counter x' g.
Proof using Type.
  intros Hi Hs Hrun Hr Hstop Hn Hrun'. pose proof (stop_strands_backlog w ls x x1 ls' x' g Hs Hrun Hr Hstop Hn Hrun') as Hle.
  pose proof (run_wait _ _ _ Hrun Hi) as Hx. assert (Hx1 : wait_inv (d_store x1)) by (by eapply (step_wait x LStop x1); [apply step_fun|]).
  rewrite (wait_counter x g Hx), (wait_counter x' g (run_wait _ _ _ Hrun' Hx1)). lia.
Qed.
End Wait.

(** ** Witnesses *)

Abbreviation node1 := (node ListKad unit MemStore (gmap Key bytes)) (only parsing).
#[local] Instance waiting_store : ChunkStore node1 := node_ChunkStore swap0 7 true.
#[local] Instance waiting_laws : ChunkStoreLaws node1 := node_store_laws swap0 7 true.

Lemma empty_node_wait : wait_inv (empty_node None : node1).
Proof. split; [intros c; change (nd_chunks (empty_node None)) with (∅ : gmap nat chunkobj); by rewrite lookup_empty; intros [? [=]]|intros c Hc; by apply not_elem_of_nil in Hc|done]. Qed.

Lemma no_stops : LStop ∉ tail (store_labels sum_chunks).
Proof. rewrite list_elem_of_In. vm_compute. intros Hin. repeat (destruct Hin as [Hin|Hin]; [discriminate|]). exact Hin. Qed.

(** The workers have stored the three chunks of a document, and the three disk writes are pending. *)
Lemma node_workers_drain_witness :
  let x := node_stored sum_chunks in
  wg_count x 7 = 0 /\ wg_counter x 7 = 3 /\ disk_writes (d_store x) 7 = 3%nat /\
  (forall ls' x', Forall internal ls' -> dpa_run x ls' x' -> (length ls' + work x' <= 15)%nat) /\
  (forall ls' x', Forall unasked ls' -> dpa_run x ls' x' -> (forall l y, internal l -> ~ dpa_step x' l y) ->
     forall g, wg_counter x' g = Z.of_nat (disk_writes (d_store x') g)).
Proof.
  split; [vm_compute; reflexivity|]. split; [vm_compute; reflexivity|]. split; [vm_compute; reflexivity|].
  exact (node_workers_drain swap0 7 true (contents_of sum_chunks) (empty_node None) 10 (tail (store_labels sum_chunks)) (node_stored sum_chunks) (empty_node_store sum_chunks eq_refl)
    empty_node_wait ltac:(vm_compute; lia) no_stops sum_store_run).
Defined.

(** The goroutines of the node run to their end, the counter falls to zero. *)
Fixpoint run_tasks (n : nat) (w : node1) : outcome node1 :=
  match n with O => Ret w | S n => let& w := run_task swap0 7 true w 0 0 in run_tasks n w end.

Example wait_ends :
  match run_tasks 6 (d_store (node_stored sum_chunks)) with Ret w => (nd_tasks w, default 0 (nd_wgs w !! 7%nat)) | _ => ([], -1) end = ([], 0).
Proof. vm_compute. reflexivity. Qed.

(** Nine chunks on the way when the API stops. *)
Definition nine_chunks : list label := LStart :: replicate 9 (LStore (Some 1%nat) leaf_chunk (Some 7%nat)).

Definition nine_state : DPA node1 := Nat.iter 9 (fun x => Store_chunk x (Some 1%nat) leaf_chunk (Some 7%nat)) (Start (NewDPA (empty_node None))).

Lemma nine_run : dpa_run (NewDPA (empty_node None : node1)) nine_chunks nine_state.
Proof. unfold nine_chunks. cbn [replicate]. repeat (eapply run_cons; [apply step_fun; reflexivity|]). apply run_nil. Qed.

Lemma nine_facts : d_running nine_state = true /\ wg_counter nine_state 7 = 9 /\ disk_writes (d_store nine_state) 7 = 0%nat /\ exists x1, Stop nine_state = Ret x1.
Proof. split; [|split; [|split; [|eexists]]]; vm_compute; reflexivity. Qed.

Lemma node_stop_strands_witness :
  exists x1, Stop nine_state = Ret x1 /\ forall ls' x', LStart ∉ ls' -> dpa_run x1 ls' x' -> 9 - 0 - 8 <= wg_counter x' 7.
Proof.
  destruct nine_facts as (Hr & Hc & Hd & x1 & Hs). exists x1. split; [exact Hs|]. intros ls' x' Hn Hr'. rewrite <- Hc.
  pose proof (node_stop_strands swap0 7 true (empty_node None) nine_chunks nine_state x1 ls' x' 7 empty_node_wait ltac:(vm_compute; lia) nine_run Hr Hs Hn Hr') as Hle.
  rewrite Hd in Hle. exact Hle.
Defined.
