(* ===== verification/DocNode.v ===== *)
(** Documents in a node: the content API ([Api]) over the tree chunker ([Chunker]), the workers of the document API
    ([Dpa]) and the chunk store of a node ([DpaNode]). What was put through the API is got again from the node. *)
From stdpp Require Import base gmap list strings.
From Stdlib Require Import ZArith Lia.
From S2P Require Import Prelude Types Chunker Database DbStore MemStore MemInv MemEvict MemView MemProps Streamer Messages SyncDb Syncer Hive Node NodeProps NodeInv Dpa DpaInv DpaProps DpaNode Manifest ManifestProps ManifestStore Api.

(** ** Documents in chunks *)

(** [strings.NewReader]: the bytes with the first reads, [io.EOF] with the read after the last. *)
Definition string_reader (d : bytes) : reader := match d with [] => [] | _ => [(d, None)] end.

Lemma string_reader_content d : d `prefix_of` Chunker.content (string_reader d).
Proof. exists []. rewrite app_nil_r. destruct d; [done|]. cbn. by rewrite app_nil_r. Qed.

Section Chunks.
Context (tc : TreeChunker) (fetch : Key -> option (bytes * Z)).

(** [DPA.Store] of a string: the key is that of the root chunk, whatever becomes of the chunks on the channel. *)
Definition chunk_Store (data : bytes) (size : Z) : result merr Key :=
  match Split tc depth_fuel (string_reader data) size (Some []) with
  | Some (Ok (key, _, _)) => Ok key
  | Some (Err _) => Err StoreError
  | Some Panic => Panic
  | None => Err OutOfFuel
  end.

(** The chunks that [DPA.Store] puts on its channel. *)
Definition chunks_of (data : bytes) : list Chunk :=
  match Split tc depth_fuel (string_reader data) (#data) (Some []) with Some (Ok (_, _, Some l)) => l | _ => [] end.

(** [DPA.Retrieve]: the lazy reader of a key at its beginning. A read that fails gives no bytes. *)
Definition chunk_reader (key : Key) : LazySectionReader := {|
  rd_Size := match reader_Size fetch (Join key) with Ok (size, _) => Some size | _ => None end;
  rd_Read n :=
    match reader_Read tc fetch depth_fuel (Join key) (make_bytes n) with
    | Some (Ok (b, n, eof, _)) => (b, n, eof)
    | _ => ([], 0, true)
    end
|}.

(** A chunker with a hash of 32 bytes. *)
Class chunker32 : Prop := {
  c32_ok : chunker_ok tc;
  c32_size : hashSize tc = 32;
  c32_bytes : forall l, Forall is_byte (h_sum (hashFunc tc) l)
}.

(** A document whose chunks are held is served under the key it was stored with. *)
Lemma chunk_serves data :
  chunker32 -> #data * branches tc < 2 ^ 63 ->
  exists key, chunk_Store data (#data) = Ok key /\ key_ok key /\ (stores fetch (chunks_of data) -> serves (chunk_reader key) data).
Proof using Type.
  intros [Hok H32 Hby] Hsz. destruct (Split_tree tc _ data Hok Hsz (string_reader_content data)) as (d & rd' & Hg & Hle & HS).
  unfold chunk_Store, chunks_of. rewrite HS. set (ts := _ / _) in *. destruct (tree_root tc d ts data) as (pre & c & Hc & Hk & Hcs & _ & Hch).
  eexists. split; [done|]. split.
  { rewrite Hk, Hch. cbn [hashChunk ck_Key]. split; [|apply Hby]. pose proof (ok_hash _ Hok (sdata c)) as Hl. unfold zlen in Hl. lia. }
  intros Hst. split.
  - cbn. unfold reader_Size. cbn [Join lr_chunk lr_key]. rewrite (retrieve_root tc fetch d ts data c pre Hst Hc). by rewrite Hcs.
  - cbn [rd_Read chunk_reader]. unfold reader_Read. change (lr_off (Join _)) with 0. destruct (decide (#data = 0)) as [Hz|Hz].
    { assert (data = []) as -> by (destruct data; [done|rewrite zlen_cons in Hz; zlia]). eexists. done. }
    assert (Hmb : #(make_bytes (#data)) = #data) by (unfold make_bytes, zlen; rewrite length_replicate; lia).
    destruct (ReadAt_tree tc fetch data d (make_bytes (#data)) 0 Hok Hg Hle Hst) as (r' & E); [zlia..|].
    fold ts in E. rewrite E, Hmb. eexists. cbn. unfold range. by rewrite Z.add_0_l, drop_0, Z.sub_0_r, take_ge by zlia.
Qed.

(** [DPA.Store] for a caller that waits and finds every chunk kept. *)
Definition kept_Store (data : bytes) (size : Z) : result merr Key :=
  if forallb (fun c => bool_decide (fetch (ck_Key c) = Some (sdata c, ck_Size c))) (chunks_of data) && (#data * branches tc <? 2 ^ 63)
  then chunk_Store data size else Err StoreError.

(** A store of chunks is a store of documents. *)
#[export] Instance kept_DocStore {H32 : chunker32} : DocStore chunk_reader kept_Store.
Proof using Type.
  assert (H : forall d k, kept_Store d (#d) = Ok k -> key_ok k /\ serves (chunk_reader k) d).
  { intros d k. unfold kept_Store. destruct (forallb _ _) eqn:Ef; [|done]. destruct (Z.ltb_spec (#d * branches tc) (2 ^ 63)) as [Hd|]; [|done].
    cbn [andb]. destruct (chunk_serves d H32 Hd) as (key & -> & Hk & Hs). intros [= <-]. split; [done|]. apply Hs.
    apply Forall_forall. intros c Hc%list_elem_of_In. rewrite forallb_forall in Ef. specialize (Ef c Hc). by apply bool_decide_eq_true in Ef. }
  split; intros d k [Hk Hs]%H; done.
Qed.
End Chunks.

(** ** Put and get *)

Lemma length_singleton k ct : key_ok k -> #(singleton_manifest k ct) = 106 + #ct.
Proof.
  intros [Hl _]. assert (Hk : length (Key_String k) = 64%nat) by (rewrite Key_String_hex, length_hex_encode by done; lia).
  unfold singleton_manifest, zlen. rewrite !length_app, Hk. cbn. lia.
Qed.

Section Put.
Context (tc : TreeChunker) (H32 : chunker32 tc) (Unmarshal : bytes -> option (list manifestTrieEntry)) {HJ : JsonSingleton Unmarshal} (dns : option (bytes -> Key * bool)).

(** [Put] returns the key of a manifest; with the chunks of the content and of the manifest at hand, the service reads
    the content under that key. *)
Lemma put_then_get data ct fuel :
  #data * branches tc < 2 ^ 63 -> (106 + #ct) * branches tc < 2 ^ 63 -> (0 < fuel)%nat -> unescaped ct ->
  exists k1 h, chunk_Store tc data (#data) = Ok k1 /\ Put (chunk_Store tc) data ct = Ok h /\
    forall fetch, stores fetch (chunks_of tc data ++ chunks_of tc (singleton_manifest k1 ct)) ->
      Storage_Get (chunk_reader tc fetch) Unmarshal dns fuel h =
        Ok ({| rs_MimeType := ct; rs_Status := 0; rs_Size := #data; rs_Content := data |}, false).
Proof using H32 HJ.
  intros Hd Hm Hfuel Hct. destruct (chunk_serves tc (fun _ => None) data H32 Hd) as (k1 & E1 & Hk1 & _).
  set (m := singleton_manifest k1 ct). assert (Hml : #m = 106 + #ct) by (by apply length_singleton). rewrite <- Hml in Hm.
  destruct (chunk_serves tc (fun _ => None) m H32 Hm) as (k2 & E2 & Hk2 & _).
  exists k1, (Key_String k2). split; [done|]. split; [unfold Put; fold m; rewrite E1; fold m; by rewrite E2|].
  intros fetch [Hs1 Hs2]%Forall_app. destruct (chunk_serves tc fetch data H32 Hd) as (k1' & E1' & _ & Hr1). destruct (chunk_serves tc fetch m H32 Hm) as (k2' & E2' & _ & Hr2).
  rewrite E1 in E1'. injection E1' as <-. rewrite E2 in E2'. injection E2' as <-.
  eapply Storage_Get_serves; [|exact (Hr1 Hs1)]. apply Get_singleton; [done|done|done|done|exact (Hr2 Hs2)|done].
Qed.

Context {K SW M DS : Type} `{Kademlia K, !MemIndex M, HML : !MemIndexLaws M, !ChunkDisk DS, HDL : !ChunkDiskLaws DS, HDC : !DiskContents DS}.
Context (swap_Add : SW -> Z -> bool * bool * SW) (generateId : Z) (pick : bool).

#[local] Instance doc_node_store : ChunkStore (node K SW M DS) := node_ChunkStore swap_Add generateId pick.
#[local] Instance doc_node_laws : ChunkStoreLaws (node K SW M DS) := node_store_laws swap_Add generateId pick.

(** What is put through the content API of a node is got from it: [Put] of a content gives the key of a manifest, and once
    the wait group that it waits for is done - the chunks of the content and of the manifest went to
    the workers of the document API and on to the cache, the disk and the peers of the node, in whatever order -
    [Storage.Get] of that key reads the content back in full, with its type, through the manifest, the chunk tree and
    the stores of the node, at any later time and among any other calls, worker steps and goroutines of the node, as long as the cache has room for what is asked of it. *)
Lemma node_put_then_get content0 data ct fuel :
  #data * branches tc < 2 ^ 63 -> (106 + #ct) * branches tc < 2 ^ 63 -> (0 < fuel)%nat -> unescaped ct ->
  exists k1 h, chunk_Store tc data (#data) = Ok k1 /\ Put (chunk_Store tc) data ct = Ok h /\
    forall w n ls1 (x1 : DPA (node K SW M DS)) ls2 x2 g,
      store_inv content0 w n -> (costs ls1 + costs ls2 < n)%nat ->
      client_run content0 (NewDPA w) ls1 x1 -> stored_by g ls1 ≡ₚ chunks_of tc data ++ chunks_of tc (singleton_manifest k1 ct) ->
      wg_count x1 g = 0 -> client_run content0 x1 ls2 x2 ->
      Storage_Get (chunk_reader tc (fetch_of (d_store x2))) Unmarshal dns fuel h =
        Ok ({| rs_MimeType := ct; rs_Status := 0; rs_Size := #data; rs_Content := data |}, false).
Proof using H32 HJ HML HDL HDC.
  intros Hd Hm Hf Hj. destruct (put_then_get data ct fuel Hd Hm Hf Hj) as (k1 & h & E1 & E2 & Hget). exists k1, h. split_and!; [done|done|].
  intros w n ls1 x1 ls2 x2 g Hs Hn Hr1 Hst Hwg Hr2. apply Hget. by eapply (stored_fetched content0 w n ls1 x1 ls2 x2 g).
Qed.
End Put.

(** ** Witness *)

#[export] Instance sum_tc32 : chunker32 sum_tc.
Proof.
  split; [apply sum_tc_ok|done|]. intros l. apply Forall_app. split; [by repeat constructor; vm_compute|].
  constructor; [|done]. unfold is_byte. apply Z.mod_pos_bound. lia.
Qed.

(** The chunks of a small content and of its manifest. *)
Definition doc_key : Key := Eval vm_compute in match chunk_Store sum_tc one_doc (#one_doc) with Ok k => k | _ => [] end.
Definition doc_chunks : list Chunk := Eval vm_compute in chunks_of sum_tc one_doc ++ chunks_of sum_tc (singleton_manifest doc_key one_type).

#[local] Instance doc1_store : ChunkStore node1 := node_ChunkStore swap0 7 true.
#[local] Instance doc1_laws : ChunkStoreLaws node1 := node_store_laws swap0 7 true.

Lemma doc_runs :
  client_run (contents_of doc_chunks) (NewDPA (empty_node None)) (store_labels doc_chunks) (node_stored doc_chunks) /\
  client_run (contents_of doc_chunks) (node_stored doc_chunks) [] (node_stored doc_chunks).
Proof. split; [|constructor]. apply driven_run; [exact key32b_ok|vm_compute; discriminate..]. Qed.

Lemma node_put_then_get_witness :
  exists k1 h, chunk_Store sum_tc one_doc 5 = Ok k1 /\ Put (chunk_Store sum_tc) one_doc one_type = Ok h /\
    Storage_Get (chunk_reader sum_tc (fetch_of (d_store (node_stored doc_chunks)))) decode_singleton None 1 h =
      Ok ({| rs_MimeType := one_type; rs_Status := 0; rs_Size := 5; rs_Content := one_doc |}, false).
Proof.
  destruct (node_put_then_get sum_tc sum_tc32 decode_singleton None swap0 7 true (contents_of doc_chunks) one_doc one_type 1
    ltac:(vm_compute; reflexivity) ltac:(vm_compute; reflexivity) ltac:(lia) one_type_unescaped) as (k1 & h & E1 & E2 & Hget).
  exists k1, h. split; [exact E1|]. split; [exact E2|].
  apply (Hget (empty_node None) 10%nat (store_labels doc_chunks) (node_stored doc_chunks) [] (node_stored doc_chunks) 7%nat (empty_node_store doc_chunks eq_refl)).
  - vm_compute. lia.
  - apply doc_runs.
  - assert (k1 = doc_key) as -> by (revert E1; vm_compute; by intros [= <-]). vm_compute. reflexivity.
  - vm_compute. reflexivity.
  - apply doc_runs.
Defined.
