(* ===== verification/Protocol.v ===== *)
(** The wire protocol of a peer connection ([livepeer/network/protocol.go]): the
    handshake, the dispatch of messages to storage, hive, streamer and syncer, and the
    main loop.

    An incoming message is a code, a size and a payload; decoding (RLP) is a
    parameter. The streamer and the table of requesters are shared by all connections.
    The theorems: when the handshake accepts a peer, what a message with a bad code, size or
    payload does, that the main loop always deregisters the peer and stops its syncer, and
    that an acknowledgement of a transcoding cannot be passed on. *)
From stdpp Require Import base gmap list strings.
From Stdlib Require Import ZArith Lia.
From S2P Require Import Prelude Types Database DbStore MemStore Streamer Messages SyncDb Syncer Hive Node NodeProps.

Definition Version : Z := 0.
Definition ProtocolMaxMsgSize : Z := 10 * 1024 * 1024.
Definition NetworkId : Z := 326326.

Definition ErrMsgTooLarge : Z := 0.
Definition ErrDecode : Z := 1.
Definition ErrInvalidMsgCode : Z := 2.
Definition ErrVersionMismatch : Z := 3.
Definition ErrNetworkIdMismatch : Z := 4.
Definition ErrNoStatusMsg : Z := 5.
Definition ErrExtraStatusMsg : Z := 6.
Definition ErrSwap : Z := 7.
Definition ErrSync : Z := 8.
Definition ErrUnwanted : Z := 9.
Definition ErrTranscode : Z := 10.
Definition ErrStream : Z := 11.

(** Errors that end a connection: of the protocol, or another one (reading, decoding). *)
Inductive perror := EProto (code : Z) | EOther.

#[export] Instance perror_eq_dec : EqDecision perror.
Proof. solve_decision. Defined.

Record inmsg := mkIn { im_Code : Z; im_Size : Z; im_Payload : bytes }.

(** What is written to a stream. *)
Inductive strmwrite := WPlaylist (m3u8 : bytes) | WSegment (seq : Z) (name : bytes) (duration : Z) (data : bytes)
| WHeader (h : bytes) | WPacket (p : bytes).

Section Protocol.
Context {K SW M DS : Type} `{Kademlia K, MemIndex M, ChunkDisk DS}.
Context (hash : bytes -> bytes) (swap_Add : SW -> Z -> bool * bool * SW) (generateId : Z) (pick : bool).
Context (sync_Marshal : syncState -> option bytes) (sync_Unmarshal : bytes -> option syncState).
Context (addr_String : peerAddr -> bytes) (CheckRelayIP : bytes -> bytes -> bool).
(** [msg.Decode] into the type of a code; [net.IP.IsUnspecified]; the host of the connection. *)
Context (decode : Z -> bytes -> option Msg) (IsUnspecified : bytes -> bool) (remoteHost : peer -> bytes).
(** [bzzswap.NewSwap] with the profile of the peer ([None] is an error), [Swap.Receive] and [Stop]. *)
Context (NewSwap : statusMsgData -> option SW) (swap_Receive : SW -> paymentMsgData -> SW) (swap_Stop : SW -> SW).
(** [ByteArrInVideoChunk]: encoding/gob. *)
Context (ungob : bytes -> VideoChunk).
(** [DbStore.Counter] of the disk store. *)
Context (counter : DS -> Z).

Record world := mkWorld {
  wd_node : node K SW M DS;
  wd_streamer : Streamer;
  wd_streamDB : StreamDB;
  wd_networkId : Z;
  wd_syncParams : SyncParams;
  wd_muxers : list (peer * (Hash32 * bytes));   (* the peer muxers made, by number *)
  wd_writes : list (nat * strmwrite);           (* writes to streams *)
  wd_relays : list bytes                        (* streams reported as relayed *)
}.

Definition with_node (w : world) (n : node K SW M DS) : world :=
  {| wd_node := n; wd_streamer := wd_streamer w; wd_streamDB := wd_streamDB w; wd_networkId := wd_networkId w;
     wd_syncParams := wd_syncParams w; wd_muxers := wd_muxers w; wd_writes := wd_writes w; wd_relays := wd_relays w |}.
Definition with_streamer (w : world) (s : Streamer) : world :=
  {| wd_node := wd_node w; wd_streamer := s; wd_streamDB := wd_streamDB w; wd_networkId := wd_networkId w;
     wd_syncParams := wd_syncParams w; wd_muxers := wd_muxers w; wd_writes := wd_writes w; wd_relays := wd_relays w |}.
Definition with_streamDB (w : world) (db : StreamDB) : world :=
  {| wd_node := wd_node w; wd_streamer := wd_streamer w; wd_streamDB := db; wd_networkId := wd_networkId w;
     wd_syncParams := wd_syncParams w; wd_muxers := wd_muxers w; wd_writes := wd_writes w; wd_relays := wd_relays w |}.
Definition hive_of (w : world) : Hive K SW := nd_hive (wd_node w).
Definition with_hive_of (w : world) (h : Hive K SW) : world := with_node w (with_hive (wd_node w) h).

(** What a handler returns: an error of the loop, if any. *)
Definition handled : Type := outcome (option perror * world).
Definition fine (w : world) : handled := Ret (None, w).
Definition fails (e : perror) (w : world) : handled := Ret (Some e, w).

(** A panic of the streamer is one of the handler. *)
Definition or_crash {A} (o : option A) : outcome A := match o with Some a => Ret a | None => Crash end.

(** ** Addresses *)

Definition peerAddr_repair (p : peer) (base : peerAddr) : peerAddr :=
  if IsUnspecified (pa_IP base)
  then {| pa_IP := remoteHost p; pa_Port := pa_Port base; pa_ID := pa_ID base; pa_Addr := pa_Addr base |}
  else base.

Definition selfAddr (h : Hive K SW) : peerAddr :=
  let '(host, port) := hv_listen h in
  {| pa_IP := host; pa_Port := port mod 2 ^ 16; pa_ID := hv_id h; pa_Addr := hv_addr h |}.

(** ** Outgoing messages *)

Definition send_out (w : world) (p : peer) (m : Msg) : bool * world :=
  let '(err, h) := send (hive_of w) p m in (err, with_hive_of w h).

Definition retrieve (w : world) (p : peer) (req : retrieveRequestMsgData) : bool * world := send_out w p (MRetrieve req).
Definition store (w : world) (p : peer) (req : storeRequestMsgData) : bool * world := send_out w p (MStore req).
Definition stream (w : world) (p : peer) (req : streamRequestMsgData) : bool * world := send_out w p (MStream req).
Definition stopStream (w : world) (p : peer) (req : stopStreamRequestMsgData) : bool * world := send_out w p (MStop req).
Definition transcode (w : world) (p : peer) (req : transcodeRequestMsgData) : bool * world := send_out w p (MTranscode req).
Definition transcodeAck (w : world) (p : peer) (req : transcodeAckMsgData) : bool * world := send_out w p (MAck req).
Definition deliveryRequest (w : world) (p : peer) (reqs : list syncRequest) : bool * world :=
  send_out w p (MDelivery {| dm_Deliver := reqs |}).
Definition unsyncedKeys (w : world) (p : peer) (reqs : list syncRequest) (state : syncState) : bool * world :=
  send_out w p (MUnsynced {| um_Unsynced := reqs; um_State := state |}).
Definition payment (w : world) (p : peer) (req : paymentMsgData) : bool * world := send_out w p (MPayment req).
Definition send_peers (w : world) (p : peer) (req : peersMsgData) : bool * world := send_out w p (MPeers req).

Definition syncRequest_out (w : world) (p : peer) : bool * world :=
  let state := bees (hive_of w) !! p ≫= bz_syncState in
  send_out w p (MSync {| sm_SyncState := if hv_syncEnabled (hive_of w) then state else None |}).

(** ** Streams *)

(** The write a video chunk asks for; [None] is the error of an empty chunk. *)
Definition insertChunkToStream (chunk : VideoChunk) : option strmwrite :=
  match vc_M3U8 chunk, vc_SegData chunk, vc_Header chunk, vc_Packet chunk with
  | Some m, _, _, _ => Some (WPlaylist m)
  | None, Some d, _, _ => Some (WSegment (vc_Seq chunk) (vc_SegName chunk) (vc_Duration chunk) d)
  | None, None, Some h, _ => Some (WHeader h)
  | None, None, None, Some p => Some (WPacket p)
  | None, None, None, None => None
  end.

Definition add_write (w : world) (strm : nat) (x : strmwrite) : world :=
  {| wd_node := wd_node w; wd_streamer := wd_streamer w; wd_streamDB := wd_streamDB w; wd_networkId := wd_networkId w;
     wd_syncParams := wd_syncParams w; wd_muxers := wd_muxers w; wd_writes := wd_writes w ++ [(strm, x)];
     wd_relays := wd_relays w |}.

(** A new peer muxer, named by its number. *)
Definition new_muxer (w : world) (p : peer) (originNode : Hash32) (streamID : bytes) : nat * world :=
  (length (wd_muxers w),
   {| wd_node := wd_node w; wd_streamer := wd_streamer w; wd_streamDB := wd_streamDB w; wd_networkId := wd_networkId w;
      wd_syncParams := wd_syncParams w; wd_muxers := wd_muxers w ++ [(p, (originNode, streamID))];
      wd_writes := wd_writes w; wd_relays := wd_relays w |}).

Definition add_relay (w : world) (id : bytes) : world :=
  {| wd_node := wd_node w; wd_streamer := wd_streamer w; wd_streamDB := wd_streamDB w; wd_networkId := wd_networkId w;
     wd_syncParams := wd_syncParams w; wd_muxers := wd_muxers w; wd_writes := wd_writes w;
     wd_relays := wd_relays w ++ [id] |}.

Definition remote_name (w : world) (p : peer) : bytes :=
  match bees (hive_of w) !! p with Some b => addr_String (bz_remoteAddr b) | None => [] end.

Definition handle_stop (w : world) (p : peer) (req : stopStreamRequestMsgData) : handled :=
  let concatedStreamID := MakeStreamID (sp_OriginNode req) (sp_StreamID req) in
  if sp_Id req =? StopStreamMsgID then
    let w := if decide (pa_Addr (selfAddr (hive_of w)) = sp_OriginNode req) then w
             else with_node w (StopStream (wd_node w) concatedStreamID (bee_Addr (hive_of w) p) (sp_Format req)) in
    let sub := remote_name w p in
    let& s := or_crash (match sp_Format req with
                        | Some HLS => UnsubscribeToHLSStream (wd_streamer w) concatedStreamID sub
                        | _ => UnsubscribeToRTMPStream (wd_streamer w) concatedStreamID sub
                        end) in
    fine (with_streamer w s)
  else fails EOther w.

(** The three kinds of stream messages. *)
Definition stream_request (w : world) (p : peer) (req : streamRequestMsgData) (id : StreamID) : handled :=
  let w := match GetNetworkStream (wd_streamer w) id with
           | None => add_relay (with_node w (Stream (wd_node w) id (bee_Addr (hive_of w) p) (sr_Format req))) id
           | Some _ => w
           end in
  let '(mux, w) := new_muxer w p (sr_OriginNode req) (sr_StreamID req) in
  let sub := remote_name w p in
  match sr_Format req with
  | Some HLS => fine (with_streamer w (fst (SubscribeToHLSStream (wd_streamer w) id sub mux)))
  | _ => fine (with_streamer w (SubscribeToRTMPStream (wd_streamer w) id sub mux))
  end.

Definition stream_deliver (w : world) (req : streamRequestMsgData) (id : StreamID) : handled :=
  match GetNetworkStream (wd_streamer w) id with
  | None => fails (EProto ErrStream) w
  | Some (strm, _) =>
    match insertChunkToStream (ungob (sr_SData req)) with
    | Some x => fine (add_write w strm x)
    | None => fine w
    end
  end.

Definition handle_stream (w : world) (p : peer) (req : streamRequestMsgData) : handled :=
  let id := MakeStreamID (sr_OriginNode req) (sr_StreamID req) in
  if sr_Id req =? RequestStreamMsgID then stream_request w p req id
  else if sr_Id req =? DeliverStreamMsgID then stream_deliver w req id
  else if sr_Id req =? EOFStreamMsgID then
    match sr_Format req with
    | Some HLS => fine w
    | _ => fine (with_streamer w (EndRTMPStream (wd_streamer w) id))
    end
  else fine w.

(** ** Storage *)

Definition set_lastActive (now : Z) (b : bzz SW) : bzz SW :=
  {| bz_remoteAddr := bz_remoteAddr b; bz_lastActive := now; bz_swap := bz_swap b;
     bz_syncEnabled := bz_syncEnabled b; bz_syncer := bz_syncer b; bz_syncState := bz_syncState b;
     bz_up := bz_up b; bz_dropped := bz_dropped b; bz_out := bz_out b |}.
Definition active (w : world) (p : peer) (now : Z) : world := with_hive_of w (on_bee (hive_of w) p (set_lastActive now)).

Definition handle_store (w : world) (p : peer) (req : storeRequestMsgData) (now : Z) : handled :=
  if #(default [] (so_SData req)) <? 9 then fails (EProto ErrDecode) w
  else
    let w := active w p now in
    let& n := HandleStoreRequestMsg hash (wd_node w) req p in
    fine (with_node w n).

Definition from_peer (req : retrieveRequestMsgData) (p : peer) : retrieveRequestMsgData :=
  {| rr_Key := rr_Key req; rr_Id := rr_Id req; rr_MaxSize := rr_MaxSize req; rr_MaxPeers := rr_MaxPeers req;
     rr_Timeout := rr_Timeout req; rr_timeout := rr_timeout req; rr_from := Some p |}.

Definition handle_retrieve (w : world) (p : peer) (req : retrieveRequestMsgData) (now : Z) : handled :=
  let req := from_peer req p in
  if isLookup req then fine (with_hive_of w (peers (hive_of w) req now))
  else match rr_Key req with
  | None => fails (EProto ErrDecode) w
  | Some _ =>
    let& n := HandleRetrieveRequestMsg swap_Add pick (wd_node w) req p now in
    let w := with_node w n in
    fine (with_hive_of w (peers (hive_of w) req now))
  end.

Definition handle_ack (w : world) (req : transcodeAckMsgData) : handled :=
  let id := MakeStreamID (ta_OriginNode req) (ta_OriginStreamID req) in
  match UpstreamTranscodeRequesters (wd_streamDB w) !! id with
  | Some upstream => fine (snd (transcodeAck w upstream req))
  | None =>
    fine (with_streamDB w (foldl (fun db ts => AddTranscodedStream db id ts) (wd_streamDB w) (ta_NewStreamIDs req)))
  end.

Definition set_syncEnabled (on : bool) (b : bzz SW) : bzz SW :=
  {| bz_remoteAddr := bz_remoteAddr b; bz_lastActive := bz_lastActive b; bz_swap := bz_swap b;
     bz_syncEnabled := on; bz_syncer := bz_syncer b; bz_syncState := bz_syncState b;
     bz_up := bz_up b; bz_dropped := bz_dropped b; bz_out := bz_out b |}.

(** The state the syncer starts with; a nil state disables synchronisation. *)
Definition session_state (w : world) (addr : Address) (state : option syncState) : bool * syncState :=
  let '(start, stop) := kad_KeyRange (hv_kad (hive_of w)) addr in
  match state with
  | None => (false, {| ss_Db := no_sync; ss_SessionAt := 0; ss_LastSeenAt := 0; ss_Latest := []; ss_Synced := true |})
  | Some st =>
    let db := if IsZeroKey (Stop (ss_Db st)) && ss_Synced st
              then {| Start := start; Stop := stop; First := First (ss_Db st); Last := Last (ss_Db st) |}
              else ss_Db st in
    (true, {| ss_Db := db; ss_SessionAt := counter (nd_disk (wd_node w)); ss_LastSeenAt := ss_LastSeenAt st;
              ss_Latest := ss_Latest st; ss_Synced := ss_Synced st |})
  end.

(** The flag is the error. *)
Definition sync_start (w : world) (p : peer) (state : option syncState) : bool * world :=
  match bees (hive_of w) !! p with
  | None => (true, w)
  | Some b =>
    match bz_syncer b with
    | Some _ => (true, w)
    | None =>
      let addr := pa_Addr (bz_remoteAddr b) in
      let '(on, st) := session_state w addr state in
      let enabled := bz_syncEnabled b && on in
      let s := newSyncer (wd_syncParams w) enabled addr st in
      (false, with_hive_of w (on_bee (on_bee (hive_of w) p (set_syncEnabled enabled)) p (set_syncer (Some s))))
    end
  end.

Definition handle_unsynced (w : world) (p : peer) (req : unsyncedKeysMsgData) (now : Z) : handled :=
  let& r := HandleUnsyncedKeysMsg (wd_node w) req p in
  let '(err, n) := r in
  let w := active (with_node w n) p now in
  if err then fails (EProto ErrDecode) w else fine w.

Definition handle_delivery (w : world) (p : peer) (req : deliveryRequestMsgData) (now : Z) : handled :=
  let& n := HandleDeliveryRequestMsg generateId pick (wd_node w) req p in
  fine (active (with_node w n) p now).

Definition handle_payment (w : world) (p : peer) (payload : bytes) : handled :=
  if hv_swapEnabled (hive_of w) then
    match decode paymentMsg payload with
    | Some (MPayment req) =>
      match bees (hive_of w) !! p ≫= bz_swap with
      | None => Crash
      | Some s =>
        let set b := {| bz_remoteAddr := bz_remoteAddr b; bz_lastActive := bz_lastActive b;
                        bz_swap := Some (swap_Receive s req); bz_syncEnabled := bz_syncEnabled b;
                        bz_syncer := bz_syncer b; bz_syncState := bz_syncState b; bz_up := bz_up b;
                        bz_dropped := bz_dropped b; bz_out := bz_out b |} in
        fine (with_hive_of w (on_bee (hive_of w) p set))
      end
    | _ => fails (EProto ErrDecode) w
    end
  else fine w.

(** ** Dispatch *)

(** The body of the switch for a message that decodes. *)
Definition dispatch (w : world) (p : peer) (m : Msg) (now : Z) : handled :=
  match m with
  | MStop req => handle_stop w p req
  | MStream req => handle_stream w p req
  | MStore req => handle_store w p req now
  | MRetrieve req => handle_retrieve w p req now
  | MTranscode _ => fine w
  | MAck req => handle_ack w req
  | MPeers req => fine (with_hive_of w (HandlePeersMsg addr_String CheckRelayIP (hive_of w) req p))
  | MSync req => fine (snd (sync_start (active w p now) p (sm_SyncState req)))
  | MUnsynced req => handle_unsynced w p req now
  | MDelivery req => handle_delivery w p req now
  | MStatus _ | MPayment _ => fine w
  end.

(** The error of a payload that does not decode. *)
Definition decode_error (code : Z) : perror :=
  if (code =? streamRequestMsg) || (code =? stopStreamRequestMsg) then EOther else EProto ErrDecode.

(** [None] is an error of [ReadMsg]. *)
Definition handle (w : world) (p : peer) (msg : option inmsg) (now : Z) : handled :=
  match msg with
  | None => fails EOther w
  | Some msg =>
    if ProtocolMaxMsgSize <? im_Size msg then fails (EProto ErrMsgTooLarge) w
    else if im_Code msg =? statusMsg then fails (EProto ErrExtraStatusMsg) w
    else if im_Code msg =? paymentMsg then handle_payment w p (im_Payload msg)
    else if (im_Code msg <? 0) || (transcodeAckMsg <? im_Code msg) then fails (EProto ErrInvalidMsgCode) w
    else match decode (im_Code msg) (im_Payload msg) with
    | None => fails (decode_error (im_Code msg)) w
    | Some m => dispatch w p m now
    end
  end.

(** ** Handshake *)

Definition own_status (w : world) : statusMsgData :=
  {| st_Version := Version; st_ID := str "honey"; st_Addr := selfAddr (hive_of w); st_NetworkId := wd_networkId w |}.

(** The handshake is sent with [p2p.Send] itself, whose error is only logged; so is a first
    message with another code. *)
Definition send_status (w : world) (p : peer) : world :=
  match bees (hive_of w) !! p with
  | Some b => if bz_up b then with_hive_of w (on_bee (hive_of w) p (add_out (MStatus (own_status w)))) else w
  | None => w
  end.

(** The connection of an accepted status. *)
Definition set_remote (a : peerAddr) (sw : option SW) (b : bzz SW) : bzz SW :=
  {| bz_remoteAddr := a; bz_lastActive := bz_lastActive b; bz_swap := sw;
     bz_syncEnabled := bz_syncEnabled b; bz_syncer := bz_syncer b; bz_syncState := bz_syncState b;
     bz_up := bz_up b; bz_dropped := bz_dropped b; bz_out := bz_out b |}.

Definition accept_status (w : world) (p : peer) (status : statusMsgData) : option perror * world :=
  let a := peerAddr_repair p (st_Addr status) in
  let swap := if hv_swapEnabled (hive_of w) then
                match NewSwap status with Some s => Some (Some s) | None => None end
              else Some None in
  match swap with
  | None => (Some (EProto ErrSwap), with_hive_of w (on_bee (hive_of w) p (set_remote a None)))
  | Some sw =>
    let w := with_hive_of w (on_bee (hive_of w) p (set_remote a sw)) in
    let '(err, h) := addPeer sync_Unmarshal (hive_of w) p in
    let w := with_hive_of w h in
    if err then (Some (EProto ErrUnwanted), w) else (None, snd (syncRequest_out w p))
  end.

Definition handleStatus (w : world) (p : peer) (msg : option inmsg) : option perror * world :=
  let w := send_status w p in
  match msg with
  | None => (Some EOther, w)
  | Some msg =>
    if ProtocolMaxMsgSize <? im_Size msg then (Some (EProto ErrMsgTooLarge), w)
    else match decode statusMsg (im_Payload msg) with
    | Some (MStatus status) =>
      if negb (st_NetworkId status =? wd_networkId w) then (Some (EProto ErrNetworkIdMismatch), w)
      else if negb (Version =? st_Version status) then (Some (EProto ErrVersionMismatch), w)
      else accept_status w p status
    | _ => (Some (EProto ErrDecode), w)
    end
  end.

(** ** The main loop *)

(** A new connection, before the handshake. *)
Definition new_bzz (up : bool) : bzz SW :=
  {| bz_remoteAddr := {| pa_IP := []; pa_Port := 0; pa_ID := []; pa_Addr := [] |}; bz_lastActive := 0; bz_swap := None;
     bz_syncEnabled := true; bz_syncer := None; bz_syncState := None; bz_up := up; bz_dropped := false; bz_out := [] |}.

(** The deferred function: the peer leaves the hive, its syncer and its payments stop. *)
Definition disconnect (w : world) (p : peer) : outcome world :=
  let w := with_hive_of w (removePeer sync_Marshal (hive_of w) p) in
  match bees (hive_of w) !! p with
  | None => Ret w
  | Some b =>
    let& s := match bz_syncer b with None => Ret None | Some s => let& s := stop s in Ret (Some s) end in
    let set b := {| bz_remoteAddr := bz_remoteAddr b; bz_lastActive := bz_lastActive b;
                    bz_swap := swap_Stop <$> bz_swap b; bz_syncEnabled := bz_syncEnabled b; bz_syncer := s;
                    bz_syncState := bz_syncState b; bz_up := bz_up b; bz_dropped := bz_dropped b;
                    bz_out := bz_out b |} in
    Ret (with_hive_of w (on_bee (hive_of w) p set))
  end.

(** The messages of the connection in order, until a handler fails; the list ends when the
    connection does. While reading is blocked the loop sleeps without reading. *)
Fixpoint run_loop (w : world) (p : peer) (msgs : list (option inmsg)) (now : Z) : handled :=
  match msgs with
  | [] => fails EOther w
  | m :: msgs =>
    if hv_blockRead (hive_of w) then Wait
    else
      let& r := handle w p m now in
      match r with
      | (Some e, w) => fails e w
      | (None, w) => run_loop w p msgs now
      end
  end.

Definition run (w : world) (p : peer) (up : bool) (msgs : list (option inmsg)) (now : Z) : handled :=
  let w := with_hive_of w (with_bees (hive_of w) (<[p := new_bzz up]> (bees (hive_of w)))) in
  match handleStatus w p (default None (head msgs)) with
  | (Some e, w) => fails e w
  | (None, w) =>
    let& r := run_loop w p (tail msgs) now in
    let '(e, w) := r in
    let& w := disconnect w p in
    Ret (e, w)
  end.

(** ** Theorems *)

(** The connection with the repaired address and payments of a status. *)
Definition joined (w : world) (p : peer) (status : statusMsgData) : Hive K SW :=
  on_bee (hive_of (send_status w p)) p
    (set_remote (peerAddr_repair p (st_Addr status))
       (if hv_swapEnabled (hive_of w) then NewSwap status else None)).

Lemma send_status_same w p :
  wd_networkId (send_status w p) = wd_networkId w /\
  hv_swapEnabled (hive_of (send_status w p)) = hv_swapEnabled (hive_of w).
Proof using Type. unfold send_status. destruct (bees (hive_of w) !! p) as [b|]; [|done]. by destruct (bz_up b). Qed.

Lemma accept_status_ok w p st :
  fst (accept_status (send_status w p) p st) = None <->
  (hv_swapEnabled (hive_of w) = true -> NewSwap st <> None) /\ fst (addPeer sync_Unmarshal (joined w p st) p) = false.
Proof using Type.
  unfold accept_status, joined. destruct (send_status_same w p) as [_ Hsw]. rewrite Hsw.
  destruct (hv_swapEnabled (hive_of w)).
  - destruct (NewSwap st) as [s|] eqn:En.
    + cbn [hive_of with_hive_of with_node wd_node with_hive nd_hive].
      destruct (addPeer sync_Unmarshal _ p) as [[|] h]; cbn.
      * split; [done|]. by intros [_ Hf].
      * split; [|done]. intros _. by split.
    + cbn. split; [done|]. intros [Hs _]. by destruct (Hs eq_refl).
  - cbn [hive_of with_hive_of with_node wd_node with_hive nd_hive].
    destruct (addPeer sync_Unmarshal _ p) as [[|] h]; cbn.
    + split; [done|]. by intros [_ Hf].
    + split; [|done]. intros _. by split.
Qed.

(** C23: The handshake accepts a peer exactly when its first message fits the size limit, decodes
    as a status of the same network and version, the payment channel can be set up and the
    Kademlia table takes the peer; the code of that message plays no role, so a
    first message that is not a status message is accepted like one. *)
Theorem handshake_accepts w p msg :
  (fst (handleStatus w p msg) = None <->
   exists m st, msg = Some m /\ im_Size m <= ProtocolMaxMsgSize /\ decode statusMsg (im_Payload m) = Some (MStatus st) /\
     st_NetworkId st = wd_networkId w /\ st_Version st = Version /\
     (hv_swapEnabled (hive_of w) = true -> NewSwap st <> None) /\
     fst (addPeer sync_Unmarshal (joined w p st) p) = false) /\
  (forall c size payload, handleStatus w p (Some {| im_Code := c; im_Size := size; im_Payload := payload |}) =
     handleStatus w p (Some {| im_Code := statusMsg; im_Size := size; im_Payload := payload |})).
Proof using Type.
  split; [|done]. unfold handleStatus. destruct (send_status_same w p) as [Hn _].
  destruct msg as [m|]; [|cbn; split; [done|]; by intros (m & st & E & _)].
  destruct (Z.ltb_spec ProtocolMaxMsgSize (im_Size m)) as [Hlt|Hle].
  { split; [done|]. intros (m' & st & [= <-] & Hsz & _). lia. }
  destruct (decode statusMsg (im_Payload m)) as [body|] eqn:Ed.
  2:{ split; [done|]. intros (m' & st & [= <-] & _ & E & _). congruence. }
  destruct body as [st| | | | | | | | | | |];
    try (split; [done|]; intros (m' & st' & [= <-] & _ & E & _); congruence).
  rewrite Hn. destruct (Z.eqb_spec (st_NetworkId st) (wd_networkId w)) as [En|En]; cbn [negb].
  2:{ split; [done|]. intros (m' & st' & [= <-] & _ & E & E2 & _). congruence. }
  destruct (Z.eqb_spec Version (st_Version st)) as [Ev|Ev]; cbn [negb].
  2:{ split; [done|]. intros (m' & st' & [= <-] & _ & E & _ & E2 & _). congruence. }
  rewrite accept_status_ok. split.
  - intros [Hs Ha]. exists m, st. split_and!; auto.
  - intros (m' & st' & [= <-] & _ & E & _ & _ & Hs & Ha). rewrite E in Ed. injection Ed as <-. auto.
Qed.

(** C34: A message over the size limit, with a code outside the protocol, a second status, a
    payload that does not decode or a store request without content ends the connection with
    the error for it and changes nothing. Payments differ: where they are enabled a payment that does not decode ends the connection
    too, but where they are not the message is passed over, whatever its payload, and the connection goes on. *)
Theorem handle_rejects w p m now :
  (ProtocolMaxMsgSize < im_Size m -> handle w p (Some m) now = Ret (Some (EProto ErrMsgTooLarge), w)) /\
  (im_Size m <= ProtocolMaxMsgSize ->
   (im_Code m = statusMsg -> handle w p (Some m) now = Ret (Some (EProto ErrExtraStatusMsg), w)) /\
   (im_Code m < statusMsg \/ transcodeAckMsg < im_Code m ->
      handle w p (Some m) now = Ret (Some (EProto ErrInvalidMsgCode), w)) /\
   (statusMsg < im_Code m <= transcodeAckMsg -> im_Code m <> paymentMsg -> decode (im_Code m) (im_Payload m) = None ->
      exists e, (e = EOther \/ e = EProto ErrDecode) /\ handle w p (Some m) now = Ret (Some e, w)) /\
   (forall req, im_Code m = storeRequestMsg -> decode storeRequestMsg (im_Payload m) = Some (MStore req) ->
      #(default [] (so_SData req)) <= 8 -> handle w p (Some m) now = Ret (Some (EProto ErrDecode), w)) /\
   (im_Code m = paymentMsg -> hv_swapEnabled (hive_of w) = true -> decode paymentMsg (im_Payload m) = None ->
      handle w p (Some m) now = Ret (Some (EProto ErrDecode), w)) /\
   (im_Code m = paymentMsg -> hv_swapEnabled (hive_of w) = false -> handle w p (Some m) now = Ret (None, w))).
Proof using Type.
  unfold handle, statusMsg, transcodeAckMsg, paymentMsg. split.
  { intros Hs. destruct (Z.ltb_spec ProtocolMaxMsgSize (im_Size m)); [done|lia]. }
  intros Hs. destruct (Z.ltb_spec ProtocolMaxMsgSize (im_Size m)); [lia|]. split_and!.
  - intros ->. done.
  - intros Hc. destruct (Z.eqb_spec (im_Code m) 0); [lia|]. destruct (Z.eqb_spec (im_Code m) 7); [lia|].
    destruct (Z.ltb_spec (im_Code m) 0), (Z.ltb_spec 11 (im_Code m)); try lia; done.
  - intros Hc Hp Hd. destruct (Z.eqb_spec (im_Code m) 0); [lia|]. destruct (Z.eqb_spec (im_Code m) 7); [lia|].
    destruct (Z.ltb_spec (im_Code m) 0), (Z.ltb_spec 11 (im_Code m)); try lia. cbn [orb]. rewrite Hd.
    eexists. split; [|done]. unfold decode_error. destruct (_ || _); auto.
  - intros req Hc Hd Hl. rewrite Hc. change (storeRequestMsg =? 0) with false. change (storeRequestMsg =? 7) with false.
    change ((storeRequestMsg <? 0) || (11 <? storeRequestMsg)) with false. cbn iota. rewrite Hd.
    cbn [dispatch]. unfold handle_store. destruct (Z.ltb_spec (#(default [] (so_SData req))) 9); [done|lia].
  - intros -> Hsw Hd. change (paymentMsg =? 0) with false. cbn iota. unfold handle_payment, paymentMsg. by rewrite Hsw, Hd.
  - intros -> Hsw. change (paymentMsg =? 0) with false. cbn iota. unfold handle_payment. by rewrite Hsw.
Qed.

(** The acknowledgement of a transcoding can never be passed on: its code is not below the
    length of the protocol, so sending it fails and drops the requester it is for, and the
    requester gets nothing. *)
Theorem transcode_ack_drops_requester w p m now req u b :
  im_Size m <= ProtocolMaxMsgSize -> im_Code m = transcodeAckMsg ->
  decode transcodeAckMsg (im_Payload m) = Some (MAck req) ->
  UpstreamTranscodeRequesters (wd_streamDB w) !! MakeStreamID (ta_OriginNode req) (ta_OriginStreamID req) = Some u ->
  bees (hive_of w) !! u = Some b -> hv_blockWrite (hive_of w) = false ->
  exists w' b', handle w p (Some m) now = Ret (None, w') /\ bees (hive_of w') !! u = Some b' /\
    bz_dropped b' = true /\ bz_out b' = bz_out b.
Proof using Type.
  intros Hs Hc Hd Hu Hb Hbw. unfold handle. destruct (Z.ltb_spec ProtocolMaxMsgSize (im_Size m)); [lia|].
  rewrite Hc. change (transcodeAckMsg =? statusMsg) with false. change (transcodeAckMsg =? paymentMsg) with false.
  change ((transcodeAckMsg <? 0) || (transcodeAckMsg <? transcodeAckMsg)) with false. cbn iota. rewrite Hd.
  cbn [dispatch]. unfold handle_ack. rewrite Hu. unfold transcodeAck, send_out, send. rewrite Hbw, Hb.
  change (Msg_code (MAck req) <? ProtocolLength) with false. cbn [andb snd].
  eexists. eexists. split; [done|]. split; [cbn; rewrite lookup_alter_eq, Hb; done|]. done.
Qed.
End Protocol.
Arguments world : clear implicits.

(** ** Witnesses *)

(** Decoding for examples: the payload names the message. *)
Definition status0 : statusMsgData :=
  {| st_Version := 0; st_ID := str "honey";
     st_Addr := {| pa_IP := [10; 0; 0; 1]; pa_Port := 30399; pa_ID := []; pa_Addr := replicate 32 9 |};
     st_NetworkId := NetworkId |}.
Definition ack0 : transcodeAckMsgData :=
  {| ta_OriginNode := replicate 32 1; ta_OriginStreamID := []; ta_TranscodeID := replicate 32 2; ta_NewStreamIDs := [] |}.
Definition decode0 (code : Z) (payload : bytes) : option Msg :=
  if (code =? statusMsg) && bool_decide (payload = [1]) then Some (MStatus status0)
  else if (code =? transcodeAckMsg) && bool_decide (payload = [2]) then Some (MAck ack0)
  else None.

Definition addr_url (a : peerAddr) : bytes := str "enode://" ++ pa_ID a.
Definition relay_all (a b : bytes) : bool := true.
Definition pay_nothing (s : unit) (m : paymentMsgData) : unit := s.
Definition no_video (b : bytes) : VideoChunk := plain_chunk 0.
Definition disk_counter (d : gmap Key bytes) : Z := Z.of_nat (size d).

Definition world0 : world ListKad unit MemStore (gmap Key bytes) :=
  {| wd_node := empty_node None; wd_streamer := NewStreamer (replicate 32 0);
     wd_streamDB := AddUpstreamTranscodeRequester NewStreamDB (MakeStreamID (replicate 32 1) []) 2%nat;
     wd_networkId := NetworkId; wd_syncParams := NewSyncParams; wd_muxers := []; wd_writes := []; wd_relays := [] |}.

(** A retrieve request as first message, whose payload happens to decode as a status. *)
Definition odd_hello : inmsg := {| im_Code := retrieveRequestMsg; im_Size := 1; im_Payload := [1] |}.

Lemma handshake_accepts_witness :
  fst (handleStatus (fun _ => None) decode0 (fun _ => false) (fun _ => []) (fun _ => Some tt) world0 1 (Some odd_hello)) = None.
Proof.
  apply (handshake_accepts (fun _ => None) decode0 (fun _ => false) (fun _ => []) (fun _ => Some tt) world0 1 (Some odd_hello)).
  exists odd_hello, status0. split_and!; try (vm_compute; reflexivity); vm_compute; congruence.
Defined.

Lemma handle_rejects_witness :
  handle hash0 swap0 0 true addr_url relay_all decode0 pay_nothing no_video disk_counter world0 1
    (Some {| im_Code := statusMsg; im_Size := 1; im_Payload := [1] |}) 0
  = Ret (Some (EProto ErrExtraStatusMsg), world0).
Proof.
  apply (handle_rejects hash0 swap0 0 true addr_url relay_all decode0 pay_nothing no_video disk_counter world0 1
    {| im_Code := statusMsg; im_Size := 1; im_Payload := [1] |} 0); vm_compute; congruence.
Defined.

Lemma transcode_ack_drops_requester_witness :
  exists w' b', handle hash0 swap0 0 true addr_url relay_all decode0 pay_nothing no_video disk_counter world0 1
      (Some {| im_Code := transcodeAckMsg; im_Size := 1; im_Payload := [2] |}) 0 = Ret (None, w') /\
    bees (hive_of w') !! 2%nat = Some b' /\ bz_dropped b' = true /\ bz_out b' = [].
Proof.
  apply (transcode_ack_drops_requester hash0 swap0 0 true addr_url relay_all decode0 pay_nothing no_video disk_counter
    world0 1 {| im_Code := transcodeAckMsg; im_Size := 1; im_Payload := [2] |} 0 ack0 2 (bee_at (replicate 32 3) None));
    (reflexivity || (vm_compute; congruence) || (vm_compute; reflexivity)).
Defined.
