(* ===== verification/SeqReader.v ===== *)
(** The reader that turns reads at offsets into reads of one stream ([livepeer/api/http/server.go], [sequentialReader]).

    Goroutines call [ReadAt] at the same time; a call whose offset is ahead of the stream waits on a channel of its own that is kept in the map
    [ahead] under the offset. A state has the bytes that the stream still holds, the lock and the phase of every call; a step is what a
    call does while it holds the lock, or one [Read] of the stream. The stream is the relation [reads], with the contract of an [io.Reader]; besides, it may return
    nothing and no error a number of times. *)
From stdpp Require Import base gmap list fin_maps.
From Stdlib Require Import ZArith Lia.
From S2P Require Import Prelude.

Inductive rerr := EOF | ErrUnexpectedEOF.

(** Where a call is: before the lock, at [<-wait], after it, in the loop with what is in its buffer, in the loop over [ahead] after an error,
    or at its end. *)
Inductive phase :=
| Entering
| Deferred
| Resumed
| Reading (got : bytes)
| Waking (got : bytes) (err : rerr)
| Returned (got : bytes) (err : option rerr)
| Panicked.

Record call := mkCall { c_off : Z; c_len : nat; c_phase : phase }.

Record sequentialReader := mkSr {
  sr_rest : bytes;                (* what the stream still holds *)
  sr_idle : nat;                  (* the reads that will return nothing and no error *)
  sr_pos : Z;
  sr_ahead : gmap Z nat;
  sr_lock : option nat;
  sr_calls : list call
}.

Definition set_phase (i : nat) (p : phase) (s : sequentialReader) : sequentialReader :=
  {| sr_rest := sr_rest s; sr_idle := sr_idle s; sr_pos := sr_pos s; sr_ahead := sr_ahead s; sr_lock := sr_lock s;
     sr_calls := alter (fun c => {| c_off := c_off c; c_len := c_len c; c_phase := p |}) i (sr_calls s) |}.

Definition set_lock (l : option nat) (s : sequentialReader) : sequentialReader :=
  {| sr_rest := sr_rest s; sr_idle := sr_idle s; sr_pos := sr_pos s; sr_ahead := sr_ahead s; sr_lock := l; sr_calls := sr_calls s |}.

Definition set_ahead (m : gmap Z nat) (s : sequentialReader) : sequentialReader :=
  {| sr_rest := sr_rest s; sr_idle := sr_idle s; sr_pos := sr_pos s; sr_ahead := m; sr_lock := sr_lock s; sr_calls := sr_calls s |}.

Definition set_stream (rest : bytes) (pos : Z) (s : sequentialReader) : sequentialReader :=
  {| sr_rest := rest; sr_idle := sr_idle s; sr_pos := pos; sr_ahead := sr_ahead s; sr_lock := sr_lock s; sr_calls := sr_calls s |}.

Definition set_idle (n : nat) (s : sequentialReader) : sequentialReader :=
  {| sr_rest := sr_rest s; sr_idle := n; sr_pos := sr_pos s; sr_ahead := sr_ahead s; sr_lock := sr_lock s; sr_calls := sr_calls s |}.

(** The start of [ReadAt] under the lock: a call behind the stream panics and keeps the lock. *)
Definition ReadAt_enter (i : nat) (off : Z) (s : sequentialReader) : sequentialReader :=
  if off <? sr_pos s then set_phase i Panicked (set_lock (Some i) s)
  else if negb (sr_pos s =? off) then set_phase i Deferred (set_ahead (<[off := i]> (sr_ahead s)) s)
  else set_phase i (Reading []) (set_lock (Some i) s).

(** One [Read] of the loop; [n] bytes that come with an error do not move the position. *)
Definition ReadAt_read (i : nat) (got : bytes) (n : nat) (err : option rerr) (s : sequentialReader) : sequentialReader :=
  let got' := got ++ take n (sr_rest s) in
  match err with
  | Some e => set_phase i (Waking got' e) (set_stream (drop n (sr_rest s)) (sr_pos s) s)
  | None => set_phase i (Reading got') (set_stream (drop n (sr_rest s)) (sr_pos s + Z.of_nat n) s)
  end.

(** The sending of [true] to one of the waiting calls. *)
Definition ReadAt_abort (o : Z) (j : nat) (s : sequentialReader) : sequentialReader :=
  set_phase j (Returned [] (Some ErrUnexpectedEOF)) (set_ahead (delete o (sr_ahead s)) s).

Definition ReadAt_fail (i : nat) (got : bytes) (e : rerr) (s : sequentialReader) : sequentialReader :=
  set_phase i (Returned got (Some e)) (set_lock None s).

(** The end of [ReadAt]: the call that waits for the position is released. *)
Definition ReadAt_finish (i : nat) (got : bytes) (s : sequentialReader) : sequentialReader :=
  let s' := match sr_ahead s !! sr_pos s with
            | Some j => set_phase j Resumed (set_ahead (delete (sr_pos s) (sr_ahead s)) s)
            | None => s
            end in
  set_phase i (Returned got None) (set_lock None s').

(** [reads rest k n err]: a [Read] with [k] bytes of room may return [n] bytes and [err] when the stream holds [rest]. Bytes may come with an error, and an error at any
    time; the reads that return neither bytes nor an error are those of [sr_idle]. *)
Class SourceReader (reads : bytes -> nat -> nat -> option rerr -> Prop) : Prop := {
  reads_total rest k : (0 < k)%nat -> exists n err, reads rest k n err;
  reads_fits rest k n err : reads rest k n err -> (n <= k)%nat /\ (n <= length rest)%nat;
  reads_advances rest k n : reads rest k n None -> (0 < n)%nat
}.

(** A stream that does not break off: an error comes with its last bytes or behind them. *)
Definition unbroken (reads : bytes -> nat -> nat -> option rerr -> Prop) : Prop := forall rest k n e, reads rest k n (Some e) -> n = length rest.

Section Steps.
Context (reads : bytes -> nat -> nat -> option rerr -> Prop).

Definition at_phase (s : sequentialReader) (i : nat) (o : Z) (l : nat) (p : phase) : Prop :=
  sr_calls s !! i = Some {| c_off := o; c_len := l; c_phase := p |}.

Inductive ReadAt_step (s : sequentialReader) : sequentialReader -> Prop :=
| ra_enter i o l : sr_lock s = None -> at_phase s i o l Entering -> ReadAt_step s (ReadAt_enter i o s)
| ra_resume i o l : sr_lock s = None -> at_phase s i o l Resumed -> ReadAt_step s (set_phase i (Reading []) (set_lock (Some i) s))
| ra_read i o l got n err : at_phase s i o l (Reading got) -> (length got < l)%nat -> reads (sr_rest s) (l - length got) n err ->
    ReadAt_step s (ReadAt_read i got n err s)
| ra_idle i o l got m : at_phase s i o l (Reading got) -> (length got < l)%nat -> sr_idle s = S m -> ReadAt_step s (set_idle m s)
| ra_abort i o l got e o' j l' : at_phase s i o l (Waking got e) -> sr_ahead s !! o' = Some j -> at_phase s j o' l' Deferred ->
    ReadAt_step s (ReadAt_abort o' j s)
| ra_fail i o l got e : at_phase s i o l (Waking got e) -> sr_ahead s = ∅ -> ReadAt_step s (ReadAt_fail i got e s)
| ra_finish i o l got : at_phase s i o l (Reading got) -> (l <= length got)%nat -> ReadAt_step s (ReadAt_finish i got s).
End Steps.

(** The calls that read a stream in blocks of the given lengths. *)
Fixpoint block_calls (off : Z) (lens : list nat) : list call :=
  match lens with
  | [] => []
  | l :: lens => {| c_off := off; c_len := l; c_phase := Entering |} :: block_calls (off + Z.of_nat l) lens
  end.

Definition sr_start (data : bytes) (idle : nat) (calls : list call) : sequentialReader :=
  {| sr_rest := data; sr_idle := idle; sr_pos := 0; sr_ahead := ∅; sr_lock := None; sr_calls := calls |}.

Definition block (data : bytes) (lens : list nat) (i : nat) : bytes :=
  take (lens !!! i) (drop (sum_list (take i lens)) data).

(** ** Lemmas *)

(** What a call may still do. *)
Definition call_weight (c : call) : nat :=
  match c_phase c with
  | Entering => c_len c + 6
  | Deferred => c_len c + 5
  | Resumed => c_len c + 4
  | Reading got => c_len c - length got + 3
  | Waking _ _ => 1
  | Returned _ _ | Panicked => 0
  end.

Definition calls_weight (s : sequentialReader) : nat := sr_idle s + sum_list_with call_weight (sr_calls s).

Definition with_phase (p : phase) (c : call) : call := {| c_off := c_off c; c_len := c_len c; c_phase := p |}.

Lemma weight_alter (f : call -> call) i l c : l !! i = Some c ->
  (sum_list_with call_weight (alter f i l) + call_weight c = sum_list_with call_weight l + call_weight (f c))%nat.
Proof.
  revert i. induction l as [|x l IH]; intros [|i] H; simplify_eq/=; [lia|]. specialize (IH i H). unfold alter, list_alter in *. cbn. lia.
Qed.

(** A call that waits in [ahead] is deferred, and it is there under its offset. *)
Definition ahead_ok (s : sequentialReader) : Prop := forall o j, sr_ahead s !! o = Some j -> exists l, at_phase s j o l Deferred.

Lemma at_phase_set s i j p o l q :
  at_phase (set_phase i p s) j o l q <-> if decide (i = j) then q = p /\ exists q', at_phase s j o l q' else at_phase s j o l q.
Proof.
  unfold at_phase, set_phase. cbn. destruct (decide (i = j)) as [->|Hne]; [|by rewrite list_lookup_alter_ne].
  rewrite list_lookup_alter_eq. destruct (sr_calls s !! j) as [[o' l' q']|]; cbn; [|naive_solver]. split; [intros [= -> -> ->]; eauto|intros [-> (q0 & [= -> -> _])]; done].
Qed.

Lemma weight_set_phase s i p o l q : at_phase s i o l q ->
  (calls_weight (set_phase i p s) + call_weight {| c_off := o; c_len := l; c_phase := q |} =
   calls_weight s + call_weight {| c_off := o; c_len := l; c_phase := p |})%nat.
Proof. intros H. pose proof (weight_alter (fun c => {| c_off := c_off c; c_len := c_len c; c_phase := p |}) i _ _ H) as Hw. unfold calls_weight. cbn in *. lia. Qed.

Section Decreasing.
Context (reads : bytes -> nat -> nat -> option rerr -> Prop) `{!SourceReader reads}.

Lemma ReadAt_decreases s s' : ahead_ok s -> ReadAt_step reads s s' -> (calls_weight s' < calls_weight s)%nat.
Proof using Type*.
  intros Hah Hs. destruct Hs as [i o l Hl Hp|i o l Hl Hp|i o l got n err Hp Hlt Hr|i o l got m Hp Hlt Hm|i o l got e o' j l' Hp Ho Hj|i o l got e Hp He|i o l got Hp Hle].
  - unfold ReadAt_enter. repeat case_match; match goal with |- context [set_phase i ?p ?t] => pose proof (weight_set_phase t i p o l Entering Hp) end; cbn in *; unfold calls_weight in *; cbn in *; lia.
  - pose proof (weight_set_phase (set_lock (Some i) s) i (Reading []) o l Resumed Hp) as H. unfold calls_weight in *; cbn in *; lia.
  - unfold ReadAt_read. destruct err as [e|].
    + pose proof (weight_set_phase (set_stream (drop n (sr_rest s)) (sr_pos s) s) i (Waking (got ++ take n (sr_rest s)) e) o l (Reading got) Hp). unfold calls_weight in *; cbn in *; lia.
    + pose proof (reads_advances _ _ _ Hr). destruct (reads_fits _ _ _ _ Hr).
      pose proof (weight_set_phase (set_stream (drop n (sr_rest s)) (sr_pos s + Z.of_nat n) s) i (Reading (got ++ take n (sr_rest s))) o l (Reading got) Hp) as Hw.
      unfold calls_weight in *; cbn in *. rewrite length_app, length_take in Hw. lia.
  - unfold calls_weight. cbn. lia.
  - pose proof (weight_set_phase (set_ahead (delete o' (sr_ahead s)) s) j (Returned [] (Some ErrUnexpectedEOF)) o' l' Deferred Hj) as H. unfold calls_weight in *; cbn in *; lia.
  - pose proof (weight_set_phase (set_lock None s) i (Returned got (Some e)) o l (Waking got e) Hp) as H. unfold calls_weight in *; cbn in *; lia.
  - unfold ReadAt_finish. destruct (sr_ahead s !! sr_pos s) as [j|] eqn:Ej.
    + destruct (Hah _ _ Ej) as (l' & Hj). set (t := set_phase j Resumed _).
      assert (Hp' : at_phase (set_lock None t) i o l (Reading got)).
      { change (at_phase t i o l (Reading got)). unfold t. rewrite at_phase_set. case_decide as E; [|done]. subst j. unfold at_phase in *. congruence. }
      pose proof (weight_set_phase (set_ahead (delete (sr_pos s) (sr_ahead s)) s) j Resumed (sr_pos s) l' Deferred Hj) as H1. fold t in H1.
      pose proof (weight_set_phase (set_lock None t) i (Returned got None) o l (Reading got) Hp') as H2.
      change (calls_weight (set_lock None t)) with (calls_weight t) in H2. unfold calls_weight in *; cbn in *; lia.
    + pose proof (weight_set_phase (set_lock None s) i (Returned got None) o l (Reading got) Hp) as H. unfold calls_weight in *; cbn in *; lia.
Qed.
End Decreasing.

(** ** Blocks in order *)

Section Blocks.
Context (reads : bytes -> nat -> nat -> option rerr -> Prop) `{!SourceReader reads}.
Context (data : bytes) (lens : list nat).

Definition offset (j : nat) : nat := sum_list (take j lens).

(** The phase of call [j] when the stream is in block [k], of which [got] was read. *)
Definition expected (k : nat) (got : bytes) (lock : option nat) (j : nat) (p : phase) : Prop :=
  ((j < k)%nat -> p = Returned (block data lens j) None) /\
  ((k < j)%nat -> p = Entering \/ p = Deferred) /\
  (j = k -> (lock = None /\ got = [] /\ (p = Entering \/ p = Resumed)) \/ (lock = Some k /\ p = Reading got)).

Record in_block (s : sequentialReader) (k : nat) (got : bytes) : Prop := {
  ib_k : (k <= length lens)%nat;
  ib_calls : forall j, (j < length lens)%nat -> exists p, at_phase s j (Z.of_nat (offset j)) (lens !!! j) p /\ expected k got (sr_lock s) j p;
  ib_bound : length (sr_calls s) = length lens;
  ib_ahead : forall o j, sr_ahead s !! o = Some j <-> (k < j)%nat /\ o = Z.of_nat (offset j) /\ at_phase s j o (lens !!! j) Deferred;
  ib_got : got = take (length got) (drop (offset k) data);
  ib_len : (length got <= lens !!! k)%nat;
  ib_pos : sr_pos s = Z.of_nat (offset k + length got);
  ib_rest : sr_rest s = drop (offset k + length got) data;
  ib_lock : sr_lock s = None \/ (k < length lens)%nat
}.

Lemma offset_S k : (k < length lens)%nat -> offset (S k) = (offset k + lens !!! k)%nat.
Proof using Type.
  intros Hk. unfold offset. destruct (lookup_lt_is_Some_2 lens k Hk) as [l E]. rewrite (take_S_r _ _ _ E), list_lookup_total_alt, E.
  rewrite sum_list_with_app. cbn. lia.
Qed.
Lemma offset_mono j k : (j <= k)%nat -> (k <= length lens)%nat -> (offset j <= offset k)%nat.
Proof using Type. induction 1 as [|k _ IH]; intros Hk; [done|]. rewrite offset_S by lia. specialize (IH ltac:(lia)). lia. Qed.

Context (Hlens : Forall (fun l => 0 < l)%nat lens).

Lemma lens_pos k : (k < length lens)%nat -> (0 < lens !!! k)%nat.
Proof using Hlens. intros Hk. destruct (lookup_lt_is_Some_2 lens k Hk) as [l E]. rewrite list_lookup_total_alt, E. by apply (Forall_lookup_1 _ _ _ _ Hlens E). Qed.

Lemma offset_lt j k : (j < k)%nat -> (k <= length lens)%nat -> (offset j < offset k)%nat.
Proof using Hlens. intros Hj Hk. pose proof (offset_mono (S j) k ltac:(lia) Hk) as H. rewrite offset_S in H by lia. pose proof (lens_pos j ltac:(lia)). lia. Qed.

Context (Hdata : (sum_list lens <= length data)%nat).

Lemma offset_end k : (k < length lens)%nat -> (offset k + lens !!! k <= length data)%nat.
Proof using Hdata.
  intros Hk. rewrite <- offset_S by done. pose proof (offset_mono (S k) (length lens) ltac:(lia) ltac:(lia)) as H.
  unfold offset in H at 2. rewrite firstn_all in H. lia.
Qed.

(** The call in a phase that only the current block has. *)
Lemma current_call s k got i o l p : in_block s k got -> at_phase s i o l p -> p <> Deferred -> (forall b e, p <> Returned b e) -> p <> Entering \/ (i <= k)%nat ->
  i = k /\ (k < length lens)%nat /\ o = Z.of_nat (offset k) /\ l = lens !!! k /\ expected k got (sr_lock s) k p.
Proof using Hlens Hdata.
  intros H Hp Hd Hr He. assert (Hi : (i < length lens)%nat) by (rewrite <- (ib_bound _ _ _ H); by eapply lookup_lt_Some).
  destruct (ib_calls _ _ _ H i Hi) as (q & Hq & E). unfold at_phase in *. rewrite Hp in Hq. injection Hq as -> -> ->.
  assert (i = k) as ->.
  { destruct E as (E1 & E2 & _). destruct (lt_eq_lt_dec i k) as [[Hlt|Heq]|Hgt]; [by eapply Hr in E1|done|].
    destruct (E2 Hgt) as [-> | ->]; [|done]. destruct He as [He|He]; [done|lia]. }
  done.
Qed.

(** A change of one phase that suits the new block. *)
Lemma expected_set s s' i p k k' got got' : in_block s k got ->
  (forall j o l q, at_phase s' j o l q <-> if decide (i = j) then q = p /\ exists q', at_phase s j o l q' else at_phase s j o l q) ->
  expected k' got' (sr_lock s') i p ->
  (forall j q, j <> i -> (j < length lens)%nat -> expected k got (sr_lock s) j q -> expected k' got' (sr_lock s') j q) ->
  forall j, (j < length lens)%nat -> exists q, at_phase s' j (Z.of_nat (offset j)) (lens !!! j) q /\ expected k' got' (sr_lock s') j q.
Proof using Hlens Hdata.
  intros H Hs Hp Hq j Hj. destruct (ib_calls _ _ _ H j Hj) as (q & Hat & E). destruct (decide (i = j)) as [->|Hne].
  - exists p. split; [|done]. rewrite Hs, decide_True by done. eauto.
  - exists q. split; [|by apply Hq]. by rewrite Hs, decide_False.
Qed.

Lemma set_phase_bound s i p : length (sr_calls (set_phase i p s)) = length (sr_calls s).
Proof using Hlens Hdata. apply length_alter. Qed.

(** A call that was not deferred does not count in [ahead]. *)
Lemma ahead_set s t i p k got : in_block s k got -> sr_calls t = sr_calls s -> sr_ahead t = sr_ahead s -> p <> Deferred -> ~ (exists o l, at_phase s i o l Deferred) ->
  forall o j, sr_ahead (set_phase i p t) !! o = Some j <-> (k < j)%nat /\ o = Z.of_nat (offset j) /\ at_phase (set_phase i p t) j o (lens !!! j) Deferred.
Proof using Hlens Hdata.
  intros H Hc Ha Hp Hn o j. rewrite at_phase_set. unfold at_phase at 1 2. rewrite Hc. cbn. rewrite Ha, (ib_ahead _ _ _ H). case_decide as E; [|done].
  subst j. split; [intros (_ & _ & Hd); exfalso; eauto|intros (_ & _ & E & _); congruence].
Qed.

Lemma step_current s k got i o l p : in_block s k got -> at_phase s i o l p -> sr_lock s = None -> p = Entering \/ p = Resumed -> (p = Entering -> i = k) ->
  got = [] /\ in_block (set_phase i (Reading []) (set_lock (Some i) s)) k [].
Proof using Hlens Hdata.
  intros H Hp Hl Hph Hi. assert (Hne : p <> Deferred /\ (forall b e, p <> Returned b e) /\ (p <> Entering \/ (i <= k)%nat)).
  { split_and!; [destruct Hph; congruence|destruct Hph; congruence|]. destruct Hph as [Hph|Hph]; [right; rewrite Hi by done; lia|left; congruence]. }
  destruct (current_call s k got i o l p H Hp) as (-> & Hk & -> & -> & E); [apply Hne..|].
  destruct E as (_ & _ & E). destruct (E eq_refl) as [(_ & -> & _)|[E' _]]; [|congruence]. split; [done|]. split; try apply H.
  - eapply (expected_set s _ k (Reading [])); [exact H|intros; apply (at_phase_set (set_lock (Some k) s))| |].
    + split_and!; [lia|lia|right; done].
    + intros j q Hjk Hj (E1 & E2 & _). split_and!; [done|done|lia].
  - rewrite set_phase_bound. apply H.
  - apply (ahead_set s (set_lock (Some k) s) k _ k [] H eq_refl eq_refl); [done|]. intros (o & l & Hd). unfold at_phase in *. rewrite Hp in Hd. by destruct Hph; simplify_eq.
  - by right.
Qed.

Lemma step_enter s k got i o l : in_block s k got -> at_phase s i o l Entering -> sr_lock s = None -> exists got', in_block (ReadAt_enter i o s) k got'.
Proof using Hlens Hdata.
  intros H Hp Hl. assert (Hi : (i < length lens)%nat) by (rewrite <- (ib_bound _ _ _ H); by eapply lookup_lt_Some).
  destruct (ib_calls _ _ _ H i Hi) as (q & Hq & E). unfold at_phase in Hq. rewrite Hp in Hq. injection Hq as -> -> <-.
  destruct E as (E1 & E2 & E3). destruct (lt_eq_lt_dec i k) as [[Hlt|Heq]|Hgt]; [by specialize (E1 Hlt)| |]; unfold ReadAt_enter; rewrite (ib_pos _ _ _ H).
  - subst i. destruct (step_current s k got k _ _ _ H Hp Hl ltac:(by left) ltac:(done)) as [-> Hb]. cbn [length]. rewrite Nat.add_0_r, Z.ltb_irrefl, Z.eqb_refl. by exists [].
  - assert (Hk : (k < length lens)%nat) by lia. destruct (ib_calls _ _ _ H k Hk) as (q & _ & _ & _ & E). destruct (E eq_refl) as [(_ & -> & _)|[E' _]]; [|congruence].
    pose proof (offset_lt k i Hgt ltac:(lia)). cbn [length]. rewrite Nat.add_0_r. destruct (Z.ltb_spec (Z.of_nat (offset i)) (Z.of_nat (offset k))); [lia|].
    destruct (Z.eqb_spec (Z.of_nat (offset k)) (Z.of_nat (offset i))); [lia|]. cbn [negb]. exists []. split; try apply H.
    + eapply (expected_set s _ i Deferred); [exact H|intros; apply (at_phase_set (set_ahead _ s))| |].
      * split_and!; [lia|by right|lia].
      * done.
    + rewrite set_phase_bound. apply H.
    + intros o j. rewrite at_phase_set. cbn. destruct (decide (o = Z.of_nat (offset i))) as [->|Hne].
      * rewrite lookup_insert_eq. split.
        -- intros [= <-]. split_and!; [done|done|]. rewrite decide_True by done. eauto.
        -- intros (Hj & Ho & Hd). case_decide as Eij; [by subst|]. assert ((j < length lens)%nat) by (rewrite <- (ib_bound _ _ _ H); by eapply lookup_lt_Some).
           destruct (lt_eq_lt_dec i j) as [[Hij|Hij]|Hij]; [pose proof (offset_lt i j Hij ltac:(lia)); lia|congruence|pose proof (offset_lt j i Hij ltac:(lia)); lia].
      * rewrite lookup_insert_ne by done. rewrite (ib_ahead _ _ _ H). case_decide as Eij; [|done]. subst j. split; [intros (_ & ? & _); done|intros (_ & ? & _); done].
Qed.
Lemma reading_call s k got i o l b : in_block s k got -> at_phase s i o l (Reading b) ->
  i = k /\ b = got /\ (k < length lens)%nat /\ l = lens !!! k /\ sr_lock s = Some k.
Proof using Hlens Hdata.
  intros H Hp. destruct (current_call s k got i o l (Reading b) H Hp) as (-> & Hk & -> & -> & _ & _ & E); [done|done|by left|].
  destruct (E eq_refl) as [(_ & _ & [|])|[Hl [= ->]]]; done.
Qed.

Lemma step_read s k got n : in_block s k got -> at_phase s k (Z.of_nat (offset k)) (lens !!! k) (Reading got) -> (length got < lens !!! k)%nat ->
  reads (sr_rest s) (lens !!! k - length got) n None -> in_block (ReadAt_read k got n None s) k (got ++ take n (sr_rest s)).
Proof using Type*.
  intros H Hp Hlt Hr. destruct (reading_call s k got k _ _ _ H Hp) as (_ & _ & Hk & _ & Hl). pose proof (offset_end k Hk) as Hend.
  destruct (reads_fits _ _ _ _ Hr) as [Hn Hn']. unfold ReadAt_read.
  assert (Hlen : length (got ++ take n (sr_rest s)) = (length got + n)%nat) by (rewrite length_app, length_take; lia).
  split; try apply H.
  - eapply (expected_set s _ k); [exact H|intros; apply (at_phase_set (set_stream _ _ s))| |].
    + split_and!; [lia|lia|right; done].
    + intros j q Hjk Hj (E1 & E2 & _). split_and!; [done|done|lia].
  - rewrite set_phase_bound. apply H.
  - apply (ahead_set s (set_stream _ _ s) k _ k got H eq_refl eq_refl); [done|]. intros (o & l & Hd). unfold at_phase in *. congruence.
  - rewrite Hlen, (ib_rest _ _ _ H), <- drop_drop, <- take_take_drop. f_equal. apply H.
  - lia.
  - cbn. rewrite Hlen, (ib_pos _ _ _ H). lia.
  - cbn. rewrite Hlen, (ib_rest _ _ _ H), drop_drop. f_equal. lia.
Qed.

Lemma step_idle s k got m : in_block s k got -> in_block (set_idle m s) k got.
Proof using Type. intros []. by split. Qed.

Lemma block_full s k got : in_block s k got -> (lens !!! k <= length got)%nat -> got = block data lens k.
Proof using Hdata. intros H Hle. pose proof (ib_len _ _ _ H). unfold block. rewrite (ib_got _ _ _ H). f_equal. lia. Qed.

(** The stream ends with an error that comes with the last bytes of the last block: its call returns them with the error. *)
Record at_end (s : sequentialReader) (m : nat) (e : rerr) (p : phase) : Prop := {
  ae_last : length lens = S m;
  ae_sum : sum_list lens = length data;
  ae_before : forall j, (j < m)%nat -> at_phase s j (Z.of_nat (offset j)) (lens !!! j) (Returned (block data lens j) None);
  ae_call : at_phase s m (Z.of_nat (offset m)) (lens !!! m) p;
  ae_phase : (p = Waking (block data lens m) e /\ sr_lock s = Some m) \/ (p = Returned (block data lens m) (Some e) /\ sr_lock s = None);
  ae_ahead : sr_ahead s = ∅;
  ae_bound : length (sr_calls s) = length lens
}.

Context (Hwhole : unbroken reads).

Lemma step_last s k got n e : in_block s k got -> at_phase s k (Z.of_nat (offset k)) (lens !!! k) (Reading got) -> (length got < lens !!! k)%nat ->
  reads (sr_rest s) (lens !!! k - length got) n (Some e) -> exists p, at_end (ReadAt_read k got n (Some e) s) k e p.
Proof using Type*.
  intros H Hp Hlt Hr. destruct (reading_call s k got k _ _ _ H Hp) as (_ & _ & Hk & _ & Hl). pose proof (offset_end k Hk) as Hend.
  destruct (reads_fits _ _ _ _ Hr) as [Hn _]. pose proof (Hwhole _ _ _ _ Hr) as Hall. rewrite (ib_rest _ _ _ H), length_drop in Hall.
  assert (Hoff : offset (length lens) = sum_list lens) by (unfold offset; by rewrite firstn_all).
  assert (HS : length lens = S k).
  { destruct (decide (length lens = S k)) as [|Hne]; [done|]. exfalso. pose proof (offset_lt (S k) (length lens) ltac:(lia) ltac:(lia)) as Hx. rewrite (offset_S k Hk) in Hx. lia. }
  assert (Hsum : sum_list lens = length data) by (rewrite HS, (offset_S k Hk) in Hoff; lia).
  assert (Hgot : got ++ take n (sr_rest s) = block data lens k).
  { unfold block. fold (offset k). rewrite (ib_rest _ _ _ H), <- drop_drop. rewrite (ib_got _ _ _ H) at 1. rewrite take_take_drop. f_equal. rewrite HS, (offset_S k Hk) in Hoff. lia. }
  assert (Hnext : sr_ahead s = ∅).
  { apply map_empty. intros o. destruct (sr_ahead s !! o) as [j|] eqn:Ej; [|done]. exfalso. apply (ib_ahead _ _ _ H) in Ej as (Hj & _ & Hd).
    assert ((j < length lens)%nat) by (rewrite <- (ib_bound _ _ _ H); by eapply lookup_lt_Some). lia. }
  exists (Waking (block data lens k) e). unfold ReadAt_read. rewrite Hgot. split; try done.
  - intros j Hj. rewrite at_phase_set, decide_False by lia. destruct (ib_calls _ _ _ H j ltac:(lia)) as (q & Hq & E1 & _). by rewrite (E1 Hj) in Hq.
  - rewrite at_phase_set, decide_True by done. eauto.
  - left. done.
  - rewrite set_phase_bound. apply H.
Qed.

Lemma at_end_step s m e p s' : at_end s m e p -> ReadAt_step reads s s' -> exists p', at_end s' m e p'.
Proof using Type*.
  intros H Hs. assert (Hph : forall i o l q, at_phase s i o l q -> (exists b err, q = Returned b err) \/ (i = m /\ q = Waking (block data lens m) e)).
  { intros i o l q Hq. assert (Hi : (i < S m)%nat) by (rewrite <- (ae_last _ _ _ _ H), <- (ae_bound _ _ _ _ H); by eapply lookup_lt_Some). unfold at_phase in Hq.
    destruct (decide (i = m)) as [-> |Hne].
    - pose proof (ae_call _ _ _ _ H) as Hc. unfold at_phase in Hc. rewrite Hq in Hc. injection Hc as -> -> ->. destruct (ae_phase _ _ _ _ H) as [[-> _]|[-> _]]; eauto.
    - pose proof (ae_before _ _ _ _ H i ltac:(lia)) as Hc. unfold at_phase in Hc. rewrite Hq in Hc. injection Hc as -> -> ->. eauto. }
  destruct Hs as [i o l Hl Hp|i o l Hl Hp|i o l b n err Hp Hlt Hr|i o l b n Hp Hlt Hm|i o l b e' o' j l' Hp Ho Hj|i o l b e' Hp He|i o l b Hp Hle];
    destruct (Hph _ _ _ _ Hp) as [(? & ? & ?)|[-> Hq]]; try done.
  - by rewrite (ae_ahead _ _ _ _ H), lookup_empty in Ho.
  - injection Hq as -> ->. exists (Returned (block data lens m) (Some e)). unfold ReadAt_fail. split; try apply H.
    + intros j Hj. rewrite at_phase_set, decide_False by lia. by apply (ae_before _ _ _ _ H).
    + rewrite at_phase_set, decide_True by done. split; [done|]. exists p. apply H.
    + by right.
    + rewrite set_phase_bound. apply H.
Qed.

Lemma step_finish s k got : in_block s k got -> at_phase s k (Z.of_nat (offset k)) (lens !!! k) (Reading got) -> (lens !!! k <= length got)%nat ->
  in_block (ReadAt_finish k got s) (S k) [].
Proof using Type*.
  intros H Hp Hle. destruct (reading_call s k got k _ _ _ H Hp) as (_ & _ & Hk & _ & Hl). pose proof (block_full s k got H Hle) as Hgot.
  pose proof (ib_len _ _ _ H) as Hlen. pose proof (offset_S k Hk) as Hoff. 
  assert (Epos : sr_pos s = Z.of_nat (offset (S k))) by (rewrite (ib_pos _ _ _ H), Hoff; lia).
  assert (Hnext : forall j, sr_ahead s !! sr_pos s = Some j <-> j = S k /\ at_phase s (S k) (sr_pos s) (lens !!! (S k)) Deferred).
  { intros j. rewrite (ib_ahead _ _ _ H). split; [|intros [-> Hd]; split_and!; [lia|done|done]]. intros (Hj & Ho & Hd).
    assert ((j < length lens)%nat) by (rewrite <- (ib_bound _ _ _ H); by eapply lookup_lt_Some).
    destruct (decide (j = S k)) as [->|Hne]; [done|]. pose proof (offset_lt (S k) j ltac:(lia) ltac:(lia)). lia. }
  assert (Hkd : forall o l, ~ at_phase s k o l Deferred) by (intros o l Hd; unfold at_phase in *; congruence).
  split.
  - lia.
  - intros j Hj. destruct (ib_calls _ _ _ H j Hj) as (q & Hat & E1 & E2 & _). unfold ReadAt_finish. cbn.
    destruct (decide (j = k)) as [->|Hjk].
    { exists (Returned (block data lens k) None). split; [|split_and!; [done|lia|lia]]. rewrite Hgot. rewrite at_phase_set, decide_True by done. split; [done|].
      exists (Reading got). destruct (sr_ahead s !! sr_pos s) as [j'|] eqn:Ej; [|done]. destruct (proj1 (Hnext j') eq_refl) as [-> _].
      change (at_phase (set_phase (S k) Resumed (set_ahead (delete (sr_pos s) (sr_ahead s)) s)) k (Z.of_nat (offset k)) (lens !!! k) (Reading got)).
      rewrite at_phase_set, decide_False by lia. done. }
    destruct (sr_ahead s !! sr_pos s) as [j'|] eqn:Ej.
    + destruct (proj1 (Hnext j') eq_refl) as [-> Hd]. exists (if decide (j = S k) then Resumed else q). rewrite at_phase_set, decide_False by done.
      change (at_phase (set_lock None ?t)) with (at_phase t). rewrite at_phase_set. split.
      * do 2 case_decide; try congruence; eauto.
      * case_decide as Ejs; (split_and!; [intros; try lia; apply E1; lia|intros; try lia; apply E2; lia|]); [left; split_and!; [done|done|by right]|done].
    + exists q. rewrite at_phase_set, decide_False by done. split; [done|]. split_and!; [intros; apply E1; lia|intros; apply E2; lia|].
      intros ->. left. split_and!; [done|done|]. left. destruct (E2 ltac:(lia)) as [-> | ->]; [done|]. exfalso.
      rewrite <- Epos in Hat. by discriminate (proj2 (Hnext (S k)) (conj eq_refl Hat)).
  - unfold ReadAt_finish. rewrite set_phase_bound. destruct (sr_ahead s !! sr_pos s); cbn; [rewrite length_alter|]; apply H.
  - intros o j. unfold ReadAt_finish. rewrite at_phase_set. change (at_phase (set_lock None ?t)) with (at_phase t). cbn [sr_ahead set_phase set_lock set_ahead].
    destruct (decide (k = j)) as [->|Hkj].
    { split; [|lia]. destruct (sr_ahead s !! sr_pos s); cbn; [rewrite lookup_delete_Some|]; rewrite (ib_ahead _ _ _ H); lia. }
    destruct (sr_ahead s !! sr_pos s) as [j'|] eqn:Ej.
    + destruct (proj1 (Hnext j') eq_refl) as [-> Hd]. rewrite at_phase_set. change (at_phase (set_ahead ?m s)) with (at_phase s). cbn [sr_ahead set_phase set_lock set_ahead].
      rewrite lookup_delete_Some, (ib_ahead _ _ _ H), Epos. split.
      * intros (Ho & Hj & -> & Hat). assert (j <> S k) by (by intros ->). rewrite decide_False by lia. split_and!; [lia|done|done].
      * intros (Hj & -> & Hat). rewrite decide_False in Hat by lia.
        assert ((j < length lens)%nat) by (rewrite <- (ib_bound _ _ _ H); by eapply lookup_lt_Some). pose proof (offset_lt (S k) j Hj ltac:(lia)). split_and!; [lia|lia|done|done].
    + rewrite (ib_ahead _ _ _ H). split.
      * intros (Hj & -> & Hat). split_and!; [|done|done]. destruct (decide (j = S k)) as [->|]; [|lia]. rewrite <- Epos in Hat.
        by discriminate (proj2 (Hnext (S k)) (conj eq_refl Hat)).
      * intros (Hj & -> & Hat). split_and!; [lia|done|done].
  - done.
  - cbn. lia.
  - unfold ReadAt_finish. cbn. rewrite Nat.add_0_r, <- Epos. by destruct (sr_ahead s !! sr_pos s).
  - unfold ReadAt_finish. cbn. rewrite Nat.add_0_r, Hoff. replace (lens !!! k) with (length got) by lia. destruct (sr_ahead s !! sr_pos s); apply H.
  - by left.
Qed.

Lemma in_block_ahead s k got : in_block s k got -> ahead_ok s.
Proof using Type. intros H o j Ho. apply (ib_ahead _ _ _ H) in Ho as (_ & _ & Hd). eauto. Qed.

(** The states of a run. *)
Definition block_run (s : sequentialReader) : Prop := (exists k got, in_block s k got) \/ exists m e p, at_end s m e p.

Lemma block_run_ahead s : block_run s -> ahead_ok s.
Proof using Type. intros [(k & got & H)|(m & e & p & H)]; [by eapply in_block_ahead|]. intros o j. by rewrite (ae_ahead _ _ _ _ H), lookup_empty. Qed.

Lemma in_block_step s s' k got : in_block s k got -> ReadAt_step reads s s' -> block_run s'.
Proof using Type*.
  intros H Hs. destruct Hs as [i o l Hl Hp|i o l Hl Hp|i o l b n err Hp Hlt Hr|i o l b m Hp Hlt Hm|i o l b e o' j l' Hp Ho Hj|i o l b e Hp He|i o l b Hp Hle].
  - left. exists k. by eapply step_enter.
  - left. exists k, []. by eapply (step_current s k got i o l Resumed H Hp Hl); [right|].
  - destruct (current_call s k got i o l _ H Hp) as (-> & _ & -> & -> & _); [done|done|by left|]. destruct (reading_call s k got k _ _ _ H Hp) as (_ & -> & _).
    destruct err as [e|]; [right; exists k, e; by apply step_last|]. left. exists k. eexists. by apply step_read.
  - left. exists k, got. by apply step_idle.
  - destruct (current_call s k got i o l _ H Hp) as (_ & _ & _ & _ & _ & _ & E); [done|done|by left|]. destruct (E eq_refl) as [(_ & _ & [|])|[_ ?]]; done.
  - destruct (current_call s k got i o l _ H Hp) as (_ & _ & _ & _ & _ & _ & E); [done|done|by left|]. destruct (E eq_refl) as [(_ & _ & [|])|[_ ?]]; done.
  - destruct (current_call s k got i o l _ H Hp) as (-> & _ & -> & -> & _); [done|done|by left|]. destruct (reading_call s k got k _ _ _ H Hp) as (_ & -> & _).
    left. exists (S k), []. by apply step_finish.
Qed.

Lemma block_run_step s s' : block_run s -> ReadAt_step reads s s' -> block_run s'.
Proof using Type*.
  intros [(k & got & H)|(m & e & p & H)] Hs; [by eapply in_block_step|]. destruct (at_end_step _ _ _ _ _ H Hs) as [p' H']. right. by exists m, e, p'.
Qed.

(** While a block is left, its call can move. *)
Lemma in_block_progress s k got : in_block s k got -> (k < length lens)%nat -> exists s', ReadAt_step reads s s'.
Proof using Type*.
  intros H Hk. destruct (ib_calls _ _ _ H k Hk) as (p & Hp & _ & _ & E). destruct (E eq_refl) as [(Hl & _ & [-> | ->])|[Hl ->]].
  - eexists. by eapply ra_enter.
  - eexists. by eapply ra_resume.
  - destruct (decide (length got < lens !!! k)%nat) as [Hlt|Hge]; [|eexists; eapply ra_finish; [done|lia]].
    destruct (reads_total (sr_rest s) (lens !!! k - length got)) as (n & err & Hr); [lia|]. eexists. by eapply ra_read.
Qed.

Lemma block_calls_lookup ls o j : (j < length ls)%nat ->
  block_calls o ls !! j = Some {| c_off := o + Z.of_nat (sum_list (take j ls)); c_len := ls !!! j; c_phase := Entering |}.
Proof using Type.
  clear. revert o j. induction ls as [|l ls IH]; intros o j Hj; cbn in Hj; [lia|]. destruct j as [|j]; cbn; [by rewrite Z.add_0_r|].
  rewrite IH by lia. do 2 f_equal. cbn. lia.
Qed.

Lemma in_block_start idle : in_block (sr_start data idle (block_calls 0 lens)) 0 [].
Proof using Hdata.
  split; try done; cbn; [lia|..| |lia|by left].
  - intros j Hj. exists Entering. split; [by apply block_calls_lookup|]. split_and!; [lia|by left|left; split_and!; [done|done|by left]].
  - clear. generalize 0. induction lens as [|l ls IH]; intros o; cbn; [done|by rewrite IH].
  - intros o j. split; [done|]. intros (_ & _ & Hd). unfold at_phase in Hd. cbn in Hd.
    destruct (decide (j < length lens)%nat) as [Hj|Hj]; [by rewrite block_calls_lookup in Hd|].
    apply lookup_lt_Some in Hd. assert (E : forall ls o, length (block_calls o ls) = length ls) by (clear; induction ls; intros; cbn; auto). rewrite E in Hd. lia.
Qed.
End Blocks.

(** C20: Goroutines that read a stream through the sequential reader in consecutive blocks, one call each, started and scheduled in any order, all
    return: if the stream holds the bytes of all blocks and does not break off before its end, no run is infinite, and a run that cannot go on has given every call the bytes of its block, whatever
    the sizes of the pieces in which the stream arrives, and though some reads return nothing. No call returns an error, but for the last block when the stream ends with it: its
    call may return the error that came with the last bytes. *)
Theorem blocks_in_any_order reads `{!SourceReader reads} data idle lens :
  unbroken reads -> Forall (fun l => 0 < l)%nat lens -> (sum_list lens <= length data)%nat ->
  let start := sr_start data idle (block_calls 0 lens) in
  Acc (fun b a => ReadAt_step reads a b) start /\
  forall s, rtc (ReadAt_step reads) start s -> (forall s', ~ ReadAt_step reads s s') ->
    sr_lock s = None /\ length (sr_calls s) = length lens /\
    forall i c, sr_calls s !! i = Some c -> exists err, c_phase c = Returned (block data lens i) err /\
      (err <> None -> S i = length lens /\ sum_list lens = length data).
Proof.
  intros Hw Hl Hd start. assert (H0 : block_run data lens start) by (left; exists 0%nat, []; by apply in_block_start). split.
  - apply (measure_finite_inv _ (block_run data lens) calls_weight); [|done].
    intros a b H Hs. split; [by eapply block_run_step|]. apply (ReadAt_decreases reads a b); [by eapply block_run_ahead|done].
  - intros s Hr Hstuck. assert (block_run data lens s) as [(k & got & H)|(m & e & p & H)].
    { refine (rtc_keeps _ (block_run data lens) _ _ _ Hr H0). intros x y H Hs. by eapply block_run_step. }
    + destruct (decide (k < length lens)%nat) as [Hk|Hk]; [destruct (in_block_progress reads data lens Hl Hd Hw s k got H Hk) as [s' Hs]; by destruct (Hstuck s')|].
      split_and!; [by destruct (ib_lock _ _ _ _ _ H)|apply H|]. intros i c Hc. exists None. split; [|done].
      assert (Hi : (i < length lens)%nat) by (rewrite <- (ib_bound _ _ _ _ _ H); by eapply lookup_lt_Some).
      destruct (ib_calls _ _ _ _ _ H i Hi) as (q & Hp & E & _). unfold at_phase in Hp. rewrite Hc in Hp. injection Hp as ->. apply E. lia.
    + destruct (ae_phase _ _ _ _ _ _ H) as [[-> _]|[-> Hlk]].
      { exfalso. eapply Hstuck. eapply (ra_fail _ _ m); [apply H|apply H]. }
      split_and!; [done|apply H|]. intros i c Hc.
      assert (Hi : (i < S m)%nat) by (rewrite <- (ae_last _ _ _ _ _ _ H), <- (ae_bound _ _ _ _ _ _ H); by eapply lookup_lt_Some).
      destruct (decide (i = m)) as [-> |Hne].
      * exists (Some e). pose proof (ae_call _ _ _ _ _ _ H) as Hp. unfold at_phase in Hp. rewrite Hc in Hp. injection Hp as ->. split; [done|]. intros _. split; [symmetry|]; apply H.
      * exists None. pose proof (ae_before _ _ _ _ _ _ H i ltac:(lia)) as Hp. unfold at_phase in Hp. rewrite Hc in Hp. injection Hp as ->. split; [done|]. by intros [].
Qed.

(** A stream that returns at least one byte while it has one, and [EOF] with the last bytes or afterwards. *)
Definition source_reads (rest : bytes) (k n : nat) (err : option rerr) : Prop :=
  (n <= k)%nat /\ (n <= length rest)%nat /\ match err with None => (0 < n)%nat | Some e => e = EOF /\ n = length rest end.

#[export] Instance source_reader : SourceReader source_reads.
Proof.
  split.
  - intros [|b rest] k Hk; [exists 0%nat, (Some EOF); cbn; split_and!; (done || lia)|]. exists 1%nat, None. unfold source_reads. cbn. split_and!; lia.
  - intros rest k n err (H1 & H2 & _). done.
  - intros rest k n (_ & _ & H). done.
Qed.

Lemma source_unbroken : unbroken source_reads.
Proof. by intros rest k n e (_ & _ & _ & H). Qed.

Lemma blocks_in_any_order_witness :
  let start := sr_start [10; 11; 12; 13; 14; 15] 3 (block_calls 0 [2; 3; 1]%nat) in
  Acc (fun b a => ReadAt_step source_reads a b) start /\
  forall s, rtc (ReadAt_step source_reads) start s -> (forall s', ~ ReadAt_step source_reads s s') ->
    sr_lock s = None /\ length (sr_calls s) = 3%nat /\
    forall i c, sr_calls s !! i = Some c -> exists err, c_phase c = Returned (block [10; 11; 12; 13; 14; 15] [2; 3; 1]%nat i) err /\
      (err <> None -> S i = 3%nat /\ 6%nat = 6%nat).
Proof. apply (blocks_in_any_order source_reads); [exact source_unbroken|repeat constructor|cbn; lia]. Defined.

Example blocks_of_stream : block [10; 11; 12; 13; 14; 15; 16] [2; 3; 1]%nat 1 = [12; 13; 14].
Proof. reflexivity. Qed.

(** A call that starts after the stream has failed behind it finds nobody that would wake it. *)
Theorem late_read_waits reads s i o l :
  sr_lock s = None -> at_phase s i o l Entering -> sr_pos s < o ->
  (forall j c, sr_calls s !! j = Some c -> j <> i -> exists got err, c_phase c = Returned got err) ->
  exists s', ReadAt_step reads s s' /\ at_phase s' i o l Deferred /\ forall s'', ~ ReadAt_step reads s' s''.
Proof.
  intros Hl Hp Ho Hother. exists (ReadAt_enter i o s). split; [by eapply ra_enter|].
  assert (E : ReadAt_enter i o s = set_phase i Deferred (set_ahead (<[o := i]> (sr_ahead s)) s)).
  { unfold ReadAt_enter. destruct (Z.ltb_spec o (sr_pos s)); [lia|]. destruct (Z.eqb_spec (sr_pos s) o); [lia|done]. }
  rewrite E. assert (Hall : forall j o' l' p, at_phase (set_phase i Deferred (set_ahead (<[o:=i]> (sr_ahead s)) s)) j o' l' p -> p = Deferred \/ exists got err, p = Returned got err).
  { intros j o' l' p. rewrite at_phase_set. case_decide as Eij; [intros [-> _]; by left|]. intros Hj. right. by apply (Hother j _ Hj). }
  split; [rewrite at_phase_set, decide_True by done; eauto|]. intros s'' Hs.
  destruct Hs as [j o' l' _ Hj|j o' l' _ Hj|j o' l' b n err Hj|j o' l' b m Hj|j o' l' b e o2 j2 l2 Hj|j o' l' b e Hj|j o' l' b Hj];
    destruct (Hall _ _ _ _ Hj) as [|(? & ? & ?)]; done.
Qed.

(** One step of a run on concrete calls; the state it leads to is computed. *)
Tactic Notation "take_step" uconstr(t) :=
  eapply rtc_l; [apply t; vm_compute; first [reflexivity | lia | split_and!; (reflexivity || lia)]|];
  match goal with |- rtc _ ?s _ => let v := eval vm_compute in s in replace s with v by (vm_compute; reflexivity) end.

(** Two blocks of three bytes of a stream of four: the second read gets one byte and [EOF]; a third read that starts then is deferred for good. *)
Example read_after_failure :
  exists s, rtc (ReadAt_step source_reads) (sr_start [1; 2; 3; 4] 0 (block_calls 0 [3; 3; 3]%nat)) s /\
    c_phase <$> sr_calls s = [Returned [1; 2; 3] None; Returned [4] (Some EOF); Deferred] /\ forall s', ~ ReadAt_step source_reads s s'.
Proof.
  eexists. split_and!.
  - take_step (ra_enter source_reads _ 0 0 3). take_step (ra_read source_reads _ 0 0 3 [] 3 None). take_step (ra_finish source_reads _ 0 0 3 [1; 2; 3]).
    take_step (ra_enter source_reads _ 1 3 3). take_step (ra_read source_reads _ 1 3 3 [] 1 None). take_step (ra_read source_reads _ 1 3 3 [4] 0 (Some EOF)).
    take_step (ra_fail source_reads _ 1 3 3 [4] EOF). take_step (ra_enter source_reads _ 2 6 3). apply rtc_refl.
  - reflexivity.
  - intros s' Hs. inversion Hs as [j o' l' Hl Hj|j o' l' Hl Hj|j o' l' b n err Hj|j o' l' b m Hj|j o' l' b e o2 j2 l2 Hj|j o' l' b e Hj|j o' l' b Hj]; subst; unfold at_phase in Hj; cbn in Hj;
      do 3 (destruct j as [|j]; [discriminate Hj|]); by destruct j.
Qed.
