(* ===== verification/Config.v ===== *)
(** The configuration of a node ([livepeer/api/config.go]) and its file.

    Files are a finite map from clean paths to contents; what cannot be created, read or written is a function of the path, given anew for
    each operation. [encoding/json], the keys and the parameters of the Kademlia table are the class [ConfigDeps]; the swap parameters are
    those of the swap package, with the fields that the configuration file does not hold. *)
From stdpp Require Import base gmap list strings.
From Stdlib Require Import ZArith Lia.
From S2P Require Import Prelude Types Chunker DbStore MemStore Syncer Manifest ManifestProps FileSystem.

(** ** Parameters of the components *)

Record StoreParams := mkStoreParams { ChunkDbPath : bytes; DbCapacity : Z; CacheCapacity : Z; Radius : Z }.

Definition defaultRadius : Z := 0.

(** [filepath.Join] of two elements. *)
Definition filepath_Join (a b : bytes) : bytes :=
  match a, b with
  | [], [] => []
  | [], _ => Clean b
  | _, [] => Clean a
  | _, _ => Clean (a ++ slash :: b)
  end.

Definition NewStoreParams (path : bytes) : StoreParams :=
  {| ChunkDbPath := filepath_Join path (str "chunks"); DbCapacity := defaultDbCapacity; CacheCapacity := defaultCacheCapacity;
     Radius := defaultRadius |}.

Definition callInterval : Z := 3000000000.

Record HiveParams (KP : Type) := mkHiveParams { CallInterval : Z; KadDbPath : bytes; hp_kad : KP }.
Arguments mkHiveParams {KP} _ _ _.
Arguments CallInterval {KP} _.
Arguments KadDbPath {KP} _.
Arguments hp_kad {KP} _.

Definition NewHiveParams {KP} (kad : KP) (path : bytes) : HiveParams KP :=
  {| CallInterval := callInterval; KadDbPath := filepath_Join path (str "bzz-peers.json"); hp_kad := kad |}.

(** The parameters of the accounting: [sp_params] are those without a key. *)
Record SwapParams (SK SP CB : Type) := mkSwapParams {
  sp_params : SP;
  sp_PublicKey : bytes;
  sp_Contract : bytes;
  sp_Beneficiary : bytes;
  sp_privateKey : option SK;
  sp_owner : bytes;
  sp_chbook : option CB
}.
Arguments mkSwapParams {SK SP CB} _ _ _ _ _ _ _.
Arguments sp_params {SK SP CB} _.
Arguments sp_PublicKey {SK SP CB} _.
Arguments sp_Contract {SK SP CB} _.
Arguments sp_Beneficiary {SK SP CB} _.
Arguments sp_privateKey {SK SP CB} _.
Arguments sp_owner {SK SP CB} _.
Arguments sp_chbook {SK SP CB} _.

(** ** The configuration *)

Record Config (SK KP SP CB : Type) := mkConfig {
  cf_Store : StoreParams;
  cf_Chunker : ChunkerParams;
  cf_Hive : HiveParams KP;
  cf_Swap : SwapParams SK SP CB;
  cf_RequestDbPath : bytes;
  cf_Sync : SyncParams;
  cf_Path : bytes;
  cf_Port : bytes;
  cf_PublicKey : bytes;
  cf_BzzKey : bytes;
  cf_EnsRoot : bytes;
  cf_NetworkId : Z;
  cf_RTMPPort : bytes;
  cf_FFMpegPath : bytes;
  cf_VodPath : bytes
}.
Arguments mkConfig {SK KP SP CB} _ _ _ _ _ _ _ _ _ _ _ _ _ _ _.
Arguments cf_Store {SK KP SP CB} _.
Arguments cf_Chunker {SK KP SP CB} _.
Arguments cf_Hive {SK KP SP CB} _.
Arguments cf_Swap {SK KP SP CB} _.
Arguments cf_RequestDbPath {SK KP SP CB} _.
Arguments cf_Sync {SK KP SP CB} _.
Arguments cf_Path {SK KP SP CB} _.
Arguments cf_Port {SK KP SP CB} _.
Arguments cf_PublicKey {SK KP SP CB} _.
Arguments cf_BzzKey {SK KP SP CB} _.
Arguments cf_EnsRoot {SK KP SP CB} _.
Arguments cf_NetworkId {SK KP SP CB} _.
Arguments cf_RTMPPort {SK KP SP CB} _.
Arguments cf_FFMpegPath {SK KP SP CB} _.
Arguments cf_VodPath {SK KP SP CB} _.

(** What the configuration takes from other packages. [Unmarshal] fills an existing configuration. *)
Class ConfigDeps (SK KP SP CB : Type) := {
  PubkeyToAddress : SK -> bytes;
  FromECDSAPub : SK -> bytes;
  Sha3Hash : bytes -> bytes;
  NewKadParams : KP;
  defaultSwap : SP;
  MarshalIndent : Config SK KP SP CB -> option bytes;
  Unmarshal : bytes -> Config SK KP SP CB -> option (Config SK KP SP CB)
}.

Definition with_Swap {SK KP SP CB} (sw : SwapParams SK SP CB) (c : Config SK KP SP CB) : Config SK KP SP CB :=
  {| cf_Store := cf_Store c; cf_Chunker := cf_Chunker c; cf_Hive := cf_Hive c; cf_Swap := sw; cf_RequestDbPath := cf_RequestDbPath c;
     cf_Sync := cf_Sync c; cf_Path := cf_Path c; cf_Port := cf_Port c; cf_PublicKey := cf_PublicKey c; cf_BzzKey := cf_BzzKey c;
     cf_EnsRoot := cf_EnsRoot c; cf_NetworkId := cf_NetworkId c; cf_RTMPPort := cf_RTMPPort c; cf_FFMpegPath := cf_FFMpegPath c;
     cf_VodPath := cf_VodPath c |}.
Definition with_Port {SK KP SP CB} (port : bytes) (c : Config SK KP SP CB) : Config SK KP SP CB :=
  {| cf_Store := cf_Store c; cf_Chunker := cf_Chunker c; cf_Hive := cf_Hive c; cf_Swap := cf_Swap c; cf_RequestDbPath := cf_RequestDbPath c;
     cf_Sync := cf_Sync c; cf_Path := cf_Path c; cf_Port := port; cf_PublicKey := cf_PublicKey c; cf_BzzKey := cf_BzzKey c;
     cf_EnsRoot := cf_EnsRoot c; cf_NetworkId := cf_NetworkId c; cf_RTMPPort := cf_RTMPPort c; cf_FFMpegPath := cf_FFMpegPath c;
     cf_VodPath := cf_VodPath c |}.
Definition with_EnsRoot {SK KP SP CB} (root : bytes) (c : Config SK KP SP CB) : Config SK KP SP CB :=
  {| cf_Store := cf_Store c; cf_Chunker := cf_Chunker c; cf_Hive := cf_Hive c; cf_Swap := cf_Swap c; cf_RequestDbPath := cf_RequestDbPath c;
     cf_Sync := cf_Sync c; cf_Path := cf_Path c; cf_Port := cf_Port c; cf_PublicKey := cf_PublicKey c; cf_BzzKey := cf_BzzKey c;
     cf_EnsRoot := root; cf_NetworkId := cf_NetworkId c; cf_RTMPPort := cf_RTMPPort c; cf_FFMpegPath := cf_FFMpegPath c;
     cf_VodPath := cf_VodPath c |}.

Definition SetKey {SK SP CB} (key : SK) (sw : SwapParams SK SP CB) : SwapParams SK SP CB :=
  {| sp_params := sp_params sw; sp_PublicKey := sp_PublicKey sw; sp_Contract := sp_Contract sw; sp_Beneficiary := sp_Beneficiary sw;
     sp_privateKey := Some key; sp_owner := sp_owner sw; sp_chbook := sp_chbook sw |}.

(** ** Files *)

Abbreviation disk := (gmap bytes bytes) (only parsing).

(** What the file system refuses during an operation. *)
Record faults := mkFaults { no_mkdir : bytes -> bool; no_read : bytes -> bool; no_write : bytes -> bool }.
Definition no_faults : faults := {| no_mkdir := fun _ => false; no_read := fun _ => false; no_write := fun _ => false |}.

Inductive cfgerr := CfgMkdir | CfgRead | CfgMarshal | CfgWrite | CfgWriting (e : cfgerr) | CfgParse | CfgPublicKey | CfgBzzKey.

Definition port : bytes := str "8500".

(** [common.HexToAddress("0x112234455c3a32fd11230c42e7bccd4a84e02010")]. *)
Definition ensRootAddress : bytes := Hex2Bytes (str "112234455c3a32fd11230c42e7bccd4a84e02010").

(** [strings.Replace(s, pat, by, -1)] of a non-empty pattern, with the bytes of an occurrence still to be skipped. *)
Fixpoint replace_all (pat by_ : bytes) (skip : nat) (s : bytes) : bytes :=
  match s with
  | [] => []
  | c :: s' =>
    match skip with
    | S k => replace_all pat by_ k s'
    | O => if bool_decide (pat `prefix_of` s) then by_ ++ replace_all pat by_ (length pat - 1) s' else c :: replace_all pat by_ 0 s'
    end
  end.

(** [common.ToHex]. *)
Definition ToHex (b : bytes) : bytes := str "0x" ++ match hex_encode b with [] => str "0" | h => h end.

Section Config.
Context {SK KP SP CB : Type} `{ConfigDeps SK KP SP CB}.
Abbreviation Config' := (Config SK KP SP CB).

Definition DefaultSwapParams (contract : bytes) (prvkey : SK) : SwapParams SK SP CB :=
  {| sp_params := defaultSwap; sp_PublicKey := ToHex (FromECDSAPub prvkey); sp_Contract := contract; sp_Beneficiary := PubkeyToAddress prvkey;
     sp_privateKey := Some prvkey; sp_owner := PubkeyToAddress prvkey; sp_chbook := None |}.

Definition config_dir (path : bytes) (prvKey : SK) : bytes := filepath_Join path (str "bzz-" ++ hex_encode (PubkeyToAddress prvKey)).
Definition config_file (dir : bytes) : bytes := filepath_Join dir (str "config.json").

(** The literal of [NewConfig]. *)
Definition defaultConfig (path contract : bytes) (prvKey : SK) (networkId : Z) (rtmpPort ffmpegPath : bytes) : Config' :=
  let dirpath := config_dir path prvKey in
  let pubkey := FromECDSAPub prvKey in
  {| cf_Store := NewStoreParams dirpath; cf_Chunker := NewChunkerParams; cf_Hive := NewHiveParams NewKadParams dirpath;
     cf_Swap := DefaultSwapParams contract prvKey; cf_RequestDbPath := filepath_Join dirpath (str "requests"); cf_Sync := NewSyncParams;
     cf_Path := dirpath; cf_Port := port; cf_PublicKey := ToHex pubkey; cf_BzzKey := str "0x" ++ hex_encode (Sha3Hash pubkey);
     cf_EnsRoot := ensRootAddress; cf_NetworkId := networkId; cf_RTMPPort := rtmpPort; cf_FFMpegPath := ffmpegPath;
     cf_VodPath := replace_all (str "livepeernet/livepeer") (str "vod") 0 path |}.

Definition Save (flt : faults) (d : disk) (self : Config') : option cfgerr * disk :=
  match MarshalIndent self with
  | None => (Some CfgMarshal, d)
  | Some data =>
    if no_mkdir flt (cf_Path self) then (Some CfgMkdir, d)
    else
      let confpath := config_file (cf_Path self) in
      if no_write flt confpath then (Some CfgWrite, d) else (None, <[confpath := data]> d)
  end.

(** The results are the configuration, which is there with some of the errors too, the error and the files. *)
Definition NewConfig (flt : faults) (d : disk) (path contract : bytes) (prvKey : SK) (networkId : Z) (rtmpPort ffmpegPath : bytes) :
    option Config' * option cfgerr * disk :=
  let dirpath := config_dir path prvKey in
  if no_mkdir flt dirpath then (None, Some CfgMkdir, d)
  else
    let confpath := config_file dirpath in
    let self := defaultConfig path contract prvKey networkId rtmpPort ffmpegPath in
    let pubkeyhex := cf_PublicKey self in
    let keyhex := cf_BzzKey self in
    if no_read flt confpath then (Some self, Some CfgRead, d)
    else
      match d !! confpath with
      | None => let '(err, d) := Save flt d self in (Some self, option_map CfgWriting err, d)
      | Some data =>
        match Unmarshal data self with
        | None => (None, Some CfgParse, d)
        | Some self =>
          if negb (bool_decide (pubkeyhex = cf_PublicKey self)) then (None, Some CfgPublicKey, d)
          else if negb (bool_decide (keyhex = cf_BzzKey self)) then (None, Some CfgBzzKey, d)
          else
            let self := with_Swap (SetKey prvKey (cf_Swap self)) self in
            let self := if bool_decide (cf_EnsRoot self = make_bytes 20) then with_EnsRoot ensRootAddress self else self in
            (Some self, None, d)
        end
      end.
End Config.
