(* ===== verification/NodeMake.v ===== *)
(** The node that [NewSwarm] ([livepeer/livepeer.go]) puts together: hive, memory cache, disk store and workers, made by their constructors.
    The disk store keeps to the contents of chunks that hash to their keys, whatever happens to its counters and writes, so that the
    content API of the node gives back what was put into it down to the database. *)
From stdpp Require Import base gmap list strings.
From Stdlib Require Import ZArith Lia.
From S2P Require Import Prelude Types Chunker Database DbStore DbProps MemStore MemInv MemEvict MemView MemProps Streamer Messages SyncDb Syncer Hive Node NodeProps NodeInv Dpa DpaInv DpaProps DpaNode Manifest ManifestProps ManifestStore Api DocNode Config.

(** ** The disk store *)

Section Disk.
Context {D : Type} `{LevelDBLaws D} (hashfunc : bytes -> bytes).
Context (rle_compress : bytes -> bytes) (rle_decompress : bytes -> option bytes) (growcap : nat -> nat).
Implicit Types (content : Key -> option (bytes * Z)) (s : DbStore D).

(** Contents of chunks that hash to their keys and have the size of their header. *)
Definition hashed content : Prop :=
  forall k x, content k = Some x -> k = hashfunc x.1 /\ 8 <= #x.1 /\ x.2 = i64 (le64_val x.1).

(** What is in the database under a data key is such a chunk. *)
Definition good_value content (v : bytes) : Prop := 8 <= #v /\ content (hashfunc v) = Some (v, i64 (le64_val v)).
Definition good_view content (m : gmap bytes bytes) : Prop := forall t v, m !! (1 :: t) = Some v -> good_value content v.
Definition good_db content (l : LDBDatabase D) : Prop := comp l = false /\ good_view content (ldb_view (ldb l)).

Definition good_op content (o : batch_op) : Prop :=
  match o with BPut k v => (exists t, k = 1 :: t) -> good_value content v | BDelete _ => True end.

Lemma good_batch content b : forall m, Forall (good_op content) b -> good_view content m -> good_view content (apply_batch m b).
Proof using Type.
  induction b as [|o b IH]; intros m HF Hm; [done|]. inversion_clear HF as [|? ? Ho HF']. apply IH; [done|]. intros t v. destruct o as [k w|k]; cbn.
  - rewrite lookup_insert. case_decide; [subst k; intros [= <-]; apply Ho; eauto|apply Hm].
  - intros [_ Hv]%lookup_delete_Some. by eapply Hm.
Qed.

(** A write that fails leaves the database as it is. *)
Lemma good_write content l b : good_db content l -> Forall (good_op content) b -> good_db content (fst (LDB_Write l b)).
Proof using H0.
  intros [Hc Hg] HF. unfold LDB_Write. destruct (ldb_write (ldb l) b) as [d err] eqn:E. split; [done|]. change (good_view content (ldb_view d)). destruct err.
  - by rewrite (ldb_write_err _ _ _ E).
  - rewrite (ldb_write_ok _ _ _ E). by apply good_batch.
Qed.

Lemma good_get content l k : good_db content l -> LDB_Get rle_decompress l k = ldb_view (ldb l) !! k.
Proof using H0. intros [Hc _]. unfold LDB_Get. rewrite ldb_get_view, Hc. by destruct (_ !! k). Qed.

Lemma good_tryAccess content s h : good_db content (db s) ->
  good_db content (db (snd (tryAccessIdx rle_decompress s (getIndexKey h)))).
Proof using H0.
  intros Hg. unfold tryAccessIdx. destruct (db_Get _ s _); [|done]. cbn [snd db]. apply good_write; [done|].
  constructor; [by intros [t [=]]|]. constructor; [by intros [t [=]]|constructor].
Qed.

Lemma good_gc_delete content n : forall i cut s s', good_db content (db s) -> gc_delete n i cut s = Some s' -> good_db content (db s').
Proof using H0.
  induction n as [|n IH]; intros i cut s s' Hg; cbn [gc_delete]; [by intros [= <-]|]. destruct (index (gcArray s) i) as [[item|]|]; try done.
  destruct (_ <=? cut); [|by apply IH]. apply IH. cbn [db]. apply good_write; [done|]. constructor; [done|]. constructor; [done|]. constructor; [by intros [t [=]]|constructor].
Qed.

Lemma good_collect content s ratio s' : good_db content (db s) -> collectGarbage rle_compress growcap s ratio = Some s' -> good_db content (db s').
Proof using H0.
  intros Hg. unfold collectGarbage. destruct (di_Seek _ _ _ _ _) as [mem it]. destruct (gc_collect _ _ _ _ _ _ _ _ _) as [[[[mem' pos] gcnt] arr]|]; [|done]. cbn [mbind option_bind].
  destruct (gcListSelect _ _ _ _ _) as [[arr' cutidx]|]; [|done]. cbn [mbind option_bind]. destruct (gc_value arr' cutidx) as [cut|]; [|done]. cbn [mbind option_bind].
  destruct (gc_delete _ _ _ _) as [s1|] eqn:E; [|done]. intros [= <-]. cbn [db]. apply good_gc_delete with (content := content) in E; [|done].
  destruct E as [Hc Hv]. unfold LDB_Put. rewrite Hc. destruct (ldb_write _ _) as [d err] eqn:Ew. split; [done|]. change (good_view content (ldb_view d)). destruct err.
  - by rewrite (ldb_write_err _ _ _ Ew).
  - rewrite (ldb_write_ok _ _ _ Ew). apply good_batch; [|done]. constructor; [by intros [t [=]]|constructor].
Qed.

Lemma good_put content s ch s' :
  hashed content -> good_db content (db s) -> ck_SData ch <> None -> content (ck_Key ch) = Some (answer ch) ->
  put_store rle_compress rle_decompress growcap s ch = Some s' -> good_db content (db s').
Proof using H0.
  intros Hh Hg Hs Hcont. unfold put_store. pose proof (good_tryAccess content s (ck_Key ch) Hg) as Hg1.
  destruct (tryAccessIdx _ _ _) as [[ix|] s1]; [by intros [= <-]|]. cbn [snd] in Hg1.
  assert (Hgc : forall s2, (if capacity s1 <=? entryCnt s1 then collectGarbage rle_compress growcap s1 gcArrayFreeRatio else Some s1) = Some s2 -> good_db content (db s2)).
  { intros s2. case_match; [by apply good_collect|]. by intros [= <-]. }
  destruct (if capacity s1 <=? entryCnt s1 then _ else _) as [s2|]; [|done]. cbn. intros [= <-]. specialize (Hgc s2 eq_refl). unfold put_new. cbn [db].
  destruct (ck_SData ch) as [data|] eqn:Ed; [|done]. unfold answer, sdata in Hcont. rewrite Ed in Hcont. destruct (Hh _ _ Hcont) as (Hk & Hl & Hz). cbn [fst snd] in Hk, Hl, Hz.
  assert (Hgood : good_value content data) by (split; [done|]; rewrite <- Hk, Hcont, Hz; done).
  assert (encodeData ch = data) as -> by (unfold encodeData; by rewrite Ed). apply good_write; [done|].
  constructor; [by intros _|]. repeat (constructor; [by intros [t [=]]|]). constructor.
Qed.

(** What is read hashes to the key, so it is the content; a value that does not is removed. *)
Lemma good_read content s k s' x : good_db content (db s) -> DbStore.Get hashfunc rle_decompress s k = (s', x) ->
  good_db content (db s') /\
  match x with
  | Ok ch => exists data, ck_SData ch = Some data /\ 8 <= #data /\ content k = Some (data, i64 (le64_val data))
  | Err _ => True
  | Panic => False
  end.
Proof using H0.
  intros Hg. unfold DbStore.Get. pose proof (good_tryAccess content s k Hg) as Hg1. destruct (tryAccessIdx _ _ _) as [[ix|] s1]; [|by intros [= <- <-]]. cbn [snd] in Hg1.
  destruct (db_Get rle_decompress s1 (getDataKey (Idx ix))) as [data|] eqn:Ed; [|by intros [= <- <-]].
  unfold db_Get in Ed. rewrite (good_get content) in Ed by done. destruct (proj2 Hg1 _ _ Ed) as [Hl Hc]. case_bool_decide as Hk.
  - unfold decodeData. rewrite slice_Some by lia. cbn [or_panic]. intros [= <- <-]. split; [done|]. exists data. split_and!; [done|done|by rewrite <- Hk].
  - intros [= <- <-]. split; [|done]. cbn [db]. unfold LDB_Delete. destruct Hg1 as [Hcp Hv]. destruct (ldb_write _ _) as [d err] eqn:Ew. split; [done|]. change (good_view content (ldb_view d)). destruct err.
    + by rewrite (ldb_write_err _ _ _ Ew).
    + rewrite (ldb_write_ok _ _ _ Ew). apply good_batch; [|done]. by repeat constructor.
Qed.

#[local] Instance db_disk : ChunkDisk (DbStore D) := DbStore_ChunkDisk hashfunc rle_compress rle_decompress growcap.

(** The disk store keeps to the contents. *)
#[export] Instance DbStore_contents : DiskContents (DbStore D).
Proof using H0.
  refine {| dk_contents := fun content s => hashed content /\ good_db content (db s) |}.
  - intros content s k s' x [Hh Hg] E. destruct (good_read content s k s' x Hg E) as [Hg' Hx]. split; [by split|exact Hx].
  - intros content s ch s' [Hh Hg] Hs Hc E. split; [done|]. by eapply good_put.
Defined.
End Disk.

(** ** The node *)

Section Make.
Context {D K SW : Type} `{LevelDBLaws D, Kademlia K} (tc : TreeChunker) {H32 : chunker32 tc}.
Context (rle_compress : bytes -> bytes) (rle_decompress : bytes -> option bytes) (growcap : nat -> nat).
(** [leveldb.OpenFile] of a path. *)
Context (OpenFile : bytes -> option D).

Abbreviation hash := (h_sum (hashFunc tc)).

Definition NewLocalStore (params : StoreParams) : option (outcome (MemStore * DbStore D)) :=
  match OpenFile (ChunkDbPath params) with
  | None => None
  | Some d => Some (let& m := NewMemStore (CacheCapacity params) in Ret (m, NewDbStore rle_decompress d (DbCapacity params)))
  end.

(** The stores and the hive that [NewSwarm] makes: the net store, the depo, the forwarder and the store of the document API share them. [None] is a
    database that does not open. *)
Definition NewNode (params : StoreParams) (kad : K) (addr : Address) (swapEnabled syncEnabled : bool) : option (outcome (node K SW MemStore (DbStore D))) :=
  match NewLocalStore params with
  | None => None
  | Some lstore =>
    Some (let& x := lstore in let '(m, d) := x in
          Ret {| nd_hive := NewHive kad addr swapEnabled syncEnabled; nd_chunks := ∅; nd_reqs := ∅; nd_mem := m; nd_disk := d; nd_tasks := []; nd_wgs := ∅; nd_next := 0 |})
  end.

#[local] Instance made_disk : ChunkDisk (DbStore D) := DbStore_ChunkDisk hash rle_compress rle_decompress growcap.
#[local] Instance made_disk_laws : ChunkDiskLaws (DbStore D) := DbStore_disk_laws hash rle_compress rle_decompress growcap.
#[local] Instance made_contents : DiskContents (DbStore D) := DbStore_contents hash rle_compress rle_decompress growcap.

(** A node is made whenever its database opens, and has room for as many operations as its cache has places. *)
Lemma NewNode_inv content params kad addr swapEnabled syncEnabled d :
  OpenFile (ChunkDbPath params) = Some d -> 0 < CacheCapacity params -> hashed hash content -> good_view hash content (ldb_view d) ->
  exists w, NewNode params kad addr swapEnabled syncEnabled = Some (Ret w) /\ store_inv content w (Z.to_nat (CacheCapacity params)).
Proof using Type.
  intros Ho Hcap Hh Hg. unfold NewNode, NewLocalStore. rewrite Ho. destruct (NewMemStore_ok (CacheCapacity params)) as (m & -> & Hok & Hv & Hc); [lia|]. cbn [obind].
  eexists. split; [done|]. assert (Hview : mi_view m = ∅) by (cbn; by rewrite Hv, fmap_empty). split; cbn [nd_mem nd_disk nd_tasks].
  - split; cbn [nd_mem nd_tasks]; [split; [exact Hok|cbn; lia]| | | |constructor].
    + intros k c. by rewrite Hview, lookup_empty.
    + intros c ch r. unfold chunk_at. cbn. by rewrite lookup_empty.
    + intros c. unfold chunk_at. cbn. rewrite !lookup_empty. intros [[? [=]]|[? [=]]].
  - unfold view. cbn [nd_mem]. rewrite Hview, map_size_empty. cbn. lia.
  - intros c ch x. unfold chunk_at. cbn. by rewrite lookup_empty.
  - intros k c ch. unfold view. cbn [nd_mem]. by rewrite Hview, lookup_empty.
  - split; [done|]. by split.
  - intros c Hin. by apply not_elem_of_nil in Hin.
Qed.

Context (swap_Add : SW -> Z -> bool * bool * SW) (generateId : Z) (pick : bool).
Context (Unmarshal : bytes -> option (list manifestTrieEntry)) {HJ : JsonSingleton Unmarshal} (dns : option (bytes -> Key * bool)).

#[local] Instance made_store : ChunkStore (node K SW MemStore (DbStore D)) := node_ChunkStore swap_Add generateId pick.
#[local] Instance made_store_laws : ChunkStoreLaws (node K SW MemStore (DbStore D)) := node_store_laws swap_Add generateId pick.

(** C3: What is put through the content API of a node is got from it, from the constructors down to the database: a node made over a database whose chunks hash to
    their keys is ready, [Put] of a content with a type that JSON need not escape (printable ASCII without quotes and backslashes; [Put] writes it unescaped) gives the key of a manifest, and once
    the wait group that it waits for is done - the chunks of the content and of the manifest went to
    the workers of the document API and on to the cache, the database and the peers of the node, in whatever order -
    [Storage.Get] of that key reads the content back in full, with its type, through the manifest, the chunk tree and
    the stores of the node, at any later time and among any other calls, worker steps and goroutines of the node (messages of peers are not among the steps), as long as fewer chunks are asked of
    the node than its cache has places. *)
Theorem swarm_put_then_get content0 params kad addr swapEnabled syncEnabled d data ct fuel :
  OpenFile (ChunkDbPath params) = Some d -> 0 < CacheCapacity params -> hashed hash content0 -> good_view hash content0 (ldb_view d) ->
  #data * branches tc < 2 ^ 63 -> (106 + #ct) * branches tc < 2 ^ 63 -> (0 < fuel)%nat -> unescaped ct ->
  exists w k1 h, NewNode params kad addr swapEnabled syncEnabled = Some (Ret w) /\
    chunk_Store tc data (#data) = Ok k1 /\ Put (chunk_Store tc) data ct = Ok h /\
    forall ls1 (x1 : DPA (node K SW MemStore (DbStore D))) ls2 x2 g,
      Z.of_nat (costs ls1 + costs ls2) < CacheCapacity params ->
      client_run content0 (NewDPA w) ls1 x1 -> stored_by g ls1 ≡ₚ chunks_of tc data ++ chunks_of tc (singleton_manifest k1 ct) ->
      wg_count x1 g = 0 -> client_run content0 x1 ls2 x2 ->
      Storage_Get (chunk_reader tc (fetch_of (d_store x2))) Unmarshal dns fuel h =
        Ok ({| rs_MimeType := ct; rs_Status := 0; rs_Size := #data; rs_Content := data |}, false).
Proof using H32 HJ.
  intros Ho Hcap Hh Hg Hd Hm Hf Hj. destruct (NewNode_inv content0 params kad addr swapEnabled syncEnabled d Ho Hcap Hh Hg) as (w & Ew & Hw).
  destruct (node_put_then_get tc H32 Unmarshal dns swap_Add generateId pick content0 data ct fuel Hd Hm Hf Hj) as (k1 & h & E1 & E2 & Hget).
  exists w, k1, h. split_and!; [done|done|done|]. intros ls1 x1 ls2 x2 g Hc Hr1 Hst Hwg Hr2. apply (Hget w (Z.to_nat (CacheCapacity params)) ls1 x1 ls2 x2 g Hw); try done. clear -Hc. rewrite <- (Nat2Z.id (costs ls1 + costs ls2)). apply Z2Nat.inj_lt; [apply Nat2Z.is_nonneg|lia|exact Hc].
Qed.
End Make.

(** ** Witness *)

Definition open_empty (path : bytes) : option MapDB := Some ∅.
Definition ten_places : StoreParams := {| ChunkDbPath := str "/tmp/chunks"; DbCapacity := 100; CacheCapacity := 10; Radius := 0 |}.

Abbreviation node2 := (node ListKad unit MemStore (DbStore MapDB)) (only parsing).

#[local] Instance disk2 : ChunkDisk (DbStore MapDB) := DbStore_ChunkDisk (h_sum sum_hash) id Some double.
#[local] Instance disk2_laws : ChunkDiskLaws (DbStore MapDB) := DbStore_disk_laws (h_sum sum_hash) id Some double.
#[local] Instance disk2_contents : DiskContents (DbStore MapDB) := DbStore_contents (h_sum sum_hash) id Some double.
#[local] Instance node2_store : ChunkStore node2 := node_ChunkStore swap0 7 true.
#[local] Instance node2_laws : ChunkStoreLaws node2 := node_store_laws swap0 7 true.

Definition kad2 : ListKad := [].
Definition addr2 : Address := replicate 32 0.

Definition made : node2 :=
  match NewNode (SW := unit) Some open_empty ten_places kad2 addr2 false true with
  | Some (Ret w) => w
  | _ => {| nd_hive := NewHive kad2 addr2 false true; nd_chunks := ∅; nd_reqs := ∅; nd_mem := mem10; nd_disk := NewDbStore Some ∅ 0; nd_tasks := []; nd_wgs := ∅; nd_next := 0 |}
  end.
Definition made_stored : DPA node2 := run_or (NewDPA made) (node_drive doc_chunks (NewDPA made) (store_labels doc_chunks)).

Lemma contents_hashed : hashed (h_sum sum_hash) (contents_of doc_chunks).
Proof.
  intros k x. unfold contents_of. destruct (find _ doc_chunks) as [c|] eqn:E; [|done]. intros [= <-]. apply find_some in E as [Hin Hk%bool_decide_eq_true].
  assert (Hall : forallb (fun c => bool_decide (ck_Key c = h_sum sum_hash (sdata c)) && well_sized c) doc_chunks = true) by (vm_compute; reflexivity).
  rewrite forallb_forall in Hall. specialize (Hall c Hin). apply andb_true_iff in Hall as [He%bool_decide_eq_true [Hl%Z.leb_le Hs%Z.eqb_eq]%andb_true_iff].
  subst k. by split_and!.
Qed.

Lemma made_run : client_run (contents_of doc_chunks) (NewDPA made) (store_labels doc_chunks) made_stored.
Proof. apply driven_run; [exact key32b_ok|vm_compute; discriminate..]. Qed.

Lemma swarm_put_then_get_witness :
  exists k1 h, chunk_Store sum_tc one_doc 5 = Ok k1 /\ Put (chunk_Store sum_tc) one_doc one_type = Ok h /\
    Storage_Get (chunk_reader sum_tc (fetch_of (d_store made_stored))) decode_singleton None 1 h =
      Ok ({| rs_MimeType := one_type; rs_Status := 0; rs_Size := 5; rs_Content := one_doc |}, false).
Proof.
  destruct (swarm_put_then_get (D := MapDB) (K := ListKad) (SW := unit) sum_tc id Some double open_empty swap0 7 true decode_singleton None
    (contents_of doc_chunks) ten_places kad2 addr2 false true ∅ one_doc one_type 1 eq_refl ltac:(done) contents_hashed ltac:(done)
    ltac:(vm_compute; reflexivity) ltac:(vm_compute; reflexivity) ltac:(lia) one_type_unescaped) as (w & k1 & h & Ew & E1 & E2 & Hget).
  assert (w = made) as -> by (unfold made; by rewrite Ew).
  exists k1, h. split; [exact E1|]. split; [exact E2|].
  apply (Hget (store_labels doc_chunks) made_stored [] made_stored 7%nat).
  - vm_compute. reflexivity.
  - exact made_run.
  - assert (k1 = doc_key) as -> by (revert E1; vm_compute; by intros [= <-]). vm_compute. reflexivity.
  - vm_compute. reflexivity.
  - constructor.
Defined.
