(* ===== verification/Cli.v ===== *)
(** The command line ([cmd/utils/flags.go], [cmd/utils/customflags.go], [cmd/utils/fdlimit_unix.go]): what the flags of a run mean.

    A context holds the value of each flag in the table of its type, and which flags were given; an accessor reads the table of its own type,
    and [GlobalString] prints a flag of another type. [Fatalf] ends the process: it is an error of the result type. White space is that of
    ASCII, and the expansion of environment variables is that of Go 1.8. *)
From stdpp Require Import base gmap list strings pretty.
From Stdlib Require Import ZArith Lia.
From S2P Require Import Prelude Types Manifest ManifestProps FileSystem Config.

(** ** Strings *)

Definition comma : Z := 44.
Definition space : Z := 32.

(** [strings.Split(s, sep)] of a separator of one byte. *)
Fixpoint strings_Split (sep : Z) (s : bytes) : list bytes :=
  match s with
  | [] => [[]]
  | c :: s' =>
    if c =? sep then [] :: strings_Split sep s'
    else match strings_Split sep s' with p :: ps => (c :: p) :: ps | [] => [[c]] end
  end.

Fixpoint Join_with (sep : bytes) (l : list bytes) : bytes :=
  match l with [] => [] | [s] => s | s :: l => s ++ sep ++ Join_with sep l end.

Fixpoint trim_left (p : Z -> bool) (s : bytes) : bytes :=
  match s with c :: s' => if p c then trim_left p s' else s | [] => [] end.
Definition trim_right (p : Z -> bool) (s : bytes) : bytes := rev (trim_left p (rev s)).
Definition is_space (c : Z) : bool := (c =? space) || ((9 <=? c) && (c <=? 13)).
Definition TrimSpace (s : bytes) : bytes := trim_right is_space (trim_left is_space s).
Definition Trim_spaces (s : bytes) : bytes := trim_right (Z.eqb space) (trim_left (Z.eqb space) s).

Definition Itoa (z : Z) : bytes := str (pretty z).

Definition nonempty (s : bytes) : bool := negb (bool_decide (s = [])).

(** ** Contexts *)

Record Context_ := mkContext {
  cx_strings : gmap bytes bytes;
  cx_bools : gmap bytes bool;
  cx_ints : gmap bytes Z;
  cx_slices : gmap bytes (list bytes);
  cx_set : gset bytes
}.

(** A slice prints as [[a b c]]. *)
Definition slice_String (l : list bytes) : bytes := [91] ++ Join_with [space] l ++ [93].
Definition bool_String (b : bool) : bytes := if b then str "true" else str "false".

Section Accessors.
Context (ctx : Context_) (name : bytes).

Definition GlobalString : bytes :=
  match cx_strings ctx !! name, cx_slices ctx !! name, cx_ints ctx !! name, cx_bools ctx !! name with
  | Some s, _, _, _ => s
  | _, Some l, _, _ => slice_String l
  | _, _, Some z, _ => Itoa z
  | _, _, _, Some b => bool_String b
  | _, _, _, _ => []
  end.
Definition GlobalBool : bool := default false (cx_bools ctx !! name).
Definition GlobalInt : Z := default 0 (cx_ints ctx !! name).
(** A negative number does not parse as unsigned. *)
Definition GlobalUint64 : Z := let z := GlobalInt in if z <? 0 then 0 else z.
Definition GlobalStringSlice : list bytes := default [] (cx_slices ctx !! name).
Definition GlobalIsSet : bool := bool_decide (name ∈ cx_set ctx).
End Accessors.

Definition DataDirFlag := str "datadir".
Definition TestNetFlag := str "testnet".
Definition LPNetFlag := str "lpnet".
Definition IPCDisabledFlag := str "ipcdisable".
Definition IPCPathFlag := str "ipcpath".
Definition NodeKeyHexFlag := str "nodekeyhex".
Definition NodeKeyFileFlag := str "nodekey".
Definition IdentityFlag := str "identity".
Definition VMEnableJitFlag := str "jitvm".
Definition BootnodesFlag := str "bootnodes".
Definition ListenPortFlag := str "port".
Definition RPCEnabledFlag := str "rpc".
Definition RPCListenAddrFlag := str "rpcaddr".
Definition WSEnabledFlag := str "ws".
Definition WSListenAddrFlag := str "wsaddr".
Definition EtherbaseFlag := str "etherbase".
Definition ExtraDataFlag := str "extradata".
Definition PasswordFileFlag := str "password".
Definition LightModeFlag := str "light".
Definition PreloadJSFlag := str "preload".
Definition JSpathFlag := str "jspath".

(** The option or the step that [Fatalf] names. *)
Inductive fatal :=
| FatalDataDir | FatalExclusive | FatalOption (name : bytes) | FatalRaiseFd | FatalGetFd | FatalPasswordFile
| FatalConfig (e : cfgerr) | FatalNoAccount | FatalAccountFile | FatalDecrypt | FatalPrompt | FatalMismatch | FatalCreateAccount | FatalRegister
| FatalOpenDatabase | FatalChainConfig | FatalGenesis | FatalChain | FatalStart.

(** ** Directories *)

Definition MakeDataDir (ctx : Context_) : result fatal bytes :=
  let path := GlobalString ctx DataDirFlag in
  if nonempty path then
    Ok (if GlobalBool ctx TestNetFlag then filepath_Join path (str "testnet")
        else if bool_decide (GlobalString ctx LPNetFlag = str "true") then filepath_Join path (str "livepeernet")
        else path)
  else Err FatalDataDir.

Definition MakeIPCPath (ctx : Context_) : bytes :=
  if GlobalBool ctx IPCDisabledFlag then [] else GlobalString ctx IPCPathFlag.

(** [os.ExpandEnv]. *)
Definition isShellSpecialVar (c : Z) : bool :=
  bool_decide (c ∈ [42; 35; 36; 64; 33; 63; 45]) || ((48 <=? c) && (c <=? 57)).
Definition isAlphaNum (c : Z) : bool :=
  (c =? 95) || ((48 <=? c) && (c <=? 57)) || ((97 <=? c) && (c <=? 122)) || ((65 <=? c) && (c <=? 90)).

Fixpoint alnum_prefix (s : bytes) : bytes := match s with c :: s' => if isAlphaNum c then c :: alnum_prefix s' else [] | [] => [] end.
Fixpoint upto_brace (s : bytes) : option bytes :=
  match s with [] => None | c :: s' => if c =? 125 then Some [] else match upto_brace s' with Some p => Some (c :: p) | None => None end end.

(** The name behind a dollar sign and how many bytes it takes. *)
Definition getShellName (s : bytes) : bytes * nat :=
  match s with
  | [] => ([], 0%nat)
  | c :: s' =>
    if c =? 123 then
      match s' with
      | d :: e :: _ => if isShellSpecialVar d && (e =? 125) then ([d], 3%nat)
                       else match upto_brace s' with Some p => (p, (length p + 2)%nat) | None => ([], 1%nat) end
      | _ => match upto_brace s' with Some p => (p, (length p + 2)%nat) | None => ([], 1%nat) end
      end
    else if isShellSpecialVar c then ([c], 1%nat)
    else let p := alnum_prefix s in (p, length p)
  end.

Section Environment.
(** [os.Getenv], and the home directory of [user.Current]. *)
Context (Getenv : bytes -> bytes) (current_home : option bytes).

Fixpoint expand_loop (skip : nat) (s : bytes) : bytes :=
  match s with
  | [] => []
  | c :: s' =>
    match skip with
    | S k => expand_loop k s'
    | O =>
      if (c =? 36) && nonempty s' then let '(name, w) := getShellName s' in Getenv name ++ expand_loop w s'
      else c :: expand_loop 0 s'
    end
  end.
Definition ExpandEnv (s : bytes) : bytes := expand_loop 0 s.

Definition homeDir : bytes :=
  let home := Getenv (str "HOME") in
  if nonempty home then home else default [] current_home.

Definition expandPath (p : bytes) : bytes :=
  let p :=
    if bool_decide (str "~/" `prefix_of` p) || bool_decide ([126; 92] `prefix_of` p) then
      let home := homeDir in if nonempty home then home ++ drop 1 p else p
    else p in
  Clean (ExpandEnv p).

(** A flag for a directory: its names, value, and the environment variables it takes its value from. *)
Record DirectoryFlag := mkDirFlag { df_Name : bytes; df_Value : bytes; df_Usage : bytes; df_EnvVar : bytes }.

Fixpoint first_env (vars : list bytes) : option bytes :=
  match vars with
  | [] => None
  | v :: vars => let val := Getenv (TrimSpace v) in if nonempty val then Some val else first_env vars
  end.

(** The calls of [set.Var]: the callback passes the whole list of names instead of the name it gets. *)
Definition DirectoryFlag_Apply (self : DirectoryFlag) : bytes * list (bytes * bytes) :=
  let value := if nonempty (df_EnvVar self) then default (df_Value self) (first_env (strings_Split comma (df_EnvVar self))) else df_Value self in
  (value, (fun _ => (df_Name self, df_Usage self)) <$> strings_Split comma (df_Name self)).

Definition DirectoryString_Set (value : bytes) : bytes := expandPath value.
End Environment.

Definition prefixFor (name : bytes) : bytes := if #name =? 1 then str "-" else str "--".

Definition prefixedNames (fullName : bytes) : bytes :=
  Join_with (str ", ") ((fun name => prefixFor (Trim_spaces name) ++ Trim_spaces name) <$> strings_Split comma fullName).

Definition withEnvHint (envVar s : bytes) : bytes :=
  s ++ (if nonempty envVar then str " [$" ++ Join_with (str ", $") (strings_Split comma envVar) ++ str "]" else []).

Definition DirectoryFlag_String (self : DirectoryFlag) : bytes :=
  let value := if nonempty (df_Value self) then [34] ++ df_Value self ++ [34] else df_Value self in
  withEnvHint (df_EnvVar self) (prefixedNames (df_Name self) ++ str " " ++ value ++ [9] ++ df_Usage self).

(** ** Identity and network *)

Section Node.
(** The types of keys, nodes and accounts, with what reads them. *)
Context {SK ND : Type} (LoadECDSA HexToECDSA : bytes -> option SK) (ParseNode : bytes -> option ND).

Definition MakeNodeKey (ctx : Context_) : result fatal (option SK) :=
  let hex := GlobalString ctx NodeKeyHexFlag in
  let file := GlobalString ctx NodeKeyFileFlag in
  if nonempty file && nonempty hex then Err FatalExclusive
  else if nonempty file then match LoadECDSA file with Some k => Ok (Some k) | None => Err (FatalOption NodeKeyFileFlag) end
  else if nonempty hex then match HexToECDSA hex with Some k => Ok (Some k) | None => Err (FatalOption NodeKeyHexFlag) end
  else Ok None.

Definition makeNodeUserIdent (ctx : Context_) : bytes :=
  let identity := GlobalString ctx IdentityFlag in
  Join_with (str "/") ((if nonempty identity then [identity] else []) ++ (if GlobalBool ctx VMEnableJitFlag then [str "JIT"] else [])).

(** The URLs that parse, in their order. *)
Fixpoint parse_nodes (urls : list bytes) : list ND :=
  match urls with
  | [] => []
  | url :: urls => match ParseNode url with Some n => n :: parse_nodes urls | None => parse_nodes urls end
  end.

Definition MakeBootstrapNodes (MainnetBootnodes TestnetBootnodes : list bytes) (ctx : Context_) : list ND :=
  parse_nodes (if GlobalIsSet ctx BootnodesFlag then GlobalStringSlice ctx BootnodesFlag
               else if GlobalBool ctx TestNetFlag then TestnetBootnodes else MainnetBootnodes).

Definition MakeBootstrapNodesV5 (DiscoveryV5Bootnodes : list bytes) (ctx : Context_) : list ND :=
  parse_nodes (if GlobalIsSet ctx BootnodesFlag then GlobalStringSlice ctx BootnodesFlag else DiscoveryV5Bootnodes).
End Node.

Definition MakeListenAddress (ctx : Context_) : bytes := str ":" ++ Itoa (GlobalInt ctx ListenPortFlag).
Definition MakeDiscoveryV5Address (ctx : Context_) : bytes := str ":" ++ Itoa (GlobalInt ctx ListenPortFlag + 1).

Definition MakeRPCModules (input : bytes) : list bytes := TrimSpace <$> strings_Split comma input.

Definition MakeHTTPRpcHost (ctx : Context_) : bytes :=
  if negb (GlobalBool ctx RPCEnabledFlag) then [] else GlobalString ctx RPCListenAddrFlag.
Definition MakeWSRpcHost (ctx : Context_) : bytes :=
  if negb (GlobalBool ctx WSEnabledFlag) then [] else GlobalString ctx WSListenAddrFlag.

(** ** File descriptors *)

(** The soft and hard limit of open files. *)
Record Rlimit := mkRlimit { Cur : Z; Max : Z }.

Definition raiseFdLimit (get : option Rlimit) (setOk : Rlimit -> bool) (max : Z) : option Rlimit :=
  match get with
  | None => None
  | Some limit =>
    let cur := if max <? Max limit then max else Max limit in
    let limit := {| Cur := cur; Max := Max limit |} in
    if setOk limit then Some limit else None
  end.

(** [again] is what the second reading of the limit gives after the first was raised to [limit]. *)
Definition MakeDatabaseHandles (get : option Rlimit) (setOk : Rlimit -> bool) (again : Rlimit -> option Rlimit) : result fatal Z :=
  match raiseFdLimit get setOk 2048 with
  | None => Err FatalRaiseFd
  | Some limit =>
    match again limit with
    | None => Err FatalGetFd
    | Some limit =>
      let n := i64 (Cur limit) in
      let n := if 2048 <? n then 2048 else n in
      Ok (Z.quot n 2)
    end
  end.

(** ** The rest of the flags *)

Definition MakeMinerExtra (extra : bytes) (ctx : Context_) : bytes :=
  if GlobalIsSet ctx ExtraDataFlag then GlobalString ctx ExtraDataFlag else extra.

(** The lines of the file, without the carriage returns at their ends. *)
Definition MakePasswordList (ReadFile : bytes -> option bytes) (ctx : Context_) : result fatal (list bytes) :=
  let path := GlobalString ctx PasswordFileFlag in
  if bool_decide (path = []) then Ok []
  else match ReadFile path with
       | None => Err FatalPasswordFile
       | Some text => Ok (trim_right (Z.eqb 13) <$> strings_Split 10 text)
       end.

Definition ChainDbName (ctx : Context_) : bytes := if GlobalBool ctx LightModeFlag then str "lightchaindata" else str "chaindata".

Definition AbsolutePath (Datadir filename : bytes) : bytes := if IsAbs filename then filename else filepath_Join Datadir filename.

Definition MakeConsolePreloads (ctx : Context_) : list bytes :=
  if bool_decide (GlobalString ctx PreloadJSFlag = []) then []
  else (fun file => AbsolutePath (GlobalString ctx JSpathFlag) (TrimSpace file)) <$> strings_Split comma (GlobalString ctx PreloadJSFlag).

(** ** The node *)

Definition KeyStoreDirFlag := str "keystore".
Definition LightKDFFlag := str "lightkdf".
Definition NoDiscoverFlag := str "nodiscover".
Definition DiscoveryV5Flag := str "v5disc".
Definition LightServFlag := str "lightserv".
Definition NATFlag := str "nat".
Definition MaxPeersFlag := str "maxpeers".
Definition MaxPendingPeersFlag := str "maxpendpeers".
Definition RPCPortFlag := str "rpcport".
Definition RPCCORSDomainFlag := str "rpccorsdomain".
Definition RPCApiFlag := str "rpcapi".
Definition WSPortFlag := str "wsport".
Definition WSAllowedOriginsFlag := str "wsorigins".
Definition WSApiFlag := str "wsapi".
Definition DevModeFlag := str "dev".
Definition NetrestrictFlag := str "netrestrict".

Record NodeConfig (SK ND ND5 NT NL : Type) := mkNodeConfig {
  nc_DataDir : bytes; nc_KeyStoreDir : bytes; nc_UseLightweightKDF : bool; nc_PrivateKey : option SK; nc_Name : bytes; nc_Version : bytes;
  nc_UserIdent : bytes; nc_NoDiscovery : bool; nc_DiscoveryV5 : bool; nc_DiscoveryV5Addr : bytes; nc_BootstrapNodes : list ND;
  nc_BootstrapNodesV5 : list ND5; nc_ListenAddr : bytes; nc_NAT : NT; nc_MaxPeers : Z; nc_MaxPendingPeers : Z; nc_IPCPath : bytes;
  nc_HTTPHost : bytes; nc_HTTPPort : Z; nc_HTTPCors : bytes; nc_HTTPModules : list bytes; nc_WSHost : bytes; nc_WSPort : Z;
  nc_WSOrigins : bytes; nc_WSModules : list bytes; nc_NetRestrict : option NL
}.
Arguments mkNodeConfig {SK ND ND5 NT NL}.
Arguments nc_DataDir {SK ND ND5 NT NL} _.
Arguments nc_BootstrapNodes {SK ND ND5 NT NL} _.
Arguments nc_MaxPeers {SK ND ND5 NT NL} _.
Arguments nc_ListenAddr {SK ND ND5 NT NL} _.

(** The version and the default nodes of the packages, and the directory for temporary files. *)
Record Defaults := mkDefaults {
  params_Version : bytes; MainnetBootnodes : list bytes; TestnetBootnodes : list bytes; DiscoveryV5Bootnodes : list bytes; TempDir : bytes }.

Section MakeNode.
Context {SK ND ND5 NT NL : Type} (LoadECDSA HexToECDSA : bytes -> option SK) (ParseNode : bytes -> option ND) (ParseNodeV5 : bytes -> option ND5).
Context (nat_Parse : bytes -> option NT) (ParseNetlist : bytes -> option NL) (dflt : Defaults).

(** The configuration of the node; the panic is that of [gitCommit[:8]]. *)
Definition MakeNode (ctx : Context_) (name gitCommit : bytes) : result fatal (NodeConfig SK ND ND5 NT NL) :=
  let! vsn := if nonempty gitCommit then match slice gitCommit 0 8 with Some c => Ok (params_Version dflt ++ str "-" ++ c) | None => Panic end
              else Ok (params_Version dflt) in
  let! dataDir := MakeDataDir ctx in
  let! key := MakeNodeKey LoadECDSA HexToECDSA ctx in
  let! natif := match nat_Parse (GlobalString ctx NATFlag) with Some n => Ok n | None => Err (FatalOption NATFlag) end in
  let dev := GlobalBool ctx DevModeFlag in
  let dataDir := if dev && negb (GlobalIsSet ctx DataDirFlag) then filepath_Join (TempDir dflt) (str "/ethereum_dev_mode") else dataDir in
  let! restrict := let s := GlobalString ctx NetrestrictFlag in
                     if nonempty s then match ParseNetlist s with Some l => Ok (Some l) | None => Err (FatalOption NetrestrictFlag) end else Ok None in
  Ok {| nc_DataDir := dataDir; nc_KeyStoreDir := GlobalString ctx KeyStoreDirFlag; nc_UseLightweightKDF := GlobalBool ctx LightKDFFlag;
        nc_PrivateKey := key; nc_Name := name; nc_Version := vsn; nc_UserIdent := makeNodeUserIdent ctx;
        nc_NoDiscovery := GlobalBool ctx NoDiscoverFlag || GlobalBool ctx LightModeFlag;
        nc_DiscoveryV5 := GlobalBool ctx DiscoveryV5Flag || GlobalBool ctx LightModeFlag || (0 <? GlobalInt ctx LightServFlag);
        nc_DiscoveryV5Addr := MakeDiscoveryV5Address ctx;
        nc_BootstrapNodes := MakeBootstrapNodes ParseNode (MainnetBootnodes dflt) (TestnetBootnodes dflt) ctx;
        nc_BootstrapNodesV5 := MakeBootstrapNodesV5 ParseNodeV5 (DiscoveryV5Bootnodes dflt) ctx;
        nc_ListenAddr := if dev then str ":0" else MakeListenAddress ctx; nc_NAT := natif;
        nc_MaxPeers := if dev then 0 else GlobalInt ctx MaxPeersFlag; nc_MaxPendingPeers := GlobalInt ctx MaxPendingPeersFlag;
        nc_IPCPath := MakeIPCPath ctx; nc_HTTPHost := MakeHTTPRpcHost ctx; nc_HTTPPort := GlobalInt ctx RPCPortFlag;
        nc_HTTPCors := GlobalString ctx RPCCORSDomainFlag; nc_HTTPModules := MakeRPCModules (GlobalString ctx RPCApiFlag);
        nc_WSHost := MakeWSRpcHost ctx; nc_WSPort := GlobalInt ctx WSPortFlag; nc_WSOrigins := GlobalString ctx WSAllowedOriginsFlag;
        nc_WSModules := MakeRPCModules (GlobalString ctx WSApiFlag); nc_NetRestrict := restrict |}.
End MakeNode.
