(* ===== verification/Tools.v ===== *)
(** Tools around the node: the import of block files ([cmd/utils/cmd.go]) and the recorders of the debugging interface ([internal/debug]).

    A block file is the list of what its decoder returns; the chain is the class [BlockChain]. [interrupted] tells for each test of the stop channel
    whether it was closed. The recorders of profiles and traces are a handler with the files that are open; its methods hold a lock, so a history
    of calls is a list of operations, where a timed recording is the operation that starts it and the one that ends it. *)
From stdpp Require Import base gmap list strings.
From Stdlib Require Import ZArith Lia.
From S2P Require Import Prelude Types Manifest ManifestProps FileSystem Config Cli.

(** ** Block files *)

(** Nothing is assumed of [InsertChain]: it may succeed and leave blocks out, as the chain does when it is shut down or keeps blocks for later. *)
Class BlockChain (C B : Type) := {
  block_Number : B -> Z;
  HasBlock : C -> B -> bool;
  InsertChain : C -> list B -> option C
}.

Definition importBatchSize : nat := 2500.

Inductive importerr := Interrupted | BadBlock (n : Z) | InvalidBlock (n : Z) | OutOfFuel.

Section ImportLoop.
Context {C B : Type} `{BlockChain C B}.

(** A batch: the blocks that [Decode] gives until there is no room or the file ends, without those of number zero; [None] is an entry that does not decode. *)
Fixpoint load_batch (room : nat) (stream : list (option B)) (n : Z) (blocks : list B) : result importerr (list B * list (option B) * Z) :=
  match stream with
  | [] => Ok (blocks, [], n)
  | x :: stream' =>
    match room with
    | O => Ok (blocks, stream, n)
    | S room' =>
      match x with
      | None => Err (BadBlock n)
      | Some b => if block_Number b =? 0 then load_batch room stream' n blocks else load_batch room' stream' (n + 1) (blocks ++ [b])
      end
    end
  end.

Definition hasAllBlocks (chain : C) (bs : list B) : bool := forallb (HasBlock chain) bs.

Context (interrupted : nat -> bool).

(** The batches, with the number of tests of the stop channel so far. *)
Fixpoint import_loop (fuel : nat) (chain : C) (stream : list (option B)) (n : Z) (tests : nat) : result importerr C :=
  match fuel with
  | O => Err OutOfFuel
  | S fuel =>
    if interrupted tests then Err Interrupted
    else
      let! '(blocks, stream, n) := load_batch importBatchSize stream n [] in
      match blocks with
      | [] => Ok chain
      | _ =>
        if interrupted (S tests) then Err Interrupted
        else if hasAllBlocks chain blocks then import_loop fuel chain stream n (S (S tests))
        else match InsertChain chain blocks with
             | None => Err (InvalidBlock n)
             | Some chain => import_loop fuel chain stream n (S (S tests))
             end
      end
  end.

Definition ImportChain (chain : C) (stream : list (option B)) : result importerr C := import_loop (S (length stream)) chain stream 0 0.
End ImportLoop.

(** ** Recorders *)

(** The writers of the handler with their file names, the files that the runtime writes profiles and traces to, and the descriptors that are open. *)
Record HandlerT := mkHandler {
  cpuW : option nat;
  cpuFile : bytes;
  traceW : option nat;
  traceFile : bytes;
  rt_profile : option nat;
  rt_trace : option nat;
  opened : gset nat;
  next_fd : nat
}.

Definition Handler : HandlerT :=
  {| cpuW := None; cpuFile := []; traceW := None; traceFile := []; rt_profile := None; rt_trace := None; opened := ∅; next_fd := 0 |}.

Inductive debugerr := InProgress | CreateFailed | RuntimeBusy | NotInProgress.

(** [create] says whether the file can be created. *)
Definition StartCPUProfile (h : HandlerT) (file : bytes) (create : bool) : option debugerr * HandlerT :=
  match cpuW h with
  | Some _ => (Some InProgress, h)
  | None =>
    if negb create then (Some CreateFailed, h)
    else
      let f := next_fd h in
      match rt_profile h with
      | Some _ => (Some RuntimeBusy, mkHandler None (cpuFile h) (traceW h) (traceFile h) (rt_profile h) (rt_trace h) (opened h) (S f))
      | None => (None, mkHandler (Some f) file (traceW h) (traceFile h) (Some f) (rt_trace h) ({[f]} ∪ opened h) (S f))
      end
  end.

Definition StopCPUProfile (h : HandlerT) : option debugerr * HandlerT :=
  match cpuW h with
  | None => (Some NotInProgress, mkHandler None (cpuFile h) (traceW h) (traceFile h) None (rt_trace h) (opened h) (next_fd h))
  | Some f => (None, mkHandler None [] (traceW h) (traceFile h) None (rt_trace h) (opened h ∖ {[f]}) (next_fd h))
  end.

Definition StartGoTrace (h : HandlerT) (file : bytes) (create : bool) : option debugerr * HandlerT :=
  match traceW h with
  | Some _ => (Some InProgress, h)
  | None =>
    if negb create then (Some CreateFailed, h)
    else
      let f := next_fd h in
      match rt_trace h with
      | Some _ => (Some RuntimeBusy, mkHandler (cpuW h) (cpuFile h) None (traceFile h) (rt_profile h) (rt_trace h) (opened h) (S f))
      | None => (None, mkHandler (cpuW h) (cpuFile h) (Some f) file (rt_profile h) (Some f) ({[f]} ∪ opened h) (S f))
      end
  end.

Definition StopGoTrace (h : HandlerT) : option debugerr * HandlerT :=
  match traceW h with
  | None => (Some NotInProgress, mkHandler (cpuW h) (cpuFile h) None (traceFile h) (rt_profile h) None (opened h) (next_fd h))
  | Some f => (None, mkHandler (cpuW h) (cpuFile h) None [] (rt_profile h) None (opened h ∖ {[f]}) (next_fd h))
  end.

(** The start and the end of the timed recordings, whose errors at the end are lost. *)
Inductive debug_op := DStartCPU (file : bytes) (create : bool) | DStopCPU | DStartTrace (file : bytes) (create : bool) | DStopTrace.

Definition debug_apply (h : HandlerT) (op : debug_op) : HandlerT :=
  match op with
  | DStartCPU file create => snd (StartCPUProfile h file create)
  | DStopCPU => snd (StopCPUProfile h)
  | DStartTrace file create => snd (StartGoTrace h file create)
  | DStopTrace => snd (StopGoTrace h)
  end.

Definition CpuProfile_calls (file : bytes) (create : bool) : debug_op * debug_op := (DStartCPU file create, DStopCPU).
Definition GoTrace_calls (file : bytes) (create : bool) : debug_op * debug_op := (DStartTrace file create, DStopTrace).

Definition Exit (h : HandlerT) : HandlerT := snd (StopGoTrace (snd (StopCPUProfile h))).

Definition traceFlag := str "trace".
Definition cpuprofileFlag := str "cpuprofile".

(** What [Setup] starts from the flags. *)
Definition Setup (h : HandlerT) (ctx : Context_) (create : bytes -> bool) : option debugerr * HandlerT :=
  let traceFile := GlobalString ctx traceFlag in
  let '(err, h) := if nonempty traceFile then StartGoTrace h traceFile (create traceFile) else (None, h) in
  match err with
  | Some e => (Some e, h)
  | None =>
    let cpuFile := GlobalString ctx cpuprofileFlag in
    if nonempty cpuFile then StartCPUProfile h cpuFile (create cpuFile) else (None, h)
  end.

(** [expandHome] of the debugging interface does not expand other variables. *)
Definition expandHome (Getenv : bytes -> bytes) (current_home : option bytes) (p : bytes) : bytes :=
  Clean (if bool_decide (str "~/" `prefix_of` p) || bool_decide ([126; 92] `prefix_of` p) then
           let home := homeDir Getenv current_home in if nonempty home then home ++ drop 1 p else p
         else p).

(** ** Theorems *)

Section ImportProps.
Context {C B : Type} `{BlockChain C B}.

Lemma load_batch_spec room stream n blocks blocks' stream' n' : load_batch room stream n blocks = Ok (blocks', stream', n') ->
  exists used new, stream = (Some <$> used) ++ stream' /\ blocks' = blocks ++ new /\ new = filter (fun b => block_Number b <> 0) used /\
    (length new <= room)%nat /\ ((length new < room)%nat -> stream' = []).
Proof using Type.
  revert room n blocks. induction stream as [|x stream IH]; intros room n blocks E; cbn in E.
  - injection E as <- <- <-. exists [], []. split_and!; [done|by rewrite app_nil_r|done|cbn; lia|done].
  - destruct room as [|room]; [injection E as <- <- <-; exists [], []; split_and!; [done|by rewrite app_nil_r|done|cbn; lia|cbn; lia]|].
    destruct x as [b|]; [|done]. destruct (Z.eqb_spec (block_Number b) 0) as [E0|E0].
    + destruct (IH _ _ _ E) as (used & new & -> & -> & Hnew & Hlen & Hend). exists (b :: used), new. split_and!; try done. by rewrite filter_cons_False by (intros []; done).
    + destruct (IH _ _ _ E) as (used & new & -> & -> & Hnew & Hlen & Hend). exists (b :: used), (b :: new).
      split_and!; [done|by rewrite <- app_assoc|by rewrite filter_cons_True, Hnew by done|cbn; lia|]. cbn. intros Hlt. apply Hend. lia.
Qed.

Lemma load_batch_total room stream n blocks : None ∉ stream -> exists r, load_batch (C := C) room stream n blocks = Ok r.
Proof using Type.
  revert room n blocks. induction stream as [|x stream IH]; intros room n blocks Hn; [by eexists|]. destruct room as [|room]; [by eexists|]. cbn.
  destruct x as [b|]; [|exfalso; apply Hn; by left]. assert (Hn' : None ∉ stream) by (intros Hin; apply Hn; by right). by case_match; apply IH.
Qed.

(** The reference: the blocks in batches, each of which the chain has or takes. *)
Fixpoint batches_loop (fuel k : nat) (l : list B) : list (list B) :=
  match fuel, l with
  | S fuel, _ :: _ => take k l :: batches_loop fuel k (drop k l)
  | _, _ => []
  end.
Definition batches (k : nat) (l : list B) : list (list B) := batches_loop (length l) k l.

Definition take_batch (chain : C) (bs : list B) : option C := if hasAllBlocks chain bs then Some chain else InsertChain chain bs.
Fixpoint take_batches (chain : C) (bss : list (list B)) : option C :=
  match bss with
  | [] => Some chain
  | bs :: bss => chain ← take_batch chain bs; take_batches chain bss
  end.

Lemma batches_loop_fuel k : (0 < k)%nat -> forall f f' l, (length l <= f)%nat -> (length l <= f')%nat -> batches_loop f k l = batches_loop f' k l.
Proof using Type.
  intros Hk. induction f as [|f IH]; intros [|f'] [|b l] Hf Hf'; cbn [batches_loop length] in *; try done; try lia. f_equal. apply IH; rewrite length_drop; cbn [length]; lia.
Qed.

Lemma batches_cons k l : (0 < k)%nat -> l <> [] -> batches k l = take k l :: batches k (drop k l).
Proof using Type.
  intros Hk Hl. unfold batches. destruct l as [|b l]; [done|]. cbn [length batches_loop]. f_equal. apply batches_loop_fuel; [done| |lia]. rewrite length_drop. cbn [length]. lia.
Qed.

Lemma concat_batches k l : (0 < k)%nat -> concat (batches k l) = l /\ Forall (fun bs => 0 < length bs <= k)%nat (batches k l).
Proof using Type.
  intros Hk. induction l as [l IH] using (induction_ltof1 _ length); unfold ltof in IH. destruct (decide (l = [])) as [-> |Hl]; [split; [done|constructor]|].
  rewrite batches_cons by done. destruct (IH (drop k l)) as [E HF].
  { rewrite length_drop. destruct l; [done|]. cbn [length]. lia. }
  cbn [concat]. rewrite E, take_drop. split; [done|]. constructor; [|done]. rewrite length_take. destruct l; [done|]. cbn [length]. lia.
Qed.

Abbreviation numbered := (filter (fun b => block_Number b <> 0)).

(** One batch of the file is the next one of the reference. *)
Lemma load_batch_next stream n new rest n' :
  load_batch importBatchSize stream n [] = Ok (new, rest, n') ->
  exists used, stream = (Some <$> used) ++ rest /\ new = numbered used /\ (new = [] -> rest = []) /\
    forall blocks, rest = Some <$> blocks -> new <> [] ->
      batches importBatchSize (numbered (used ++ blocks)) = new :: batches importBatchSize (numbered blocks).
Proof using Type.
  intros E. destruct (load_batch_spec _ _ _ _ _ _ _ E) as (used & new' & -> & -> & -> & Hlen & Hend). cbn [app]. exists used. split_and!; [done|done| |].
  - intros E0. apply Hend. rewrite E0. unfold importBatchSize. cbn. lia.
  - intros blocks -> Hne. rewrite filter_app. rewrite batches_cons; [|unfold importBatchSize; lia|by destruct (filter _ used)].
    destruct (decide (length (numbered used) < importBatchSize)%nat) as [Hlt|Hge].
    + apply Hend in Hlt as Hnil. destruct blocks; [|done]. cbn [filter]. rewrite filter_nil, app_nil_r. rewrite take_ge by lia. by rewrite drop_ge by lia.
    + rewrite take_app_length', drop_app_length' by lia. done.
Qed.

Lemma import_loop_sound interrupted fuel chain stream n tests c' :
  import_loop interrupted fuel chain stream n tests = Ok c' ->
  exists blocks, stream = Some <$> blocks /\ take_batches chain (batches importBatchSize (numbered blocks)) = Some c'.
Proof using Type*.
  revert chain stream n tests. induction fuel as [|fuel IH]; intros chain stream n tests E; [done|]. cbn [import_loop] in E. destruct (interrupted tests); [done|].
  destruct (load_batch importBatchSize stream n []) as [[[new rest] n']|e|] eqn:El; cbn [rbind] in E; [|done..].
  destruct (load_batch_next _ _ _ _ _ El) as (used & -> & Enew & Hend & Hnext). destruct new as [|b0 bs].
  - injection E as <-. rewrite (Hend eq_refl), app_nil_r. exists used. split; [done|]. by rewrite <- Enew.
  - destruct (interrupted (S tests)); [done|].
    assert (exists c1, take_batch chain (b0 :: bs) = Some c1 /\ import_loop interrupted fuel c1 rest n' (S (S tests)) = Ok c') as (c1 & Et & E1).
    { unfold take_batch. destruct (hasAllBlocks chain _); [by exists chain|]. destruct (InsertChain chain _) as [c1|]; [by exists c1|done]. }
    destruct (IH _ _ _ _ E1) as (blocks & -> & Hb). exists (used ++ blocks). split; [by rewrite fmap_app|]. rewrite Hnext by done. cbn [take_batches]. by rewrite Et.
Qed.

Lemma import_loop_complete interrupted fuel chain blocks n tests c' :
  (forall t, interrupted t = false) -> (length blocks < fuel)%nat -> take_batches chain (batches importBatchSize (numbered blocks)) = Some c' ->
  import_loop interrupted fuel chain (Some <$> blocks) n tests = Ok c'.
Proof using Type*.
  intros Hi. revert chain blocks n tests. induction fuel as [|fuel IH]; intros chain blocks n tests Hf Ht; [lia|]. cbn [import_loop]. rewrite Hi.
  destruct (load_batch_total importBatchSize (Some <$> blocks) n []) as [[[new rest] n'] El]; [by intros (b & ? & _)%list_elem_of_fmap|]. rewrite El. cbn [rbind].
  destruct (load_batch_next _ _ _ _ _ El) as (used & Es & Enew & Hend & Hnext).
  assert (exists more, rest = Some <$> more /\ blocks = used ++ more) as (more & -> & ->).
  { apply fmap_app_inv in Es as (u & more & Eu & -> & ->). exists more. split; [done|]. f_equal. by apply (inj (fmap Some)). }
  destruct new as [|b0 bs].
  - pose proof (Hend eq_refl) as Hm. destruct more; [|done]. rewrite app_nil_r, <- Enew in Ht. by injection Ht as <-.
  - rewrite Hi. rewrite Hnext in Ht by done. cbn [take_batches] in Ht. unfold take_batch in Ht.
    assert (Hl : (length more < fuel)%nat). { rewrite length_app in Hf. destruct used; [done|]. cbn in Hf. lia. }
    destruct (hasAllBlocks chain _); cbn [mbind option_bind] in Ht; [by apply IH|]. destruct (InsertChain chain _) as [c1|]; [|done]. by apply IH.
Qed.

Lemma import_loop_fuel interrupted fuel chain stream n tests :
  (length stream < fuel)%nat -> import_loop interrupted fuel chain stream n tests <> Err OutOfFuel.
Proof using Type*.
  revert chain stream n tests. induction fuel as [|fuel IH]; intros chain stream n tests Hf E; [lia|]. cbn [import_loop] in E. destruct (interrupted tests); [done|].
  destruct (load_batch importBatchSize stream n []) as [[[blocks rest] n']|e|] eqn:El; cbn [rbind] in E; [| |done].
  - destruct (load_batch_spec _ _ _ _ _ _ _ El) as (used & new & -> & -> & Enew & _ & _). cbn [app] in E. destruct new as [|b0 bs]; [done|].
    assert ((length rest < fuel)%nat). { rewrite length_app, length_fmap in Hf. destruct used; [done|]. cbn in Hf. lia. }
    destruct (interrupted (S tests)); [done|]. case_match; [by eapply IH|]. case_match; [by eapply IH|done].
  - injection E as ->. clear -El. revert El. generalize importBatchSize n ([] : list B). induction stream as [|x stream IHs]; intros [|room] k bl El; cbn in El; try done.
    destruct x; [|done]. case_match; by eapply IHs.
Qed.
End ImportProps.

(** An import of a block file always ends. When it succeeds every entry of the file decodes, and its blocks but those of number zero, in batches of 2500 in the order of the file,
    were in the chain already or were taken by [InsertChain], each batch by the chain that the batches before it made; and when it is not interrupted it does
    succeed if the batches are taken. *)
Theorem ImportChain_complete {C B} `{BlockChain C B} (interrupted : nat -> bool) (chain : C) (stream : list (option B)) :
  ImportChain interrupted chain stream <> Err OutOfFuel /\
  (forall chain', ImportChain interrupted chain stream = Ok chain' ->
     exists blocks, stream = Some <$> blocks /\ take_batches chain (batches importBatchSize (filter (fun b => block_Number b <> 0) blocks)) = Some chain') /\
  (forall blocks chain', (forall t, interrupted t = false) -> stream = Some <$> blocks ->
     take_batches chain (batches importBatchSize (filter (fun b => block_Number b <> 0) blocks)) = Some chain' -> ImportChain interrupted chain stream = Ok chain').
Proof.
  unfold ImportChain. split_and!.
  - apply import_loop_fuel. lia.
  - intros chain'. apply import_loop_sound.
  - intros blocks chain' Hi -> Ht. apply import_loop_complete; [done| |done]. rewrite length_fmap. lia.
Qed.

(** Blocks are numbers and a chain is the list of its blocks. *)
#[local] Instance list_chain : BlockChain (list Z) Z := {|
  block_Number b := b;
  HasBlock c b := bool_decide (b ∈ c);
  InsertChain c bs := Some (c ++ bs)
|}.

Lemma ImportChain_complete_witness :
  ImportChain (fun _ => false) [1] [Some 0; Some 1; Some 2] = Ok [1; 1; 2].
Proof. destruct (ImportChain_complete (fun _ => false) [1] [Some 0; Some 1; Some 2]) as (_ & _ & H3). by apply (H3 [0; 1; 2]). Defined.

Example import_three : ImportChain (fun _ => false) [1] [Some 0; Some 1; Some 2] = Ok [1; 1; 2].
Proof. vm_compute. reflexivity. Qed.

(** The files that are open are those of the recordings that run, and the handler knows what the runtime does. *)
Record handler_ok (h : HandlerT) : Prop := {
  ho_cpu : rt_profile h = cpuW h;
  ho_trace : rt_trace h = traceW h;
  ho_open : forall f, f ∈ opened h <-> cpuW h = Some f \/ traceW h = Some f;
  ho_fresh : forall f, f ∈ opened h -> (f < next_fd h)%nat;
  ho_distinct : forall f, cpuW h = Some f -> traceW h <> Some f
}.

Lemma debug_apply_ok h op : handler_ok h -> handler_ok (debug_apply h op).
Proof.
  intros [Hc Ht Ho Hf Hd]. destruct h as [cw cf tw tf rp rt op_ fd]. cbn in *. subst rp rt.
  assert (Hcf : forall f, cw = Some f -> (f < fd)%nat) by (intros f ->; apply Hf, Ho; by left).
  assert (Htf : forall f, tw = Some f -> (f < fd)%nat) by (intros f ->; apply Hf, Ho; by right).
  destruct op as [file create| |file create|]; cbn; unfold StartCPUProfile, StopCPUProfile, StartGoTrace, StopGoTrace; cbn;
    destruct cw as [c|], tw as [t|]; cbn; try destruct create; cbn; split; cbn; try done; intros f; try (specialize (Ho f); specialize (Hf f));
    rewrite ?elem_of_union, ?elem_of_difference, ?elem_of_singleton; try specialize (Hcf _ eq_refl); try specialize (Htf _ eq_refl); try specialize (Hd _ eq_refl);
    try (intros [= <-]; intros [= E]; lia); try (intros [->|?%Hf]; lia); try (intros [?%Hf _]; lia); naive_solver.
Qed.

(** In every history of starts and stops of profiles and traces, by any number of callers, the files that are open are those of the recordings
    that run, one of each kind at most, and none is open after the exit. *)
Theorem recorders_keep_no_files ops :
  let h := foldl debug_apply Handler ops in
  handler_ok h /\ opened (Exit h) = ∅.
Proof.
  intros h. assert (Hh : handler_ok h).
  { unfold h. assert (H0 : handler_ok Handler) by (split; cbn; [done|done|set_solver|set_solver|done]). revert H0. generalize Handler.
    induction ops as [|op ops IH]; intros h0 H0; [done|]. by apply IH, debug_apply_ok. }
  split; [done|]. unfold Exit. apply (debug_apply_ok _ DStopCPU) in Hh as H1. apply (debug_apply_ok _ DStopTrace) in H1 as [_ _ Ho _ _]. cbn [debug_apply] in Ho.
  apply set_eq. intros f. rewrite Ho. unfold StopGoTrace, StopCPUProfile. repeat case_match; set_solver.
Qed.

(** The end of a timed profile ends the profile that was started in the meantime. *)
Example timed_profile_ends_other :
  let h := foldl debug_apply Handler [fst (CpuProfile_calls (str "a") true); DStopCPU; DStartCPU (str "b") true] in
  cpuFile h = str "b" /\ rt_profile (debug_apply h (snd (CpuProfile_calls (str "a") true))) = None.
Proof. vm_compute. done. Qed.
