(* ===== verification/Client.v ===== *)
(** The client transport of the proxy ([livepeer/api/http/roundtripper.go]) and the origins that its server allows ([api/http/server.go],
    [StartHttpServer]). *)
From stdpp Require Import base gmap list strings.
From Stdlib Require Import ZArith Lia.
From S2P Require Import Prelude Types Manifest ManifestProps ManifestStore Api FileSystem Config Cli.

Record RoundTripper := mkRoundTripper { rt_Host : bytes; rt_Port : bytes }.

(** The path of the request to the proxy. *)
Definition proxied_path (proto host path : bytes) : bytes := slash :: proto ++ str ":/" ++ host ++ slash :: path.

Definition RoundTrip_url (self : RoundTripper) (proto host path : bytes) : bytes :=
  let h := if #(rt_Host self) =? 0 then str "localhost" else rt_Host self in
  str "http://" ++ h ++ str ":" ++ rt_Port self ++ proxied_path proto host path.

(** [Proto] of a request that [http.NewRequest] makes. *)
Definition request_Proto : bytes := str "HTTP/1.1".

(** The path that the multiplexer of [net/http] redirects a request to before it calls a handler. *)
Definition mux_path (p : bytes) : bytes :=
  let np := Clean p in
  match p, last p with
  | [], _ => [slash]
  | _, Some c => if (c =? slash) && negb (bool_decide (np = [slash])) then np ++ [slash] else np
  | _, None => np
  end.

Record Server := mkServer { sv_Addr : bytes; sv_CorsString : bytes }.

(** The origins, the methods and the lifetime of the options of the CORS handler. *)
Record CorsOptions := mkCorsOptions { AllowedOrigins : list bytes; AllowedMethods : list bytes; MaxAge : Z }.

Definition StartHttpServer (server : Server) : CorsOptions :=
  {| AllowedOrigins := TrimSpace <$> strings_Split comma (sv_CorsString server);
     AllowedMethods := [str "POST"; str "GET"; str "DELETE"; str "PATCH"; str "PUT"]; MaxAge := 600 |}.

(** ** Lemmas *)

Definition dotdot : bytes := [dot; dot].
Definition kept_component (c : bytes) : Prop := c <> [] /\ c <> [dot].

Lemma clean_loop_down kept cs : Forall (fun c => c <> dotdot) cs -> clean_loop true kept cs = rev kept ++ filter kept_component cs.
Proof.
  intros Hcs. revert kept. induction Hcs as [|c cs Hc _ IH]; intros kept; cbn [clean_loop]; [by rewrite app_nil_r|].
  destruct (decide (kept_component c)) as [[H1 H2]|Hn].
  - rewrite !bool_decide_false by done. cbn [orb]. rewrite IH, filter_cons_True by (by split). cbn [rev]. by rewrite <- app_assoc.
  - rewrite filter_cons_False by done. destruct (decide (c = [])) as [->|H1]; [rewrite bool_decide_true by done; apply IH|].
    destruct (decide (c = [dot])) as [->|H2]; [|by destruct Hn]. rewrite (bool_decide_true ([dot] = [dot])), orb_true_r by done. apply IH.
Qed.

Lemma clean_first a p : a <> [] -> a <> [dot] -> Forall (fun c => c <> dotdot) (a :: components p) -> slash ∉ a ->
  exists rest, Clean (slash :: a ++ slash :: p) = slash :: a ++ rest.
Proof.
  intros Ha Hd Hall Hs. unfold Clean. cbn [IsAbs]. rewrite Z.eqb_refl. cbn [components]. rewrite Z.eqb_refl.
  assert (E : components (a ++ slash :: p) = a :: components p).
  { clear -Hs. induction a as [|c a IH]; cbn; [done|]. destruct (Z.eqb_spec c slash) as [->|Hc]; [exfalso; apply Hs; by left|].
    rewrite IH; [done|]. intros Hin. apply Hs. by right. }
  rewrite E, clean_loop_down by (by constructor). cbn [rev app]. rewrite filter_cons_False by (by intros [? _]). rewrite filter_cons_True by (by split).
  destruct (filter kept_component (components p)) as [|c cs]; cbn [join]; [exists []; by rewrite app_nil_r|]. eauto.
Qed.

(** Every request that goes through the client transport is refused by the proxy with status 400: the transport puts the version of HTTP where the
    proxy expects the protocol. *)
Theorem RoundTrip_refused Retrieve dpa_Store Unmarshal Marshal dns fuel host path r :
  Forall (fun c => c <> dotdot) (components (host ++ slash :: path)) -> rq_Path r = mux_path (proxied_path request_Proto host path) ->
  handler Retrieve dpa_Store Unmarshal Marshal dns fuel true r = Ok (HttpError 400).
Proof.
  intros Hdd Hp. assert (Hn : exists rest, rq_Path r = slash :: str "HTTP" ++ rest).
  { rewrite Hp. unfold proxied_path, request_Proto. change (str "HTTP/1.1" ++ ?x) with (str "HTTP" ++ slash :: str "1.1" ++ x).
    destruct (clean_first (str "HTTP") (str "1.1" ++ str ":/" ++ host ++ slash :: path)) as [rest E]; [done|done| |by apply (bool_decide_unpack _)|].
    - constructor; [done|]. change (components (str "1.1" ++ str ":/" ++ host ++ slash :: path)) with (str "1.1:" :: components (host ++ slash :: path)). by constructor.
    - unfold mux_path. rewrite E. case_match; [|by exists rest]. case_match; [|by exists rest]. exists (rest ++ [slash]). cbn. by rewrite <- ?app_assoc. }
  destruct Hn as [rest E]. unfold handler. rewrite E. reflexivity.
Qed.

Lemma RoundTrip_refused_witness :
  handler one_retrieve one_store decode_singleton (fun _ => None) None 1 true (get_request (mux_path (proxied_path request_Proto (str "test.com") (str "/path")))) = Ok (HttpError 400).
Proof. apply (RoundTrip_refused one_retrieve one_store decode_singleton (fun _ => None) None 1 (str "test.com") (str "/path")); [|reflexivity]. repeat (constructor; [done|]). constructor. Defined.

Example RoundTrip_example :
  RoundTrip_url (mkRoundTripper [] (str "3222")) request_Proto (str "test.com") (str "/path") = str "http://localhost:3222/HTTP/1.1:/test.com//path" /\
  mux_path (proxied_path request_Proto (str "test.com") (str "/path")) = str "/HTTP/1.1:/test.com/path".
Proof. split; reflexivity. Qed.

(** Without a domain no origin is allowed: the list has the empty origin and is not empty, which would allow all of them. *)
Example cors_origins :
  AllowedOrigins (StartHttpServer (mkServer (str ":8500") [])) = [[]] /\
  AllowedOrigins (StartHttpServer (mkServer (str ":8500") (str "http://a.com, http://b.com"))) = [str "http://a.com"; str "http://b.com"].
Proof. split; reflexivity. Qed.
