(* ===== verification/Command.v ===== *)
(** The program ([cmd/livepeer/main.go]) and the service it runs ([livepeer/livepeer.go]).

    The key store is the class [AccountManager]; what the user types at the prompts is a list of answers, [None] where reading fails. The service
    records the components it starts and stops. A session is one run of the program: it reads the flags, makes the service, starts it and
    stops it, with the configuration file before and after. *)
From stdpp Require Import base gmap list strings pretty.
From Stdlib Require Import ZArith Lia.
From S2P Require Import Prelude Types Protocol Chunker Streamer Manifest ManifestProps FileSystem Config Cli.

(** ** Accounts *)

Record Account := mkAccount { ac_Address : bytes; ac_File : bytes }.

(** The key store: its accounts, the contents of its key files, and the decryption of a key. *)
Class AccountManager (AM SK : Type) := {
  AccountByIndex : AM -> Z -> option Account;
  Find : AM -> bytes -> option Account;
  NewAccount : AM -> bytes -> option (Account * AM);
  ReadKeyFile : AM -> bytes -> option bytes;
  DecryptKey : bytes -> bytes -> option SK
}.

Abbreviation answers := (list (option bytes)) (only parsing).

Definition AddressLength : Z := 20.

Definition IsHex (s : bytes) : bool := (4 <=? #s) && Z.even (#s) && bool_decide (take 2 s = str "0x").
Definition IsHexAddress (s : bytes) : bool :=
  ((#s =? 2 + 2 * AddressLength) && IsHex s) || ((#s =? 2 * AddressLength) && IsHex (str "0x" ++ s)).

Definition HexToAddress (s : bytes) : bytes :=
  let b := FromHex s in
  let b := if AddressLength <? #b then drop (length b - 20) b else b in
  replicate (20 - length b) 0 ++ b.

Fixpoint decimal (acc : Z) (s : bytes) : option Z :=
  match s with
  | [] => Some acc
  | c :: s' => if (48 <=? c) && (c <=? 57) then decimal (10 * acc + (c - 48)) s' else None
  end.

(** [strconv.Atoi]: an optional sign and decimal digits, within 64 bits. *)
Definition Atoi (s : bytes) : option Z :=
  let digits neg ds :=
    match ds with
    | [] => None
    | _ => match decimal 0 ds with
           | Some n => let n := if (neg : bool) then - n else n in if (- 2 ^ 63 <=? n) && (n <? 2 ^ 63) then Some n else None
           | None => None
           end
    end in
  match s with
  | c :: ds => if c =? 45 then digits true ds else if c =? 43 then digits false ds else digits false s
  | [] => None
  end.

Definition promptPassphrase (stdin : answers) : result fatal (bytes * answers) :=
  match stdin with
  | Some password :: stdin => Ok (password, stdin)
  | _ => Err FatalPrompt
  end.

Definition getPassPhrase (confirmation : bool) (i : nat) (passwords : list bytes) (stdin : answers) : result fatal (bytes * answers) :=
  match passwords with
  | _ :: _ =>
    match passwords !! i with
    | Some p => Ok (p, stdin)
    | None => Ok (List.last passwords [], stdin)
    end
  | [] =>
    let! '(password, stdin) := promptPassphrase stdin in
    if confirmation then
      let! '(confirm, stdin) := promptPassphrase stdin in
      if bool_decide (password = confirm) then Ok (password, stdin) else Err FatalMismatch
    else Ok (password, stdin)
  end.

Section Accounts.
Context {AM SK : Type} `{AccountManager AM SK}.
Context (LoadECDSA : bytes -> option SK) (ReadFile : bytes -> option bytes).

Definition MakeAddress (accman : AM) (account : bytes) : option Account :=
  if IsHexAddress account then Some {| ac_Address := HexToAddress account; ac_File := [] |}
  else match Atoi account with None => None | Some index => AccountByIndex accman index end.

Definition MakeEtherbase (accman : AM) (accounts : nat) (ctx : Context_) : result fatal bytes :=
  if negb (GlobalIsSet ctx EtherbaseFlag) && (accounts =? 0)%nat then Ok (make_bytes 20)
  else
    let etherbase := GlobalString ctx EtherbaseFlag in
    if bool_decide (etherbase = []) then Ok (make_bytes 20)
    else match MakeAddress accman etherbase with
         | None => Err (FatalOption EtherbaseFlag)
         | Some account => Ok (ac_Address account)
         end.

Definition findOrGenerateFirstAccount (accman : AM) (stdin : answers) (ctx : Context_) : result fatal (bytes * AM * answers) :=
  match AccountByIndex accman 0 with
  | Some acc => Ok (str "0x" ++ hex_encode (ac_Address acc), accman, stdin)
  | None =>
    let! passwords := MakePasswordList ReadFile ctx in
    let! '(password, stdin) := getPassPhrase true 0 passwords stdin in
    match NewAccount accman password with
    | None => Err FatalCreateAccount
    | Some (acc, accman) => Ok (str "0x" ++ hex_encode (ac_Address acc), accman, stdin)
    end
  end.

(** The attempts to unlock a key. *)
Fixpoint unlock (n : nat) (keyjson : bytes) (stdin : answers) : result fatal (SK * answers) :=
  match n with
  | O => Err FatalDecrypt
  | S n =>
    let! '(passphrase, stdin) := promptPassphrase stdin in
    match DecryptKey keyjson passphrase with
    | Some key => Ok (key, stdin)
    | None => unlock n keyjson stdin
    end
  end.

Definition decryptStoreAccount (accman : AM) (stdin : answers) (account : bytes) : result fatal (SK * answers) :=
  let a := if IsHexAddress account then Find accman (HexToAddress account)
           else match Atoi account with Some ix => AccountByIndex accman ix | None => None end in
  match a with
  | None => Err FatalNoAccount
  | Some a =>
    match ReadKeyFile accman (ac_File a) with
    | None => Err FatalAccountFile
    | Some keyjson => unlock 3 keyjson stdin
    end
  end.

Definition SwarmAccountFlag := str "bzzaccount".

Definition getAccount (accman : AM) (stdin : answers) (ctx : Context_) : result fatal (SK * AM * answers) :=
  let keyid := GlobalString ctx SwarmAccountFlag in
  let! '(keyid, accman, stdin) :=
    if bool_decide (keyid = []) then findOrGenerateFirstAccount accman stdin ctx else Ok (keyid, accman, stdin) in
  match LoadECDSA keyid with
  | Some key => Ok (key, accman, stdin)
  | None =>
    let! '(key, stdin) := decryptStoreAccount accman stdin keyid in
    Ok (key, accman, stdin)
  end.
End Accounts.

(** ** Peers of the command line *)

(** The nodes that [AddPeer] is called with. *)
Definition injectBootnodes {ND} (ParseNode : bytes -> option ND) (nodes : list bytes) : list ND := parse_nodes ParseNode nodes.

Definition LivepeerNetworkIdFlag := str "lpnetworkid".

(** The peers that [livepeer] adds by itself. *)
Definition initial_peers {ND} (ParseNode : bytes -> option ND) (toynetBootNodes : list bytes) (ctx : Context_) : list ND :=
  if GlobalIsSet ctx BootnodesFlag then injectBootnodes ParseNode (strings_Split comma (GlobalString ctx BootnodesFlag))
  else if GlobalUint64 ctx LivepeerNetworkIdFlag =? NetworkId then injectBootnodes ParseNode toynetBootNodes
  else [].

Definition RTMPFlag := str "rtmp".
Definition HLSFlag := str "hls".

(** The URL that [stream] plays; [Some None] is the exit for a port that is no number, [None] the panic when no stream is named. *)
Definition stream_url (ctx : Context_) (args : list bytes) : option (option bytes) :=
  match args with
  | [] => None
  | streamID :: _ =>
    let port := GlobalString ctx RTMPFlag in
    if GlobalBool ctx HLSFlag then
      match Atoi port with
      | None => Some None
      | Some numericPort => Some (Some (str "http://localhost:" ++ Itoa (i64 (numericPort + 7000)) ++ str "/stream/" ++ streamID ++ str ".m3u8"))
      end
    else Some (Some (str "rtmp://localhost:" ++ port ++ str "/stream/" ++ streamID))
  end.

(** ** The service *)

Inductive event :=
| EvDropAll | EvHiveStart | EvDpaStart | EvHttpServer (addr cors : bytes) | EvLPMS (rtmpPort httpPort ffmpegPath vodPath : bytes)
| EvDpaStop | EvHiveStop | EvChequebookStop.

Inductive swarmerr := EmptyPublicKey | EmptyBzzKey | ErrLocalStore | ErrENS | ErrChequebook.

Record Swarm (SK KP SP CB : Type) := mkSwarm {
  sw_config : Config SK KP SP CB;
  sw_swapEnabled : bool;
  sw_syncEnabled : bool;
  sw_privateKey : option SK;
  sw_corsString : bytes;
  sw_chunker : TreeChunker;
  sw_base : Hash32                  (* the address of the hive and of the streamer *)
}.
Arguments mkSwarm {SK KP SP CB}.
Arguments sw_config {SK KP SP CB} _.
Arguments sw_swapEnabled {SK KP SP CB} _.
Arguments sw_syncEnabled {SK KP SP CB} _.
Arguments sw_privateKey {SK KP SP CB} _.
Arguments sw_corsString {SK KP SP CB} _.
Arguments sw_chunker {SK KP SP CB} _.
Arguments sw_base {SK KP SP CB} _.

Definition with_config {SK KP SP CB} (c : Config SK KP SP CB) (self : Swarm SK KP SP CB) : Swarm SK KP SP CB :=
  {| sw_config := c; sw_swapEnabled := sw_swapEnabled self; sw_syncEnabled := sw_syncEnabled self; sw_privateKey := sw_privateKey self;
     sw_corsString := sw_corsString self; sw_chunker := sw_chunker self; sw_base := sw_base self |}.

Section Service.
Context {SK KP SP CB : Type} `{ConfigDeps SK KP SP CB}.
Abbreviation Config' := (Config SK KP SP CB).
Abbreviation Swarm' := (Swarm SK KP SP CB).
(** The hash functions, whether the databases of a configuration open and whether the registry at an address can be used. *)
Context (sha256 sha3 : Hasher) (NewLocalStore : StoreParams -> bool) (NewENS : option SK -> bytes -> bool).
(** [SetChequebook] of the swap parameters: the contract and the chequebook it leaves, and whether it succeeds. *)
Context (swap_SetChequebook : SwapParams SK SP CB -> bytes -> bytes * option CB * bool).

(** The panic is that of a chunker without hash function. *)
Definition NewSwarm (config : Config') (swapEnabled syncEnabled : bool) (cors : bytes) : result swarmerr Swarm' :=
  if bool_decide (FromHex (cf_PublicKey config) = ZeroKey) then Err EmptyPublicKey
  else if bool_decide (FromHex (cf_BzzKey config) = ZeroKey) then Err EmptyBzzKey
  else if negb (NewLocalStore (cf_Store config)) then Err ErrLocalStore
  else
    match NewTreeChunker sha256 sha3 (cf_Chunker config) with
    | None => Panic
    | Some chunker =>
      let privateKey := sp_privateKey (cf_Swap config) in
      if negb (NewENS privateKey (cf_EnsRoot config)) then Err ErrENS
      else Ok {| sw_config := config; sw_swapEnabled := swapEnabled; sw_syncEnabled := syncEnabled; sw_privateKey := privateKey;
                       sw_corsString := cors; sw_chunker := chunker; sw_base := HexToHash (cf_BzzKey config) |}
    end.

(** The error of [Save] is lost. *)
Definition SetChequebook (flt : faults) (d : disk) (self : Swarm') : option swarmerr * list event * Swarm' * disk :=
  let sw := cf_Swap (sw_config self) in
  let '(contract, chbook, ok) := swap_SetChequebook sw (cf_Path (sw_config self)) in
  let sw := {| sp_params := sp_params sw; sp_PublicKey := sp_PublicKey sw; sp_Contract := contract; sp_Beneficiary := sp_Beneficiary sw;
               sp_privateKey := sp_privateKey sw; sp_owner := sp_owner sw; sp_chbook := chbook |} in
  let self := with_config (with_Swap sw (sw_config self)) self in
  if ok then let '(_, d) := Save flt d (sw_config self) in (None, [EvDropAll], self, d)
  else (Some ErrChequebook, [], self, d).

(** The port of the HLS server; a port that is no number counts as zero. *)
Definition lpms_httpPort (rtmpPort : bytes) : bytes := Itoa (i64 (default 0 (Atoi rtmpPort) + 7000)).

Definition Swarm_Start (flt : faults) (d : disk) (self : Swarm') : option swarmerr * list event * Swarm' * disk :=
  let '(err, evs, self, d) := if sw_swapEnabled self then SetChequebook flt d self else (None, [], self, d) in
  match err with
  | Some e => (Some e, evs, self, d)
  | None =>
    let c := sw_config self in
    let http := if nonempty (cf_Port c) then [EvHttpServer (str ":" ++ cf_Port c) (sw_corsString self)] else [] in
    let rtmpPort := cf_RTMPPort c in
    let lpms := if nonempty rtmpPort then [EvLPMS rtmpPort (lpms_httpPort rtmpPort) (cf_FFMpegPath c) (cf_VodPath c)] else [] in
    (None, evs ++ [EvHiveStart; EvDpaStart] ++ http ++ lpms, self, d)
  end.

Definition Swarm_Stop (flt : faults) (d : disk) (self : Swarm') : option cfgerr * list event * disk :=
  let chbook := match sp_chbook (cf_Swap (sw_config self)) with Some _ => [EvChequebookStop] | None => [] end in
  let '(err, d) := Save flt d (sw_config self) in
  (err, [EvDpaStop; EvHiveStop] ++ chbook, d).

(** ** Sessions *)

Definition ChequebookAddrFlag := str "chequebook".
Definition SwarmConfigPathFlag := str "bzzconfig".
Definition SwarmPortFlag := str "bzzport".
Definition SwarmSwapEnabledFlag := str "swap".
Definition SwarmSyncEnabledFlag := str "sync".
Definition CorsStringFlag := str "corsdomain".
Definition FFMpegPathFlag := str "ffmpegPath".

(** The directory of the configuration: the flag, or that of the node. *)
Definition bzzdir (ctx : Context_) (instanceDir : bytes) : bytes :=
  let dir := GlobalString ctx SwarmConfigPathFlag in if bool_decide (dir = []) then instanceDir else dir.

(** [registerBzzService] after the account is found. *)
Definition configure (flt : faults) (d : disk) (ctx : Context_) (instanceDir : bytes) (prvkey : SK) : result fatal Config' * disk :=
  let chbookaddr := HexToAddress (GlobalString ctx ChequebookAddrFlag) in
  let '(bzzconfig, err, d) :=
    NewConfig flt d (bzzdir ctx instanceDir) chbookaddr prvkey (GlobalUint64 ctx LivepeerNetworkIdFlag) (GlobalString ctx RTMPFlag)
      (GlobalString ctx FFMpegPathFlag) in
  match err, bzzconfig with
  | Some e, _ => (Err (FatalConfig e), d)
  | None, None => (Err FatalRegister, d)
  | None, Some c => (Ok (let bzzport := GlobalString ctx SwarmPortFlag in if nonempty bzzport then with_Port bzzport c else c), d)
  end.

Definition registerBzzService {AM} `{AccountManager AM SK} (LoadECDSA : bytes -> option SK) (ReadFile : bytes -> option bytes)
    (flt : faults) (d : disk) (ctx : Context_) (instanceDir : bytes) (accman : AM) (stdin : answers) : result fatal Config' * disk :=
  match getAccount LoadECDSA ReadFile accman stdin ctx with
  | Err e => (Err e, d)
  | Panic => (Panic, d)
  | Ok (prvkey, _, _) => configure flt d ctx instanceDir prvkey
  end.

(** A run of the program from the flags to the shutdown: the configuration in use and what was started and stopped. *)
Definition session (d : disk) (ctx : Context_) (instanceDir : bytes) (prvkey : SK) : option (Config' * list event * disk) :=
  match configure no_faults d ctx instanceDir prvkey with
  | (Ok c, d) =>
    match NewSwarm c (GlobalBool ctx SwarmSwapEnabledFlag) (GlobalBool ctx SwarmSyncEnabledFlag) (GlobalString ctx CorsStringFlag) with
    | Ok sw =>
      match Swarm_Start no_faults d sw with
      | (None, evs, sw, d) => let '(_, evs', d) := Swarm_Stop no_faults d sw in Some (sw_config sw, evs ++ evs', d)
      | _ => None
      end
    | _ => None
    end
  | _ => None
  end.

Fixpoint sessions (d : disk) (instanceDir : bytes) (prvkey : SK) (ctxs : list Context_) : option (list (Config' * list event) * disk) :=
  match ctxs with
  | [] => Some ([], d)
  | ctx :: ctxs =>
    match session d ctx instanceDir prvkey with
    | None => None
    | Some (c, evs, d) =>
      match sessions d instanceDir prvkey ctxs with
      | None => None
      | Some (l, d) => Some ((c, evs) :: l, d)
      end
    end
  end.
End Service.
