(* ===== verification/CommandProps.v ===== *)
(** Theorems of the program and its configuration: what a sequence of runs uses ([livepeer/api/config.go], [livepeer/livepeer.go],
    [cmd/livepeer/main.go]), how an account is unlocked, and which peers the command line gives. *)
From stdpp Require Import base gmap list strings pretty countable.
From Stdlib Require Import ZArith Lia.
From S2P Require Import Prelude Types Protocol Chunker Streamer Manifest ManifestProps FileSystem Config Cli Command.

(** ** The configuration file *)

(** The strings that the file holds. *)
Definition config_strings {SK KP SP CB} (c : Config SK KP SP CB) : list bytes :=
  [ChunkDbPath (cf_Store c); Chunker.Hash (cf_Chunker c); KadDbPath (cf_Hive c); sp_PublicKey (cf_Swap c); cf_RequestDbPath c; cf_Path c; cf_Port c;
   cf_PublicKey c; cf_BzzKey c; cf_RTMPPort c; cf_FFMpegPath c; cf_VodPath c].

(** The exported fields of [sw], with the others from [sw0]. *)
Definition persisted {SK SP CB} (sw sw0 : SwapParams SK SP CB) : SwapParams SK SP CB :=
  {| sp_params := sp_params sw; sp_PublicKey := sp_PublicKey sw; sp_Contract := sp_Contract sw; sp_Beneficiary := sp_Beneficiary sw;
     sp_privateKey := sp_privateKey sw0; sp_owner := sp_owner sw0; sp_chbook := sp_chbook sw0 |}.

(** A configuration whose strings are valid UTF-8 can be written, and reading it back restores the exported fields. *)
Class ConfigJson (SK KP SP CB : Type) `{ConfigDeps SK KP SP CB} := {
  utf8 : bytes -> Prop;
  config_json (c c0 : Config SK KP SP CB) : Forall utf8 (config_strings c) ->
    exists data, MarshalIndent c = Some data /\ Unmarshal data c0 = Some (with_Swap (persisted (cf_Swap c) (cf_Swap c0)) c)
}.

Lemma FromHex_0x l : Forall is_byte l -> FromHex (str "0x" ++ hex_encode l) = l.
Proof.
  intros HF. unfold FromHex. rewrite zlen_app. assert (Hlen : #(hex_encode l) = 2 * #l) by (unfold zlen; rewrite length_hex_encode; lia).
  destruct (Z.ltb_spec 1 (#(str "0x") + #(hex_encode l))) as [_|Hge]; [|cbn in Hge; zlia].
  rewrite bool_decide_true by done. cbn [orb]. change (drop 2 (str "0x" ++ hex_encode l)) with (hex_encode l). rewrite Hlen, Z.odd_mul. cbn [Z.odd andb]. unfold Hex2Bytes. by rewrite hex_decode_encode.
Qed.

Lemma ToHex_inv l : l <> [] -> Forall is_byte l -> FromHex (ToHex l) = l.
Proof. intros Hne HF. unfold ToHex. destruct l as [|b l]; [done|]. exact (FromHex_0x (b :: l) HF). Qed.

(** ** Runs of the program *)

(** The media servers and the HTTP servers among the events of a run. *)
Definition media_event (e : event) : option (bytes * bytes * bytes * bytes) :=
  match e with EvLPMS r h f v => Some (r, h, f, v) | _ => None end.
Definition http_event (e : event) : option bytes := match e with EvHttpServer addr _ => Some addr | _ => None end.

Section Runs.
Context {SK KP SP CB : Type} `{ConfigJson SK KP SP CB}.
Context (sha256 sha3 : Hasher) (NewLocalStore : StoreParams -> bool) (NewENS : option SK -> bytes -> bool).
Context (swap_SetChequebook : SwapParams SK SP CB -> bytes -> bytes * option CB * bool).
Context (dir contract : bytes) (key : SK) (networkId : Z) (rtmpPort ffmpegPath : bytes).

Definition first_config : Config SK KP SP CB := defaultConfig dir contract key networkId rtmpPort ffmpegPath.

(** The configurations that later runs can have. *)
Definition later_config (p : bytes) (sw : SwapParams SK SP CB) : Config SK KP SP CB := with_Swap sw (with_Port p first_config).

Definition same_key (sw : SwapParams SK SP CB) : Prop := sp_PublicKey sw = ToHex (FromECDSAPub key).

Definition stored (d : disk) (p : bytes) : Prop :=
  exists sw data, same_key sw /\ utf8 p /\ MarshalIndent (later_config p sw) = Some data /\ d !! config_file (config_dir dir key) = Some data.

Context (Hutf8 : Forall utf8 (config_strings first_config)).

Lemma later_clean p sw : same_key sw -> utf8 p -> Forall utf8 (config_strings (later_config p sw)).
Proof using Hutf8.
  intros Hk Hp. pose proof Hutf8 as Hu. unfold config_strings in *. cbn [later_config cf_Swap cf_Port with_Swap with_Port]. rewrite Hk.
  rewrite !Forall_cons_iff in Hu. rewrite !Forall_cons_iff. cbn in Hu |- *. clear -Hu Hp. tauto.
Qed.

Lemma later_json p sw c0 : same_key sw -> utf8 p ->
  exists data, MarshalIndent (later_config p sw) = Some data /\ Unmarshal data c0 = Some (later_config p (persisted sw (cf_Swap c0))).
Proof using Hutf8. intros Hk Hp. exact (config_json (later_config p sw) c0 (later_clean p sw Hk Hp)). Qed.

Lemma Save_stores d p sw : same_key sw -> utf8 p -> exists d', Save no_faults d (later_config p sw) = (None, d') /\ stored d' p.
Proof using Hutf8.
  intros Hk Hp. destruct (later_json p sw first_config Hk Hp) as (data & E & _). unfold Save. rewrite E. cbn.
  eexists. split; [done|]. exists sw, data. split_and!; [done|done|done|apply lookup_insert_eq].
Qed.

Definition next_port (ctx : Context_) (p : bytes) : bytes :=
  let bzzport := GlobalString ctx SwarmPortFlag in if nonempty bzzport then bzzport else p.

(** The first run makes the file from its flags. *)
Lemma configure_first d ctx inst :
  d !! config_file (config_dir dir key) = None -> utf8 port -> bzzdir ctx inst = dir -> contract = HexToAddress (GlobalString ctx ChequebookAddrFlag) ->
  networkId = GlobalUint64 ctx LivepeerNetworkIdFlag -> rtmpPort = GlobalString ctx RTMPFlag -> ffmpegPath = GlobalString ctx FFMpegPathFlag ->
  exists sw d', same_key sw /\ configure no_faults d ctx inst key = (Ok (later_config (next_port ctx port) sw), d').
Proof using Hutf8.
  intros Hd Hport Hdir Hc Hn Hr Hf. unfold configure, NewConfig. rewrite Hdir, <- Hc, <- Hn, <- Hr, <- Hf. cbn [no_faults no_mkdir no_read]. rewrite Hd.
  fold first_config. destruct (Save_stores d port (cf_Swap first_config) eq_refl Hport) as (d' & E & _).
  change (later_config port (cf_Swap first_config)) with first_config in E. rewrite E. cbn [option_map].
  exists (cf_Swap first_config), d'. split; [done|]. unfold next_port. by destruct (nonempty _).
Qed.

(** A later run takes the settings of the file. *)
Lemma configure_later d p ctx inst : stored d p -> bzzdir ctx inst = dir ->
  exists sw, same_key sw /\ configure no_faults d ctx inst key = (Ok (later_config (next_port ctx p) sw), d).
Proof using Hutf8.
  intros (sw & data & Hk & Hp & Hm & Hd) Hdir. unfold configure, NewConfig. rewrite Hdir. cbn [no_faults no_mkdir no_read]. rewrite Hd.
  set (c0 := defaultConfig _ _ _ _ _ _). destruct (later_json p sw c0 Hk Hp) as (data' & Hm' & Hu). assert (data' = data) as -> by congruence. rewrite Hu.
  cbn [later_config cf_PublicKey cf_BzzKey cf_EnsRoot with_Swap with_Port first_config defaultConfig c0]. rewrite !bool_decide_true by done. cbn [negb].
  rewrite bool_decide_false by by vm_compute. exists (SetKey key (persisted sw (cf_Swap c0))). split; [exact Hk|].
  unfold next_port. by destruct (nonempty _).
Qed.

Context (Hpub : Forall is_byte (FromECDSAPub key) /\ length (FromECDSAPub key) = 65%nat).
Context (Hbzz : Forall is_byte (Sha3Hash (FromECDSAPub key)) /\ Sha3Hash (FromECDSAPub key) <> ZeroKey).
Context (Hstore : NewLocalStore (cf_Store first_config) = true) (Hens : forall k, NewENS k (cf_EnsRoot first_config) = true).
Context (Hcheque : forall sw path, snd (swap_SetChequebook sw path) = true).

Lemma NewSwarm_ok p sw swap sync cors :
  exists self, NewSwarm sha256 sha3 NewLocalStore NewENS (later_config p sw) swap sync cors = Ok self /\
    sw_config self = later_config p sw /\ sw_swapEnabled self = swap /\ sw_corsString self = cors.
Proof using Hpub Hbzz Hstore Hens.
  clear Hcheque. unfold NewSwarm. cbn [later_config cf_PublicKey cf_BzzKey cf_Store cf_Chunker cf_EnsRoot cf_Swap with_Swap with_Port first_config defaultConfig].
  rewrite bool_decide_false. 2: { rewrite ToHex_inv; [|by intros E; rewrite E in Hpub; destruct Hpub|by apply Hpub]. intros E. destruct Hpub as [_ Hl]. rewrite E in Hl. done. }
  rewrite bool_decide_false by (rewrite FromHex_0x by apply Hbzz; apply Hbzz).
  change (NewLocalStore (NewStoreParams (config_dir dir key))) with (NewLocalStore (cf_Store first_config)). rewrite Hstore. cbn [negb NewTreeChunker].
  destruct (NewTreeChunker sha256 sha3 NewChunkerParams) as [ch|] eqn:Ech; [|by vm_compute in Ech].
  change ensRootAddress with (cf_EnsRoot first_config). rewrite Hens. eexists. split_and!; done.
Qed.

(** What a run with port [p] starts. *)
Definition serves (p : bytes) (evs : list event) : Prop :=
  omap media_event evs = (if nonempty rtmpPort then [(rtmpPort, lpms_httpPort rtmpPort, ffmpegPath, cf_VodPath first_config)] else []) /\
  omap http_event evs = (if nonempty p then [str ":" ++ p] else []).

Lemma Swarm_Start_ok d p sw self : sw_config self = later_config p sw -> same_key sw -> utf8 p ->
  exists evs self' d' sw', Swarm_Start swap_SetChequebook no_faults d self = (None, evs, self', d') /\ sw_config self' = later_config p sw' /\ same_key sw' /\ serves p evs.
Proof using Hutf8 Hcheque.
  intros Hc Hk Hp. unfold Swarm_Start. destruct (sw_swapEnabled self) eqn:Hsw.
  - unfold SetChequebook. rewrite Hc. specialize (Hcheque (cf_Swap (later_config p sw)) (cf_Path (later_config p sw))).
    destruct (swap_SetChequebook _ _) as [[contract' chbook] ok]. cbn in Hcheque. subst ok. set (sw' := mkSwapParams _ _ _ _ _ _ _). cbn [sw_config with_config].
    change (with_Swap sw' (later_config p sw)) with (later_config p sw'). destruct (Save_stores d p sw' Hk Hp) as (d' & E & _). rewrite E.
    do 4 eexists. split_and!; [reflexivity|reflexivity|exact Hk|]. unfold serves. cbn [sw_config with_config]. change (cf_RTMPPort (later_config p sw')) with rtmpPort.
    change (cf_Port (later_config p sw')) with p. by destruct (nonempty p), (nonempty rtmpPort).
  - rewrite Hc. do 4 eexists. split_and!; [reflexivity|exact Hc|exact Hk|]. unfold serves. change (cf_RTMPPort (later_config p sw)) with rtmpPort.
    change (cf_Port (later_config p sw)) with p. by destruct (nonempty p), (nonempty rtmpPort).
Qed.

Lemma Swarm_Stop_ok d p sw self : sw_config self = later_config p sw -> same_key sw -> utf8 p ->
  exists err evs d', Swarm_Stop no_faults d self = (err, evs, d') /\ stored d' p /\ omap media_event evs = [] /\ omap http_event evs = [].
Proof using Hutf8.
  intros Hc Hk Hp. unfold Swarm_Stop. rewrite Hc. destruct (Save_stores d p sw Hk Hp) as (d' & E & Hd). rewrite E. do 3 eexists. split; [reflexivity|]. split; [done|].
  by destruct (sp_chbook _).
Qed.

Abbreviation session' := (session sha256 sha3 NewLocalStore NewENS swap_SetChequebook).
Abbreviation sessions' := (sessions sha256 sha3 NewLocalStore NewENS swap_SetChequebook).

Lemma session_ok d d1 ctx inst p sw : configure no_faults d ctx inst key = (Ok (later_config p sw), d1) -> same_key sw -> utf8 p ->
  exists sw' evs d', session' d ctx inst key = Some (later_config p sw', evs, d') /\ stored d' p /\ serves p evs.
Proof using Hutf8 Hpub Hbzz Hstore Hens Hcheque.
  intros E Hk Hp. unfold session. rewrite E.
  destruct (NewSwarm_ok p sw (GlobalBool ctx SwarmSwapEnabledFlag) (GlobalBool ctx SwarmSyncEnabledFlag) (GlobalString ctx CorsStringFlag)) as (self & En & Hc & _). rewrite En.
  destruct (Swarm_Start_ok d1 p sw self Hc Hk Hp) as (evs & self' & d2 & sw' & Es & Hc' & Hk' & Hm & Hh). rewrite Es.
  destruct (Swarm_Stop_ok d2 p sw' self' Hc' Hk' Hp) as (err & evs' & d3 & Et & Hd3 & Hm' & Hh'). rewrite Et, Hc'. do 3 eexists. split; [reflexivity|]. split; [done|]. split.
  - by rewrite omap_app, Hm, Hm', app_nil_r.
  - by rewrite omap_app, Hh, Hh', app_nil_r.
Qed.

(** The port of a run: the last one that was given. *)
Definition last_port (ctxs : list Context_) : bytes := foldl (fun p ctx => next_port ctx p) port ctxs.

Definition uses_first (p : bytes) (r : Config SK KP SP CB * list event) : Prop :=
  (exists sw, fst r = later_config p sw) /\ serves p (snd r).

Lemma next_port_utf8 ctx p : utf8 p -> utf8 (GlobalString ctx SwarmPortFlag) -> utf8 (next_port ctx p).
Proof using Type. intros. unfold next_port. by destruct (nonempty _). Qed.

Lemma sessions_later d inst ctxs p : stored d p -> Forall (fun ctx => bzzdir ctx inst = dir /\ utf8 (GlobalString ctx SwarmPortFlag)) ctxs ->
  exists rs d', sessions' d inst key ctxs = Some (rs, d') /\ length rs = length ctxs /\
    forall i r, rs !! i = Some r -> uses_first (foldl (fun p ctx => next_port ctx p) p (take (S i) ctxs)) r.
Proof using Hutf8 Hpub Hbzz Hstore Hens Hcheque.
  revert d p. induction ctxs as [|ctx ctxs IH]; intros d p Hd Hall; [by exists [], d|]. apply Forall_cons_iff in Hall as [[Hdir Hp] Hall].
  destruct (configure_later d p ctx inst Hd Hdir) as (sw & Hk & Ec). destruct Hd as (_ & _ & _ & Hpp & _).
  destruct (session_ok d d ctx inst (next_port ctx p) sw Ec Hk (next_port_utf8 ctx p Hpp Hp)) as (sw' & evs & d1 & Es & Hd1 & Hs).
  destruct (IH d1 (next_port ctx p) Hd1 Hall) as (rs & d2 & Er & Hl & Hr). cbn [sessions]. rewrite Es, Er. do 2 eexists. split; [done|]. split; [cbn; lia|].
  intros [|i] r Hi; [injection Hi as <-; cbn; split; [by exists sw'|done]|]. exact (Hr i r Hi).
Qed.
End Runs.

(** C25: The first run of a node decides its settings: in every sequence of runs with the same account and directory, all runs end, and each of them uses
    the network, the RTMP port and the paths of the configuration that the flags of the first run made, and serves media on that port,
    whatever its own flags say; only the port of the HTTP server follows the last flag that was given. *)
Theorem first_run_decides {SK KP SP CB} `{ConfigJson SK KP SP CB} (sha256 sha3 : Hasher) (NewLocalStore : StoreParams -> bool) (NewENS : option SK -> bytes -> bool)
    (swap_SetChequebook : SwapParams SK SP CB -> bytes -> bytes * option CB * bool) (d : disk) (inst : bytes) (key : SK) (ctx : Context_) (ctxs : list Context_) :
  let dir := bzzdir ctx inst in
  let first := defaultConfig dir (HexToAddress (GlobalString ctx ChequebookAddrFlag)) key (GlobalUint64 ctx LivepeerNetworkIdFlag)
                 (GlobalString ctx RTMPFlag) (GlobalString ctx FFMpegPathFlag) in
  d !! config_file (config_dir dir key) = None ->
  Forall utf8 (config_strings first) -> Forall (fun c => bzzdir c inst = dir /\ utf8 (GlobalString c SwarmPortFlag)) (ctx :: ctxs) ->
  Forall is_byte (FromECDSAPub key) /\ length (FromECDSAPub key) = 65%nat ->
  Forall is_byte (Sha3Hash (FromECDSAPub key)) /\ Sha3Hash (FromECDSAPub key) <> ZeroKey ->
  NewLocalStore (cf_Store first) = true -> (forall k, NewENS k (cf_EnsRoot first) = true) ->
  (forall sw path, snd (swap_SetChequebook sw path) = true) ->
  exists rs d', sessions sha256 sha3 NewLocalStore NewENS swap_SetChequebook d inst key (ctx :: ctxs) = Some (rs, d') /\ length rs = length (ctx :: ctxs) /\
    forall i c evs, rs !! i = Some (c, evs) ->
      c = with_Swap (cf_Swap c) (with_Port (last_port (take (S i) (ctx :: ctxs))) first) /\
      omap media_event evs = (let r := GlobalString ctx RTMPFlag in
        if nonempty r then [(r, lpms_httpPort r, GlobalString ctx FFMpegPathFlag, cf_VodPath first)] else []).
Proof.
  intros dir first Hd Hu Hall Hpub Hbzz Hst Hens Hch. pose proof Hu as Hport. unfold config_strings in Hport. rewrite !Forall_cons_iff in Hport. destruct Hport as (_ & _ & _ & _ & _ & _ & Hport & _).
  change (cf_Port first) with port in Hport. apply Forall_cons_iff in Hall as [[_ Hp] Hall]. unfold first in *. clear first.
  destruct (configure_first dir _ key _ _ _ Hu d ctx inst Hd Hport eq_refl eq_refl eq_refl eq_refl eq_refl) as (sw & d1 & Hk & Ec).
  destruct (session_ok sha256 sha3 NewLocalStore NewENS swap_SetChequebook dir _ key _ _ _ Hu Hpub Hbzz Hst Hens Hch d d1 ctx inst _ sw Ec Hk (next_port_utf8 ctx port Hport Hp))
    as (sw' & evs & d2 & Es & Hd2 & Hs).
  destruct (sessions_later sha256 sha3 NewLocalStore NewENS swap_SetChequebook dir _ key _ _ _ Hu Hpub Hbzz Hst Hens Hch d2 inst ctxs _ Hd2 Hall) as (rs & d3 & Er & Hl & Hr).
  cbn [sessions]. rewrite Es, Er. do 2 eexists. split; [done|]. split; [cbn; lia|]. intros [|i] c evs' Hi.
  - injection Hi as <- <-. split; [done|apply Hs].
  - destruct (Hr i _ Hi) as [[sw2 Hc] Hm]. cbn [fst snd] in *. subst c. split; [done|apply Hm].
Qed.

(** ** A node with numbers for keys *)

Definition toy_fields (c : Config nat unit unit unit) : list (list Z) :=
  [ChunkDbPath (cf_Store c); [DbCapacity (cf_Store c)]; [CacheCapacity (cf_Store c)]; [Radius (cf_Store c)]; [Branches (cf_Chunker c)]; Chunker.Hash (cf_Chunker c);
   [CallInterval (cf_Hive c)]; KadDbPath (cf_Hive c); sp_PublicKey (cf_Swap c); sp_Contract (cf_Swap c); sp_Beneficiary (cf_Swap c); cf_RequestDbPath c;
   [Syncer.RequestDbBatchSize (cf_Sync c)]; [Syncer.KeyBufferSize (cf_Sync c)]; [Syncer.SyncBatchSize (cf_Sync c)]; [Syncer.SyncBufferSize (cf_Sync c)];
   [Syncer.SyncCacheSize (cf_Sync c)]; Syncer.SyncPriorities (cf_Sync c); (fun b : bool => if b then 1 else 0) <$> Syncer.SyncModes (cf_Sync c);
   cf_Path c; cf_Port c; cf_PublicKey c; cf_BzzKey c; cf_EnsRoot c; [cf_NetworkId c]; cf_RTMPPort c; cf_FFMpegPath c; cf_VodPath c].

Definition toy_config (l : list (list Z)) (c0 : Config nat unit unit unit) : Config nat unit unit unit :=
  let s i := nth i l [] in
  let z i := hd 0 (s i) in
  mkConfig (mkStoreParams (s 0%nat) (z 1%nat) (z 2%nat) (z 3%nat)) (mkChunkerParams (z 4%nat) (s 5%nat)) (mkHiveParams (z 6%nat) (s 7%nat) tt)
    (persisted (mkSwapParams tt (s 8%nat) (s 9%nat) (s 10%nat) None [] None) (cf_Swap c0)) (s 11%nat)
    (Syncer.mkSyncParams (z 12%nat) (z 13%nat) (z 14%nat) (z 15%nat) (z 16%nat) (s 17%nat) (Z.eqb 1 <$> s 18%nat))
    (s 19%nat) (s 20%nat) (s 21%nat) (s 22%nat) (s 23%nat) (z 24%nat) (s 25%nat) (s 26%nat) (s 27%nat).

#[local] Instance toy_deps : ConfigDeps nat unit unit unit := {|
  PubkeyToAddress k := replicate 20 (Z.of_nat k mod 256);
  FromECDSAPub k := replicate 65 (Z.of_nat k mod 256);
  Sha3Hash b := replicate 32 (7 + Z.of_nat (length b) mod 2);
  NewKadParams := tt;
  defaultSwap := tt;
  MarshalIndent c := Some [Zpos (encode (toy_fields c))];
  Unmarshal data c0 :=
    match data with
    | [Zpos p] => match decode p with Some l => Some (toy_config l c0) | None => None end
    | _ => None
    end
|}.

Lemma toy_config_json (c c0 : Config nat unit unit unit) :
  exists data, MarshalIndent c = Some data /\ Unmarshal data c0 = Some (with_Swap (persisted (cf_Swap c) (cf_Swap c0)) c).
Proof.
  exists [Zpos (encode (toy_fields c))]. split; [done|]. cbn. rewrite decode_encode. f_equal.
  destruct c as [[] [] [? ? []] [[] ? ? ? ? ? ?] ? [? ? ? ? ? ? modes] ? ? ? ? ? ? ? ? ?]. unfold toy_config, toy_fields, with_Swap. cbn. do 2 f_equal.
  rewrite <- list_fmap_compose. induction modes as [|[] modes IH]; [done|cbn; by f_equal..].
Qed.

#[local] Instance toy_json : ConfigJson nat unit unit unit := {| utf8 := fun _ => True; config_json c c0 _ := toy_config_json c c0 |}.

Definition toy_flags (rtmp bzzport : bytes) : Context_ :=
  {| cx_strings := <[RTMPFlag := rtmp]> {[SwarmPortFlag := bzzport]}; cx_bools := ∅; cx_ints := {[LivepeerNetworkIdFlag := NetworkId]};
     cx_slices := ∅; cx_set := ∅ |}.

Definition toy_sessions := sessions (SK := nat) (KP := unit) (SP := unit) (CB := unit) (mkHasher id 32) (mkHasher id 32) (fun _ => true) (fun _ _ => true)
  (fun sw _ => (sp_Contract sw, None, true)).

Lemma first_run_decides_witness :
  let ctxs := [toy_flags (str "1935") []; toy_flags (str "1940") (str "8600")] in
  exists rs d', toy_sessions ∅ (str "/data/livepeernet/livepeer") 5%nat ctxs = Some (rs, d') /\ length rs = 2%nat /\
    forall i c evs, rs !! i = Some (c, evs) ->
      c = with_Swap (cf_Swap c) (with_Port (last_port (take (S i) ctxs)) (defaultConfig (str "/data/livepeernet/livepeer") (HexToAddress []) 5%nat NetworkId (str "1935") [])) /\
      omap media_event evs = [(str "1935", lpms_httpPort (str "1935"), [], str "/data/vod")].
Proof.
  refine (first_run_decides (mkHasher id 32) (mkHasher id 32) (fun _ => true) (fun _ _ => true) (fun sw _ => (sp_Contract sw, None, true)) ∅ (str "/data/livepeernet/livepeer") 5%nat
    (toy_flags (str "1935") []) [toy_flags (str "1940") (str "8600")] _ _ _ _ _ _ _ _).
  - apply lookup_empty.
  - repeat constructor.
  - repeat constructor.
  - split; [|done]. apply Forall_replicate. vm_compute. by split.
  - split; [|by vm_compute]. apply Forall_replicate. vm_compute. by split.
  - done.
  - done.
  - done.
Defined.

(** The second run asks for another RTMP port and does not get it. *)
Example rtmp_flag_ignored :
  (fun r => (cf_RTMPPort (fst r), cf_Port (fst r))) <$> default [] (fst <$> toy_sessions ∅ (str "/data") 5%nat [toy_flags (str "1935") []; toy_flags (str "1940") (str "8600")])
  = [(str "1935", str "8500"); (str "1935", str "8600")].
Proof. vm_compute. reflexivity. Qed.

(** ** Accounts *)

Lemma HexToAddress_hex addr : length addr = 20%nat -> Forall is_byte addr -> HexToAddress (str "0x" ++ hex_encode addr) = addr.
Proof.
  intros Hl HF. unfold HexToAddress. rewrite FromHex_0x by done. destruct (Z.ltb_spec AddressLength (#addr)) as [Hlt|_]; [unfold AddressLength in Hlt; zlia|].
  by rewrite Hl.
Qed.

Lemma IsHexAddress_hex addr : length addr = 20%nat -> IsHexAddress (str "0x" ++ hex_encode addr) = true.
Proof.
  intros Hl. assert (E : #(str "0x" ++ hex_encode addr) = 42) by (rewrite zlen_app; unfold zlen; rewrite length_hex_encode, Hl; done).
  unfold IsHexAddress, IsHex. rewrite E. rewrite bool_decide_true by done. done.
Qed.

Section Unlock.
Context {AM SK : Type} `{AccountManager AM SK}.

Lemma unlock_Ok n keyjson stdin key rest : unlock (AM := AM) n keyjson stdin = Ok (key, rest) <->
  exists wrong p, stdin = (Some <$> wrong) ++ Some p :: rest /\ (length wrong < n)%nat /\ Forall (fun q => DecryptKey keyjson q = None) wrong /\ DecryptKey keyjson p = Some key.
Proof using Type.
  revert stdin. induction n as [|n IH]; intros stdin; cbn [unlock]; [split; [done|intros (? & ? & ? & ? & ?); lia]|].
  destruct stdin as [|[q|] stdin]; cbn [promptPassphrase rbind].
  - split; [done|]. intros (wrong & p & E & _). by destruct wrong.
  - destruct (DecryptKey keyjson q) as [k|] eqn:Ek; [|rewrite IH]; split.
    + intros [= -> ->]. exists [], q. split_and!; [done|cbn; lia|constructor|done].
    + intros (wrong & p & E & Hn & Hw & Hp). destruct wrong as [|w wrong]; cbn in E; [injection E as -> ->; congruence|]. injection E as -> _. apply Forall_cons_iff in Hw as [Hw _]. congruence.
    + intros (wrong & p & -> & Hn & Hw & Hp). exists (q :: wrong), p. split_and!; [done|cbn; lia|by constructor|done].
    + intros (wrong & p & E & Hn & Hw & Hp). destruct wrong as [|w wrong]; cbn in E; [injection E as -> ->; congruence|]. injection E as -> ->.
      apply Forall_cons_iff in Hw as [_ Hw]. exists wrong, p. split_and!; [done|cbn in Hn; lia|done|done].
  - split; [done|]. intros (wrong & p & E & _). by destruct wrong.
Qed.

Lemma unlock_refused n keyjson stdin : unlock (AM := AM) n keyjson stdin = Err FatalDecrypt <->
  exists wrong rest, stdin = (Some <$> wrong) ++ rest /\ length wrong = n /\ Forall (fun q => DecryptKey keyjson q = None) wrong.
Proof using Type.
  revert stdin. induction n as [|n IH]; intros stdin; cbn [unlock]; [split; [intros _; by exists [], stdin|done]|].
  destruct stdin as [|[q|] stdin]; cbn [promptPassphrase rbind].
  - split; [done|]. intros (wrong & rest & E & Hl & _). by destruct wrong.
  - destruct (DecryptKey keyjson q) as [k|] eqn:Ek; [|rewrite IH]; split; [done| | |]; intros (wrong & rest & E & Hl & Hw).
    + destruct wrong as [|w wrong]; [done|]. cbn in E. injection E as -> _. apply Forall_cons_iff in Hw as [Hw _]. congruence.
    + subst stdin. exists (q :: wrong), rest. split_and!; [done|cbn; lia|by constructor].
    + destruct wrong as [|w wrong]; [done|]. cbn in E. injection E as -> ->. apply Forall_cons_iff in Hw as [_ Hw]. exists wrong, rest. split_and!; [done|cbn in Hl; lia|done].
  - split; [done|]. intros (wrong & rest & E & Hl & _). by destruct wrong.
Qed.
End Unlock.

(** C26: A node that is started without an account uses the first account of its key store, and the key is unlocked by what is typed at the prompt only: the
    start succeeds exactly when one of the first three passphrases decrypts the key, whatever password file the flags name, and is given up exactly
    when the first three do not. *)
Theorem first_account_unlocked {AM SK} `{AccountManager AM SK} LoadECDSA ReadFile (accman : AM) stdin ctx acc keyjson :
  GlobalString ctx SwarmAccountFlag = [] -> AccountByIndex accman 0 = Some acc -> length (ac_Address acc) = 20%nat -> Forall is_byte (ac_Address acc) ->
  Find accman (ac_Address acc) = Some acc -> ReadKeyFile accman (ac_File acc) = Some keyjson -> LoadECDSA (str "0x" ++ hex_encode (ac_Address acc)) = None ->
  (forall key rest, getAccount LoadECDSA ReadFile accman stdin ctx = Ok (key, accman, rest) <->
     exists wrong p, stdin = (Some <$> wrong) ++ Some p :: rest /\ (length wrong < 3)%nat /\ Forall (fun q => DecryptKey keyjson q = None) wrong /\ DecryptKey keyjson p = Some key) /\
  (getAccount LoadECDSA ReadFile accman stdin ctx = Err FatalDecrypt <->
     exists wrong rest, stdin = (Some <$> wrong) ++ rest /\ length wrong = 3%nat /\ Forall (fun q => DecryptKey keyjson q = None) wrong).
Proof.
  intros Hflag Hacc Hlen Hbytes Hfind Hread Hload.
  assert (E : getAccount LoadECDSA ReadFile accman stdin ctx = rbind (unlock (AM := AM) 3 keyjson stdin) (fun '(key, rest) => Ok (key, accman, rest))).
  { unfold getAccount, findOrGenerateFirstAccount. rewrite Hflag, bool_decide_true, Hacc by done. cbn [rbind]. rewrite Hload.
    unfold decryptStoreAccount. by rewrite IsHexAddress_hex, HexToAddress_hex, Hfind, Hread. }
  rewrite E. split.
  - intros key rest. rewrite <- (unlock_Ok (AM := AM)). destruct (unlock 3 keyjson stdin) as [[k r]|e|]; cbn; [|done..]. split; [intros [= -> ->]|intros [= -> ->]]; done.
  - rewrite <- (unlock_refused (AM := AM)). destruct (unlock 3 keyjson stdin) as [[k r]|e|]; cbn; [done| |done]. split; by intros [= ->].
Qed.

(** A key store with one account, whose key opens with the passphrase [open]. *)
#[local] Instance toy_accounts : AccountManager unit nat := {|
  AccountByIndex _ i := if i =? 0 then Some (mkAccount (replicate 20 9) (str "UTC--1")) else None;
  Find _ addr := if bool_decide (addr = replicate 20 9) then Some (mkAccount (replicate 20 9) (str "UTC--1")) else None;
  NewAccount _ _ := None;
  ReadKeyFile _ f := if bool_decide (f = str "UTC--1") then Some (str "key") else None;
  DecryptKey k p := if bool_decide (k = str "key") && bool_decide (p = str "open") then Some 7%nat else None
|}.

Definition password_flags : Context_ :=
  {| cx_strings := {[PasswordFileFlag := str "/pw"]}; cx_bools := ∅; cx_ints := ∅; cx_slices := ∅; cx_set := {[PasswordFileFlag]} |}.

Lemma first_account_unlocked_witness :
  (forall key rest, getAccount (fun _ => None) (fun _ => Some (str "open")) tt [Some (str "oops"); Some (str "open")] password_flags = Ok (key, tt, rest) <->
     exists wrong p, [Some (str "oops"); Some (str "open")] = (Some <$> wrong) ++ Some p :: rest /\ (length wrong < 3)%nat /\
       Forall (fun q => DecryptKey (AM := unit) (str "key") q = None) wrong /\ DecryptKey (AM := unit) (str "key") p = Some key) /\
  (getAccount (fun _ => None) (fun _ => Some (str "open")) tt [Some (str "oops"); Some (str "open")] password_flags = Err FatalDecrypt <->
     exists wrong rest, [Some (str "oops"); Some (str "open")] = (Some <$> wrong) ++ rest /\ length wrong = 3%nat /\
       Forall (fun q => DecryptKey (AM := unit) (SK := nat) (str "key") q = None) wrong).
Proof.
  apply (first_account_unlocked (fun _ => None) (fun _ => Some (str "open")) tt _ password_flags (mkAccount (replicate 20 9) (str "UTC--1")) (str "key"));
    [vm_compute; reflexivity|reflexivity|reflexivity| |vm_compute; reflexivity|vm_compute; reflexivity|reflexivity].
  apply Forall_replicate. vm_compute. by split.
Defined.

(** The password file has the passphrase, but the start asks for it and fails without an answer. *)
Example password_file_unused :
  getAccount (AM := unit) (fun _ => None) (fun _ => Some (str "open")) tt [] password_flags = Err FatalPrompt /\
  getAccount (AM := unit) (fun _ => None) (fun _ => Some (str "open")) tt [Some (str "oops"); Some (str "open")] password_flags = Ok (7%nat, tt, []).
Proof. vm_compute. done. Qed.

(** ** Boot nodes *)

Lemma strings_Split_cons sep s c : c <> sep -> exists p ps, strings_Split sep s = p :: ps /\ strings_Split sep (c :: s) = (c :: p) :: ps.
Proof.
  intros Hc. cbn. destruct (Z.eqb_spec c sep); [done|]. assert (Hne : strings_Split sep s <> []) by (destruct s as [|d s]; cbn; [done|]; repeat case_match; done).
  destruct (strings_Split sep s) as [|p ps]; [done|]. eauto.
Qed.

Lemma strings_Split_single sep s : sep ∉ s -> strings_Split sep s = [s].
Proof.
  induction s as [|c s IH]; intros Hn; [done|]. cbn. destruct (Z.eqb_spec c sep) as [->|_]; [exfalso; apply Hn; by left|].
  rewrite IH; [done|]. intros Hin. apply Hn. by right.
Qed.

Lemma Join_with_notin sep c l : c ∉ sep -> Forall (fun s => c ∉ s) l -> c ∉ Join_with sep l.
Proof.
  intros Hs. induction 1 as [|s l Hl Hall IH]; [apply not_elem_of_nil|]. destruct l as [|s' l]; [done|]. cbn [Join_with] in *. rewrite !elem_of_app. tauto.
Qed.

(** C35: The flag for boot nodes does not give the node the peers it names: the list prints in brackets before it is split at commas, so that the first URL never parses and
    no peer at all is added unless a URL holds a comma, while the discovery gets every URL that was given. *)
Theorem bootnodes_lose_first {ND} (ParseNode : bytes -> option ND) toynet mainnet testnet ctx urls :
  (forall s, ParseNode (91 :: s) = None) ->
  GlobalIsSet ctx BootnodesFlag = true -> cx_strings ctx !! BootnodesFlag = None -> cx_slices ctx !! BootnodesFlag = Some urls ->
  initial_peers ParseNode toynet ctx = parse_nodes ParseNode (tl (strings_Split comma (Join_with [space] urls ++ [93]))) /\
  (Forall (fun url => comma ∉ url) urls -> initial_peers ParseNode toynet ctx = []) /\
  MakeBootstrapNodes ParseNode mainnet testnet ctx = parse_nodes ParseNode urls.
Proof.
  intros Hbr Hset Hs Hl. assert (E : initial_peers ParseNode toynet ctx = parse_nodes ParseNode (tl (strings_Split comma (Join_with [space] urls ++ [93])))).
  { unfold initial_peers, injectBootnodes, GlobalString. rewrite Hset, Hs, Hl. unfold slice_String. cbn [app].
    destruct (strings_Split_cons comma (Join_with [space] urls ++ [93]) 91) as (p & ps & E1 & E2); [done|]. rewrite E2, E1. cbn. by rewrite Hbr. }
  split_and!; [done| |].
  - intros Hc. rewrite E, strings_Split_single; [done|]. rewrite elem_of_app, list_elem_of_singleton. intros [H|H]; [|done]. revert H. apply Join_with_notin; [by rewrite list_elem_of_singleton|done].
  - unfold MakeBootstrapNodes, GlobalStringSlice. by rewrite Hset, Hl.
Qed.

Definition toy_ParseNode (s : bytes) : option bytes := if bool_decide (str "enode://" `prefix_of` s) then Some s else None.
Definition boot_flags (urls : list bytes) : Context_ :=
  {| cx_strings := ∅; cx_bools := ∅; cx_ints := ∅; cx_slices := {[BootnodesFlag := urls]}; cx_set := {[BootnodesFlag]} |}.

Lemma bootnodes_lose_first_witness :
  let urls := [str "enode://a@1.2.3.4:30399"] in
  initial_peers toy_ParseNode [] (boot_flags urls) = parse_nodes toy_ParseNode (tl (strings_Split comma (Join_with [space] urls ++ [93]))) /\
  (Forall (fun url => comma ∉ url) urls -> initial_peers toy_ParseNode [] (boot_flags urls) = []) /\
  MakeBootstrapNodes toy_ParseNode [] [] (boot_flags urls) = parse_nodes toy_ParseNode urls.
Proof.
  apply (bootnodes_lose_first toy_ParseNode); [|vm_compute; reflexivity|reflexivity|reflexivity].
  intros s. unfold toy_ParseNode. rewrite bool_decide_false; [done|]. intros [k E]. discriminate E.
Defined.

Example bootnodes_given :
  initial_peers toy_ParseNode [] (boot_flags [str "enode://a"]) = [] /\
  MakeBootstrapNodes toy_ParseNode [] [] (boot_flags [str "enode://a"]) = [str "enode://a"] /\
  initial_peers toy_ParseNode [] (boot_flags [str "enode://a,enode://b"]) = [str "enode://b]"].
Proof. vm_compute. done. Qed.
