(* ===== verification/Service.v ===== *)
(** What the service offers to its node ([livepeer/livepeer.go]): the protocol [Bzz] ([livepeer/network/protocol.go]) with its network, the RPC services, and the
    local service of [NewLocalSwarm] over [NewLocalDPA] ([livepeer/storage/dpa.go]). *)
From stdpp Require Import base gmap list strings.
From Stdlib Require Import ZArith Lia.
From S2P Require Import Prelude Types Chunker Database DbStore DbInv DbGc DbProps MemStore Streamer Messages SyncDb Syncer Hive Node Dpa Protocol FileSystem Config Cli Command.

(** ** The protocol *)

(** [p2p.Protocol]; [Run] is [Protocol.run] with the request database and the network. *)
Record p2p_Protocol (D : Type) := mkP2P { pr_Name : bytes; pr_Version : Z; pr_Length : Z; pr_requestDb : LDBDatabase D; pr_networkId : Z }.
Arguments mkP2P {D}.
Arguments pr_Name {D} _.
Arguments pr_Version {D} _.
Arguments pr_Length {D} _.
Arguments pr_requestDb {D} _.
Arguments pr_networkId {D} _.

Section Service.
Context {D SK KP SP CB : Type} `{LevelDB D} `{ConfigDeps SK KP SP CB}.
(** [leveldb.OpenFile] of a path. *)
Context (OpenFile : bytes -> option D).

(** [None] is a request database that does not open. *)
Definition Bzz (requestDbPath : bytes) (networkId : Z) : option (p2p_Protocol D) :=
  match OpenFile requestDbPath with
  | None => None
  | Some d =>
    let networkId := if networkId =? 0 then NetworkId else networkId in
    Some {| pr_Name := str "bzz"; pr_Version := Version; pr_Length := ProtocolLength; pr_requestDb := NewLDBDatabase d; pr_networkId := networkId |}
  end.

(** An error leaves the node without the protocol. *)
Definition Protocols (self : Swarm SK KP SP CB) : list (p2p_Protocol D) :=
  match Bzz (cf_RequestDbPath (sw_config self)) (cf_NetworkId (sw_config self)) with None => [] | Some proto => [proto] end.

(** ** RPC services *)

Inductive rpc_service := RpcStorage | RpcInfo (config : Config SK KP SP CB) | RpcFileSystem | RpcControl | RpcChequebook (chbook : option CB).

Record rpc_API := mkAPI { ra_Namespace : bytes; ra_Version : bytes; ra_Service : rpc_service; ra_Public : bool }.

Definition APIs (chequebook_Version : bytes) (self : Swarm SK KP SP CB) : list rpc_API :=
  [{| ra_Namespace := str "bzz"; ra_Version := str "0.1"; ra_Service := RpcStorage; ra_Public := true |};
   {| ra_Namespace := str "bzz"; ra_Version := str "0.1"; ra_Service := RpcInfo (sw_config self); ra_Public := true |};
   {| ra_Namespace := str "bzz"; ra_Version := str "0.1"; ra_Service := RpcFileSystem; ra_Public := false |};
   {| ra_Namespace := str "bzz"; ra_Version := str "0.1"; ra_Service := RpcControl; ra_Public := false |};
   {| ra_Namespace := str "chequebook"; ra_Version := chequebook_Version; ra_Service := RpcChequebook (sp_chbook (cf_Swap (sw_config self))); ra_Public := false |}].

(** ** The local service *)

Context (sha256 sha3 : Hasher) (rle_decompress : bytes -> option bytes).

(** The stores of a local document API: the hash that its disk store checks with, the cache and the disk, and the chunker. *)
Record local_dpa := mkLocalDPA { ld_hash : Hasher; ld_mem : MemStore; ld_disk : DbStore D; ld_chunker : TreeChunker }.

(** [None] is a database that does not open. *)
Definition NewLocalDPA (datadir : bytes) : option (outcome local_dpa) :=
  match MakeHashFunc sha256 sha3 (str "SHA256") with
  | None => Some Crash
  | Some hash =>
    match OpenFile datadir with
    | None => None
    | Some d =>
      let dbStore := NewDbStore rle_decompress d singletonSwarmDbCapacity in
      Some (let& m := NewMemStore singletonSwarmCacheCapacity in
            match NewTreeChunker sha256 sha3 NewChunkerParams with
            | None => Crash
            | Some chunker => Ret {| ld_hash := hash; ld_mem := m; ld_disk := dbStore; ld_chunker := chunker |}
            end)
    end
  end.

Inductive localerr := LocalKey | LocalConfig (e : cfgerr) | LocalDPA.

(** A service with nothing but its configuration and its content API. *)
Definition NewLocalSwarm (flt : faults) (fs : gmap bytes bytes) (GenerateKey : option SK) (datadir port : bytes) :
    result localerr (Config SK KP SP CB * local_dpa) * gmap bytes bytes :=
  match GenerateKey with
  | None => (Err LocalKey, fs)
  | Some prvKey =>
    match NewConfig flt fs datadir (make_bytes 20) prvKey NetworkId [] [] with
    | (_, Some e, fs) => (Err (LocalConfig e), fs)
    | (None, None, fs) => (Panic, fs)
    | (Some config, None, fs) =>
      (match NewLocalDPA datadir with
       | None => Err LocalDPA
       | Some (Ret dpa) => Ok (with_Port port config, dpa)
       | Some _ => Panic
       end, fs)
    end
  end.
End Service.
Arguments rpc_API : clear implicits.
Arguments local_dpa : clear implicits.

(** ** Properties *)

Section Props.
Context {D SK KP SP CB : Type} `{HL : LevelDBLaws D} `{ConfigDeps SK KP SP CB} (Hhealthy : healthy D).
Context (OpenFile : bytes -> option D).

(** The network of the handshake is never zero: a configuration without one is in the default network. *)
Lemma Protocols_network (self : Swarm SK KP SP CB) proto :
  proto ∈ Protocols OpenFile self ->
  Protocols OpenFile self = [proto] /\ pr_networkId proto <> 0 /\ (cf_NetworkId (sw_config self) <> 0 -> pr_networkId proto = cf_NetworkId (sw_config self)).
Proof using Type.
  unfold Protocols, Bzz. destruct (OpenFile _) as [d|]; [|by intros ?%not_elem_of_nil]. intros ->%list_elem_of_singleton. cbn.
  destruct (Z.eqb_spec (cf_NetworkId (sw_config self)) 0); split_and!; done.
Qed.

(** The files of the machine, the switches of the hive and the cheques are not public. *)
Lemma public_APIs v (self : Swarm SK KP SP CB) a :
  a ∈ APIs v self -> ra_Public a = true <-> ra_Service a = RpcStorage \/ ra_Service a = RpcInfo (sw_config self).
Proof using Type.
  intros Ha. unfold APIs in Ha. repeat (apply elem_of_cons in Ha as [->|Ha]; [cbn; split; [by auto|by intros [[=]|[=]]]|]). by apply not_elem_of_nil in Ha.
Qed.

Context (sha256 sha3 : Hasher) (rle_compress : bytes -> bytes) (rle_decompress : bytes -> option bytes) (growcap : nat -> nat) (Hgrow : forall n, (n <= growcap n)%nat).

(** A local document API names its chunks with one hash and checks them with another. *)
Lemma local_hashes datadir w :
  NewLocalDPA OpenFile sha256 sha3 rle_decompress datadir = Some (Ret w) ->
  ld_hash w = sha256 /\ hashFunc (ld_chunker w) = sha3 /\ (forall d size, ck_Key (hashChunk (ld_chunker w) d size) = h_sum sha3 d).
Proof using Type.
  unfold NewLocalDPA. change (MakeHashFunc sha256 sha3 (str "SHA256")) with (Some sha256). destruct (OpenFile datadir) as [d|]; [|done].
  destruct (NewMemStore _) as [m| |]; cbn [obind]; try done. change (NewTreeChunker sha256 sha3 NewChunkerParams) with
    (Some {| branches := 128; hashFunc := sha3; hashSize := h_size sha3; chunkSize := h_size sha3 * 128 |}). intros [= <-]. split_and!; done.
Qed.

(** A chunk of the chunker is written to the disk of a local document API and taken for damaged when it is read: the read fails and removes the data. *)
Lemma local_chunk_lost s c d :
  db_ok (h_sum sha3) s -> proper (h_sum sha3) c d -> DbProps.room s -> 0 < capacity s -> get_result s (ck_Key c) = Err notFound -> h_sum sha256 d <> h_sum sha3 d ->
  exists s' s'', put_store rle_compress rle_decompress growcap s c = Some s' /\ DbStore.Get (h_sum sha256) rle_decompress s' (ck_Key c) = (s'', Err invalidChunk).
Proof using Hhealthy Hgrow HL.
  intros Hok Hp Hroom Hcap Hnf Hne.
  destruct (put_store_get Hhealthy (h_sum sha3) rle_compress rle_decompress growcap Hgrow s c d) as (s' & s'' & E & _ & Hget & _); try done.
  exists s'. unfold DbStore.Get in *. destruct (tryAccessIdx _ _ _) as [[ix|] s1]; [|done]. destruct (db_Get _ s1 _) as [data|]; [|done].
  case_bool_decide as Hk; [|done]. injection Hget as -> Hdec. assert (data = d) as ->.
  { revert Hdec. unfold decodeData. destruct (slice data 0 8); cbn; [by intros [= ->]|done]. }
  rewrite bool_decide_eq_false_2 by congruence. by eexists.
Qed.
End Props.
