(* ===== verification/Flags.v ===== *)
(** The flags of the program: the table of [cmd/livepeer/main.go] with the flags of [cmd/utils/flags.go] and [internal/debug/flags.go], and the
    parsing of a command line into a context by the package [flag] of the standard library and [cli]. *)
From stdpp Require Import base gmap list strings pretty.
From Stdlib Require Import ZArith Lia.
From S2P Require Import Prelude Types Protocol Manifest ManifestProps FileSystem Config Cli Command Tools.

(** ** Values *)

Definition digit_value (c : Z) : option Z :=
  if (48 <=? c) && (c <=? 57) then Some (c - 48)
  else if (97 <=? c) && (c <=? 122) then Some (c - 87)
  else if (65 <=? c) && (c <=? 90) then Some (c - 55)
  else None.

Fixpoint parse_digits (base acc : Z) (s : bytes) : option Z :=
  match s with
  | [] => Some acc
  | c :: s' => match digit_value c with Some v => if v <? base then parse_digits base (acc * base + v) s' else None | None => None end
  end.

(** [strconv.ParseUint(s, 0, 64)]: the prefix gives the base. *)
Definition ParseUint (s : bytes) : option Z :=
  let n :=
    match s with
    | [] => None
    | [48] => Some 0
    | 48 :: x :: ds =>
      if (x =? 120) || (x =? 88) then match ds with [] => None | _ => parse_digits 16 0 ds end
      else parse_digits 8 0 (x :: ds)
    | _ => parse_digits 10 0 s
    end in
  match n with Some n => if n <? 2 ^ 64 then Some n else None | None => None end.

(** [strconv.ParseInt(s, 0, 64)]. *)
Definition ParseInt (s : bytes) : option Z :=
  let number neg s :=
    match ParseUint s with
    | Some n => let n := if (neg : bool) then - n else n in if (- 2 ^ 63 <=? n) && (n <? 2 ^ 63) then Some n else None
    | None => None
    end in
  match s with
  | c :: s' => if c =? 43 then number false s' else if c =? 45 then number true s' else number false s
  | [] => None
  end.

Definition ParseBool (s : bytes) : option bool :=
  if bool_decide (s ∈ [str "1"; str "t"; str "T"; str "true"; str "TRUE"; str "True"]) then Some true
  else if bool_decide (s ∈ [str "0"; str "f"; str "F"; str "false"; str "FALSE"; str "False"]) then Some false
  else None.

(** ** Flags *)

(** The types of flags, with the name, the text of the help and the default. The values of the logging flags belong to the package [glog]. *)
Inductive Flag :=
| BoolFlag (Name Usage : bytes)
| BoolTFlag (Name Usage : bytes)
| IntFlag (Name Usage : bytes) (Value : Z)
| StringFlag (Name Usage Value : bytes)
| StringSliceFlag (Name Usage : bytes) (Value : list bytes)
| GenericFlag (Name Usage : bytes)
| DirFlag (self : DirectoryFlag).

Definition GetName (f : Flag) : bytes :=
  match f with
  | BoolFlag n _ | BoolTFlag n _ | IntFlag n _ _ | StringFlag n _ _ | StringSliceFlag n _ _ | GenericFlag n _ => n
  | DirFlag self => df_Name self
  end.

Definition with_Int (v : Z) (f : Flag) : Flag := match f with IntFlag n u _ => IntFlag n u v | f => f end.
Definition with_String (v : bytes) (f : Flag) : Flag := match f with StringFlag n u _ => StringFlag n u v | f => f end.
Definition with_Directory (v : bytes) (f : Flag) : Flag :=
  match f with
  | DirFlag self => DirFlag {| df_Name := df_Name self; df_Value := v; df_Usage := df_Usage self; df_EnvVar := df_EnvVar self |}
  | f => f
  end.

(** What the program finds where it runs: the default directory of the node, the environment, the home directory, the number of
    processors, the rate of the memory profile, and the logging flags of [glog], how they print and which values they take. *)
Class Environment := {
  DefaultDataDir : bytes;
  Getenv : bytes -> bytes;
  current_home : option bytes;
  NumCPU : Z;
  MemProfileRate : Z;
  glog_String : bytes -> bytes;
  glog_Set : bytes -> bytes -> option bytes
}.

Module Utils.
Section Flags.
Context `{Environment}.

Definition DataDirFlag : Flag :=
  DirFlag {| df_Name := Cli.DataDirFlag; df_Value := DefaultDataDir; df_Usage := (str "Data directory for the databases and keystore"); df_EnvVar := [] |}.
Definition KeyStoreDirFlag : Flag :=
  DirFlag {| df_Name := Cli.KeyStoreDirFlag; df_Value := []; df_Usage := (str "Directory for the keystore (default = inside the datadir)"); df_EnvVar := [] |}.
Definition NetworkIdFlag : Flag :=
  IntFlag (str "networkid") (str "Network identifier (integer, 0=Olympic (disused), 1=Frontier, 2=Morden (disused), 3=Ropsten)") 1.
Definition OlympicFlag : Flag :=
  BoolFlag (str "olympic") (str "Olympic network: pre-configured pre-release test network").
Definition TestNetFlag : Flag :=
  BoolFlag Cli.TestNetFlag (str "Ropsten network: pre-configured test network").
Definition LPNetFlag : Flag :=
  StringFlag Cli.LPNetFlag (str "Livepeer Toy Network: pre-configured test network. --true to use lpnet keystore instead of default ethereum keystore") [].
Definition DevModeFlag : Flag :=
  BoolFlag Cli.DevModeFlag (str "Developer mode: pre-configured private network with several debugging flags").
Definition IdentityFlag : Flag :=
  StringFlag Cli.IdentityFlag (str "Custom node name") [].
Definition NatspecEnabledFlag : Flag :=
  BoolFlag (str "natspec") (str "Enable NatSpec confirmation notice").
Definition DocRootFlag : Flag :=
  DirFlag {| df_Name := (str "docroot"); df_Value := homeDir Getenv current_home; df_Usage := (str "Document Root for HTTPClient file scheme"); df_EnvVar := [] |}.
Definition FastSyncFlag : Flag :=
  BoolFlag (str "fast") (str "Enable fast syncing through state downloads").
Definition LightModeFlag : Flag :=
  BoolFlag Cli.LightModeFlag (str "Enable light client mode").
Definition LightServFlag : Flag :=
  IntFlag Cli.LightServFlag (str "Maximum percentage of time allowed for serving LES requests (0-90)") 0.
Definition LightPeersFlag : Flag :=
  IntFlag (str "lightpeers") (str "Maximum number of LES client peers") 20.
Definition LightKDFFlag : Flag :=
  BoolFlag Cli.LightKDFFlag (str "Reduce key-derivation RAM & CPU usage at some expense of KDF strength").
Definition CacheFlag : Flag :=
  IntFlag (str "cache") (str "Megabytes of memory allocated to internal caching (min 16MB / database forced)") 128.
Definition TrieCacheGenFlag : Flag :=
  IntFlag (str "trie-cache-gens") (str "Number of trie node generations to keep in memory") 120.
Definition MiningEnabledFlag : Flag :=
  BoolFlag (str "mine") (str "Enable mining").
Definition MinerThreadsFlag : Flag :=
  IntFlag (str "minerthreads") (str "Number of CPU threads to use for mining") NumCPU.
Definition TargetGasLimitFlag : Flag :=
  StringFlag (str "targetgaslimit") (str "Target gas limit sets the artificial target gas floor for the blocks to mine") (str "4712388").
Definition AutoDAGFlag : Flag :=
  BoolFlag (str "autodag") (str "Enable automatic DAG pregeneration").
Definition EtherbaseFlag : Flag :=
  StringFlag Cli.EtherbaseFlag (str "Public address for block mining rewards (default = first account created)") (str "0").
Definition GasPriceFlag : Flag :=
  StringFlag (str "gasprice") (str "Minimal gas price to accept for mining a transactions") (Itoa (20 * 10 ^ 9)).
Definition ExtraDataFlag : Flag :=
  StringFlag Cli.ExtraDataFlag (str "Block extra data set by the miner (default = client version)") [].
Definition UnlockedAccountFlag : Flag :=
  StringFlag (str "unlock") (str "Comma separated list of accounts to unlock") [].
Definition PasswordFileFlag : Flag :=
  StringFlag Cli.PasswordFileFlag (str "Password file to use for non-inteactive password input") [].
Definition VMForceJitFlag : Flag :=
  BoolFlag (str "forcejit") (str "Force the JIT VM to take precedence").
Definition VMJitCacheFlag : Flag :=
  IntFlag (str "jitcache") (str "Amount of cached JIT VM programs") 64.
Definition VMEnableJitFlag : Flag :=
  BoolFlag Cli.VMEnableJitFlag (str "Enable the JIT VM").
Definition EthStatsURLFlag : Flag :=
  StringFlag (str "ethstats") (str "Reporting URL of a ethstats service (nodename:secret@host:port)") [].
Definition utils_MetricsEnabledFlag : Flag :=
  BoolFlag (str "metrics") (str "Enable metrics collection and reporting").
Definition FakePoWFlag : Flag :=
  BoolFlag (str "fakepow") (str "Disables proof-of-work verification").
Definition RPCEnabledFlag : Flag :=
  BoolFlag Cli.RPCEnabledFlag (str "Enable the HTTP-RPC server").
Definition RPCListenAddrFlag : Flag :=
  StringFlag Cli.RPCListenAddrFlag (str "HTTP-RPC server listening interface") (str "localhost").
Definition RPCPortFlag : Flag :=
  IntFlag Cli.RPCPortFlag (str "HTTP-RPC server listening port") 8545.
Definition RPCCORSDomainFlag : Flag :=
  StringFlag Cli.RPCCORSDomainFlag (str "Comma separated list of domains from which to accept cross origin requests (browser enforced)") [].
Definition RPCApiFlag : Flag :=
  StringFlag Cli.RPCApiFlag (str "API's offered over the HTTP-RPC interface") (str "eth,net,web3").
Definition IPCDisabledFlag : Flag :=
  BoolFlag Cli.IPCDisabledFlag (str "Disable the IPC-RPC server").
Definition IPCApiFlag : Flag :=
  StringFlag (str "ipcapi") (str "APIs offered over the IPC-RPC interface") (str "admin,debug,eth,miner,net,personal,shh,txpool,web3").
Definition IPCPathFlag : Flag :=
  DirFlag {| df_Name := Cli.IPCPathFlag; df_Value := str "geth.ipc"; df_Usage := (str "Filename for IPC socket/pipe within the datadir (explicit paths escape it)"); df_EnvVar := [] |}.
Definition WSEnabledFlag : Flag :=
  BoolFlag Cli.WSEnabledFlag (str "Enable the WS-RPC server").
Definition WSListenAddrFlag : Flag :=
  StringFlag Cli.WSListenAddrFlag (str "WS-RPC server listening interface") (str "localhost").
Definition WSPortFlag : Flag :=
  IntFlag Cli.WSPortFlag (str "WS-RPC server listening port") 8546.
Definition WSApiFlag : Flag :=
  StringFlag Cli.WSApiFlag (str "API's offered over the WS-RPC interface") (str "eth,net,web3").
Definition WSAllowedOriginsFlag : Flag :=
  StringFlag Cli.WSAllowedOriginsFlag (str "Origins from which to accept websockets requests") [].
Definition ExecFlag : Flag :=
  StringFlag (str "exec") (str "Execute JavaScript statement (only in combination with console/attach)") [].
Definition PreloadJSFlag : Flag :=
  StringFlag Cli.PreloadJSFlag (str "Comma separated list of JavaScript files to preload into the console") [].
Definition MaxPeersFlag : Flag :=
  IntFlag Cli.MaxPeersFlag (str "Maximum number of network peers (network disabled if set to 0)") 25.
Definition MaxPendingPeersFlag : Flag :=
  IntFlag Cli.MaxPendingPeersFlag (str "Maximum number of pending connection attempts (defaults used if set to 0)") 0.
Definition ListenPortFlag : Flag :=
  IntFlag Cli.ListenPortFlag (str "Network listening port") 30303.
Definition BootnodesFlag : Flag :=
  StringSliceFlag Cli.BootnodesFlag (str "Comma separated enode URLs for P2P discovery bootstrap") [].
Definition NodeKeyFileFlag : Flag :=
  StringFlag Cli.NodeKeyFileFlag (str "P2P node key file") [].
Definition NodeKeyHexFlag : Flag :=
  StringFlag Cli.NodeKeyHexFlag (str "P2P node key as hex (for testing)") [].
Definition NATFlag : Flag :=
  StringFlag Cli.NATFlag (str "NAT port mapping mechanism (any|none|upnp|pmp|extip:<IP>)") (str "any").
Definition NoDiscoverFlag : Flag :=
  BoolFlag Cli.NoDiscoverFlag (str "Disables the peer discovery mechanism (manual peer addition)").
Definition DiscoveryV5Flag : Flag :=
  BoolFlag Cli.DiscoveryV5Flag (str "Enables the experimental RLPx V5 (Topic Discovery) mechanism").
Definition NetrestrictFlag : Flag :=
  StringFlag Cli.NetrestrictFlag (str "Restricts network communication to the given IP networks (CIDR masks)") [].
Definition WhisperEnabledFlag : Flag :=
  BoolFlag (str "shh") (str "Enable Whisper").
Definition JSpathFlag : Flag :=
  StringFlag Cli.JSpathFlag (str "JavaScript root path for `loadScript`") (str ".").
Definition SolcPathFlag : Flag :=
  StringFlag (str "solc") (str "Solidity compiler command to be used") (str "solc").
Definition GpoMinGasPriceFlag : Flag :=
  StringFlag (str "gpomin") (str "Minimum suggested gas price") (Itoa (20 * 10 ^ 9)).
Definition GpoMaxGasPriceFlag : Flag :=
  StringFlag (str "gpomax") (str "Maximum suggested gas price") (Itoa (500 * 10 ^ 9)).
Definition GpoFullBlockRatioFlag : Flag :=
  IntFlag (str "gpofull") (str "Full block threshold for gas price calculation (%)") 80.
Definition GpobaseStepDownFlag : Flag :=
  IntFlag (str "gpobasedown") (str "Suggested gas price base step down ratio (1/1000)") 10.
Definition GpobaseStepUpFlag : Flag :=
  IntFlag (str "gpobaseup") (str "Suggested gas price base step up ratio (1/1000)") 100.
Definition GpobaseCorrectionFactorFlag : Flag :=
  IntFlag (str "gpobasecf") (str "Suggested gas price base correction factor (%)") 110.
End Flags.
End Utils.

Module Main.
Section Flags.
Context `{Environment}.

Definition ChequebookAddrFlag : Flag :=
  StringFlag Command.ChequebookAddrFlag (str "chequebook contract address") [].
Definition SwarmAccountFlag : Flag :=
  StringFlag Command.SwarmAccountFlag (str "Swarm account key file") [].
Definition SwarmPortFlag : Flag :=
  StringFlag Command.SwarmPortFlag (str "Swarm local http api port") [].
Definition SwarmNetworkIdFlag : Flag :=
  IntFlag (str "bzznetworkid") (str "Network identifier (integer, default 3=swarm testnet)") NetworkId.
Definition SwarmConfigPathFlag : Flag :=
  StringFlag Command.SwarmConfigPathFlag (str "Swarm config file path (datadir/bzz)") [].
Definition SwarmSwapEnabledFlag : Flag :=
  BoolFlag Command.SwarmSwapEnabledFlag (str "Swarm SWAP enabled (default false)").
Definition SwarmSyncEnabledFlag : Flag :=
  BoolTFlag Command.SwarmSyncEnabledFlag (str "Swarm Syncing enabled (default true)").
Definition EthAPIFlag : Flag :=
  StringFlag (str "ethapi") (str "URL of the Ethereum API provider") [].
Definition SwarmApiFlag : Flag :=
  StringFlag (str "bzzapi") (str "Swarm HTTP endpoint") (str "http://127.0.0.1:8500").
Definition SwarmRecursiveUploadFlag : Flag :=
  BoolFlag (str "recursive") (str "Upload directories recursively").
Definition SwarmWantManifestFlag : Flag :=
  BoolTFlag (str "manifest") (str "Automatic manifest upload").
Definition SwarmUploadDefaultPath : Flag :=
  StringFlag (str "defaultpath") (str "path to file served for empty url path (none)") [].
Definition CorsStringFlag : Flag :=
  StringFlag Command.CorsStringFlag (str "Domain on which to send Access-Control-Allow-Origin header (multiple domains can be supplied separated by a ',')") [].
Definition RTMPFlag : Flag :=
  StringFlag Command.RTMPFlag (str "Specify RTMP streaming port") (str "1935").
Definition FFMpegPathFlag : Flag :=
  StringFlag Command.FFMpegPathFlag (str "path to ffmpeg") [].
Definition HLSFlag : Flag :=
  BoolFlag Command.HLSFlag (str "True if you'd like to stream the HLS rendition").
Definition MetricsEnabledFlag : Flag :=
  BoolFlag (str "metrics") (str "Enable metrics collection and reporting").
Definition VizEnabledFlag : Flag :=
  BoolFlag (str "viz") (str "true if you want to talk to a metrics visualization server").
Definition VizHostFlag : Flag :=
  StringFlag (str "vizhost") (str "The url + port to communicate to the visualization server (ex/default 'http://localhost:8585')") (str "http://localhost:8585").
Definition LivepeerNetworkIdFlag : Flag :=
  IntFlag Command.LivepeerNetworkIdFlag (str "Network identifier (integer, default 326326=livepeer toy net)") NetworkId.
End Flags.
End Main.

Module Debug.
Section Flags.
Context `{Environment}.

Definition verbosityFlag : Flag :=
  GenericFlag (str "verbosity") (str "Logging verbosity: 0=silent, 1=error, 2=warn, 3=info, 4=core, 5=debug, 6=detail").
Definition vmoduleFlag : Flag :=
  GenericFlag (str "vmodule") (str "Per-module verbosity: comma-separated list of <pattern>=<level> (e.g. eth/*=6,p2p=5)").
Definition backtraceAtFlag : Flag :=
  GenericFlag (str "backtrace") (str "Request a stack trace at a specific logging statement (e.g. " ++ [34] ++ str "block.go:271" ++ [34] ++ str ")").
Definition pprofFlag : Flag :=
  BoolFlag (str "pprof") (str "Enable the pprof HTTP server").
Definition pprofPortFlag : Flag :=
  IntFlag (str "pprofport") (str "pprof HTTP server listening port") 6060.
Definition pprofAddrFlag : Flag :=
  StringFlag (str "pprofaddr") (str "pprof HTTP server listening interface") (str "127.0.0.1").
Definition memprofilerateFlag : Flag :=
  IntFlag (str "memprofilerate") (str "Turn on memory profiling with the given rate") MemProfileRate.
Definition blockprofilerateFlag : Flag :=
  IntFlag (str "blockprofilerate") (str "Turn on block profiling with the given rate") 0.
Definition cpuprofileFlag : Flag :=
  StringFlag Tools.cpuprofileFlag (str "Write CPU profile to the given file") [].
Definition traceFlag : Flag :=
  StringFlag Tools.traceFlag (str "Write execution trace to the given file") [].

Definition Flags : list Flag :=
  [verbosityFlag; vmoduleFlag; backtraceAtFlag; pprofFlag; pprofAddrFlag; pprofPortFlag; memprofilerateFlag; blockprofilerateFlag; cpuprofileFlag; traceFlag].
End Flags.
End Debug.

(** ** Flag sets *)

(** The flags that are defined, by name, and their values. *)
Record FlagSet := mkFlagSet { fs_formal : gmap bytes Flag; fs_ctx : Context_ }.

Definition NewFlagSet : FlagSet := {| fs_formal := ∅; fs_ctx := mkContext ∅ ∅ ∅ ∅ ∅ |}.

Definition put_string (name v : bytes) (c : Context_) : Context_ :=
  {| cx_strings := <[name := v]> (cx_strings c); cx_bools := cx_bools c; cx_ints := cx_ints c; cx_slices := cx_slices c; cx_set := cx_set c |}.
Definition put_bool (name : bytes) (v : bool) (c : Context_) : Context_ :=
  {| cx_strings := cx_strings c; cx_bools := <[name := v]> (cx_bools c); cx_ints := cx_ints c; cx_slices := cx_slices c; cx_set := cx_set c |}.
Definition put_int (name : bytes) (v : Z) (c : Context_) : Context_ :=
  {| cx_strings := cx_strings c; cx_bools := cx_bools c; cx_ints := <[name := v]> (cx_ints c); cx_slices := cx_slices c; cx_set := cx_set c |}.
Definition put_slice (name : bytes) (v : list bytes) (c : Context_) : Context_ :=
  {| cx_strings := cx_strings c; cx_bools := cx_bools c; cx_ints := cx_ints c; cx_slices := <[name := v]> (cx_slices c); cx_set := cx_set c |}.
Definition mark_set (name : bytes) (c : Context_) : Context_ :=
  {| cx_strings := cx_strings c; cx_bools := cx_bools c; cx_ints := cx_ints c; cx_slices := cx_slices c; cx_set := {[name]} ∪ cx_set c |}.

(** What ends the parsing of a command line. *)
Inductive usage_error :=
| BadSyntax (s : bytes) | NotDefined (name : bytes) | InvalidValue (name value : bytes) | NeedsArgument (name : bytes) | TwoForms (name : bytes)
| SetupFailed (e : debugerr).

Section Parsing.
Context `{Environment}.

Definition put_default (f : Flag) (name : bytes) (c : Context_) : Context_ :=
  match f with
  | BoolFlag _ _ => put_bool name false c
  | BoolTFlag _ _ => put_bool name true c
  | IntFlag _ _ v => put_int name v c
  | StringFlag _ _ v => put_string name v c
  | StringSliceFlag _ _ v => put_slice name v c
  | GenericFlag _ _ => put_string name (glog_String name) c
  | DirFlag self => put_string name (fst (DirectoryFlag_Apply Getenv self)) c
  end.

(** The names a flag is defined under. *)
Definition each_name (f : Flag) : list bytes :=
  match f with
  | DirFlag self => fst <$> snd (DirectoryFlag_Apply Getenv self)
  | f => Trim_spaces <$> strings_Split comma (GetName f)
  end.

(** The panic is that of a name that is defined twice. *)
Fixpoint define_names (f : Flag) (names : list bytes) (s : FlagSet) : result usage_error FlagSet :=
  match names with
  | [] => Ok s
  | name :: names =>
    match fs_formal s !! name with
    | Some _ => Panic
    | None => define_names f names {| fs_formal := <[name := f]> (fs_formal s); fs_ctx := put_default f name (fs_ctx s) |}
    end
  end.

Fixpoint flagSet (flags : list Flag) (s : FlagSet) : result usage_error FlagSet :=
  match flags with
  | [] => Ok s
  | f :: flags => let! s := define_names f (each_name f) s in flagSet flags s
  end.

(** [Value.Set]: what the value of a flag becomes. *)
Definition Value_Set (f : Flag) (name v : bytes) (c : Context_) : option Context_ :=
  match f with
  | BoolFlag _ _ | BoolTFlag _ _ => match ParseBool v with Some b => Some (put_bool name b c) | None => None end
  | IntFlag _ _ _ => match ParseInt v with Some z => Some (put_int name z c) | None => None end
  | StringFlag _ _ _ => Some (put_string name v c)
  | StringSliceFlag _ _ _ => Some (put_slice name (default [] (cx_slices c !! name) ++ [v]) c)
  | GenericFlag _ _ => match glog_Set name v with Some s => Some (put_string name s c) | None => None end
  | DirFlag _ => Some (put_string name (DirectoryString_Set Getenv current_home v) c)
  end.

Definition IsBoolFlag (f : Flag) : bool := match f with BoolFlag _ _ | BoolTFlag _ _ => true | _ => false end.

(** The name and the value of an argument with an equals sign; the sign cannot be first. *)
Fixpoint break_equals (s : bytes) : bytes * option bytes :=
  match s with
  | [] => ([], None)
  | c :: s' => if c =? 61 then ([], Some s') else let '(n, v) := break_equals s' in (c :: n, v)
  end.

Definition name_value (s : bytes) : bytes * option bytes :=
  match s with c :: s' => let '(n, v) := break_equals s' in (c :: n, v) | [] => ([], None) end.

Definition give (f : Flag) (name v : bytes) (s : FlagSet) : result usage_error FlagSet :=
  match Value_Set f name v (fs_ctx s) with
  | Some c => Ok {| fs_formal := fs_formal s; fs_ctx := mark_set name c |}
  | None => Err (InvalidValue name v)
  end.

Definition minus : Z := 45.

(** Where [parseOne] ends the flags, and the text of a flag behind its one or two dashes. *)
Inductive arg_kind := ArgEnd | ArgTerminator | ArgFlag (text : bytes).
Definition arg_of (s : bytes) : arg_kind :=
  match s with
  | c :: d :: s' =>
    if c =? minus then if d =? minus then match s' with [] => ArgTerminator | _ => ArgFlag s' end else ArgFlag (d :: s')
    else ArgEnd
  | _ => ArgEnd
  end.

(** [FlagSet.Parse]: the values and the arguments that are left. *)
Fixpoint Parse (s : FlagSet) (args : list bytes) : result usage_error (FlagSet * list bytes) :=
  match args with
  | [] => Ok (s, [])
  | a :: args =>
    match arg_of a with
    | ArgEnd => Ok (s, a :: args)
    | ArgTerminator => Ok (s, args)
    | ArgFlag text =>
      match text with
      | [] => Err (BadSyntax a)
      | c :: _ =>
        if (c =? minus) || (c =? 61) then Err (BadSyntax a)
        else
          let '(name, value) := name_value text in
          match fs_formal s !! name with
          | None => Err (NotDefined name)
          | Some f =>
            match value with
            | Some v => let! s := give f name v s in Parse s args
            | None =>
              if IsBoolFlag f then let! s := give f name (str "true") s in Parse s args
              else match args with
                   | v :: args => let! s := give f name v s in Parse s args
                   | [] => Err (NeedsArgument name)
                   end
            end
          end
      end
    end
  end.

(** ** The application *)

Definition HelpFlag : Flag := BoolFlag (str "help, h") (str "show help").

(** [app.Flags] after [init] and [Setup]: the defaults that [init] overrides, the flags of the logging and profiling, and the help. *)
Definition app_Flags : list Flag :=
  [Utils.IdentityFlag;
   Utils.DataDirFlag;
   Utils.BootnodesFlag;
   Utils.KeyStoreDirFlag;
   with_Int 30399 Utils.ListenPortFlag;
   Utils.NoDiscoverFlag;
   Utils.DiscoveryV5Flag;
   Utils.NetrestrictFlag;
   Utils.NodeKeyFileFlag;
   Utils.NodeKeyHexFlag;
   Utils.MaxPeersFlag;
   Utils.NATFlag;
   Utils.IPCDisabledFlag;
   with_String (str "admin, bzz, chequebook, debug, rpc, web3") Utils.IPCApiFlag;
   with_Directory (str "bzzd.ipc") Utils.IPCPathFlag;
   with_String (str "true") Utils.LPNetFlag;
   Main.CorsStringFlag;
   Main.EthAPIFlag;
   Main.SwarmConfigPathFlag;
   Main.SwarmSwapEnabledFlag;
   Main.SwarmSyncEnabledFlag;
   Main.SwarmPortFlag;
   Main.SwarmAccountFlag;
   Main.SwarmNetworkIdFlag;
   Main.ChequebookAddrFlag;
   Main.SwarmApiFlag;
   Main.SwarmRecursiveUploadFlag;
   Main.SwarmWantManifestFlag;
   Main.SwarmUploadDefaultPath;
   Main.RTMPFlag;
   Main.FFMpegPathFlag;
   Main.HLSFlag;
   Main.MetricsEnabledFlag;
   Main.VizEnabledFlag;
   Main.VizHostFlag;
   Main.LivepeerNetworkIdFlag] ++ Debug.Flags ++ [HelpFlag].

(** Both names of the help flag given is an error; one given sets the other. No other flag has two names. *)
Definition normalizeFlags (s : FlagSet) : result usage_error FlagSet :=
  let visited n := bool_decide (n ∈ cx_set (fs_ctx s)) in
  let help := str "help" in
  let h := str "h" in
  if visited help && visited h then Err (TwoForms h)
  else if visited help then give HelpFlag h (bool_String (GlobalBool (fs_ctx s) help)) s
  else if visited h then give HelpFlag help (bool_String (GlobalBool (fs_ctx s) h)) s
  else Ok s.

Definition checkHelp (s : FlagSet) : bool := GlobalBool (fs_ctx s) (str "help") || GlobalBool (fs_ctx s) (str "h").

(** The arguments of a command before its first flag, and those from there to a terminator or the end. *)
Fixpoint scan (args : list bytes) (i : nat) (first : option nat) : option nat * option nat :=
  match args with
  | [] => (first, None)
  | a :: args =>
    if bool_decide (a = str "--") then (first, Some i)
    else if bool_decide (a = str "-") then scan args (S i) first
    else if bool_decide (str "-" `prefix_of` a) && bool_decide (first = None) then scan args (S i) (Some i)
    else scan args (S i) first
  end.

(** [Command.Run] of a command without flags of its own: its arguments, or the help. [args] starts with the name of the command. *)
Definition Command_args (args : list bytes) : result usage_error (option (list bytes)) :=
  let! set := flagSet [HelpFlag] NewFlagSet in
  let! '(set, rest) :=
    match scan args 0 None with
    | (Some first, terminator) =>
      let regularArgs := take (first - 1) (drop 1 args) in
      match terminator with
      | Some t => Parse set (take (t - first) (drop first args) ++ regularArgs ++ drop t args)
      | None => Parse set (drop first args ++ regularArgs)
      end
    | (None, _) => Parse set (drop 1 args)
    end in
  let! set := normalizeFlags set in
  Ok (if checkHelp set then None else Some rest).

(** What a run of the application comes to. *)
Inductive action :=
| ActHelp
| ActLivepeer (ctx : Context_)
| ActStream (ctx : Context_) (args : list bytes)
| ActVersion (ctx : Context_).

(** [App.Run]; [args] are those behind the name of the program, [create] tells which profile files can be created. *)
Definition App_Run (create : bytes -> bool) (args : list bytes) : result usage_error action :=
  let! set := flagSet app_Flags NewFlagSet in
  let! '(set, rest) := Parse set args in
  let! set := normalizeFlags set in
  if checkHelp set then Ok ActHelp
  else
    let ctx := fs_ctx set in
    match Setup Handler ctx create with
    | (Some e, _) => Err (SetupFailed e)
    | (None, _) =>
      match rest with
      | name :: _ =>
        if bool_decide (name = str "stream") then
          let! o := Command_args rest in Ok (match o with Some args => ActStream ctx args | None => ActHelp end)
        else if bool_decide (name = str "version") then
          let! o := Command_args rest in Ok (match o with Some _ => ActVersion ctx | None => ActHelp end)
        else if bool_decide (name = str "help") || bool_decide (name = str "h") then
          let! _ := Command_args rest in Ok ActHelp
        else Ok (ActLivepeer ctx)
      | [] => Ok (ActLivepeer ctx)
      end
    end.

(** The network that [version] prints: the flag is not one of the application. *)
Definition version_network (ctx : Context_) : Z := GlobalInt ctx (GetName Utils.NetworkIdFlag).
End Parsing.
