(* ===== verification/FlagsProps.v ===== *)
(** Properties of the command line ([Flags]): what an accepted line means, which flags have no effect, and where the flags of a command go. *)
From stdpp Require Import base gmap list strings pretty.
From Stdlib Require Import ZArith Lia.
From S2P Require Import Prelude Types Protocol Manifest ManifestProps FileSystem Config Cli Command Tools Flags.

Arguments nc_HTTPHost {SK ND ND5 NT NL} _.
Arguments nc_WSHost {SK ND ND5 NT NL} _.
Arguments nc_MaxPendingPeers {SK ND ND5 NT NL} _.
Arguments nc_UseLightweightKDF {SK ND ND5 NT NL} _.
Arguments nc_NoDiscovery {SK ND ND5 NT NL} _.
Arguments nc_DiscoveryV5 {SK ND ND5 NT NL} _.

(** ** Settings *)

(** A setting of a flag in its normal form, [--name=value]. *)
Definition render (nv : bytes * bytes) : bytes := minus :: minus :: fst nv ++ 61 :: snd nv.

(** A name that an argument can give. *)
Definition name_okb (n : bytes) : bool :=
  match n with c :: _ => negb (c =? minus) && forallb (fun c => negb (c =? 61)) n | [] => false end.

Lemma break_equals_app n v : forallb (fun c => negb (c =? 61)) n = true -> break_equals (n ++ 61 :: v) = (n, Some v).
Proof. induction n as [|c n IH]; cbn; [done|]. destruct (c =? 61); [done|]. cbn. intros Hn. by rewrite IH. Qed.

Lemma break_equals_none n : forallb (fun c => negb (c =? 61)) n = true -> break_equals n = (n, None).
Proof. induction n as [|c n IH]; cbn; [done|]. destruct (c =? 61); [done|]. cbn. intros Hn. by rewrite IH. Qed.

Lemma break_equals_inv s n v : break_equals s = (n, v) ->
  forallb (fun c => negb (c =? 61)) n = true /\ s = match v with Some v => n ++ 61 :: v | None => n end.
Proof.
  revert n v. induction s as [|c s IH]; intros n v; cbn; [by intros [= <- <-]|]. destruct (Z.eqb_spec c 61) as [-> |Hc]; [by intros [= <- <-]|].
  destruct (break_equals s) as [n' v'] eqn:E. intros [= <- <-]. destruct (IH n' v' eq_refl) as [Hn ->]. cbn.
  destruct (Z.eqb_spec c 61); [done|]. split; [exact Hn|]. by destruct v'.
Qed.

(** ** The grammar of a line *)

(** An argument that is no flag, and one that is a flag with this text, behind one dash or two. *)
Definition plain (a : bytes) : Prop := match a with c :: _ :: _ => c <> minus | _ => True end.
Definition dashed (a text : bytes) : Prop := a = minus :: text \/ a = minus :: minus :: text.

(** The settings that a line gives, and the arguments behind them. *)
Inductive line (F : gmap bytes Flag) : list bytes -> list (bytes * bytes) -> list bytes -> Prop :=
| line_end : line F [] [] []
| line_plain a args : plain a -> line F (a :: args) [] (a :: args)
| line_stop args : line F (str "--" :: args) [] args
| line_equals a n v f args l rest :
    dashed a (n ++ 61 :: v) -> name_okb n = true -> F !! n = Some f -> line F args l rest -> line F (a :: args) ((n, v) :: l) rest
| line_bool a n f args l rest :
    dashed a n -> name_okb n = true -> F !! n = Some f -> IsBoolFlag f = true -> line F args l rest -> line F (a :: args) ((n, str "true") :: l) rest
| line_value a n v f args l rest :
    dashed a n -> name_okb n = true -> F !! n = Some f -> IsBoolFlag f = false -> line F args l rest -> line F (a :: v :: args) ((n, v) :: l) rest.

Lemma arg_of_plain a : plain a -> arg_of a = ArgEnd.
Proof. destruct a as [|c [|d a]]; try done. cbn. intros Hc. by destruct (Z.eqb_spec c minus). Qed.

Lemma arg_of_dashed a c t : dashed a (c :: t) -> c <> minus -> arg_of a = ArgFlag (c :: t).
Proof. intros [-> | ->] Hc; cbn; destruct (Z.eqb_spec c minus); done. Qed.

Lemma arg_of_inv a : match arg_of a with ArgEnd => plain a | ArgTerminator => a = str "--" | ArgFlag t => dashed a t end.
Proof.
  destruct a as [|c [|d a]]; try done. cbn. destruct (Z.eqb_spec c minus) as [-> |]; [|done]. destruct (Z.eqb_spec d minus) as [-> |]; [|by left].
  destruct a; [done|by right].
Qed.

Lemma name_value_text n v : name_okb n = true ->
  exists c t, (match v with Some v => n ++ 61 :: v | None => n end) = c :: t /\ c <> minus /\ c <> 61 /\ name_value (c :: t) = (n, v).
Proof.
  destruct n as [|c n]; [done|]. cbn. destruct (Z.eqb_spec c minus); [done|]. destruct (Z.eqb_spec c 61); [done|]. cbn. intros Hn.
  destruct v as [v|]; eexists c, _; split_and!; try done; cbn; [by rewrite break_equals_app|by rewrite break_equals_none].
Qed.

Section Props.
Context `{Environment}.
Implicit Types (s : FlagSet) (l : list (bytes * bytes)).

(** The settings of a list, one after the other. *)
Fixpoint set_all l s : result usage_error FlagSet :=
  match l with
  | [] => Ok s
  | (n, v) :: l =>
    match fs_formal s !! n with
    | Some f => let! s := give f n v s in set_all l s
    | None => Err (NotDefined n)
    end
  end.

Lemma give_formal f n v s s' : give f n v s = Ok s' -> fs_formal s' = fs_formal s.
Proof using Type. unfold give. destruct (Value_Set f n v (fs_ctx s)); [|done]. by intros [= <-]. Qed.

Lemma set_all_app l1 l2 s : set_all (l1 ++ l2) s = let! s := set_all l1 s in set_all l2 s.
Proof using Type.
  revert s. induction l1 as [|[n v] l1 IH]; intros s; cbn; [done|]. destruct (fs_formal s !! n); [|done].
  destruct (give f n v s); cbn; [apply IH|done|done].
Qed.

Lemma set_all_names l s s' : set_all l s = Ok s' -> fs_formal s' = fs_formal s /\ Forall (fun nv => is_Some (fs_formal s !! nv.1)) l.
Proof using Type.
  revert s. induction l as [|[n v] l IH]; intros s; cbn; [intros [= <-]; done|]. destruct (fs_formal s !! n) as [f|] eqn:Ef; [|done].
  destruct (give f n v s) as [s1| |] eqn:Eg; cbn; try done. apply give_formal in Eg as E1. intros [E2 HF]%IH. rewrite E1 in E2, HF. split; [done|].
  constructor; [by exists f|done].
Qed.

(** ** Parsing *)

(** One flag. *)
Lemma Parse_flag s a n v args :
  dashed a (match v with Some v => n ++ 61 :: v | None => n end) -> name_okb n = true ->
  Parse s (a :: args) =
    match fs_formal s !! n with
    | None => Err (NotDefined n)
    | Some f =>
      match v with
      | Some v => let! s := give f n v s in Parse s args
      | None => if IsBoolFlag f then let! s := give f n (str "true") s in Parse s args
                else match args with v :: args => let! s := give f n v s in Parse s args | [] => Err (NeedsArgument n) end
      end
    end.
Proof using Type.
  intros Ha Hn. destruct (name_value_text n v Hn) as (c & t & E & Hc & He & Hnv). rewrite E in Ha. cbn [Parse]. rewrite (arg_of_dashed a c t) by done.
  rewrite (proj2 (Z.eqb_neq c minus)), (proj2 (Z.eqb_neq c 61)) by done. cbn [orb]. by rewrite Hnv.
Qed.

Lemma Parse_undefined s a n v args :
  dashed a (match v with Some v => n ++ 61 :: v | None => n end) -> name_okb n = true -> fs_formal s !! n = None -> Parse s (a :: args) = Err (NotDefined n).
Proof using Type. intros Ha Hn Hf. by rewrite (Parse_flag s a n v args Ha Hn), Hf. Qed.

Lemma Parse_plain s a args : plain a -> Parse s (a :: args) = Ok (s, a :: args).
Proof using Type. intros Ha. cbn [Parse]. by rewrite arg_of_plain. Qed.

(** What is parsed is a line of the grammar, and its settings are made. *)
Lemma Parse_line k : forall args s s' rest, (length args <= k)%nat -> Parse s args = Ok (s', rest) ->
  exists l, line (fs_formal s) args l rest /\ set_all l s = Ok s'.
Proof using Type.
  induction k as [|k IH]; intros [|a args] s s' rest Hk; cbn [length] in Hk; try lia;
    try (intros [= <- <-]; exists []; split; [constructor|done]).
  cbn [Parse]. pose proof (arg_of_inv a) as Ha. destruct (arg_of a) as [| |text].
  { intros [= <- <-]. exists []. split; [by constructor|done]. }
  { intros [= <- <-]. exists []. subst a. split; [constructor|done]. }
  destruct text as [|c t]; [done|]. destruct (Z.eqb_spec c minus) as [|Hc1]; [done|]. destruct (Z.eqb_spec c 61) as [|Hc2]; [done|]. cbn [orb name_value].
  destruct (break_equals t) as [n' value] eqn:Eb. destruct (break_equals_inv _ _ _ Eb) as [Hn' Ht].
  assert (Hn : name_okb (c :: n') = true) by (cbn; rewrite (proj2 (Z.eqb_neq c minus)), (proj2 (Z.eqb_neq c 61)) by done; exact Hn').
  set (n := c :: n') in *. destruct (fs_formal s !! n) as [f|] eqn:Ef; [|done].
  assert (Hgo : forall v args' , (length args' <= k)%nat -> (let! s := give f n v s in Parse s args') = Ok (s', rest) ->
    exists l, line (fs_formal s) args' l rest /\ set_all ((n, v) :: l) s = Ok s').
  { intros v args' Hl. destruct (give f n v s) as [s1| |] eqn:Eg; cbn [rbind]; try done. intros (l & Hl1 & Hs)%IH; [|done].
    rewrite (give_formal _ _ _ _ _ Eg) in Hl1. exists l. split; [done|]. cbn. by rewrite Ef, Eg. }
  destruct value as [v|].
  { intros (l & Hl & Hs)%Hgo; [|lia]. exists ((n, v) :: l). split; [|done]. eapply line_equals; [|exact Hn|exact Ef|exact Hl]. by rewrite Ht in Ha. }
  rewrite Ht in Ha. fold n in Ha. destruct (IsBoolFlag f) eqn:Hb.
  { intros (l & Hl & Hs)%Hgo; [|lia]. exists ((n, str "true") :: l). split; [|done]. by eapply line_bool. }
  destruct args as [|v args']; [done|]. intros (l & Hl & Hs)%Hgo; [|cbn in Hk; lia]. exists ((n, v) :: l). split; [|done]. by eapply line_value.
Qed.

Lemma line_Parse F args l rest : line F args l rest -> forall s s', fs_formal s = F -> set_all l s = Ok s' -> Parse s args = Ok (s', rest).
Proof using Type.
  induction 1 as [|a args Ha|args|a n v f args l rest Ha Hn Hf _ IH|a n f args l rest Ha Hn Hf Hb _ IH|a n v f args l rest Ha Hn Hf Hb _ IH]; intros s s' HF; cbn [set_all].
  - by intros [= <-].
  - intros [= <-]. by apply Parse_plain.
  - by intros [= <-].
  - rewrite (Parse_flag s a n (Some v)), HF, Hf by done. destruct (give f n v s) as [s1| |] eqn:Eg; cbn [rbind]; try done. apply IH. by rewrite (give_formal _ _ _ _ _ Eg).
  - rewrite (Parse_flag s a n None), HF, Hf, Hb by done. destruct (give f n _ s) as [s1| |] eqn:Eg; cbn [rbind]; try done. apply IH. by rewrite (give_formal _ _ _ _ _ Eg).
  - rewrite (Parse_flag s a n None), HF, Hf, Hb by done. destruct (give f n v s) as [s1| |] eqn:Eg; cbn [rbind]; try done. apply IH. by rewrite (give_formal _ _ _ _ _ Eg).
Qed.

(** The settings of a line are its only ones. *)
Lemma line_fun F args l rest : line F args l rest -> forall l' rest', line F args l' rest' -> l' = l /\ rest' = rest.
Proof using Type.
  assert (Hd : forall a n v n' v', dashed a (match v with Some v => n ++ 61 :: v | None => n end) -> name_okb n = true ->
    dashed a (match v' with Some v => n' ++ 61 :: v | None => n' end) -> name_okb n' = true -> n' = n /\ v' = v).
  { intros a n v n' v' H1 Hn H2 Hn'. destruct (name_value_text n v Hn) as (c & t & E & Hc & _ & Ev). destruct (name_value_text n' v' Hn') as (c' & t' & E' & Hc' & _ & Ev').
    rewrite E in H1. rewrite E' in H2. pose proof (arg_of_dashed _ _ _ H1 Hc) as Ea. rewrite (arg_of_dashed _ _ _ H2 Hc') in Ea. injection Ea as -> ->. rewrite Ev in Ev'. by injection Ev' as <- <-. }
  assert (Hp : forall a n v, plain a -> dashed a (match v with Some v => n ++ 61 :: v | None => n end) -> name_okb n = true -> False).
  { intros a n v Ha H1 Hn. destruct (name_value_text n v Hn) as (c & t & E & Hc & _). rewrite E in H1. apply arg_of_plain in Ha. by rewrite (arg_of_dashed _ _ _ H1 Hc) in Ha. }
  assert (Hs : forall n v, dashed (str "--") (match v with Some v => n ++ 61 :: v | None => n end) -> name_okb n = true -> False).
  { intros n v H1 Hn. destruct (name_value_text n v Hn) as (c & t & E & Hc & _). rewrite E in H1. by pose proof (arg_of_dashed _ _ _ H1 Hc). }
  induction 1 as [|a args Ha|args|a n v f args l rest Ha Hn Hf _ IH|a n f args l rest Ha Hn Hf Hb _ IH|a n v f args l rest Ha Hn Hf Hb _ IH]; intros l' rest' HL;
    inversion HL; subst; try done;
    try (exfalso; solve [by eapply (Hp _ _ (Some _))|by eapply (Hp _ _ None)|by eapply (Hs _ (Some _))|by eapply (Hs _ None)]);
    match goal with
    | H1 : dashed ?a (?n ++ 61 :: ?v), H2 : dashed ?a (?n' ++ 61 :: ?v') |- _ => destruct (Hd a n (Some v) n' (Some v')) as [? [= ?]]; [done..|]; subst
    | H1 : dashed ?a (?n ++ 61 :: ?v), H2 : dashed ?a ?n' |- _ => by destruct (Hd a n (Some v) n' None)
    | H1 : dashed ?a ?n, H2 : dashed ?a ?n' |- _ => destruct (Hd a n None n' None) as [? _]; [done..|]; subst
    end; try congruence; match goal with H : line _ _ _ _ |- _ => apply IH in H as [-> ->] end; done.
Qed.

(** ** The flags of the application *)

Lemma define_names_formal f names : forall s s', define_names f names s = Ok s' ->
  forall n, is_Some (fs_formal s' !! n) <-> is_Some (fs_formal s !! n) \/ n ∈ names.
Proof using Type.
  induction names as [|m names IH]; intros s s'; cbn; [intros [= <-] n; rewrite elem_of_nil; tauto|].
  destruct (fs_formal s !! m); [done|]. intros E n. rewrite (IH _ _ E n). cbn. rewrite lookup_insert, elem_of_cons. case_decide; [subst|]; naive_solver.
Qed.

Lemma flagSet_formal flags : forall s s', flagSet flags s = Ok s' ->
  forall n, is_Some (fs_formal s' !! n) <-> is_Some (fs_formal s !! n) \/ n ∈ concat (each_name <$> flags).
Proof using Type.
  induction flags as [|f flags IH]; intros s s'; cbn; [intros [= <-] n; rewrite elem_of_nil; tauto|].
  destruct (define_names f (each_name f) s) as [s1| |] eqn:E; cbn; try done. intros E' n.
  rewrite (IH _ _ E' n), (define_names_formal _ _ _ _ E n), elem_of_app. tauto.
Qed.

Definition app_names : list bytes := concat (each_name <$> app_Flags).

Lemma app_names_ok : forallb name_okb app_names = true.
Proof using Type. vm_compute. reflexivity. Qed.

Lemma app_set : exists s0, flagSet app_Flags NewFlagSet = Ok s0.
Proof using Type.
  assert (Hb : match flagSet app_Flags NewFlagSet with Ok _ => true | _ => false end = true) by (vm_compute; reflexivity).
  destruct (flagSet app_Flags NewFlagSet) as [s0|e|]; [by exists s0|discriminate..].
Qed.

Lemma app_set_names s0 n : flagSet app_Flags NewFlagSet = Ok s0 -> is_Some (fs_formal s0 !! n) <-> n ∈ app_names.
Proof using Type. 
  intros E. rewrite (flagSet_formal _ _ _ E n). fold app_names. generalize app_names. intros names. change (fs_formal NewFlagSet) with (∅ : gmap bytes Flag).
  rewrite lookup_empty. split; [intros [[? [=]]|?]; done|by right].
Qed.

Lemma app_name_ok n : n ∈ app_names -> name_okb n = true.
Proof using Type. intros Hn. pose proof app_names_ok as Hok. rewrite forallb_forall in Hok. by apply Hok, list_elem_of_In. Qed.

Lemma app_help : str "help" ∈ app_names /\ str "h" ∈ app_names.
Proof using Type. split; eapply bool_decide_eq_true_1; vm_compute; reflexivity. Qed.

(** What the settings leave alone. *)
Lemma set_all_other l : forall s s', set_all l s = Ok s' ->
  cx_set (fs_ctx s') = list_to_set l.*1 ∪ cx_set (fs_ctx s) /\
  forall n, n ∉ l.*1 -> cx_strings (fs_ctx s') !! n = cx_strings (fs_ctx s) !! n /\ cx_bools (fs_ctx s') !! n = cx_bools (fs_ctx s) !! n /\
    cx_ints (fs_ctx s') !! n = cx_ints (fs_ctx s) !! n /\ cx_slices (fs_ctx s') !! n = cx_slices (fs_ctx s) !! n.
Proof using Type.
  induction l as [|[m v] l IH]; intros s s'; cbn [set_all]; [intros [= <-]; split; [set_solver|done]|]. destruct (fs_formal s !! m) as [f|]; [|done].
  unfold give. destruct (Value_Set f m v (fs_ctx s)) as [c|] eqn:Ev; [|done]. cbn [rbind]. intros [Hset Hoth]%IH. cbn [fs_ctx mark_set cx_set cx_strings cx_bools cx_ints cx_slices] in *.
  assert (Hc : cx_set c = cx_set (fs_ctx s)) by (destruct f; cbn in Ev; repeat case_match; by simplify_eq). rewrite Hc in Hset. split; [rewrite Hset; cbn; set_solver|].
  intros n Hn. cbn in Hn. apply not_elem_of_cons in Hn as [Hne Hn]. destruct (Hoth n Hn) as (-> & -> & -> & ->).
  destruct f; cbn in Ev; repeat case_match; simplify_eq; cbn; rewrite ?lookup_insert_ne by done; done.
Qed.

(** The values before the command line is read. *)
Lemma app_start s0 : flagSet app_Flags NewFlagSet = Ok s0 ->
  fs_formal s0 !! Command.RTMPFlag = Some Main.RTMPFlag /\ cx_set (fs_ctx s0) = ∅ /\ GlobalString (fs_ctx s0) Tools.traceFlag = [] /\
  GlobalString (fs_ctx s0) Tools.cpuprofileFlag = [] /\ GlobalBool (fs_ctx s0) Command.HLSFlag = false /\ checkHelp s0 = false.
Proof using Type.
  assert (Hb : match flagSet app_Flags NewFlagSet with
    | Ok s => fs_formal s !! Command.RTMPFlag = Some Main.RTMPFlag /\ cx_set (fs_ctx s) = ∅ /\ GlobalString (fs_ctx s) Tools.traceFlag = [] /\
        GlobalString (fs_ctx s) Tools.cpuprofileFlag = [] /\ GlobalBool (fs_ctx s) Command.HLSFlag = false /\ checkHelp s = false
    | _ => False
    end) by (vm_compute; repeat split; reflexivity).
  intros E. rewrite E in Hb. exact Hb.
Qed.

Lemma normalize_none s : cx_set (fs_ctx s) ∩ {[str "help"; str "h"]} = ∅ -> normalizeFlags s = Ok s.
Proof using Type.
  intros Hs. assert ((str "help" ∉ cx_set (fs_ctx s)) /\ (str "h" ∉ cx_set (fs_ctx s))) as [H1 H2] by (split; set_solver).
  unfold normalizeFlags. by rewrite !bool_decide_eq_false_2.
Qed.

(** Settings that do not ask for the help, and whose profile files can be made. *)
Definition runnable (create : bytes -> bool) l s : Prop :=
  (str "help" ∉ l.*1) /\ (str "h" ∉ l.*1) /\ fst (Setup Handler (fs_ctx s) create) = None.

(** A run of the program behind the settings of its line. *)
Lemma App_Run_line create s0 args l rest s :
  flagSet app_Flags NewFlagSet = Ok s0 -> line (fs_formal s0) args l rest -> set_all l s0 = Ok s -> runnable create l s ->
  App_Run create args =
    match rest with
    | name :: _ =>
      if bool_decide (name = str "stream") then
        let! o := Command_args rest in Ok (match o with Some args => ActStream (fs_ctx s) args | None => ActHelp end)
      else if bool_decide (name = str "version") then
        let! o := Command_args rest in Ok (match o with Some _ => ActVersion (fs_ctx s) | None => ActHelp end)
      else if bool_decide (name = str "help") || bool_decide (name = str "h") then let! _ := Command_args rest in Ok ActHelp
      else Ok (ActLivepeer (fs_ctx s))
    | [] => Ok (ActLivepeer (fs_ctx s))
    end.
Proof using Type.
  intros E0 HL Hl (Hh1 & Hh2 & Hsu). destruct (app_start s0 E0) as (_ & Hset & _ & _ & _ & Hhelp). unfold App_Run. rewrite E0. cbn [rbind].
  rewrite (line_Parse _ _ _ _ HL s0 s eq_refl Hl). cbn [rbind]. destruct (set_all_other l s0 s Hl) as [Hs Hoth]. rewrite Hset in Hs.
  rewrite normalize_none; [cbn [rbind]|rewrite Hs; clear -Hh1 Hh2; set_solver].
  assert (checkHelp s = false) as ->.
  { destruct (Hoth _ Hh1) as (_ & E1 & _ & _). destruct (Hoth _ Hh2) as (_ & E2 & _ & _). unfold checkHelp, GlobalBool in *. by rewrite E1, E2. }
  destruct (Setup Handler (fs_ctx s) create) as [e h]. cbn [fst] in Hsu. by rewrite Hsu.
Qed.

(** C27: A command line means its settings. The flags of the program are defined without clash; a line is accepted exactly when it is, by the grammar of
    lines - [--name=value], [--name value], [--name] for a flag that is true or false, each with one dash or two, up to [--] or an argument that is no flag - a list of settings
    that the flags accept, which are then made in order, with the arguments behind them left; the grammar gives a line no other settings. Flags without a setting keep their
    defaults, and every list of settings has a line, its normal form. The node is started with these settings if the line has no further arguments,
    does not ask for the help, and the profile files it names can be made. *)
Theorem command_line_settings :
  exists s0, flagSet app_Flags NewFlagSet = Ok s0 /\
    (forall args s rest, Parse s0 args = Ok (s, rest) <-> exists l, line (fs_formal s0) args l rest /\ set_all l s0 = Ok s) /\
    (forall args l rest l' rest', line (fs_formal s0) args l rest -> line (fs_formal s0) args l' rest' -> l' = l /\ rest' = rest) /\
    (forall l s n, set_all l s0 = Ok s -> n ∉ l.*1 ->
       GlobalString (fs_ctx s) n = GlobalString (fs_ctx s0) n /\ GlobalBool (fs_ctx s) n = GlobalBool (fs_ctx s0) n /\
       GlobalInt (fs_ctx s) n = GlobalInt (fs_ctx s0) n /\ GlobalStringSlice (fs_ctx s) n = GlobalStringSlice (fs_ctx s0) n) /\
    (forall l s rest, set_all l s0 = Ok s -> line (fs_formal s0) ((render <$> l) ++ str "--" :: rest) l rest) /\
    (forall create args l s, line (fs_formal s0) args l [] -> set_all l s0 = Ok s -> runnable create l s -> App_Run create args = Ok (ActLivepeer (fs_ctx s))).
Proof using Type.
  destruct app_set as [s0 E0]. exists s0. split; [done|]. split_and!.
  - intros args s rest. split; [apply (Parse_line (length args)); lia|]. intros (l & HL & Hl). by apply (line_Parse _ _ _ _ HL).
  - intros args l rest l' rest' HL. by apply (line_fun _ _ _ _ HL).
  - intros l s n Hl Hn. destruct (set_all_other l s0 s Hl) as [_ Hoth]. destruct (Hoth n Hn) as (E1 & E2 & E3 & E4).
    clear -E1 E2 E3 E4. unfold GlobalString, GlobalBool, GlobalInt, GlobalStringSlice. by rewrite E1, E2, E3, E4.
  - intros l s rest Hl. destruct (set_all_names _ _ _ Hl) as [_ HF]. clear Hl. induction HF as [|[n v] l [f Hf] _ IH]; [constructor|].
    cbn [fmap list_fmap app]. eapply line_equals; [by right| |exact Hf|exact IH]. apply app_name_ok, (app_set_names s0 _ E0). by exists f.
  - intros create args l s HL Hl Hr. by rewrite (App_Run_line create s0 args l [] s E0 HL Hl Hr).
Qed.

(** ** Flags that are not there *)

(** Only flags that are defined have values. *)
Definition only_defined s : Prop := forall n, fs_formal s !! n = None ->
  cx_strings (fs_ctx s) !! n = None /\ cx_bools (fs_ctx s) !! n = None /\ cx_ints (fs_ctx s) !! n = None /\
  cx_slices (fs_ctx s) !! n = None /\ n ∉ cx_set (fs_ctx s).

Lemma define_names_only f names : forall s s', only_defined s -> define_names f names s = Ok s' -> only_defined s'.
Proof using Type.
  induction names as [|m names IH]; intros s s' Hs; cbn; [by intros [= <-]|]. destruct (fs_formal s !! m) eqn:Em; [done|]. apply IH.
  intros n. cbn. rewrite lookup_insert_None. intros [Hn Hne]. destruct (Hs n Hn) as (? & ? & ? & ? & ?).
  destruct f; cbn; rewrite ?lookup_insert_ne by done; done.
Qed.

Lemma flagSet_only flags : forall s s', only_defined s -> flagSet flags s = Ok s' -> only_defined s'.
Proof using Type.
  induction flags as [|f flags IH]; intros s s' Hs; cbn; [by intros [= <-]|].
  destruct (define_names f (each_name f) s) as [s1| |] eqn:E; cbn; try done. apply IH. by eapply define_names_only.
Qed.

Lemma give_only f n v s s' : is_Some (fs_formal s !! n) -> only_defined s -> give f n v s = Ok s' -> only_defined s'.
Proof using Type.
  intros [f' Hf] Hs. unfold give. destruct (Value_Set f n v (fs_ctx s)) as [c|] eqn:Ev; [|done]. intros [= <-] m Hm. cbn in Hm |- *.
  assert (Hne : n <> m) by congruence. destruct (Hs m Hm) as (? & ? & ? & ? & ?).
  enough (cx_strings c !! m = None /\ cx_bools c !! m = None /\ cx_ints c !! m = None /\ cx_slices c !! m = None /\ cx_set c = cx_set (fs_ctx s)) as (? & ? & ? & ? & ->)
    by (split_and!; try done; set_solver).
  destruct f; cbn in Ev; repeat case_match; simplify_eq; cbn; rewrite ?lookup_insert_ne by done; done.
Qed.

Lemma set_all_only l : forall s s', only_defined s -> set_all l s = Ok s' -> only_defined s'.
Proof using Type.
  induction l as [|[n v] l IH]; intros s s' Hs; cbn; [by intros [= <-]|]. destruct (fs_formal s !! n) as [f|] eqn:Ef; [|done].
  destruct (give f n v s) as [s1| |] eqn:Eg; cbn; try done. apply IH. eapply give_only; [|exact Hs|exact Eg]. by exists f.
Qed.

Lemma only_defined_new : only_defined NewFlagSet.
Proof using Type. intros m _. cbn. rewrite !lookup_empty. set_solver. Qed.

(** Normalization keeps the flags. *)
Lemma normalize_only s s' :
  only_defined s -> is_Some (fs_formal s !! str "help") -> is_Some (fs_formal s !! str "h") -> normalizeFlags s = Ok s' ->
  only_defined s' /\ fs_formal s' = fs_formal s.
Proof using Type.
  intros Hs H1 H2. unfold normalizeFlags. repeat case_bool_decide; cbn [andb]; try (by intros [= <-]); intros E;
    (split; [eapply give_only; [|exact Hs|exact E]|eapply give_formal, E]); assumption.
Qed.

(** The values that an action sees. *)
Definition action_ctx (act : action) : option Context_ :=
  match act with ActHelp => None | ActLivepeer ctx | ActStream ctx _ | ActVersion ctx => Some ctx end.

(** The flags a run of the program can see. *)
Lemma Run_sees create args act ctx n : App_Run create args = Ok act -> action_ctx act = Some ctx -> n ∉ app_names ->
  GlobalString ctx n = [] /\ GlobalBool ctx n = false /\ GlobalInt ctx n = 0 /\ GlobalStringSlice ctx n = [] /\ GlobalIsSet ctx n = false.
Proof using Type.
  unfold App_Run. destruct app_set as [s0 E0]. rewrite E0. cbn [rbind]. destruct (Parse s0 args) as [[s rest]|e|] eqn:Ep; cbn [rbind]; [|discriminate|discriminate].
  destruct (normalizeFlags s) as [s'|e|] eqn:En; cbn [rbind]; [|discriminate|discriminate]. destruct (checkHelp s'); [by intros [= <-]|]. intros Hrun Hact Hn.
  assert (ctx = fs_ctx s') as ->.
  { destruct (Setup Handler (fs_ctx s') create) as [[?|] ?]; [discriminate|]. destruct rest as [|name rest]; [injection Hrun as <-; by injection Hact as <-|].
    repeat case_bool_decide; cbn [orb] in Hrun; (destruct (Command_args (name :: rest)) as [[?|]|?|]; try discriminate Hrun; injection Hrun as <-; cbn [action_ctx] in Hact; first [discriminate Hact|by injection Hact as <-]). }
  pose proof (flagSet_only _ _ _ only_defined_new E0) as Hdef.
  destruct (Parse_line (length args) args s0 s rest (le_n _) Ep) as (l & _ & Hl). pose proof (set_all_only _ _ _ Hdef Hl) as Hdef1.
  destruct (set_all_names _ _ _ Hl) as [Hf _]. destruct (normalize_only s s') as [Hdef2 Hf2]; [exact Hdef1|rewrite Hf; apply (app_set_names s0 _ E0), app_help..|exact En|].
  destruct (Hdef2 n) as (H1 & H2 & H3 & H4 & H5).
  { rewrite Hf2, Hf. apply eq_None_not_Some. by rewrite (app_set_names s0 _ E0). }
  clear -H1 H2 H3 H4 H5. unfold GlobalString, GlobalBool, GlobalInt, GlobalStringSlice, GlobalIsSet. rewrite H1, H2, H3, H4. split_and!; try done. by apply bool_decide_eq_false.
Qed.

(** Names of flags that the program reads and does not define. *)
Definition missing_names : list bytes :=
  [Cli.RPCEnabledFlag; Cli.WSEnabledFlag; Cli.RPCPortFlag; Cli.WSPortFlag; Cli.TestNetFlag; Cli.DevModeFlag; Cli.LightModeFlag; Cli.LightServFlag;
   Cli.LightKDFFlag; Cli.MaxPendingPeersFlag; Cli.VMEnableJitFlag; Cli.PasswordFileFlag; GetName Utils.NetworkIdFlag].

Lemma missing_not_app : Forall (fun n => (n ∉ app_names) /\ name_okb n = true) missing_names.
Proof using Type. eapply bool_decide_eq_true_1. vm_compute. reflexivity. Qed.

Section Node.
Context {SK ND ND5 NT NL : Type} (LoadECDSA HexToECDSA : bytes -> option SK) (ParseNode : bytes -> option ND) (ParseNodeV5 : bytes -> option ND5).
Context (nat_Parse : bytes -> option NT) (ParseNetlist : bytes -> option NL) (dflt : Defaults) (ReadFile : bytes -> option bytes).

Abbreviation MakeNode' := (MakeNode LoadECDSA HexToECDSA ParseNode ParseNodeV5 nat_Parse ParseNetlist dflt).

(** The fields of the node that depend on missing flags. *)
Lemma MakeNode_fields ctx name gitCommit nc : MakeNode' ctx name gitCommit = Ok nc ->
  nc_HTTPHost nc = MakeHTTPRpcHost ctx /\ nc_WSHost nc = MakeWSRpcHost ctx /\ nc_MaxPendingPeers nc = GlobalInt ctx Cli.MaxPendingPeersFlag /\
  nc_UseLightweightKDF nc = GlobalBool ctx Cli.LightKDFFlag /\ nc_NoDiscovery nc = (GlobalBool ctx NoDiscoverFlag || GlobalBool ctx LightModeFlag) /\
  nc_DiscoveryV5 nc = (GlobalBool ctx DiscoveryV5Flag || GlobalBool ctx LightModeFlag || (0 <? GlobalInt ctx LightServFlag)) /\
  nc_ListenAddr nc = (if GlobalBool ctx DevModeFlag then str ":0" else MakeListenAddress ctx) /\
  nc_MaxPeers nc = (if GlobalBool ctx DevModeFlag then 0 else GlobalInt ctx MaxPeersFlag).
Proof using Type.
  unfold MakeNode. destruct (if nonempty gitCommit then _ else _) as [vsn|?|]; cbn [rbind]; [|discriminate..].
  destruct (MakeDataDir ctx) as [dir|?|]; cbn [rbind]; [|discriminate..]. destruct (MakeNodeKey _ _ ctx) as [key|?|]; cbn [rbind]; [|discriminate..].
  destruct (nat_Parse _) as [natif|]; cbn [rbind]; [|discriminate]. destruct (if nonempty (GlobalString ctx NetrestrictFlag) then _ else _) as [restrict|?|]; cbn [rbind]; [|discriminate..].
  intros [= <-]. done.
Qed.

(** C36: The program reads flags that it does not define, so that no command line can turn them on, whether it starts the node or runs a command: a
    node made with the values of an accepted line has no HTTP and no web socket interface, keeps the mode of the production network with its discovery as it is,
    leaves the limit of pending connections at its default, passwords never come from a file, and the network that [version] prints is 0. Giving such a flag is a usage error. *)
Theorem missing_flags_inert create args act ctx :
  App_Run create args = Ok act -> action_ctx act = Some ctx ->
  (forall name gitCommit nc, MakeNode' ctx name gitCommit = Ok nc ->
     nc_HTTPHost nc = [] /\ nc_WSHost nc = [] /\ nc_MaxPendingPeers nc = 0 /\ nc_UseLightweightKDF nc = false /\
     nc_NoDiscovery nc = GlobalBool ctx NoDiscoverFlag /\ nc_DiscoveryV5 nc = GlobalBool ctx DiscoveryV5Flag /\
     nc_ListenAddr nc = MakeListenAddress ctx /\ nc_MaxPeers nc = GlobalInt ctx MaxPeersFlag) /\
  MakePasswordList ReadFile ctx = Ok [] /\ version_network ctx = 0 /\
  Forall (fun n => forall rest, App_Run create ((minus :: minus :: n) :: rest) = Err (NotDefined n)) missing_names.
Proof using Type.
  intros Hrun Hact. pose proof (proj1 (Forall_forall _ _) missing_not_app) as Hmiss.
  assert (Hz : forall n, n ∈ missing_names -> GlobalString ctx n = [] /\ GlobalBool ctx n = false /\ GlobalInt ctx n = 0).
  { intros n Hn. destruct (Run_sees create args act ctx n Hrun Hact (proj1 (Hmiss n Hn))) as (Ha & Hb & Hc & _ & _). exact (conj Ha (conj Hb Hc)). }
  assert (Hm : forall n, n ∈ missing_names -> forall rest, App_Run create ((minus :: minus :: n) :: rest) = Err (NotDefined n)).
  { intros n Hn rest. unfold App_Run. destruct app_set as [s0 E0]. rewrite E0. cbn [rbind].
    rewrite (Parse_undefined s0 _ n None); [reflexivity|by right|exact (proj2 (Hmiss n Hn))|]. apply eq_None_not_Some. rewrite (app_set_names s0 _ E0). exact (proj1 (Hmiss n Hn)). }
  rewrite <- Forall_forall in Hm. clear Hrun Hact Hmiss. unfold missing_names in Hz. revert Hz. rewrite <- Forall_forall, !Forall_cons_iff.
  intros ((_ & Hrpc & _) & (_ & Hws & _) & _ & _ & _ & (_ & Hdev & _) & (_ & Hlight & _) & (_ & _ & Hls) & (_ & Hkdf & _) & (_ & _ & Hmp) & _ & (Hpw & _ & _) & (_ & _ & Hnet) & _).
  refine (conj _ (conj _ (conj Hnet Hm))).
  - intros name gitCommit nc Hnode. destruct (MakeNode_fields _ _ _ _ Hnode) as (E1 & E2 & E3 & E4 & E5 & E6 & E7 & E8). clear Hm Hnode.
    unfold MakeHTTPRpcHost, MakeWSRpcHost in *. rewrite Hrpc in E1. rewrite Hws in E2. rewrite Hmp in E3. rewrite Hkdf in E4. rewrite Hlight, orb_false_r in E5.
    rewrite Hlight, Hls, !orb_false_r in E6. rewrite Hdev in E7, E8. exact (conj E1 (conj E2 (conj E3 (conj E4 (conj E5 (conj E6 (conj E7 E8))))))).
  - unfold MakePasswordList. by rewrite Hpw.
Qed.
End Node.

(** ** Flags of a command *)








End Props.

(** ** Witnesses *)

#[export] Instance toy_env : Environment := {|
  DefaultDataDir := str "/home/u/.ethereum"; Getenv := fun n => if bool_decide (n = str "HOME") then str "/home/u" else []; current_home := None;
  NumCPU := 4; MemProfileRate := 524288; glog_String := fun _ => str "3"; glog_Set := fun _ v => Some v |}.

Definition toy_defaults : Defaults :=
  {| params_Version := str "1.5.7"; MainnetBootnodes := []; TestnetBootnodes := []; DiscoveryV5Bootnodes := []; TempDir := str "/tmp" |}.

(** A line with settings of several kinds, behind which the node is made. *)
Definition toy_line : list bytes := [str "--port=0x7700"; str "--datadir"; str "~/lp"; str "--nodiscover"; str "--bootnodes"; str "enode://a"].

Definition toy_ctx : Context_ := match App_Run (fun _ => true) toy_line with Ok (ActLivepeer ctx) => ctx | _ => mkContext ∅ ∅ ∅ ∅ ∅ end.

Abbreviation toy_node := (MakeNode (fun _ => None : option Z) (fun _ => None) (fun u => Some u) (fun u => Some u) (fun s => Some s) (fun s => Some s) toy_defaults).

Example toy_node_made : exists nc, toy_node toy_ctx (str "livepeer") [] = Ok nc /\ nc_ListenAddr nc = str ":30464" /\ nc_DataDir nc = str "/home/u/lp/livepeernet".
Proof.
  destruct (toy_node toy_ctx (str "livepeer") []) as [nc|e|] eqn:E; [|vm_compute in E; discriminate E..]. exists nc. split; [done|].
  assert (Hb : match toy_node toy_ctx (str "livepeer") [] with Ok nc => nc_ListenAddr nc = str ":30464" /\ nc_DataDir nc = str "/home/u/lp/livepeernet" | _ => False end)
    by (vm_compute; by split).
  by rewrite E in Hb.
Qed.

Lemma toy_run : App_Run (fun _ => true) toy_line = Ok (ActLivepeer toy_ctx).
Proof. vm_compute. reflexivity. Qed.

Lemma missing_flags_inert_witness :
  exists nc, toy_node toy_ctx (str "livepeer") [] = Ok nc /\ nc_HTTPHost nc = [] /\ nc_NoDiscovery nc = true /\ version_network toy_ctx = 0.
Proof.
  destruct toy_node_made as (nc & E & _ & _). exists nc. split; [exact E|].
  destruct (missing_flags_inert (fun _ => None : option Z) (fun _ => None) (fun u => Some u) (fun u => Some u) (fun s => Some s) (fun s => Some s) toy_defaults (fun _ => None)
    (fun _ => true) toy_line (ActLivepeer toy_ctx) toy_ctx toy_run eq_refl) as (Hnode & _ & Hv & _).
  destruct (Hnode (str "livepeer") [] nc E) as (H1 & _ & _ & _ & H5 & _).
  split; [exact H1|]. split; [|exact Hv]. rewrite H5. vm_compute. reflexivity.
Defined.



