(* ===== verification/Chain.v ===== *)
(** The Ethereum side of the tools ([cmd/utils/flags.go], [cmd/utils/cmd.go]): the chain configuration and the services that the flags ask for, the export of
    block files, and the interrupts of a running node.

    The chain database and the block chain of the core packages are classes. A block file is the list of what its decoder gives: blocks, or [None] where it does not decode. A file
    whose name ends with [.gz] holds them compressed, in as many members as it was written in, which are read as one; what of it can be read is known only
    after the deferred [Close] of its writer, whose error is dropped. *)
From stdpp Require Import base gmap list strings pretty.
From Stdlib Require Import ZArith Lia.
From S2P Require Import Prelude Types Manifest ManifestProps FileSystem Config Cli Command Tools Flags.

(** ** The chain configuration *)

Record ChainConfig := mkChainConfig {
  cc_ChainId : option Z; cc_HomesteadBlock : option Z; cc_DAOForkBlock : option Z; cc_DAOForkSupport : bool; cc_EIP150Block : option Z;
  cc_EIP150Hash : bytes; cc_EIP155Block : option Z; cc_EIP158Block : option Z
}.

#[export] Instance ChainConfig_eq_dec : EqDecision ChainConfig.
Proof. solve_decision. Defined.

Definition MainNetGenesisHash : bytes := Hex2Bytes (str "d4e56740f876aef8c010b86a40d5f56745a118d0906a34e69aec8c0db1cb8fa3").
Definition TestNetGenesisHash : bytes := Hex2Bytes (str "41941023680923e0fe4d74a34bdac8141f2540e3ae90623718e47d66d1ca4a2d").
Definition MainNetHomesteadGasRepriceHash : bytes := Hex2Bytes (str "2086799aeebeae135c246c65021c82b4e15a2c451340993aacfd2751886514f0").

Definition MainnetChainConfig : ChainConfig := {|
  cc_ChainId := Some 1; cc_HomesteadBlock := Some 1150000; cc_DAOForkBlock := Some 1920000; cc_DAOForkSupport := true; cc_EIP150Block := Some 2463000;
  cc_EIP150Hash := MainNetHomesteadGasRepriceHash; cc_EIP155Block := Some 2675000; cc_EIP158Block := Some 2675000 |}.
Definition TestnetChainConfig : ChainConfig := {|
  cc_ChainId := Some 3; cc_HomesteadBlock := Some 0; cc_DAOForkBlock := None; cc_DAOForkSupport := true; cc_EIP150Block := Some 0;
  cc_EIP150Hash := TestNetGenesisHash; cc_EIP155Block := Some 10; cc_EIP158Block := Some 10 |}.

Definition new_ChainConfig : ChainConfig := {|
  cc_ChainId := None; cc_HomesteadBlock := None; cc_DAOForkBlock := None; cc_DAOForkSupport := false; cc_EIP150Block := None;
  cc_EIP150Hash := make_bytes 32; cc_EIP155Block := None; cc_EIP158Block := None |}.

(** A chain database: the hash of its first block, and the configuration stored for a first block, which may be missing or unreadable. *)
Inductive stored_config := ConfigStored (c : ChainConfig) | ConfigNotFound | ConfigError.

Class ChainDb (DB : Type) := {
  db_genesis : DB -> option bytes;
  db_config : DB -> bytes -> stored_config;
  WriteOlympicGenesisBlock : DB -> option DB;
  WriteTestNetGenesisBlock : DB -> option DB
}.

Definition with_ChainId (id : option Z) (c : ChainConfig) : ChainConfig := {|
  cc_ChainId := id; cc_HomesteadBlock := cc_HomesteadBlock c; cc_DAOForkBlock := cc_DAOForkBlock c; cc_DAOForkSupport := cc_DAOForkSupport c;
  cc_EIP150Block := cc_EIP150Block c; cc_EIP150Hash := cc_EIP150Hash c; cc_EIP155Block := cc_EIP155Block c; cc_EIP158Block := cc_EIP158Block c |}.

Section Chain.
Context {DB BC : Type} `{ChainDb DB}.
(** The names of the databases that open, with their cache and handles, and the block chain of a database. *)
Context (OpenDatabase : bytes -> Z -> Z -> option DB) (NewBlockChain : DB -> ChainConfig -> option BC).
Context (rlimit : option Rlimit) (setOk : Rlimit -> bool) (rlimit_again : Rlimit -> option Rlimit).
Implicit Types (ctx : Context_) (db : DB).

(** For the first block of the main network every field of the configuration is set, whatever was stored. *)
Definition MakeChainConfigFromDb ctx db : result fatal ChainConfig :=
  let genesis := db_genesis db in
  let! config :=
    match genesis with
    | None => Ok new_ChainConfig
    | Some h => match db_config db h with ConfigStored c => Ok c | ConfigNotFound => Ok new_ChainConfig | ConfigError => Err FatalChainConfig end
    end in
  let config := match cc_ChainId config with None => with_ChainId (Some 0) config | Some _ => config end in
  let testnet := GlobalBool ctx TestNetFlag in
  let defaults :=
    match genesis with
    | None => true
    | Some h => (bool_decide (h = MainNetGenesisHash) && negb testnet) || (bool_decide (h = TestNetGenesisHash) && testnet)
    end in
  Ok (if defaults then if testnet then TestnetChainConfig else MainnetChainConfig else config).

Definition MakeChainDatabase ctx : result fatal DB :=
  let! handles := MakeDatabaseHandles rlimit setOk rlimit_again in
  match OpenDatabase (ChainDbName ctx) (GlobalInt ctx (GetName Utils.CacheFlag)) handles with
  | Some db => Ok db
  | None => Err FatalOpenDatabase
  end.

Definition MakeChainConfig ctx : result fatal ChainConfig :=
  let! db := MakeChainDatabase ctx in MakeChainConfigFromDb ctx db.

Definition OlympicFlag : bytes := GetName Utils.OlympicFlag.

Definition MakeChain ctx : result fatal (BC * DB) :=
  let! db := MakeChainDatabase ctx in
  let! db := if GlobalBool ctx OlympicFlag then match WriteOlympicGenesisBlock db with Some db => Ok db | None => Err FatalGenesis end else Ok db in
  let! db := if GlobalBool ctx TestNetFlag then match WriteTestNetGenesisBlock db with Some db => Ok db | None => Err FatalGenesis end else Ok db in
  let! chainConfig := MakeChainConfigFromDb ctx db in
  match NewBlockChain db chainConfig with Some chain => Ok (chain, db) | None => Err FatalChain end.

(** ** The Ethereum service *)

Inductive genesis := DefaultGenesis | OlympicGenesis | TestnetGenesis.

Record EthConfig := mkEthConfig {
  ec_Etherbase : bytes; ec_ChainConfig : ChainConfig; ec_FastSync : bool; ec_LightMode : bool; ec_LightServ : Z; ec_LightPeers : Z; ec_MaxPeers : Z;
  ec_DatabaseCache : Z; ec_DatabaseHandles : Z; ec_NetworkId : Z; ec_MinerThreads : Z; ec_ExtraData : bytes; ec_NatSpec : bool; ec_DocRoot : bytes;
  ec_GasPrice : Z; ec_GpoMinGasPrice : Z; ec_GpoMaxGasPrice : Z; ec_GpoFullBlockRatio : Z; ec_GpobaseStepDown : Z; ec_GpobaseStepUp : Z;
  ec_GpobaseCorrectionFactor : Z; ec_SolcPath : bytes; ec_AutoDAG : bool; ec_Genesis : genesis; ec_PowTest : bool
}.

(** The networks of the flags are changes of the configuration. *)
Definition with_network (id gasPrice : Z) (g : genesis) (powTest : bool) (c : EthConfig) : EthConfig := {|
  ec_Etherbase := ec_Etherbase c; ec_ChainConfig := ec_ChainConfig c; ec_FastSync := ec_FastSync c; ec_LightMode := ec_LightMode c;
  ec_LightServ := ec_LightServ c; ec_LightPeers := ec_LightPeers c; ec_MaxPeers := ec_MaxPeers c; ec_DatabaseCache := ec_DatabaseCache c;
  ec_DatabaseHandles := ec_DatabaseHandles c; ec_NetworkId := id; ec_MinerThreads := ec_MinerThreads c; ec_ExtraData := ec_ExtraData c;
  ec_NatSpec := ec_NatSpec c; ec_DocRoot := ec_DocRoot c; ec_GasPrice := gasPrice; ec_GpoMinGasPrice := ec_GpoMinGasPrice c;
  ec_GpoMaxGasPrice := ec_GpoMaxGasPrice c; ec_GpoFullBlockRatio := ec_GpoFullBlockRatio c; ec_GpobaseStepDown := ec_GpobaseStepDown c;
  ec_GpobaseStepUp := ec_GpobaseStepUp c; ec_GpobaseCorrectionFactor := ec_GpobaseCorrectionFactor c; ec_SolcPath := ec_SolcPath c;
  ec_AutoDAG := ec_AutoDAG c; ec_Genesis := g; ec_PowTest := powTest |}.

(** The services that a node runs; a full node with [les] also serves light clients. *)
Inductive service := SvcLight (c : EthConfig) | SvcFull (c : EthConfig) (les : bool) | SvcWhisper | SvcStats (url : bytes).

(** [common.String2Big], the accounts of the node, and whether it takes another service. *)
Context `{Environment} (String2Big : bytes -> Z) {AM SK : Type} `{AccountManager AM SK} (accman : AM) (accounts : nat) (Register : service -> bool).

Abbreviation int ctx f := (GlobalInt ctx (GetName f)) (only parsing).
Abbreviation flag ctx f := (GlobalBool ctx (GetName f)) (only parsing).
Abbreviation text_of ctx f := (GlobalString ctx (GetName f)) (only parsing).

Definition exclusive ctx : bool :=
  (length (filter (fun f => GlobalBool ctx f = true) [DevModeFlag; TestNetFlag; OlympicFlag]) <=? 1)%nat.

Definition eth_config ctx (extra : bytes) : result fatal EthConfig :=
  let! etherbase := MakeEtherbase accman accounts ctx in
  let! chainConfig := MakeChainConfig ctx in
  let! handles := MakeDatabaseHandles rlimit setOk rlimit_again in
  Ok {| ec_Etherbase := etherbase; ec_ChainConfig := chainConfig; ec_FastSync := flag ctx Utils.FastSyncFlag; ec_LightMode := flag ctx Utils.LightModeFlag;
        ec_LightServ := int ctx Utils.LightServFlag; ec_LightPeers := int ctx Utils.LightPeersFlag; ec_MaxPeers := int ctx Utils.MaxPeersFlag;
        ec_DatabaseCache := int ctx Utils.CacheFlag; ec_DatabaseHandles := handles; ec_NetworkId := int ctx Utils.NetworkIdFlag;
        ec_MinerThreads := int ctx Utils.MinerThreadsFlag; ec_ExtraData := MakeMinerExtra extra ctx; ec_NatSpec := flag ctx Utils.NatspecEnabledFlag;
        ec_DocRoot := text_of ctx Utils.DocRootFlag; ec_GasPrice := String2Big (text_of ctx Utils.GasPriceFlag);
        ec_GpoMinGasPrice := String2Big (text_of ctx Utils.GpoMinGasPriceFlag); ec_GpoMaxGasPrice := String2Big (text_of ctx Utils.GpoMaxGasPriceFlag);
        ec_GpoFullBlockRatio := int ctx Utils.GpoFullBlockRatioFlag; ec_GpobaseStepDown := int ctx Utils.GpobaseStepDownFlag;
        ec_GpobaseStepUp := int ctx Utils.GpobaseStepUpFlag; ec_GpobaseCorrectionFactor := int ctx Utils.GpobaseCorrectionFactorFlag;
        ec_SolcPath := text_of ctx Utils.SolcPathFlag; ec_AutoDAG := flag ctx Utils.AutoDAGFlag || flag ctx Utils.MiningEnabledFlag;
        ec_Genesis := DefaultGenesis; ec_PowTest := false |}.

Definition choose_network ctx (c : EthConfig) : EthConfig :=
  let given := GlobalIsSet ctx (GetName Utils.NetworkIdFlag) in
  if GlobalBool ctx OlympicFlag then with_network (if given then ec_NetworkId c else 1) (ec_GasPrice c) OlympicGenesis (ec_PowTest c) c
  else if GlobalBool ctx TestNetFlag then with_network (if given then ec_NetworkId c else 3) (ec_GasPrice c) TestnetGenesis (ec_PowTest c) c
  else if GlobalBool ctx DevModeFlag then
    with_network (ec_NetworkId c) (if GlobalIsSet ctx (GetName Utils.GasPriceFlag) then ec_GasPrice c else 0) OlympicGenesis true c
  else c.

(** The service that is registered and the number of trie generations to keep. *)
Definition RegisterEthService ctx (extra : bytes) (MaxTrieCacheGen : Z) : result fatal (service * Z) :=
  if negb (exclusive ctx) then Err FatalExclusive
  else
    let! ethConf := eth_config ctx extra in
    let ethConf := choose_network ctx ethConf in
    let gen := int ctx Utils.TrieCacheGenFlag in
    let gens := if 0 <? gen then gen mod 2 ^ 16 else MaxTrieCacheGen in
    let svc := if ec_LightMode ethConf then SvcLight ethConf else SvcFull ethConf (0 <? ec_LightServ ethConf) in
    if Register svc then Ok (svc, gens) else Err FatalRegister.

Definition RegisterShhService : result fatal service := if Register SvcWhisper then Ok SvcWhisper else Err FatalRegister.
Definition RegisterEthStatsService (url : bytes) : result fatal service := if Register (SvcStats url) then Ok (SvcStats url) else Err FatalRegister.

(** The variables of the core packages that [SetupNetwork] changes. *)
Record NetworkParams := mkNetworkParams {
  np_DurationLimit : Z; np_GenesisGasLimit : Z; np_MinGasLimit : Z; np_MaximumExtraDataSize : Z; np_NetworkIdDefault : Z; np_BlockReward : Z;
  np_ExpDiffPeriod : Z; np_TargetGasLimit : Z
}.

Definition SetupNetwork ctx (p : NetworkParams) : NetworkParams :=
  let p := if GlobalBool ctx OlympicFlag then
             {| np_DurationLimit := 8; np_GenesisGasLimit := 3141592; np_MinGasLimit := 125000; np_MaximumExtraDataSize := 1024; np_NetworkIdDefault := 0;
                np_BlockReward := 1500000000000000000; np_ExpDiffPeriod := 2 ^ 63 - 1; np_TargetGasLimit := np_TargetGasLimit p |}
           else p in
  {| np_DurationLimit := np_DurationLimit p; np_GenesisGasLimit := np_GenesisGasLimit p; np_MinGasLimit := np_MinGasLimit p;
     np_MaximumExtraDataSize := np_MaximumExtraDataSize p; np_NetworkIdDefault := np_NetworkIdDefault p; np_BlockReward := np_BlockReward p;
     np_ExpDiffPeriod := np_ExpDiffPeriod p; np_TargetGasLimit := String2Big (text_of ctx Utils.TargetGasLimitFlag) |}.
End Chain.

(** ** Exporting blocks *)

(** What the export asks of a chain: the number of its last block and the blocks by number. *)
Class ChainBlocks (C B : Type) := { CurrentNumber : C -> Z; GetBlockByNumber : C -> Z -> option B }.

Inductive exporterr := OpenFailed | BadRange (first last : Z) | BlockNotFound (n : Z) | WriteFailed.

(** A write of a block: done, or failed with a part of it written or nothing. *)
Inductive written := Whole | Torn | Nothing.

Section Exporting.
Context {C B : Type} `{ChainBlocks C B}.
(** Whether a file can be opened for writing, what becomes of the write of a block, and what can be read of a compressed file once its writer was
    closed, behind the blocks that were given to it. *)
Context (openOk : bytes -> bool) (write : B -> written) (gz_Close : bytes -> list (option B) -> list (option B)).

(** Block files by name. *)
Abbreviation files := (gmap bytes (list (option B))).

(** The loop of [ExportN]: what is written and the error. *)
Fixpoint export_loop (chain : C) (n : nat) (nr : Z) : list (option B) * option exporterr :=
  match n with
  | O => ([], None)
  | S n =>
    match GetBlockByNumber chain nr with
    | None => ([], Some (BlockNotFound nr))
    | Some block =>
      match write block with
      | Whole => let '(bs, err) := export_loop chain n (nr + 1) in (Some block :: bs, err)
      | Torn => ([None], Some WriteFailed)
      | Nothing => ([], Some WriteFailed)
      end
    end
  end.

Definition ExportN (chain : C) (first last : Z) : list (option B) * option exporterr :=
  if last <? first then ([], Some (BadRange first last)) else export_loop chain (Z.to_nat (last - first + 1)) first.

Definition Export (chain : C) : list (option B) * option exporterr := ExportN chain 0 (CurrentNumber chain).

Definition is_gz (fn : bytes) : bool := bool_decide (str ".gz" `suffix_of` fn).

(** What a file holds of what was written to it, when the deferred calls have run. *)
Definition closed_file (fn : bytes) (bs : list (option B)) : list (option B) := if is_gz fn then gz_Close fn bs else bs.

(** The file is emptied when it is opened, whatever becomes of the export. *)
Definition ExportChain (fs : files) (blockchain : C) (fn : bytes) : option exporterr * files :=
  if negb (openOk fn) then (Some OpenFailed, fs)
  else let '(bs, err) := Export blockchain in (err, <[fn := closed_file fn bs]> fs).

Definition ExportAppendChain (fs : files) (blockchain : C) (fn : bytes) (first last : Z) : option exporterr * files :=
  if negb (openOk fn) then (Some OpenFailed, fs)
  else let '(bs, err) := ExportN blockchain first last in (err, <[fn := default [] (fs !! fn) ++ closed_file fn bs]> fs).

(** [ImportChain] of a file; [None] is a file that cannot be opened. *)
Definition ImportFile `{BlockChain C' B} (interrupted : nat -> bool) (fs : files) (chain : C') (fn : bytes) : option (result importerr C') :=
  match fs !! fn with None => None | Some bs => Some (ImportChain interrupted chain bs) end.
End Exporting.

(** ** Interrupts *)

(** What the goroutine of [StartNode] has done after a number of interrupts: the first one stops the node, the tenth after that ends the process. *)
Record interrupts := mkInterrupts { in_stopping : bool; in_left : nat; in_panic : bool }.
Definition StartNode_signals : interrupts := {| in_stopping := false; in_left := 10; in_panic := false |}.
Definition on_interrupt (s : interrupts) : interrupts :=
  if in_panic s then s
  else if negb (in_stopping s) then {| in_stopping := true; in_left := in_left s; in_panic := false |}
  else match in_left s with
       | S (S n) => {| in_stopping := true; in_left := S n; in_panic := false |}
       | _ => {| in_stopping := true; in_left := 0; in_panic := true |}
       end.

(** [StartNode]: an error of the node is fatal. *)
Definition StartNode (startOk : bool) : result fatal interrupts := if startOk then Ok StartNode_signals else Err FatalStart.

(** [startPeerReporting]: the reports of the ticks until the signal to end. *)
Inductive report_event := Tick (peers : list bytes) | Done.
Fixpoint startPeerReporting (evs : list report_event) : list (list bytes) * bool :=
  match evs with
  | [] => ([], false)
  | Done :: _ => ([], true)
  | Tick peers :: evs => let '(log, ended) := startPeerReporting evs in (peers :: log, ended)
  end.

(** ** Theorems *)

(** The configuration of a chain is that of its network for the first blocks that are known, and what was stored for others; it always has an id. *)
Lemma chain_config_cases {DB} `{ChainDb DB} ctx (db : DB) c :
  MakeChainConfigFromDb ctx db = Ok c ->
  cc_ChainId c <> None /\
  let testnet := GlobalBool ctx TestNetFlag in
  match db_genesis db with
  | None => c = if testnet then TestnetChainConfig else MainnetChainConfig
  | Some h =>
    if bool_decide (h = if testnet then TestNetGenesisHash else MainNetGenesisHash) then c = if testnet then TestnetChainConfig else MainnetChainConfig
    else match db_config db h with
         | ConfigStored c0 => c = with_ChainId (Some (default 0 (cc_ChainId c0))) c0
         | ConfigNotFound => c = with_ChainId (Some 0) new_ChainConfig
         | ConfigError => False
         end
  end.
Proof.
  unfold MakeChainConfigFromDb. destruct (db_genesis db) as [h|]; [|intros [= <-]; by destruct (GlobalBool ctx TestNetFlag)].
  destruct (db_config db h) as [c0| |]; cbn [rbind]; [| |done].
  - intros [= <-]. destruct (GlobalBool ctx TestNetFlag); cbn [negb]; rewrite ?andb_true_r, ?andb_false_r, ?orb_false_r, ?orb_false_l;
      case_bool_decide; (split; [|done || (destruct c0 as [[id|]]; done)]); try done; by destruct c0 as [[id|]].
  - intros [= <-]. destruct (GlobalBool ctx TestNetFlag); cbn [negb]; rewrite ?andb_true_r, ?andb_false_r, ?orb_false_r, ?orb_false_l; case_bool_decide; done.
Qed.

Section Roundtrip.
Context {C B : Type} `{ChainBlocks C B} (openOk : bytes -> bool) (write : B -> written) (gz_Close : bytes -> list (option B) -> list (option B)).

Abbreviation ExportChain' := (ExportChain openOk write gz_Close).
Abbreviation ExportAppendChain' := (ExportAppendChain openOk write gz_Close).

(** Nothing is lost when the writer of a compressed file is closed. *)
Definition closes_whole (fn : bytes) : Prop := forall bs, closed_file gz_Close fn bs = bs.

Lemma filter_keeps (P : B -> Prop) `{forall b, Decision (P b)} (l : list B) : Forall P l -> filter P l = l.
Proof using Type. induction 1 as [|b l Hb _ IH]; [done|]. by rewrite filter_cons_True, IH. Qed.

(** What an export without error wrote. *)
Lemma export_loop_spec (chain : C) n : forall nr bs, export_loop write chain n nr = (bs, None) ->
  exists blocks, bs = Some <$> blocks /\ length blocks = n /\ forall i, (i < n)%nat -> GetBlockByNumber chain (nr + Z.of_nat i) = blocks !! i.
Proof using Type.
  induction n as [|n IH]; intros nr bs; cbn [export_loop]; [intros [= <-]; exists []; split_and!; [done|done|lia]|].
  destruct (GetBlockByNumber chain nr) as [b|] eqn:Eb; [|done]. destruct (write b); [|done..].
  destruct (export_loop write chain n (nr + 1)) as [bs' err] eqn:E. intros [= <- ->]. destruct (IH _ _ E) as (blocks & -> & Hl & Hi). exists (b :: blocks). split_and!; [done|cbn; lia|].
  intros [|i] Hlt; [by rewrite Z.add_0_r|]. cbn. rewrite <- Hi by lia. f_equal. lia.
Qed.

Lemma export_loop_app (chain : C) n m : forall nr bs1 bs2, export_loop write chain n nr = (bs1, None) -> export_loop write chain m (nr + Z.of_nat n) = (bs2, None) ->
  export_loop write chain (n + m) nr = (bs1 ++ bs2, None).
Proof using Type.
  induction n as [|n IH]; intros nr bs1 bs2; cbn [export_loop Nat.add]; [intros [= <-]; by rewrite Z.add_0_r|].
  destruct (GetBlockByNumber chain nr) as [b|]; [|done]. destruct (write b); [|done..].
  destruct (export_loop write chain n (nr + 1)) as [bs' err] eqn:E. intros [= <- ->] E2. erewrite IH; [done|exact E|]. rewrite <- E2. f_equal. lia.
Qed.

(** An export in two parts makes the file of an export at once. *)
Lemma export_parts (fs : gmap bytes (list (option B))) (chain : C) fn k fs1 fs2 :
  closes_whole fn -> fs !! fn = None -> 0 <= k < CurrentNumber chain -> ExportAppendChain' fs chain fn 0 k = (None, fs1) ->
  ExportAppendChain' fs1 chain fn (k + 1) (CurrentNumber chain) = (None, fs2) -> ExportChain' fs chain fn = (None, fs2).
Proof using Type.
  intros Hw Hn Hk. unfold ExportAppendChain, ExportChain, Export, ExportN. destruct (openOk fn); cbn [negb]; [|done].
  destruct (Z.ltb_spec k 0); [lia|]. destruct (Z.ltb_spec (CurrentNumber chain) (k + 1)); [lia|]. destruct (Z.ltb_spec (CurrentNumber chain) 0); [lia|].
  destruct (export_loop write chain (Z.to_nat (k - 0 + 1)) 0) as [bs1 e1] eqn:E1. intros [= -> <-].
  destruct (export_loop write chain _ (k + 1)) as [bs2 e2] eqn:E2. intros [= -> <-]. rewrite lookup_insert_eq, Hn, insert_insert_eq, !Hw. cbn [from_option id app].
  replace (Z.to_nat (CurrentNumber chain - 0 + 1)) with (Z.to_nat (k - 0 + 1) + Z.to_nat (CurrentNumber chain - (k + 1) + 1))%nat by lia.
  erewrite export_loop_app; [by rewrite Hw|exact E1|]. rewrite <- E2. f_equal. lia.
Qed.

Context {C' : Type} `{!BlockChain C' B}.

(** C28: A chain that was exported is handed over whole by an import: after an export without error, of a file that is not compressed or whose compressed data was
    written when it was closed, the import of the file ends, and what it hands over is the blocks of the exported chain behind the first, in order, in batches
    of at most 2500. It succeeds only if each batch is one the chain has already or one that [InsertChain] takes, and its result is then that of these insertions;
    when it is not interrupted it does succeed if they are taken. *)
Theorem export_import (interrupted : nat -> bool) (fs fs' : gmap bytes (list (option B))) (source : C) (chain : C') fn :
  (forall nr b, GetBlockByNumber source nr = Some b -> block_Number b = nr) -> closes_whole fn ->
  ExportChain' fs source fn = (None, fs') ->
  exists blocks r, ImportFile interrupted fs' chain fn = Some r /\ r <> Err Tools.OutOfFuel /\
    #blocks = CurrentNumber source /\ (forall nr, 0 < nr <= CurrentNumber source -> GetBlockByNumber source nr = blocks !! Z.to_nat (nr - 1)) /\
    concat (batches importBatchSize blocks) = blocks /\ Forall (fun bs => 0 < length bs <= importBatchSize)%nat (batches importBatchSize blocks) /\
    (forall chain', r = Ok chain' -> take_batches chain (batches importBatchSize blocks) = Some chain') /\
    ((forall t, interrupted t = false) -> forall chain', take_batches chain (batches importBatchSize blocks) = Some chain' -> r = Ok chain').
Proof using Type.
  intros Hnum Hw. unfold ExportChain. destruct (openOk fn); cbn [negb]; [|done]. destruct (Export write source) as [bs err] eqn:Ex. intros [= -> <-]. rewrite Hw.
  unfold Export, ExportN in Ex. destruct (Z.ltb_spec (CurrentNumber source) 0); [done|]. destruct (export_loop_spec source _ _ _ Ex) as (all & -> & Hl & Hi).
  destruct all as [|b0 blocks]; [cbn in Hl; lia|]. cbn [length] in Hl.
  assert (Hlook : forall nr, 0 < nr <= CurrentNumber source -> GetBlockByNumber source nr = blocks !! Z.to_nat (nr - 1)).
  { intros nr Hnr. pose proof (Hi (S (Z.to_nat (nr - 1))) ltac:(lia)) as Hn. cbn [lookup list_lookup] in Hn. etrans; [|exact Hn]. f_equal. lia. }
  assert (Hf : filter (fun b => block_Number b <> 0) (b0 :: blocks) = blocks).
  { rewrite filter_cons_False.
    - apply filter_keeps. apply Forall_lookup. intros i b Hb. apply lookup_lt_Some in Hb as Hlt. specialize (Hlook (Z.of_nat i + 1) ltac:(lia)).
      rewrite (Hnum (Z.of_nat i + 1) b); [lia|]. rewrite Hlook. by replace (Z.to_nat (Z.of_nat i + 1 - 1)) with i by lia.
    - specialize (Hi 0%nat ltac:(lia)). cbn in Hi. apply Hnum in Hi. rewrite Hi. intros []. done. }
  destruct (concat_batches importBatchSize blocks) as [Hc HF]; [unfold importBatchSize; lia|].
  unfold ImportFile. rewrite lookup_insert_eq. destruct (ImportChain_complete interrupted chain (Some <$> (b0 :: blocks))) as (H1 & H2 & H3).
  exists blocks. eexists. split; [done|]. split_and!; try done; [unfold zlen; lia| |].
  - intros chain' E. destruct (H2 chain' E) as (bl & Eb & Ht). apply (inj (fmap Some)) in Eb as <-. by rewrite Hf in Ht.
  - intros Hint chain' Ht. apply (H3 (b0 :: blocks)); [done|done|]. by rewrite Hf.
Qed.
End Roundtrip.

(** The tenth interrupt after the first ends the process, none before does. *)
Lemma interrupts_panic n : in_panic (Nat.iter n on_interrupt StartNode_signals) = bool_decide (11 <= n)%nat.
Proof.
  assert (Hp : forall k s, in_panic s = true -> in_panic (Nat.iter k on_interrupt s) = true).
  { induction k as [|k IH]; intros s Hs; [done|]. change (in_panic (on_interrupt (Nat.iter k on_interrupt s)) = true). unfold on_interrupt at 1. by rewrite (IH s Hs), (IH s Hs). }
  destruct (decide (11 <= n)%nat) as [Hn|Hn].
  - rewrite bool_decide_eq_true_2 by done. replace n with ((n - 11) + 11)%nat by lia. rewrite Nat.iter_add. by apply Hp.
  - rewrite bool_decide_eq_false_2 by done. do 11 (destruct n as [|n]; [done|]). lia.
Qed.

Section Network.
Context {DB : Type} `{ChainDb DB} (OpenDatabase : bytes -> Z -> Z -> option DB).
Context (rlimit : option Rlimit) (setOk : Rlimit -> bool) (rlimit_again : Rlimit -> option Rlimit).
Context `{Environment} (String2Big : bytes -> Z) {AM SK : Type} `{AccountManager AM SK} (accman : AM) (accounts : nat) (Register : service -> bool).

Definition service_config (s : service) : option EthConfig := match s with SvcLight c | SvcFull c _ => Some c | _ => None end.

(** At most one network is chosen, with its first block; the id of the network is that of the flag if it was given. *)
Lemma RegisterEthService_network ctx extra g svc gens :
  RegisterEthService OpenDatabase rlimit setOk rlimit_again String2Big accman accounts Register ctx extra g = Ok (svc, gens) ->
  exists c, service_config svc = Some c /\
    let id := GlobalInt ctx (GetName Utils.NetworkIdFlag) in
    let given := GlobalIsSet ctx (GetName Utils.NetworkIdFlag) in
    match GlobalBool ctx DevModeFlag, GlobalBool ctx TestNetFlag, GlobalBool ctx OlympicFlag with
    | false, false, false => ec_NetworkId c = id /\ ec_Genesis c = DefaultGenesis /\ ec_PowTest c = false
    | false, false, true => ec_NetworkId c = (if given then id else 1) /\ ec_Genesis c = OlympicGenesis /\ ec_PowTest c = false
    | false, true, false => ec_NetworkId c = (if given then id else 3) /\ ec_Genesis c = TestnetGenesis /\ ec_PowTest c = false
    | true, false, false => ec_NetworkId c = id /\ ec_Genesis c = OlympicGenesis /\ ec_PowTest c = true /\
        (GlobalIsSet ctx (GetName Utils.GasPriceFlag) = false -> ec_GasPrice c = 0)
    | _, _, _ => False
    end.
Proof using Type.
  unfold RegisterEthService, exclusive. rewrite !filter_cons, filter_nil.
  destruct (eth_config _ _ _ _ _ _ _ ctx extra) as [c0|e|] eqn:Ec.
  2,3: repeat case_decide; cbn; discriminate.
  assert (ec_NetworkId c0 = GlobalInt ctx (GetName Utils.NetworkIdFlag) /\ ec_Genesis c0 = DefaultGenesis /\ ec_PowTest c0 = false) as (Hid & Hg & Hp).
  { revert Ec. unfold eth_config. destruct (MakeEtherbase _ _ _); cbn [rbind]; [|discriminate..]. destruct (MakeChainConfig _ _ _ _ _); cbn [rbind]; [|discriminate..].
    destruct (MakeDatabaseHandles _ _ _); cbn [rbind]; [|discriminate..]. intros [= <-]. done. }
  cbn [rbind]. intros E. exists (choose_network ctx c0).
  assert (Hs : service_config svc = Some (choose_network ctx c0)).
  { revert E. repeat case_decide; cbn [length Nat.leb negb]; try discriminate; destruct (ec_LightMode _), (Register _); try discriminate; by intros [= <- _]. }
  split; [exact Hs|]. clear Hs. revert E. unfold choose_network.
  destruct (GlobalBool ctx DevModeFlag), (GlobalBool ctx TestNetFlag), (GlobalBool ctx OlympicFlag); cbn [decide length Nat.leb negb]; try discriminate; intros _;
    split_and!; cbn; try done; try (by case_match); by intros ->.
Qed.
End Network.

(** ** Witness *)

#[local] Instance list_blocks : ChainBlocks (list Z) Z := {| CurrentNumber c := #c - 1; GetBlockByNumber c n := if bool_decide (c !! Z.to_nat n = Some n) then Some n else None |}.
#[local] Instance list_chain' : BlockChain (list Z) Z := {| block_Number b := b; HasBlock c b := bool_decide (b ∈ c); InsertChain c bs := Some (c ++ bs) |}.

Definition whole_file (fn : bytes) (bs : list (option Z)) : list (option Z) := bs.

Lemma export_import_witness :
  exists fs', ExportChain (fun _ => true) (fun _ => Whole) whole_file ∅ [0; 1; 2] (str "chain.gz") = (None, fs') /\
    ImportFile (fun _ => false) fs' [0] (str "chain.gz") = Some (Ok [0; 1; 2]).
Proof.
  exists {[str "chain.gz" := [Some 0; Some 1; Some 2]]}. split; [vm_compute; reflexivity|].
  destruct (export_import (fun _ => true) (fun _ => Whole) whole_file (fun _ => false) ∅ {[str "chain.gz" := [Some 0; Some 1; Some 2]]} [0; 1; 2] [0] (str "chain.gz"))
    as (blocks & r & -> & _ & Hl & Hb & _ & _ & _ & Ht).
  - intros nr b. cbn. case_bool_decide; [by intros [= <-]|done].
  - intros bs. vm_compute. by destruct bs.
  - vm_compute. reflexivity.
  - f_equal. destruct blocks as [|b1 [|b2 [|b3 bl]]]; try (vm_compute in Hl; done); [|change (CurrentNumber [0; 1; 2]) with 2 in Hl; unfold zlen in Hl; cbn [length] in Hl; lia].
    pose proof (Hb 1 ltac:(vm_compute; split; congruence)) as E1. pose proof (Hb 2 ltac:(vm_compute; split; congruence)) as E2.
    vm_compute in E1, E2. injection E1 as <-. injection E2 as <-. by apply Ht.
Defined.

(** A compressed file that does not fit on the disk: the data is written when the writer is closed, whose error is dropped, so the export reports
    success, and the import of the file fails. *)
Example export_gz_lost :
  let '(err, fs) := ExportChain (fun _ => true) (fun _ => Whole) (fun _ _ => [None]) ∅ [0; 1; 2] (str "chain.gz") in
  err = None /\ ImportFile (fun _ => false) fs [0] (str "chain.gz") = Some (Err (BadBlock 0)).
Proof. vm_compute. done. Qed.
